(* ===== verification/_CoqProject ===== *)
-Q . S2P
Prelude.v
Interfaces.v
Protocol.v
Switchboard.v
Bridge.v
TunnelManager.v
Agent.v
StackLock.v
Json.v
Schedule.v
HealthPolicy.v
Placement.v
Backoff.v
Heartbeat.v
Reconcile.v
Concurrency.v
Cache.v
Restore.v
AutoHeal.v
GatePoll.v
HealthGate.v
GateSteps.v
SourceRows.v
SourceTx.v
SourceInv.v
SourceSteps.v
SourceProps.v
Dialer.v
DialerSteps.v
DialerProps.v
Handoff.v
Controller.v
ControllerSteps.v
ControllerProps.v
DockerEvents.v
DockerSteps.v
DockerProps.v
DockerSignals.v
DockerRepeat.v
DockerRuns.v
Outbox.v
OutboxProps.v
OutboxRuns.v
HistoryPages.v
HistoryProps.v
HistoryRuns.v
Access.v
Auth.v
AccessProps.v
AccessRuns.v
