(* ===== verification/Prelude.v ===== *)
(** * Sencho: verification of the backend control plane

    Sencho is a self-hosted control plane for Docker Compose stacks on several
    nodes. Its backend (backend/src) is one Node.js process: a single-threaded
    event loop that runs handlers to completion. This library models parts of
    it as state transformers and decision functions and proves what makes them
    correct.

    ** The program's parts and how they interact

    A primary reaches a remote node through a pilot tunnel, one WebSocket dialled
    by the agent on that node. On the primary, [PilotTunnelManager] keeps one
    [PilotTunnelBridge] per node; the bridge turns loopback HTTP requests,
    upgrades and mesh TCP streams into frames of pilot/protocol.ts. On the node,
    [PilotAgent] replays HTTP and WebSocket streams on its local server and
    hands TCP frames to a [TcpStreamSwitchboard]. Both ends run the heartbeat of
    utils/wsHeartbeat.ts. Nodes without an agent are dialled by the primary:
    [MeshProxyTunnelDialer] opens their bridges and hands them to the registry.
    Every operation on a stack takes a lock of
    [StackOpLockService]. The GitOps services record what a Git source wants in
    application and generation rows: derive.ts projects a row to a state,
    outcomes.ts reports it, backoff.ts times retries, placementPolicy.ts and
    healthPolicy.ts decide what may happen without an operator. [SourceController]
    polls the sources, retries them, and under an automatic policy accepts what
    they staged and hands it off (gitManagedHandoff.ts). Every transition leaves a
    history row: the insert writes an outbox row beside a notifiable one, a macrotask
    announces the rows that committed and turns outbox rows into notifications, and
    callers page through the trail (helpers/gitopsHistoryPage.ts). Alerts are held
    back in the windows of helpers/notificationSchedule.ts.

    A request is authenticated (middleware/auth.ts) by a session, an API token or the
    machine credential of another instance, and checked against a global role and grants
    on single stacks and nodes (middleware/permissions.ts). One that is meant for another
    node is checked on the hub and sent on with the role and the evidence of the grants it
    needs (proxy/remoteNodeProxy.ts), which the remote believes under that credential only.

    After an update or a deploy, [HealthGateService] observes the containers for
    a window and gives a verdict; while it observes one service, and while
    [StackUpdateOrchestrator] recreates it, [AutoHealService] is told not to
    restart it. What it restarts it learns from [DockerEventService], which follows
    the container events of the local Docker daemon, classifies exits and raises the
    crash and health alerts. A restore that overwrites a volume records an intent, fences the
    containers that mount it and holds the locks of their stacks until the fence
    is released (services/recovery). Reads of remote nodes go through
    utils/mapWithConcurrency.ts, renders through composeRenderSemaphore.ts, and
    what is fetched often through [CacheService].

    ** Files

    - [Prelude]: the monad of the stateful components, notations, tactics, the
      hint database [sencho], and lemmas on lists, maps and integers.
    - [Interfaces]: the class [TunnelBridge] with its laws: what the registry
      needs of a bridge. [TunnelManager] is proved against it and [Bridge] gives
      the instance.
    - [Protocol] (pilot/protocol.ts): frame types, the binary codec, payload
      normalisation, the stream-id allocator.
    - [Switchboard] (mesh/tcpStreamSwitchboard.ts): forward and reverse TCP
      streams, idle timers, backpressure.
    - [Bridge] (services/PilotTunnelBridge.ts): the primary end of a tunnel.
    - [TunnelManager] (services/PilotTunnelManager.ts): the registry of tunnels.
    - [Agent] (pilot/agent.ts): connections, credentials, HTTP and WebSocket
      streams; it runs [Switchboard]'s operations on a switchboard of its own.
    - [StackLock] (services/StackOpLockService.ts): the lock table.
    - [Json]: JSON values as the validating readers see them.
    - [Schedule] (helpers/notificationSchedule.ts): maintenance windows.
    - [HealthPolicy] (services/gitops/healthPolicy.ts): what a health verdict
      does to a rollout.
    - [Placement] (services/gitops/placementPolicy.ts): unattended placement.
    - [Backoff] (services/gitops/backoff.ts, the code lists of git/errors.ts and
      types/gitSourceErrorCode.ts): failure classes and retry times.
    - [Heartbeat] (utils/wsHeartbeat.ts).
    - [Reconcile] (services/gitops/derive.ts, [deriveSource]; outcomes.ts).
    - [Concurrency] (utils/mapWithConcurrency.ts; the slots of
      services/network/composeRenderSemaphore.ts).
    - [Cache] (services/CacheService.ts): entries, joined computations,
      generations.
    - [Restore] (services/recovery/restoreIntents.ts and restoreFence.ts): the
      two tables, the boot pass, the fence with the starts in flight; it checks
      the locks of [StackLock].
    - [AutoHeal] (services/AutoHealService.ts): passes, guards, suppressions,
      leases.
    - [GatePoll] (services/HealthGateService.ts, one poll): the accounting of the
      containers and the verdict of stack and service gates.
    - [HealthGate] (the rest of HealthGateService.ts): gates in flight, tokens,
      reservations, supersession, polls split at their awaits, over [GatePoll]
      and the suppressions of [AutoHeal].
    - [GateSteps]: what every step of [HealthGate] keeps, and its theorems.
    - [SourceRows] (services/gitops/types.ts, store.ts): the rows of a Direct
      application and its targets, the tables, and transactions over them.
    - [SourceTx] (services/gitops/transitions.ts): the transitions that move the
      source columns of a Direct application.
    - [SourceInv], [SourceSteps]: the steps, the invariant of the tables, the
      rule of [mutateApp], and that every transition keeps the invariant.
    - [SourceProps]: the theorems on those transitions; the projection of
      [Reconcile] is read over their tables.
    - [Dialer] (services/MeshProxyTunnelDialer.ts, utils/wsUrl.ts): dials split at
      their awaits, remembered failures, redials, idle checks, why a dial failed.
      [DialerSteps]: what every event keeps. [DialerProps]: the theorems.
    - [Handoff] (services/gitops/sourceConfirmation.ts, gitManagedHandoff.ts, the
      hold of handoff.ts, boundedPostAccept.ts): what an operator confirmed, the
      gates of the handoff, what is reported of it.
    - [Controller] (services/gitops/SourceController.ts, triggers.ts, the
      comparison of statefulGuard.ts, the due scans of store.ts): the timer, due
      sources, evaluations split at their awaits, wakes, operator pulls, automatic
      acceptance. [ControllerSteps]: what every event keeps. [ControllerProps]:
      the theorems.
    - [DockerEvents] (services/DockerEventService.ts,
      ContainerLifecycleClassifier.ts): the event stream, its reconnects, container
      states, deaths in their grace window, alerts. [DockerSteps]: the relations every
      handler keeps. [DockerProps], [DockerRepeat]: connection, rate and repetition of
      alerts. [DockerSignals]: the crash signal, up to the decision of [AutoHeal].
      [DockerRuns]: concrete runs.
    - [Outbox] (services/gitops/outbox.ts, attemptPayload.ts, notifications.ts,
      publish.ts, readAuth.ts; the insert of history.ts): history and outbox rows,
      payloads, the drain, notifications and their keys, the repair.
      [OutboxProps]: the theorems. [OutboxRuns]: concrete runs, with a JSON printer
      and parser for flat objects.
    - [HistoryPages] (helpers/gitopsHistoryPage.ts; the reads of history.ts): filters,
      cursors, pages and who may read a row, by the rules of [Outbox].
      [HistoryProps]: the theorems. [HistoryRuns]: a concrete trail.
    - [Access] (middleware/permissions.ts, helpers/stackRouteAuth.ts, the role
      assignments of DatabaseService.ts): roles, grants, the two resolvers, which stack
      and action a path names, the evidence header.
    - [Auth] (middleware/auth.ts, apiTokenScope.ts, authGate.ts; utils/apiTokenFormat.ts,
      apiTokenAuth.ts; the permission gate and the headers of proxy/remoteNodeProxy.ts):
      tokens, scopes, sessions, machine credentials, the hop. [AccessProps]: the theorems
      of both. [AccessRuns]: concrete requests.

    Definitions keep the names of the code. The state of a class is a record
    with one field per member, each method or event handler is a definition over
    it, and the events of a component are the constructors of its step relation;
    its reachable states are those any sequence of events leads to.

    ** How the code is modelled

    - A handler is a computation of the monad of [Prelude]: it reads and writes
      the component's state and records its effects (frames sent, sockets
      written or destroyed, events emitted, rows updated) in order.
    - An object shared by reference is in a heap of the state and named by its
      reference, so a closure that captured it keeps it after it left its map.
    - An [await] splits a method; the continuations that are pending are part of
      the state, so every interleaving is a sequence of steps. A timer is its
      deadline, and firing it is an event.
    - A database transaction is a function of the tables that gives a value and
      the new tables, or the error thrown; a throw leaves the tables as they
      were, nested transactions included. Transitions that are not modelled are
      steps that may change anything but the columns of the source.
    - Listeners of other objects run as later events, except the 'closed'
      listener of the tunnel registry, which runs inside the call that closes
      the bridge. An 'error' event is assumed to have a listener.
    - The environment of a call (the clock, whether a socket is open, its
      buffered bytes, what a lookup or the disk answers) is an argument, and
      theorems hold for every environment.
    - The order in which a JavaScript set or map is walked is left open where no
      theorem depends on it: [map_to_list] stands for it.
    - Widths: a stream id is encoded in 32 bits and refused outside them; the
      allocator wraps at 2^31-1; other counters are unbounded integers. Retry
      delays and the jitter of a redial are exact rationals, where the code has
      doubles.
    - Parameters: [JSON.parse] and [JSON.stringify] (with the one hypothesis, in
      the round trips, that parsing inverts printing), [Number] on texts that are not
      decimal digits, [jwt.decode], [jwt.sign], [jwt.verify], SHA-256,
      [decodeURIComponent], the close codes the WebSocket library accepts, the generations table, the parsed Docker
      events. Text
      frames reach the handlers parsed; reply heads hold no line break; trimming
      is of ASCII white space.
    - Loops of the code run over finite collections and are folds here; only the
      chunks of [latestFrom] count down from the number of ids, which its theorem
      shows to be enough. Liveness is stated per event (one drain tick, the
      n-th heartbeat tick, the sixth poll after a window, the four answers of a
      dial, the eight of an evaluation); that the answers come is up to the network and the event loop.

    ** What the theorems show

    - Invariants over all reachable states of the switchboard, the bridge, the
      registry and the agent: stream caps, a running idle timer for every
      stream, byte counts of buffered data, at most one connection, credentials
      that are always the tunnel's or one attempt of the enrolment token.
    - The codec's round trip in both directions and distinct stream ids.
    - Delivery: the order in which bytes of a stream reach the socket, before and
      after the dial settles, for forward, local reverse and relayed reverse
      streams.
    - Release: what closing, disconnecting, idle expiry and cleanup free, and
      that a closed bridge leaves the registry.
    - Backoff, reconnect, heartbeat and capacity bounds.
    - Mutual exclusion of stack operations under every interleaving.
    - Exact characterisations of the GitOps decisions: when a placement is
      approved unattended, what each health verdict does, when a source counts
      as unchanged, and that a failure is never hidden.
    - Round trips of stored strategies, schedules and reconcile results.
    - Health gates: at most 25 in flight and one per target, each with its row
      and one continuation; a verdict is never rewritten; six polls after the
      window decide a gate whatever they read; the verdict of a poll equals a
      specification without loops and does not depend on the listing order; a
      service passes only when it is healthy.
    - Auto-heal: the hourly cap, what justifies a restart, and, composed with the
      gates, that a service is suppressed exactly while it is updated or observed.
    - Restores: no container starts on a volume that is being rewritten, one live
      restore per volume, locks held against fenced stacks, what the boot pass
      and a release do on every answer of Docker, phases that end.
    - Source transitions: the rows stay well formed whatever interleaves; the
      projection of [Reconcile] finds every row it looks for and reports what
      the rows say; an acceptance succeeds exactly on an acceptable candidate,
      and what it leaves; a suspended source does no work and forgets nothing;
      an attempt is reserved once and settled once.
    - The dialer: one dial per node, every live bridge held by the map or by its
      dial, every dial ends, a failure suppresses dials for a minute, and whom a
      failed dial blames.
    - The source controller: one timer while it polls, no wake lost, every
      evaluation ends and gives its slot back, what a finished fetch schedules,
      when a pull starts, and the evidence without which nothing is accepted
      unattended; when the handoff dispatches a generation or holds it; that a
      stored confirmation reads back.
    - Docker events: a stopped container is healed only after a death that was a
      genuine crash; the signal of every death; at most twenty alerts a window and one
      health alert an hour; the service never stops listening but in one window; how
      the stream cuts its text does not matter.
    - The outbox: it holds a row for exactly the committed notifiable decisions,
      wherever the process dies; nothing is announced twice or marked in silence; a
      repair completes; a notification names only live stacks.
    - History pages: a walk along the cursors reads every matching row the caller may
      read, once, and ends; no page shows more; cursors round trip; a value that
      cannot be honoured is refused.
    - Access: a permission is granted for exactly three reasons; where the authority of
      a request comes from; a hop grants what the hub grants and nothing more; the
      offline check of a token passes exactly on what can be issued; what each scope
      reaches; deleting a node revokes what was granted there and nothing else.
    - The pool refines a sequential map and ends; a superseded computation never
      writes the cache, and a key is computed once at a time.
    - Behaviours that differ from what the code means to do, proved as such:
      bytes that overtake earlier ones in the dial window, a relay closed by the
      timer of its reservation, the confidential flag that [closeTunnel] keeps,
      a capacity exceeded by overlapping starts, a stale client that drops the
      stream of a new connection, more renders than slots, a cache key poisoned
      by a fetcher that throws at once, a cooldown that covers a whole policy,
      a suspension that overwrites the failure of an interrupted restore, a redial backoff that never backs off, a bridge that is kept after it died,
      a dial that goes on after its node was closed, an event service that outlives
      its shutdown or a dead stream, an old stop alerted as a crash, a fast crash
      that is missed, a stack whose name hides it from the hop, and a request that
      reaches the proxy without a user.

    ** What is not modelled

    The user interface, the HTTP routes, login and single sign-on, SQLite and file access, running Docker,
    Compose, Git and scanners, cryptography, and the services listed as such in
    the manifest. Of derive.ts only the source facet is modelled; of transitions.ts
    the source transitions, for Direct applications. Metrics are
    modelled in the registry only; logging is not.

    ** Next

    In this order: the deploy, health and recovery transitions of a Direct target
    on the tables of [SourceRows]; the effects of [Controller] run as those
    transitions; the target and rollout facets of
    derive.ts and the classification of attention.ts; the overwrite pipeline around the fence
    of [Restore]; the delivery of gate verdicts to the GitOps state; the address
    ranges of trustedProxyCidrs.ts; a JSON
    printer and parser, so that text frames and stored columns have round trips
    without a parameter. *)

From stdpp Require Export base gmap sets list strings numbers fin_maps pretty.

#[global] Open Scope Z_scope.

(** ** Notations *)

Declare Scope sencho_scope.
Delimit Scope sencho_scope with sencho.

(** A fallible computation: the value of a normal return, or the error thrown. *)
Notation "'let!' x ':=' e 'in' k" :=
  (match e with inl err => inl err | inr x => k end)
  (at level 10, x name, e at level 100, k at level 200) : sencho_scope.

#[global] Open Scope sencho_scope.

(** ** Automation *)

(** Split every [match], [if] and [decide] of the goal and clean up. *)
Ltac split_cases :=
  repeat (case_match || case_decide || case_bool_decide); simplify_eq/=.

(** Turn boolean comparisons on [Z] into propositions before [lia]. *)
Ltac zbool :=
  repeat match goal with
  | H : (_ <? _) = true |- _ => apply Z.ltb_lt in H
  | H : (_ <? _) = false |- _ => apply Z.ltb_ge in H
  | H : (_ <=? _) = true |- _ => apply Z.leb_le in H
  | H : (_ <=? _) = false |- _ => apply Z.leb_gt in H
  | H : (_ >=? _) = _ |- _ => rewrite Z.geb_leb in H
  | H : (_ >? _) = _ |- _ => rewrite Z.gtb_ltb in H
  | H : (_ =? _) = true |- _ => apply Z.eqb_eq in H
  | H : (_ =? _) = false |- _ => apply Z.eqb_neq in H
  end.

Ltac zlia := zbool; lia.

Create HintDb sencho discriminated.
#[export] Hint Constants Transparent : sencho.

(** ** Effectful handlers

    An event handler of the code runs to completion, updates the fields of its
    object and calls out (sends frames, writes sockets, emits events). [act S F]
    is such a computation over a state [S] that records the calls it makes, in
    order, as a list of [F]. The notations are those of stdpp's monads. *)

Definition act (S F A : Type) : Type := S -> A * S * list F.

#[export] Instance act_ret {S F} : MRet (act S F) := fun A a st => (a, st, []).

#[export] Instance act_bind {S F} : MBind (act S F) := fun A B k m st =>
  let '(a, st1, e1) := m st in
  let '(b, st2, e2) := k a st1 in (b, st2, e1 ++ e2).

(** Read the state, update it, make an external call, do nothing. *)
Definition get {S F} : act S F S := fun st => (st, st, []).
Definition modify {S F} (f : S -> S) : act S F unit := fun st => (tt, f st, []).
Definition tell {S F} (e : F) : act S F unit := fun st => (tt, st, [e]).
Definition skip {S F} : act S F unit := fun st => (tt, st, []).
Definition when {S F} (b : bool) (m : act S F unit) : act S F unit :=
  if b then m else skip.

(** Run a handler for each element, in order. *)
Fixpoint for_each {S F A} (f : A -> act S F unit) (l : list A) : act S F unit :=
  match l with
  | [] => skip
  | x :: l => f x;; for_each f l
  end.

(** The three results of running a handler. *)
Definition result {S F A} (m : act S F A) (st : S) : A := (m st).1.1.
Definition state {S F A} (m : act S F A) (st : S) : S := (m st).1.2.
Definition effects {S F A} (m : act S F A) (st : S) : list F := (m st).2.

Section act_lemmas.
Context {S F : Type}.

Lemma state_bind {A B} (m : act S F A) (k : A -> act S F B) st :
  state (m ≫= k) st = state (k (result m st)) (state m st).
Proof.
  unfold state, result, mbind, act_bind.
  destruct (m st) as [[a st1] e1]; simpl. by destruct (k a st1) as [[b st2] e2].
Qed.

Lemma result_bind {A B} (m : act S F A) (k : A -> act S F B) st :
  result (m ≫= k) st = result (k (result m st)) (state m st).
Proof.
  unfold state, result, mbind, act_bind.
  destruct (m st) as [[a st1] e1]; simpl. by destruct (k a st1) as [[b st2] e2].
Qed.

Lemma effects_bind {A B} (m : act S F A) (k : A -> act S F B) st :
  effects (m ≫= k) st = effects m st ++ effects (k (result m st)) (state m st).
Proof.
  unfold state, result, effects, mbind, act_bind.
  destruct (m st) as [[a st1] e1]; simpl. by destruct (k a st1) as [[b st2] e2].
Qed.

Lemma state_ret {A} (a : A) st : state (mret a : act S F A) st = st.
Proof. done. Qed.
Lemma result_ret {A} (a : A) st : result (mret a : act S F A) st = a.
Proof. done. Qed.
Lemma effects_ret {A} (a : A) st : effects (mret a : act S F A) st = [].
Proof. done. Qed.
Lemma state_get st : state (@get S F) st = st.
Proof. done. Qed.
Lemma result_get st : result (@get S F) st = st.
Proof. done. Qed.
Lemma effects_get st : effects (@get S F) st = [].
Proof. done. Qed.
Lemma state_modify (f : S -> S) st : state (@modify S F f) st = f st.
Proof. done. Qed.
Lemma effects_modify (f : S -> S) st : effects (@modify S F f) st = [].
Proof. done. Qed.
Lemma state_tell (e : F) st : state (@tell S F e) st = st.
Proof. done. Qed.
Lemma effects_tell (e : F) st : effects (@tell S F e) st = [e].
Proof. done. Qed.
Lemma state_skip st : state (@skip S F) st = st.
Proof. done. Qed.
Lemma effects_skip st : effects (@skip S F) st = [].
Proof. done. Qed.
Lemma state_when_tell b (e : F) st : state (when b (@tell S F e)) st = st.
Proof. by destruct b. Qed.
Lemma effects_when b (m : act S F unit) st :
  effects (when b m) st = if b then effects m st else [].
Proof. by destruct b. Qed.

Lemma state_for_each_tell {A} (f : A -> F) l (st : S) :
  state (for_each (fun x => tell (f x)) l) st = st.
Proof. induction l as [|x l IH]; simpl; [done|]. by rewrite state_bind. Qed.

Lemma state_for_each_when_tell {A} (c : A -> bool) (f : A -> F) l (st : S) :
  state (for_each (fun x => when (c x) (tell (f x))) l) st = st.
Proof.
  induction l as [|x l IH]; simpl; [done|]. by rewrite state_bind, state_when_tell.
Qed.

Lemma effects_for_each_tell {A} (f : A -> F) l (st : S) :
  effects (for_each (fun x => tell (f x)) l) st = map f l.
Proof.
  induction l as [|x l IH]; simpl; [done|]. rewrite effects_bind.
  rewrite effects_tell, state_tell. simpl. by f_equal.
Qed.

Lemma for_each_app {A} (f : A -> act S F unit) l1 l2 (st : S) :
  state (for_each f (l1 ++ l2)) st = state (for_each f l2) (state (for_each f l1) st) /\
  effects (for_each f (l1 ++ l2)) st = effects (for_each f l1) st ++ effects (for_each f l2) (state (for_each f l1) st).
Proof.
  revert st. induction l1 as [|x l1 IH]; intros st; [done|]. simpl. rewrite !state_bind, !effects_bind.
  destruct (IH (state (f x) st)) as [-> ->]. by rewrite app_assoc.
Qed.

(** A field-wise or set-wise fact that every iteration keeps. *)
Lemma for_each_ind {A} (f : A -> act S F unit) (P : S -> Prop) l st :
  P st -> (forall x st', x ∈ l -> P st' -> P (state (f x) st')) ->
  P (state (for_each f l) st).
Proof.
  revert st. induction l as [|x l IH]; intros st Hst Hf; [done|].
  simpl. rewrite state_bind. apply IH.
  - apply Hf; [left|done].
  - intros y st' Hy. apply Hf. by right.
Qed.

(** A call that one iteration makes whatever the state is made by the loop. *)
Lemma elem_of_effects_for_each {A} (f : A -> act S F unit) l st x e :
  x ∈ l -> (forall st', e ∈ effects (f x) st') -> e ∈ effects (for_each f l) st.
Proof.
  intros Hx He. revert st. induction Hx as [x l|x y l _ IH]; intros st; cbn [for_each];
    rewrite effects_bind, elem_of_app; eauto.
Qed.
End act_lemmas.

(** Step through a handler: compute the state, result and effects of the
    primitive calls and split on its conditions. *)
Create Rewrite HintDb act.
#[export] Hint Rewrite @state_bind @result_bind @effects_bind @state_ret @result_ret
  @effects_ret @state_get @result_get @effects_get @state_modify @effects_modify
  @state_tell @effects_tell @state_skip @effects_skip @state_when_tell @effects_when
  @state_for_each_tell @state_for_each_when_tell @effects_for_each_tell @app_nil_r : act.

Ltac act_run := autorewrite with act; simpl.

Ltac act_split :=
  match goal with
  | |- context [state (if ?b then _ else _) _] => destruct b eqn:?
  | |- context [state (match ?x with _ => _ end) _] => destruct x eqn:?
  | |- context [effects (if ?b then _ else _) _] => destruct b eqn:?
  | |- context [effects (match ?x with _ => _ end) _] => destruct x eqn:?
  end.

Ltac act_cases := repeat (act_run; act_split); act_run.

(** Case analysis on lookups in updated maps, in hypotheses and goal. *)
Ltac map_cases :=
  repeat match goal with
  | H : context [<[_ := _]> _ !! _] |- _ =>
      rewrite lookup_insert in H; case_decide; simplify_eq/=
  | H : context [delete _ _ !! _] |- _ =>
      rewrite lookup_delete in H; case_decide; simplify_eq/=
  | H : context [alter _ _ _ !! _] |- _ =>
      rewrite lookup_alter in H; case_decide; simplify_eq/=
  | H : context [∅ !! _] |- _ => rewrite lookup_empty in H; simplify_eq/=
  | |- context [<[_ := _]> _ !! _] => rewrite lookup_insert; case_decide; simplify_eq/=
  | |- context [delete _ _ !! _] => rewrite lookup_delete; case_decide; simplify_eq/=
  | |- context [alter _ _ _ !! _] => rewrite lookup_alter; case_decide; simplify_eq/=
  | H : _ <$> _ = Some _ |- _ => apply fmap_Some in H as (? & ? & ?); simplify_eq/=
  | H : Some _ = _ <$> _ |- _ => symmetry in H
  end.

(** ** Strings and lists of the language *)

(** [trim], of ASCII white space. *)
Definition is_space (c : Ascii.ascii) : bool :=
  let n := Z.of_nat (Ascii.nat_of_ascii c) in ((9 <=? n) && (n <=? 13)) || (n =? 32).
Fixpoint trim_left (s : string) : string :=
  match s with String c s' => if is_space c then trim_left s' else s | EmptyString => s end.
Fixpoint trim_right (s : string) : string :=
  match s with
  | EmptyString => EmptyString
  | String c s' => let t := trim_right s' in
                   if is_space c && bool_decide (t = EmptyString) then EmptyString else String c t
  end.
Definition trim (s : string) : string := trim_right (trim_left s).

(** A double quote. *)
Definition dquote : string := String (Ascii.ascii_of_nat 34) EmptyString.

Definition newline : Ascii.ascii := Ascii.ascii_of_nat 10.

Definition digit (c : Ascii.ascii) : option Z :=
  let n := Z.of_nat (Ascii.nat_of_ascii c) in if (48 <=? n) && (n <=? 57) then Some (n - 48) else None.

(** [parseInt(s, 10)]: blanks, a sign, the longest run of digits; none is [NaN]. *)
Fixpoint digits (acc : option Z) (s : string) : option Z :=
  match s with
  | String c s' => match digit c with Some d => digits (Some (10 * default 0 acc + d)) s' | None => acc end
  | EmptyString => acc
  end.
Definition parse_int (s : string) : option Z :=
  match trim_left s with
  | String c s' =>
      if decide (c = Ascii.ascii_of_nat 45) then Z.opp <$> digits None s'
      else if decide (c = Ascii.ascii_of_nat 43) then digits None s' else digits None (String c s')
  | EmptyString => None
  end.

(** [Set.add], in insertion order. *)
Definition set_add (l : list string) (x : string) : list string := if decide (x ∈ l) then l else l ++ [x].

(** ** Generic lemmas *)

(** An invariant of every step holds in every reachable state. *)
Lemma rtc_invariant {A} (R : A -> A -> Prop) (P : A -> Prop) x y :
  (forall a b, R a b -> P a -> P b) -> P x -> rtc R x y -> P y.
Proof. intros HR Hx Hxy. induction Hxy; eauto. Qed.

(** [sum_lengths bs] is the number of bytes held by a list of buffers. *)
Definition sum_lengths {A} (bs : list (list A)) : Z :=
  foldr (fun b n => Z.of_nat (length b) + n) 0 bs.

Lemma sum_lengths_app {A} (xs ys : list (list A)) :
  sum_lengths (xs ++ ys) = sum_lengths xs + sum_lengths ys.
Proof. induction xs as [|x xs IH]; simpl; lia. Qed.

Lemma sum_lengths_cons {A} (x : list A) (xs : list (list A)) :
  sum_lengths (x :: xs) = Z.of_nat (length x) + sum_lengths xs.
Proof. done. Qed.

Lemma sum_lengths_concat {A} (xs : list (list A)) :
  sum_lengths xs = Z.of_nat (length (concat xs)).
Proof. induction xs as [|x xs IH]; simpl; rewrite ?length_app; lia. Qed.

Lemma sum_lengths_nonneg {A} (xs : list (list A)) : 0 <= sum_lengths xs.
Proof. rewrite sum_lengths_concat. lia. Qed.

Lemma empty_difference (X : gset Z) : (∅ : gset Z) ∖ X = ∅.
Proof. set_solver. Qed.

(** Number of keys of a map, as the JavaScript number [Map.size]. *)
Definition msize {A} (m : gmap Z A) : Z := Z.of_nat (size m).

Section msize.
Context {A : Type}.
Implicit Types m : gmap Z A.

Lemma msize_empty : msize (∅ : gmap Z A) = 0.
Proof. reflexivity. Qed.

Lemma msize_insert_new m k x : m !! k = None -> msize (<[k:=x]> m) = msize m + 1.
Proof. intros H. unfold msize. rewrite map_size_insert_None by done. lia. Qed.

Lemma msize_insert_le m k x : msize (<[k:=x]> m) <= msize m + 1.
Proof.
  unfold msize. destruct (m !! k) eqn:E.
  - rewrite map_size_insert_Some by eauto. lia.
  - rewrite map_size_insert_None by done. lia.
Qed.

Lemma msize_insert_old m k x : is_Some (m !! k) -> msize (<[k:=x]> m) = msize m.
Proof. intros H. unfold msize. by rewrite map_size_insert_Some. Qed.

Lemma msize_delete_le m k : msize (delete k m) <= msize m.
Proof. unfold msize. rewrite map_size_delete. destruct (m !! k) eqn:E; simpl; lia. Qed.

Lemma msize_nonneg m : 0 <= msize m.
Proof. unfold msize. lia. Qed.
End msize.

(** The first element of a list that satisfies a predicate. *)
Lemma head_filter_Some {A} (P : A -> Prop) `{forall x, Decision (P x)} (l : list A) x :
  head (filter P l) = Some x -> P x.
Proof.
  intros Hh. assert (x ∈ filter P l) as [? _]%list_elem_of_filter; [|done].
  destruct (filter P l); [done|]. injection Hh as ->. left.
Qed.

(** ** Keys made of numbers and colons *)

Definition colon : Ascii.ascii := Ascii.ascii_of_nat 58.

Fixpoint no_colon (s : string) : bool :=
  match s with
  | EmptyString => true
  | String c s => negb (bool_decide (c = colon)) && no_colon s
  end.

Lemma no_colon_go x s : no_colon s = true -> no_colon (pretty_N_go x s) = true.
Proof.
  revert s. induction (N.lt_wf_0 x) as [x _ IH]; intros s Hs.
  assert (x = 0 \/ 0 < x)%N as [->|Hx] by lia; [by rewrite pretty_N_go_0|].
  rewrite pretty_N_go_step by done. apply IH; [by apply N.div_lt|].
  simpl. rewrite Hs, andb_true_r. unfold pretty_N_char. by repeat case_match.
Qed.

Lemma no_colon_pretty (z : Z) : no_colon (pretty z) = true.
Proof.
  assert (Hp : forall p : positive, no_colon (pretty (N.pos p)) = true)
    by (intros p; unfold pretty, pretty_N; rewrite decide_False by done; by apply no_colon_go).
  unfold pretty, pretty_Z. destruct z as [|p|p]; [done|apply Hp|]. simpl. apply Hp.
Qed.

Lemma append_colon_inj (a b s t : string) : no_colon a = true -> no_colon b = true ->
  a +:+ ":" +:+ s = b +:+ ":" +:+ t -> a = b /\ s = t.
Proof.
  revert b. induction a as [|c a IH]; intros [|d b]; simpl; intros Ha Hb [= ]; subst; try done.
  destruct (IH b) as [-> ->]; try done; apply andb_true_iff in Ha, Hb; tauto.
Qed.

(** [`${n}:`] at the front of a key: what follows it, or [None] when the key does
    not start with it. *)
Fixpoint strip_prefix (p s : string) : option string :=
  match p, s with
  | EmptyString, _ => Some s
  | String c p, String d s => if decide (c = d) then strip_prefix p s else None
  | String _ _, EmptyString => None
  end.

Lemma strip_prefix_Some p s r : strip_prefix p s = Some r <-> s = p +:+ r.
Proof.
  revert s. induction p as [|c p IH]; intros s; simpl; [naive_solver|].
  destruct s as [|d s]; [done|]. case_decide as E; [subst|split; [done|by intros [= ]]].
  rewrite IH. split; [by intros ->|by intros [= ->]].
Qed.

Definition node_prefix (n : Z) : string := pretty n +:+ ":".

Lemma append_assoc (a b c : string) : (a +:+ b) +:+ c = a +:+ (b +:+ c).
Proof. induction a as [|x a IH]; [done|]. apply (f_equal (String x)), IH. Qed.

Lemma strip_node_prefix n m s :
  strip_prefix (node_prefix n) (pretty m +:+ ":" +:+ s) = if decide (n = m) then Some s else None.
Proof.
  unfold node_prefix. case_decide as E.
  - subst. apply strip_prefix_Some. by rewrite append_assoc.
  - destruct (strip_prefix _ _) as [r|] eqn:H; [|done]. apply strip_prefix_Some in H.
    rewrite append_assoc in H. apply append_colon_inj in H as [H _]; try apply no_colon_pretty.
    exfalso. apply E. symmetry. by apply (inj pretty).
Qed.

(** ** JavaScript text *)

(** [toLowerCase] of ASCII text. *)
Definition lower (c : Ascii.ascii) : Ascii.ascii :=
  let n := Ascii.nat_of_ascii c in
  if (65 <=? n)%nat && (n <=? 90)%nat then Ascii.ascii_of_nat (n + 32) else c.
Fixpoint toLowerCase (s : string) : string :=
  match s with EmptyString => EmptyString | String c s => String (lower c) (toLowerCase s) end.

Fixpoint includes (needle s : string) : bool :=
  bool_decide (is_Some (strip_prefix needle s))
  || match s with EmptyString => false | String _ s => includes needle s end.

(** [endsWith] *)
Fixpoint endsWith (suffix s : string) : bool :=
  bool_decide (s = suffix) || match s with EmptyString => false | String _ s => endsWith suffix s end.

(** ** JavaScript truthiness of a value that may be [null] or [undefined] *)

(** A string that is not empty. *)
Definition truthy (o : option string) : option string :=
  match o with Some "" => None | _ => o end.

(** A number that is not zero. *)
Definition truthyZ (o : option Z) : option Z :=
  match o with Some z => if z =? 0 then None else o | None => None end.

#[export] Hint Resolve msize_nonneg msize_delete_le sum_lengths_nonneg : sencho.
