(* ===== verification/Interfaces.v ===== *)
(** * Interfaces between components

    What one component promises another, as a typeclass: clients are proved
    against the class, and the file of the implementation gives the instance. *)

From S2P Require Import Prelude.

(** ** The tunnel bridge, as its registry sees it

    [PilotTunnelManager] constructs bridges, starts and closes them and listens
    for their 'closed' event. Whatever else happens to a bridge is one of its
    events. The promise the registry relies on: a bridge starts out open, a
    closed bridge stays closed, [close] closes it, and 'closed' is emitted
    exactly once, by the event that closes it. *)

Class TunnelBridge (B : Type) := {
  tb_event : Type;
  tb_new : B;
  tb_closed : B -> bool;
  (** The bridge after an event, and how often the event emitted 'closed'. *)
  tb_run : tb_event -> B -> B * nat;
  tb_close : Z -> string -> tb_event;
  tb_start : tb_event;
}.

Class TunnelBridgeLaws (B : Type) `{TunnelBridge B} : Prop := {
  tb_new_open : tb_closed tb_new = false;
  tb_close_closes code reason b : tb_closed (tb_run (tb_close code reason) b).1 = true;
  tb_closed_stays ev b : tb_closed b = true -> tb_closed (tb_run ev b).1 = true;
  tb_emits_once ev b :
    (tb_run ev b).2 = if tb_closed (tb_run ev b).1 && negb (tb_closed b) then 1%nat else 0%nat;
  tb_start_keeps b : tb_closed (tb_run tb_start b).1 = tb_closed b;
}.
