(* ===== verification/Protocol.v ===== *)
(** * The pilot tunnel wire protocol (backend/src/pilot/protocol.ts)

    Constants, the JSON envelopes as one inductive type, the binary frame
    codec over byte buffers, the WebSocket payload normalisation and the
    stream-id allocator.  A [Buffer] is a list of bytes (integers in 0..255);
    a thrown [Error] is the left injection of a sum. *)

From S2P Require Import Prelude.

(** ** Constants *)

Definition PROTOCOL_VERSION : Z := 1.
Definition MAX_FRAME_SIZE_BYTES : Z := 8 * 1024 * 1024.
Definition MAX_STREAMS_PER_TUNNEL : Z := 1024.
Definition STREAM_IDLE_TIMEOUT_MS : Z := 10 * 60 * 1000.
Definition STREAM_PENDING_DATA_MAX_BYTES : Z := 1024 * 1024.
Definition AGENT_REVERSE_ID_BASE : Z := 0x40000001.

(** A Node [Buffer]: its bytes, in order. *)
Abbreviation Buffer := (list Z).

Definition blen (b : Buffer) : Z := Z.of_nat (length b).

Definition is_byte (z : Z) : Prop := 0 <= z < 256.

#[export] Instance is_byte_dec z : Decision (is_byte z).
Proof. unfold is_byte. apply _. Defined.

(** ** Binary frame types *)

Inductive BinaryFrameType := HttpReqBody | HttpResBody | WsMessageBinary | TcpData.

#[export] Instance BinaryFrameType_eq_dec : EqDecision BinaryFrameType.
Proof. solve_decision. Defined.

(** The numeric values of the enum. *)
Definition BinaryFrameType_code (t : BinaryFrameType) : Z :=
  match t with
  | HttpReqBody => 0x01
  | HttpResBody => 0x02
  | WsMessageBinary => 0x03
  | TcpData => 0x04
  end.

(** The four-way test of [decodeBinaryFrame]. *)
Definition BinaryFrameType_of_code (c : Z) : option BinaryFrameType :=
  if c =? 0x01 then Some HttpReqBody
  else if c =? 0x02 then Some HttpResBody
  else if c =? 0x03 then Some WsMessageBinary
  else if c =? 0x04 then Some TcpData
  else None.

(** ** JSON envelopes *)

(** [Record<string, string>], in insertion order. *)
Abbreviation Headers := (list (string * string)).

Inductive Role := primary | agent.

Inductive HttpErrCode := http_timeout | tunnel_down | bad_response | http_agent_error.

Inductive MeshErrCode := mesh_not_enabled | denied | no_target | unreachable | agent_error.

Inductive ControlOp := enroll_ack | node_info | ping | pong.

(** The members of the [JsonFrame] union, field by field; [F_unknown] is a
    parsed envelope whose discriminator is none of them (the decoder only
    checks that [t] is a string). The payload of a control frame is kept as
    far as a receiver reads it: its [token] field when that is a string. *)
Inductive JsonFrame :=
  | F_hello (version : Z) (role : Role) (agentVersion : option string)
  | F_http_req (s : Z) (method path : string) (headers : Headers)
  | F_http_req_end (s : Z)
  | F_http_res (s : Z) (status : Z) (headers : Headers)
  | F_http_res_end (s : Z)
  | F_http_cancel (s : Z)
  | F_http_err (s : Z) (code : HttpErrCode) (message : string)
  | F_ws_open (s : Z) (path : string) (headers : Headers)
  | F_ws_accept (s : Z) (headers : Headers)
  | F_ws_reject (s : Z) (status : Z) (message : string)
  | F_ws_msg_text (s : Z) (data : string)
  | F_ws_close (s : Z) (code : Z) (reason : option string)
  | F_ctrl (op : ControlOp) (payload_token : option string)
  | F_tcp_open (s : Z) (stack service : string) (port : Z)
  | F_tcp_open_reverse (s : Z) (targetNodeId : Z) (stack service : string) (port : Z)
  | F_tcp_open_ack (s : Z) (ok : bool) (err : option MeshErrCode)
  | F_tcp_close (s : Z)
  | F_unknown (t : string).

#[export] Instance Role_eq_dec : EqDecision Role.
Proof. solve_decision. Defined.
#[export] Instance HttpErrCode_eq_dec : EqDecision HttpErrCode.
Proof. solve_decision. Defined.
#[export] Instance MeshErrCode_eq_dec : EqDecision MeshErrCode.
Proof. solve_decision. Defined.
#[export] Instance ControlOp_eq_dec : EqDecision ControlOp.
Proof. solve_decision. Defined.
#[export] Instance JsonFrame_eq_dec : EqDecision JsonFrame.
Proof. solve_decision. Defined.

(** ** Binary frame codec *)

Inductive FrameError :=
  | InvalidStreamId (s : Z)
  | FrameTooShort (n : Z)
  | FrameTooLarge (n : Z)
  | UnknownFrameType (t : Z).

(** [Buffer.writeUInt32BE] and [Buffer.readUInt32BE] on four bytes. *)
Definition writeUInt32BE (v : Z) : Buffer :=
  [Z.land (Z.shiftr v 24) 255; Z.land (Z.shiftr v 16) 255;
   Z.land (Z.shiftr v 8) 255; Z.land v 255].

Definition readUInt32BE (b3 b2 b1 b0 : Z) : Z :=
  Z.lor (Z.shiftl b3 24) (Z.lor (Z.shiftl b2 16) (Z.lor (Z.shiftl b1 8) b0)).

Definition encodeBinaryFrame (type : BinaryFrameType) (streamId : Z) (payload : Buffer)
    : FrameError + Buffer :=
  if (streamId <? 0) || (streamId >? 0xffffffff) then inl (InvalidStreamId streamId)
  else inr (BinaryFrameType_code type :: writeUInt32BE streamId ++ payload).

Record DecodedBinaryFrame := mkDecoded {
  df_type : BinaryFrameType;
  df_streamId : Z;
  df_payload : Buffer;
}.

Definition decodeBinaryFrame (buf : Buffer) : FrameError + DecodedBinaryFrame :=
  if blen buf <? 5 then inl (FrameTooShort (blen buf))
  else if blen buf >? MAX_FRAME_SIZE_BYTES then inl (FrameTooLarge (blen buf))
  else match buf with
  | t :: b3 :: b2 :: b1 :: b0 :: payload =>
      match BinaryFrameType_of_code t with
      | None => inl (UnknownFrameType t)
      | Some type => inr (mkDecoded type (readUInt32BE b3 b2 b1 b0) payload)
      end
  | _ => inl (FrameTooShort (blen buf))
  end.

(** ** WebSocket payload normalisation *)

(** The shapes [ws] hands a message listener: a [Buffer], an [ArrayBuffer],
    an array of either, a string, or anything else. *)
Inductive WsChunk := CBuffer (b : Buffer) | CArrayBuffer (b : Buffer).
Inductive WsData :=
  | DBuffer (b : Buffer)
  | DArrayBuffer (b : Buffer)
  | DArray (cs : list WsChunk)
  | DString (s : string)
  | DOther.

Definition chunk_bytes (c : WsChunk) : Buffer :=
  match c with CBuffer b => b | CArrayBuffer b => b end.

Definition wsDataToBuffer (data : WsData) : option Buffer :=
  match data with
  | DBuffer b => Some b
  | DArrayBuffer b => Some b
  | DArray cs => Some (concat (map chunk_bytes cs))
  | DString _ => None
  | DOther => None
  end.

(** ** Stream id allocation *)

Record StreamIdAllocator := mkAllocator { sia_start : Z; sia_next : Z }.

Definition newStreamIdAllocator (start : Z) : StreamIdAllocator := mkAllocator start start.

Definition allocate (a : StreamIdAllocator) : Z * StreamIdAllocator :=
  (sia_next a,
   mkAllocator (sia_start a)
     (if sia_next a >=? 0x7fffffff then sia_start a else sia_next a + 1)).

(** The ids of [n] successive calls, and the allocator after them. *)
Fixpoint allocate_n (n : nat) (a : StreamIdAllocator) : list Z * StreamIdAllocator :=
  match n with
  | O => ([], a)
  | S n => let '(id, a') := allocate a in
           let '(ids, a'') := allocate_n n a' in (id :: ids, a'')
  end.

(** ** Codec lemmas *)

Lemma BinaryFrameType_of_code_code t :
  BinaryFrameType_of_code (BinaryFrameType_code t) = Some t.
Proof. by destruct t. Qed.

Lemma BinaryFrameType_code_of_code c t :
  BinaryFrameType_of_code c = Some t -> BinaryFrameType_code t = c.
Proof. unfold BinaryFrameType_of_code. intros H. split_cases; zlia. Qed.

Lemma byte_land v : Z.land v 255 = v mod 256.
Proof. change 255 with (Z.ones 8). by rewrite Z.land_ones by lia. Qed.

Lemma byte_land_bound v : is_byte (Z.land v 255).
Proof. rewrite byte_land. unfold is_byte. apply Z.mod_pos_bound. lia. Qed.

Lemma lor_shift_add hi lo k : 0 <= k -> 0 <= lo < 2 ^ k ->
  Z.lor (Z.shiftl hi k) lo = hi * 2 ^ k + lo.
Proof.
  intros Hk Hlo. rewrite Z.shiftl_mul_pow2 by done.
  symmetry. apply Z.add_nocarry_lor.
  apply Z.bits_inj'. intros n Hn. rewrite Z.land_spec, Z.bits_0.
  destruct (decide (n < k)).
  - rewrite Z.mul_pow2_bits_low by done. done.
  - rewrite <- (Z.mod_small lo (2 ^ k)) by lia.
    rewrite Z.mod_pow2_bits_high by lia. apply andb_false_r.
Qed.

Lemma readUInt32BE_bytes b3 b2 b1 b0 :
  is_byte b3 -> is_byte b2 -> is_byte b1 -> is_byte b0 ->
  readUInt32BE b3 b2 b1 b0 = b3 * 2 ^ 24 + (b2 * 2 ^ 16 + (b1 * 2 ^ 8 + b0)).
Proof.
  unfold is_byte, readUInt32BE. intros.
  rewrite (lor_shift_add b1 b0 8) by lia.
  rewrite (lor_shift_add b2 _ 16) by lia.
  by rewrite (lor_shift_add b3 _ 24) by lia.
Qed.

Lemma read_write_UInt32BE v : 0 <= v <= 0xffffffff ->
  readUInt32BE (Z.land (Z.shiftr v 24) 255) (Z.land (Z.shiftr v 16) 255)
    (Z.land (Z.shiftr v 8) 255) (Z.land v 255) = v.
Proof.
  intros Hv. rewrite readUInt32BE_bytes by apply byte_land_bound.
  rewrite !byte_land, !Z.shiftr_div_pow2 by lia.
  change (2 ^ 24) with 16777216. change (2 ^ 16) with 65536. change (2 ^ 8) with 256.
  pose proof (Z.div_mod v 256). pose proof (Z.div_mod (v / 256) 256).
  pose proof (Z.div_mod (v / 65536) 256).
  replace (v / 65536) with (v / 256 / 256) in * by (rewrite Z.div_div by lia; done).
  replace (v / 16777216) with (v / 256 / 256 / 256) in *
    by (rewrite !Z.div_div by lia; done).
  rewrite (Z.mod_small (v / 256 / 256 / 256)); [lia|].
  rewrite !Z.div_div by lia. split; [apply Z.div_pos; lia|].
  apply Z.div_lt_upper_bound; lia.
Qed.

Lemma write_read_UInt32BE b3 b2 b1 b0 :
  is_byte b3 -> is_byte b2 -> is_byte b1 -> is_byte b0 ->
  writeUInt32BE (readUInt32BE b3 b2 b1 b0) = [b3; b2; b1; b0].
Proof.
  intros H3 H2 H1 H0. rewrite readUInt32BE_bytes by done.
  unfold is_byte, writeUInt32BE in *.
  rewrite !byte_land, !Z.shiftr_div_pow2 by lia.
  change (2 ^ 24) with 16777216. change (2 ^ 16) with 65536. change (2 ^ 8) with 256.
  repeat f_equal; Z.to_euclidean_division_equations; lia.
Qed.

Lemma readUInt32BE_bound b3 b2 b1 b0 :
  is_byte b3 -> is_byte b2 -> is_byte b1 -> is_byte b0 ->
  0 <= readUInt32BE b3 b2 b1 b0 <= 0xffffffff.
Proof.
  intros H3 H2 H1 H0. rewrite readUInt32BE_bytes by done. unfold is_byte in *.
  change (2 ^ 24) with 16777216. change (2 ^ 16) with 65536. change (2 ^ 8) with 256.
  lia.
Qed.

Lemma decode_long_enough t b3 b2 b1 b0 payload :
  decodeBinaryFrame (t :: b3 :: b2 :: b1 :: b0 :: payload) =
  if 5 + blen payload >? MAX_FRAME_SIZE_BYTES then inl (FrameTooLarge (5 + blen payload))
  else match BinaryFrameType_of_code t with
       | None => inl (UnknownFrameType t)
       | Some type => inr (mkDecoded type (readUInt32BE b3 b2 b1 b0) payload)
       end.
Proof.
  unfold decodeBinaryFrame.
  replace (blen (t :: b3 :: b2 :: b1 :: b0 :: payload)) with (5 + blen payload)
    by (unfold blen; cbn [length]; lia).
  destruct (Z.ltb_spec (5 + blen payload) 5); [unfold blen in *; lia|]. done.
Qed.

(** C18: a frame the encoder accepts is decoded back to the same type, stream
    id and payload, unless it exceeds the frame-size ceiling, in which case
    the decoder refuses it with the frame's real size; and the encoder accepts
    exactly the unsigned 32-bit stream ids. *)
Theorem binary_frame_roundtrip (type : BinaryFrameType) (streamId : Z) (payload : Buffer) :
  match encodeBinaryFrame type streamId payload with
  | inl e => e = InvalidStreamId streamId /\ ~ (0 <= streamId <= 0xffffffff)
  | inr buf =>
      0 <= streamId <= 0xffffffff /\ blen buf = 5 + blen payload /\
      decodeBinaryFrame buf =
        if blen buf <=? MAX_FRAME_SIZE_BYTES
        then inr (mkDecoded type streamId payload)
        else inl (FrameTooLarge (blen buf))
  end.
Proof.
  unfold encodeBinaryFrame.
  destruct (Z.ltb_spec streamId 0); cbn [orb]; [split; [done|lia]|].
  rewrite Z.gtb_ltb. destruct (Z.ltb_spec 0xffffffff streamId); [split; [done|lia]|].
  assert (Hl : blen (BinaryFrameType_code type :: writeUInt32BE streamId ++ payload)
               = 5 + blen payload) by (unfold blen; cbn [length app writeUInt32BE]; lia).
  split; [lia|]. split; [done|]. rewrite Hl. unfold writeUInt32BE. cbn [app].
  rewrite decode_long_enough, BinaryFrameType_of_code_code, read_write_UInt32BE by lia.
  rewrite Z.gtb_ltb, Z.ltb_antisym. by destruct (_ <=? _).
Qed.

(** The codec is canonical on the wire: every buffer of bytes the decoder
    accepts is exactly the encoding of what it decoded, so no two distinct
    buffers decode to the same frame. *)
Theorem binary_decode_canonical (buf : Buffer) (f : DecodedBinaryFrame) :
  Forall is_byte buf ->
  decodeBinaryFrame buf = inr f ->
  encodeBinaryFrame (df_type f) (df_streamId f) (df_payload f) = inr buf /\
  5 <= blen buf <= MAX_FRAME_SIZE_BYTES.
Proof.
  intros Hb Hd.
  destruct buf as [|t [|b3 [|b2 [|b1 [|b0 payload]]]]]; try discriminate.
  rewrite decode_long_enough in Hd. rewrite Z.gtb_ltb in Hd.
  destruct (Z.ltb_spec MAX_FRAME_SIZE_BYTES (5 + blen payload)); [done|].
  destruct (BinaryFrameType_of_code t) as [type|] eqn:Ht; [|done]. simplify_eq/=.
  decompose_Forall_hyps.
  apply BinaryFrameType_code_of_code in Ht. subst t.
  split; [|unfold blen in *; cbn [length]; lia].
  pose proof (readUInt32BE_bound b3 b2 b1 b0 ltac:(done) ltac:(done) ltac:(done) ltac:(done)).
  unfold encodeBinaryFrame. rewrite Z.gtb_ltb.
  destruct (Z.ltb_spec (readUInt32BE b3 b2 b1 b0) 0); [lia|].
  destruct (Z.ltb_spec 0xffffffff (readUInt32BE b3 b2 b1 b0)); [lia|]. cbn [orb].
  by rewrite write_read_UInt32BE by done.
Qed.

Lemma binary_decode_canonical_witness :
  encodeBinaryFrame TcpData 258 [7; 8] = inr [4; 0; 0; 1; 2; 7; 8] /\
  5 <= blen [4; 0; 0; 1; 2; 7; 8] <= MAX_FRAME_SIZE_BYTES.
Proof.
  apply (binary_decode_canonical [4; 0; 0; 1; 2; 7; 8] (mkDecoded TcpData 258 [7; 8])).
  - repeat constructor; unfold is_byte; lia.
  - vm_compute. reflexivity.
Defined.

(** ** Allocator lemmas *)

(** An allocator of the code: its counter is between [start] and 2^31 - 1. *)
Definition allocator_wf (a : StreamIdAllocator) : Prop :=
  0 < sia_start a /\ sia_start a <= sia_next a <= 0x7fffffff.

(** Length of the id cycle of an allocator that starts at [start]. *)
Definition id_period (start : Z) : Z := 0x80000000 - start.

Lemma new_allocator_wf start :
  0 < start <= 0x7fffffff -> allocator_wf (newStreamIdAllocator start).
Proof. unfold allocator_wf; simpl; lia. Qed.

Lemma allocate_wf a : allocator_wf a -> allocator_wf (allocate a).2.
Proof.
  unfold allocator_wf; destruct a as [st nx]; simpl. intros [? ?].
  rewrite Z.geb_leb. destruct (Z.leb_spec 0x7fffffff nx); lia.
Qed.

Lemma allocate_next_mod a : allocator_wf a ->
  sia_next (allocate a).2 =
  sia_start a + (sia_next a - sia_start a + 1) mod id_period (sia_start a).
Proof.
  unfold allocator_wf, id_period; destruct a as [st nx]; simpl. intros [? ?].
  rewrite Z.geb_leb. destruct (Z.leb_spec 0x7fffffff nx).
  - replace (nx - st + 1) with (2147483648 - st) by lia. rewrite Z_mod_same_full. lia.
  - rewrite Z.mod_small by lia. lia.
Qed.

(** The [k]-th id handed out, in closed form. *)
Lemma allocate_n_lookup n a (k : nat) : allocator_wf a -> (k < n)%nat ->
  (allocate_n n a).1 !! k =
  Some (sia_start a + (sia_next a - sia_start a + Z.of_nat k) mod id_period (sia_start a)).
Proof.
  revert a k. induction n as [|n IH]; intros a k Hwf Hk; [lia|]. cbn [allocate_n].
  destruct (allocate a) as [id a'] eqn:Ha.
  destruct (allocate_n n a') as [ids a''] eqn:Hn. cbn [fst].
  assert (Hp : 0 < id_period (sia_start a))
    by (unfold id_period; destruct Hwf as [? ?]; lia).
  destruct k as [|k].
  - change ((id :: ids) !! 0%nat) with (Some id). inv Ha. rewrite Z.add_0_r, Z.mod_small; [f_equal; lia|].
    unfold id_period; destruct Hwf; lia.
  - change ((id :: ids) !! S k) with (ids !! k).
    pose proof (allocate_wf a Hwf) as Hwf'. pose proof (allocate_next_mod a Hwf) as Hnx.
    rewrite Ha in Hwf', Hnx. cbn [snd] in *. pose proof (IH a' k Hwf' ltac:(lia)) as IHk.
    rewrite Hn in IHk. cbn [fst] in IHk. rewrite IHk. inv Ha. cbn [sia_start] in *.
    rewrite Hnx. do 2 f_equal.
    replace (sia_start a + (sia_next a - sia_start a + 1) mod id_period (sia_start a)
             - sia_start a + Z.of_nat k)
      with ((sia_next a - sia_start a + 1) mod id_period (sia_start a) + Z.of_nat k) by lia.
    rewrite Zplus_mod_idemp_l. f_equal. lia.
Qed.

Lemma allocate_n_length n a : length (allocate_n n a).1 = n.
Proof.
  revert a; induction n as [|n IH]; intros a; [done|]. cbn [allocate_n].
  destruct (allocate a) as [id a'], (allocate_n n a') as [ids a''] eqn:E.
  cbn [fst length]. f_equal. by rewrite <- (IH a'), E.
Qed.

Lemma allocate_n_elem n a id : allocator_wf a -> id ∈ (allocate_n n a).1 ->
  sia_start a <= id <= 0x7fffffff.
Proof.
  intros Hwf [k Hk]%list_elem_of_lookup.
  pose proof (lookup_lt_Some _ _ _ Hk) as Hlt. rewrite allocate_n_length in Hlt.
  rewrite allocate_n_lookup in Hk by done. inv Hk.
  assert (Hp : 0 < id_period (sia_start a))
    by (unfold id_period; destruct Hwf as [? ?]; lia).
  pose proof (Z.mod_pos_bound (sia_next a - sia_start a + Z.of_nat k) _ Hp).
  unfold id_period in *. lia.
Qed.

(** No id is handed out twice within one cycle: any run of at most
    2^31 - start consecutive allocations gives pairwise distinct ids, all of
    them in [start, 2^31 - 1], whatever the allocator's position. *)
Theorem allocate_n_distinct (n : nat) (a : StreamIdAllocator) :
  allocator_wf a -> Z.of_nat n <= id_period (sia_start a) ->
  NoDup (allocate_n n a).1 /\
  Forall (fun id => sia_start a <= id <= 0x7fffffff) (allocate_n n a).1.
Proof.
  intros Hwf Hn. split.
  - apply NoDup_alt. intros i j id Hi Hj.
    pose proof (lookup_lt_Some _ _ _ Hi) as Hli. pose proof (lookup_lt_Some _ _ _ Hj) as Hlj.
    rewrite allocate_n_length in Hli, Hlj. rewrite allocate_n_lookup in Hi, Hj by done.
    assert (Hp : 0 < id_period (sia_start a))
      by (unfold id_period; destruct Hwf as [? ?]; lia).
    injection Hi as Hi. injection Hj as Hj.
    assert (Hd : (Z.of_nat i - Z.of_nat j) mod id_period (sia_start a) = 0).
    { replace (Z.of_nat i - Z.of_nat j)
        with ((sia_next a - sia_start a + Z.of_nat i) - (sia_next a - sia_start a + Z.of_nat j))
        by lia.
      rewrite Zminus_mod, (Z.add_reg_l (sia_start a) _ _ (eq_trans Hi (eq_sym Hj))).
      by rewrite Z.sub_diag, Zmod_0_l. }
    apply Z.mod_divide in Hd; [|lia]. destruct Hd as [q Hq].
    clear Hi Hj. generalize dependent (id_period (sia_start a)). intros P ? HP Hq.
    destruct (Z.lt_trichotomy q 0) as [?|[->|?]]; nia.
  - apply Forall_forall. intros id Hid. by eapply allocate_n_elem.
Qed.

Lemma allocate_n_distinct_witness :
  NoDup (allocate_n 3 (mkAllocator AGENT_REVERSE_ID_BASE 0x7ffffffe)).1 /\
  Forall (fun id => AGENT_REVERSE_ID_BASE <= id <= 0x7fffffff)
    (allocate_n 3 (mkAllocator AGENT_REVERSE_ID_BASE 0x7ffffffe)).1.
Proof.
  apply (allocate_n_distinct 3 (mkAllocator AGENT_REVERSE_ID_BASE 0x7ffffffe));
    unfold allocator_wf, id_period, AGENT_REVERSE_ID_BASE; simpl; lia.
Defined.

(** The id space is split between the two ends of a tunnel for exactly
    2^30 primary allocations: up to that many, every primary-allocated id is
    below [AGENT_REVERSE_ID_BASE] and every agent-allocated id is at or above
    it; the next primary allocation hands out [AGENT_REVERSE_ID_BASE] itself,
    the agent's first id. *)
Theorem stream_id_space_split (n m : nat) (p q : Z) :
  Z.of_nat n <= 2 ^ 30 ->
  p ∈ (allocate_n n (newStreamIdAllocator 1)).1 ->
  q ∈ (allocate_n m (newStreamIdAllocator AGENT_REVERSE_ID_BASE)).1 ->
  p < AGENT_REVERSE_ID_BASE <= q /\
  (allocate_n (S (Z.to_nat (2 ^ 30))) (newStreamIdAllocator 1)).1 !! Z.to_nat (2 ^ 30)
    = Some AGENT_REVERSE_ID_BASE.
Proof.
  intros Hn [k Hk]%list_elem_of_lookup Hq.
  assert (Hw : forall s, 0 < s <= 0x7fffffff -> allocator_wf (newStreamIdAllocator s))
    by apply new_allocator_wf.
  apply allocate_n_elem in Hq; [|apply Hw; unfold AGENT_REVERSE_ID_BASE; lia].
  pose proof (lookup_lt_Some _ _ _ Hk) as Hlt. rewrite allocate_n_length in Hlt.
  rewrite allocate_n_lookup in Hk by (try done; apply Hw; lia).
  rewrite allocate_n_lookup by (try lia; apply Hw; lia).
  cbn [newStreamIdAllocator sia_start sia_next] in *.
  unfold id_period, AGENT_REVERSE_ID_BASE in *. change (2 ^ 30) with 1073741824 in *.
  rewrite Z2Nat.id by lia. rewrite Z.mod_small in Hk by lia.
  split; [inv Hk; lia|]. rewrite Z.mod_small by lia. done.
Qed.

Lemma stream_id_space_split_witness :
  1 < AGENT_REVERSE_ID_BASE <= AGENT_REVERSE_ID_BASE + 1 /\
  (allocate_n (S (Z.to_nat (2 ^ 30))) (newStreamIdAllocator 1)).1 !! Z.to_nat (2 ^ 30)
    = Some AGENT_REVERSE_ID_BASE.
Proof.
  apply (stream_id_space_split 1 2 1 (AGENT_REVERSE_ID_BASE + 1)); [lia| |].
  - vm_compute. left.
  - vm_compute. right. left.
Defined.
