(* ===== verification/Switchboard.v ===== *)
(** * The mesh TCP stream switchboard (backend/src/mesh/tcpStreamSwitchboard.ts)

    The agent end of the mesh frame protocol: forward streams opened by the
    peer with [tcp_open], reverse streams opened locally with
    [tcp_open_reverse], their idle timers and the backpressure bookkeeping.

    Objects the code shares by reference live in stores keyed by a reference:
    [sb_heap] holds the [ForwardTcpStream] entries (the handlers of a socket
    capture the entry, so it outlives its slot in [tcpStreams]), [sb_handles]
    the [ReverseTcpStreamHandle] objects. A forward entry creates at most one
    socket, so a socket is named by its entry. An idle timer is its deadline.
    The [await] in [onTcpOpen] splits it in two handlers; [sb_inflight] holds
    the entries whose continuation is still pending. *)

From S2P Require Import Prelude Protocol.

Abbreviation Ref := Z.

Definition MESH_CONNECT_TIMEOUT_MS : Z := 10000.
Definition TUNNEL_SEND_BUFFER_HIGH_WATER_MARK : Z := 4 * 1024 * 1024.

Inductive MeshResolveResult :=
  | ResolveOk (host : string) (port : Z)
  | ResolveErr (err : MeshErrCode).

(** [sid] is the [frame.s] the entry's handlers captured. *)
Record ForwardTcpStream := mkFwd {
  ft_sid : Z;
  ft_socket : bool;            (* socket !== null *)
  ft_accepted : bool;
  ft_pendingData : list Buffer;
  ft_pendingBytes : Z;
}.

Record ReverseTcpStreamHandle := mkHandle { rh_streamId : Z; rh_closed : bool }.

(** What a handler reads from its surroundings: the clock, the WebSocket
    (open, the error its [send] throws if it does, bytes buffered), and [extraStreamCount]. *)
Record SbEnv := mkEnv {
  env_now : Z;
  env_open : bool;
  env_sendThrows : option string;
  env_buffered : Z;
  env_extra : Z;
}.

Inductive SbEffect :=
  | WsJson (f : JsonFrame)
  | WsBinary (t : BinaryFrameType) (s : Z) (payload : Buffer)
  | ResolveTarget (e : Ref) (stack service : string) (port : Z)
  | SockConnect (e : Ref) (host : string) (port : Z)
  | SockSetTimeout (e : Ref) (ms : Z)
  | SockWrite (e : Ref) (b : Buffer)
  | SockDestroy (e : Ref)
  | SockPause (e : Ref)
  | SockResume (e : Ref)
  | HandleOpen (h : Ref)
  | HandleData (h : Ref) (b : Buffer)
  | HandleDrain (h : Ref)
  | HandleError (h : Ref) (msg : string)
  | HandleClose (h : Ref).

#[export] Instance SbEffect_eq_dec : EqDecision SbEffect.
Proof. solve_decision. Defined.

Record SB := mkSB {
  sb_heap : gmap Ref ForwardTcpStream;
  sb_handles : gmap Ref ReverseTcpStreamHandle;
  sb_nextRef : Ref;
  sb_inflight : gset Ref;
  tcpStreams : gmap Z Ref;
  reverseTcpStreams : gmap Z Ref;
  reverseStreamIds : StreamIdAllocator;
  idleTimers : gmap Z Z;
  pausedSockets : gset Ref;
  handlesAwaitingDrain : gset Ref;
  drainTimer : bool;
}.

(** [new TcpStreamSwitchboard(ctx)]. *)
Definition newSwitchboard : SB :=
  mkSB ∅ ∅ 1 ∅ ∅ ∅ (newStreamIdAllocator AGENT_REVERSE_ID_BASE) ∅ ∅ ∅ false.

(** Field updates. *)
Definition with_heap f st := mkSB (f (sb_heap st)) (sb_handles st) (sb_nextRef st)
  (sb_inflight st) (tcpStreams st) (reverseTcpStreams st) (reverseStreamIds st)
  (idleTimers st) (pausedSockets st) (handlesAwaitingDrain st) (drainTimer st).
Definition with_handles f st := mkSB (sb_heap st) (f (sb_handles st)) (sb_nextRef st)
  (sb_inflight st) (tcpStreams st) (reverseTcpStreams st) (reverseStreamIds st)
  (idleTimers st) (pausedSockets st) (handlesAwaitingDrain st) (drainTimer st).
Definition with_nextRef f st := mkSB (sb_heap st) (sb_handles st) (f (sb_nextRef st))
  (sb_inflight st) (tcpStreams st) (reverseTcpStreams st) (reverseStreamIds st)
  (idleTimers st) (pausedSockets st) (handlesAwaitingDrain st) (drainTimer st).
Definition with_inflight f st := mkSB (sb_heap st) (sb_handles st) (sb_nextRef st)
  (f (sb_inflight st)) (tcpStreams st) (reverseTcpStreams st) (reverseStreamIds st)
  (idleTimers st) (pausedSockets st) (handlesAwaitingDrain st) (drainTimer st).
Definition with_tcpStreams f st := mkSB (sb_heap st) (sb_handles st) (sb_nextRef st)
  (sb_inflight st) (f (tcpStreams st)) (reverseTcpStreams st) (reverseStreamIds st)
  (idleTimers st) (pausedSockets st) (handlesAwaitingDrain st) (drainTimer st).
Definition with_reverse f st := mkSB (sb_heap st) (sb_handles st) (sb_nextRef st)
  (sb_inflight st) (tcpStreams st) (f (reverseTcpStreams st)) (reverseStreamIds st)
  (idleTimers st) (pausedSockets st) (handlesAwaitingDrain st) (drainTimer st).
Definition with_reverseIds f st := mkSB (sb_heap st) (sb_handles st) (sb_nextRef st)
  (sb_inflight st) (tcpStreams st) (reverseTcpStreams st) (f (reverseStreamIds st))
  (idleTimers st) (pausedSockets st) (handlesAwaitingDrain st) (drainTimer st).
Definition with_idleTimers f st := mkSB (sb_heap st) (sb_handles st) (sb_nextRef st)
  (sb_inflight st) (tcpStreams st) (reverseTcpStreams st) (reverseStreamIds st)
  (f (idleTimers st)) (pausedSockets st) (handlesAwaitingDrain st) (drainTimer st).
Definition with_paused f st := mkSB (sb_heap st) (sb_handles st) (sb_nextRef st)
  (sb_inflight st) (tcpStreams st) (reverseTcpStreams st) (reverseStreamIds st)
  (idleTimers st) (f (pausedSockets st)) (handlesAwaitingDrain st) (drainTimer st).
Definition with_awaiting f st := mkSB (sb_heap st) (sb_handles st) (sb_nextRef st)
  (sb_inflight st) (tcpStreams st) (reverseTcpStreams st) (reverseStreamIds st)
  (idleTimers st) (pausedSockets st) (f (handlesAwaitingDrain st)) (drainTimer st).
Definition with_drainTimer b st := mkSB (sb_heap st) (sb_handles st) (sb_nextRef st)
  (sb_inflight st) (tcpStreams st) (reverseTcpStreams st) (reverseStreamIds st)
  (idleTimers st) (pausedSockets st) (handlesAwaitingDrain st) b.

Abbreviation M := (act SB SbEffect).

(** [try { ws.send(...) } catch { /* ignore */ }] *)
Definition trySend (env : SbEnv) (f : JsonFrame) : M unit :=
  when (bool_decide (env_sendThrows env = None)) (tell (WsJson f)).
Definition trySendData (env : SbEnv) (s : Z) (payload : Buffer) : M unit :=
  when (bool_decide (env_sendThrows env = None)) (tell (WsBinary TcpData s payload)).

(** ** Counting *)

Definition tcpStreamCount (st : SB) : Z :=
  msize (tcpStreams st) + msize (reverseTcpStreams st).

Definition totalStreamCount (env : SbEnv) (st : SB) : Z :=
  tcpStreamCount st + env_extra env.

(** ** Idle timers and drain timer *)

Definition refreshIdleTimer (env : SbEnv) (streamId : Z) : M unit :=
  modify (with_idleTimers (fun m => <[streamId := env_now env + STREAM_IDLE_TIMEOUT_MS]> m)).

Definition clearIdleTimer (streamId : Z) : M unit :=
  modify (with_idleTimers (delete streamId)).

Definition isSaturated (env : SbEnv) : bool :=
  env_buffered env >? TUNNEL_SEND_BUFFER_HIGH_WATER_MARK.

Definition ensureDrainTimer : M unit :=
  st ← get; if drainTimer st then skip else modify (with_drainTimer true).

Definition stopDrainTimer : M unit :=
  st ← get; if drainTimer st then modify (with_drainTimer false) else skip.

(** ** ReverseTcpStreamHandle *)

Definition set_closed (h : Ref) : M unit :=
  modify (with_handles (alter (fun hd => mkHandle (rh_streamId hd) true) h)).

Definition handle_closed (st : SB) (h : Ref) : bool :=
  match sb_handles st !! h with Some hd => rh_closed hd | None => true end.

Definition _dispatchOpen (h : Ref) : M unit := tell (HandleOpen h).
Definition _dispatchData (h : Ref) (chunk : Buffer) : M unit := tell (HandleData h chunk).
Definition _dispatchDrain (h : Ref) : M unit :=
  st ← get; when (negb (handle_closed st h)) (tell (HandleDrain h)).
Definition _dispatchError (h : Ref) (msg : string) : M unit := tell (HandleError h msg).

(** The emission of 'close' runs the subscription [openReverseStream] made,
    which drops the handle from the awaiting-drain set. *)
Definition _dispatchClose (h : Ref) : M unit :=
  st ← get;
  if handle_closed st h then skip
  else set_closed h;; tell (HandleClose h);;
       modify (with_awaiting (fun w => w ∖ {[h]})).

(** ** Draining *)

Definition resumeAll : M unit :=
  st ← get;
  for_each (fun e => tell (SockResume e)) (elements (pausedSockets st));;
  modify (with_paused (fun _ => ∅));;
  modify (with_awaiting (fun _ => ∅));;
  for_each _dispatchDrain (elements (handlesAwaitingDrain st)).

Definition checkDrain (env : SbEnv) : M unit :=
  if negb (env_open env) then resumeAll;; stopDrainTimer
  else if isSaturated env then skip
  else resumeAll;; stopDrainTimer.

(** ** Idle expiry *)

Definition onStreamIdle (env : SbEnv) (streamId : Z) : M unit :=
  modify (with_idleTimers (delete streamId));;
  st ← get;
  match tcpStreams st !! streamId with
  | Some e =>
      when (match sb_heap st !! e with Some ent => ft_socket ent | None => false end)
        (tell (SockDestroy e));;
      modify (with_tcpStreams (delete streamId));;
      trySend env (F_tcp_close streamId)
  | None =>
      match reverseTcpStreams st !! streamId with
      | Some h =>
          modify (with_reverse (delete streamId));;
          _dispatchError h "mesh idle timeout";;
          _dispatchClose h;;
          trySend env (F_tcp_close streamId)
      | None => skip
      end
  end.

(** ** Inbound frames *)

(** [onTcpOpen] up to its [await]: the cap check and the reservation. *)
Definition onTcpOpen (env : SbEnv) (s : Z) (stack service : string) (port : Z) : M unit :=
  st ← get;
  if totalStreamCount env st >=? MAX_STREAMS_PER_TUNNEL then
    trySend env (F_tcp_open_ack s false (Some agent_error))
  else
    let e := sb_nextRef st in
    modify (with_nextRef (Z.add 1));;
    modify (with_heap (<[e := mkFwd s false false [] 0]>));;
    modify (with_tcpStreams (<[s := e]>));;
    refreshIdleTimer env s;;
    tell (ResolveTarget e stack service port);;
    modify (with_inflight (fun r => {[e]} ∪ r)).

(** [this.tcpStreams.get(frame.s) === entry] *)
Definition still_reserved (st : SB) (s : Z) (e : Ref) : bool :=
  match tcpStreams st !! s with Some e' => e' =? e | None => false end.

(** [onTcpOpen] after its [await], for the entry it reserved. *)
Definition onTcpOpen_resolved (env : SbEnv) (e : Ref) (target : MeshResolveResult) : M unit :=
  modify (with_inflight (fun r => r ∖ {[e]}));;
  st ← get;
  match sb_heap st !! e with
  | None => skip
  | Some entry =>
      let s := ft_sid entry in
      match target with
      | ResolveErr err =>
          (if still_reserved st s e
           then modify (with_tcpStreams (delete s));; clearIdleTimer s
           else skip);;
          trySend env (F_tcp_open_ack s false (Some err))
      | ResolveOk host port =>
          if negb (still_reserved st s e) then skip
          else
            tell (SockConnect e host port);;
            tell (SockSetTimeout e MESH_CONNECT_TIMEOUT_MS);;
            modify (with_heap (alter (fun ent =>
              mkFwd (ft_sid ent) true (ft_accepted ent)
                (ft_pendingData ent) (ft_pendingBytes ent)) e))
      end
  end.

Definition set_accepted (e : Ref) : M unit :=
  modify (with_heap (alter (fun ent =>
    mkFwd (ft_sid ent) (ft_socket ent) true
      (ft_pendingData ent) (ft_pendingBytes ent)) e)).

(** [socket.once('connect', ...)] *)
Definition onSocketConnect (env : SbEnv) (e : Ref) : M unit :=
  st ← get;
  match sb_heap st !! e with
  | None => skip
  | Some entry =>
      set_accepted e;;
      tell (SockSetTimeout e 0);;
      for_each (fun buf => tell (SockWrite e buf)) (ft_pendingData entry);;
      modify (with_heap (alter (fun ent =>
        mkFwd (ft_sid ent) (ft_socket ent) (ft_accepted ent) [] 0) e));;
      trySend env (F_tcp_open_ack (ft_sid entry) true None);;
      refreshIdleTimer env (ft_sid entry)
  end.

(** [socket.on('data', ...)] *)
Definition onSocketData (env : SbEnv) (e : Ref) (chunk : Buffer) : M unit :=
  st ← get;
  match sb_heap st !! e with
  | None => skip
  | Some entry =>
      trySendData env (ft_sid entry) chunk;;
      refreshIdleTimer env (ft_sid entry);;
      (if isSaturated env
       then tell (SockPause e);;
            modify (with_paused (fun p => {[e]} ∪ p));;
            ensureDrainTimer
       else skip)
  end.

(** [socket.on('timeout', ...)] *)
Definition onSocketTimeout (env : SbEnv) (e : Ref) : M unit :=
  st ← get;
  match sb_heap st !! e with
  | None => skip
  | Some entry =>
      if ft_accepted entry then skip
      else
        set_accepted e;;
        trySend env (F_tcp_open_ack (ft_sid entry) false (Some unreachable));;
        modify (with_tcpStreams (delete (ft_sid entry)));;
        clearIdleTimer (ft_sid entry);;
        tell (SockDestroy e)
  end.

(** [if (this.tcpStreams.delete(s)) { clearIdleTimer; send tcp_close }] *)
Definition drop_and_close (env : SbEnv) (s : Z) : M unit :=
  st ← get;
  match tcpStreams st !! s with
  | Some _ =>
      modify (with_tcpStreams (delete s));;
      clearIdleTimer s;;
      trySend env (F_tcp_close s)
  | None => skip
  end.

(** [socket.on('error', ...)] *)
Definition onSocketError (env : SbEnv) (e : Ref) : M unit :=
  st ← get;
  match sb_heap st !! e with
  | None => skip
  | Some entry =>
      if negb (ft_accepted entry) then
        set_accepted e;;
        trySend env (F_tcp_open_ack (ft_sid entry) false (Some unreachable));;
        modify (with_tcpStreams (delete (ft_sid entry)));;
        clearIdleTimer (ft_sid entry)
      else drop_and_close env (ft_sid entry)
  end.

(** [socket.on('close', ...)] *)
Definition onSocketClose (env : SbEnv) (e : Ref) : M unit :=
  st ← get;
  match sb_heap st !! e with
  | None => skip
  | Some entry =>
      modify (with_paused (fun p => p ∖ {[e]}));;
      drop_and_close env (ft_sid entry)
  end.

Definition onTcpClose (streamId : Z) : M unit :=
  st ← get;
  if streamId >=? AGENT_REVERSE_ID_BASE then
    match reverseTcpStreams st !! streamId with
    | None => skip
    | Some h =>
        modify (with_reverse (delete streamId));;
        clearIdleTimer streamId;;
        _dispatchClose h
    end
  else
    match tcpStreams st !! streamId with
    | None => skip
    | Some e =>
        modify (with_tcpStreams (delete streamId));;
        clearIdleTimer streamId;;
        when (match sb_heap st !! e with Some ent => ft_socket ent | None => false end)
          (tell (SockDestroy e))
    end.

Definition MeshErrCode_str (c : MeshErrCode) : string :=
  match c with
  | mesh_not_enabled => "mesh_not_enabled"
  | denied => "denied"
  | no_target => "no_target"
  | unreachable => "unreachable"
  | agent_error => "agent_error"
  end.

Definition onTcpOpenAckReverse (env : SbEnv) (s : Z) (ok : bool) (err : option MeshErrCode)
    : M unit :=
  st ← get;
  match reverseTcpStreams st !! s with
  | None => skip
  | Some h =>
      if ok then _dispatchOpen h;; refreshIdleTimer env s
      else
        modify (with_reverse (delete s));;
        clearIdleTimer s;;
        _dispatchError h (from_option MeshErrCode_str "tcp_open_reverse rejected" err);;
        _dispatchClose h
  end.

Definition handleJsonFrame (env : SbEnv) (frame : JsonFrame) : M bool :=
  match frame with
  | F_tcp_open s stack service port => onTcpOpen env s stack service port;; mret true
  | F_tcp_open_ack s ok err =>
      if s <? AGENT_REVERSE_ID_BASE then mret false
      else onTcpOpenAckReverse env s ok err;; mret true
  | F_tcp_close s => onTcpClose s;; mret true
  | _ => mret false
  end.

Definition handleBinaryFrame (env : SbEnv) (frame : DecodedBinaryFrame) : M bool :=
  if negb (bool_decide (df_type frame = TcpData)) then mret false
  else
  st ← get;
  let s := df_streamId frame in
  if s >=? AGENT_REVERSE_ID_BASE then
    match reverseTcpStreams st !! s with
    | None => mret true
    | Some h => _dispatchData h (df_payload frame);; refreshIdleTimer env s;; mret true
    end
  else
    match tcpStreams st !! s ≫= fun e => ent ← sb_heap st !! e; Some (e, ent) with
    | None => mret true
    | Some (e, fwd) =>
        if ft_socket fwd then
          tell (SockWrite e (df_payload frame));; refreshIdleTimer env s;; mret true
        else if ft_pendingBytes fwd + blen (df_payload frame) >? STREAM_PENDING_DATA_MAX_BYTES
        then
          modify (with_tcpStreams (delete s));;
          clearIdleTimer s;;
          trySend env (F_tcp_close s);; mret true
        else
          modify (with_heap (<[e := mkFwd (ft_sid fwd) (ft_socket fwd)
            (ft_accepted fwd) (ft_pendingData fwd ++ [df_payload frame])
            (ft_pendingBytes fwd + blen (df_payload frame))]>));;
          refreshIdleTimer env s;; mret true
    end.

(** ** Outbound reverse streams *)

Definition openReverseStream (env : SbEnv) (nodeId : Z) (stack service : string) (port : Z)
    : M (option Ref) :=
  st ← get;
  if negb (env_open env) then mret None
  else if totalStreamCount env st >=? MAX_STREAMS_PER_TUNNEL then mret None
  else
    let '(streamId, ids) := allocate (reverseStreamIds st) in
    let h := sb_nextRef st in
    modify (with_reverseIds (fun _ => ids));;
    modify (with_nextRef (Z.add 1));;
    modify (with_handles (<[h := mkHandle streamId false]>));;
    modify (with_reverse (<[streamId := h]>));;
    refreshIdleTimer env streamId;;
    match env_sendThrows env with
    | Some err =>
        modify (with_reverse (delete streamId));;
        clearIdleTimer streamId;;
        _dispatchError h err;;
        _dispatchClose h;;
        mret None
    | None =>
        tell (WsJson (F_tcp_open_reverse streamId nodeId stack service port));;
        mret (Some h)
    end.

(** The [sendData] closure a handle is built with. *)
Definition sendData (env : SbEnv) (sid : Z) (payload : Buffer) : M bool :=
  if negb (env_open env) then mret false
  else
    trySendData env sid payload;;
    refreshIdleTimer env sid;;
    if negb (isSaturated env) then mret true
    else
      st ← get;
      (match reverseTcpStreams st !! sid with
       | Some h' => modify (with_awaiting (fun w => {[h']} ∪ w));; ensureDrainTimer
       | None => skip
       end);;
      mret false.

(** The [sendClose] closure a handle is built with. *)
Definition sendClose (env : SbEnv) (sid : Z) : M unit :=
  st ← get;
  match reverseTcpStreams st !! sid with
  | None => skip
  | Some _ =>
      modify (with_reverse (delete sid));;
      clearIdleTimer sid;;
      when (env_open env) (trySend env (F_tcp_close sid))
  end.

(** [ReverseTcpStreamHandle.write] *)
Definition handle_write (env : SbEnv) (h : Ref) (chunk : Buffer) : M bool :=
  st ← get;
  match sb_handles st !! h with
  | None => mret false
  | Some hd => if rh_closed hd then mret false else sendData env (rh_streamId hd) chunk
  end.

(** [ReverseTcpStreamHandle.end] (and [destroy]) *)
Definition handle_end (env : SbEnv) (h : Ref) : M unit :=
  st ← get;
  match sb_handles st !! h with
  | None => skip
  | Some hd => if rh_closed hd then skip
               else set_closed h;; sendClose env (rh_streamId hd)
  end.

(** ** Tear-down *)

Definition cleanup (reason : string) : M unit :=
  st ← get;
  for_each (fun e =>
    when (match sb_heap st !! e with Some ent => ft_socket ent | None => false end)
      (tell (SockDestroy e))) (map snd (map_to_list (tcpStreams st)));;
  modify (with_tcpStreams (fun _ => ∅));;
  for_each (fun h => _dispatchError h reason;; _dispatchClose h)
    (map snd (map_to_list (reverseTcpStreams st)));;
  modify (with_reverse (fun _ => ∅));;
  modify (with_reverseIds (fun _ => newStreamIdAllocator AGENT_REVERSE_ID_BASE));;
  modify (with_idleTimers (fun _ => ∅));;
  modify (with_paused (fun _ => ∅));;
  modify (with_awaiting (fun _ => ∅));;
  stopDrainTimer.

(** ** Events and runs

    What the runtime can call: a decoded frame, the continuation of a pending
    resolve, the events of a socket that was created, an expired idle timer, a
    tick of the drain timer, the methods of a handle, and the owner's calls. *)

Inductive SbEvent :=
  | EvJson (f : JsonFrame)
  | EvBinary (d : DecodedBinaryFrame)
  | EvResolved (e : Ref) (target : MeshResolveResult)
  | EvConnect (e : Ref)
  | EvSockData (e : Ref) (chunk : Buffer)
  | EvSockTimeout (e : Ref)
  | EvSockError (e : Ref)
  | EvSockClose (e : Ref)
  | EvIdle (s : Z)
  | EvDrainTick
  | EvOpenReverse (nodeId : Z) (stack service : string) (port : Z)
  | EvHandleWrite (h : Ref) (chunk : Buffer)
  | EvHandleEnd (h : Ref)
  | EvCleanup (reason : string).

Definition run_event (env : SbEnv) (ev : SbEvent) : M unit :=
  match ev with
  | EvJson f => handleJsonFrame env f;; skip
  | EvBinary d => handleBinaryFrame env d;; skip
  | EvResolved e target => onTcpOpen_resolved env e target
  | EvConnect e => onSocketConnect env e
  | EvSockData e chunk => onSocketData env e chunk
  | EvSockTimeout e => onSocketTimeout env e
  | EvSockError e => onSocketError env e
  | EvSockClose e => onSocketClose env e
  | EvIdle s => onStreamIdle env s
  | EvDrainTick => checkDrain env
  | EvOpenReverse n stack service port => openReverseStream env n stack service port;; skip
  | EvHandleWrite h chunk => handle_write env h chunk;; skip
  | EvHandleEnd h => handle_end env h
  | EvCleanup reason => cleanup reason
  end.

(** The peer opens forward streams with ids of its own half of the id space;
    a continuation runs once; timers fire when due. *)
Definition enabled (env : SbEnv) (st : SB) (ev : SbEvent) : Prop :=
  match ev with
  | EvJson (F_tcp_open s _ _ _) => s < AGENT_REVERSE_ID_BASE
  | EvResolved e _ => e ∈ sb_inflight st
  | EvIdle s => exists d, idleTimers st !! s = Some d /\ d <= env_now env
  | EvDrainTick => drainTimer st = true
  | _ => True
  end.

Inductive sb_step : SB -> SB -> Prop :=
  | sb_step_intro env ev st :
      0 <= env_extra env -> enabled env st ev ->
      sb_step st (state (run_event env ev) st).

Definition sb_reachable (st : SB) : Prop := rtc sb_step newSwitchboard st.

(** A sequence of events under one environment, with the calls made. *)
Fixpoint run_events (env : SbEnv) (evs : list SbEvent) : M unit :=
  match evs with
  | [] => skip
  | ev :: evs => run_event env ev;; run_events env evs
  end.

(** ** Invariant *)

Record SbInv (st : SB) : Prop := {
  inv_fwd : forall s e, tcpStreams st !! s = Some e ->
    s < AGENT_REVERSE_ID_BASE /\ exists ent, sb_heap st !! e = Some ent /\ ft_sid ent = s;
  inv_rev : forall s h, reverseTcpStreams st !! s = Some h ->
    AGENT_REVERSE_ID_BASE <= s /\ sb_handles st !! h = Some (mkHandle s false);
  inv_pend : forall e ent, sb_heap st !! e = Some ent ->
    ft_pendingBytes ent = sum_lengths (ft_pendingData ent) /\
    ft_pendingBytes ent <= STREAM_PENDING_DATA_MAX_BYTES;
  inv_timer_fwd : forall s e, tcpStreams st !! s = Some e -> is_Some (idleTimers st !! s);
  inv_timer_rev : forall s h, reverseTcpStreams st !! s = Some h -> is_Some (idleTimers st !! s);
  inv_drain : drainTimer st = false ->
    pausedSockets st = ∅ /\ handlesAwaitingDrain st = ∅;
  inv_cap : tcpStreamCount st <= MAX_STREAMS_PER_TUNNEL;
  inv_alloc : allocator_wf (reverseStreamIds st) /\
    sia_start (reverseStreamIds st) = AGENT_REVERSE_ID_BASE;
  inv_fresh : forall r, sb_nextRef st <= r -> sb_heap st !! r = None /\ sb_handles st !! r = None;
  inv_sid : forall e ent, sb_heap st !! e = Some ent -> ft_sid ent < AGENT_REVERSE_ID_BASE;
}.

(** Case split a goal about the fields of an updated state. *)
Ltac sb_fields := constructor; simpl; intros; map_cases.

Lemma new_inv : SbInv newSwitchboard.
Proof.
  sb_fields; done.
Qed.

Section preservation.
Context (env : SbEnv).

Lemma inv_trySend f st : state (trySend env f) st = st.
Proof. unfold trySend. by act_run. Qed.
Lemma inv_trySendData s b st : state (trySendData env s b) st = st.
Proof. unfold trySendData. by act_run. Qed.

Hint Rewrite inv_trySend inv_trySendData : act.

(** Refreshing a timer only adds one. *)
Lemma inv_refresh s st : SbInv st -> SbInv (state (refreshIdleTimer env s) st).
Proof. intros []. unfold refreshIdleTimer. act_run. sb_fields; eauto. Qed.

(** Removing a forward stream with its timer. *)
Lemma inv_drop_fwd s st : s < AGENT_REVERSE_ID_BASE -> SbInv st ->
  SbInv (with_idleTimers (delete s) (with_tcpStreams (delete s) st)).
Proof.
  intros Hs [? ? ? ? ? ? Hcap ? ? ?]. sb_fields; eauto.
  - match goal with H : reverseTcpStreams _ !! _ = _ |- _ => apply inv_rev0 in H end. lia.
  - unfold tcpStreamCount in *; simpl.
    pose proof (msize_delete_le (tcpStreams st) s). lia.
Qed.

(** Removing a reverse stream with its timer and closing its handle. *)
Lemma inv_drop_rev s h st : reverseTcpStreams st !! s = Some h -> SbInv st ->
  SbInv (state (_dispatchClose h)
    (with_idleTimers (delete s) (with_reverse (delete s) st))).
Proof.
  intros Hs [Hf Hr ? ? ? Hdr Hcap ? Hfr ?]. destruct (Hr _ _ Hs) as [Hlow Hh].
  unfold _dispatchClose, handle_closed, set_closed. act_run. rewrite Hh. act_run.
  sb_fields; eauto.
  - destruct (Hr _ _ H) as [? Hh2]. rewrite Hh in Hh2. congruence.
  - apply Hf in H. lia.
  - destruct (Hdr H) as [-> ->]. by rewrite empty_difference.
  - unfold tcpStreamCount in *; simpl.
    pose proof (msize_delete_le (reverseTcpStreams st) s). lia.
  - rewrite (proj2 (Hfr _ H)). split; [by apply Hfr|done].
Qed.

(** Updating an entry in place keeps the invariant when its stream id is kept
    and its buffer stays within bounds. *)
Lemma inv_alter_heap e f st :
  (forall ent, sb_heap st !! e = Some ent ->
     ft_sid (f ent) = ft_sid ent /\
     ft_pendingBytes (f ent) = sum_lengths (ft_pendingData (f ent)) /\
     ft_pendingBytes (f ent) <= STREAM_PENDING_DATA_MAX_BYTES) ->
  SbInv st -> SbInv (with_heap (alter f e) st).
Proof.
  intros Hf [Hfw ? Hp ? ? ? ? ? Hfr Hsd]. sb_fields; eauto.
  - apply Hfw in H as (? & ent & He & Hs). split; [done|].
    exists (f ent). rewrite He. split; [done|]. rewrite <- Hs. by apply Hf.
  - by apply Hf.
  - rewrite (proj1 (Hfr _ H)). split; [done|]. by apply Hfr.
  - rewrite (proj1 (Hf _ ltac:(eassumption))). eauto.
Qed.

Lemma inv_set_accepted e st : SbInv st -> SbInv (state (set_accepted e) st).
Proof.
  intros Hi. unfold set_accepted. act_run. apply inv_alter_heap; [|done].
  intros ent He. split; [done|]. by apply (inv_pend _ Hi) in He.
Qed.

(** Adding to a drain set while the drain timer runs; emptying both. *)
Lemma inv_paused P W b st : SbInv st -> (b = false -> P = ∅ /\ W = ∅) ->
  SbInv (with_drainTimer b (with_awaiting (fun _ => W) (with_paused (fun _ => P) st))).
Proof. intros [] Hb. sb_fields; eauto. Qed.

Lemma inv_pause f st : SbInv st -> SbInv (with_drainTimer true (with_paused f st)).
Proof. intros []. sb_fields; eauto; done. Qed.

Lemma inv_await f st : SbInv st -> SbInv (with_drainTimer true (with_awaiting f st)).
Proof. intros []. sb_fields; eauto; done. Qed.

Lemma state_ensureDrainTimer st : state ensureDrainTimer st = with_drainTimer true st.
Proof. unfold ensureDrainTimer. act_cases; [|done]. by destruct st; simplify_eq/=. Qed.

Lemma state_stopDrainTimer st : state stopDrainTimer st = with_drainTimer false st.
Proof. unfold stopDrainTimer. act_cases; [done|]. by destruct st; simplify_eq/=. Qed.

Lemma state_dispatchDrain h st : state (_dispatchDrain h) st = st.
Proof. unfold _dispatchDrain. by act_run. Qed.

Lemma state_resumeAll st : state resumeAll st =
  with_awaiting (fun _ => ∅) (with_paused (fun _ => ∅) st).
Proof.
  unfold resumeAll. act_run.
  apply (for_each_ind _ (fun s => s = _)); [done|].
  intros h st' _ ->. apply state_dispatchDrain.
Qed.

Hint Rewrite state_ensureDrainTimer state_stopDrainTimer state_resumeAll : act.

Lemma inv_inflight f st : SbInv st -> SbInv (with_inflight f st).
Proof. intros []. sb_fields; eauto. Qed.

Lemma inv_checkDrain st : SbInv st -> SbInv (state (checkDrain env) st).
Proof.
  intros Hi. unfold checkDrain. act_cases; try done; by apply (inv_paused ∅ ∅ false).
Qed.

Lemma inv_onStreamIdle s st : SbInv st -> SbInv (state (onStreamIdle env s) st).
Proof.
  intros Hi. unfold onStreamIdle, _dispatchError. act_cases.
  - apply (inv_drop_fwd s); [|done]. by apply (inv_fwd _ Hi) in Heqo as [].
  - by apply (inv_drop_rev s).
  - destruct Hi. sb_fields; eauto; congruence.
Qed.

Lemma inv_onTcpOpen s stack service port st :
  0 <= env_extra env -> s < AGENT_REVERSE_ID_BASE -> SbInv st ->
  SbInv (state (onTcpOpen env s stack service port) st).
Proof.
  intros Hx Hs Hi. unfold onTcpOpen, refreshIdleTimer. act_cases; [done|].
  destruct Hi as [Hf Hr Hp Htf Htr Hdr Hcap Hal Hfr Hsd].
  pose proof (Hfr (sb_nextRef st) ltac:(lia)) as [Hfh Hfd].
  unfold totalStreamCount, MAX_STREAMS_PER_TUNNEL in *.
  sb_fields; eauto.
  - apply Hf in H as (_ & ent & He & _). congruence.
  - done.
  - unfold tcpStreamCount in *; simpl.
    pose proof (msize_insert_le (tcpStreams st) s (sb_nextRef st)).
    unfold MAX_STREAMS_PER_TUNNEL. zlia.
  - lia.
  - apply Hfr. lia.
Qed.

Lemma inv_onTcpOpen_resolved e t st :
  SbInv st -> SbInv (state (onTcpOpen_resolved env e t) st).
Proof.
  intros Hi. unfold onTcpOpen_resolved, clearIdleTimer, still_reserved. act_cases;
    try (by apply inv_inflight); simpl in *.
  - apply inv_alter_heap; [|by apply inv_inflight].
    intros ent He. split; [done|]. by apply (inv_pend _ Hi) in He.
  - apply inv_drop_fwd; [|by apply inv_inflight]. by eapply (inv_sid _ Hi).
Qed.

Lemma inv_drop_and_close s st : SbInv st -> SbInv (state (drop_and_close env s) st).
Proof.
  intros Hi. unfold drop_and_close, clearIdleTimer. act_cases; [|done].
  apply (inv_drop_fwd s); [|done]. by apply (inv_fwd _ Hi) in Heqo as [].
Qed.

Lemma inv_onSocketConnect e st : SbInv st -> SbInv (state (onSocketConnect env e) st).
Proof.
  intros Hi. unfold onSocketConnect. act_cases; [|done].
  apply inv_refresh, inv_alter_heap; [|by apply inv_set_accepted].
  intros ent He. split; [done|]. split; [done|]. by unfold STREAM_PENDING_DATA_MAX_BYTES.
Qed.

Lemma inv_onSocketData e b st : SbInv st -> SbInv (state (onSocketData env e b) st).
Proof.
  intros Hi. unfold onSocketData. act_cases; try done.
  - by apply inv_pause, inv_refresh.
  - by apply inv_refresh.
Qed.

Lemma inv_onSocketTimeout e st : SbInv st -> SbInv (state (onSocketTimeout env e) st).
Proof.
  intros Hi. unfold onSocketTimeout, clearIdleTimer. act_cases; try done.
  apply inv_drop_fwd; [by eapply (inv_sid _ Hi)|by apply inv_set_accepted].
Qed.

Lemma inv_onSocketError e st : SbInv st -> SbInv (state (onSocketError env e) st).
Proof.
  intros Hi. unfold onSocketError, clearIdleTimer. act_cases; try done.
  - apply inv_drop_fwd; [by eapply (inv_sid _ Hi)|by apply inv_set_accepted].
  - by apply inv_drop_and_close.
Qed.

Lemma inv_onSocketClose e st : SbInv st -> SbInv (state (onSocketClose env e) st).
Proof.
  intros Hi. unfold onSocketClose. act_cases; [|done]. apply inv_drop_and_close.
  destruct Hi as [? ? ? ? ? Hd ? ? ? ?]. sb_fields; eauto.
  destruct (Hd H) as [-> ->]. by rewrite empty_difference.
Qed.

Lemma inv_onTcpClose s st : SbInv st -> SbInv (state (onTcpClose s) st).
Proof.
  intros Hi. unfold onTcpClose, clearIdleTimer. act_cases; try done.
  - by apply inv_drop_rev.
  - apply inv_drop_fwd; [zlia|done].
Qed.

Lemma inv_onTcpOpenAckReverse s ok err st :
  SbInv st -> SbInv (state (onTcpOpenAckReverse env s ok err) st).
Proof.
  intros Hi. unfold onTcpOpenAckReverse, _dispatchOpen, _dispatchError, clearIdleTimer.
  act_cases; try done.
  - by apply inv_refresh.
  - by apply inv_drop_rev.
Qed.

Lemma inv_handleJsonFrame f st : 0 <= env_extra env -> enabled env st (EvJson f) ->
  SbInv st -> SbInv (state (handleJsonFrame env f) st).
Proof.
  intros Hx He Hi. unfold handleJsonFrame. act_cases; try done.
  - by apply inv_onTcpOpen.
  - by apply inv_onTcpOpenAckReverse.
  - by apply inv_onTcpClose.
Qed.

Lemma inv_insert_heap e ent ent' st :
  sb_heap st !! e = Some ent -> ft_sid ent' = ft_sid ent ->
  ft_pendingBytes ent' = sum_lengths (ft_pendingData ent') ->
  ft_pendingBytes ent' <= STREAM_PENDING_DATA_MAX_BYTES ->
  SbInv st -> SbInv (with_heap (<[e := ent']>) st).
Proof.
  intros He ? ? ? Hi.
  assert (with_heap (<[e := ent']>) st = with_heap (alter (fun _ => ent') e) st) as ->.
  { unfold with_heap. f_equal. apply map_eq. intros i.
    rewrite lookup_insert, lookup_alter. case_decide; subst; [by rewrite He|done]. }
  apply inv_alter_heap; [|done]. intros ent0 He0. by simplify_eq.
Qed.

Lemma inv_handleBinaryFrame d st : SbInv st -> SbInv (state (handleBinaryFrame env d) st).
Proof.
  intros Hi. unfold handleBinaryFrame, _dispatchData, clearIdleTimer. act_cases; try done.
  - by apply inv_refresh.
  - by apply inv_refresh.
  - apply inv_drop_fwd; [zlia|done].
  - apply bind_Some in Heqo as (e & He & Hb). apply bind_Some in Hb as (en & Hen & ?).
    simplify_eq. apply inv_refresh. pose proof (inv_pend _ Hi _ _ Hen) as [Hp Hc].
    eapply inv_insert_heap; simpl; try done.
    + rewrite sum_lengths_app, Hp. simpl. unfold blen. lia.
    + zlia.
Qed.

(** Registering a fresh handle under a freshly allocated id. *)
Lemma inv_add_reverse st id ids :
  0 <= env_extra env -> SbInv st ->
  (totalStreamCount env st >=? MAX_STREAMS_PER_TUNNEL) = false ->
  allocate (reverseStreamIds st) = (id, ids) ->
  SbInv (state (refreshIdleTimer env id)
    (with_reverse (<[id := sb_nextRef st]>)
      (with_handles (<[sb_nextRef st := mkHandle id false]>)
        (with_nextRef (Z.add 1) (with_reverseIds (fun _ => ids) st))))).
Proof.
  intros Hx [Hf Hr Hp Htf Htr Hdr Hcap [Hal Hst] Hfr Hsd] Hc Ha.
  pose proof (allocate_wf _ Hal) as Hwf. rewrite Ha in Hwf.
  assert (Hid : AGENT_REVERSE_ID_BASE <= id /\ sia_start ids = AGENT_REVERSE_ID_BASE)
    by (destruct Hal; inv Ha; simpl; lia).
  pose proof (Hfr (sb_nextRef st) ltac:(lia)) as [Hfh Hfd].
  unfold totalStreamCount, MAX_STREAMS_PER_TUNNEL in *. unfold refreshIdleTimer. act_run.
  sb_fields; eauto.
  - split; [lia|done].
  - apply Hr in H as [_ Hh]. congruence.
  - unfold tcpStreamCount in *; simpl.
    pose proof (msize_insert_le (reverseTcpStreams st) id (sb_nextRef st)).
    unfold MAX_STREAMS_PER_TUNNEL. zlia.
  - split; [done|lia].
  - lia.
  - apply Hfr. lia.
Qed.

Lemma inv_openReverseStream n stack service port st : 0 <= env_extra env -> SbInv st ->
  SbInv (state (openReverseStream env n stack service port) st).
Proof.
  intros Hx Hi. unfold openReverseStream. act_cases; try done;
    pose proof (inv_add_reverse _ _ _ Hx Hi ltac:(eassumption) eq_refl) as Hn.
  - unfold _dispatchError, clearIdleTimer. act_run. eapply inv_drop_rev; [|exact Hn].
    unfold refreshIdleTimer. act_run. by rewrite lookup_insert_eq.
  - done.
Qed.

Lemma inv_handle_write h b st : SbInv st -> SbInv (state (handle_write env h b) st).
Proof.
  intros Hi. unfold handle_write, sendData. act_cases; try done; by
    repeat (apply inv_await || apply inv_refresh).
Qed.

(** A handle the map does not hold can be closed. *)
Lemma inv_close_handle h st :
  (forall s, reverseTcpStreams st !! s <> Some h) -> SbInv st ->
  SbInv (with_handles (alter (fun hd => mkHandle (rh_streamId hd) true) h) st).
Proof.
  intros Hn [? Hr ? ? ? ? ? ? Hfr ?]. sb_fields; eauto.
  - by destruct (Hn s).
  - rewrite (proj2 (Hfr _ H)). split; [by apply Hfr|done].
Qed.

Lemma inv_drop_reverse s h st : reverseTcpStreams st !! s = Some h -> SbInv st ->
  SbInv (with_idleTimers (delete s) (with_reverse (delete s) st)).
Proof.
  intros Hs [Hf Hr ? ? ? ? Hcap ? ? ?]. apply Hr in Hs as [Hs _]. sb_fields; eauto.
  - apply Hf in H. lia.
  - unfold tcpStreamCount in *; simpl.
    pose proof (msize_delete_le (reverseTcpStreams st) s). lia.
Qed.

Lemma rev_of_handle h r s st : SbInv st -> sb_handles st !! h = Some r ->
  reverseTcpStreams st !! s = Some h -> s = rh_streamId r.
Proof. intros Hi Hh Hs. apply (inv_rev _ Hi) in Hs as [_ Hs]. by simplify_eq. Qed.

Lemma inv_handle_end h st : SbInv st -> SbInv (state (handle_end env h) st).
Proof.
  intros Hi. unfold handle_end, sendClose, set_closed, clearIdleTimer, when.
  act_cases; try done; simpl in *.
  1,2: change (SbInv (with_handles (alter (fun hd => mkHandle (rh_streamId hd) true) h)
      (with_idleTimers (delete (rh_streamId r))
        (with_reverse (delete (rh_streamId r)) st))));
    apply inv_close_handle; [|by eapply inv_drop_reverse];
    simpl; intros s; rewrite lookup_delete; case_decide; [done|];
    intros ?%(rev_of_handle _ _ _ _ Hi Heqo); congruence.
  apply inv_close_handle; [|done]. intros s Hs.
  pose proof (rev_of_handle _ _ _ _ Hi Heqo Hs). congruence.
Qed.

(** What the closing loop of [cleanup] leaves alone. *)
Lemma cleanup_loop r l st :
  let st' := state (for_each (fun h => _dispatchError h r;; _dispatchClose h) l) st in
  sb_heap st' = sb_heap st /\ sb_nextRef st' = sb_nextRef st /\
  tcpStreams st' = tcpStreams st /\ sb_inflight st' = sb_inflight st /\
  (forall k, sb_handles st !! k = None -> sb_handles st' !! k = None).
Proof.
  intros st'. subst st'.
  apply (for_each_ind _ (fun st' => sb_heap st' = sb_heap st /\
    sb_nextRef st' = sb_nextRef st /\ tcpStreams st' = tcpStreams st /\
    sb_inflight st' = sb_inflight st /\
    (forall k, sb_handles st !! k = None -> sb_handles st' !! k = None))); [done|].
  intros h st' _ (H1 & H2 & H3 & H4 & H5).
  unfold _dispatchError, _dispatchClose, handle_closed, set_closed. act_cases; try done.
  all: split_and!; simpl; try done; intros k Hk; rewrite lookup_alter;
    case_decide; subst; rewrite H5; done.
Qed.

Lemma inv_cleanup r st : SbInv st -> SbInv (state (cleanup r) st).
Proof.
  intros [? ? Hp ? ? ? ? ? Hfr Hsd]. unfold cleanup. act_run.
  match goal with |- context [state (for_each ?f ?l) ?s] =>
    pose proof (cleanup_loop r l s) as (H1 & H2 & H3 & H4 & H5);
    generalize dependent (state (for_each f l) s); intros st' H1 H2 H3 H4 H5 end.
  sb_fields; rewrite ?H1, ?H2, ?H3 in *; simpl in *; simplify_map_eq; eauto.
  - by unfold tcpStreamCount; simpl; rewrite H3.
  - split; [|done]. by apply new_allocator_wf.
  - split; [by apply Hfr|]. apply H5. by apply Hfr.
Qed.

Lemma inv_run_event ev st : 0 <= env_extra env -> enabled env st ev ->
  SbInv st -> SbInv (state (run_event env ev) st).
Proof.
  intros Hx He Hi. destruct ev; simpl; act_run;
    eauto using inv_handleJsonFrame, inv_handleBinaryFrame, inv_onTcpOpen_resolved,
      inv_onSocketConnect, inv_onSocketData, inv_onSocketTimeout, inv_onSocketError,
      inv_onSocketClose, inv_onStreamIdle, inv_checkDrain, inv_openReverseStream,
      inv_handle_write, inv_handle_end, inv_cleanup.
Qed.
End preservation.

Lemma effects_stopDrainTimer st : effects stopDrainTimer st = [].
Proof. unfold stopDrainTimer. by act_cases. Qed.

#[export] Hint Rewrite inv_trySend inv_trySendData state_ensureDrainTimer
  state_stopDrainTimer state_resumeAll effects_stopDrainTimer : act.

Lemma reachable_inv st : sb_reachable st -> SbInv st.
Proof.
  intros Hr. apply (rtc_invariant sb_step SbInv newSwitchboard); [|apply new_inv|done].
  intros s1 s2 [env ev s Hx He] Hi. by apply inv_run_event.
Qed.

(** C10: in every state the switchboard can reach, under any interleaving of
    frames, resolver answers, socket events, timers and calls: the streams it
    owns never exceed the per-tunnel cap; every live stream, forward or
    reverse, has an idle timer; the bytes buffered for a reservation are what
    is counted and stay within the pending-data cap; no reverse stream in the
    map has a closed handle; and nothing waits for a drain unless the drain
    timer runs. *)
Theorem switchboard_invariant (st : SB) :
  sb_reachable st ->
  tcpStreamCount st <= MAX_STREAMS_PER_TUNNEL /\
  (forall s, is_Some (tcpStreams st !! s) \/ is_Some (reverseTcpStreams st !! s) ->
     is_Some (idleTimers st !! s)) /\
  (forall s e ent, tcpStreams st !! s = Some e -> sb_heap st !! e = Some ent ->
     ft_sid ent = s /\ ft_pendingBytes ent = sum_lengths (ft_pendingData ent) /\
     ft_pendingBytes ent <= STREAM_PENDING_DATA_MAX_BYTES) /\
  (forall s h, reverseTcpStreams st !! s = Some h -> handle_closed st h = false) /\
  (pausedSockets st <> ∅ \/ handlesAwaitingDrain st <> ∅ -> drainTimer st = true).
Proof.
  intros Hi%reachable_inv.
  split_and!.
  - apply Hi.
  - intros s [[e He]|[h Hh]]; [by eapply (inv_timer_fwd _ Hi)|by eapply (inv_timer_rev _ Hi)].
  - intros s e ent Hs He. split; [|by eapply (inv_pend _ Hi)].
    apply (inv_fwd _ Hi) in Hs as (_ & ent' & He' & ?). by simplify_eq.
  - intros s h Hs. apply (inv_rev _ Hi) in Hs as [_ Hs]. unfold handle_closed. by rewrite Hs.
  - intros Hne. destruct (drainTimer st) eqn:Hd; [done|].
    destruct (inv_drain _ Hi Hd). by destruct Hne.
Qed.

(** An open tunnel with an empty send buffer. *)
Definition quiet_env : SbEnv := mkEnv 0 true None 0 0.

Lemma switchboard_invariant_witness :
  let st := state (run_event quiet_env (EvJson (F_tcp_open 7 "web" "api" 80))) newSwitchboard in
  tcpStreamCount st = 1 /\ tcpStreamCount st <= MAX_STREAMS_PER_TUNNEL /\
  (forall s, is_Some (tcpStreams st !! s) \/ is_Some (reverseTcpStreams st !! s) ->
     is_Some (idleTimers st !! s)).
Proof.
  split; [vm_compute; reflexivity|].
  destruct (switchboard_invariant
    (state (run_event quiet_env (EvJson (F_tcp_open 7 "web" "api" 80))) newSwitchboard))
    as (H1 & H2 & _).
  - apply rtc_once. constructor; [simpl; lia|]. simpl. unfold AGENT_REVERSE_ID_BASE. lia.
  - split; [exact H1|exact H2].
Defined.

(** ** Delivery to the local socket *)

(** The payloads written to the socket of entry [e], in call order. *)
Definition sock_writes (e : Ref) (effs : list SbEffect) : list Buffer :=
  omap (fun x => match x with
                 | SockWrite e' b => if decide (e' = e) then Some b else None
                 | _ => None
                 end) effs.

(** [TcpData] frames for stream [s] carrying [bs], in order. *)
Definition data_events (s : Z) (bs : list Buffer) : list SbEvent :=
  map (fun b => EvBinary (mkDecoded TcpData s b)) bs.

(** Stream [s] is held by entry [e], whose fields are [ent]. *)
Definition at_entry (st : SB) (s : Z) (e : Ref) (ent : ForwardTcpStream) : Prop :=
  tcpStreams st !! s = Some e /\ sb_heap st !! e = Some ent.

Lemma sock_writes_app e l1 l2 : sock_writes e (l1 ++ l2) = sock_writes e l1 ++ sock_writes e l2.
Proof. apply omap_app. Qed.

Lemma sock_writes_map e bs : sock_writes e (map (SockWrite e) bs) = bs.
Proof. induction bs as [|b bs IH]; simpl; [done|]. rewrite decide_True by done. by f_equal. Qed.

Section delivery.
Context (env : SbEnv) (s : Z) (e : Ref).
Hypothesis Hlow : s < AGENT_REVERSE_ID_BASE.

Lemma run_events_app_state l1 l2 st :
  state (run_events env (l1 ++ l2)) st = state (run_events env l2) (state (run_events env l1) st).
Proof.
  revert st. induction l1 as [|ev l1 IH]; intros st; [done|].
  simpl. rewrite !state_bind. apply IH.
Qed.

Lemma run_events_app_effects l1 l2 st :
  effects (run_events env (l1 ++ l2)) st =
  effects (run_events env l1) st ++ effects (run_events env l2) (state (run_events env l1) st).
Proof.
  revert st. induction l1 as [|ev l1 IH]; intros st; [done|].
  simpl. rewrite !effects_bind, !state_bind, IH. by rewrite app_assoc.
Qed.

Lemma data_frame_step st ent b : at_entry st s e ent ->
  let ev := EvBinary (mkDecoded TcpData s b) in
  if ft_socket ent then
    at_entry (state (run_event env ev) st) s e ent /\
    effects (run_event env ev) st = [SockWrite e b]
  else ft_pendingBytes ent + blen b <= STREAM_PENDING_DATA_MAX_BYTES ->
    at_entry (state (run_event env ev) st) s e
      (mkFwd (ft_sid ent) false (ft_accepted ent) (ft_pendingData ent ++ [b])
         (ft_pendingBytes ent + blen b)) /\
    effects (run_event env ev) st = [].
Proof.
  intros [Hs He] ev. subst ev. simpl. unfold handleBinaryFrame.
  rewrite bool_decide_true by done. cbn [negb df_streamId df_payload].
  assert (Hge : (s >=? AGENT_REVERSE_ID_BASE) = false) by (rewrite Z.geb_leb; zlia).
  destruct (ft_socket ent) eqn:Hk; [|intros Hc]; act_run; rewrite Hge; act_run;
    rewrite Hs; simpl; rewrite He; simpl; rewrite Hk; act_run; [done|].
  assert (Hcc : (ft_pendingBytes ent + blen b >? STREAM_PENDING_DATA_MAX_BYTES) = false)
    by (rewrite Z.gtb_ltb; zlia).
  rewrite Hcc. act_run. unfold at_entry, refreshIdleTimer; act_run.
  rewrite lookup_insert_eq. done.
Qed.

(** Before the socket exists, payloads queue on the entry. *)
Lemma data_before_socket bs st ent : at_entry st s e ent -> ft_socket ent = false ->
  ft_pendingBytes ent + sum_lengths bs <= STREAM_PENDING_DATA_MAX_BYTES ->
  at_entry (state (run_events env (data_events s bs)) st) s e
    (mkFwd (ft_sid ent) false (ft_accepted ent) (ft_pendingData ent ++ bs)
       (ft_pendingBytes ent + sum_lengths bs)) /\
  effects (run_events env (data_events s bs)) st = [].
Proof.
  revert st ent. induction bs as [|b bs IH]; intros st ent Ha Hk Hc.
  - simpl in *. act_run. rewrite Z.add_0_r. destruct ent; simpl in *; by subst.
  - pose proof (data_frame_step st ent b Ha) as Hstep. rewrite Hk in Hstep.
    rewrite sum_lengths_cons in *. pose proof (sum_lengths_nonneg bs).
    destruct Hstep as [Ha' He']; [unfold blen; lia|].
    destruct (IH _ _ Ha' eq_refl ltac:(cbn [ft_pendingBytes]; unfold blen; lia)) as [Ha2 He2].
    cbn [ft_sid ft_accepted ft_pendingData ft_pendingBytes] in Ha2.
    rewrite <- app_assoc, <- Z.add_assoc in Ha2.
    cbn [data_events map run_events]. rewrite state_bind, effects_bind, He'. by split.
Qed.

(** Once it exists, payloads are written to it at once. *)
Lemma data_after_socket bs st ent : at_entry st s e ent -> ft_socket ent = true ->
  at_entry (state (run_events env (data_events s bs)) st) s e ent /\
  effects (run_events env (data_events s bs)) st = map (SockWrite e) bs.
Proof.
  revert st. induction bs as [|b bs IH]; intros st Ha Hk; [done|].
  pose proof (data_frame_step st ent b Ha) as Hstep. rewrite Hk in Hstep.
  destruct Hstep as [Ha' He']. destruct (IH _ Ha' Hk) as [Ha2 He2].
  cbn [data_events map run_events]. rewrite state_bind, effects_bind, He'. simpl.
  split; [done|]. f_equal. exact He2.
Qed.

Lemma writes_cons ev evs st :
  sock_writes e (effects (run_events env (ev :: evs)) st) =
  sock_writes e (effects (run_event env ev) st) ++
  sock_writes e (effects (run_events env evs) (state (run_event env ev) st)).
Proof. cbn [run_events]. by rewrite effects_bind, sock_writes_app. Qed.

Lemma writes_app l1 l2 st :
  sock_writes e (effects (run_events env (l1 ++ l2)) st) =
  sock_writes e (effects (run_events env l1) st) ++
  sock_writes e (effects (run_events env l2) (state (run_events env l1) st)).
Proof. by rewrite run_events_app_effects, sock_writes_app. Qed.

(** The three milestones of a forward stream: reserved, dialled, connected. *)
Lemma open_step st stack service port : sb_nextRef st = e ->
  totalStreamCount env st < MAX_STREAMS_PER_TUNNEL ->
  let ev := EvJson (F_tcp_open s stack service port) in
  at_entry (state (run_event env ev) st) s e (mkFwd s false false [] 0) /\
  sock_writes e (effects (run_event env ev) st) = [].
Proof.
  intros <- Hcap ev. subst ev. simpl. unfold onTcpOpen, at_entry.
  assert ((totalStreamCount env st >=? MAX_STREAMS_PER_TUNNEL) = false) as Hc
    by (rewrite Z.geb_leb; zlia).
  act_run. rewrite Hc. act_run. unfold refreshIdleTimer; act_run.
  by rewrite !lookup_insert_eq.
Qed.

Lemma dial_step st host port ent : at_entry st s e ent -> ft_sid ent = s ->
  let ev := EvResolved e (ResolveOk host port) in
  at_entry (state (run_event env ev) st) s e
    (mkFwd s true (ft_accepted ent) (ft_pendingData ent) (ft_pendingBytes ent)) /\
  sock_writes e (effects (run_event env ev) st) = [].
Proof.
  intros [Hs Hh] Hsid ev. subst ev. simpl. unfold onTcpOpen_resolved, still_reserved.
  act_run. rewrite Hh; simpl. act_run. rewrite Hsid, Hs, Z.eqb_refl. act_run.
  unfold at_entry; simpl. rewrite lookup_alter_eq, Hh, <- Hsid. simpl. by rewrite Hsid.
Qed.

Lemma connect_step st ent : at_entry st s e ent ->
  at_entry (state (run_event env (EvConnect e)) st) s e
    (mkFwd (ft_sid ent) (ft_socket ent) true [] 0) /\
  sock_writes e (effects (run_event env (EvConnect e)) st) = ft_pendingData ent.
Proof.
  intros [Hs Hh]. simpl. unfold onSocketConnect, set_accepted, trySend, refreshIdleTimer.
  act_run. rewrite Hh. act_run.
  unfold at_entry; simpl. rewrite !lookup_alter_eq, Hh. split; [done|].
  rewrite sock_writes_app, sock_writes_map. by destruct (bool_decide _); rewrite app_nil_r.
Qed.
End delivery.

(** the order in which a forward stream's payloads reach the local socket.
    Of the frames [bs1] that arrive while the target is being resolved, [bs2]
    that arrive between the dial and the 'connect' event, and [bs3] that arrive
    after it, the socket is given [bs2], then [bs1], then [bs3]. So the bytes
    arrive in the order they were sent exactly when the dial window is empty
    (or swapping the two groups makes no difference). *)
Theorem forward_delivery_order (env : SbEnv) (st : SB) (s : Z) (stack service : string)
    (port : Z) (host : string) (port' : Z) (bs1 bs2 bs3 : list Buffer) :
  s < AGENT_REVERSE_ID_BASE ->
  totalStreamCount env st < MAX_STREAMS_PER_TUNNEL ->
  sum_lengths bs1 <= STREAM_PENDING_DATA_MAX_BYTES ->
  let e := sb_nextRef st in
  sock_writes e (effects (run_events env
    (EvJson (F_tcp_open s stack service port) :: data_events s bs1 ++
     EvResolved e (ResolveOk host port') :: data_events s bs2 ++
     EvConnect e :: data_events s bs3)) st) = bs2 ++ bs1 ++ bs3.
Proof.
  intros Hlow Hcap Hb e.
  rewrite writes_cons.
  destruct (open_step env s e st stack service port eq_refl Hcap) as [Ha1 ->].
  rewrite app_nil_l.
  rewrite writes_app.
  destruct (data_before_socket env s e Hlow bs1 _ _ Ha1 eq_refl Hb) as [Ha2 ->].
  rewrite writes_cons. destruct (dial_step env s e _ host port' _ Ha2 eq_refl) as [Ha3 ->].
  rewrite writes_app.
  destruct (data_after_socket env s e Hlow bs2 _ _ Ha3 eq_refl) as [Ha4 ->].
  rewrite writes_cons. destruct (connect_step env s e _ _ Ha4) as [Ha5 ->].
  destruct (data_after_socket env s e Hlow bs3 _ _ Ha5 eq_refl) as [_ ->].
  by rewrite !sock_writes_map.
Qed.

Lemma forward_delivery_order_witness :
  sock_writes 1 (effects (run_events quiet_env
    [EvJson (F_tcp_open 7 "web" "api" 80); EvBinary (mkDecoded TcpData 7 [1]);
     EvResolved 1 (ResolveOk "10.0.0.2" 80); EvBinary (mkDecoded TcpData 7 [2]);
     EvConnect 1; EvBinary (mkDecoded TcpData 7 [3])]) newSwitchboard) = [[2]; [1]; [3]].
Proof.
  apply (forward_delivery_order quiet_env newSwitchboard 7 "web" "api" 80 "10.0.0.2" 80
    [[1]] [[2]] [[3]]); vm_compute; done.
Defined.

(** ** Expiry, draining, tear-down *)

(** When the idle timer of a live stream fires, the stream is gone for
    good: the id is free in both maps and has no timer, the local side is told
    (a created socket is destroyed; a reverse handle gets 'error' then 'close'
    and is closed), the peer is sent one [tcp_close], and no other stream is
    touched. *)
Theorem idle_expiry_releases_stream (env : SbEnv) (st : SB) (s : Z) :
  sb_reachable st ->
  env_sendThrows env = None ->
  is_Some (tcpStreams st !! s) \/ is_Some (reverseTcpStreams st !! s) ->
  let st' := state (onStreamIdle env s) st in
  let effs := effects (onStreamIdle env s) st in
  tcpStreams st' = delete s (tcpStreams st) /\
  reverseTcpStreams st' = delete s (reverseTcpStreams st) /\
  idleTimers st' = delete s (idleTimers st) /\
  match tcpStreams st !! s with
  | Some e => exists ent, sb_heap st !! e = Some ent /\
      effs = (if ft_socket ent then [SockDestroy e] else []) ++ [WsJson (F_tcp_close s)]
  | None => exists h, reverseTcpStreams st !! s = Some h /\ handle_closed st' h = true /\
      effs = [HandleError h "mesh idle timeout"; HandleClose h; WsJson (F_tcp_close s)]
  end.
Proof.
  intros Hi%reachable_inv Hsend Hlive st' effs. subst st' effs.
  unfold onStreamIdle, _dispatchError, _dispatchClose, trySend.
  rewrite bool_decide_true by done. act_run.
  destruct (tcpStreams st !! s) as [e|] eqn:Hs.
  - destruct (inv_fwd _ Hi _ _ Hs) as (Hlow & ent & He & _). act_run. rewrite He. act_run.
    split_and!; try done; [|exists ent; split; [done|]; by destruct (ft_socket ent)].
    symmetry. apply delete_id. destruct (reverseTcpStreams st !! s) eqn:Hr; [|done].
    apply (inv_rev _ Hi) in Hr. lia.
  - destruct Hlive as [[]|[h Hh]]; [done|]. rewrite Hh.
    destruct (inv_rev _ Hi _ _ Hh) as [_ Hc]. act_run. unfold handle_closed, set_closed.
    act_run. rewrite Hc. act_run. split_and!; try done.
    + by rewrite delete_id.
    + exists h. by rewrite lookup_alter_eq, Hc.
Qed.

Lemma idle_expiry_releases_stream_witness :
  let st := state (run_event quiet_env (EvJson (F_tcp_open 7 "web" "api" 80))) newSwitchboard in
  tcpStreams (state (onStreamIdle quiet_env 7) st) = delete 7 (tcpStreams st).
Proof.
  refine (proj1 (idle_expiry_releases_stream quiet_env
    (state (run_event quiet_env (EvJson (F_tcp_open 7 "web" "api" 80))) newSwitchboard) 7 _ _ _)).
  - apply rtc_once. constructor; [simpl; lia|]. simpl. unfold AGENT_REVERSE_ID_BASE. lia.
  - reflexivity.
  - left. vm_compute. eexists. reflexivity.
Defined.

Lemma effects_for_each_drain (l : list Ref) st :
  effects (for_each _dispatchDrain l) st =
  map HandleDrain (filter (fun h => handle_closed st h = false) l).
Proof.
  induction l as [|h l IH]; [done|]. cbn [for_each]. rewrite effects_bind.
  rewrite state_dispatchDrain, IH. unfold _dispatchDrain at 1. act_run.
  rewrite filter_cons. by destruct (handle_closed st h).
Qed.

(** A tick of the drain timer never strands anyone. While the open tunnel
    is still saturated it changes nothing; once it has drained, or the tunnel
    is no longer open, every paused socket is resumed, every waiting handle
    that is still open gets its 'drain', both sets are emptied and the timer
    stops. *)
Theorem drain_tick_resumes (env : SbEnv) (st : SB) :
  if env_open env && isSaturated env
  then checkDrain env st = (tt, st, [])
  else
    let st' := state (checkDrain env) st in
    pausedSockets st' = ∅ /\ handlesAwaitingDrain st' = ∅ /\ drainTimer st' = false /\
    tcpStreams st' = tcpStreams st /\ reverseTcpStreams st' = reverseTcpStreams st /\
    (forall e, e ∈ pausedSockets st -> SockResume e ∈ effects (checkDrain env) st) /\
    (forall h, HandleDrain h ∈ effects (checkDrain env) st <->
       h ∈ handlesAwaitingDrain st /\ handle_closed st h = false).
Proof.
  assert (Hrun : forall m, m = checkDrain env -> m = (resumeAll;; stopDrainTimer) ->
    let st' := state m st in
    pausedSockets st' = ∅ /\ handlesAwaitingDrain st' = ∅ /\ drainTimer st' = false /\
    tcpStreams st' = tcpStreams st /\ reverseTcpStreams st' = reverseTcpStreams st /\
    (forall e, e ∈ pausedSockets st -> SockResume e ∈ effects m st) /\
    (forall h, HandleDrain h ∈ effects m st <->
       h ∈ handlesAwaitingDrain st /\ handle_closed st h = false)).
  { intros m _ -> st'. subst st'. rewrite state_bind, effects_bind, state_stopDrainTimer,
      state_resumeAll. simpl. split_and!; try done.
    all: rewrite effects_stopDrainTimer, app_nil_r; unfold resumeAll; act_run;
      rewrite effects_for_each_drain; intros x; rewrite elem_of_app, !list_elem_of_fmap.
    - intros Hx. left. exists x. by rewrite elem_of_elements.
    - setoid_rewrite list_elem_of_filter. setoid_rewrite elem_of_elements.
      unfold handle_closed; simpl. split.
      + intros [(e & ? & _)|(h & ? & ? & ?)]; [done|]. by simplify_eq.
      + intros [? ?]. right. by exists x. }
  unfold checkDrain in *. destruct (env_open env) eqn:Ho; simpl; [|by apply Hrun].
  destruct (isSaturated env) eqn:Hs; simpl; [done|by apply Hrun].
Qed.

Lemma elem_of_for_each_when {A} (c : A -> bool) (f : A -> SbEffect) l (st : SB) y :
  y ∈ l -> c y = true -> f y ∈ effects (for_each (fun y => when (c y) (tell (f y))) l) st.
Proof.
  intros Hy Hc. induction Hy as [y l|y z l _ IH]; cbn [for_each];
    rewrite effects_bind, state_when_tell, effects_when, elem_of_app.
  - left. rewrite Hc, effects_tell. left.
  - right. by apply IH.
Qed.

(** One round of the closing loop, on a handle that is open or not. *)
Lemma close_round r h st :
  effects (_dispatchError h r;; _dispatchClose h) st =
    HandleError h r :: (if handle_closed st h then [] else [HandleClose h]) /\
  (forall k, handle_closed (state (_dispatchError h r;; _dispatchClose h) st) k =
    if decide (k = h) then true else handle_closed st k).
Proof.
  unfold _dispatchError, _dispatchClose. act_run.
  destruct (handle_closed st h) eqn:Hc; act_run; (split; [done|]); intros k.
  - case_decide; by subst.
  - unfold handle_closed in *; simpl. rewrite lookup_alter.
    repeat case_decide; simplify_eq; try done.
    by destruct (sb_handles st !! _).
Qed.

Lemma close_loop_closed r l h st : handle_closed st h = true ->
  handle_closed (state (for_each (fun h => _dispatchError h r;; _dispatchClose h) l) st) h = true.
Proof.
  intros Hc. apply (for_each_ind _ (fun st => handle_closed st h = true)); [done|].
  intros x st' _ Hc'. rewrite (proj2 (close_round r x st')). by case_decide.
Qed.

Lemma close_loop r l h st : h ∈ l -> handle_closed st h = false ->
  let m := for_each (fun h => _dispatchError h r;; _dispatchClose h) l in
  HandleError h r ∈ effects m st /\ HandleClose h ∈ effects m st /\
  handle_closed (state m st) h = true.
Proof.
  intros Hl Hc m. subst m. revert st Hc.
  induction l as [|x l IH]; intros st Hc; [by apply not_elem_of_nil in Hl|].
  cbn [for_each]. rewrite !(effects_bind (_dispatchError x r;; _dispatchClose x)),
    (state_bind (_dispatchError x r;; _dispatchClose x)).
  destruct (close_round r x st) as [-> Hst].
  destruct (decide (x = h)) as [->|Hne].
  - rewrite Hc. split_and!.
    + left.
    + right. left.
    + apply close_loop_closed. rewrite Hst. by case_decide.
  - apply elem_of_cons in Hl as [->|Hl]; [done|].
    destruct (IH Hl (state (_dispatchError x r;; _dispatchClose x) st)) as (H1 & H2 & H3).
    + rewrite Hst. by case_decide.
    + rewrite !elem_of_app. auto.
Qed.

(** [cleanup] forgets everything: no streams, timers, paused sockets or
    waiting handles are left, the drain timer is off, the reverse allocator
    starts over at the base of the agent half, every forward stream whose
    socket exists has it destroyed, and every reverse stream's handle is closed
    after an 'error' and a 'close'. *)
Theorem cleanup_releases_everything (st : SB) (reason : string) :
  sb_reachable st ->
  let st' := state (cleanup reason) st in
  let effs := effects (cleanup reason) st in
  tcpStreams st' = ∅ /\ reverseTcpStreams st' = ∅ /\ idleTimers st' = ∅ /\
  pausedSockets st' = ∅ /\ handlesAwaitingDrain st' = ∅ /\ drainTimer st' = false /\
  reverseStreamIds st' = newStreamIdAllocator AGENT_REVERSE_ID_BASE /\
  (forall s e ent, tcpStreams st !! s = Some e -> sb_heap st !! e = Some ent ->
     ft_socket ent = true -> SockDestroy e ∈ effs) /\
  (forall s h, reverseTcpStreams st !! s = Some h ->
     HandleError h reason ∈ effs /\ HandleClose h ∈ effs /\ handle_closed st' h = true).
Proof.
  intros Hi%reachable_inv st' effs. subst st' effs. unfold cleanup. act_run.
  split_and!; try done.
  - by rewrite (proj1 (proj2 (proj2 (cleanup_loop _ _ _)))).
  - intros s e ent Hs He Hk. apply elem_of_app. left. apply (elem_of_for_each_when _ SockDestroy). 2: by rewrite He.
    apply (list_elem_of_fmap_2 snd _ (s, e)).
    by apply elem_of_map_to_list.
  - intros s h Hs. destruct (inv_rev _ Hi _ _ Hs) as [_ Hh].
    destruct (close_loop reason (map snd (map_to_list (reverseTcpStreams st))) h
      (with_tcpStreams (fun _ => ∅) st)) as (He & Hc & Hd).
    + apply (list_elem_of_fmap_2 snd _ (s, h)). by apply elem_of_map_to_list.
    + unfold handle_closed; simpl. by rewrite Hh.
    + rewrite !elem_of_app. split_and!; [auto..|exact Hd].
Qed.

Lemma cleanup_releases_everything_witness :
  let st := state (run_event quiet_env (EvOpenReverse 3 "web" "api" 80)) newSwitchboard in
  reverseTcpStreams (state (cleanup "bye") st) = ∅ /\
  HandleClose 1 ∈ effects (cleanup "bye") st.
Proof.
  destruct (cleanup_releases_everything
    (state (run_event quiet_env (EvOpenReverse 3 "web" "api" 80)) newSwitchboard) "bye")
    as (_ & H1 & _ & _ & _ & _ & _ & _ & H2).
  - apply rtc_once. constructor; [simpl; lia|exact I].
  - split; [exact H1|].
    apply (H2 AGENT_REVERSE_ID_BASE 1). vm_compute. reflexivity.
Defined.

(** A handle closed locally while its last write reported backpressure
    stays in the awaiting-drain set: [end] removes the stream but emits no
    'close', so the subscription that empties the set never runs for it. *)
Theorem local_end_lingers_in_drain_set :
  exists st h, sb_reachable st /\ handle_closed st h = true /\ h ∈ handlesAwaitingDrain st.
Proof.
  set (full := mkEnv 0 true None (TUNNEL_SEND_BUFFER_HIGH_WATER_MARK + 1) 0).
  exists (state (run_events full [EvOpenReverse 3 "web" "api" 80; EvHandleWrite 1 [0];
    EvHandleEnd 1]) newSwitchboard), 1.
  split; [|split; vm_compute; [reflexivity|set_solver]].
  cbn [run_events]. rewrite !state_bind, state_skip.
  do 3 (eapply rtc_r; [|constructor; simpl; [lia|done]]). apply rtc_refl.
Qed.
