(* ===== verification/Bridge.v ===== *)
(** * The pilot tunnel bridge (backend/src/services/PilotTunnelBridge.ts)

    The primary end of a tunnel: loopback HTTP requests and upgrades, forward
    TCP streams and the agent's reverse streams, multiplexed over one
    WebSocket.

    A [StreamState] object is shared by reference between the stream map and
    the closures that captured it, so objects live in [br_heap] and [br_streams]
    maps an id to a reference. The request, response, socket or handle of a
    stream is named by the reference of its [StreamState]; the stream a relay
    writes to is named by a number its environment chooses. The idle timer of
    an object is kept with the stream id its callback captured and its
    deadline; a timer fires for the id, whichever object holds it by then. The
    [await]s of the reverse-open path split it into handlers, and the maps
    [br_dispatch], [br_resolving] and [br_bridging] hold the continuations that
    are pending, by the reservation of their open, the last two with the object
    they captured. *)

From S2P Require Import Prelude Interfaces Protocol Switchboard.

(** ** Header filtering *)

Definition FORWARDING_HEADER_NAMES : list string :=
  ["x-forwarded-for"; "x-forwarded-proto"; "x-forwarded-host"; "x-real-ip"].

Definition FORWARDING_HEADER_SET : list string := FORWARDING_HEADER_NAMES ++ ["forwarded"].

(** A value of [IncomingMessage.headers]: a string, a list, or absent. *)
Inductive HeaderValue := HStr (v : string) | HList (vs : list string) | HNone.

(** [vs.join(', ')] *)
Definition join_comma (vs : list string) : string := String.concat ", " vs.

Definition tunnelFrameHeaders (headers : list (string * HeaderValue)) : Headers :=
  omap (fun '(k, v) =>
    if bool_decide (k ∈ FORWARDING_HEADER_SET) then None
    else match v with
         | HStr s => Some (k, s)
         | HList vs => Some (k, join_comma vs)
         | HNone => None
         end) headers.

(** ** Stream states *)

Inductive StreamState :=
  | SHttp (headersWritten : bool)
  | SWs (rawSocket clientWs : bool)
  | STcp (bytesIn bytesOut openedAt : Z) (accepted : bool)
  | SReverseLocal (socket : bool) (bytesIn bytesOut : Z) (pendingData : list Buffer)
      (pendingBytes : Z)
  | SReverseRelay (target : Z) (targetOpen : bool) (pendingData : list Buffer)
      (pendingBytes : Z) (bytesIn bytesOut : Z).

(** The [tcp_open_reverse] a pending continuation is about. *)
Record ReverseOpen := mkReverseOpen {
  ro_s : Z; ro_node : Z; ro_stack : string; ro_service : string; ro_port : Z;
}.

(** What a handler reads: the clock, the tunnel WebSocket (open, throwing on
    send, bytes buffered), and whether a WebSocket upgrade completes. *)
Record BrEnv := mkBrEnv {
  be_now : Z;
  be_open : bool;
  be_sendThrows : bool;
  be_buffered : Z;
  be_upgradeOk : bool;
}.

Inductive TcpEvent := TOpen | TData (b : Buffer) | TDrain | TError (msg : string) | TClose.

Inductive BrEffect :=
  | TunnelJson (f : JsonFrame)
  | TunnelBinary (t : BinaryFrameType) (s : Z) (payload : Buffer)
  | TunnelWsClose (code : Z) (reason : string)
  | ServersClose
  | EmitClosed
  | StopHeartbeat
  | RejectRequest (status : Z) (body : string)
  | RejectUpgrade (head : string)
  | ResWriteHead (r : Ref) (status : Z) (headers : Headers)
  | ResWrite (r : Ref) (b : Buffer)
  | ResEnd (r : Ref) (body : option string)
  | ReqPause (r : Ref)
  | ReqResume (r : Ref)
  | RawWrite (r : Ref) (head : string)
  | RawDestroy (r : Ref)
  | ClientSendText (r : Ref) (data : string)
  | ClientSendBinary (r : Ref) (b : Buffer)
  | ClientClose (r : Ref) (code : Z) (reason : option string)
  | TcpEmit (r : Ref) (ev : TcpEvent)
  | LocalResolve (r : Ref) (stack service : string)
  | LocalConnect (r : Ref) (host : string) (port : Z)
  | LocalWrite (r : Ref) (b : Buffer)
  | LocalDestroy (r : Ref)
  | LocalPause (r : Ref)
  | LocalResume (r : Ref)
  | RelayEnsureBridge (r : Ref) (node : Z)
  | TargetWrite (target : Z) (b : Buffer)
  | TargetDestroy (target : Z)
  | MeshLog (level type : string) (reason : option string)
  | MetricDecodeError.

Record Bridge := mkBridge {
  br_heap : gmap Ref StreamState;
  br_nextRef : Ref;
  br_timers : gmap Ref (Z * Z);            (* object -> (captured stream id, deadline) *)
  br_streamIds : StreamIdAllocator;
  br_streams : gmap Z Ref;
  br_pausedReqs : gmap Z Ref;
  br_tcpAwaitingDrain : gset Z;
  br_pausedTcpSockets : gset Ref;
  br_connected : gset Ref;            (* sockets whose 'connect' handler ran *)
  br_drainTimer : bool;
  br_heartbeat : bool;
  br_closed : bool;
  br_dispatch : gmap Ref ReverseOpen;             (* reservations whose dispatch is pending *)
  br_resolving : gmap Ref (ReverseOpen * Ref);    (* local dials awaiting their address *)
  br_bridging : gmap Ref (ReverseOpen * Ref);     (* relays awaiting their target bridge *)
}.

(** Field updates. *)
Definition upd_br_heap f st := mkBridge (f (br_heap st)) (br_nextRef st) (br_timers st)
  (br_streamIds st) (br_streams st) (br_pausedReqs st) (br_tcpAwaitingDrain st)
  (br_pausedTcpSockets st) (br_connected st) (br_drainTimer st) (br_heartbeat st) (br_closed st)
  (br_dispatch st) (br_resolving st) (br_bridging st).
Definition upd_br_nextRef f st := mkBridge (br_heap st) (f (br_nextRef st)) (br_timers st)
  (br_streamIds st) (br_streams st) (br_pausedReqs st) (br_tcpAwaitingDrain st)
  (br_pausedTcpSockets st) (br_connected st) (br_drainTimer st) (br_heartbeat st) (br_closed st)
  (br_dispatch st) (br_resolving st) (br_bridging st).
Definition upd_br_timers f st := mkBridge (br_heap st) (br_nextRef st) (f (br_timers st))
  (br_streamIds st) (br_streams st) (br_pausedReqs st) (br_tcpAwaitingDrain st)
  (br_pausedTcpSockets st) (br_connected st) (br_drainTimer st) (br_heartbeat st) (br_closed st)
  (br_dispatch st) (br_resolving st) (br_bridging st).
Definition upd_br_streamIds f st := mkBridge (br_heap st) (br_nextRef st) (br_timers st)
  (f (br_streamIds st)) (br_streams st) (br_pausedReqs st) (br_tcpAwaitingDrain st)
  (br_pausedTcpSockets st) (br_connected st) (br_drainTimer st) (br_heartbeat st) (br_closed st)
  (br_dispatch st) (br_resolving st) (br_bridging st).
Definition upd_br_streams f st := mkBridge (br_heap st) (br_nextRef st) (br_timers st)
  (br_streamIds st) (f (br_streams st)) (br_pausedReqs st) (br_tcpAwaitingDrain st)
  (br_pausedTcpSockets st) (br_connected st) (br_drainTimer st) (br_heartbeat st) (br_closed st)
  (br_dispatch st) (br_resolving st) (br_bridging st).
Definition upd_br_pausedReqs f st := mkBridge (br_heap st) (br_nextRef st) (br_timers st)
  (br_streamIds st) (br_streams st) (f (br_pausedReqs st)) (br_tcpAwaitingDrain st)
  (br_pausedTcpSockets st) (br_connected st) (br_drainTimer st) (br_heartbeat st) (br_closed st)
  (br_dispatch st) (br_resolving st) (br_bridging st).
Definition upd_br_tcpAwaitingDrain f st := mkBridge (br_heap st) (br_nextRef st) (br_timers st)
  (br_streamIds st) (br_streams st) (br_pausedReqs st) (f (br_tcpAwaitingDrain st))
  (br_pausedTcpSockets st) (br_connected st) (br_drainTimer st) (br_heartbeat st) (br_closed st)
  (br_dispatch st) (br_resolving st) (br_bridging st).
Definition upd_br_pausedTcpSockets f st := mkBridge (br_heap st) (br_nextRef st) (br_timers st)
  (br_streamIds st) (br_streams st) (br_pausedReqs st) (br_tcpAwaitingDrain st)
  (f (br_pausedTcpSockets st)) (br_connected st) (br_drainTimer st) (br_heartbeat st)
  (br_closed st) (br_dispatch st) (br_resolving st) (br_bridging st).
Definition upd_br_connected f st := mkBridge (br_heap st) (br_nextRef st) (br_timers st)
  (br_streamIds st) (br_streams st) (br_pausedReqs st) (br_tcpAwaitingDrain st)
  (br_pausedTcpSockets st) (f (br_connected st)) (br_drainTimer st) (br_heartbeat st)
  (br_closed st) (br_dispatch st) (br_resolving st) (br_bridging st).
Definition upd_br_drainTimer f st := mkBridge (br_heap st) (br_nextRef st) (br_timers st)
  (br_streamIds st) (br_streams st) (br_pausedReqs st) (br_tcpAwaitingDrain st)
  (br_pausedTcpSockets st) (br_connected st) (f (br_drainTimer st)) (br_heartbeat st)
  (br_closed st) (br_dispatch st) (br_resolving st) (br_bridging st).
Definition upd_br_heartbeat f st := mkBridge (br_heap st) (br_nextRef st) (br_timers st)
  (br_streamIds st) (br_streams st) (br_pausedReqs st) (br_tcpAwaitingDrain st)
  (br_pausedTcpSockets st) (br_connected st) (br_drainTimer st) (f (br_heartbeat st))
  (br_closed st) (br_dispatch st) (br_resolving st) (br_bridging st).
Definition upd_br_closed f st := mkBridge (br_heap st) (br_nextRef st) (br_timers st)
  (br_streamIds st) (br_streams st) (br_pausedReqs st) (br_tcpAwaitingDrain st)
  (br_pausedTcpSockets st) (br_connected st) (br_drainTimer st) (br_heartbeat st)
  (f (br_closed st)) (br_dispatch st) (br_resolving st) (br_bridging st).
Definition upd_br_dispatch f st := mkBridge (br_heap st) (br_nextRef st) (br_timers st)
  (br_streamIds st) (br_streams st) (br_pausedReqs st) (br_tcpAwaitingDrain st)
  (br_pausedTcpSockets st) (br_connected st) (br_drainTimer st) (br_heartbeat st) (br_closed st)
  (f (br_dispatch st)) (br_resolving st) (br_bridging st).
Definition upd_br_resolving f st := mkBridge (br_heap st) (br_nextRef st) (br_timers st)
  (br_streamIds st) (br_streams st) (br_pausedReqs st) (br_tcpAwaitingDrain st)
  (br_pausedTcpSockets st) (br_connected st) (br_drainTimer st) (br_heartbeat st) (br_closed st)
  (br_dispatch st) (f (br_resolving st)) (br_bridging st).
Definition upd_br_bridging f st := mkBridge (br_heap st) (br_nextRef st) (br_timers st)
  (br_streamIds st) (br_streams st) (br_pausedReqs st) (br_tcpAwaitingDrain st)
  (br_pausedTcpSockets st) (br_connected st) (br_drainTimer st) (br_heartbeat st) (br_closed st)
  (br_dispatch st) (br_resolving st) (f (br_bridging st)).

Definition newBridge : Bridge :=
  mkBridge ∅ 1 ∅ (newStreamIdAllocator 1) ∅ ∅ ∅ ∅ ∅ false false false ∅ ∅ ∅.

Abbreviation BM := (act Bridge BrEffect).

(** The object a stream id maps to, with its reference. *)
Definition stream_at (st : Bridge) (s : Z) : option (Ref * StreamState) :=
  r ← br_streams st !! s; o ← br_heap st !! r; Some (r, o).

Definition set_obj (r : Ref) (o : StreamState) : BM unit := modify (upd_br_heap (<[r := o]>)).

Definition isOpen (env : BrEnv) (st : Bridge) : bool := negb (br_closed st) && be_open env.

Definition overHighWater (env : BrEnv) : bool :=
  be_buffered env >? TUNNEL_SEND_BUFFER_HIGH_WATER_MARK.

(** ** Helpers *)

Definition sendJson (env : BrEnv) (f : JsonFrame) : BM unit :=
  when (be_open env && negb (be_sendThrows env)) (tell (TunnelJson f)).

Definition sendBinary (env : BrEnv) (t : BinaryFrameType) (s : Z) (payload : Buffer) : BM unit :=
  when (be_open env && negb (be_sendThrows env)) (tell (TunnelBinary t s payload)).

Definition refreshIdleTimer (env : BrEnv) (streamId : Z) (r : Ref) : BM unit :=
  modify (upd_br_timers (<[r := (streamId, be_now env + STREAM_IDLE_TIMEOUT_MS)]>)).

Definition clearIdleTimer (r : Ref) : BM unit := modify (upd_br_timers (delete r)).

Definition removeStream (streamId : Z) : BM unit :=
  st ← get;
  match br_streams st !! streamId with
  | None => skip
  | Some r =>
      clearIdleTimer r;;
      modify (upd_br_streams (delete streamId));;
      modify (upd_br_pausedReqs (delete streamId));;
      modify (upd_br_tcpAwaitingDrain (fun w => w ∖ {[streamId]}))
  end.

Definition ensureDrainTimer : BM unit :=
  st ← get;
  if br_drainTimer st || br_closed st then skip
  else modify (upd_br_drainTimer (fun _ => true)).

Definition stopDrainTimer : BM unit :=
  st ← get;
  if br_drainTimer st then modify (upd_br_drainTimer (fun _ => false)) else skip.

Definition pauseRequest (streamId : Z) (req : Ref) : BM unit :=
  st ← get;
  match br_pausedReqs st !! streamId with
  | Some _ => skip
  | None =>
      tell (ReqPause req);;
      modify (upd_br_pausedReqs (<[streamId := req]>));;
      ensureDrainTimer
  end.

(** 'drain' goes to an accepted forward TCP stream only. *)
Definition emitDrain (st : Bridge) (streamId : Z) : BM unit :=
  match stream_at st streamId with
  | Some (r, STcp _ _ _ true) => tell (TcpEmit r TDrain)
  | _ => skip
  end.

Definition checkDrain (env : BrEnv) : BM unit :=
  st ← get;
  if br_closed st then stopDrainTimer
  else if overHighWater env then skip
  else
    for_each (fun req => tell (ReqResume req)) (map snd (map_to_list (br_pausedReqs st)));;
    modify (upd_br_pausedReqs (fun _ => ∅));;
    for_each (fun sock => tell (LocalResume sock)) (elements (br_pausedTcpSockets st));;
    modify (upd_br_pausedTcpSockets (fun _ => ∅));;
    for_each (emitDrain st) (elements (br_tcpAwaitingDrain st));;
    modify (upd_br_tcpAwaitingDrain (fun _ => ∅));;
    stopDrainTimer.

Definition teardownStream (r : Ref) (o : StreamState) : BM unit :=
  match o with
  | SHttp headersWritten =>
      if negb headersWritten then
        tell (ResWriteHead r 502 [("content-type", "text/plain")]);;
        tell (ResEnd r (Some "pilot tunnel closed"))
      else tell (ResEnd r None)
  | SWs rawSocket clientWs =>
      if clientWs then tell (ClientClose r 1011 (Some "tunnel closed"))
      else when rawSocket (tell (RawDestroy r))
  | STcp _ _ _ accepted =>
      when (negb accepted) (tell (TcpEmit r (TError "tunnel closed before accept")));;
      tell (TcpEmit r TClose)
  | SReverseLocal socket _ _ _ _ => when socket (tell (LocalDestroy r))
  | SReverseRelay target _ _ _ _ _ => tell (TargetDestroy target)
  end.

Definition onStreamIdle (env : BrEnv) (streamId : Z) : BM unit :=
  st ← get;
  match stream_at st streamId with
  | None => skip
  | Some (r, o) =>
      teardownStream r o;;
      modify (upd_br_streams (delete streamId));;
      modify (upd_br_pausedReqs (delete streamId));;
      modify (upd_br_tcpAwaitingDrain (fun w => w ∖ {[streamId]}));;
      match o with
      | STcp _ _ _ _ => sendJson env (F_tcp_close streamId)
      | SWs _ _ => sendJson env (F_ws_close streamId 1001 (Some "idle"))
      | _ => sendJson env (F_http_err streamId http_timeout "stream idle timeout")
      end
  end.

(** ** Lifecycle *)

(** [start], once the loopback server listens. *)
Definition start : BM unit :=
  st ← get; if br_closed st then skip else modify (upd_br_heartbeat (fun _ => true)).

Definition close (code : Z) (reason : string) : BM unit :=
  st ← get;
  if br_closed st then skip
  else
    modify (upd_br_closed (fun _ => true));;
    (if br_heartbeat st
     then tell StopHeartbeat;; modify (upd_br_heartbeat (fun _ => false)) else skip);;
    stopDrainTimer;;
    for_each (fun req => tell (ReqResume req)) (map snd (map_to_list (br_pausedReqs st)));;
    modify (upd_br_pausedReqs (fun _ => ∅));;
    for_each (fun sock => tell (LocalResume sock)) (elements (br_pausedTcpSockets st));;
    modify (upd_br_pausedTcpSockets (fun _ => ∅));;
    modify (upd_br_tcpAwaitingDrain (fun _ => ∅));;
    for_each (fun r =>
      clearIdleTimer r;;
      match br_heap st !! r with Some o => teardownStream r o | None => skip end)
      (map snd (map_to_list (br_streams st)));;
    modify (upd_br_streams (fun _ => ∅));;
    tell (TunnelWsClose code reason);;
    tell ServersClose;;
    tell EmitClosed.

Definition onTunnelClose : BM unit :=
  st ← get; if br_closed st then skip else close 1006 "tunnel closed".

(** ** Loopback ingress *)

(** Allocate an id for a new stream object, store it and arm its timer. *)
Definition add_stream (env : BrEnv) (o : StreamState) : BM (Z * Ref) :=
  st ← get;
  let '(streamId, ids) := allocate (br_streamIds st) in
  let r := br_nextRef st in
  modify (upd_br_streamIds (fun _ => ids));;
  modify (upd_br_nextRef (Z.add 1));;
  set_obj r o;;
  modify (upd_br_streams (<[streamId := r]>));;
  refreshIdleTimer env streamId r;;
  mret (streamId, r).

Definition handleLoopbackRequest (env : BrEnv) (method path : string)
    (headers : list (string * HeaderValue)) : BM unit :=
  st ← get;
  if br_closed st || negb (be_open env) then tell (RejectRequest 502 "pilot tunnel not ready")
  else if msize (br_streams st) >=? MAX_STREAMS_PER_TUNNEL then
    tell (RejectRequest 503 "pilot tunnel: stream cap reached")
  else
    sr ← add_stream env (SHttp false);
    sendJson env (F_http_req (fst sr)
      (if bool_decide (method = "") then "GET" else method)
      (if bool_decide (path = "") then "/" else path) (tunnelFrameHeaders headers)).

(** [req.on('data')], for the request captured with its stream id. *)
Definition onReqData (env : BrEnv) (streamId : Z) (req : Ref) (chunk : Buffer) : BM unit :=
  st ← get;
  match br_streams st !! streamId with
  | None => skip
  | Some r =>
      sendBinary env HttpReqBody streamId chunk;;
      refreshIdleTimer env streamId r;;
      (if overHighWater env then pauseRequest streamId req else skip)
  end.

Definition onReqEnd (env : BrEnv) (streamId : Z) : BM unit :=
  st ← get;
  match br_streams st !! streamId with
  | None => skip
  | Some _ => sendJson env (F_http_req_end streamId)
  end.

(** [req.on('error')] and the raw socket's [on('error')]: same handler. *)
Definition onIngressError (streamId : Z) : BM unit :=
  st ← get;
  (match stream_at st streamId with
   | Some (r, o) => teardownStream r o
   | None => skip
   end);;
  removeStream streamId.

Definition notifyHttpClientAbort (env : BrEnv) (streamId : Z) : BM unit :=
  sendJson env (F_http_cancel streamId);;
  sendJson env (F_http_err streamId tunnel_down "client aborted").

(** [req.on('aborted')] and [res.on('close')]: same handler. *)
Definition onHttpClientGone (env : BrEnv) (streamId : Z) : BM unit :=
  st ← get;
  match br_streams st !! streamId with
  | None => skip
  | Some _ => notifyHttpClientAbort env streamId;; removeStream streamId
  end.

Definition handleLoopbackUpgrade (env : BrEnv) (path : string)
    (headers : list (string * HeaderValue)) : BM unit :=
  st ← get;
  if br_closed st || negb (be_open env) then tell (RejectUpgrade "HTTP/1.1 502 Bad Gateway")
  else if msize (br_streams st) >=? MAX_STREAMS_PER_TUNNEL then
    tell (RejectUpgrade "HTTP/1.1 503 Service Unavailable")
  else
    sr ← add_stream env (SWs true false);
    sendJson env (F_ws_open (fst sr) (if bool_decide (path = "") then "/" else path)
      (tunnelFrameHeaders headers)).

(** The raw socket's [on('close')]. *)
Definition onRawClose (env : BrEnv) (streamId : Z) : BM unit :=
  st ← get;
  match br_streams st !! streamId with
  | None => skip
  | Some _ =>
      sendJson env (F_ws_close streamId 1006 (Some "client closed"));; removeStream streamId
  end.

(** The upgraded client's handlers, installed by 'ws_accept'. *)
Definition onClientMessage (env : BrEnv) (s : Z) (msg : Buffer + string) : BM unit :=
  st ← get;
  (match br_streams st !! s with Some r => refreshIdleTimer env s r | None => skip end);;
  match msg with
  | inl b => sendBinary env WsMessageBinary s b
  | inr text => sendJson env (F_ws_msg_text s text)
  end.

Definition onClientClose (env : BrEnv) (s : Z) (code : Z) (reason : option string) : BM unit :=
  st ← get;
  match br_streams st !! s with
  | None => skip
  | Some _ => sendJson env (F_ws_close s code reason);; removeStream s
  end.

Definition onClientError (s : Z) : BM unit :=
  st ← get; match br_streams st !! s with None => skip | Some _ => removeStream s end.

(** ** Forward TCP streams *)

Definition openTcpStream (env : BrEnv) (stack service : string) (port : Z) : BM (option Ref) :=
  st ← get;
  if negb (isOpen env st) then mret None
  else if msize (br_streams st) >=? MAX_STREAMS_PER_TUNNEL then mret None
  else
    sr ← add_stream env (STcp 0 0 (be_now env) false);
    sendJson env (F_tcp_open (fst sr) stack service port);;
    mret (Some (snd sr)).

Definition _writeTcpData (env : BrEnv) (streamId : Z) (payload : Buffer) : BM bool :=
  st ← get;
  match stream_at st streamId with
  | Some (r, STcp bytesIn bytesOut openedAt accepted) =>
      if negb (isOpen env st) then mret false
      else
        sendBinary env TcpData streamId payload;;
        set_obj r (STcp bytesIn (bytesOut + blen payload) openedAt accepted);;
        refreshIdleTimer env streamId r;;
        if negb (overHighWater env) then mret true
        else
          modify (upd_br_tcpAwaitingDrain (fun w => {[streamId]} ∪ w));;
          ensureDrainTimer;;
          mret false
  | _ => mret false
  end.

Definition _closeTcpStream (env : BrEnv) (streamId : Z) : BM unit :=
  st ← get;
  match br_streams st !! streamId with
  | None => skip
  | Some _ => removeStream streamId;; sendJson env (F_tcp_close streamId)
  end.

(** ** Reverse streams *)

Definition handleTcpOpenReverse (env : BrEnv) (s targetNodeId : Z) (stack service : string)
    (port : Z) : BM unit :=
  st ← get;
  if s <? AGENT_REVERSE_ID_BASE then sendJson env (F_tcp_open_ack s false (Some agent_error))
  else if bool_decide (is_Some (br_streams st !! s))
          || (msize (br_streams st) >=? MAX_STREAMS_PER_TUNNEL) then
    sendJson env (F_tcp_open_ack s false (Some agent_error))
  else
    let r := br_nextRef st in
    modify (upd_br_nextRef (Z.add 1));;
    set_obj r (SReverseLocal false 0 0 [] 0);;
    modify (upd_br_streams (<[s := r]>));;
    refreshIdleTimer env s r;;
    modify (upd_br_dispatch (<[r := mkReverseOpen s targetNodeId stack service port]>)).

(** [this.streams.get(s) === object] *)
Definition holds (st : Bridge) (s : Z) (r : Ref) : bool :=
  bool_decide (br_streams st !! s = Some r).

(** The dispatch of the reverse open, up to the next [await] of
    [acceptReverseLocal] or [acceptReverseRelay]; [r] is the reservation. *)
Definition dispatchReverse (localNodeId : Z) (r : Ref) : BM unit :=
  st ← get;
  match br_dispatch st !! r with
  | None => skip
  | Some ro =>
      modify (upd_br_dispatch (delete r));;
      match stream_at st (ro_s ro) with
      | Some (q, SReverseLocal _ _ _ _ _) =>
          if ro_node ro =? localNodeId then
            tell (LocalResolve q (ro_stack ro) (ro_service ro));;
            modify (upd_br_resolving (<[r := (ro, q)]>))
          else
            tell (RelayEnsureBridge q (ro_node ro));;
            modify (upd_br_bridging (<[r := (ro, q)]>))
      | _ => skip
      end
  end.

(** The open a continuation of reservation [r] is pending for. *)
Definition pendingOpen (st : Bridge) (r : Ref) : option ReverseOpen :=
  match br_dispatch st !! r, br_resolving st !! r, br_bridging st !! r with
  | Some ro, _, _ | None, Some (ro, _), _ | None, None, Some (ro, _) => Some ro
  | None, None, None => None
  end.

(** The [catch] of the dispatch: it or an [await] it led to was rejected. *)
Definition dispatchFailed (env : BrEnv) (r : Ref) : BM unit :=
  st ← get;
  match pendingOpen st r with
  | None => skip
  | Some ro =>
      modify (upd_br_dispatch (delete r));;
      modify (upd_br_resolving (delete r));;
      modify (upd_br_bridging (delete r));;
      (if holds st (ro_s ro) r then removeStream (ro_s ro) else skip);;
      sendJson env (F_tcp_open_ack (ro_s ro) false (Some agent_error))
  end.

(** [acceptReverseLocal] after its [await]s, for the dispatch of [r]; [q] is
    the state it captured. *)
Definition acceptReverseLocal (env : BrEnv) (r : Ref) (ip : option string) : BM unit :=
  st ← get;
  match br_resolving st !! r with
  | None => skip
  | Some (ro, q) =>
      modify (upd_br_resolving (delete r));;
      match ip with
      | None =>
          (if holds st (ro_s ro) q then removeStream (ro_s ro) else skip);;
          tell (MeshLog "error" "route.resolve.fail" (Some "container_not_found"));;
          sendJson env (F_tcp_open_ack (ro_s ro) false (Some no_target))
      | Some host =>
          if negb (holds st (ro_s ro) q) then skip
          else
            tell (LocalConnect q host (ro_port ro));;
            match br_heap st !! q with
            | Some (SReverseLocal _ bytesIn bytesOut pendingData pendingBytes) =>
                set_obj q (SReverseLocal true bytesIn bytesOut pendingData pendingBytes)
            | _ => skip
            end
      end
  end.

(** The [teardown] closure of [acceptReverseLocal]. *)
Definition localTeardown (env : BrEnv) (s : Z) (q : Ref) (sendClose : bool) : BM unit :=
  st ← get;
  match br_streams st !! s with
  | None => skip
  | Some _ =>
      removeStream s;;
      tell (LocalDestroy q);;
      when sendClose (sendJson env (F_tcp_close s))
  end.

(** [socket.on('error')] of a local reverse dial. *)
Definition onLocalError (env : BrEnv) (s : Z) (q : Ref) : BM unit :=
  st ← get;
  if negb (bool_decide (q ∈ br_connected st)) then
    match br_streams st !! s with
    | None => skip
    | Some _ =>
        modify (upd_br_streams (delete s));;
        tell (MeshLog "error" "route.resolve.fail" (Some "connect_error"));;
        sendJson env (F_tcp_open_ack s false (Some unreachable))
    end
  else localTeardown env s q true.

(** [socket.once('connect')] of a local reverse dial. *)
Definition onLocalConnect (env : BrEnv) (s : Z) (q : Ref) : BM unit :=
  st ← get;
  match br_heap st !! q with
  | Some (SReverseLocal socket bytesIn bytesOut pendingData _) =>
      modify (upd_br_connected (fun c => {[q]} ∪ c));;
      tell (MeshLog "info" "route.resolve.ok" None);;
      for_each (fun buf => tell (LocalWrite q buf)) pendingData;;
      set_obj q (SReverseLocal socket bytesIn bytesOut [] 0);;
      sendJson env (F_tcp_open_ack s true None)
  | _ => skip
  end.

(** [socket.on('data')] of a connected local reverse dial. *)
Definition onLocalData (env : BrEnv) (s : Z) (q : Ref) (chunk : Buffer) : BM unit :=
  st ← get;
  match stream_at st s with
  | Some (cur, SReverseLocal socket bytesIn bytesOut pendingData pendingBytes) =>
      sendBinary env TcpData s chunk;;
      set_obj cur (SReverseLocal socket bytesIn (bytesOut + blen chunk) pendingData pendingBytes);;
      refreshIdleTimer env s cur;;
      (if overHighWater env
       then tell (LocalPause q);;
            modify (upd_br_pausedTcpSockets (fun p => {[q]} ∪ p));;
            ensureDrainTimer
       else skip)
  | _ => skip
  end.

(** [socket.on('close')] of a connected local reverse dial. *)
Definition onLocalClose (env : BrEnv) (s : Z) (q : Ref) : BM unit :=
  modify (upd_br_pausedTcpSockets (fun p => p ∖ {[q]}));;
  localTeardown env s q true.

(** What [ensureBridge] and then [openTcpStream] on the target bridge gave. *)
Inductive RelayOutcome :=
  | NoBridge
  | BridgeOpened (target : option Z).

(** [acceptReverseRelay] after its [await]s, for the dispatch of [r0]; [q] is
    the reservation it captured. *)
Definition acceptReverseRelay (env : BrEnv) (r0 : Ref) (out : RelayOutcome) : BM unit :=
  st ← get;
  match br_bridging st !! r0 with
  | None => skip
  | Some (ro, q) =>
      let s := ro_s ro in
      modify (upd_br_bridging (delete r0));;
      match out with
      | NoBridge =>
          (if holds st s q then removeStream s else skip);;
          sendJson env (F_tcp_open_ack s false (Some unreachable))
      | BridgeOpened target =>
          if negb (holds st s q) then skip
          else match target with
          | None =>
              removeStream s;; sendJson env (F_tcp_open_ack s false (Some unreachable))
          | Some t =>
              match br_heap st !! q with
              | Some (SReverseLocal _ bytesIn _ pendingData pendingBytes) =>
                  let r := br_nextRef st in
                  modify (upd_br_nextRef (Z.add 1));;
                  set_obj r (SReverseRelay t false pendingData pendingBytes bytesIn 0);;
                  modify (upd_br_streams (<[s := r]>));;
                  refreshIdleTimer env s r
              | _ => skip
              end
          end
      end
  end.

(** The relay's subscriptions on its target stream. *)
Definition onTargetOpen (env : BrEnv) (s : Z) : BM unit :=
  st ← get;
  match stream_at st s with
  | Some (r, SReverseRelay target _ pendingData pendingBytes bytesIn bytesOut) =>
      for_each (fun buf => tell (TargetWrite target buf)) pendingData;;
      set_obj r (SReverseRelay target true [] 0 bytesIn bytesOut);;
      sendJson env (F_tcp_open_ack s true None)
  | _ => skip
  end.

Definition onTargetData (env : BrEnv) (s : Z) (chunk : Buffer) : BM unit :=
  st ← get;
  match stream_at st s with
  | Some (r, SReverseRelay target targetOpen pendingData pendingBytes bytesIn bytesOut) =>
      sendBinary env TcpData s chunk;;
      set_obj r (SReverseRelay target targetOpen pendingData pendingBytes bytesIn
        (bytesOut + blen chunk));;
      refreshIdleTimer env s r
  | _ => skip
  end.

Definition onTargetError (env : BrEnv) (s : Z) : BM unit :=
  st ← get;
  match br_streams st !! s with
  | None => skip
  | Some _ =>
      modify (upd_br_streams (delete s));;
      sendJson env (F_tcp_open_ack s false (Some unreachable))
  end.

Definition onTargetClose (env : BrEnv) (s : Z) : BM unit :=
  st ← get;
  match br_streams st !! s with
  | None => skip
  | Some _ => removeStream s;; sendJson env (F_tcp_close s)
  end.

(** ** Tunnel ingress *)

Definition HttpErrCode_str (c : HttpErrCode) : string :=
  match c with
  | http_timeout => "timeout"
  | tunnel_down => "tunnel_down"
  | bad_response => "bad_response"
  | http_agent_error => "agent_error"
  end.

Definition handleJsonFrame (env : BrEnv) (frame : JsonFrame) : BM unit :=
  st ← get;
  match frame with
  | F_http_res s status headers =>
      match stream_at st s with
      | Some (r, SHttp headersWritten) =>
          (if negb headersWritten
           then tell (ResWriteHead r status headers);; set_obj r (SHttp true) else skip);;
          refreshIdleTimer env s r
      | _ => skip
      end
  | F_http_res_end s =>
      match stream_at st s with
      | Some (r, SHttp _) => tell (ResEnd r None);; removeStream s
      | _ => skip
      end
  | F_http_err s code message =>
      match stream_at st s with
      | None => skip
      | Some (r, o) =>
          (match o with
           | SHttp false =>
               tell (ResWriteHead r 502 [("content-type", "text/plain")]);;
               tell (ResEnd r (Some ("pilot tunnel error: " +:+ HttpErrCode_str code +:+ " "
                 +:+ message)))
           | _ => teardownStream r o
           end);;
          removeStream s
      end
  | F_ws_accept s _ =>
      match stream_at st s with
      | Some (r, SWs true _) =>
          if be_upgradeOk env
          then set_obj r (SWs false true);; refreshIdleTimer env s r
          else skip
      | _ => skip
      end
  | F_ws_reject s status message =>
      match stream_at st s with
      | Some (r, SWs true _) =>
          tell (RawWrite r ("HTTP/1.1 " +:+ pretty status +:+ " " +:+ message));;
          tell (RawDestroy r);;
          removeStream s
      | _ => skip
      end
  | F_ws_msg_text s data =>
      match stream_at st s with
      | Some (r, SWs _ true) => tell (ClientSendText r data);; refreshIdleTimer env s r
      | _ => skip
      end
  | F_ws_close s code reason =>
      match stream_at st s with
      | Some (r, SWs rawSocket clientWs) =>
          (if clientWs then tell (ClientClose r code reason)
           else when rawSocket (tell (RawDestroy r)));;
          removeStream s
      | _ => skip
      end
  | F_tcp_open_ack s ok err =>
      match stream_at st s with
      | Some (r, STcp bytesIn bytesOut openedAt _) =>
          if ok then
            set_obj r (STcp bytesIn bytesOut openedAt true);;
            refreshIdleTimer env s r;;
            tell (TcpEmit r TOpen)
          else
            removeStream s;;
            tell (TcpEmit r (TError (from_option MeshErrCode_str "tcp_open rejected" err)));;
            tell (TcpEmit r TClose)
      | _ => skip
      end
  | F_tcp_open_reverse s targetNodeId stack service port =>
      handleTcpOpenReverse env s targetNodeId stack service port
  | F_tcp_close s =>
      match stream_at st s with
      | Some (r, STcp _ _ _ _) => removeStream s;; tell (TcpEmit r TClose)
      | Some (r, SReverseLocal socket _ _ _ _) =>
          removeStream s;; when socket (tell (LocalDestroy r))
      | Some (r, SReverseRelay target _ _ _ _ _) =>
          removeStream s;; tell (TargetDestroy target)
      | _ => skip
      end
  | _ => skip
  end.

(** Over the pending cap a reverse stream is dropped and the peer told. *)
Definition overPending (pendingBytes : Z) (payload : Buffer) : bool :=
  pendingBytes + blen payload >? STREAM_PENDING_DATA_MAX_BYTES.

Definition handleBinaryFrame (env : BrEnv) (frame : DecodedBinaryFrame) : BM unit :=
  st ← get;
  let s := df_streamId frame in
  let payload := df_payload frame in
  match stream_at st s with
  | None => skip
  | Some (r, o) =>
      match df_type frame, o with
      | HttpResBody, SHttp headersWritten =>
          (if negb headersWritten
           then tell (ResWriteHead r 200 []);; set_obj r (SHttp true) else skip);;
          tell (ResWrite r payload);;
          refreshIdleTimer env s r
      | WsMessageBinary, SWs _ true =>
          tell (ClientSendBinary r payload);; refreshIdleTimer env s r
      | TcpData, STcp bytesIn bytesOut openedAt accepted =>
          set_obj r (STcp (bytesIn + blen payload) bytesOut openedAt accepted);;
          refreshIdleTimer env s r;;
          tell (TcpEmit r (TData payload))
      | TcpData, SReverseLocal socket bytesIn bytesOut pendingData pendingBytes =>
          set_obj r (SReverseLocal socket (bytesIn + blen payload) bytesOut pendingData
            pendingBytes);;
          refreshIdleTimer env s r;;
          if socket then tell (LocalWrite r payload)
          else if overPending pendingBytes payload then
            removeStream s;; sendJson env (F_tcp_close s)
          else
            set_obj r (SReverseLocal socket (bytesIn + blen payload) bytesOut
              (pendingData ++ [payload]) (pendingBytes + blen payload))
      | TcpData, SReverseRelay target targetOpen pendingData pendingBytes bytesIn bytesOut =>
          set_obj r (SReverseRelay target targetOpen pendingData pendingBytes
            (bytesIn + blen payload) bytesOut);;
          refreshIdleTimer env s r;;
          if targetOpen then tell (TargetWrite target payload)
          else if overPending pendingBytes payload then
            removeStream s;; sendJson env (F_tcp_close s)
          else
            set_obj r (SReverseRelay target targetOpen (pendingData ++ [payload])
              (pendingBytes + blen payload) (bytesIn + blen payload) bytesOut)
      | _, _ => skip
      end
  end.

(** A message of the tunnel WebSocket: binary data, or text with what
    [decodeJsonFrame] made of it ([None]: the payload is not text; left: it
    threw). *)
Inductive TunnelMessage :=
  | MBinary (data : WsData)
  | MText (decoded : option (string + JsonFrame)).

Definition handleTunnelMessage (env : BrEnv) (msg : TunnelMessage) : BM unit :=
  st ← get;
  if br_closed st then skip
  else match msg with
  | MBinary data =>
      match wsDataToBuffer data with
      | None => skip
      | Some buf =>
          match decodeBinaryFrame buf with
          | inr frame => handleBinaryFrame env frame
          | inl _ => tell MetricDecodeError;; close 1002 "protocol error"
          end
      end
  | MText None => skip
  | MText (Some (inr frame)) => handleJsonFrame env frame
  | MText (Some (inl _)) => tell MetricDecodeError;; close 1002 "protocol error"
  end.

(** ** Events and runs *)

Inductive BrEvent :=
  | BMessage (msg : TunnelMessage)
  | BTunnelClose
  | BClose (code : Z) (reason : string)
  | BStart
  | BRequest (method path : string) (headers : list (string * HeaderValue))
  | BUpgrade (path : string) (headers : list (string * HeaderValue))
  | BReqData (s : Z) (req : Ref) (chunk : Buffer)
  | BReqEnd (s : Z)
  | BIngressError (s : Z)
  | BHttpGone (s : Z)
  | BRawClose (s : Z)
  | BClientMessage (s : Z) (msg : Buffer + string)
  | BClientClose (s code : Z) (reason : option string)
  | BClientError (s : Z)
  | BOpenTcp (stack service : string) (port : Z)
  | BWriteTcp (s : Z) (payload : Buffer)
  | BCloseTcp (s : Z)
  | BDispatch (localNodeId : Z) (r : Ref)
  | BDispatchFailed (r : Ref)
  | BResolved (q : Ref) (ip : option string)
  | BLocalConnect (s : Z) (q : Ref)
  | BLocalError (s : Z) (q : Ref)
  | BLocalData (s : Z) (q : Ref) (chunk : Buffer)
  | BLocalClose (s : Z) (q : Ref)
  | BRelay (q : Ref) (out : RelayOutcome)
  | BTargetOpen (s : Z)
  | BTargetData (s : Z) (chunk : Buffer)
  | BTargetError (s : Z)
  | BTargetClose (s : Z)
  | BIdle (r : Ref)
  | BDrainTick.

(** The timer of object [r] fires: it is spent, and the callback runs for the
    stream id it captured. *)
Definition fireIdleTimer (env : BrEnv) (r : Ref) : BM unit :=
  st ← get;
  match br_timers st !! r with
  | None => skip
  | Some (s, _) => modify (upd_br_timers (delete r));; onStreamIdle env s
  end.

Definition run_event (env : BrEnv) (ev : BrEvent) : BM unit :=
  match ev with
  | BMessage msg => handleTunnelMessage env msg
  | BTunnelClose => onTunnelClose
  | BClose code reason => close code reason
  | BStart => start
  | BRequest method path headers => handleLoopbackRequest env method path headers
  | BUpgrade path headers => handleLoopbackUpgrade env path headers
  | BReqData s req chunk => onReqData env s req chunk
  | BReqEnd s => onReqEnd env s
  | BIngressError s => onIngressError s
  | BHttpGone s => onHttpClientGone env s
  | BRawClose s => onRawClose env s
  | BClientMessage s msg => onClientMessage env s msg
  | BClientClose s code reason => onClientClose env s code reason
  | BClientError s => onClientError s
  | BOpenTcp stack service port => openTcpStream env stack service port;; skip
  | BWriteTcp s payload => _writeTcpData env s payload;; skip
  | BCloseTcp s => _closeTcpStream env s
  | BDispatch localNodeId r => dispatchReverse localNodeId r
  | BDispatchFailed r => dispatchFailed env r
  | BResolved q ip => acceptReverseLocal env q ip
  | BLocalConnect s q => onLocalConnect env s q
  | BLocalError s q => onLocalError env s q
  | BLocalData s q chunk => onLocalData env s q chunk
  | BLocalClose s q => onLocalClose env s q
  | BRelay q out => acceptReverseRelay env q out
  | BTargetOpen s => onTargetOpen env s
  | BTargetData s chunk => onTargetData env s chunk
  | BTargetError s => onTargetError env s
  | BTargetClose s => onTargetClose env s
  | BIdle r => fireIdleTimer env r
  | BDrainTick => checkDrain env
  end.

(** Timers fire when due, at their time. *)
Definition enabled (env : BrEnv) (st : Bridge) (ev : BrEvent) : Prop :=
  match ev with
  | BIdle r => exists s d, br_timers st !! r = Some (s, d) /\ d <= be_now env
  | BDrainTick => br_drainTimer st = true
  | _ => True
  end.

Inductive br_step : Bridge -> Bridge -> Prop :=
  | br_step_intro env ev st : enabled env st ev -> br_step st (state (run_event env ev) st).

Definition br_reachable (st : Bridge) : Prop := rtc br_step newBridge st.

(** ** Invariant *)

(** The buffered bytes of an object, as counted and as held. *)
Definition pending_ok (o : StreamState) : Prop :=
  match o with
  | SReverseLocal _ _ _ data n | SReverseRelay _ _ data n _ _ =>
      n = sum_lengths data /\ n <= STREAM_PENDING_DATA_MAX_BYTES
  | _ => True
  end.

Record BrInv (st : Bridge) : Prop := {
  bi_obj : forall s r, br_streams st !! s = Some r -> is_Some (br_heap st !! r);
  bi_timer : forall s r, br_streams st !! s = Some r ->
    exists d, br_timers st !! r = Some (s, d);
  bi_pend : forall r o, br_heap st !! r = Some o -> pending_ok o;
  bi_cap : msize (br_streams st) <= MAX_STREAMS_PER_TUNNEL;
  bi_closed : br_closed st = true -> br_streams st = ∅ /\ br_drainTimer st = false;
  bi_drain : br_drainTimer st = false ->
    br_pausedReqs st = ∅ /\ br_tcpAwaitingDrain st = ∅ /\ br_pausedTcpSockets st = ∅;
  bi_fresh : forall r, br_nextRef st <= r -> br_heap st !! r = None;
}.

Ltac br_fields := constructor; simpl; intros; map_cases.

Lemma newBridge_inv : BrInv newBridge.
Proof. br_fields; done. Qed.

Lemma stream_at_Some st s r o : stream_at st s = Some (r, o) <->
  br_streams st !! s = Some r /\ br_heap st !! r = Some o.
Proof.
  unfold stream_at. destruct (br_streams st !! s) as [r'|]; simpl; [|naive_solver].
  destruct (br_heap st !! r') eqn:E; simpl; naive_solver.
Qed.

Section bridge_preservation.
Context (env : BrEnv).

Lemma state_sendJson f st : state (sendJson env f) st = st.
Proof. unfold sendJson. by act_run. Qed.
Lemma state_sendBinary t s b st : state (sendBinary env t s b) st = st.
Proof. unfold sendBinary. by act_run. Qed.
Lemma state_when_sendJson b f st : state (when b (sendJson env f)) st = st.
Proof. destruct b; [apply state_sendJson|done]. Qed.
Lemma state_teardown r o st : state (teardownStream r o) st = st.
Proof. destruct o; simpl; unfold when; by act_cases. Qed.

Hint Rewrite state_sendJson state_sendBinary state_when_sendJson state_teardown : act.

(** Touching only timers and effects around an object of the map. *)
Lemma binv_refresh s r st : br_streams st !! s = Some r -> BrInv st ->
  BrInv (state (refreshIdleTimer env s r) st).
Proof.
  intros Hs [? Ht ? ? ? ? ?]. unfold refreshIdleTimer. act_run. br_fields; eauto.
  destruct (Ht _ _ H) as [d Hd], (Ht _ _ Hs) as [d' Hd']. naive_solver.
Qed.

Lemma binv_set_obj r o st : is_Some (br_heap st !! r) -> pending_ok o -> BrInv st ->
  BrInv (state (set_obj r o) st).
Proof.
  intros [o' Hr] Ho [Hh ? ? ? ? ? Hf]. unfold set_obj. act_run. br_fields; eauto; try done.
  apply Hf in H. congruence.
Qed.

Lemma binv_drop s r st : br_streams st !! s = Some r -> BrInv st ->
  BrInv (upd_br_streams (delete s) (upd_br_timers (delete r) st)).
Proof.
  intros Hs [Ho Ht Hp Hc Hcl Hd Hf]. br_fields; eauto.
  - destruct (Ht _ _ H) as [d Hd1], (Ht _ _ Hs) as [d' Hd2]. naive_solver.
  - pose proof (msize_delete_le (br_streams st) s). lia.
  - destruct (Hcl H) as [He ?]. by rewrite He in Hs.
Qed.

(** A stream may leave the map without its timer being cleared. *)
Lemma binv_forget s st : BrInv st -> BrInv (upd_br_streams (delete s) st).
Proof.
  intros [Ho Ht Hp Hc Hcl Hd Hf]. br_fields; eauto.
  - pose proof (msize_delete_le (br_streams st) s). lia.
  - destruct (Hcl H) as [-> ?]. by rewrite delete_empty.
Qed.

Lemma binv_shrink f g h st : BrInv st ->
  f ∅ = ∅ -> g ∅ = ∅ -> h ∅ = ∅ ->
  BrInv (upd_br_pausedReqs f (upd_br_tcpAwaitingDrain g (upd_br_pausedTcpSockets h st))).
Proof.
  intros [Ho Ht Hp Hc Hcl Hd Hf] Hf0 Hg0 Hh0. br_fields; eauto.
  destruct (Hd H) as (-> & -> & ->). done.
Qed.

Lemma binv_removeStream s st : BrInv st -> BrInv (state (removeStream s) st).
Proof.
  intros Hi. unfold removeStream, clearIdleTimer. act_cases; [|done].
  pose proof (binv_drop _ _ _ Heqo Hi) as Hn.
  apply (binv_shrink (delete s) (fun w => w ∖ {[s]}) (fun p => p)) in Hn;
    [exact Hn|apply delete_empty|apply empty_difference|done].
Qed.

Lemma state_ensureDrain st : state ensureDrainTimer st =
  if br_closed st then st else upd_br_drainTimer (fun _ => true) st.
Proof.
  unfold ensureDrainTimer. act_run. destruct (br_drainTimer st) eqn:E, (br_closed st) eqn:E2;
    act_run; try done. by destruct st; simplify_eq/=.
Qed.

Lemma state_stopDrain st : state stopDrainTimer st = upd_br_drainTimer (fun _ => false) st.
Proof. unfold stopDrainTimer. act_cases; [done|]. by destruct st; simplify_eq/=. Qed.

Hint Rewrite state_ensureDrain state_stopDrain : act.

(** A live stream means an open bridge. *)
Lemma live_open s r st : br_streams st !! s = Some r -> BrInv st -> br_closed st = false.
Proof.
  intros Hs Hi. destruct (br_closed st) eqn:E; [|done].
  destruct (bi_closed _ Hi E) as [He _]. by rewrite He in Hs.
Qed.

(** Adding a waiter, then making sure the drain timer runs. *)
Lemma binv_wait f g h st : br_closed st = false -> BrInv st ->
  BrInv (upd_br_drainTimer (fun _ => true)
    (upd_br_pausedReqs f (upd_br_tcpAwaitingDrain g (upd_br_pausedTcpSockets h st)))).
Proof. intros Hcl []. br_fields; eauto; congruence. Qed.

Lemma binv_pauseRequest s req st : br_closed st = false -> BrInv st ->
  BrInv (state (pauseRequest s req) st).
Proof.
  intros Hc Hi. unfold pauseRequest. act_cases; [done|]. rewrite Hc.
  apply (binv_wait (<[s := req]>) (fun w => w) (fun p => p) _ Hc) in Hi. by destruct st.
Qed.

Lemma binv_add_stream o st : br_closed st = false -> pending_ok o ->
  (msize (br_streams st) >=? MAX_STREAMS_PER_TUNNEL) = false -> BrInv st ->
  BrInv (state (add_stream env o) st).
Proof.
  intros Hc Ho Hcap Hi. unfold add_stream, set_obj, refreshIdleTimer. act_run.
  destruct Hi as [Hh Ht Hp Hm Hcl Hd Hf].
  pose proof (Hf (br_nextRef st) ltac:(lia)) as Hfresh.
  br_fields; eauto; try done.
  - destruct (Hh _ _ H). congruence.
  - match goal with |- msize (<[?k := ?v]> _) <= _ =>
      pose proof (msize_insert_le (br_streams st) k v) end.
    unfold MAX_STREAMS_PER_TUNNEL in *. zlia.
  - congruence.
  - lia.
  - apply Hf. lia.
Qed.

(** The single-step lemmas, for the final case analysis. *)
Lemma binv_reserve s o ro st : br_closed st = false -> pending_ok o ->
  (msize (br_streams st) >=? MAX_STREAMS_PER_TUNNEL) = false -> BrInv st ->
  BrInv (upd_br_dispatch (<[br_nextRef st := ro]>)
    (state (refreshIdleTimer env s (br_nextRef st))
      (upd_br_streams (<[s := br_nextRef st]>)
        (state (set_obj (br_nextRef st) o) (upd_br_nextRef (Z.add 1) st))))).
Proof.
  intros Hc Ho Hcap [Hh Ht Hp Hm Hcl Hd Hf].
  pose proof (Hf (br_nextRef st) ltac:(lia)) as Hfresh.
  unfold set_obj, refreshIdleTimer. act_run. br_fields; eauto; try done.
  - destruct (Hh _ _ H). congruence.
  - pose proof (msize_insert_le (br_streams st) s (br_nextRef st)).
    unfold MAX_STREAMS_PER_TUNNEL in *. zlia.
  - congruence.
  - lia.
  - apply Hf. lia.
Qed.

Lemma binv_swap s q o st : br_streams st !! s = Some q -> pending_ok o -> BrInv st ->
  BrInv (state (refreshIdleTimer env s (br_nextRef st))
      (upd_br_streams (<[s := br_nextRef st]>)
        (state (set_obj (br_nextRef st) o) (upd_br_nextRef (Z.add 1) st)))).
Proof.
  intros Hs Ho Hi. pose proof (live_open _ _ _ Hs Hi) as Hc.
  destruct Hi as [Hh Ht Hp Hm Hcl Hd Hf].
  pose proof (Hf (br_nextRef st) ltac:(lia)) as Hfresh.
  unfold set_obj, refreshIdleTimer. act_run. br_fields; eauto; try done.
  - destruct (Hh _ _ H). congruence.
  - by rewrite msize_insert_old.
  - congruence.
  - lia.
  - apply Hf. lia.
Qed.

(** Fields no invariant mentions. *)
Lemma binv_dispatch f st : BrInv st -> BrInv (upd_br_dispatch f st).
Proof. intros []. br_fields; eauto. Qed.
Lemma binv_resolving f st : BrInv st -> BrInv (upd_br_resolving f st).
Proof. intros []. br_fields; eauto. Qed.
Lemma binv_bridging f st : BrInv st -> BrInv (upd_br_bridging f st).
Proof. intros []. br_fields; eauto. Qed.
Lemma binv_connected f st : BrInv st -> BrInv (upd_br_connected f st).
Proof. intros []. br_fields; eauto. Qed.
Lemma binv_heartbeat f st : BrInv st -> BrInv (upd_br_heartbeat f st).
Proof. intros []. br_fields; eauto. Qed.

Lemma binv_removeStream_other s st st' : BrInv st' ->
  br_streams st' = br_streams st -> BrInv (state (removeStream s) st').
Proof. intros. by apply binv_removeStream. Qed.

(** Updating the object of a live stream and refreshing its timer. *)
Lemma binv_touch s r o st : br_streams st !! s = Some r -> pending_ok o -> BrInv st ->
  BrInv (state (refreshIdleTimer env s r) (state (set_obj r o) st)).
Proof.
  intros Hs Ho Hi. apply binv_refresh; [by unfold set_obj; act_run|].
  apply binv_set_obj; [|done..]. by eapply bi_obj.
Qed.

Ltac live := repeat match goal with
  | H : stream_at _ _ = Some (_, _) |- _ => apply stream_at_Some in H as [? ?]
  end.

Ltac binv := repeat first
  [ assumption
  | apply binv_removeStream | apply binv_dispatch | apply binv_resolving
  | apply binv_bridging | apply binv_connected | apply binv_heartbeat
  | apply binv_forget
  | apply binv_touch; [assumption|simpl; try done|]
  | apply binv_refresh; [assumption|]
  | apply binv_set_obj; [by eauto|simpl; try done|] ].

Lemma state_emitDrains st0 l st : state (for_each (emitDrain st0) l) st = st.
Proof.
  apply (for_each_ind _ (fun x => x = st)); [done|].
  intros x st' _ ->. unfold emitDrain. repeat case_match; done.
Qed.

Lemma binv_checkDrain st : BrInv st -> BrInv (state (checkDrain env) st).
Proof.
  intros Hi. unfold checkDrain. act_run. destruct (br_closed st) eqn:Hc; act_run.
  - destruct (bi_closed _ Hi Hc) as [_ Hd]. by destruct st; simplify_eq/=.
  - destruct (overHighWater env); act_run; [done|].
    rewrite state_emitDrains. destruct Hi. br_fields; eauto. congruence.
Qed.

Lemma binv_onStreamIdle s st : BrInv st -> BrInv (state (onStreamIdle env s) st).
Proof.
  intros Hi. unfold onStreamIdle. act_cases; try done; live.
  all: apply (binv_forget s) in Hi;
    apply (binv_shrink (delete s) (fun w => w ∖ {[s]}) (fun p => p)) in Hi;
    [exact Hi|apply delete_empty|apply empty_difference|done].
Qed.

(** Firing a timer spends it, then the stream of that id is dropped. *)
Lemma binv_spent r s d st : br_timers st !! r = Some (s, d) -> BrInv st ->
  BrInv (upd_br_streams (delete s) (upd_br_timers (delete r) st)).
Proof.
  intros Hr [Ho Ht Hp Hc Hcl Hd Hf]. br_fields; eauto.
  - destruct (Ht _ _ H) as [d' ?]. congruence.
  - pose proof (msize_delete_le (br_streams st) s). lia.
  - destruct (Hcl H) as [-> ?]. by rewrite delete_empty.
Qed.

Lemma binv_fire r st : BrInv st -> BrInv (state (fireIdleTimer env r) st).
Proof.
  intros Hi. unfold fireIdleTimer. act_run. destruct (br_timers st !! r) as [[s d]|] eqn:Hr;
    act_run; [|done].
  pose proof (binv_spent _ _ _ _ Hr Hi) as Hn. unfold onStreamIdle. act_run.
  destruct (stream_at (upd_br_timers (delete r) st) s) as [[q o]|] eqn:Hs; act_run.
  - apply (binv_shrink (delete s) (fun w => w ∖ {[s]}) (fun p => p)) in Hn;
      [|apply delete_empty|apply empty_difference|done].
    destruct o; act_run; exact Hn.
  - assert (Hnone : br_streams st !! s = None).
    { destruct (br_streams st !! s) as [q|] eqn:E; [|done].
      destruct (bi_obj _ Hi _ _ E) as [o Ho]. unfold stream_at in Hs. simpl in Hs.
      by rewrite E in Hs; simpl in Hs; rewrite Ho in Hs. }
    replace (upd_br_timers (delete r) st)
      with (upd_br_streams (delete s) (upd_br_timers (delete r) st)); [done|].
    unfold upd_br_streams; simpl. by rewrite (delete_id (br_streams st)).
Qed.

Lemma close_loop_state st0 l st : exists T,
  state (for_each (fun r => clearIdleTimer r;;
    match br_heap st0 !! r with Some o => teardownStream r o | None => skip end) l) st
  = upd_br_timers (fun _ => T) st.
Proof.
  apply (for_each_ind _ (fun x => exists T, x = upd_br_timers (fun _ => T) st)).
  - exists (br_timers st). by destruct st.
  - intros r st' _ [T ->]. exists (delete r T). unfold clearIdleTimer. act_cases; done.
Qed.

Lemma binv_close code reason st : BrInv st -> BrInv (state (close code reason) st).
Proof.
  intros Hi. unfold close. act_run. destruct (br_closed st) eqn:Hc; act_run; [done|].
  match goal with |- context [state (for_each _ ?l) ?s] =>
    destruct (close_loop_state st l s) as [T ->] end.
  destruct Hi. destruct (br_heartbeat st); act_run; br_fields; eauto.
  all: rewrite msize_empty; unfold MAX_STREAMS_PER_TUNNEL; lia.
Qed.

Lemma binv_onTunnelClose st : BrInv st -> BrInv (state onTunnelClose st).
Proof. intros Hi. unfold onTunnelClose. act_cases; [done|]. by apply binv_close. Qed.

Lemma binv_handleLoopbackRequest m p h st : BrInv st ->
  BrInv (state (handleLoopbackRequest env m p h) st).
Proof.
  intros Hi. unfold handleLoopbackRequest. act_cases; try done.
  apply orb_false_iff in Heqb as [? _]. by apply binv_add_stream.
Qed.

Lemma binv_handleLoopbackUpgrade p h st : BrInv st ->
  BrInv (state (handleLoopbackUpgrade env p h) st).
Proof.
  intros Hi. unfold handleLoopbackUpgrade. act_cases; try done.
  apply orb_false_iff in Heqb as [? _]. by apply binv_add_stream.
Qed.

Lemma binv_onReqData s req b st : BrInv st -> BrInv (state (onReqData env s req b) st).
Proof.
  intros Hi. unfold onReqData. act_cases; try done; binv.
  apply binv_pauseRequest; [|by apply binv_refresh]. exact (live_open _ _ _ Heqo Hi).
Qed.

Lemma binv_openTcpStream a b c st : BrInv st -> BrInv (state (openTcpStream env a b c) st).
Proof.
  intros Hi. unfold openTcpStream, isOpen. act_cases; try done.
  destruct (br_closed st) eqn:Hc; [done|]. by apply binv_add_stream.
Qed.

(** [binv_wait] with only the forward-TCP set growing. *)
Lemma binv_await_tcp s st : br_closed st = false -> BrInv st ->
  BrInv (upd_br_drainTimer (fun _ => true)
    (upd_br_tcpAwaitingDrain (fun w => {[s]} ∪ w) st)).
Proof. intros Hc Hi. by apply (binv_wait (fun x => x) (fun w => {[s]} ∪ w) (fun p => p)) in Hi. Qed.

Lemma binv_pause_socket q st : br_closed st = false -> BrInv st ->
  BrInv (upd_br_drainTimer (fun _ => true)
    (upd_br_pausedTcpSockets (fun p => {[q]} ∪ p) st)).
Proof. intros Hc Hi. by apply (binv_wait (fun x => x) (fun w => w) (fun p => {[q]} ∪ p)) in Hi. Qed.

Lemma closed_touch s r o st :
  br_closed (state (refreshIdleTimer env s r) (state (set_obj r o) st)) = br_closed st.
Proof. done. Qed.

Lemma binv_writeTcpData s b st : BrInv st -> BrInv (state (_writeTcpData env s b) st).
Proof.
  intros Hi. unfold _writeTcpData. act_cases; try done; live; [by apply binv_touch|].
  pose proof (live_open _ _ _ ltac:(eassumption) Hi) as Hc. rewrite Hc.
  apply binv_await_tcp; [done|]. by apply binv_touch.
Qed.

Lemma binv_handleTcpOpenReverse s n a b c st : br_closed st = false -> BrInv st ->
  BrInv (state (handleTcpOpenReverse env s n a b c) st).
Proof.
  intros Hc Hi. unfold handleTcpOpenReverse. act_cases; try done.
  apply orb_false_iff in Heqb1 as [_ ?]. by apply binv_reserve.
Qed.

Lemma binv_dispatchReverse l r st : BrInv st -> BrInv (state (dispatchReverse l r) st).
Proof. intros Hi. unfold dispatchReverse. act_cases; try done; binv. Qed.

Lemma binv_dispatchFailed r st : BrInv st -> BrInv (state (dispatchFailed env r) st).
Proof. intros Hi. unfold dispatchFailed. act_cases; try done; binv. Qed.

Lemma binv_acceptReverseLocal q ip st : BrInv st ->
  BrInv (state (acceptReverseLocal env q ip) st).
Proof.
  intros Hi. unfold acceptReverseLocal. act_cases; try done; binv.
  by apply (bi_pend _ Hi) in Heqo1.
Qed.

Lemma binv_localTeardown s q b st : BrInv st -> BrInv (state (localTeardown env s q b) st).
Proof. intros Hi. unfold localTeardown. act_cases; try done; binv. Qed.

Lemma binv_onLocalError s q st : BrInv st -> BrInv (state (onLocalError env s q) st).
Proof.
  intros Hi. unfold onLocalError. act_cases; try done; binv. by apply binv_localTeardown.
Qed.

Lemma binv_onLocalConnect s q st : BrInv st -> BrInv (state (onLocalConnect env s q) st).
Proof.
  intros Hi. unfold onLocalConnect. act_cases; try done; binv.
Qed.

Lemma binv_onLocalData s q b st : BrInv st -> BrInv (state (onLocalData env s q b) st).
Proof.
  intros Hi. unfold onLocalData. act_cases; try done; live;
    pose proof (live_open _ _ _ ltac:(eassumption) Hi) as Hc; rewrite ?Hc;
    pose proof (bi_pend _ Hi _ _ ltac:(eassumption)) as Hp; simpl in Hp.
  - apply binv_pause_socket; [done|]. by apply binv_touch.
  - by apply binv_touch.
Qed.

Lemma binv_onLocalClose s q st : BrInv st -> BrInv (state (onLocalClose env s q) st).
Proof.
  intros Hi. unfold onLocalClose. act_run. apply binv_localTeardown.
  apply (binv_shrink (fun x => x) (fun w => w) (fun p => p ∖ {[q]})) in Hi;
    [exact Hi|done|done|apply empty_difference].
Qed.

Lemma binv_acceptReverseRelay q out st : BrInv st ->
  BrInv (state (acceptReverseRelay env q out) st).
Proof.
  intros Hi. unfold acceptReverseRelay, holds. act_cases; try done; binv.
  apply negb_false_iff, bool_decide_eq_true in Heqb.
  apply (binv_swap (ro_s r) z _ (upd_br_bridging (delete q) st));
    [exact Heqb| |by apply binv_bridging].
  by match goal with H : br_heap _ !! _ = Some _ |- _ => apply (bi_pend _ Hi) in H end.
Qed.

Lemma binv_onTarget s b st : BrInv st ->
  BrInv (state (onTargetOpen env s) st) /\ BrInv (state (onTargetData env s b) st) /\
  BrInv (state (onTargetError env s) st) /\ BrInv (state (onTargetClose env s) st).
Proof.
  intros Hi. unfold onTargetOpen, onTargetData, onTargetError, onTargetClose.
  split_and!; act_cases; try done; live; binv.
  by match goal with H : br_heap _ !! _ = Some _ |- _ => apply (bi_pend _ Hi) in H end.
Qed.

Lemma binv_handleJsonFrame f st : br_closed st = false -> BrInv st ->
  BrInv (state (handleJsonFrame env f) st).
Proof.
  intros Hc Hi. unfold handleJsonFrame. act_run. destruct f; act_cases; try done; live; binv.
  by apply binv_handleTcpOpenReverse.
Qed.

(** Queueing one more payload on an object that stays within the cap. *)
Lemma binv_queue s r o o' st : br_streams st !! s = Some r ->
  pending_ok o -> pending_ok o' -> BrInv st ->
  BrInv (state (set_obj r o') (state (refreshIdleTimer env s r) (state (set_obj r o) st))).
Proof.
  intros Hs Ho Ho' Hi. apply binv_set_obj; [|done|by apply binv_touch].
  unfold refreshIdleTimer, set_obj. act_run. by rewrite lookup_insert_eq.
Qed.

Lemma pending_snoc n data (b : Buffer) :
  n = sum_lengths data /\ n <= STREAM_PENDING_DATA_MAX_BYTES ->
  overPending n b = false ->
  n + blen b = sum_lengths (data ++ [b]) /\ n + blen b <= STREAM_PENDING_DATA_MAX_BYTES.
Proof.
  unfold overPending. intros [-> ?] ?. rewrite sum_lengths_app. simpl. unfold blen in *. zlia.
Qed.

Lemma binv_handleBinaryFrame d st : BrInv st -> BrInv (state (handleBinaryFrame env d) st).
Proof.
  intros Hi. unfold handleBinaryFrame. act_cases; try done; live; binv;
    pose proof (bi_pend _ Hi _ _ ltac:(eassumption)) as Hp; try done;
    apply binv_queue; try done; by apply pending_snoc.
Qed.

Lemma binv_handleTunnelMessage msg st : BrInv st ->
  BrInv (state (handleTunnelMessage env msg) st).
Proof.
  intros Hi. unfold handleTunnelMessage. act_cases; try done;
    by (apply binv_close || apply binv_handleBinaryFrame || apply binv_handleJsonFrame).
Qed.

(** Handlers that only send and remove. *)
Lemma binv_simple s (m : Buffer + string) c r st : BrInv st ->
  BrInv (state (onReqEnd env s) st) /\ BrInv (state (onIngressError s) st) /\
  BrInv (state (onHttpClientGone env s) st) /\ BrInv (state (onRawClose env s) st) /\
  BrInv (state (onClientMessage env s m) st) /\ BrInv (state (onClientClose env s c r) st) /\
  BrInv (state (onClientError s) st) /\ BrInv (state (_closeTcpStream env s) st) /\
  BrInv (state start st).
Proof.
  intros Hi. unfold onReqEnd, onIngressError, onHttpClientGone, notifyHttpClientAbort,
    onRawClose, onClientMessage, onClientClose, onClientError, _closeTcpStream, start.
  split_and!; act_cases; try done; binv.
Qed.

Lemma binv_run_event ev st : BrInv st -> BrInv (state (run_event env ev) st).
Proof.
  intros Hi. destruct ev; simpl; act_run;
    eauto using binv_handleTunnelMessage, binv_onTunnelClose, binv_close,
      binv_handleLoopbackRequest, binv_handleLoopbackUpgrade, binv_onReqData,
      binv_openTcpStream, binv_writeTcpData, binv_dispatchReverse, binv_dispatchFailed,
      binv_acceptReverseLocal, binv_onLocalConnect, binv_onLocalError, binv_onLocalData,
      binv_onLocalClose, binv_acceptReverseRelay, binv_fire, binv_checkDrain.
  all: try by apply (binv_simple s (inl []) 0 None).
  all: try by apply (binv_onTarget s []).
  - by apply (binv_simple 0 (inl []) 0 None).
  - by apply (binv_simple s msg 0 None).
  - by apply (binv_simple s (inl []) code reason).
  - by apply (binv_onTarget s chunk).
Qed.
End bridge_preservation.

Lemma bridge_reachable_inv st : br_reachable st -> BrInv st.
Proof.
  intros Hr. apply (rtc_invariant br_step BrInv newBridge); [|apply newBridge_inv|done].
  intros s1 s2 [env ev s He] Hi. by apply binv_run_event.
Qed.

(** C11: in every state the bridge can reach, under any interleaving of
    loopback traffic, tunnel frames, reverse-open continuations, socket events
    and timers: at most [MAX_STREAMS_PER_TUNNEL] streams are open; every live
    stream has an idle timer pending for its own id; what a reverse stream has
    buffered is what is counted and within the cap; a closed bridge has no
    stream and no drain timer; and nobody waits for a drain unless the drain
    timer runs. *)
Theorem bridge_invariant (st : Bridge) :
  br_reachable st ->
  msize (br_streams st) <= MAX_STREAMS_PER_TUNNEL /\
  (forall s r, br_streams st !! s = Some r -> exists d, br_timers st !! r = Some (s, d)) /\
  (forall s r o, stream_at st s = Some (r, o) -> pending_ok o) /\
  (br_closed st = true -> br_streams st = ∅ /\ br_drainTimer st = false) /\
  (br_pausedReqs st <> ∅ \/ br_tcpAwaitingDrain st <> ∅ \/ br_pausedTcpSockets st <> ∅ ->
   br_drainTimer st = true).
Proof.
  intros Hi%bridge_reachable_inv. split_and!; try apply Hi.
  - intros s r o [_ Ho]%stream_at_Some. by eapply bi_pend.
  - intros Hne. destruct (br_drainTimer st) eqn:Hd; [done|].
    destruct (bi_drain _ Hi Hd) as (? & ? & ?). by destruct Hne as [|[|]].
Qed.

(** An open tunnel with an empty send buffer, at time [t]. *)
Definition quiet_at (t : Z) : BrEnv := mkBrEnv t true false 0 true.

Lemma bridge_invariant_witness :
  let st := state (run_event (quiet_at 0) (BRequest "GET" "/" [])) newBridge in
  msize (br_streams st) = 1 /\ msize (br_streams st) <= MAX_STREAMS_PER_TUNNEL.
Proof.
  split; [vm_compute; reflexivity|].
  refine (proj1 (bridge_invariant _ _)). apply rtc_once. constructor. exact I.
Defined.

(** ** Delivery of reverse-stream payloads *)

(** [TcpData] frames for stream [s] carrying [bs], in order. *)
Definition deliver (env : BrEnv) (s : Z) (bs : list Buffer) : BM unit :=
  for_each (fun b => handleBinaryFrame env (mkDecoded TcpData s b)) bs.

(** The payloads written to the local socket of [q], to relay target [t]. *)
Definition local_writes (q : Ref) (effs : list BrEffect) : list Buffer :=
  omap (fun x => match x with
                 | LocalWrite q' b => if decide (q' = q) then Some b else None
                 | _ => None end) effs.
Definition target_writes (t : Z) (effs : list BrEffect) : list Buffer :=
  omap (fun x => match x with
                 | TargetWrite t' b => if decide (t' = t) then Some b else None
                 | _ => None end) effs.

(** Bytes counted so far are left out: only the queue and phase matter. *)
Definition local_at (st : Bridge) (s : Z) (q : Ref) (socket : bool) (data : list Buffer) : Prop :=
  br_streams st !! s = Some q /\
  exists i o, br_heap st !! q = Some (SReverseLocal socket i o data (sum_lengths data)).
Definition relay_at (st : Bridge) (s : Z) (t : Z) (opened : bool) (data : list Buffer) : Prop :=
  exists r i o, br_streams st !! s = Some r /\
    br_heap st !! r = Some (SReverseRelay t opened data (sum_lengths data) i o).

Lemma local_writes_app q l1 l2 : local_writes q (l1 ++ l2) = local_writes q l1 ++ local_writes q l2.
Proof. apply omap_app. Qed.
Lemma target_writes_app t l1 l2 :
  target_writes t (l1 ++ l2) = target_writes t l1 ++ target_writes t l2.
Proof. apply omap_app. Qed.
Lemma local_writes_map q bs : local_writes q (map (LocalWrite q) bs) = bs.
Proof. induction bs as [|b bs IH]; simpl; [done|]. rewrite decide_True by done. by f_equal. Qed.
Lemma target_writes_map t bs : target_writes t (map (TargetWrite t) bs) = bs.
Proof. induction bs as [|b bs IH]; simpl; [done|]. rewrite decide_True by done. by f_equal. Qed.

Section bridge_delivery.
Context (env : BrEnv) (s : Z).

Lemma stream_at_intro st r o : br_streams st !! s = Some r -> br_heap st !! r = Some o ->
  stream_at st s = Some (r, o).
Proof. intros. by apply stream_at_Some. Qed.

Lemma within_cap data (b : Buffer) : sum_lengths (data ++ [b]) <= STREAM_PENDING_DATA_MAX_BYTES ->
  overPending (sum_lengths data) b = false /\ sum_lengths data + blen b = sum_lengths (data ++ [b]).
Proof.
  rewrite sum_lengths_app. simpl. unfold overPending, blen. intros H.
  split; [rewrite Z.gtb_ltb; zlia|lia].
Qed.

Lemma deliver_local_queue bs st q data : local_at st s q false data ->
  sum_lengths (data ++ bs) <= STREAM_PENDING_DATA_MAX_BYTES ->
  local_at (state (deliver env s bs) st) s q false (data ++ bs) /\
  effects (deliver env s bs) st = [].
Proof.
  revert st data. induction bs as [|b bs IH]; intros st data Ha Hc.
  - by rewrite app_nil_r.
  - destruct Ha as (Hs & i & o & Hh).
    rewrite (cons_middle b data bs), app_assoc in Hc |- *.
    pose proof (sum_lengths_nonneg bs). rewrite sum_lengths_app in Hc.
    destruct (within_cap data b ltac:(lia)) as [Hov Hsum].
    unfold deliver. cbn [for_each]. fold (deliver env s bs).
    rewrite state_bind, effects_bind.
    destruct (IH (state (handleBinaryFrame env (mkDecoded TcpData s b)) st) (data ++ [b]))
      as [Ha' He'].
    + unfold handleBinaryFrame. act_run. rewrite (stream_at_intro _ _ _ Hs Hh). act_run.
      rewrite Hov. unfold set_obj, refreshIdleTimer, local_at. act_run. split; [done|].
      do 2 eexists. by rewrite lookup_insert_eq, Hsum.
    + by rewrite sum_lengths_app.
    + split; [done|]. rewrite He', app_nil_r. unfold handleBinaryFrame. act_run.
      rewrite (stream_at_intro _ _ _ Hs Hh). act_run. by rewrite Hov.
Qed.

Lemma deliver_local_socket bs st q data : local_at st s q true data ->
  local_at (state (deliver env s bs) st) s q true data /\
  effects (deliver env s bs) st = map (LocalWrite q) bs.
Proof.
  revert st. induction bs as [|b bs IH]; intros st Ha; [done|].
  destruct Ha as (Hs & i & o & Hh). unfold deliver. cbn [for_each map]. fold (deliver env s bs).
  rewrite state_bind, effects_bind.
  destruct (IH (state (handleBinaryFrame env (mkDecoded TcpData s b)) st)) as [Ha' ->].
  - unfold handleBinaryFrame. act_run. rewrite (stream_at_intro _ _ _ Hs Hh). act_run.
    unfold set_obj, refreshIdleTimer, local_at. act_run. split; [done|].
    do 2 eexists. by rewrite lookup_insert_eq.
  - split; [done|]. unfold handleBinaryFrame. act_run.
    rewrite (stream_at_intro _ _ _ Hs Hh). by act_run.
Qed.

Lemma reserve_step st node stack service port : AGENT_REVERSE_ID_BASE <= s ->
  br_streams st !! s = None -> msize (br_streams st) < MAX_STREAMS_PER_TUNNEL ->
  let m := handleTcpOpenReverse env s node stack service port in
  local_at (state m st) s (br_nextRef st) false [] /\
  br_dispatch (state m st) !! br_nextRef st = Some (mkReverseOpen s node stack service port) /\
  effects m st = [].
Proof.
  intros Hb Hn Hc m. subst m. unfold handleTcpOpenReverse. act_run.
  assert ((s <? AGENT_REVERSE_ID_BASE) = false) as -> by zlia.
  rewrite Hn, bool_decide_eq_false_2 by (by intros []).
  assert ((msize (br_streams st) >=? MAX_STREAMS_PER_TUNNEL) = false) as ->
    by (rewrite Z.geb_leb; zlia).
  act_run. unfold set_obj, refreshIdleTimer, local_at. act_run.
  rewrite !lookup_insert_eq. split_and!; eauto.
Qed.

(** Frames leave the pending continuations alone. *)
Definition conts (st : Bridge) := (br_dispatch st, br_resolving st, br_bridging st).

Lemma conts_removeStream st : conts (state (removeStream s) st) = conts st.
Proof. unfold removeStream, clearIdleTimer. by act_cases. Qed.

Lemma conts_deliver bs st : conts (state (deliver env s bs) st) = conts st.
Proof.
  apply (for_each_ind _ (fun st' => conts st' = conts st)); [done|].
  intros b st' _ <-. unfold handleBinaryFrame, refreshIdleTimer, set_obj, sendJson.
  act_cases; rewrite ?conts_removeStream; done.
Qed.

(** The steps of a local dial, on a stream whose queue is [data]. *)
Lemma dispatch_local_step st q ro data : local_at st s q false data ->
  br_dispatch st !! q = Some ro -> ro_s ro = s ->
  let m := dispatchReverse (ro_node ro) q in
  local_at (state m st) s q false data /\ br_resolving (state m st) !! q = Some (ro, q) /\
  effects m st = [LocalResolve q (ro_stack ro) (ro_service ro)].
Proof.
  intros (Hs & i & o & Hh) Hd He m. subst m. unfold dispatchReverse, local_at. act_run.
  rewrite Hd. act_run. rewrite He, (stream_at_intro _ _ _ Hs Hh), Z.eqb_refl. act_run.
  rewrite lookup_insert_eq. split_and!; eauto.
Qed.

Lemma accept_local_step st q ro host data : local_at st s q false data ->
  br_resolving st !! q = Some (ro, q) -> ro_s ro = s ->
  let m := acceptReverseLocal env q (Some host) in
  local_at (state m st) s q true data /\ effects m st = [LocalConnect q host (ro_port ro)].
Proof.
  intros (Hs & i & o & Hh) Hd He m. subst m. unfold acceptReverseLocal, local_at. act_run.
  rewrite Hd, Hh. act_run. unfold holds. rewrite He, Hs, bool_decide_eq_true_2 by done.
  simpl. unfold set_obj. act_run. rewrite lookup_insert_eq. split_and!; eauto.
Qed.

Lemma local_connect_step st q data : local_at st s q true data ->
  let m := onLocalConnect env s q in
  local_at (state m st) s q true [] /\ local_writes q (effects m st) = data.
Proof.
  intros (Hs & i & o & Hh) m. subst m. unfold onLocalConnect, local_at. act_run.
  rewrite Hh. unfold set_obj, sendJson. act_run. rewrite lookup_insert_eq. split; [split_and!; eauto|].
  rewrite local_writes_app, local_writes_map. by destruct (_ && _); simpl; rewrite app_nil_r.
Qed.

(** The steps of a relay. *)
Lemma dispatch_relay_step st q ro node data : local_at st s q false data ->
  br_dispatch st !! q = Some ro -> ro_s ro = s -> ro_node ro <> node ->
  let m := dispatchReverse node q in
  local_at (state m st) s q false data /\ br_bridging (state m st) !! q = Some (ro, q) /\
  effects m st = [RelayEnsureBridge q (ro_node ro)].
Proof.
  intros (Hs & i & o & Hh) Hd He Hn%Z.eqb_neq m. subst m.
  unfold dispatchReverse, local_at. act_run.
  rewrite Hd. act_run. rewrite He, (stream_at_intro _ _ _ Hs Hh), Hn. act_run.
  rewrite lookup_insert_eq. split_and!; eauto.
Qed.

Lemma accept_relay_step st q ro t data : local_at st s q false data ->
  br_bridging st !! q = Some (ro, q) -> ro_s ro = s ->
  let m := acceptReverseRelay env q (BridgeOpened (Some t)) in
  relay_at (state m st) s t false data /\ effects m st = [].
Proof.
  intros (Hs & i & o & Hh) Hd He m. subst m. unfold acceptReverseRelay, relay_at. act_run.
  rewrite Hd, Hh. act_run. unfold holds. rewrite He, Hs, bool_decide_eq_true_2 by done.
  simpl. unfold set_obj, refreshIdleTimer. act_run. split; [|done].
  do 3 eexists. rewrite !lookup_insert_eq. split_and!; eauto.
Qed.

Lemma target_open_step st t data : relay_at st s t false data ->
  let m := onTargetOpen env s in
  relay_at (state m st) s t true [] /\ target_writes t (effects m st) = data.
Proof.
  intros (r & i & o & Hs & Hh) m. subst m. unfold onTargetOpen, relay_at. act_run.
  rewrite (stream_at_intro _ _ _ Hs Hh). unfold set_obj, sendJson. act_run. split.
  - do 3 eexists. split; [done|]. by rewrite lookup_insert_eq.
  - rewrite target_writes_app, target_writes_map.
    by destruct (_ && _); simpl; rewrite app_nil_r.
Qed.

Lemma deliver_relay_queue bs st t data : relay_at st s t false data ->
  sum_lengths (data ++ bs) <= STREAM_PENDING_DATA_MAX_BYTES ->
  relay_at (state (deliver env s bs) st) s t false (data ++ bs) /\
  effects (deliver env s bs) st = [].
Proof.
  revert st data. induction bs as [|b bs IH]; intros st data Ha Hc.
  - by rewrite app_nil_r.
  - destruct Ha as (r & i & o & Hs & Hh).
    rewrite (cons_middle b data bs), app_assoc in Hc |- *.
    pose proof (sum_lengths_nonneg bs). rewrite sum_lengths_app in Hc.
    destruct (within_cap data b ltac:(lia)) as [Hov Hsum].
    unfold deliver. cbn [for_each]. fold (deliver env s bs).
    rewrite state_bind, effects_bind.
    destruct (IH (state (handleBinaryFrame env (mkDecoded TcpData s b)) st) (data ++ [b]))
      as [Ha' He'].
    + unfold handleBinaryFrame. act_run. rewrite (stream_at_intro _ _ _ Hs Hh). act_run.
      rewrite Hov. unfold set_obj, refreshIdleTimer, relay_at. act_run.
      do 3 eexists. split; [done|]. by rewrite lookup_insert_eq, Hsum.
    + by rewrite sum_lengths_app.
    + split; [done|]. rewrite He', app_nil_r. unfold handleBinaryFrame. act_run.
      rewrite (stream_at_intro _ _ _ Hs Hh). act_run. by rewrite Hov.
Qed.

Lemma deliver_relay_open bs st t data : relay_at st s t true data ->
  relay_at (state (deliver env s bs) st) s t true data /\
  effects (deliver env s bs) st = map (TargetWrite t) bs.
Proof.
  revert st. induction bs as [|b bs IH]; intros st Ha; [done|].
  destruct Ha as (r & i & o & Hs & Hh). unfold deliver. cbn [for_each map].
  fold (deliver env s bs). rewrite state_bind, effects_bind.
  destruct (IH (state (handleBinaryFrame env (mkDecoded TcpData s b)) st)) as [Ha' ->].
  - unfold handleBinaryFrame. act_run. rewrite (stream_at_intro _ _ _ Hs Hh). act_run.
    unfold set_obj, refreshIdleTimer, relay_at. act_run.
    do 3 eexists. split; [done|]. by rewrite lookup_insert_eq.
  - split; [done|]. unfold handleBinaryFrame. act_run.
    rewrite (stream_at_intro _ _ _ Hs Hh). by act_run.
Qed.
End bridge_delivery.

(** The life of a reverse stream [s] opened for a container of this node: the
    reservation, [bs1] while its dispatch is pending, the dispatch and the
    address, [bs2] while the socket dials, the connection, then [bs3]. *)
Definition local_dial (env : BrEnv) (s node port : Z) (stack service host : string) (q : Ref)
    (bs1 bs2 bs3 : list Buffer) : BM unit :=
  handleTcpOpenReverse env s node stack service port;;
  deliver env s bs1;; dispatchReverse node q;; acceptReverseLocal env q (Some host);;
  deliver env s bs2;; onLocalConnect env s q;; deliver env s bs3.

(** The life of a reverse stream relayed to node [node] of another bridge:
    [bs1] before the dispatch, [bs2] while the target bridge comes up, [bs3]
    while its stream opens, then [bs4]. *)
Definition relay_dial (env : BrEnv) (s node self port : Z) (stack service : string) (q : Ref)
    (t : Z) (bs1 bs2 bs3 bs4 : list Buffer) : BM unit :=
  handleTcpOpenReverse env s node stack service port;;
  deliver env s bs1;; dispatchReverse self q;;
  deliver env s bs2;; acceptReverseRelay env q (BridgeOpened (Some t));;
  deliver env s bs3;; onTargetOpen env s;; deliver env s bs4.

(** The state after a first step, its continuations unchanged by frames. *)
Lemma deliver_lookup_dispatch env s bs st q :
  br_dispatch (state (deliver env s bs) st) !! q = br_dispatch st !! q.
Proof. by injection (conts_deliver env s bs st) as -> _ _. Qed.
Lemma deliver_lookup_bridging env s bs st q :
  br_bridging (state (deliver env s bs) st) !! q = br_bridging st !! q.
Proof. by injection (conts_deliver env s bs st) as _ _ ->. Qed.

(** on a reverse stream to a container of this node, the frames that arrive
    while the socket is dialling are written to it before the ones buffered
    ahead of the dial, which the 'connect' handler flushes: the target reads
    [bs2], then [bs1], then [bs3], although they were sent in the order [bs1],
    [bs2], [bs3]. Payloads keep their order, and none is lost, exactly when
    nothing arrives in the dial window or nothing came before it. *)
Theorem reverse_local_delivery_order env s node port stack service host bs1 bs2 bs3 st :
  AGENT_REVERSE_ID_BASE <= s -> br_streams st !! s = None ->
  msize (br_streams st) < MAX_STREAMS_PER_TUNNEL ->
  sum_lengths bs1 <= STREAM_PENDING_DATA_MAX_BYTES ->
  let q := br_nextRef st in
  local_writes q
    (effects (local_dial env s node port stack service host q bs1 bs2 bs3) st)
  = bs2 ++ bs1 ++ bs3.
Proof.
  intros Hb Hn Hc Hp q. unfold local_dial. rewrite !effects_bind, !local_writes_app.
  destruct (reserve_step env s st node stack service port Hb Hn Hc) as (H1 & Hd & ->).
  set (st1 := state (handleTcpOpenReverse _ _ _ _ _ _) st) in *.
  destruct (deliver_local_queue env s bs1 st1 q [] H1 Hp) as [H2 ->].
  rewrite <-(deliver_lookup_dispatch env s bs1) in Hd. simpl in H2.
  set (st2 := state (deliver env s bs1) st1) in *.
  destruct (dispatch_local_step s st2 q _ bs1 H2 Hd eq_refl) as (H3 & Hr & E3).
  simpl in H3, Hr, E3. rewrite E3. clear E3.
  set (st3 := state (dispatchReverse node q) st2) in *.
  destruct (accept_local_step env s st3 q _ host bs1 H3 Hr eq_refl) as (H4 & ->).
  set (st4 := state (acceptReverseLocal _ _ _) st3) in *.
  destruct (deliver_local_socket env s bs2 st4 q bs1 H4) as (H5 & ->).
  set (st5 := state (deliver env s bs2) st4) in *.
  destruct (local_connect_step env s st5 q bs1 H5) as (H6 & ->).
  destruct (deliver_local_socket env s bs3 _ q [] H6) as (_ & ->).
  by rewrite !local_writes_map.
Qed.

(** On a reverse stream relayed to another node, the target stream is
    given every payload once, in the order the frames arrived, whatever arrives
    before the dispatch, while the target bridge comes up, while its stream
    opens and afterwards. *)
Theorem reverse_relay_delivery_in_order env s node self port stack service t bs1 bs2 bs3 bs4 st :
  AGENT_REVERSE_ID_BASE <= s -> br_streams st !! s = None ->
  msize (br_streams st) < MAX_STREAMS_PER_TUNNEL -> node <> self ->
  sum_lengths (bs1 ++ bs2 ++ bs3) <= STREAM_PENDING_DATA_MAX_BYTES ->
  let q := br_nextRef st in
  target_writes t
    (effects (relay_dial env s node self port stack service q t bs1 bs2 bs3 bs4) st)
  = bs1 ++ bs2 ++ bs3 ++ bs4.
Proof.
  intros Hb Hn Hc Hne Hp q. unfold relay_dial. rewrite !effects_bind, !target_writes_app.
  rewrite !sum_lengths_app in Hp.
  pose proof (sum_lengths_nonneg bs2). pose proof (sum_lengths_nonneg bs3).
  destruct (reserve_step env s st node stack service port Hb Hn Hc) as (H1 & Hd & ->).
  set (st1 := state (handleTcpOpenReverse _ _ _ _ _ _) st) in *.
  destruct (deliver_local_queue env s bs1 st1 q [] H1 ltac:(simpl; lia)) as [H2 ->].
  rewrite <-(deliver_lookup_dispatch env s bs1) in Hd. simpl in H2.
  set (st2 := state (deliver env s bs1) st1) in *.
  destruct (dispatch_relay_step s st2 q _ self bs1 H2 Hd eq_refl Hne) as (H3 & Hr & ->).
  set (st3 := state (dispatchReverse self q) st2) in *.
  destruct (deliver_local_queue env s bs2 st3 q bs1 H3) as [H4 ->];
    [rewrite !sum_lengths_app; lia|].
  rewrite <-(deliver_lookup_bridging env s bs2) in Hr.
  set (st4 := state (deliver env s bs2) st3) in *.
  destruct (accept_relay_step env s st4 q _ t _ H4 Hr eq_refl) as (H5 & ->).
  set (st5 := state (acceptReverseRelay _ _ _) st4) in *.
  destruct (deliver_relay_queue env s bs3 st5 t _ H5) as (H6 & ->);
    [rewrite !sum_lengths_app; lia|].
  set (st6 := state (deliver env s bs3) st5) in *.
  destruct (target_open_step env s st6 t _ H6) as (H7 & ->).
  destruct (deliver_relay_open env s bs4 _ t [] H7) as (_ & ->).
  rewrite !target_writes_map. simpl. by rewrite <-!app_assoc.
Qed.

(** The bridge of node 3 with one reverse stream reserved for node 7. *)
Definition agentId : Z := AGENT_REVERSE_ID_BASE.

Lemma reverse_local_delivery_order_witness :
  sum_lengths [[1]] <= STREAM_PENDING_DATA_MAX_BYTES /\
  local_writes 1 (effects (local_dial (quiet_at 0) agentId 3 80 "web" "app" "10.0.0.2" 1
    [[1]] [[2]] [[3]]) newBridge) = [[2]; [1]; [3]].
Proof.
  split; [vm_compute; discriminate|].
  apply (reverse_local_delivery_order (quiet_at 0) agentId 3 80 "web" "app" "10.0.0.2"
    [[1]] [[2]] [[3]] newBridge); done.
Defined.

Lemma reverse_relay_delivery_in_order_witness :
  target_writes 42 (effects (relay_dial (quiet_at 0) agentId 7 3 80 "web" "app" 1 42
    [[1]] [[2]] [[3]] [[4]]) newBridge) = [[1]; [2]; [3]; [4]].
Proof.
  apply (reverse_relay_delivery_in_order (quiet_at 0) agentId 7 3 80 "web" "app" 42
    [[1]] [[2]] [[3]] [[4]] newBridge); done.
Defined.

(** ** The reservation's idle timer *)

(** Frames of a stream held by [r] leave the other objects' timers alone. *)
Definition held_by (s : Z) (r q : Ref) (x : option (Z * Z)) (st : Bridge) : Prop :=
  (br_streams st !! s = Some r \/ br_streams st !! s = None) /\ br_timers st !! q = x.

Lemma held_by_remove s r q x st : r <> q -> held_by s r q x st ->
  held_by s r q x (state (removeStream s) st).
Proof.
  intros Hr [Hs Ht]. unfold removeStream, clearIdleTimer, held_by. act_run.
  destruct (br_streams st !! s) as [r'|] eqn:E; act_run; [|eauto].
  rewrite lookup_delete_eq. destruct Hs as [Hs|]; simplify_eq.
  rewrite lookup_delete_ne by done. eauto.
Qed.

Lemma held_by_refresh env s r q x st : r <> q -> held_by s r q x st ->
  held_by s r q x (state (refreshIdleTimer env s r) st).
Proof.
  intros Hr [Hs Ht]. unfold refreshIdleTimer, held_by. act_run.
  by rewrite lookup_insert_ne by done.
Qed.

Lemma held_by_deliver env s r q x bs st : r <> q -> held_by s r q x st ->
  held_by s r q x (state (deliver env s bs) st).
Proof.
  intros Hr Hh. unfold deliver. apply (for_each_ind _ (held_by s r q x)); [done|]. intros b st' _ Hh'.
  unfold handleBinaryFrame. act_run.
  destruct (stream_at st' s) as [[r' o]|] eqn:E; [|done]. apply stream_at_Some in E as [E _].
  assert (r' = r) as -> by (destruct Hh' as [[|] _]; congruence). simpl.
  assert (Hset : forall o' st0, held_by s r q x st0 -> held_by s r q x (state (set_obj r o') st0))
    by done.
  destruct o; simpl; rewrite ?state_skip; try done; act_run;
    repeat (act_split || rewrite state_bind || rewrite state_tell || rewrite state_skip
      || rewrite state_sendJson);
    repeat first [done | apply Hset | apply held_by_refresh | apply held_by_remove].
Qed.

(** Replacing a reservation by its relay leaves the reservation's idle
    timer armed, and refreshing the stream later does not move it. When it
    fires, [STREAM_IDLE_TIMEOUT_MS] after the last frame of the reservation, it
    tears down the relay however recently that one was used: the target is
    destroyed and the stream removed. *)
Theorem relay_killed_by_reservation_timer env env1 env2 st s q ro t data d bs :
  local_at st s q false data -> br_bridging st !! q = Some (ro, q) -> ro_s ro = s ->
  br_timers st !! q = Some (s, d) -> q < br_nextRef st ->
  let st1 := state (acceptReverseRelay env q (BridgeOpened (Some t))) st in
  let st2 := state (onTargetOpen env1 s;; deliver env1 s bs) st1 in
  (forall env3, be_now env3 = d -> enabled env3 st2 (BIdle q)) /\
  (exists r, br_streams st2 !! s = Some r /\ r <> q) /\
  br_streams (state (run_event env2 (BIdle q)) st2) !! s = None /\
  TargetDestroy t ∈ effects (run_event env2 (BIdle q)) st2.
Proof.
  intros Hl Hb He Ht Hq st1 st2.
  destruct (accept_relay_step env s st q ro t data Hl Hb He) as [H1 _].
  assert (Hh1 : held_by s (br_nextRef st) q (Some (s, d)) st1).
  { subst st1. destruct Hl as (Hs & i & o & Hh). unfold acceptReverseRelay, held_by. act_run.
    rewrite Hb, Hh. act_run. unfold holds. rewrite He, Hs, bool_decide_eq_true_2 by done.
    unfold set_obj, refreshIdleTimer. act_run. rewrite lookup_insert_eq, lookup_insert_ne by lia.
    eauto. }
  destruct (target_open_step env1 s st1 t data H1) as [H2 _].
  assert (Hh2 : held_by s (br_nextRef st) q (Some (s, d)) (state (onTargetOpen env1 s) st1)).
  { revert Hh1. unfold onTargetOpen, set_obj. generalize st1. intros st0 Hh0.
    act_run. act_split; [|done]. act_cases; rewrite ?state_sendJson; done. }
  destruct (deliver_relay_open env1 s bs _ t [] H2) as [H3 _].
  apply (held_by_deliver env1 s _ _ _ bs) in Hh2; [|lia].
  subst st2. rewrite state_bind. set (st2 := state (deliver env1 s bs) _) in *.
  destruct H3 as (r & i & o & Hs & Hr), Hh2 as [Hs' Ht2].
  assert (r = br_nextRef st) as -> by (destruct Hs' as [|]; congruence).
  split_and!.
  - intros env3 He3. exists s, d. split; [done|lia].
  - exists (br_nextRef st). split; [done|lia].
  - unfold run_event, fireIdleTimer. act_run. rewrite Ht2. unfold onStreamIdle. act_run.
    rewrite (stream_at_intro s (upd_br_timers (delete q) st2) (br_nextRef st) _ Hs Hr). act_run.
    rewrite state_sendJson. simpl. by rewrite lookup_delete_eq.
  - unfold run_event, fireIdleTimer. act_run. rewrite Ht2. unfold onStreamIdle. act_run.
    rewrite (stream_at_intro s (upd_br_timers (delete q) st2) (br_nextRef st) _ Hs Hr). act_run. left.
Qed.

(** A relay reserved at time 0, its target bridge awaited. *)
Definition awaiting_relay : Bridge :=
  state (handleTcpOpenReverse (quiet_at 0) agentId 7 "web" "app" 80;; dispatchReverse 3 1)
    newBridge.

(** One byte arrives 1 ms before the reservation's deadline; the relay dies. *)
Lemma relay_killed_by_reservation_timer_witness :
  let st1 := state (acceptReverseRelay (quiet_at 5) 1 (BridgeOpened (Some 42))) awaiting_relay in
  let st2 := state (onTargetOpen (quiet_at 599999) agentId;;
                    deliver (quiet_at 599999) agentId [[1]]) st1 in
  br_timers st2 !! 2 = Some (agentId, 1199999) /\
  enabled (quiet_at 600000) st2 (BIdle 1) /\
  TargetDestroy 42 ∈ effects (run_event (quiet_at 600000) (BIdle 1)) st2.
Proof.
  pose proof (relay_killed_by_reservation_timer (quiet_at 5) (quiet_at 599999) (quiet_at 600000)
    awaiting_relay agentId 1 (mkReverseOpen agentId 7 "web" "app" 80) 42 [] 600000 [[1]]) as H.
  destruct H as (H1 & _ & _ & H2); try reflexivity.
  { split; [reflexivity|]. by exists 0, 0. }
  split; [vm_compute; reflexivity|]. split; [by apply H1|exact H2].
Defined.

(** ** Closing *)

Lemma close_when_closed code reason st : br_closed st = true ->
  close code reason st = (tt, st, []).
Proof. intros H. unfold close, mbind, act_bind, get. simpl. by rewrite H. Qed.

Lemma effects_teardown r o st st' :
  effects (teardownStream r o) st = effects (teardownStream r o) st'.
Proof. destruct o; simpl; unfold when; act_cases; done. Qed.

(** Nothing paused, waiting or ticking, and closed. *)
Definition released (st : Bridge) : Prop :=
  br_closed st = true /\ br_pausedReqs st = ∅ /\ br_pausedTcpSockets st = ∅ /\
  br_tcpAwaitingDrain st = ∅ /\ br_drainTimer st = false /\ br_heartbeat st = false.

Section closing.
Context (code : Z) (reason : string) (st : Bridge).
Hypothesis Hopen : br_closed st = false.

Definition close_body (r : Ref) : BM unit :=
  clearIdleTimer r;; match br_heap st !! r with Some o => teardownStream r o | None => skip end.

Lemma close_body_timers st' r q : br_timers st' !! q = None ->
  br_timers (state (close_body r) st') !! q = None.
Proof.
  intros H. unfold close_body, clearIdleTimer. rewrite state_bind.
  destruct (br_heap st !! r); rewrite ?state_teardown, ?state_skip, state_modify; simpl; map_cases;
    done.
Qed.

Lemma close_body_rest st' r : br_timers (state (close_body r) st') = delete r (br_timers st') /\
  (br_closed (state (close_body r) st'), br_drainTimer (state (close_body r) st'),
   br_pausedReqs (state (close_body r) st'), br_tcpAwaitingDrain (state (close_body r) st'),
   br_pausedTcpSockets (state (close_body r) st'), br_heartbeat (state (close_body r) st'))
  = (br_closed st', br_drainTimer st', br_pausedReqs st', br_tcpAwaitingDrain st',
     br_pausedTcpSockets st', br_heartbeat st').
Proof.
  unfold close_body, clearIdleTimer. rewrite state_bind.
  destruct (br_heap st !! r); rewrite ?state_teardown, ?state_skip, state_modify; done.
Qed.

Lemma close_loop_timers l st' r : r ∈ l ->
  br_timers (state (for_each close_body l) st') !! r = None.
Proof.
  intros Hr. revert st'. induction Hr as [r l|r y l _ IH]; intros st'; cbn [for_each];
    rewrite state_bind; [|apply IH].
  apply (for_each_ind _ (fun st0 => br_timers st0 !! r = None)).
  - destruct (close_body_rest st' r) as [-> _]. apply lookup_delete_eq.
  - intros x st0 _. apply close_body_timers.
Qed.

Lemma close_loop_released l st' : released st' -> released (state (for_each close_body l) st').
Proof.
  intros H. apply (for_each_ind _ released); [done|]. intros r st0 _ Hr.
  destruct (close_body_rest st0 r) as [_ E]. unfold released in *. injection E as -> -> -> -> -> ->. done.
Qed.

(** The state in which the streams are torn down. *)
Definition before_teardown : Bridge :=
  upd_br_tcpAwaitingDrain (fun _ => ∅) (upd_br_pausedTcpSockets (fun _ => ∅)
    (upd_br_pausedReqs (fun _ => ∅) (state stopDrainTimer (state
      (if br_heartbeat st then tell StopHeartbeat;; modify (upd_br_heartbeat (fun _ => false))
       else skip) (upd_br_closed (fun _ => true) st))))).

Lemma before_teardown_released : released before_teardown.
Proof.
  unfold before_teardown, stopDrainTimer, released.
  destruct (br_heartbeat st) eqn:?, (br_drainTimer st) eqn:Hd; act_run; rewrite Hd; done.
Qed.

Lemma state_close : state (close code reason) st =
  upd_br_streams (fun _ => ∅)
    (state (for_each close_body (map snd (map_to_list (br_streams st)))) before_teardown).
Proof. unfold close. act_run. rewrite Hopen. by act_run. Qed.

Lemma effects_close : exists e0, effects (close code reason) st =
  e0 ++ map ReqResume (map snd (map_to_list (br_pausedReqs st))) ++
  map LocalResume (elements (br_pausedTcpSockets st)) ++
  effects (for_each close_body (map snd (map_to_list (br_streams st)))) before_teardown ++
  [TunnelWsClose code reason; ServersClose; EmitClosed].
Proof.
  unfold close. act_run. rewrite Hopen. act_run. rewrite app_assoc. by eexists.
Qed.

Lemma close_loop_teardown s r o st' : stream_at st s = Some (r, o) ->
  effects (teardownStream r o) st ⊆
  effects (for_each close_body (map snd (map_to_list (br_streams st)))) st'.
Proof.
  intros [Hs Hr]%stream_at_Some e He. apply (elem_of_effects_for_each _ _ _ r).
  - apply list_elem_of_fmap. exists (s, r). split; [done|]. by apply elem_of_map_to_list.
  - intros st0. unfold close_body, clearIdleTimer. act_run. rewrite Hr.
    by rewrite (effects_teardown _ _ _ st).
Qed.
End closing.

(** Closing an open bridge releases all it holds and can be repeated. No
    stream, paused request, paused socket, waiting handle, drain timer or
    heartbeat is left; the idle timer of every stream is cleared; every paused
    request and socket is resumed; every stream's local side is torn down; the
    tunnel is closed with the given code, the loopback servers are closed and
    'closed' is emitted. A second close does nothing. *)
Theorem close_releases_bridge code reason st :
  br_closed st = false ->
  let st' := state (close code reason) st in
  let effs := effects (close code reason) st in
  released st' /\ br_streams st' = ∅ /\
  (forall s r, br_streams st !! s = Some r -> br_timers st' !! r = None) /\
  (forall s r o, stream_at st s = Some (r, o) ->
     effects (teardownStream r o) st ⊆ effs) /\
  (forall s r, br_pausedReqs st !! s = Some r -> ReqResume r ∈ effs) /\
  (forall q, q ∈ br_pausedTcpSockets st -> LocalResume q ∈ effs) /\
  [TunnelWsClose code reason; ServersClose; EmitClosed] `suffix_of` effs /\
  (forall code' reason', close code' reason' st' = (tt, st', [])).
Proof.
  intros Ho st' effs. subst st' effs. rewrite (state_close _ _ _ Ho).
  destruct (effects_close code reason st Ho) as [e0 ->].
  pose proof (close_loop_released st (map snd (map_to_list (br_streams st))) _
    (before_teardown_released st)) as Hrel.
  split_and!; try apply Hrel; try done.
  - intros s r Hs. apply close_loop_timers, list_elem_of_fmap. exists (s, r).
    split; [done|]. by apply elem_of_map_to_list.
  - intros s r o Hs e He. rewrite !elem_of_app. do 3 right. left.
    by eapply close_loop_teardown.
  - intros s r Hs. rewrite !elem_of_app. right. left. apply list_elem_of_fmap. exists r.
    split; [done|]. apply list_elem_of_fmap. exists (s, r).
    split; [done|]. by apply elem_of_map_to_list.
  - intros q Hq. rewrite !elem_of_app. do 2 right. left. apply list_elem_of_fmap. exists q.
    split; [done|]. by apply elem_of_elements.
  - rewrite !app_assoc. by apply suffix_app_r.
  - intros. apply close_when_closed, Hrel.
Qed.

Lemma close_releases_bridge_witness :
  let st := state (run_event (quiet_at 0) (BRequest "GET" "/" [])) newBridge in
  br_closed st = false /\ br_streams (state (close 1000 "bye") st) = ∅.
Proof.
  split; [vm_compute; reflexivity|].
  refine (proj1 (proj2 (close_releases_bridge 1000 "bye" _ _))). vm_compute; reflexivity.
Defined.

(** ** Ingress headers *)

Definition frame_headers (f : JsonFrame) : Headers :=
  match f with
  | F_http_req _ _ _ hs | F_ws_open _ _ hs => hs
  | _ => []
  end.

Lemma elem_of_tunnelFrameHeaders k v hs :
  (k, v) ∈ tunnelFrameHeaders hs <->
  k ∉ FORWARDING_HEADER_SET /\
  ((k, HStr v) ∈ hs \/ exists vs, (k, HList vs) ∈ hs /\ v = join_comma vs).
Proof.
  unfold tunnelFrameHeaders. rewrite list_elem_of_omap. split.
  - intros ([k' hv] & Hin & E). case_bool_decide; [done|]. destruct hv; simplify_eq; eauto.
  - intros [Hk [Hin|(vs & Hin & ->)]]; eexists (_, _); (split; [exact Hin|]);
      by rewrite bool_decide_eq_false_2.
Qed.

Lemma effects_add_stream env o st : effects (add_stream env o) st = [].
Proof. unfold add_stream, set_obj, refreshIdleTimer. act_run. by destruct (allocate (br_streamIds st)); act_run. Qed.

Lemma in_sendJson env f st e : e ∈ effects (sendJson env f) st -> e = TunnelJson f.
Proof.
  unfold sendJson. act_run. destruct (_ && _); simpl; [|by intros ?%elem_of_nil].
  by intros ?%list_elem_of_singleton.
Qed.

(** No forwarding header of a loopback request or upgrade crosses the
    tunnel, every other string or list header does, and nothing else is sent
    in the frame's headers. *)
Theorem no_forwarding_header_crosses env method path hs upgrade st f :
  TunnelJson f ∈ effects (if upgrade : bool then handleLoopbackUpgrade env path hs
                          else handleLoopbackRequest env method path hs) st ->
  forall k v, (k, v) ∈ frame_headers f <->
    k ∉ FORWARDING_HEADER_SET /\
    ((k, HStr v) ∈ hs \/ exists vs, (k, HList vs) ∈ hs /\ v = join_comma vs).
Proof.
  intros Hf k v. rewrite <-elem_of_tunnelFrameHeaders. revert Hf.
  destruct upgrade; unfold handleLoopbackUpgrade, handleLoopbackRequest;
    rewrite effects_bind, effects_get, result_get, state_get; cbn [app];
    (destruct (_ || _); [act_run; by intros ?%list_elem_of_singleton|]);
    (destruct (_ >=? _); [act_run; by intros ?%list_elem_of_singleton|]);
    rewrite effects_bind, effects_add_stream; cbn [app]; intros [= ->]%in_sendJson; done.
Qed.

Lemma no_forwarding_header_crosses_witness :
  let hs := [("x-forwarded-for", HStr "1.2.3.4"); ("accept", HStr "*/*")] in
  let f := F_http_req 1 "GET" "/" [("accept", "*/*")] in
  effects (handleLoopbackRequest (quiet_at 0) "GET" "/" hs) newBridge = [TunnelJson f] /\
  ("accept", "*/*") ∈ frame_headers f.
Proof.
  split; [reflexivity|].
  apply (no_forwarding_header_crosses (quiet_at 0) "GET" "/"
    [("x-forwarded-for", HStr "1.2.3.4"); ("accept", HStr "*/*")] false newBridge).
  - left.
  - split; [exact (bool_decide_unpack ("accept" ∉ FORWARDING_HEADER_SET) I)|]. left. right. left.
Defined.

(** ** Backpressure *)

(** A TCP write on an open tunnel always sends its payload, counts it and
    refreshes the stream; it returns [true] exactly when the send buffer is
    within the high-water mark, and when it returns [false] the stream waits
    for a drain and the drain timer runs. On a closed tunnel, or an id that is
    not a forward TCP stream, it returns [false] and changes nothing. *)
Theorem write_tcp_backpressure env s payload st r i o at0 acc :
  be_sendThrows env = false ->
  stream_at st s = Some (r, STcp i o at0 acc) ->
  let m := _writeTcpData env s payload in
  if isOpen env st then
    effects m st = [TunnelBinary TcpData s payload] /\
    result m st = (be_buffered env <=? TUNNEL_SEND_BUFFER_HIGH_WATER_MARK) /\
    stream_at (state m st) s = Some (r, STcp i (o + blen payload) at0 acc) /\
    br_timers (state m st) !! r = Some (s, be_now env + STREAM_IDLE_TIMEOUT_MS) /\
    (result m st = false ->
     s ∈ br_tcpAwaitingDrain (state m st) /\ br_drainTimer (state m st) = true)
  else m st = (false, st, []).
Proof.
  intros Hns Hs m. subst m. destruct (isOpen env st) eqn:Hop.
  - unfold isOpen in Hop. destruct (br_closed st) eqn:Hc; [done|]. simpl in Hop.
    pose proof (proj1 (stream_at_Some _ _ _ _) Hs) as [Hst _].
    assert (Hw : (be_buffered env <=? TUNNEL_SEND_BUFFER_HIGH_WATER_MARK)
      = negb (overHighWater env)) by (unfold overHighWater; rewrite Z.gtb_ltb; lia).
    rewrite Hw. unfold _writeTcpData, isOpen, sendBinary, set_obj, refreshIdleTimer,
      ensureDrainTimer. act_run. rewrite Hs, Hc, Hop, Hns. act_run.
    unfold stream_at.
    destruct (overHighWater env); cbn [negb]; act_run; rewrite ?Hc, ?orb_false_r.
    + destruct (br_drainTimer st) eqn:Hd; act_run; rewrite Hst; simpl; rewrite !lookup_insert_eq;
        split_and!; try done; intros _; split; try done; set_solver.
    + rewrite Hst. simpl. rewrite !lookup_insert_eq. done.
  - unfold _writeTcpData, mbind, act_bind, get. simpl. by rewrite Hs, Hop.
Qed.

Lemma write_tcp_backpressure_witness :
  let st := state (run_event (quiet_at 0) (BOpenTcp "web" "app" 80)) newBridge in
  let env := mkBrEnv 5 true false (TUNNEL_SEND_BUFFER_HIGH_WATER_MARK + 1) true in
  result (_writeTcpData env 1 [7]) st = false /\
  1 ∈ br_tcpAwaitingDrain (state (_writeTcpData env 1 [7]) st).
Proof.
  split; [vm_compute; reflexivity|].
  pose proof (write_tcp_backpressure
    (mkBrEnv 5 true false (TUNNEL_SEND_BUFFER_HIGH_WATER_MARK + 1) true) 1 [7]
    (state (run_event (quiet_at 0) (BOpenTcp "web" "app" 80)) newBridge) 1 0 0 0 false
    eq_refl eq_refl) as H.
  simpl isOpen in H. cbv iota in H. destruct H as (_ & _ & _ & _ & H).
  apply H. vm_compute; reflexivity.
Defined.

(** A tick of the drain timer strands nobody: once the send buffer is
    within the high-water mark every paused request and socket is resumed,
    every accepted forward stream that waits gets its 'drain', the three sets
    are emptied and the timer stops; above the mark nothing changes; on a
    closed bridge the timer just stops. *)
Theorem bridge_drain_tick env st :
  let m := checkDrain env in
  if br_closed st then effects m st = [] /\ br_drainTimer (state m st) = false
  else if overHighWater env then m st = (tt, st, [])
  else
    (forall s q, br_pausedReqs st !! s = Some q -> ReqResume q ∈ effects m st) /\
    (forall q, q ∈ br_pausedTcpSockets st -> LocalResume q ∈ effects m st) /\
    (forall s r i o at0, s ∈ br_tcpAwaitingDrain st ->
       stream_at st s = Some (r, STcp i o at0 true) -> TcpEmit r TDrain ∈ effects m st) /\
    br_pausedReqs (state m st) = ∅ /\ br_pausedTcpSockets (state m st) = ∅ /\
    br_tcpAwaitingDrain (state m st) = ∅ /\ br_drainTimer (state m st) = false /\
    br_streams (state m st) = br_streams st.
Proof.
  intros m. subst m.
  assert (Hemit : forall l st0, state (for_each (emitDrain st) l) st0 = st0).
  { intros l st0. apply (for_each_ind _ (fun st' => st' = st0)); [done|].
    intros s st' _ ->. unfold emitDrain. act_cases; done. }
  assert (Hstop : forall st0, br_drainTimer (state stopDrainTimer st0) = false /\
    effects stopDrainTimer st0 = [] /\ br_streams (state stopDrainTimer st0) = br_streams st0 /\
    br_pausedReqs (state stopDrainTimer st0) = br_pausedReqs st0 /\
    br_pausedTcpSockets (state stopDrainTimer st0) = br_pausedTcpSockets st0 /\
    br_tcpAwaitingDrain (state stopDrainTimer st0) = br_tcpAwaitingDrain st0).
  { intros st0. unfold stopDrainTimer. act_run. destruct (br_drainTimer st0) eqn:?; by act_run. }
  unfold checkDrain. destruct (br_closed st) eqn:Hc.
  { act_run. rewrite Hc. split; apply Hstop. }
  destruct (overHighWater env) eqn:Hw.
  { unfold mbind, act_bind, get. simpl. by rewrite Hc. }
  act_run. rewrite Hc. act_run. rewrite !Hemit.
  destruct (Hstop (upd_br_tcpAwaitingDrain (fun _ => ∅) (upd_br_pausedTcpSockets (fun _ => ∅)
    (upd_br_pausedReqs (fun _ => ∅) st)))) as (-> & He & -> & -> & -> & ->).
  split_and!; try done.
  - intros s q Hq. rewrite !elem_of_app. left. apply list_elem_of_fmap. exists q.
    split; [done|]. apply list_elem_of_fmap. exists (s, q). by rewrite elem_of_map_to_list.
  - intros q Hq. rewrite !elem_of_app. right. left. apply list_elem_of_fmap. exists q.
    by rewrite elem_of_elements.
  - intros s r i o at0 Hin Hs. rewrite !elem_of_app. do 2 right. left.
    apply (elem_of_effects_for_each _ _ _ s); [by apply elem_of_elements|].
    intros st'. unfold emitDrain. rewrite Hs. act_run. left.
Qed.

(** ** The registry's view

    No handler but [close] changes [closed] or emits 'closed'. *)

Definition emits (effs : list BrEffect) : nat :=
  length (List.filter (fun e => match e with EmitClosed => true | _ => false end) effs).

Definition quiet {A} (m : BM A) : Prop :=
  forall st, br_closed (state m st) = br_closed st /\ emits (effects m st) = 0%nat.

Lemma emits_app l1 l2 : emits (l1 ++ l2) = (emits l1 + emits l2)%nat.
Proof. unfold emits. by rewrite List.filter_app, length_app. Qed.

Lemma quiet_bind {A C} (m : BM A) (k : A -> BM C) :
  quiet m -> (forall a, quiet (k a)) -> quiet (m ≫= k).
Proof.
  intros Hm Hk st. rewrite state_bind, effects_bind, emits_app.
  destruct (Hm st) as [<- ->]. apply Hk.
Qed.
Lemma quiet_get : quiet get.
Proof. done. Qed.
Lemma quiet_skip : quiet skip.
Proof. done. Qed.
Lemma quiet_ret {A} (a : A) : quiet (mret a).
Proof. done. Qed.
Lemma quiet_tell e : e <> EmitClosed -> quiet (tell e).
Proof. intros H st. split; [done|]. by destruct e. Qed.
Lemma quiet_modify f : (forall st, br_closed (f st) = br_closed st) -> quiet (modify f).
Proof. intros H st. split; [apply H|done]. Qed.
Lemma quiet_when b m : quiet m -> quiet (when b m).
Proof. by destruct b. Qed.
Lemma quiet_for_each {A} (f : A -> BM unit) l : (forall x, quiet (f x)) -> quiet (for_each f l).
Proof. intros Hf. induction l; simpl; [done|]. by apply quiet_bind. Qed.

Create HintDb quiet discriminated.
#[export] Hint Constants Opaque : quiet.
#[export] Hint Resolve quiet_get quiet_skip quiet_ret quiet_when : quiet.
#[export] Hint Extern 1 (quiet (tell _)) => apply quiet_tell; discriminate : quiet.
#[export] Hint Extern 1 (quiet (modify _)) => apply quiet_modify; reflexivity : quiet.

(** Step through a handler; what it calls is in the database. *)
Ltac quiet :=
  repeat first
    [ progress intros
    | solve [auto with quiet]
    | apply quiet_bind | apply quiet_for_each | apply quiet_when
    | match goal with |- quiet (match ?x with _ => _ end) => destruct x end ].

Section quiet_handlers.
Context (env : BrEnv).

Lemma quiet_sendJson f : quiet (sendJson env f).
Proof. unfold sendJson. quiet. Qed.
Lemma quiet_sendBinary t s b : quiet (sendBinary env t s b).
Proof. unfold sendBinary. quiet. Qed.
Lemma quiet_set_obj r o : quiet (set_obj r o).
Proof. unfold set_obj. quiet. Qed.
Lemma quiet_refresh s r : quiet (refreshIdleTimer env s r).
Proof. unfold refreshIdleTimer. quiet. Qed.
Lemma quiet_clear r : quiet (clearIdleTimer r).
Proof. unfold clearIdleTimer. quiet. Qed.
Lemma quiet_ensure : quiet ensureDrainTimer.
Proof. unfold ensureDrainTimer. quiet. Qed.
Lemma quiet_stop : quiet stopDrainTimer.
Proof. unfold stopDrainTimer. quiet. Qed.
Lemma quiet_teardown r o : quiet (teardownStream r o).
Proof. unfold teardownStream. quiet. Qed.
Lemma quiet_emitDrain st s : quiet (emitDrain st s).
Proof. unfold emitDrain. quiet. Qed.
Lemma quiet_add_stream o : quiet (add_stream env o).
Proof.
  unfold add_stream. apply quiet_bind; [apply quiet_get|]. intros st.
  destruct (allocate (br_streamIds st)). quiet; unfold set_obj, refreshIdleTimer; quiet.
Qed.
End quiet_handlers.

#[export] Hint Resolve quiet_sendJson quiet_sendBinary quiet_set_obj quiet_refresh quiet_clear
  quiet_ensure quiet_stop quiet_teardown quiet_emitDrain quiet_add_stream : quiet.

Lemma quiet_remove s : quiet (removeStream s).
Proof. unfold removeStream. quiet. Qed.
Lemma quiet_pause s r : quiet (pauseRequest s r).
Proof. unfold pauseRequest. quiet. Qed.
Lemma quiet_openReverse env s n a b c : quiet (handleTcpOpenReverse env s n a b c).
Proof. unfold handleTcpOpenReverse. quiet. Qed.
#[export] Hint Resolve quiet_remove quiet_pause quiet_openReverse : quiet.

Lemma quiet_localTeardown env s q b : quiet (localTeardown env s q b).
Proof. unfold localTeardown. quiet. Qed.
Lemma quiet_json env f : quiet (handleJsonFrame env f).
Proof. unfold handleJsonFrame. quiet. Qed.
Lemma quiet_binary env f : quiet (handleBinaryFrame env f).
Proof. unfold handleBinaryFrame. quiet. Qed.
Lemma quiet_idle env s : quiet (onStreamIdle env s).
Proof. unfold onStreamIdle. quiet. Qed.
#[export] Hint Resolve quiet_localTeardown quiet_json quiet_binary quiet_idle : quiet.

(** [close] closes an open bridge and emits 'closed' once. *)
Definition closes_once (m : BM unit) : Prop :=
  forall st, br_closed st = false -> br_closed (state m st) = true /\ emits (effects m st) = 1%nat.

Lemma close_closes_once code reason : closes_once (close code reason).
Proof.
  intros st Ho. unfold close. rewrite state_bind, effects_bind, result_get, state_get, effects_get.
  cbn [app]. rewrite Ho, state_bind, effects_bind, state_modify, effects_modify. cbn [app].
  match goal with |- context [state (_ ≫= fun _ => ?k) ?x] =>
    set (x0 := x); assert (Hx : br_closed x0 = true) by done end.
  generalize dependent x0. intros x0 Hx.
  repeat match goal with |- context [state (?m ≫= fun _ => _) x0] =>
    lazymatch m with
    | tell EmitClosed => fail
    | _ =>
      rewrite state_bind, effects_bind, emits_app;
      let Hq := fresh in
      assert (Hq : quiet m) by quiet;
      destruct (Hq x0) as [Hc ->]; rewrite Hx in Hc; clear Hq;
      generalize dependent (state m x0); clear x0 Hx; intros x0 Hx
    end
  end.
  by rewrite state_tell.
Qed.

Lemma handleTunnelMessage_closes env msg :
  quiet (handleTunnelMessage env msg) \/
  closes_once (handleTunnelMessage env msg) /\
  (forall st, br_closed st = true -> handleTunnelMessage env msg st = (tt, st, [])).
Proof.
  assert (Hbad : closes_once (st ← get; if br_closed st then skip else
    (tell MetricDecodeError;; close 1002 "protocol error"))).
  { intros st Ho. act_run. rewrite Ho. act_run. by apply close_closes_once. }
  unfold handleTunnelMessage. destruct msg as [data|[[e|f]|]]; [|right|left; quiet..].
  - destruct (wsDataToBuffer data) as [buf|]; [|left; quiet].
    destruct (decodeBinaryFrame buf); [right|left; quiet].
    split; [by apply Hbad|]. intros st H. unfold mbind, act_bind, get. simpl. by rewrite H.
  - split; [by apply Hbad|]. intros st H. unfold mbind, act_bind, get. simpl. by rewrite H.
Qed.

(** Every event is quiet, or closes the bridge unless it is closed already. *)
Lemma run_event_closes env ev :
  quiet (run_event env ev) \/
  closes_once (run_event env ev) /\
  (forall st, br_closed st = true -> run_event env ev st = (tt, st, [])).
Proof.
  destruct ev; simpl;
    try (left; unfold start, handleLoopbackRequest, handleLoopbackUpgrade, onReqData, onReqEnd,
      onIngressError, onHttpClientGone, notifyHttpClientAbort, onRawClose, onClientMessage,
      onClientClose, onClientError, openTcpStream, _writeTcpData, _closeTcpStream,
      dispatchReverse, dispatchFailed, acceptReverseLocal, onLocalConnect, onLocalError,
      onLocalData, onLocalClose, acceptReverseRelay, onTargetOpen, onTargetData, onTargetError,
      onTargetClose, fireIdleTimer, checkDrain; solve [quiet]).
  - apply handleTunnelMessage_closes.
  - right. split; [|intros st H; unfold onTunnelClose, mbind, act_bind, get; simpl; by rewrite H].
    intros st Ho. unfold onTunnelClose. act_run. rewrite Ho. by apply close_closes_once.
  - right. split; [apply close_closes_once|]. intros st. apply close_when_closed.
Qed.

#[export] Instance Bridge_TunnelBridge : TunnelBridge Bridge := {
  tb_event := BrEnv * BrEvent;
  tb_new := newBridge;
  tb_closed := br_closed;
  tb_run ev st := (state (run_event ev.1 ev.2) st, emits (effects (run_event ev.1 ev.2) st));
  tb_close code reason := (mkBrEnv 0 true false 0 true, BClose code reason);
  tb_start := (mkBrEnv 0 true false 0 true, BStart);
}.

(** The bridge keeps the registry's promises. *)
#[export] Instance Bridge_TunnelBridgeLaws : TunnelBridgeLaws Bridge.
Proof.
  assert (Hdone : forall m st, (m : BM unit) st = (tt, st, []) ->
    state m st = st /\ effects m st = []) by (intros m st H; unfold state, effects; by rewrite H).
  split; simpl; [done|..].
  - intros code reason b. destruct (br_closed b) eqn:H.
    + by destruct (Hdone _ _ (close_when_closed code reason b H)) as [-> _].
    + by apply close_closes_once.
  - intros [env ev] b H. simpl. destruct (run_event_closes env ev) as [Hq|[_ Hc]].
    + by destruct (Hq b) as [-> _].
    + by destruct (Hdone _ _ (Hc b H)) as [-> _].
  - intros [env ev] b. simpl. destruct (run_event_closes env ev) as [Hq|[Ho Hc]].
    + destruct (Hq b) as [-> ->]. by destruct (br_closed b).
    + destruct (br_closed b) eqn:H.
      * destruct (Hdone _ _ (Hc b H)) as [-> ->]. by rewrite H.
      * by destruct (Ho b H) as [-> ->].
  - intros b. assert (Hq : quiet start) by (unfold start; quiet). apply Hq.
Qed.
