(* ===== verification/TunnelManager.v ===== *)
(** * The tunnel registry (backend/src/services/PilotTunnelManager.ts)

    The registry of active bridges by node. It is proved against the
    [TunnelBridge] interface; bridges are objects of a heap, named by
    reference, and a registration is split at [await bridge.start()]: the ones
    that await are in [mg_starting]. Closing a bridge runs its 'closed' listener
    at once, inside the call, as an EventEmitter does. *)

From S2P Require Import Prelude Interfaces Protocol Switchboard Bridge.

Definition PILOT_TUNNEL_SOFT_LIMIT : Z := 128.
Definition PILOT_TUNNEL_HARD_LIMIT : Z := 256.

(** [PilotCloseCode.Replaced] *)
Definition PilotCloseCode_Replaced : Z := 4000.

Inductive BridgeKind := pilot | proxy.

#[export] Instance BridgeKind_eq_dec : EqDecision BridgeKind.
Proof. solve_decision. Defined.

Inductive MgrError :=
  | PilotTunnelCapacityError (limit : Z)
  | BridgeConflict (message : string)
  | DatabaseError.

(** The clock, and whether the database refuses writes. *)
Record MgrEnv := mkMgrEnv { me_now : Z; me_dbFails : bool }.

Inductive MgrEffect :=
  | UpdateNodeStatus (node : Z) (online : bool)
  | UpdateNode (node lastSeen : Z) (agentVersion : option (option string))
  | LogDbFailure (node : Z)
  | Metric (name : string)
  | WarnSoftLimit (active : Z)
  | EmitTunnelUp (node : Z)
  | EmitTunnelDown (node : Z)
  | EmitProxyUp (node : Z)
  | EmitProxyDown (node : Z).

(** The arguments of a [registerTunnel] call that awaits its bridge. *)
Record Registration := mkRegistration {
  rg_node : Z; rg_version : option string; rg_confidential : bool;
}.

Section manager.
Context {B : Type} `{TB : TunnelBridge B}.

Record Mgr := mkMgr {
  mg_heap : gmap Ref B;
  mg_nextRef : Ref;
  mg_listener : gmap Ref (Z * BridgeKind);            (* the bridge's 'closed' listener *)
  mg_starting : gmap Ref Registration;            (* registrations awaiting start() *)
  mg_bridges : gmap Z Ref;            (* bridges *)
  mg_kinds : gmap Z BridgeKind;            (* bridgeKinds *)
  mg_confidential : gmap Z bool;            (* tunnelConfidential *)
  mg_softWarned : bool;
}.

(** Field updates. *)
Definition upd_mg_heap f st := mkMgr (f (mg_heap st)) (mg_nextRef st) (mg_listener st)
  (mg_starting st) (mg_bridges st) (mg_kinds st) (mg_confidential st) (mg_softWarned st).
Definition upd_mg_nextRef f st := mkMgr (mg_heap st) (f (mg_nextRef st)) (mg_listener st)
  (mg_starting st) (mg_bridges st) (mg_kinds st) (mg_confidential st) (mg_softWarned st).
Definition upd_mg_listener f st := mkMgr (mg_heap st) (mg_nextRef st) (f (mg_listener st))
  (mg_starting st) (mg_bridges st) (mg_kinds st) (mg_confidential st) (mg_softWarned st).
Definition upd_mg_starting f st := mkMgr (mg_heap st) (mg_nextRef st) (mg_listener st)
  (f (mg_starting st)) (mg_bridges st) (mg_kinds st) (mg_confidential st) (mg_softWarned st).
Definition upd_mg_bridges f st := mkMgr (mg_heap st) (mg_nextRef st) (mg_listener st)
  (mg_starting st) (f (mg_bridges st)) (mg_kinds st) (mg_confidential st) (mg_softWarned st).
Definition upd_mg_kinds f st := mkMgr (mg_heap st) (mg_nextRef st) (mg_listener st)
  (mg_starting st) (mg_bridges st) (f (mg_kinds st)) (mg_confidential st) (mg_softWarned st).
Definition upd_mg_confidential f st := mkMgr (mg_heap st) (mg_nextRef st) (mg_listener st)
  (mg_starting st) (mg_bridges st) (mg_kinds st) (f (mg_confidential st)) (mg_softWarned st).
Definition upd_mg_softWarned f st := mkMgr (mg_heap st) (mg_nextRef st) (mg_listener st)
  (mg_starting st) (mg_bridges st) (mg_kinds st) (mg_confidential st) (f (mg_softWarned st)).

Definition newManager : Mgr := mkMgr ∅ 1 ∅ ∅ ∅ ∅ ∅ false.

Abbreviation MM := (act Mgr MgrEffect).

(** ** Closing *)

Definition markPilotDown (env : MgrEnv) (node : Z) : MM unit :=
  if me_dbFails env then tell (LogDbFailure node)
  else tell (UpdateNodeStatus node false);; tell (UpdateNode node (me_now env) None).

(** The [once('closed')] listener that [registerTunnel] or
    [registerProxyBridge] installed on bridge [r]. *)
Definition onBridgeClosed (env : MgrEnv) (r : Ref) : MM unit :=
  st ← get;
  match mg_listener st !! r with
  | None => skip
  | Some (node, kind) =>
      modify (upd_mg_listener (delete r));;
      if bool_decide (mg_bridges st !! node = Some r) then
        modify (upd_mg_bridges (delete node));;
        modify (upd_mg_kinds (delete node));;
        match kind with
        | pilot =>
            modify (upd_mg_confidential (delete node));;
            markPilotDown env node;;
            tell (EmitTunnelDown node)
        | proxy => tell (EmitProxyDown node)
        end
      else skip
  end.

(** An event of bridge [r]; each 'closed' it emits runs the listener. *)
Definition runBridge (env : MgrEnv) (r : Ref) (ev : tb_event) : MM unit :=
  st ← get;
  match mg_heap st !! r with
  | None => skip
  | Some b =>
      modify (upd_mg_heap (<[r := (tb_run ev b).1]>));;
      for_each (fun _ => onBridgeClosed env r) (replicate (tb_run ev b).2 tt)
  end.

Definition closeTunnel (env : MgrEnv) (node code : Z) (reason : string) : MM unit :=
  st ← get;
  match mg_bridges st !! node with
  | None => skip
  | Some r =>
      modify (upd_mg_bridges (delete node));;
      modify (upd_mg_kinds (delete node));;
      (match mg_kinds st !! node with
       | Some pilot => markPilotDown env node;; tell (EmitTunnelDown node)
       | Some proxy => tell (EmitProxyDown node)
       | None => skip
       end);;
      runBridge env r (tb_close code reason)
  end.

(** ** Registration *)

Definition noteSoftLimit : MM unit :=
  st ← get;
  if (msize (mg_bridges st) >=? PILOT_TUNNEL_SOFT_LIMIT) && negb (mg_softWarned st) then
    tell (WarnSoftLimit (msize (mg_bridges st)));; modify (upd_mg_softWarned (fun _ => true))
  else if msize (mg_bridges st) <? PILOT_TUNNEL_SOFT_LIMIT then
    modify (upd_mg_softWarned (fun _ => false))
  else skip.

(** The bridge is constructed and its listener installed. *)
Definition newBridgeFor (reg : Registration) : MM unit :=
  st ← get;
  let r := mg_nextRef st in
  modify (upd_mg_nextRef (Z.add 1));;
  modify (upd_mg_heap (<[r := tb_new]>));;
  modify (upd_mg_listener (<[r := (rg_node reg, pilot)]>));;
  modify (upd_mg_starting (<[r := reg]>)).

Definition releaseSlot (env : MgrEnv) (node : Z) : MM unit :=
  st ← get;
  match mg_bridges st !! node with
  | None => skip
  | Some existing =>
      runBridge env existing (tb_close PilotCloseCode_Replaced "replaced by newer tunnel");;
      modify (upd_mg_bridges (delete node));;
      modify (upd_mg_kinds (delete node));;
      modify (upd_mg_confidential (delete node))
  end.

(** [registerTunnel], up to [await bridge.start()]. *)
Definition registerTunnel (env : MgrEnv) (reg : Registration) : MM (option MgrError) :=
  st0 ← get;
  let replaced := bool_decide (is_Some (mg_bridges st0 !! rg_node reg)) in
  releaseSlot env (rg_node reg);;
  st ← get;
  if msize (mg_bridges st) >=? PILOT_TUNNEL_HARD_LIMIT then
    tell (Metric "tunnels_rejected_capacity");;
    mret (Some (PilotTunnelCapacityError PILOT_TUNNEL_HARD_LIMIT))
  else
    when replaced (tell (Metric "tunnels_replaced"));;
    noteSoftLimit;;
    newBridgeFor reg;;
    mret None.

(** The rest of [registerTunnel], once the loopback server of [r] listens. *)
Definition tunnelStarted (env : MgrEnv) (r : Ref) : MM (option MgrError) :=
  st ← get;
  match mg_starting st !! r with
  | None => mret None
  | Some reg =>
      let node := rg_node reg in
      modify (upd_mg_starting (delete r));;
      runBridge env r tb_start;;
      modify (upd_mg_bridges (<[node := r]>));;
      modify (upd_mg_kinds (<[node := pilot]>));;
      modify (upd_mg_confidential (<[node := rg_confidential reg]>));;
      if me_dbFails env then mret (Some DatabaseError)
      else
        tell (UpdateNodeStatus node true);;
        tell (UpdateNode node (me_now env) (Some (rg_version reg)));;
        tell (Metric "tunnels_total");;
        tell (EmitTunnelUp node);;
        mret None
  end.

(** [bridge.start()] rejects: the registration ends there. *)
Definition startFailed (r : Ref) : MM unit := modify (upd_mg_starting (delete r)).

Definition formatBridgeConflict (node : Z) (existingKind : option BridgeKind) : string :=
  match existingKind with
  | Some proxy =>
      "proxy bridge already registered for node " +:+ pretty node
        +:+ "; concurrent dial refused"
  | _ =>
      "pilot tunnel already registered for node " +:+ pretty node
        +:+ "; proxy bridge refused"
  end.

Definition registerProxyBridge (node : Z) (r : Ref) : MM (option MgrError) :=
  st ← get;
  match mg_bridges st !! node with
  | Some _ => mret (Some (BridgeConflict (formatBridgeConflict node (mg_kinds st !! node))))
  | None =>
      if msize (mg_bridges st) >=? PILOT_TUNNEL_HARD_LIMIT then
        tell (Metric "tunnels_rejected_capacity");;
        mret (Some (PilotTunnelCapacityError PILOT_TUNNEL_HARD_LIMIT))
      else
        modify (upd_mg_listener (<[r := (node, proxy)]>));;
        modify (upd_mg_bridges (<[node := r]>));;
        modify (upd_mg_kinds (<[node := proxy]>));;
        tell (Metric "proxy_bridges_total");;
        tell (EmitProxyUp node);;
        mret None
  end.

(** ** Queries *)

Definition isTunnelConfidential (st : Mgr) (node : Z) : bool :=
  bool_decide (mg_confidential st !! node = Some true).

Definition hasActiveTunnel (st : Mgr) (node : Z) : bool :=
  bool_decide (is_Some (mg_bridges st !! node)).

(** ** Events and runs *)

Inductive MgrEvent :=
  | MRegister (reg : Registration)
  | MStarted (r : Ref)
  | MStartFailed (r : Ref)
  | MDialed                                  (* the proxy dialer constructs a bridge *)
  | MRegisterProxy (node : Z) (r : Ref)
  | MBridge (r : Ref) (ev : tb_event)
  | MCloseTunnel (node code : Z) (reason : string).

Definition dialed : MM unit :=
  st ← get;
  modify (upd_mg_nextRef (Z.add 1));; modify (upd_mg_heap (<[mg_nextRef st := tb_new]>)).

Definition mgr_run (env : MgrEnv) (ev : MgrEvent) : MM unit :=
  match ev with
  | MRegister reg => registerTunnel env reg;; skip
  | MStarted r => tunnelStarted env r;; skip
  | MStartFailed r => startFailed r
  | MDialed => dialed
  | MRegisterProxy node r => registerProxyBridge node r;; skip
  | MBridge r ev => runBridge env r ev
  | MCloseTunnel node code reason => closeTunnel env node code reason
  end.

(** The dialer offers a bridge of its own, once. *)
Definition mgr_enabled (st : Mgr) (ev : MgrEvent) : Prop :=
  match ev with
  | MRegisterProxy _ r =>
      is_Some (mg_heap st !! r) /\ mg_listener st !! r = None /\ mg_starting st !! r = None
  | _ => True
  end.

Inductive mgr_step : Mgr -> Mgr -> Prop :=
  | mgr_step_intro env ev st : mgr_enabled st ev -> mgr_step st (state (mgr_run env ev) st).

Definition mgr_reachable (st : Mgr) : Prop := rtc mgr_step newManager st.

(** ** Invariant *)

Context `{TL : !TunnelBridgeLaws B}.

Record MgrInv (st : Mgr) : Prop := {
  mi_kinds : forall n, is_Some (mg_bridges st !! n) <-> is_Some (mg_kinds st !! n);
  mi_live : forall n r, mg_bridges st !! n = Some r ->
    exists b, mg_heap st !! r = Some b /\
    (tb_closed b = false -> exists k, mg_kinds st !! n = Some k /\
                                      mg_listener st !! r = Some (n, k));
  mi_start : forall r g, mg_starting st !! r = Some g ->
    exists b, mg_heap st !! r = Some b /\
    (tb_closed b = false -> mg_listener st !! r = Some (rg_node g, pilot));
  mi_fresh : forall r, mg_nextRef st <= r -> mg_heap st !! r = None;
}.

Lemma newManager_inv : MgrInv newManager.
Proof. split; simpl; intros; map_cases; try done. by rewrite !lookup_empty. Qed.

(** Bridges and kinds gain or lose a node together. *)
Lemma minv_forget node f st : MgrInv st ->
  MgrInv (upd_mg_confidential f (upd_mg_kinds (delete node) (upd_mg_bridges (delete node) st))).
Proof.
  intros [Hk Hl Hs Hf]. split; simpl; intros; eauto.
  - rewrite !lookup_delete. by case_decide.
  - map_cases. eauto.
Qed.

Lemma minv_forget_conf node st : MgrInv st ->
  MgrInv (upd_mg_kinds (delete node) (upd_mg_bridges (delete node) st)).
Proof. intros Hi. by apply (minv_forget node (fun c => c)) in Hi. Qed.

Lemma minv_unlisten r b st : mg_heap st !! r = Some b -> tb_closed b = true -> MgrInv st ->
  MgrInv (upd_mg_listener (delete r) st).
Proof.
  intros Hb Hc [Hk Hl Hs Hf]. split; simpl; eauto.
  - intros n r' Hn. destruct (Hl n r' Hn) as (b' & Hb' & Hlis). exists b'. split; [done|].
    intros Ho. destruct (decide (r = r')) as [->|]; [congruence|].
    rewrite lookup_delete_ne by done. eauto.
  - intros r' g Hg. destruct (Hs r' g Hg) as (b' & Hb' & Hlis). exists b'. split; [done|].
    intros Ho. destruct (decide (r = r')) as [->|]; [congruence|].
    rewrite lookup_delete_ne by done. eauto.
Qed.

Lemma state_markPilotDown env node st : state (markPilotDown env node) st = st.
Proof. unfold markPilotDown. by act_cases. Qed.
Hint Rewrite state_markPilotDown : act.

Definition closed_at (st : Mgr) (r : Ref) : Prop :=
  exists b, mg_heap st !! r = Some b /\ tb_closed b = true.

Lemma heap_onBridgeClosed env r st : mg_heap (state (onBridgeClosed env r) st) = mg_heap st.
Proof. unfold onBridgeClosed. act_cases; done. Qed.

Lemma minv_onBridgeClosed env r st : closed_at st r -> MgrInv st ->
  MgrInv (state (onBridgeClosed env r) st).
Proof.
  intros (b & Hb & Hc) Hi. unfold onBridgeClosed. act_cases; try done;
    try apply minv_forget; try apply minv_forget_conf; by eapply minv_unlisten.
Qed.

(** An event of a bridge: it closes and runs its listener, or not. *)
Lemma minv_runBridge env r ev st : MgrInv st -> MgrInv (state (runBridge env r ev) st).
Proof.
  intros Hi. unfold runBridge. act_run. destruct (mg_heap st !! r) as [b|] eqn:Hb; [|done].
  act_run. set (b' := (tb_run ev b).1).
  assert (Hopen : tb_closed b' = false -> tb_closed b = false).
  { intros Ho. destruct (tb_closed b) eqn:E; [|done].
    pose proof (tb_closed_stays ev b E). subst b'. congruence. }
  set (st1 := upd_mg_heap (<[r := b']>) st).
  assert (Hi1 : MgrInv st1).
  { destruct Hi as [Hk Hl Hs Hf]. subst st1. split; simpl; eauto.
    - intros n r' Hn. destruct (Hl n r' Hn) as (b0 & Hb0 & ?). map_cases; eauto.
    - intros r' g Hg. destruct (Hs r' g Hg) as (b0 & Hb0 & ?). map_cases; eauto.
    - intros r' Hr. map_cases; [|eauto]. by rewrite Hf in Hb by done. }
  pose proof (tb_emits_once ev b) as Hn. fold b' in Hn.
  destruct (tb_closed b' && negb (tb_closed b)) eqn:E; rewrite Hn; [|done].
  simpl. act_run. apply minv_onBridgeClosed; [|done].
  apply andb_true_iff in E as [E _]. exists b'. split; [apply lookup_insert_eq|done].
Qed.

Lemma minv_closeTunnel env n c s st : MgrInv st -> MgrInv (state (closeTunnel env n c s) st).
Proof.
  intros Hi. unfold closeTunnel. act_run. destruct (mg_bridges st !! n) eqn:E; [|done].
  act_run. apply minv_runBridge.
  destruct (mg_kinds st !! n) as [[]|]; act_run; by apply minv_forget_conf.
Qed.

Lemma minv_releaseSlot env n st : MgrInv st -> MgrInv (state (releaseSlot env n) st).
Proof.
  intros Hi. unfold releaseSlot. act_cases; [|done]. by apply minv_forget, minv_runBridge.
Qed.

Lemma minv_softLimit st : MgrInv st -> MgrInv (state noteSoftLimit st).
Proof. intros [Hk Hl Hs Hf]. unfold noteSoftLimit. act_cases; by split. Qed.

Lemma minv_newBridgeFor g st : MgrInv st -> MgrInv (state (newBridgeFor g) st).
Proof.
  intros [Hk Hl Hs Hf]. unfold newBridgeFor. act_run. pose proof (Hf (mg_nextRef st)) as Hnew.
  split; simpl; eauto.
  - intros n r Hn. destruct (Hl n r Hn) as (b & Hb & Hlis).
    assert (mg_nextRef st <> r) by (intros <-; rewrite Hnew in Hb; [done|lia]).
    rewrite !lookup_insert_ne by done. eauto.
  - intros r g' Hg. map_cases; [eauto|]. destruct (Hs r g') as (b & Hb & Hlis); [done|].
    eauto.
  - intros r Hr. rewrite lookup_insert_ne by lia. apply Hf. lia.
Qed.

Lemma minv_registerTunnel env g st : MgrInv st -> MgrInv (state (registerTunnel env g) st).
Proof.
  intros Hi. unfold registerTunnel. act_run.
  pose proof (minv_releaseSlot env (rg_node g) st Hi) as Hi1.
  act_cases; try done. by apply minv_newBridgeFor, minv_softLimit.
Qed.

Lemma minv_starting f st : (forall r g, f (mg_starting st) !! r = Some g ->
    mg_starting st !! r = Some g) -> MgrInv st -> MgrInv (upd_mg_starting f st).
Proof. intros H [Hk Hl Hs Hf]. split; simpl; eauto. Qed.

(** A bridge's [start] neither closes it nor emits. *)
Lemma state_runStart env r b st : mg_heap st !! r = Some b ->
  state (runBridge env r tb_start) st = upd_mg_heap (<[r := (tb_run tb_start b).1]>) st /\
  effects (runBridge env r tb_start) st = [].
Proof.
  intros Hb. pose proof (tb_emits_once tb_start b) as Hn. rewrite tb_start_keeps in Hn.
  rewrite andb_negb_r in Hn. unfold runBridge. act_run. rewrite Hb. act_run. by rewrite Hn.
Qed.

Lemma minv_tunnelStarted env r st : MgrInv st -> MgrInv (state (tunnelStarted env r) st).
Proof.
  intros Hi. unfold tunnelStarted. act_run. destruct (mg_starting st !! r) as [g|] eqn:E; [|done].
  destruct (mi_start _ Hi _ _ E) as (b & Hb & Hlis). act_run.
  assert (Hi1 : MgrInv (upd_mg_starting (delete r) st))
    by (apply minv_starting; [intros; by map_cases|done]).
  pose proof (minv_runBridge env r tb_start _ Hi1) as Hi2.
  destruct (state_runStart env r b (upd_mg_starting (delete r) st) Hb) as [Hst _].
  rewrite Hst in Hi2 |- *. pose proof (tb_start_keeps b) as Hkeep.
  destruct Hi2 as [Hk Hl Hs Hf].
  enough (MgrInv (upd_mg_confidential (<[rg_node g:=rg_confidential g]>)
    (upd_mg_kinds (<[rg_node g:=pilot]>) (upd_mg_bridges (<[rg_node g:=r]>)
      (upd_mg_heap (<[r:=(tb_run tb_start b).1]>) (upd_mg_starting (delete r) st))))))
    by (act_cases; done).
  split; simpl; eauto.
  - intros n. rewrite !lookup_insert. case_decide; [|apply Hk]. split; eauto.
  - intros n r' Hn. rewrite lookup_insert in Hn. case_decide; simplify_eq.
    + exists (tb_run tb_start b).1. rewrite !lookup_insert_eq. split; [done|].
      rewrite Hkeep. eauto.
    + rewrite (lookup_insert_ne (mg_kinds st)) by done. by apply Hl.
Qed.

Lemma minv_registerProxy node r st : is_Some (mg_heap st !! r) -> mg_listener st !! r = None ->
  mg_starting st !! r = None -> MgrInv st -> MgrInv (state (registerProxyBridge node r) st).
Proof.
  intros [b Hb] Hlr Hsr [Hk Hl Hs Hf]. unfold registerProxyBridge. act_cases; try done.
  split; simpl; eauto.
  - intros n. rewrite !lookup_insert. case_decide; [|apply Hk]. split; eauto.
  - intros n r' Hn. rewrite lookup_insert in Hn. case_decide; simplify_eq.
    + exists b. rewrite !lookup_insert_eq. eauto.
    + destruct (Hl n r' Hn) as (b' & Hb' & Hlis). exists b'. split; [done|]. intros Ho.
      destruct (Hlis Ho) as (k & ? & Hr). assert (r <> r') by congruence.
      rewrite !lookup_insert_ne by done. eauto.
  - intros r' g Hg. assert (r <> r') by congruence. rewrite lookup_insert_ne by done. eauto.
Qed.

Lemma minv_dialed st : MgrInv st -> MgrInv (state dialed st).
Proof.
  intros [Hk Hl Hs Hf]. unfold dialed. act_run. pose proof (Hf (mg_nextRef st)) as Hnew.
  split; simpl; eauto.
  - intros n r Hn. destruct (Hl n r Hn) as (b & Hb & Hlis). map_cases; eauto.
    rewrite Hnew in Hb; [done|lia].
  - intros r g Hg. destruct (Hs r g Hg) as (b & Hb & Hlis). map_cases; eauto.
    rewrite Hnew in Hb; [done|lia].
  - intros r Hr. rewrite lookup_insert_ne by lia. apply Hf. lia.
Qed.

Lemma mgr_reachable_inv st : mgr_reachable st -> MgrInv st.
Proof.
  apply rtc_invariant; [|apply newManager_inv]. intros ? ? [env ev st' He] Hi.
  destruct ev; simpl; act_run.
  - by apply minv_registerTunnel.
  - by apply minv_tunnelStarted.
  - apply minv_starting; [|done]. intros; by map_cases.
  - by apply minv_dialed.
  - destruct He as (? & ? & ?). by apply minv_registerProxy.
  - by apply minv_runBridge.
  - by apply minv_closeTunnel.
Qed.

(** C17: in every state the registry can reach: a node has a bridge exactly
    when it has a kind; and every registered bridge that is still open has the
    listener that will unregister it, for its own node and with its own kind,
    and so has every open bridge that a registration awaits. *)
Theorem manager_invariant (st : Mgr) : mgr_reachable st ->
  (forall n, is_Some (mg_bridges st !! n) <-> is_Some (mg_kinds st !! n)) /\
  (forall n r b, mg_bridges st !! n = Some r -> mg_heap st !! r = Some b ->
     tb_closed b = false ->
     exists k, mg_kinds st !! n = Some k /\ mg_listener st !! r = Some (n, k)) /\
  (forall r g b, mg_starting st !! r = Some g -> mg_heap st !! r = Some b ->
     tb_closed b = false -> mg_listener st !! r = Some (rg_node g, pilot)).
Proof.
  intros [Hk Hl Hs Hf]%mgr_reachable_inv. split_and!; [done|..].
  - intros n r b Hn Hb Ho. destruct (Hl n r Hn) as (b' & Hb' & H). simplify_eq. auto.
  - intros r g b Hg Hb Ho. destruct (Hs r g Hg) as (b' & Hb' & H). simplify_eq. auto.
Qed.

(** The calls that announce the end of a registered bridge. *)
Definition down_effects (env : MgrEnv) (node : Z) (kind : BridgeKind) : list MgrEffect :=
  match kind with
  | pilot =>
      (if me_dbFails env then [LogDbFailure node]
       else [UpdateNodeStatus node false; UpdateNode node (me_now env) None])
      ++ [EmitTunnelDown node]
  | proxy => [EmitProxyDown node]
  end.

Lemma effects_markPilotDown env node st : effects (markPilotDown env node) st =
  if me_dbFails env then [LogDbFailure node]
  else [UpdateNodeStatus node false; UpdateNode node (me_now env) None].
Proof. unfold markPilotDown. by destruct (me_dbFails env); act_run. Qed.

(** An open bridge closes: its listener runs once. *)
Lemma runBridge_closing env r ev b st : mg_heap st !! r = Some b -> tb_closed b = false ->
  tb_closed (tb_run ev b).1 = true ->
  let st1 := upd_mg_heap (<[r := (tb_run ev b).1]>) st in
  state (runBridge env r ev) st = state (onBridgeClosed env r) st1 /\
  effects (runBridge env r ev) st = effects (onBridgeClosed env r) st1.
Proof.
  intros Hb Ho Hc st1. pose proof (tb_emits_once ev b) as Hn. rewrite Hc, Ho in Hn.
  unfold runBridge. act_run. rewrite Hb. act_run. rewrite Hn. simpl. by act_run.
Qed.

(** A closed bridge emits nothing more. *)
Lemma runBridge_closed env r ev b st : mg_heap st !! r = Some b -> tb_closed b = true ->
  state (runBridge env r ev) st = upd_mg_heap (<[r := (tb_run ev b).1]>) st /\
  effects (runBridge env r ev) st = [].
Proof.
  intros Hb Hc. pose proof (tb_emits_once ev b) as Hn. rewrite Hc, andb_false_r in Hn.
  unfold runBridge. act_run. rewrite Hb. act_run. by rewrite Hn.
Qed.

Lemma onBridgeClosed_registered env r n k st : mg_listener st !! r = Some (n, k) ->
  mg_bridges st !! n = Some r ->
  let m := onBridgeClosed env r in
  mg_bridges (state m st) = delete n (mg_bridges st) /\
  mg_kinds (state m st) = delete n (mg_kinds st) /\
  mg_confidential (state m st) =
    (if decide (k = pilot) then delete n (mg_confidential st) else mg_confidential st) /\
  effects m st = down_effects env n k.
Proof.
  intros Hl Hb m. subst m. unfold onBridgeClosed. act_run. rewrite Hl. act_run.
  rewrite bool_decide_eq_true_2 by done. act_run.
  destruct k; act_run; rewrite ?effects_markPilotDown; done.
Qed.

Lemma onBridgeClosed_unregistered env r n k st : mg_listener st !! r = Some (n, k) ->
  mg_bridges st !! n <> Some r ->
  state (onBridgeClosed env r) st = upd_mg_listener (delete r) st /\
  effects (onBridgeClosed env r) st = [].
Proof.
  intros Hl Hb. unfold onBridgeClosed. act_run. rewrite Hl. act_run.
  by rewrite bool_decide_eq_false_2.
Qed.

(** Whatever event closes the open bridge of a node unregisters it and
    announces it exactly once: a pilot tunnel is marked offline and 'tunnel-down'
    follows, even when the database refuses the write; a proxy bridge emits
    'proxy-bridge-down'. Other nodes keep their bridges. *)
Theorem bridge_close_unregisters env ev n r b k st : mgr_reachable st ->
  mg_bridges st !! n = Some r -> mg_heap st !! r = Some b -> mg_kinds st !! n = Some k ->
  tb_closed b = false -> tb_closed (tb_run ev b).1 = true ->
  let m := runBridge env r ev in
  mg_bridges (state m st) = delete n (mg_bridges st) /\
  mg_kinds (state m st) = delete n (mg_kinds st) /\
  (k = pilot -> isTunnelConfidential (state m st) n = false) /\
  effects m st = down_effects env n k.
Proof.
  intros Hi%mgr_reachable_inv Hn Hb Hk Ho Hc m. subst m.
  destruct (mi_live _ Hi n r Hn) as (b' & ? & Hlis). simplify_eq.
  destruct (Hlis Ho) as (k' & ? & Hl). simplify_eq.
  destruct (runBridge_closing env r ev b st Hb Ho Hc) as [-> ->].
  destruct (onBridgeClosed_registered env r n k (upd_mg_heap (<[r := (tb_run ev b).1]>) st) Hl Hn)
    as (-> & -> & Hcf & ->). split_and!; try done.
  intros ->. unfold isTunnelConfidential. rewrite Hcf, decide_True by done.
  by rewrite lookup_delete_eq.
Qed.

(** [closeTunnel] on an open bridge has the registry and announcements of
    a natural disconnect, but leaves the node's confidential-transport flag in
    place where the natural path deletes it: [isTunnelConfidential] goes on
    answering as for the closed tunnel, even after a proxy bridge has taken the
    slot. *)
Theorem closeTunnel_keeps_confidential env n code reason r b k st : mgr_reachable st ->
  mg_bridges st !! n = Some r -> mg_heap st !! r = Some b -> mg_kinds st !! n = Some k ->
  tb_closed b = false ->
  let m := closeTunnel env n code reason in
  let natural := runBridge env r (tb_close code reason) in
  (mg_bridges (state m st) = mg_bridges (state natural st) /\
   mg_kinds (state m st) = mg_kinds (state natural st) /\ effects m st = effects natural st) /\
  (forall q, isTunnelConfidential (state (m;; registerProxyBridge n q) st) n
             = isTunnelConfidential st n) /\
  isTunnelConfidential (state m st) n = isTunnelConfidential st n.
Proof.
  intros Hi%mgr_reachable_inv Hn Hb Hk Ho m natural.
  destruct (mi_live _ Hi n r Hn) as (b' & ? & Hlis). simplify_eq.
  destruct (Hlis Ho) as (k' & ? & Hl). simplify_eq.
  pose proof (tb_close_closes code reason b) as Hc.
  destruct (runBridge_closing env r _ b st Hb Ho Hc) as [Es Ee].
  destruct (onBridgeClosed_registered env r n k
    (upd_mg_heap (<[r := (tb_run (tb_close code reason) b).1]>) st) Hl Hn) as (Eb & Ek & _ & Ef).
  set (st1 := upd_mg_kinds (delete n) (upd_mg_bridges (delete n) st)).
  assert (Hcl : state m st = state (runBridge env r (tb_close code reason)) st1 /\
    effects m st = down_effects env n k ++ effects (runBridge env r (tb_close code reason)) st1).
  { subst m. unfold closeTunnel. act_run. rewrite Hn. act_run. rewrite Hk.
    destruct k; act_run; rewrite ?effects_markPilotDown; done. }
  destruct (runBridge_closing env r (tb_close code reason) b st1 Hb Ho Hc) as [Es1 Ee1].
  destruct (onBridgeClosed_unregistered env r n k
    (upd_mg_heap (<[r := (tb_run (tb_close code reason) b).1]>) st1) Hl) as [Eu Eu'].
  { simpl. by rewrite lookup_delete_eq. }
  rewrite Eu in Es1. rewrite Eu' in Ee1. rewrite Es1, Ee1, app_nil_r in Hcl.
  destruct Hcl as [Hcs Hce]. subst natural. split_and!.
  - rewrite Hcs. simpl. by rewrite Es, Eb.
  - rewrite Hcs. simpl. by rewrite Es, Ek.
  - by rewrite Hce, Ee, Ef.
  - intros q. rewrite state_bind. rewrite Hcs. unfold registerProxyBridge. act_cases; done.
  - by rewrite Hcs.
Qed.

(** A bridge whose tunnel died while its loopback server was coming up is
    registered all the same when [start] resolves: the node is marked online
    and 'tunnel-up' emitted for a closed bridge, and no later event of that
    bridge removes it, since 'closed' has already been emitted. *)
Theorem dead_bridge_stays_registered env r g b st :
  me_dbFails env = false -> mg_starting st !! r = Some g -> mg_heap st !! r = Some b ->
  tb_closed b = true ->
  let m := tunnelStarted env r in
  mg_bridges (state m st) !! rg_node g = Some r /\
  EmitTunnelUp (rg_node g) ∈ effects m st /\ UpdateNodeStatus (rg_node g) true ∈ effects m st /\
  closed_at (state m st) r /\
  (forall env' ev, mg_bridges (state (runBridge env' r ev) (state m st))
                   = mg_bridges (state m st)).
Proof.
  intros Hdb Hg Hb Hc m.
  destruct (state_runStart env r b (upd_mg_starting (delete r) st) Hb) as [Es Ee].
  assert (Hm : state m st = upd_mg_confidential (<[rg_node g:=rg_confidential g]>)
    (upd_mg_kinds (<[rg_node g:=pilot]>) (upd_mg_bridges (<[rg_node g:=r]>)
      (upd_mg_heap (<[r:=(tb_run tb_start b).1]>) (upd_mg_starting (delete r) st)))) /\
    effects m st = [UpdateNodeStatus (rg_node g) true;
      UpdateNode (rg_node g) (me_now env) (Some (rg_version g)); Metric "tunnels_total";
      EmitTunnelUp (rg_node g)]).
  { subst m. unfold tunnelStarted. act_run. rewrite Hg. act_run. rewrite Es, Ee, Hdb. by act_run. }
  destruct Hm as [-> ->]. pose proof (tb_start_keeps b) as Hk. rewrite Hc in Hk.
  split_and!; try set_solver.
  - apply lookup_insert_eq.
  - exists (tb_run tb_start b).1. split; [apply lookup_insert_eq|done].
  - intros env' ev. destruct (runBridge_closed env' r ev (tb_run tb_start b).1
      (upd_mg_confidential (<[rg_node g:=rg_confidential g]>)
    (upd_mg_kinds (<[rg_node g:=pilot]>) (upd_mg_bridges (<[rg_node g:=r]>)
      (upd_mg_heap (<[r:=(tb_run tb_start b).1]>) (upd_mg_starting (delete r) st)))))) as [-> _];
      [apply lookup_insert_eq|done|done].
Qed.

(** An event of one bridge never unregisters another: a node keeps a
    bridge that is not the one the event is about, whatever listener that one
    carries. In particular the late 'closed' of a replaced tunnel leaves its
    successor alone. *)
Theorem stale_bridge_cannot_unregister env old r ev n st :
  mg_bridges st !! n = Some r -> r <> old ->
  mg_bridges (state (runBridge env old ev) st) !! n = Some r /\
  mg_kinds (state (runBridge env old ev) st) !! n = mg_kinds st !! n.
Proof.
  intros Hn Hne. unfold runBridge. act_run. destruct (mg_heap st !! old) as [b|]; [|done].
  act_run.
  apply (for_each_ind _ (fun st' => mg_bridges st' !! n = Some r /\
    mg_kinds st' !! n = mg_kinds st !! n)); [done|].
  intros _ st' _ [Hb Hk]. unfold onBridgeClosed. act_cases; try done;
    rewrite bool_decide_eq_true in *; map_cases; done.
Qed.

(** ** Capacity *)

Lemma bridges_noteSoftLimit st : mg_bridges (state noteSoftLimit st) = mg_bridges st.
Proof. unfold noteSoftLimit. act_cases; done. Qed.

Lemma bridges_releaseSlot env n st : MgrInv st ->
  mg_bridges (state (releaseSlot env n) st) = delete n (mg_bridges st).
Proof.
  intros Hi. unfold releaseSlot. act_run.
  destruct (mg_bridges st !! n) as [r|] eqn:Hn; [|act_run; by rewrite delete_id].
  act_run. set (ev := tb_close _ _). destruct (mi_live _ Hi n r Hn) as (b & Hb & Hl).
  destruct (tb_closed b) eqn:Hc.
  - by destruct (runBridge_closed env r ev b st Hb Hc) as [-> _].
  - destruct (Hl eq_refl) as (k & Hk & Hlr).
    destruct (runBridge_closing env r ev b st Hb Hc (tb_close_closes _ _ b)) as [-> _].
    destruct (onBridgeClosed_registered env r n k
      (upd_mg_heap (<[r := (tb_run ev b).1]>) st) Hlr Hn) as (-> & _). apply delete_delete_eq.
Qed.

(** A registration is refused exactly when the other nodes hold
    [PILOT_TUNNEL_HARD_LIMIT] bridges, so a reconnect of a registered node does
    not count against itself; the slot is released either way; and an accepted
    registration whose bridge starts before the registry changes leaves at most
    the limit. *)
Theorem register_within_capacity env env' g st : mgr_reachable st ->
  let st1 := state (registerTunnel env g) st in
  let others := delete (rg_node g) (mg_bridges st) in
  mg_bridges st1 = others /\
  result (registerTunnel env g) st =
    (if msize others >=? PILOT_TUNNEL_HARD_LIMIT
     then Some (PilotTunnelCapacityError PILOT_TUNNEL_HARD_LIMIT) else None) /\
  (result (registerTunnel env g) st = None -> forall r, mg_starting st1 !! r = Some g ->
   mg_bridges (state (tunnelStarted env' r) st1) = <[rg_node g := r]> others /\
   msize (mg_bridges (state (tunnelStarted env' r) st1)) <= PILOT_TUNNEL_HARD_LIMIT).
Proof.
  intros Hi%mgr_reachable_inv st1 others.
  assert (H1 : mg_bridges st1 = others /\ result (registerTunnel env g) st =
    (if msize others >=? PILOT_TUNNEL_HARD_LIMIT
     then Some (PilotTunnelCapacityError PILOT_TUNNEL_HARD_LIMIT) else None)).
  { subst st1 others. rewrite <-(bridges_releaseSlot env) by done.
    unfold registerTunnel. act_run. set (st0 := state (releaseSlot env (rg_node g)) st).
    destruct (msize (mg_bridges st0) >=? PILOT_TUNNEL_HARD_LIMIT); act_run; [done|].
    unfold newBridgeFor. act_run. by rewrite bridges_noteSoftLimit. }
  destruct H1 as [Hb Hr]. split_and!; [done|done|]. intros Hok r Hg.
  assert (Hi1 : MgrInv st1) by by apply minv_registerTunnel.
  destruct (mi_start _ Hi1 _ _ Hg) as (b & Hbr & _).
  destruct (state_runStart env' r b (upd_mg_starting (delete r) st1) Hbr) as [Es _].
  assert (Hs : mg_bridges (state (tunnelStarted env' r) st1) = <[rg_node g := r]> others).
  { unfold tunnelStarted. act_run. rewrite Hg. act_run. rewrite Es.
    destruct (me_dbFails env'); act_run; by rewrite Hb. }
  split; [done|]. rewrite Hs. rewrite Hr in Hok.
  destruct (msize others >=? PILOT_TUNNEL_HARD_LIMIT) eqn:E; [done|].
  pose proof (msize_insert_le others (rg_node g) r). zlia.
Qed.
End manager.

(** ** Concrete runs, over the bridge itself *)

Lemma mgr_run_reachable `{TunnelBridge B} env ev (st : Mgr (B := B)) :
  mgr_reachable st -> mgr_enabled st ev -> mgr_reachable (state (mgr_run env ev) st).
Proof. intros Hr He. eapply rtc_r; [exact Hr|]. by constructor. Qed.

Definition mgrOk (t : Z) : MgrEnv := mkMgrEnv t false.

(** Node 5 connects over a confidential transport and its bridge starts. *)
Definition one_tunnel : Mgr (B := Bridge) :=
  state (mgr_run (mgrOk 1) (MStarted 1))
    (state (mgr_run (mgrOk 0) (MRegister (mkRegistration 5 (Some "1.0") true))) newManager).

Lemma one_tunnel_reachable : mgr_reachable one_tunnel.
Proof. do 2 (apply mgr_run_reachable; [|exact I]). apply rtc_refl. Qed.

(** The bridge of [one_tunnel], open. *)
Definition started_bridge : Bridge := state start newBridge.

Lemma manager_invariant_witness :
  mg_bridges one_tunnel !! 5 = Some 1 /\
  exists k, mg_kinds one_tunnel !! 5 = Some k /\ mg_listener one_tunnel !! 1 = Some (5, k).
Proof.
  split; [vm_compute; reflexivity|].
  refine (proj1 (proj2 (manager_invariant one_tunnel one_tunnel_reachable))
    5 1 started_bridge _ _ _); vm_compute; reflexivity.
Defined.

(** The tunnel WebSocket of node 5 goes away. *)
Definition ws_gone : BrEnv * BrEvent := (mkBrEnv 9 false false 0 true, BTunnelClose).

Lemma bridge_close_unregisters_witness :
  effects (runBridge (mgrOk 9) 1 ws_gone) one_tunnel
  = [UpdateNodeStatus 5 false; UpdateNode 5 9 None; EmitTunnelDown 5].
Proof.
  refine (proj2 (proj2 (proj2 (bridge_close_unregisters (mgrOk 9) ws_gone 5 1 started_bridge pilot
    one_tunnel one_tunnel_reachable _ _ _ _ _)))); vm_compute; reflexivity.
Defined.

Lemma closeTunnel_keeps_confidential_witness :
  isTunnelConfidential one_tunnel 5 = true /\
  isTunnelConfidential (state (runBridge (mgrOk 9) 1 ws_gone) one_tunnel) 5 = false /\
  isTunnelConfidential (state (closeTunnel (mgrOk 9) 5 1000 "deleted") one_tunnel) 5 = true.
Proof.
  split; [vm_compute; reflexivity|]. split; [vm_compute; reflexivity|].
  transitivity (isTunnelConfidential one_tunnel 5); [|vm_compute; reflexivity].
  refine (proj2 (proj2 (closeTunnel_keeps_confidential (mgrOk 9) 5 1000 "deleted" 1 started_bridge
    pilot one_tunnel one_tunnel_reachable _ _ _ _))); vm_compute; reflexivity.
Defined.

(** Node 5 connects and its tunnel dies before the loopback server listens. *)
Definition died_early : Mgr (B := Bridge) :=
  state (mgr_run (mgrOk 1) (MBridge 1 ws_gone))
    (state (mgr_run (mgrOk 0) (MRegister (mkRegistration 5 None false))) newManager).

Lemma dead_bridge_stays_registered_witness :
  mgr_reachable died_early /\
  EmitTunnelUp 5 ∈ effects (tunnelStarted (mgrOk 2) 1) died_early /\
  hasActiveTunnel (state (tunnelStarted (mgrOk 2) 1) died_early) 5 = true.
Proof.
  split; [do 2 (apply mgr_run_reachable; [|exact I]); apply rtc_refl|].
  split; [|vm_compute; reflexivity].
  refine (proj1 (proj2 (dead_bridge_stays_registered (mgrOk 2) 1 (mkRegistration 5 None false)
    (state onTunnelClose newBridge) died_early _ _ _ _))); vm_compute; reflexivity.
Defined.

Lemma stale_bridge_cannot_unregister_witness :
  mg_bridges (state (runBridge (mgrOk 9) 7 ws_gone) one_tunnel) !! 5 = Some 1.
Proof.
  refine (proj1 (stale_bridge_cannot_unregister (mgrOk 9) 7 1 ws_gone 5 one_tunnel _ _));
    [vm_compute; reflexivity|discriminate].
Defined.

Lemma register_within_capacity_witness :
  result (registerTunnel (mgrOk 9) (mkRegistration 5 None true)) one_tunnel = None.
Proof.
  rewrite (proj1 (proj2 (register_within_capacity (mgrOk 9) (mgrOk 9) (mkRegistration 5 None true)
    one_tunnel one_tunnel_reachable))). vm_compute. reflexivity.
Defined.

(** [k] nodes connect before the first of their bridges has started. *)
Fixpoint storm (evs : list MgrEvent) (st : Mgr (B := Bridge)) : Mgr (B := Bridge) :=
  match evs with
  | [] => st
  | ev :: evs => storm evs (state (mgr_run (mgrOk 0) ev) st)
  end.

Definition connect_storm (k : nat) : list MgrEvent :=
  map (fun i => MRegister (mkRegistration (Z.of_nat i) None false)) (seq 1 k)
  ++ map (fun i => MStarted (Z.of_nat i)) (seq 1 k).

Lemma storm_reachable evs st : mgr_reachable st ->
  Forall (fun ev => match ev with MRegisterProxy _ _ => False | _ => True end) evs ->
  mgr_reachable (storm evs st).
Proof.
  intros Hr Hf. revert st Hr. induction Hf as [|ev evs He _ IH]; intros st Hr; [done|].
  apply IH, mgr_run_reachable; [done|]. by destruct ev.
Qed.

(** The hard limit is checked before [await bridge.start()] and not after
    it, so registrations that overlap all pass the check: 300 nodes that connect
    together are all registered, although the limit is 256. *)
Theorem capacity_exceeded_by_overlapping_starts :
  exists st : Mgr (B := Bridge), mgr_reachable st /\ msize (mg_bridges st) = 300 /\
    PILOT_TUNNEL_HARD_LIMIT < msize (mg_bridges st).
Proof.
  exists (storm (connect_storm 300) newManager). split.
  - apply storm_reachable; [apply rtc_refl|]. unfold connect_storm.
    apply Forall_app. split; by apply Forall_map, Forall_true.
  - vm_compute. done.
Qed.
