(* ===== verification/Agent.v ===== *)
(** * The pilot agent (backend/src/pilot/agent.ts)

    The remote end of a tunnel: it dials the primary, replays the primary's
    HTTP requests and WebSocket upgrades on the local Sencho server, delegates
    mesh frames to a switchboard, and manages its credential.

    Each [connect] makes a connection named by a number, with the two locals of
    that call; handlers of requests and clients name the connection they
    captured. Requests and clients are named by reference. Timers are deadlines.
    The token file is part of the state. [jwt.decode], [jwt.sign] and the close
    codes the WebSocket library accepts are parameters. *)

From S2P Require Import Prelude Interfaces Protocol Switchboard Bridge.

Definition RECONNECT_MIN_MS : Z := 1000.
Definition RECONNECT_MAX_MS : Z := 60000.
Definition LOOPBACK_TOKEN_REFRESH_SECONDS : Z := 240.
Definition ENROLL_EXP_SKEW_MS : Z := 60000.

Abbreviation Conn := Z.

Record UpgradeRejectInfo := mkReject { ri_status : Z; ri_reason : option string }.

(** [disconnectHandled] and [rejectInfo] of one [connect] call. *)
Record ConnLocals := mkLocals { cl_handled : bool; cl_reject : option UpgradeRejectInfo }.

(** The claims of a JWT that [isFreshEnrollToken] reads. *)
Record JwtPayload := mkJwt { jp_scope : option string; jp_exp : option Z }.

(** [headers[k] = v] on an object: in place, or appended. *)
Fixpoint set_header (k v : string) (hs : Headers) : Headers :=
  match hs with
  | [] => [(k, v)]
  | (k', v') :: hs => if decide (k' = k) then (k, v) :: hs else (k', v') :: set_header k v hs
  end.

Fixpoint get_header (k : string) (hs : Headers) : option string :=
  match hs with
  | [] => None
  | (k', v') :: hs => if decide (k' = k) then Some v' else get_header k hs
  end.

(** What a handler reads: the clock, which connections take frames and what a
    send throws, bytes buffered, the random jitter, the local secret and node
    id, whether the token file can be read and written, and whether
    [http.request] or [new WebSocket] throws on the frame's arguments. *)
Record AgEnv := mkAgEnv {
  ae_now : Z;
  ae_open : Conn -> bool;
  ae_sendThrows : option string;
  ae_buffered : Z;
  ae_jitter : Z;
  ae_secret : option string;
  ae_nodeId : Z;
  ae_diskReadable : bool;
  ae_diskWritable : bool;
  ae_dialThrows : bool;
}.

Inductive AgEffect :=
  | AgDial (c : Conn) (token : string)
  | AgJson (c : Conn) (f : JsonFrame)
  | AgBinary (c : Conn) (t : BinaryFrameType) (s : Z) (payload : Buffer)
  | AgWsClose (c : Conn) (code : Z) (reason : string)
  | AgTerminate (c : Conn)
  | AgStartHeartbeat (c : Conn)
  | AgStopHeartbeat
  | AgHttpRequest (r : Ref) (method path : string) (headers : Headers)
  | AgReqWrite (r : Ref) (b : Buffer)
  | AgReqEnd (r : Ref)
  | AgReqDestroy (r : Ref)
  | AgClientDial (r : Ref) (path : string) (headers : Headers)
  | AgClientText (r : Ref) (data : string)
  | AgClientBinary (r : Ref) (b : Buffer)
  | AgClientClose (r : Ref) (code : Z) (reason : option string)
  | AgSwitch (e : SbEffect)
  | AgLogDegraded (reason : option string)
  | AgLogRecovered
  | AgPersistFailed
  | AgProcessExit.

Record Agent := mkAgent {
  ag_token : string;
  ag_enrollToken : option string;            (* SENCHO_ENROLL_TOKEN *)
  ag_tunnelToken : option string;
  ag_fallbackAttempted : bool;
  ag_degradedLogged : bool;
  ag_backoff : Z;
  ag_ws : option Conn;
  ag_conns : gmap Conn ConnLocals;            (* locals of each connect() *)
  ag_nextConn : Conn;
  ag_heartbeat : bool;
  ag_reconnect : option Z;            (* deadline of the reconnect timer *)
  ag_http : gmap Z (Ref * bool);            (* httpStreams: request, cancelled *)
  ag_wsStreams : gmap Z Ref;
  ag_nextRef : Ref;
  ag_sw : option SB;            (* switchboard *)
  ag_idle : gmap Z Z;            (* idleTimers: deadline *)
  ag_shuttingDown : bool;
  ag_loopbackToken : option string;
  ag_loopbackIssuedAt : Z;
  ag_disk : option string;            (* pilot.jwt *)
  ag_exited : bool;            (* process.exit was called *)
}.

(** Field updates. *)
Definition upd_ag_token f st := mkAgent (f (ag_token st)) (ag_enrollToken st)
  (ag_tunnelToken st) (ag_fallbackAttempted st) (ag_degradedLogged st) (ag_backoff st)
  (ag_ws st) (ag_conns st) (ag_nextConn st) (ag_heartbeat st) (ag_reconnect st) (ag_http st)
  (ag_wsStreams st) (ag_nextRef st) (ag_sw st) (ag_idle st) (ag_shuttingDown st)
  (ag_loopbackToken st) (ag_loopbackIssuedAt st) (ag_disk st) (ag_exited st).
Definition upd_ag_enrollToken f st := mkAgent (ag_token st) (f (ag_enrollToken st))
  (ag_tunnelToken st) (ag_fallbackAttempted st) (ag_degradedLogged st) (ag_backoff st)
  (ag_ws st) (ag_conns st) (ag_nextConn st) (ag_heartbeat st) (ag_reconnect st) (ag_http st)
  (ag_wsStreams st) (ag_nextRef st) (ag_sw st) (ag_idle st) (ag_shuttingDown st)
  (ag_loopbackToken st) (ag_loopbackIssuedAt st) (ag_disk st) (ag_exited st).
Definition upd_ag_tunnelToken f st := mkAgent (ag_token st) (ag_enrollToken st)
  (f (ag_tunnelToken st)) (ag_fallbackAttempted st) (ag_degradedLogged st) (ag_backoff st)
  (ag_ws st) (ag_conns st) (ag_nextConn st) (ag_heartbeat st) (ag_reconnect st) (ag_http st)
  (ag_wsStreams st) (ag_nextRef st) (ag_sw st) (ag_idle st) (ag_shuttingDown st)
  (ag_loopbackToken st) (ag_loopbackIssuedAt st) (ag_disk st) (ag_exited st).
Definition upd_ag_fallbackAttempted f st := mkAgent (ag_token st) (ag_enrollToken st)
  (ag_tunnelToken st) (f (ag_fallbackAttempted st)) (ag_degradedLogged st) (ag_backoff st)
  (ag_ws st) (ag_conns st) (ag_nextConn st) (ag_heartbeat st) (ag_reconnect st) (ag_http st)
  (ag_wsStreams st) (ag_nextRef st) (ag_sw st) (ag_idle st) (ag_shuttingDown st)
  (ag_loopbackToken st) (ag_loopbackIssuedAt st) (ag_disk st) (ag_exited st).
Definition upd_ag_degradedLogged f st := mkAgent (ag_token st) (ag_enrollToken st)
  (ag_tunnelToken st) (ag_fallbackAttempted st) (f (ag_degradedLogged st)) (ag_backoff st)
  (ag_ws st) (ag_conns st) (ag_nextConn st) (ag_heartbeat st) (ag_reconnect st) (ag_http st)
  (ag_wsStreams st) (ag_nextRef st) (ag_sw st) (ag_idle st) (ag_shuttingDown st)
  (ag_loopbackToken st) (ag_loopbackIssuedAt st) (ag_disk st) (ag_exited st).
Definition upd_ag_backoff f st := mkAgent (ag_token st) (ag_enrollToken st) (ag_tunnelToken st)
  (ag_fallbackAttempted st) (ag_degradedLogged st) (f (ag_backoff st)) (ag_ws st) (ag_conns st)
  (ag_nextConn st) (ag_heartbeat st) (ag_reconnect st) (ag_http st) (ag_wsStreams st)
  (ag_nextRef st) (ag_sw st) (ag_idle st) (ag_shuttingDown st) (ag_loopbackToken st)
  (ag_loopbackIssuedAt st) (ag_disk st) (ag_exited st).
Definition upd_ag_ws f st := mkAgent (ag_token st) (ag_enrollToken st) (ag_tunnelToken st)
  (ag_fallbackAttempted st) (ag_degradedLogged st) (ag_backoff st) (f (ag_ws st)) (ag_conns st)
  (ag_nextConn st) (ag_heartbeat st) (ag_reconnect st) (ag_http st) (ag_wsStreams st)
  (ag_nextRef st) (ag_sw st) (ag_idle st) (ag_shuttingDown st) (ag_loopbackToken st)
  (ag_loopbackIssuedAt st) (ag_disk st) (ag_exited st).
Definition upd_ag_conns f st := mkAgent (ag_token st) (ag_enrollToken st) (ag_tunnelToken st)
  (ag_fallbackAttempted st) (ag_degradedLogged st) (ag_backoff st) (ag_ws st) (f (ag_conns st))
  (ag_nextConn st) (ag_heartbeat st) (ag_reconnect st) (ag_http st) (ag_wsStreams st)
  (ag_nextRef st) (ag_sw st) (ag_idle st) (ag_shuttingDown st) (ag_loopbackToken st)
  (ag_loopbackIssuedAt st) (ag_disk st) (ag_exited st).
Definition upd_ag_nextConn f st := mkAgent (ag_token st) (ag_enrollToken st) (ag_tunnelToken st)
  (ag_fallbackAttempted st) (ag_degradedLogged st) (ag_backoff st) (ag_ws st) (ag_conns st)
  (f (ag_nextConn st)) (ag_heartbeat st) (ag_reconnect st) (ag_http st) (ag_wsStreams st)
  (ag_nextRef st) (ag_sw st) (ag_idle st) (ag_shuttingDown st) (ag_loopbackToken st)
  (ag_loopbackIssuedAt st) (ag_disk st) (ag_exited st).
Definition upd_ag_heartbeat f st := mkAgent (ag_token st) (ag_enrollToken st)
  (ag_tunnelToken st) (ag_fallbackAttempted st) (ag_degradedLogged st) (ag_backoff st)
  (ag_ws st) (ag_conns st) (ag_nextConn st) (f (ag_heartbeat st)) (ag_reconnect st) (ag_http st)
  (ag_wsStreams st) (ag_nextRef st) (ag_sw st) (ag_idle st) (ag_shuttingDown st)
  (ag_loopbackToken st) (ag_loopbackIssuedAt st) (ag_disk st) (ag_exited st).
Definition upd_ag_reconnect f st := mkAgent (ag_token st) (ag_enrollToken st)
  (ag_tunnelToken st) (ag_fallbackAttempted st) (ag_degradedLogged st) (ag_backoff st)
  (ag_ws st) (ag_conns st) (ag_nextConn st) (ag_heartbeat st) (f (ag_reconnect st)) (ag_http st)
  (ag_wsStreams st) (ag_nextRef st) (ag_sw st) (ag_idle st) (ag_shuttingDown st)
  (ag_loopbackToken st) (ag_loopbackIssuedAt st) (ag_disk st) (ag_exited st).
Definition upd_ag_http f st := mkAgent (ag_token st) (ag_enrollToken st) (ag_tunnelToken st)
  (ag_fallbackAttempted st) (ag_degradedLogged st) (ag_backoff st) (ag_ws st) (ag_conns st)
  (ag_nextConn st) (ag_heartbeat st) (ag_reconnect st) (f (ag_http st)) (ag_wsStreams st)
  (ag_nextRef st) (ag_sw st) (ag_idle st) (ag_shuttingDown st) (ag_loopbackToken st)
  (ag_loopbackIssuedAt st) (ag_disk st) (ag_exited st).
Definition upd_ag_wsStreams f st := mkAgent (ag_token st) (ag_enrollToken st)
  (ag_tunnelToken st) (ag_fallbackAttempted st) (ag_degradedLogged st) (ag_backoff st)
  (ag_ws st) (ag_conns st) (ag_nextConn st) (ag_heartbeat st) (ag_reconnect st) (ag_http st)
  (f (ag_wsStreams st)) (ag_nextRef st) (ag_sw st) (ag_idle st) (ag_shuttingDown st)
  (ag_loopbackToken st) (ag_loopbackIssuedAt st) (ag_disk st) (ag_exited st).
Definition upd_ag_nextRef f st := mkAgent (ag_token st) (ag_enrollToken st) (ag_tunnelToken st)
  (ag_fallbackAttempted st) (ag_degradedLogged st) (ag_backoff st) (ag_ws st) (ag_conns st)
  (ag_nextConn st) (ag_heartbeat st) (ag_reconnect st) (ag_http st) (ag_wsStreams st)
  (f (ag_nextRef st)) (ag_sw st) (ag_idle st) (ag_shuttingDown st) (ag_loopbackToken st)
  (ag_loopbackIssuedAt st) (ag_disk st) (ag_exited st).
Definition upd_ag_sw f st := mkAgent (ag_token st) (ag_enrollToken st) (ag_tunnelToken st)
  (ag_fallbackAttempted st) (ag_degradedLogged st) (ag_backoff st) (ag_ws st) (ag_conns st)
  (ag_nextConn st) (ag_heartbeat st) (ag_reconnect st) (ag_http st) (ag_wsStreams st)
  (ag_nextRef st) (f (ag_sw st)) (ag_idle st) (ag_shuttingDown st) (ag_loopbackToken st)
  (ag_loopbackIssuedAt st) (ag_disk st) (ag_exited st).
Definition upd_ag_idle f st := mkAgent (ag_token st) (ag_enrollToken st) (ag_tunnelToken st)
  (ag_fallbackAttempted st) (ag_degradedLogged st) (ag_backoff st) (ag_ws st) (ag_conns st)
  (ag_nextConn st) (ag_heartbeat st) (ag_reconnect st) (ag_http st) (ag_wsStreams st)
  (ag_nextRef st) (ag_sw st) (f (ag_idle st)) (ag_shuttingDown st) (ag_loopbackToken st)
  (ag_loopbackIssuedAt st) (ag_disk st) (ag_exited st).
Definition upd_ag_shuttingDown f st := mkAgent (ag_token st) (ag_enrollToken st)
  (ag_tunnelToken st) (ag_fallbackAttempted st) (ag_degradedLogged st) (ag_backoff st)
  (ag_ws st) (ag_conns st) (ag_nextConn st) (ag_heartbeat st) (ag_reconnect st) (ag_http st)
  (ag_wsStreams st) (ag_nextRef st) (ag_sw st) (ag_idle st) (f (ag_shuttingDown st))
  (ag_loopbackToken st) (ag_loopbackIssuedAt st) (ag_disk st) (ag_exited st).
Definition upd_ag_loopbackToken f st := mkAgent (ag_token st) (ag_enrollToken st)
  (ag_tunnelToken st) (ag_fallbackAttempted st) (ag_degradedLogged st) (ag_backoff st)
  (ag_ws st) (ag_conns st) (ag_nextConn st) (ag_heartbeat st) (ag_reconnect st) (ag_http st)
  (ag_wsStreams st) (ag_nextRef st) (ag_sw st) (ag_idle st) (ag_shuttingDown st)
  (f (ag_loopbackToken st)) (ag_loopbackIssuedAt st) (ag_disk st) (ag_exited st).
Definition upd_ag_loopbackIssuedAt f st := mkAgent (ag_token st) (ag_enrollToken st)
  (ag_tunnelToken st) (ag_fallbackAttempted st) (ag_degradedLogged st) (ag_backoff st)
  (ag_ws st) (ag_conns st) (ag_nextConn st) (ag_heartbeat st) (ag_reconnect st) (ag_http st)
  (ag_wsStreams st) (ag_nextRef st) (ag_sw st) (ag_idle st) (ag_shuttingDown st)
  (ag_loopbackToken st) (f (ag_loopbackIssuedAt st)) (ag_disk st) (ag_exited st).
Definition upd_ag_disk f st := mkAgent (ag_token st) (ag_enrollToken st) (ag_tunnelToken st)
  (ag_fallbackAttempted st) (ag_degradedLogged st) (ag_backoff st) (ag_ws st) (ag_conns st)
  (ag_nextConn st) (ag_heartbeat st) (ag_reconnect st) (ag_http st) (ag_wsStreams st)
  (ag_nextRef st) (ag_sw st) (ag_idle st) (ag_shuttingDown st) (ag_loopbackToken st)
  (ag_loopbackIssuedAt st) (f (ag_disk st)) (ag_exited st).
Definition upd_ag_exited f st := mkAgent (ag_token st) (ag_enrollToken st) (ag_tunnelToken st)
  (ag_fallbackAttempted st) (ag_degradedLogged st) (ag_backoff st) (ag_ws st) (ag_conns st)
  (ag_nextConn st) (ag_heartbeat st) (ag_reconnect st) (ag_http st) (ag_wsStreams st)
  (ag_nextRef st) (ag_sw st) (ag_idle st) (ag_shuttingDown st) (ag_loopbackToken st)
  (ag_loopbackIssuedAt st) (ag_disk st) (f (ag_exited st)).

Abbreviation AM := (act Agent AgEffect).

(** ** Construction

    [startPilotAgent] gives the persisted token if there is one. *)
Definition newAgent (initialToken : string) (enrollToken : option string) (enrolling : bool)
    (disk : option string) : Agent :=
  mkAgent initialToken enrollToken (if enrolling then None else Some initialToken) false false
    RECONNECT_MIN_MS None ∅ 1 false None ∅ ∅ 1 None ∅ false None 0 disk false.

(** [readPersistedToken] on the token file; [None]: absent, unreadable or
    empty. The file is written without surrounding white space. *)
Definition readPersistedToken (env : AgEnv) (st : Agent) : option string :=
  if ae_diskReadable env then truthy (ag_disk st) else None.

(** The agent [startPilotAgent] starts; [None]: it exits. *)
Definition startPilotAgent (env : AgEnv) (enrollEnv disk : option string) : option Agent :=
  let persisted := if ae_diskReadable env then truthy disk else None in
  match persisted, truthy enrollEnv with
  | None, None => None
  | Some p, _ => Some (newAgent p enrollEnv false disk)
  | None, Some e => Some (newAgent e enrollEnv true disk)
  end.

Definition persistToken (env : AgEnv) (token : string) : AM unit :=
  if ae_diskWritable env then modify (upd_ag_disk (fun _ => Some token))
  else tell AgPersistFailed.

Section agent.
(** The JWT library: the claims of a token ([None] when [decode] gives null, a
    string or throws), and a token signed at a time in seconds ([None]: it
    throws). *)
Variable jwt_decode : string -> option JwtPayload.
Variable jwt_sign : string -> Z -> Z -> option string.
(** The status codes [WebSocket.close] takes; on another one it throws. *)
Variable validCloseCode : Z -> bool.
Variable loopbackPort : Z.

(** ** Credentials *)

Definition isFreshEnrollToken (token : string) (nowMs : Z) : bool :=
  match jwt_decode token with
  | None => false
  | Some p =>
      if negb (bool_decide (jp_scope p = Some "pilot_enroll")) then false
      else match jp_exp p with
           | None => false
           | Some exp => exp * 1000 >? nowMs - ENROLL_EXP_SKEW_MS
           end
  end.

(** A fresh local token; the secret is read and the token signed. *)
Definition mint (env : AgEnv) (now : Z) : AM (option string) :=
  match truthy (ae_secret env) with
  | None => mret None
  | Some secret =>
      match jwt_sign secret (ae_nodeId env) now with
      | None => mret None
      | Some t =>
          modify (upd_ag_loopbackToken (fun _ => Some t));;
          modify (upd_ag_loopbackIssuedAt (fun _ => now));;
          mret (Some ("Bearer " +:+ t))
      end
  end.

Definition getLoopbackAuthHeader (env : AgEnv) : AM (option string) :=
  st ← get;
  let now := ae_now env / 1000 in
  match truthy (ag_loopbackToken st) with
  | Some t =>
      if now - ag_loopbackIssuedAt st <? LOOPBACK_TOKEN_REFRESH_SECONDS
      then mret (Some ("Bearer " +:+ t))
      else mint env now
  | None => mint env now
  end.

Definition buildLoopbackHeaders (env : AgEnv) (frameHeaders : Headers) : AM Headers :=
  auth ← getLoopbackAuthHeader env;
  let headers := set_header "host" ("127.0.0.1:" +:+ pretty loopbackPort) frameHeaders in
  mret (match truthy auth with
        | Some a => set_header "authorization" a headers
        | None => headers
        end).

Definition logDegraded (reason : option string) : AM unit :=
  st ← get;
  if ag_degradedLogged st then skip
  else modify (upd_ag_degradedLogged (fun _ => true));; tell (AgLogDegraded reason).

Definition clearDegradedState : AM unit :=
  st ← get;
  when (ag_degradedLogged st) (tell AgLogRecovered);;
  modify (upd_ag_degradedLogged (fun _ => false)).

Definition restoreTunnelTokenAfterFailedEnroll (env : AgEnv) : AM unit :=
  st ← get;
  let restored := match ag_tunnelToken st with
                  | Some t => Some t
                  | None => readPersistedToken env st
                  end in
  (match truthy restored with
   | Some t => modify (upd_ag_token (fun _ => t))
   | None => skip
   end);;
  logDegraded None.

Definition maybeAttemptEnrollFallback (env : AgEnv) (rejectInfo : option UpgradeRejectInfo)
    : AM unit :=
  st ← get;
  if bool_decide (truthy (ag_enrollToken st) = Some (ag_token st)) && ag_fallbackAttempted st
  then restoreTunnelTokenAfterFailedEnroll env
  else match rejectInfo with
  | None => skip
  | Some info =>
      if negb ((ri_status info =? 401) || (ri_status info =? 404)) then skip
      else match truthy (ag_enrollToken st) with
      | None => logDegraded (ri_reason info)
      | Some enroll =>
          if ag_fallbackAttempted st || bool_decide (enroll = ag_token st)
             || negb (isFreshEnrollToken enroll (ae_now env))
          then logDegraded (ri_reason info)
          else
            modify (upd_ag_fallbackAttempted (fun _ => true));;
            modify (upd_ag_token (fun _ => enroll));;
            modify (upd_ag_backoff (fun _ => RECONNECT_MIN_MS))
      end
  end.

(** ** Connection *)

Definition trySend (env : AgEnv) (c : Conn) (f : JsonFrame) : AM unit :=
  when (ae_open env c && bool_decide (ae_sendThrows env = None)) (tell (AgJson c f)).

Definition trySendBinary (env : AgEnv) (c : Conn) (t : BinaryFrameType) (s : Z) (b : Buffer)
    : AM unit :=
  when (ae_open env c && bool_decide (ae_sendThrows env = None)) (tell (AgBinary c t s b)).

(** [try { client.close(code, reason) } catch { /* ignore */ }] *)
Definition closeClient (r : Ref) (code : Z) (reason : option string) : AM unit :=
  when (validCloseCode code) (tell (AgClientClose r code reason)).

Definition stopHeartbeat : AM unit :=
  st ← get;
  if ag_heartbeat st then tell AgStopHeartbeat;; modify (upd_ag_heartbeat (fun _ => false))
  else skip.

Definition shutdown : AM unit :=
  modify (upd_ag_shuttingDown (fun _ => true));;
  stopHeartbeat;;
  modify (upd_ag_reconnect (fun _ => None));;
  st ← get;
  match ag_ws st with
  | Some c => when (validCloseCode 1000) (tell (AgWsClose c 1000 "agent shutdown"))
  | None => skip
  end.

Definition connect : AM unit :=
  st ← get;
  if ag_shuttingDown st then skip
  else
    let c := ag_nextConn st in
    modify (upd_ag_nextConn (Z.add 1));;
    tell (AgDial c (ag_token st));;
    modify (upd_ag_ws (fun _ => Some c));;
    modify (upd_ag_conns (<[c := mkLocals false None]>));;
    modify (upd_ag_sw (fun _ => Some newSwitchboard)).

(** A call into the current switchboard; [None] when there is none. *)
Definition sbEnv (env : AgEnv) (st : Agent) : SbEnv :=
  mkEnv (ae_now env) (from_option (ae_open env) false (ag_ws st)) (ae_sendThrows env)
    (ae_buffered env) (msize (ag_http st) + msize (ag_wsStreams st)).

Definition inSwitchboard {A} (env : AgEnv) (m : SbEnv -> act SB SbEffect A) : AM (option A) :=
  fun st =>
    match ag_sw st with
    | None => (None, st, [])
    | Some sb =>
        let '(a, sb', es) := m (sbEnv env st) sb in
        (Some a, upd_ag_sw (fun _ => Some sb') st, map AgSwitch es)
    end.

Definition cleanupAfterDisconnect (env : AgEnv) : AM unit :=
  stopHeartbeat;;
  st ← get;
  for_each (fun e => tell (AgReqDestroy (fst e))) (map snd (map_to_list (ag_http st)));;
  modify (upd_ag_http (fun _ => ∅));;
  for_each (fun r => closeClient r 1006 (Some "tunnel closed"))
    (map snd (map_to_list (ag_wsStreams st)));;
  modify (upd_ag_wsStreams (fun _ => ∅));;
  inSwitchboard env (fun _ => cleanup "pilot tunnel closed");;
  modify (upd_ag_sw (fun _ => None));;
  modify (upd_ag_idle (fun _ => ∅)).

Definition scheduleReconnect (env : AgEnv) : AM unit :=
  st ← get;
  if ag_shuttingDown st then skip
  else
    modify (upd_ag_reconnect (fun _ => Some (ae_now env + (ag_backoff st + ae_jitter env))));;
    modify (upd_ag_backoff (fun b => Z.min (b * 2) RECONNECT_MAX_MS)).

(** The [handleDisconnect] closure of connection [c]. *)
Definition handleDisconnect (env : AgEnv) (c : Conn) : AM unit :=
  st ← get;
  match ag_conns st !! c with
  | None => skip
  | Some l =>
      if cl_handled l then skip
      else
        modify (upd_ag_conns (<[c := mkLocals true (cl_reject l)]>));;
        cleanupAfterDisconnect env;;
        maybeAttemptEnrollFallback env (cl_reject l);;
        scheduleReconnect env
  end.

Definition setReject (c : Conn) (info : UpgradeRejectInfo) : AM unit :=
  modify (upd_ag_conns (alter (fun l => mkLocals (cl_handled l) (Some info)) c)).

Definition onUnexpectedResponse (env : AgEnv) (c : Conn) (status : Z) (reason : option string)
    : AM unit :=
  setReject c (mkReject status reason);;
  tell (AgTerminate c);;
  handleDisconnect env c.

(** [ws.on('error')]; [matched] is the status the message named, 401 or 404. *)
Definition onTunnelError (c : Conn) (matched : option Z) : AM unit :=
  st ← get;
  match matched, ag_conns st !! c with
  | Some status, Some l =>
      match cl_reject l with
      | None => setReject c (mkReject status None)
      | Some _ => skip
      end
  | _, _ => skip
  end.

Definition onTunnelOpen (env : AgEnv) (agentVersion : string) (c : Conn) : AM unit :=
  trySend env c (F_hello PROTOCOL_VERSION agent (Some agentVersion));;
  tell (AgStartHeartbeat c);;
  modify (upd_ag_heartbeat (fun _ => true)).

Definition reconnectFire : AM unit := modify (upd_ag_reconnect (fun _ => None));; connect.

(** ** Streams *)

Definition streamCount (st : Agent) : Z :=
  msize (ag_http st) + msize (ag_wsStreams st) + from_option tcpStreamCount 0 (ag_sw st).

Definition refreshIdleTimer (env : AgEnv) (s : Z) : AM unit :=
  modify (upd_ag_idle (<[s := ae_now env + STREAM_IDLE_TIMEOUT_MS]>)).

Definition clearIdleTimer (s : Z) : AM unit := modify (upd_ag_idle (delete s)).

Definition trySendCurrent (env : AgEnv) (f : JsonFrame) : AM unit :=
  st ← get; match ag_ws st with Some c => trySend env c f | None => skip end.

Definition onStreamIdle (env : AgEnv) (s : Z) : AM unit :=
  clearIdleTimer s;;
  st ← get;
  match ag_http st !! s with
  | Some (r, _) =>
      tell (AgReqDestroy r);;
      modify (upd_ag_http (delete s));;
      trySendCurrent env (F_http_err s http_timeout "agent idle timeout")
  | None =>
      match ag_wsStreams st !! s with
      | Some r =>
          closeClient r 1001 (Some "idle");;
          modify (upd_ag_wsStreams (delete s));;
          trySendCurrent env (F_ws_close s 1001 (Some "idle"))
      | None => skip
      end
  end.

(** A fresh reference for a request or a client. *)
Definition newRef : AM Ref :=
  st ← get; modify (upd_ag_nextRef (Z.add 1));; mret (ag_nextRef st).

Definition onHttpReq (env : AgEnv) (s : Z) (method path : string) (headers : Headers) : AM unit :=
  st ← get;
  match ag_ws st with
  | None => skip
  | Some c =>
      if streamCount st >=? MAX_STREAMS_PER_TUNNEL then
        trySend env c (F_http_err s http_agent_error "agent stream cap reached")
      else
        hs ← buildLoopbackHeaders env headers;
        if ae_dialThrows env then skip
        else
          r ← newRef;
          tell (AgHttpRequest r method path hs);;
          modify (upd_ag_http (<[s := (r, false)]>));;
          refreshIdleTimer env s
  end.

(** The headers of the local response, as a frame carries them. *)
Definition outHeaders (headers : list (string * HeaderValue)) : Headers :=
  omap (fun '(k, v) => match v with
                       | HStr s => Some (k, s)
                       | HList vs => Some (k, join_comma vs)
                       | HNone => None
                       end) headers.

(** The response callback and the handlers it installs, for the connection [c]
    and stream id the request captured. *)
Definition onLoopbackResponse (env : AgEnv) (c : Conn) (s status : Z)
    (headers : list (string * HeaderValue)) : AM unit :=
  trySend env c (F_http_res s (if status =? 0 then 200 else status) (outHeaders headers));;
  refreshIdleTimer env s.

Definition onResData (env : AgEnv) (c : Conn) (s : Z) (chunk : Buffer) : AM unit :=
  trySendBinary env c HttpResBody s chunk;; refreshIdleTimer env s.

Definition dropHttp (s : Z) : AM unit :=
  modify (upd_ag_http (delete s));; clearIdleTimer s.

Definition onResEnd (env : AgEnv) (c : Conn) (s : Z) : AM unit :=
  trySend env c (F_http_res_end s);; dropHttp s.

Definition onResError (env : AgEnv) (c : Conn) (s : Z) : AM unit :=
  trySend env c (F_http_err s bad_response "upstream error");; dropHttp s.

Definition onReqError (env : AgEnv) (c : Conn) (s : Z) (message : string) : AM unit :=
  trySend env c (F_http_err s http_agent_error
    (if bool_decide (message = "") then "agent request failed" else message));;
  dropHttp s.

Definition onHttpReqEnd (env : AgEnv) (s : Z) : AM unit :=
  st ← get;
  match ag_http st !! s with
  | Some (r, false) => tell (AgReqEnd r);; refreshIdleTimer env s
  | _ => skip
  end.

Definition onHttpCancel (s : Z) : AM unit :=
  st ← get;
  match ag_http st !! s with
  | Some (r, false) => tell (AgReqDestroy r);; dropHttp s
  | _ => skip
  end.

Definition onWsOpen (env : AgEnv) (s : Z) (path : string) (headers : Headers) : AM unit :=
  st ← get;
  match ag_ws st with
  | None => skip
  | Some c =>
      if streamCount st >=? MAX_STREAMS_PER_TUNNEL then
        trySend env c (F_ws_reject s 503 "agent stream cap reached")
      else
        hs ← buildLoopbackHeaders env headers;
        if ae_dialThrows env then skip
        else r ← newRef; tell (AgClientDial r path hs)
  end.

(** The handlers of client [r], for the connection and id it captured. *)
Definition onClientOpen (env : AgEnv) (c : Conn) (s : Z) (r : Ref) : AM unit :=
  trySend env c (F_ws_accept s []);;
  modify (upd_ag_wsStreams (<[s := r]>));;
  refreshIdleTimer env s.

Definition onClientMessage (env : AgEnv) (c : Conn) (s : Z) (msg : Buffer + string) : AM unit :=
  (match msg with
   | inl b => trySendBinary env c WsMessageBinary s b
   | inr text => trySend env c (F_ws_msg_text s text)
   end);;
  refreshIdleTimer env s.

Definition dropWs (s : Z) : AM unit :=
  modify (upd_ag_wsStreams (delete s));; clearIdleTimer s.

Definition onClientClose (env : AgEnv) (c : Conn) (s code : Z) (reason : option string) : AM unit :=
  trySend env c (F_ws_close s code reason);; dropWs s.

Definition onClientError (env : AgEnv) (c : Conn) (s : Z) : AM unit :=
  trySend env c (F_ws_reject s 502 "agent websocket failed");; dropWs s.

Definition onWsMsgText (env : AgEnv) (s : Z) (data : string) : AM unit :=
  st ← get;
  match ag_wsStreams st !! s with
  | None => skip
  | Some r => tell (AgClientText r data);; refreshIdleTimer env s
  end.

Definition onWsClose (s code : Z) (reason : option string) : AM unit :=
  st ← get;
  match ag_wsStreams st !! s with
  | None => skip
  | Some r => closeClient r code reason;; dropWs s
  end.

Definition openMeshTcpStream (env : AgEnv) (node : Z) (stack service : string) (port : Z)
    : AM (option Ref) :=
  st ← get;
  match ag_ws st with
  | None => mret None
  | Some c =>
      if negb (ae_open env c) then mret None
      else if streamCount st >=? MAX_STREAMS_PER_TUNNEL then mret None
      else
        h ← inSwitchboard env (fun e => openReverseStream e node stack service port);
        mret (mjoin h)
  end.

(** ** Frames from the primary *)

Definition onHello (version : Z) (c : Conn) : AM unit :=
  if negb (version =? PROTOCOL_VERSION) then
    modify (upd_ag_shuttingDown (fun _ => true));;
    when (validCloseCode 1002) (tell (AgWsClose c 1002 "incompatible version"));;
    tell AgProcessExit;;
    modify (upd_ag_exited (fun _ => true))
  else
    modify (upd_ag_backoff (fun _ => RECONNECT_MIN_MS));;
    clearDegradedState.

Definition onEnrollAck (env : AgEnv) (token : string) : AM unit :=
  modify (upd_ag_token (fun _ => token));;
  modify (upd_ag_tunnelToken (fun _ => Some token));;
  modify (upd_ag_fallbackAttempted (fun _ => false));;
  persistToken env token;;
  clearDegradedState.

Definition handleJsonFrame (env : AgEnv) (frame : JsonFrame) : AM unit :=
  st ← get;
  match ag_ws st with
  | None => skip
  | Some c =>
      claimed ← inSwitchboard env (fun e => Switchboard.handleJsonFrame e frame);
      if bool_decide (claimed = Some true) then skip
      else match frame with
      | F_hello version _ _ => onHello version c
      | F_ctrl op (Some token) =>
          if bool_decide (op = enroll_ack) then onEnrollAck env token else skip
      | F_http_req s method path headers => onHttpReq env s method path headers
      | F_http_req_end s => onHttpReqEnd env s
      | F_http_cancel s => onHttpCancel s
      | F_ws_open s path headers => onWsOpen env s path headers
      | F_ws_msg_text s data => onWsMsgText env s data
      | F_ws_close s code reason => onWsClose s code reason
      | _ => skip
      end
  end.

Definition handleBinaryFrame (env : AgEnv) (frame : DecodedBinaryFrame) : AM unit :=
  claimed ← inSwitchboard env (fun e => Switchboard.handleBinaryFrame e frame);
  if bool_decide (claimed = Some true) then skip
  else
    st ← get;
    let s := df_streamId frame in
    match df_type frame with
    | HttpReqBody =>
        match ag_http st !! s with
        | Some (r, false) => tell (AgReqWrite r (df_payload frame));; refreshIdleTimer env s
        | _ => skip
        end
    | WsMessageBinary =>
        match ag_wsStreams st !! s with
        | Some r => tell (AgClientBinary r (df_payload frame));; refreshIdleTimer env s
        | None => skip
        end
    | _ => skip
    end.

(** A malformed frame is dropped; the tunnel stays. *)
Definition handleFrame (env : AgEnv) (msg : TunnelMessage) : AM unit :=
  match msg with
  | MBinary data =>
      match wsDataToBuffer data with
      | None => skip
      | Some buf =>
          match decodeBinaryFrame buf with
          | inr frame => handleBinaryFrame env frame
          | inl _ => skip
          end
      end
  | MText (Some (inr frame)) => handleJsonFrame env frame
  | MText _ => skip
  end.

(** ** Events and runs *)

Inductive AgEvent :=
  | AReconnect
  | AUnexpected (c : Conn) (status : Z) (reason : option string)
  | AError (c : Conn) (matched : option Z)
  | AOpen (c : Conn) (agentVersion : string)
  | AMessage (msg : TunnelMessage)
  | AClose (c : Conn)
  | AShutdown
  | AIdle (s : Z)
  | ALoopbackResponse (c : Conn) (s status : Z) (headers : list (string * HeaderValue))
  | AResData (c : Conn) (s : Z) (chunk : Buffer)
  | AResEnd (c : Conn) (s : Z)
  | AResError (c : Conn) (s : Z)
  | AReqError (c : Conn) (s : Z) (message : string)
  | AClientOpen (c : Conn) (s : Z) (r : Ref)
  | AClientMessage (c : Conn) (s : Z) (msg : Buffer + string)
  | AClientClose (c : Conn) (s code : Z) (reason : option string)
  | AClientError (c : Conn) (s : Z)
  | AOpenMesh (node : Z) (stack service : string) (port : Z)
  | ASwitch (ev : SbEvent).

Definition ag_run (env : AgEnv) (ev : AgEvent) : AM unit :=
  match ev with
  | AReconnect => reconnectFire
  | AUnexpected c status reason => onUnexpectedResponse env c status reason
  | AError c matched => onTunnelError c matched
  | AOpen c v => onTunnelOpen env v c
  | AMessage msg => handleFrame env msg
  | AClose c => handleDisconnect env c
  | AShutdown => shutdown
  | AIdle s => onStreamIdle env s
  | ALoopbackResponse c s status headers => onLoopbackResponse env c s status headers
  | AResData c s chunk => onResData env c s chunk
  | AResEnd c s => onResEnd env c s
  | AResError c s => onResError env c s
  | AReqError c s message => onReqError env c s message
  | AClientOpen c s r => onClientOpen env c s r
  | AClientMessage c s msg => onClientMessage env c s msg
  | AClientClose c s code reason => onClientClose env c s code reason
  | AClientError c s => onClientError env c s
  | AOpenMesh node stack service port => openMeshTcpStream env node stack service port;; skip
  | ASwitch ev => inSwitchboard env (fun e => Switchboard.run_event e ev);; skip
  end.

(** Timers fire when due; the jitter is what [Math.floor(Math.random() * 500)]
    can give; nothing happens after the process exits. *)
Definition ag_enabled (env : AgEnv) (st : Agent) (ev : AgEvent) : Prop :=
  ag_exited st = false /\ 0 <= ae_jitter env < 500 /\
  match ev with
  | AReconnect => exists d, ag_reconnect st = Some d /\ d <= ae_now env
  | AIdle s => exists d, ag_idle st !! s = Some d /\ d <= ae_now env
  | ASwitch ev => forall sb, ag_sw st = Some sb -> Switchboard.enabled (sbEnv env st) sb ev
  | _ => True
  end.

Inductive ag_step : Agent -> Agent -> Prop :=
  | ag_step_intro env ev st : ag_enabled env st ev -> ag_step st (state (ag_run env ev) st).

(** Started by [startPilotAgent], which connects at once. *)
Definition ag_reachable (st : Agent) : Prop :=
  exists env enrollEnv disk st0, startPilotAgent env enrollEnv disk = Some st0 /\
    rtc ag_step (state connect st0) st.

(** ** Credential and reconnect invariant *)

(** The part of the state the credential machine reads and writes. *)
Definition cred (st : Agent) :=
  (ag_token st, ag_enrollToken st, ag_tunnelToken st, ag_fallbackAttempted st, ag_disk st).
Definition link (st : Agent) :=
  (ag_ws st, ag_conns st, ag_nextConn st, ag_reconnect st, ag_shuttingDown st, ag_exited st,
   ag_backoff st).

(** Stream handlers leave both alone. *)
Definition keeps {A} (m : AM A) : Prop :=
  forall st, cred (state m st) = cred st /\ link (state m st) = link st.

Lemma keeps_bind {A C} (m : AM A) (k : A -> AM C) :
  keeps m -> (forall a, keeps (k a)) -> keeps (m ≫= k).
Proof.
  intros Hm Hk st. rewrite state_bind. destruct (Hm st) as [<- <-]. apply Hk.
Qed.
Lemma keeps_get : keeps get.
Proof. done. Qed.
Lemma keeps_skip : keeps skip.
Proof. done. Qed.
Lemma keeps_ret {A} (a : A) : keeps (mret a).
Proof. done. Qed.
Lemma keeps_tell e : keeps (tell e).
Proof. done. Qed.
Lemma keeps_modify f : (forall st, cred (f st) = cred st /\ link (f st) = link st) ->
  keeps (modify f).
Proof. intros H st. apply H. Qed.
Lemma keeps_when b m : keeps m -> keeps (when b m).
Proof. by destruct b. Qed.
Lemma keeps_for_each {A} (f : A -> AM unit) l : (forall x, keeps (f x)) -> keeps (for_each f l).
Proof. intros Hf. induction l; simpl; [done|]. by apply keeps_bind. Qed.
Lemma keeps_inSwitchboard {A} env (m : SbEnv -> act SB SbEffect A) : keeps (inSwitchboard env m).
Proof.
  intros st. unfold state, inSwitchboard. destruct (ag_sw st) as [sb|]; [|done].
  by destruct (m (sbEnv env st) sb) as [[a sb'] es].
Qed.

Create HintDb keeps discriminated.
#[local] Hint Constants Opaque : keeps.
#[local] Hint Resolve keeps_get keeps_skip keeps_ret keeps_tell keeps_when
  keeps_inSwitchboard : keeps.
#[local] Hint Extern 1 (keeps (modify _)) => apply keeps_modify; intros; split; reflexivity : keeps.

Ltac keeps :=
  repeat first
    [ progress intros
    | solve [auto with keeps]
    | apply keeps_bind | apply keeps_for_each | apply keeps_when
    | match goal with |- keeps (match ?x with _ => _ end) => destruct x end ].

Lemma keeps_trySend env c f : keeps (trySend env c f).
Proof. unfold trySend. keeps. Qed.
Lemma keeps_trySendBinary env c t s b : keeps (trySendBinary env c t s b).
Proof. unfold trySendBinary. keeps. Qed.
Lemma keeps_closeClient r c o : keeps (closeClient r c o).
Proof. unfold closeClient. keeps. Qed.
Lemma keeps_refresh env s : keeps (refreshIdleTimer env s).
Proof. unfold refreshIdleTimer. keeps. Qed.
Lemma keeps_clear s : keeps (clearIdleTimer s).
Proof. unfold clearIdleTimer. keeps. Qed.
Lemma keeps_stopHeartbeat : keeps stopHeartbeat.
Proof. unfold stopHeartbeat. keeps. Qed.
Lemma keeps_newRef : keeps newRef.
Proof. unfold newRef. keeps. Qed.
Lemma keeps_mint env n : keeps (mint env n).
Proof. unfold mint. keeps. Qed.
Lemma keeps_logDegraded r : keeps (logDegraded r).
Proof. unfold logDegraded. keeps. Qed.
Lemma keeps_clearDegraded : keeps clearDegradedState.
Proof. unfold clearDegradedState. keeps. Qed.
#[local] Hint Resolve keeps_trySend keeps_trySendBinary keeps_closeClient keeps_refresh
  keeps_clear keeps_stopHeartbeat keeps_newRef keeps_mint keeps_logDegraded
  keeps_clearDegraded : keeps.

Lemma keeps_trySendCurrent env f : keeps (trySendCurrent env f).
Proof. unfold trySendCurrent. keeps. Qed.
Lemma keeps_auth env : keeps (getLoopbackAuthHeader env).
Proof. unfold getLoopbackAuthHeader. keeps. Qed.
Lemma keeps_dropHttp s : keeps (dropHttp s).
Proof. unfold dropHttp. keeps. Qed.
Lemma keeps_dropWs s : keeps (dropWs s).
Proof. unfold dropWs. keeps. Qed.
Lemma keeps_cleanup env : keeps (cleanupAfterDisconnect env).
Proof. unfold cleanupAfterDisconnect. keeps. Qed.
#[local] Hint Resolve keeps_trySendCurrent keeps_auth keeps_dropHttp keeps_dropWs
  keeps_cleanup : keeps.
Lemma keeps_headers env hs : keeps (buildLoopbackHeaders env hs).
Proof. unfold buildLoopbackHeaders. keeps. Qed.
#[local] Hint Resolve keeps_headers : keeps.

Lemma keeps_handleBinaryFrame env f : keeps (handleBinaryFrame env f).
Proof. unfold handleBinaryFrame. keeps. Qed.
#[local] Hint Resolve keeps_handleBinaryFrame : keeps.

(** Every event but these six is a stream handler. *)
Definition stream_event (ev : AgEvent) : Prop :=
  match ev with
  | AReconnect | AUnexpected _ _ _ | AError _ _ | AClose _ | AShutdown => False
  | AMessage (MText (Some (inr (F_hello _ _ _)))) => False
  | AMessage (MText (Some (inr (F_ctrl _ _)))) => False
  | _ => True
  end.

Lemma keeps_stream_event env ev : stream_event ev -> keeps (ag_run env ev).
Proof.
  destruct ev as [| | | |msg| | | | | | | | | | | | | |]; simpl; intros H; try done;
    unfold onTunnelOpen, onStreamIdle, onLoopbackResponse, onResData, onResEnd, onResError,
      onReqError, onClientOpen, onClientMessage, onClientClose, onClientError,
      openMeshTcpStream; try solve [keeps].
  unfold handleFrame. destruct msg as [d|[[e|f]|]]; try solve [keeps].
  unfold handleJsonFrame, onHttpReq, onHttpReqEnd, onHttpCancel, onWsOpen, onWsMsgText, onWsClose.
  destruct f; try done; keeps.
Qed.

Record AgInv (st : Agent) : Prop := {
  ai_tunnel : forall t, ag_tunnelToken st = Some t ->
    ag_token st = t \/
    truthy (ag_enrollToken st) = Some (ag_token st) /\ ag_fallbackAttempted st = true;
  ai_first : ag_tunnelToken st = None ->
    truthy (ag_enrollToken st) = Some (ag_token st) /\ ag_fallbackAttempted st = false;
  ai_backoff : RECONNECT_MIN_MS <= ag_backoff st <= RECONNECT_MAX_MS;
  ai_single : forall c l, ag_conns st !! c = Some l -> cl_handled l = false ->
    ag_ws st = Some c /\ ag_reconnect st = None;
  ai_fresh : forall c, ag_nextConn st <= c -> ag_conns st !! c = None;
  ai_stopped : ag_shuttingDown st = true -> ag_exited st = true \/ ag_reconnect st = None;
}.

Lemma ainv_keeps st st' : cred st' = cred st -> link st' = link st -> AgInv st -> AgInv st'.
Proof.
  intros [= Ht He Htt Hf Hd] [= Hw Hc Hn Hr Hs Hx Hb] [I1 I2 I3 I4 I5 I6].
  split; rewrite ?Ht, ?He, ?Htt, ?Hf, ?Hw, ?Hc, ?Hn, ?Hr, ?Hs, ?Hx, ?Hb; done.
Qed.

Lemma ainv_keeps_run {A} (m : AM A) st : keeps m -> AgInv st -> AgInv (state m st).
Proof. intros Hk. destruct (Hk st). by apply ainv_keeps. Qed.

(** The restored credential is the tunnel token: a fallback was attempted, so
    there is one. *)
Lemma ainv_restore env st : ag_fallbackAttempted st = true -> AgInv st ->
  AgInv (state (restoreTunnelTokenAfterFailedEnroll env) st).
Proof.
  intros Hat Hi. unfold restoreTunnelTokenAfterFailedEnroll.
  rewrite state_bind, result_get, state_get, state_bind.
  apply ainv_keeps_run; [apply keeps_logDegraded|].
  destruct (ag_tunnelToken st) as [t|] eqn:Ht.
  - destruct (truthy (Some t)) as [t'|] eqn:E; act_run; [|done].
    assert (t' = t) as -> by (destruct t; by simplify_eq/=).
    destruct Hi as [I1 I2 I3 I4 I5 I6]. split; simpl; eauto; rewrite Ht; naive_solver.
  - destruct (ai_first _ Hi Ht). congruence.
Qed.

Lemma ainv_fallback env info st : AgInv st ->
  AgInv (state (maybeAttemptEnrollFallback env info) st).
Proof.
  intros Hi. unfold maybeAttemptEnrollFallback. rewrite state_bind, result_get, state_get.
  destruct (bool_decide (truthy (ag_enrollToken st) = Some (ag_token st)) &&
    ag_fallbackAttempted st) eqn:E1.
  { apply andb_true_iff in E1 as [_ ?]. by apply ainv_restore. }
  destruct info as [info|]; [|done].
  destruct (negb (_ || _)); [done|].
  destruct (truthy (ag_enrollToken st)) as [e|] eqn:He;
    [|apply ainv_keeps_run; [apply keeps_logDegraded|done]].
  destruct (ag_fallbackAttempted st || _ || _) eqn:E2;
    [apply ainv_keeps_run; [apply keeps_logDegraded|done]|].
  apply orb_false_iff in E2 as [[Hat Hne]%orb_false_iff _].
  rewrite bool_decide_eq_false in Hne. act_run.
  destruct Hi as [I1 I2 I3 I4 I5 I6]. split; simpl; eauto; try done.
  intros Ht. destruct (I2 Ht) as [? _]. congruence.
Qed.

(** Once the current connection is handled, a reconnect may be scheduled. *)
Definition all_handled (st : Agent) : Prop :=
  forall c l, ag_conns st !! c = Some l -> cl_handled l = true.

Lemma ainv_schedule env st : all_handled st -> AgInv st ->
  AgInv (state (scheduleReconnect env) st).
Proof.
  intros Hall Hi. unfold scheduleReconnect. act_run.
  destruct (ag_shuttingDown st) eqn:Hs; [done|]. act_run. destruct Hi as [I1 I2 I3 I4 I5 I6].
  split; simpl; eauto; unfold RECONNECT_MIN_MS, RECONNECT_MAX_MS in *; try lia.
  - intros c l Hc Hl. apply Hall in Hc. congruence.
  - congruence.
Qed.

Lemma conns_fallback env info st :
  ag_conns (state (maybeAttemptEnrollFallback env info) st) = ag_conns st.
Proof.
  unfold maybeAttemptEnrollFallback, restoreTunnelTokenAfterFailedEnroll, logDegraded.
  act_cases; done.
Qed.

Lemma ainv_handleDisconnect env c st : AgInv st -> AgInv (state (handleDisconnect env c) st).
Proof.
  intros Hi. unfold handleDisconnect. rewrite state_bind, result_get, state_get.
  destruct (ag_conns st !! c) as [l|] eqn:Hc; [|done]. destruct (cl_handled l) eqn:Hl; [done|].
  rewrite !state_bind, state_modify.
  set (st1 := upd_ag_conns (<[c := mkLocals true (cl_reject l)]>) st).
  assert (Hi1 : AgInv st1 /\ all_handled st1).
  { destruct Hi as [I1 I2 I3 I4 I5 I6]. split; [split|]; simpl; eauto.
    - intros c' l' H Hl'. map_cases. eauto.
    - intros c' H. rewrite lookup_insert_ne; [eauto|]. intros ->. rewrite I5 in Hc; done.
    - intros c' l' H. simpl in H. map_cases; [done|].
      destruct (cl_handled l') eqn:Hl'; [done|].
      destruct (I4 _ _ Hc Hl), (I4 _ _ H Hl'). congruence. }
  destruct Hi1 as [Hi1 Hall].
  destruct (keeps_cleanup env st1) as [Kc Kl].
  apply ainv_schedule; [|by apply ainv_fallback, (ainv_keeps st1)].
  intros c' l'. rewrite conns_fallback. injection Kl as _ -> _ _ _ _ _. apply Hall.
Qed.

Lemma ainv_setReject c info st : AgInv st -> AgInv (state (setReject c info) st).
Proof.
  intros [I1 I2 I3 I4 I5 I6]. unfold setReject. act_run. split; simpl; eauto.
  - intros c' l H Hl. map_cases; eauto.
  - intros c' H. apply lookup_alter_None. by apply I5.
Qed.

Lemma ainv_connect st : ag_reconnect st = None -> all_handled st -> AgInv st ->
  AgInv (state connect st).
Proof.
  intros Hr Hall Hi. unfold connect. act_run.
  destruct (ag_shuttingDown st) eqn:Hs; [done|]. act_run. destruct Hi as [I1 I2 I3 I4 I5 I6]. split; simpl; eauto.
  - intros c l H Hl. map_cases; [done|]. apply Hall in H. congruence.
  - intros c H. rewrite lookup_insert_ne by lia. apply I5. lia.
Qed.

Lemma ainv_ctrl env f st :
  (exists v r a, f = F_hello v r a) \/ (exists o p, f = F_ctrl o p) ->
  AgInv st -> AgInv (state (handleJsonFrame env f) st).
Proof.
  intros Hf Hi. unfold handleJsonFrame. rewrite state_bind, result_get, state_get.
  destruct (ag_ws st) as [c|]; [|done]. rewrite state_bind.
  set (m := inSwitchboard env _).
  assert (Hi1 : AgInv (state m st)) by (apply ainv_keeps_run; [apply keeps_inSwitchboard|done]).
  destruct (bool_decide (result m st = Some true)); [done|]. clearbody m.
  destruct Hf as [(v & r & a & ->)|(o & p & ->)].
  - unfold onHello. destruct (negb (v =? PROTOCOL_VERSION)).
    + act_run. destruct Hi1 as [I1 I2 I3 I4 I5 I6]. split; simpl; eauto.
    + rewrite state_bind. apply ainv_keeps_run; [apply keeps_clearDegraded|]. act_run.
      destruct Hi1 as [I1 I2 I3 I4 I5 I6].
      split; simpl; eauto; unfold RECONNECT_MIN_MS, RECONNECT_MAX_MS in *; lia.
  - destruct p as [token|]; [|done]. case_bool_decide; [|done].
    unfold onEnrollAck. rewrite !state_bind.
    apply ainv_keeps_run; [apply keeps_clearDegraded|]. unfold persistToken.
    destruct Hi1 as [I1 I2 I3 I4 I5 I6].
    destruct (ae_diskWritable env); act_run; split; simpl; eauto; naive_solver.
Qed.

Lemma ainv_shutdown st : AgInv st -> AgInv (state shutdown st).
Proof.
  intros [I1 I2 I3 I4 I5 I6]. unfold shutdown. rewrite !state_bind, state_modify.
  set (st1 := state stopHeartbeat (upd_ag_shuttingDown (fun _ => true) st)).
  assert (Hi : AgInv (upd_ag_reconnect (fun _ => None) st1)).
  { subst st1. unfold stopHeartbeat. act_run.
    destruct (ag_heartbeat st) eqn:E; act_run; split; simpl; eauto;
      intros c l Hc Hl; by destruct (I4 c l Hc Hl). }
  rewrite result_get, state_get, state_modify. fold st1.
  destruct (ag_ws (upd_ag_reconnect _ st1)); [|exact Hi]. apply ainv_keeps_run; [keeps|done].
Qed.

Lemma stream_event_dec ev : stream_event ev \/ ~ stream_event ev.
Proof.
  destruct ev as [| | | |[d|[[e|[]]|]]| | | | | | | | | | | | | |]; simpl; tauto.
Qed.

Lemma ainv_run env ev st : ag_enabled env st ev -> AgInv st -> AgInv (state (ag_run env ev) st).
Proof.
  intros (_ & _ & He) Hi.
  destruct (stream_event_dec ev) as [Hs|Hs];
    [by apply ainv_keeps_run; [apply keeps_stream_event|]|].
  destruct ev as [| | | |msg| | | | | | | | | | | | | |]; simpl in Hs; try done; simpl.
  - destruct He as (d & Hd & _). unfold reconnectFire. rewrite state_bind, state_modify.
    assert (Hall : all_handled st).
    { intros c l Hc. destruct (cl_handled l) eqn:E; [done|].
      destruct (ai_single _ Hi c l Hc E). congruence. }
    destruct Hi as [I1 I2 I3 I4 I5 I6].
    apply ainv_connect; [done|done|]. split; simpl; eauto.
    intros c l Hc Hl. by destruct (I4 c l Hc Hl).
  - unfold onUnexpectedResponse. rewrite !state_bind, state_tell.
    by apply ainv_handleDisconnect, ainv_setReject.
  - unfold onTunnelError. act_cases; try done. by apply ainv_setReject.
  - destruct msg as [d|[[e|f]|]]; try done.
    apply ainv_ctrl; [|done]. destruct f; naive_solver.
  - by apply ainv_handleDisconnect.
  - by apply ainv_shutdown.
Qed.

Lemma ainv_start env e d st0 : startPilotAgent env e d = Some st0 ->
  AgInv (state connect st0).
Proof.
  unfold startPilotAgent. intros H.
  assert (Hi : AgInv st0 /\ ag_conns st0 = ∅ /\ ag_reconnect st0 = None).
  { destruct (if ae_diskReadable env then truthy d else None) as [p|],
      (truthy e) as [e'|] eqn:He; simplify_eq; (split; [split|done]); simpl; intros;
      simplify_eq; map_cases; try done; eauto; unfold RECONNECT_MIN_MS, RECONNECT_MAX_MS; lia. }
  destruct Hi as (Hi & Hc & Hr). apply ainv_connect; [done| |done].
  intros c l Hl. rewrite Hc in Hl. map_cases.
Qed.

Lemma ag_reachable_inv st : ag_reachable st -> AgInv st.
Proof.
  intros (env & e & d & st0 & Hst & Hrtc). apply ainv_start in Hst.
  revert Hst Hrtc. apply (rtc_invariant ag_step AgInv).
  intros ? ? [env' ev st' He]. by apply ainv_run.
Qed.

(** C16: in every state the agent can reach: it dials with its last tunnel
    credential, except during the one attempt with the enrollment token, and
    before the first enrollment with that token; the reconnect backoff is
    between its bounds; at most one connection is live, and never while a
    reconnect is scheduled, so one disconnect leads to one redial; and after a
    shutdown nothing reconnects. *)
Theorem agent_invariant (st : Agent) : ag_reachable st ->
  (forall t, ag_tunnelToken st = Some t ->
     ag_token st = t \/
     truthy (ag_enrollToken st) = Some (ag_token st) /\ ag_fallbackAttempted st = true) /\
  (ag_tunnelToken st = None ->
     truthy (ag_enrollToken st) = Some (ag_token st) /\ ag_fallbackAttempted st = false) /\
  RECONNECT_MIN_MS <= ag_backoff st <= RECONNECT_MAX_MS /\
  (forall c l, ag_conns st !! c = Some l -> cl_handled l = false ->
     ag_ws st = Some c /\ ag_reconnect st = None) /\
  (ag_shuttingDown st = true -> ag_exited st = true \/ ag_reconnect st = None).
Proof. intros []%ag_reachable_inv. split_and!; try done; apply ai_backoff0. Qed.

(** ** Enrollment fallback *)

Section fallback.
Context (env : AgEnv) (st : Agent) (t e : string).
Hypothesis Htunnel : ag_tunnelToken st = Some t.
Hypothesis Henroll : truthy (ag_enrollToken st) = Some e.
Hypothesis Hdiff : e <> t.
Hypothesis Hne : t <> "".

Lemma state_logDegraded r st' : exists b, state (logDegraded r) st' =
  upd_ag_degradedLogged (fun _ => b) st'.
Proof.
  unfold logDegraded. act_run. destruct (ag_degradedLogged st') eqn:E; act_run; eauto.
  exists true. by destruct st'; simplify_eq/=.
Qed.

(** A second failure puts the tunnel credential back. *)
Lemma fallback_restores info : ag_token st = e -> ag_fallbackAttempted st = true ->
  cred (state (maybeAttemptEnrollFallback env info) st) =
  (t, ag_enrollToken st, Some t, true, ag_disk st).
Proof.
  intros Hk Ha. unfold maybeAttemptEnrollFallback. rewrite state_bind, result_get, state_get.
  rewrite Henroll, Hk, Ha, bool_decide_eq_true_2 by done. simpl.
  unfold restoreTunnelTokenAfterFailedEnroll. rewrite state_bind, result_get, state_get.
  rewrite Htunnel. replace (truthy (Some t)) with (Some t) by (by destruct t).
  rewrite state_bind, state_modify.
  destruct (state_logDegraded None (upd_ag_token (fun _ => t) st)) as [b ->].
  unfold cred; simpl. by rewrite Htunnel, Ha.
Qed.

(** After that no reject starts another attempt. *)
Lemma fallback_spent info : ag_token st = t -> ag_fallbackAttempted st = true ->
  cred (state (maybeAttemptEnrollFallback env info) st) = cred st.
Proof.
  intros Hk Ha. unfold maybeAttemptEnrollFallback. rewrite state_bind, result_get, state_get.
  rewrite Henroll, Hk, Ha, bool_decide_eq_false_2 by (by intros [= ->]). simpl.
  destruct info as [info|]; [|done]. destruct (negb _); [done|].
  by destruct (state_logDegraded (ri_reason info) st) as [b ->].
Qed.
End fallback.

(** Successive disconnects, with what each upgrade was rejected with. *)
Fixpoint rejections (evs : list (AgEnv * option UpgradeRejectInfo)) : AM unit :=
  match evs with
  | [] => skip
  | (env, info) :: evs => maybeAttemptEnrollFallback env info;; rejections evs
  end.

Lemma rejections_spent evs st t e : ag_tunnelToken st = Some t ->
  truthy (ag_enrollToken st) = Some e -> e <> t ->
  ag_token st = t -> ag_fallbackAttempted st = true ->
  cred (state (rejections evs) st) = cred st.
Proof.
  revert st. induction evs as [|[env info] evs IH]; intros st Ht He Hd Hk Ha; [done|].
  simpl. rewrite state_bind.
  pose proof (fallback_spent env st t e He Hd info Hk Ha) as E.
  injection E as E1 E2 E3 E4 E5.
  rewrite IH by congruence. unfold cred. congruence.
Qed.

(** when the primary rejects the tunnel credential with 401 or 404 and a
    fresh enrollment token is configured, the agent dials with that token once:
    if that dial fails too, for whatever reason, the tunnel credential is back,
    and stays through any further sequence of rejections. The tunnel credential
    and the token file are untouched throughout. *)
Theorem enroll_fallback_once env0 status reason env1 info1 evs st t e :
  ag_tunnelToken st = Some t -> ag_token st = t -> t <> "" ->
  truthy (ag_enrollToken st) = Some e -> e <> t -> ag_fallbackAttempted st = false ->
  isFreshEnrollToken e (ae_now env0) = true -> status = 401 \/ status = 404 ->
  let st1 := state (maybeAttemptEnrollFallback env0 (Some (mkReject status reason))) st in
  let st2 := state (rejections ((env1, info1) :: evs)) st1 in
  ag_token st1 = e /\ ag_backoff st1 = RECONNECT_MIN_MS /\
  ag_token st2 = t /\
  (ag_tunnelToken st1, ag_disk st1) = (Some t, ag_disk st) /\
  (ag_tunnelToken st2, ag_disk st2) = (Some t, ag_disk st).
Proof.
  intros Ht Hk Hne He Hd Ha Hf Hs st1 st2.
  assert (H1 : st1 = upd_ag_backoff (fun _ => RECONNECT_MIN_MS)
    (upd_ag_token (fun _ => e) (upd_ag_fallbackAttempted (fun _ => true) st))).
  { subst st1. unfold maybeAttemptEnrollFallback. rewrite state_bind, result_get, state_get.
    rewrite He, Hk, Ha, Hf. rewrite !bool_decide_eq_false_2 by (by intros [= ->]). simpl.
    by destruct Hs as [->| ->]; simpl; act_run. }
  assert (C1 : ag_tunnelToken st1 = Some t /\ truthy (ag_enrollToken st1) = Some e /\
    ag_token st1 = e /\ ag_fallbackAttempted st1 = true /\ ag_disk st1 = ag_disk st)
    by (rewrite H1; by repeat split).
  destruct C1 as (Ct & Ce & Ck & Ca & Cd).
  pose proof (fallback_restores env1 st1 t e Ct Ce Hd Hne info1 Ck Ca) as E.
  subst st2. simpl. rewrite state_bind. set (st2 := state _ st1) in *.
  injection E as E1 E2 E3 E4 E5.
  pose proof (rejections_spent evs st2 t e E3 ltac:(congruence) Hd E1 E4) as R.
  injection R as R1 R2 R3 R4 R5.
  split_and!; [done|by rewrite H1|congruence|congruence|congruence].
Qed.

(** ** Reconnect schedule *)

Fixpoint failures (envs : list AgEnv) : AM unit :=
  match envs with [] => skip | env :: envs => scheduleReconnect env;; failures envs end.

Lemma backoff_failures envs st : ag_shuttingDown st = false ->
  RECONNECT_MIN_MS <= ag_backoff st ->
  ag_shuttingDown (state (failures envs) st) = false /\
  Z.min (ag_backoff (state (failures envs) st)) RECONNECT_MAX_MS =
  Z.min (ag_backoff st * 2 ^ Z.of_nat (length envs)) RECONNECT_MAX_MS.
Proof.
  revert st. induction envs as [|env envs IH]; intros st Hs Hb.
  { split; [done|]. cbn [length]. change (2 ^ Z.of_nat 0) with 1. by rewrite Z.mul_1_r. }
  cbn [failures]. rewrite state_bind. unfold scheduleReconnect. act_run. rewrite Hs. act_run.
  unfold RECONNECT_MIN_MS, RECONNECT_MAX_MS in *. destruct (IH (upd_ag_backoff
    (fun b => Z.min (b * 2) 60000) (upd_ag_reconnect
    (fun _ => Some (ae_now env + (ag_backoff st + ae_jitter env))) st)) Hs) as [H1 H2].
  { simpl. lia. }
  split; [done|]. rewrite H2. simpl ag_backoff.
  replace (Z.of_nat (S (length envs))) with (1 + Z.of_nat (length envs)) by lia.
  rewrite Z.pow_add_r by lia. change (2 ^ 1) with 2.
  pose proof (Z.pow_pos_nonneg 2 (Z.of_nat (length envs)) ltac:(lia) ltac:(lia)). nia.
Qed.

(** After [n] disconnects without a clean handshake the next redial is due
    [min(1000 * 2^n, 60000)] milliseconds later, plus a jitter under half a
    second: the wait doubles up to the cap and never exceeds it by more. *)
Theorem reconnect_backoff_doubles envs env st : ag_shuttingDown st = false ->
  ag_backoff st = RECONNECT_MIN_MS -> 0 <= ae_jitter env < 500 ->
  let wait := Z.min (RECONNECT_MIN_MS * 2 ^ Z.of_nat (length envs)) RECONNECT_MAX_MS in
  exists d, ag_reconnect (state (failures envs;; scheduleReconnect env) st) = Some d /\
    wait <= d - ae_now env < wait + 500.
Proof.
  intros Hs Hb Hj wait. rewrite state_bind.
  destruct (backoff_failures envs st Hs ltac:(lia)) as [H1 H2]. rewrite Hb in H2.
  set (st1 := state (failures envs) st) in *.
  assert (Hle : ag_backoff st1 <= RECONNECT_MAX_MS).
  { subst st1. clear - Hb. assert (ag_backoff st <= RECONNECT_MAX_MS) by (rewrite Hb; done).
    clear Hb. revert st H. induction envs as [|env envs IH]; intros st H; [done|].
    cbn [failures]. rewrite state_bind. apply IH. unfold scheduleReconnect. act_run.
    destruct (ag_shuttingDown st); act_run; [done|lia]. }
  unfold scheduleReconnect. act_run. rewrite H1. act_run. eexists. split; [done|]. subst wait. lia.
Qed.

(** ** Disconnects *)

(** Calls that close a loopback client. *)
Definition is_client_close (e : AgEffect) : bool :=
  match e with AgClientClose _ _ _ => true | _ => false end.

Definition closes_none (effs : list AgEffect) : Prop := List.existsb is_client_close effs = false.

Lemma closes_none_app l1 l2 : closes_none l1 -> closes_none l2 -> closes_none (l1 ++ l2).
Proof. unfold closes_none. rewrite existsb_app. by intros -> ->. Qed.

Lemma closes_none_map {A} (f : A -> AgEffect) l : (forall x, is_client_close (f x) = false) ->
  closes_none (map f l).
Proof. intros Hf. induction l; simpl; [done|]. unfold closes_none; simpl. by rewrite Hf. Qed.

Lemma closes_none_not effs r code reason : closes_none effs -> AgClientClose r code reason ∉ effs.
Proof.
  unfold closes_none. intros H [l1 [l2 ->]]%list_elem_of_split.
  rewrite existsb_app in H. simpl in H. by destruct (existsb _ l1).
Qed.

Lemma closes_none_fallback env info st :
  closes_none (effects (maybeAttemptEnrollFallback env info) st).
Proof.
  unfold maybeAttemptEnrollFallback, restoreTunnelTokenAfterFailedEnroll, logDegraded.
  act_cases; done.
Qed.

Lemma effects_inSwitchboard {A} env (m : SbEnv -> act SB SbEffect A) sb st : ag_sw st = Some sb ->
  effects (inSwitchboard env m) st = map AgSwitch (effects (m (sbEnv env st)) sb).
Proof.
  intros H. unfold effects, inSwitchboard. rewrite H. by destruct (m (sbEnv env st) sb) as [[]].
Qed.

Lemma closes_none_inSwitchboard {A} env (m : SbEnv -> act SB SbEffect A) st :
  closes_none (effects (inSwitchboard env m) st).
Proof.
  unfold effects, inSwitchboard. destruct (ag_sw st) as [sb|]; [|done].
  destruct (m (sbEnv env st) sb) as [[]]. by apply closes_none_map.
Qed.

Lemma state_inSwitchboard_rest {A} env (m : SbEnv -> act SB SbEffect A) st :
  exists sw, state (inSwitchboard env m) st = upd_ag_sw (fun _ => sw) st.
Proof.
  unfold state, inSwitchboard. destruct (ag_sw st) as [sb|] eqn:E.
  - destruct (m (sbEnv env st) sb) as [[a sb'] es]. eauto.
  - exists None. destruct st; by simplify_eq/=.
Qed.

Lemma for_each_closeClient code reason l st :
  state (for_each (fun r => closeClient r code reason) l) st = st /\
  effects (for_each (fun r => closeClient r code reason) l) st =
    if validCloseCode code then map (fun r => AgClientClose r code reason) l else [].
Proof.
  split; [apply state_for_each_when_tell|]. unfold closeClient.
  destruct (validCloseCode code); simpl; [apply effects_for_each_tell|].
  induction l as [|r l IH]; simpl; [done|]. by rewrite effects_bind.
Qed.

(** What [cleanupAfterDisconnect] does, call by call, and what it leaves. *)
Lemma cleanup_effects env st : exists e0,
  effects (cleanupAfterDisconnect env) st = e0 ++
    map AgReqDestroy (map fst (map snd (map_to_list (ag_http st)))) ++
    (if validCloseCode 1006
     then map (fun r => AgClientClose r 1006 (Some "tunnel closed"))
            (map snd (map_to_list (ag_wsStreams st)))
     else []) ++
    match ag_sw st with
    | Some sb => map AgSwitch (effects (cleanup "pilot tunnel closed") sb)
    | None => []
    end /\ closes_none e0.
Proof.
  assert (Hsw : forall st', ag_sw st' = ag_sw st ->
    effects (inSwitchboard env (fun _ => cleanup "pilot tunnel closed")) st' =
    match ag_sw st with
    | Some sb => map AgSwitch (effects (cleanup "pilot tunnel closed") sb)
    | None => []
    end).
  { intros st' E. destruct (ag_sw st) as [sb|].
    - by rewrite (effects_inSwitchboard _ _ sb).
    - unfold effects, inSwitchboard. by rewrite E. }
  unfold cleanupAfterDisconnect, stopHeartbeat.
  exists (if ag_heartbeat st then [AgStopHeartbeat] else []).
  destruct (ag_heartbeat st) eqn:E; (split; [|done]); act_run; rewrite E; act_run;
    match goal with |- context [effects (for_each (fun r => closeClient r ?c ?o) ?l) ?s] =>
      destruct (for_each_closeClient c o l s) as [-> ->] end;
    by rewrite Hsw, !map_map by done.
Qed.

Lemma cleanup_state env st :
  let st' := state (cleanupAfterDisconnect env) st in
  ag_http st' = ∅ /\ ag_wsStreams st' = ∅ /\ ag_idle st' = ∅ /\ ag_sw st' = None /\
  ag_heartbeat st' = false.
Proof.
  unfold cleanupAfterDisconnect, stopHeartbeat.
  destruct (ag_heartbeat st) eqn:E; act_run; rewrite E; act_run;
    match goal with |- context [state (for_each (fun r => closeClient r ?c ?o) ?l) ?s] =>
      destruct (for_each_closeClient c o l s) as [-> _] end;
    match goal with |- context [state (inSwitchboard env ?m) ?s] =>
      destruct (state_inSwitchboard_rest env m s) as [sw ->] end; done.
Qed.

(** The streams of the agent, and what keeps them. *)
Definition streams (st : Agent) :=
  (ag_http st, ag_wsStreams st, ag_idle st, ag_sw st, ag_heartbeat st).

Lemma streams_fallback env info st :
  streams (state (maybeAttemptEnrollFallback env info) st) = streams st.
Proof.
  unfold maybeAttemptEnrollFallback, restoreTunnelTokenAfterFailedEnroll, logDegraded.
  act_cases; done.
Qed.

(** The disconnect of a live connection leaves no HTTP or WebSocket stream,
    no idle timer, no switchboard and no heartbeat; every request in flight is
    destroyed and the switchboard cleaned up. The loopback WebSockets are asked
    to close with code 1006: if the WebSocket library refuses that reserved
    code, as it does, none of them is closed although all are forgotten. *)
Theorem disconnect_releases env c l st :
  ag_conns st !! c = Some l -> cl_handled l = false ->
  let st' := state (handleDisconnect env c) st in
  let effs := effects (handleDisconnect env c) st in
  streams st' = (∅, ∅, ∅, None, false) /\
  (forall s r b, ag_http st !! s = Some (r, b) -> AgReqDestroy r ∈ effs) /\
  (forall sb e, ag_sw st = Some sb -> e ∈ effects (cleanup "pilot tunnel closed") sb ->
     AgSwitch e ∈ effs) /\
  (forall s r, ag_wsStreams st !! s = Some r ->
     AgClientClose r 1006 (Some "tunnel closed") ∈ effs <-> validCloseCode 1006 = true) /\
  (validCloseCode 1006 = false -> closes_none effs).
Proof.
  intros Hc Hl st' effs.
  set (st1 := upd_ag_conns (<[c := mkLocals true (cl_reject l)]>) st).
  set (st2 := state (cleanupAfterDisconnect env) st1).
  set (st3 := state (maybeAttemptEnrollFallback env (cl_reject l)) st2).
  assert (H : st' = state (scheduleReconnect env) st3 /\
    effs = effects (cleanupAfterDisconnect env) st1 ++
           effects (maybeAttemptEnrollFallback env (cl_reject l)) st2 ++
           effects (scheduleReconnect env) st3).
  { subst st' effs st3 st2 st1. unfold handleDisconnect. rewrite state_bind, effects_bind.
    rewrite result_get, state_get, effects_get, Hc, Hl.
    by rewrite !state_bind, !effects_bind, state_modify, effects_modify. }
  destruct H as [-> ->].
  assert (Hsched : streams (state (scheduleReconnect env) st3) = streams st3 /\
    effects (scheduleReconnect env) st3 = []).
  { unfold scheduleReconnect. act_run. by destruct (ag_shuttingDown st3); act_run. }
  destruct Hsched as [-> ->]. rewrite app_nil_r.
  pose proof (closes_none_fallback env (cl_reject l) st2) as Hfb.
  destruct (cleanup_effects env st1) as (e0 & -> & He0).
  split_and!.
  - subst st3. rewrite streams_fallback. unfold streams, st2.
    by destruct (cleanup_state env st1) as (-> & -> & -> & -> & ->).
  - intros s r b Hs. rewrite !elem_of_app. left. right. left. rewrite !list_elem_of_fmap.
    exists r. split; [done|]. rewrite list_elem_of_fmap. exists (r, b). split; [done|].
    apply list_elem_of_fmap. exists (s, (r, b)). by rewrite elem_of_map_to_list.
  - intros sb e Hsb He. rewrite !elem_of_app. left. do 3 right. simpl. rewrite Hsb.
    apply list_elem_of_fmap. eauto.
  - intros s r Hs. split; intros H.
    + destruct (validCloseCode 1006); [done|]. exfalso. revert H. apply closes_none_not.
      repeat apply closes_none_app; try done; [by apply closes_none_map|].
      destruct (ag_sw st1); [by apply closes_none_map|done].
    + rewrite H, !elem_of_app. left. do 2 right. left. apply list_elem_of_fmap. exists r.
      split; [done|]. apply list_elem_of_fmap. exists (s, r). by rewrite elem_of_map_to_list.
  - intros Hv. rewrite Hv. repeat apply closes_none_app; try done; [by apply closes_none_map|].
    destruct (ag_sw st1); [by apply closes_none_map|done].
Qed.

(** A loopback client of an earlier connection outlives it, and its
    handlers act on the stream ids of the current one: when it closes, the
    stream that now has its id is forgotten with its idle timer, its own client
    is not closed, and neither side is told, since the frame goes to the old
    connection. *)
Theorem stale_client_close_drops_stream env c s r code reason st :
  ae_open env c = false -> ag_wsStreams st !! s = Some r ->
  let m := ag_run env (AClientClose c s code reason) in
  ag_wsStreams (state m st) !! s = None /\ ag_idle (state m st) !! s = None /\
  effects m st = [].
Proof.
  intros Ho Hs m. subst m. simpl. unfold onClientClose, dropWs, clearIdleTimer, trySend.
  rewrite Ho. act_run. by rewrite !lookup_delete_eq.
Qed.

(** ** What the primary tells the agent on idle expiry *)

(** When a loopback request has been idle for [STREAM_IDLE_TIMEOUT_MS] the
    bridge releases it and sends the agent one [http_err]; the agent has no case
    for that frame: it changes nothing, and the request stays in its map and
    goes on running until the agent's own idle timer. *)
Theorem idle_http_err_is_ignored benv (bst : Bridge) s br hw env st r :
  stream_at bst s = Some (br, SHttp hw) -> ag_http st !! s = Some (r, false) ->
  let f := F_http_err s http_timeout "stream idle timeout" in
  (forall f', TunnelJson f' ∈ effects (Bridge.onStreamIdle benv s) bst -> f' = f) /\
  br_streams (state (Bridge.onStreamIdle benv s) bst) !! s = None /\
  effects (handleJsonFrame env f) st = [] /\
  ag_http (state (handleJsonFrame env f) st) !! s = Some (r, false).
Proof.
  intros Hb Hs f. split_and!.
  - intros f'. unfold Bridge.onStreamIdle. rewrite effects_bind, result_get, Hb, !effects_bind.
    rewrite effects_get, !effects_modify. simpl. unfold sendJson.
    destruct hw; act_run; destruct (_ && _); set_solver.
  - unfold Bridge.onStreamIdle. rewrite state_bind, result_get, state_get, Hb.
    rewrite !state_bind, state_teardown, !state_modify, state_sendJson. simpl.
    by rewrite lookup_delete_eq.
  - unfold handleJsonFrame. act_run. destruct (ag_ws st) as [c|]; [|done]. act_run.
    unfold effects, result, state, inSwitchboard. destruct (ag_sw st) as [sb|]; done.
  - unfold handleJsonFrame. act_run. destruct (ag_ws st) as [c|]; [|done]. act_run.
    unfold result, state, inSwitchboard. destruct (ag_sw st) as [sb|]; done.
Qed.

(** ** Loopback authentication *)

Lemma get_set_header k v k' hs :
  get_header k' (set_header k v hs) = if decide (k' = k) then Some v else get_header k' hs.
Proof.
  induction hs as [|[k0 v0] hs IH]; simpl; [repeat case_decide; congruence|].
  repeat (case_decide; simplify_eq/=); try done; rewrite ?IH; repeat case_decide; congruence.
Qed.

Definition LOOPBACK_TOKEN_TTL_SECONDS : Z := 300.

(** The token handed out is the one kept, and not older than its refresh age. *)
Lemma auth_fresh env st a : result (getLoopbackAuthHeader env) st = Some a ->
  let st' := state (getLoopbackAuthHeader env) st in
  exists t, ag_loopbackToken st' = Some t /\ a = "Bearer " +:+ t /\
    ae_now env / 1000 - ag_loopbackIssuedAt st' < LOOPBACK_TOKEN_REFRESH_SECONDS.
Proof.
  assert (Hmint : forall st, result (mint env (ae_now env / 1000)) st = Some a ->
    let st' := state (mint env (ae_now env / 1000)) st in
    exists t, ag_loopbackToken st' = Some t /\ a = "Bearer " +:+ t /\
      ae_now env / 1000 - ag_loopbackIssuedAt st' < LOOPBACK_TOKEN_REFRESH_SECONDS).
  { intros st0. unfold mint. destruct (truthy (ae_secret env)); [|done].
    destruct (jwt_sign _ _ _); [|done]. act_run. intros [= <-]. eexists. split_and!; [done..|].
    unfold LOOPBACK_TOKEN_REFRESH_SECONDS. lia. }
  unfold getLoopbackAuthHeader. rewrite result_bind, state_bind, result_get, state_get.
  destruct (truthy (ag_loopbackToken st)) as [t|] eqn:Et; [|apply Hmint].
  destruct (_ <? _) eqn:E; [|apply Hmint]. intros [= <-]. exists t. split_and!; [|done|].
  - rewrite state_ret. by destruct (ag_loopbackToken st) as [[]|]; simplify_eq/=.
  - by apply Z.ltb_lt.
Qed.

(** A request replayed on the local server carries the local host and,
    whenever a local token can be had, that token in [authorization], whatever
    the frame had there; the token is younger than its refresh age, hence within
    its lifetime; every other header is the frame's. *)
Theorem loopback_headers_local env hs st :
  let headers := result (buildLoopbackHeaders env hs) st in
  let st' := state (buildLoopbackHeaders env hs) st in
  get_header "host" headers = Some ("127.0.0.1:" +:+ pretty loopbackPort) /\
  (forall a, result (getLoopbackAuthHeader env) st = Some a ->
     exists t, a = "Bearer " +:+ t /\ get_header "authorization" headers = Some a /\
       ag_loopbackToken st' = Some t /\
       ae_now env / 1000 - ag_loopbackIssuedAt st' < LOOPBACK_TOKEN_TTL_SECONDS) /\
  (forall k, k <> "host" -> k <> "authorization" -> get_header k headers = get_header k hs).
Proof.
  intros headers st'.
  assert (Hr : headers = match truthy (result (getLoopbackAuthHeader env) st) with
    | Some a => set_header "authorization" a
        (set_header "host" ("127.0.0.1:" +:+ pretty loopbackPort) hs)
    | None => set_header "host" ("127.0.0.1:" +:+ pretty loopbackPort) hs end)
    by (subst headers; unfold buildLoopbackHeaders; act_run; done).
  assert (Hs : st' = state (getLoopbackAuthHeader env) st)
    by (subst st'; unfold buildLoopbackHeaders; by act_run).
  rewrite Hr, Hs. clear Hr Hs headers st'. split_and!.
  - destruct (truthy _); rewrite ?get_set_header; done.
  - intros a Ha. destruct (auth_fresh env st a Ha) as (t & Ht & -> & Hage). exists t.
    rewrite Ha. split; [done|]. split; [|split; [done|]].
    + replace (truthy (Some ("Bearer " +:+ t))) with (Some ("Bearer " +:+ t)) by done.
      by rewrite get_set_header.
    + unfold LOOPBACK_TOKEN_REFRESH_SECONDS, LOOPBACK_TOKEN_TTL_SECONDS in *. lia.
  - intros k H1 H2. destruct (truthy _); rewrite !get_set_header, ?decide_False by done; done.
Qed.

(** ** The stream cap *)

(** At the cap a request or an upgrade is refused: nothing is dialled, no
    stream added, and the primary is told. *)
Theorem stream_cap_refuses env c s method path hs st :
  ag_ws st = Some c -> MAX_STREAMS_PER_TUNNEL <= streamCount st ->
  onHttpReq env s method path hs st =
    trySend env c (F_http_err s http_agent_error "agent stream cap reached") st /\
  onWsOpen env s path hs st = trySend env c (F_ws_reject s 503 "agent stream cap reached") st.
Proof.
  intros Hw Hc. unfold onHttpReq, onWsOpen, mbind, act_bind, get. rewrite Hw.
  assert ((streamCount st >=? MAX_STREAMS_PER_TUNNEL) = true) as ->
    by (rewrite Z.geb_leb; apply Z.leb_le, Hc).
  unfold trySend, when. by destruct (_ && _).
Qed.
End agent.

(** ** Concrete runs *)

(** Parameters for the examples: one enrollment token, a signer, and the close
    codes of RFC 6455 that an endpoint may send. *)
Definition ex_decode (t : string) : option JwtPayload :=
  if decide (t = "enroll") then Some (mkJwt (Some "pilot_enroll") (Some 1000)) else None.
Definition ex_sign (secret : string) (node now : Z) : option string := Some "local".
Definition ex_codes (code : Z) : bool :=
  ((1000 <=? code) && (code <=? 1014)
    && negb (bool_decide (code ∈ ([1004; 1005; 1006] : list Z))))
  || ((3000 <=? code) && (code <=? 4999)).

Abbreviation ex_run := (ag_run ex_decode ex_sign ex_codes 1852).

(** At time [t], with only connection [c] taking frames. *)
Definition at_conn (t : Z) (c : Conn) : AgEnv :=
  mkAgEnv t (fun c' => bool_decide (c' = c)) None 0 0 None 1 true true false.

Fixpoint ex_runs (evs : list (AgEnv * AgEvent)) (st : Agent) : Agent :=
  match evs with
  | [] => st
  | (env, ev) :: evs => ex_runs evs (state (ex_run env ev) st)
  end.

(** An agent enrolled before, dialling its first connection. *)
Definition enrolled : Agent :=
  state connect (newAgent "tunnel" (Some "enroll") false (Some "tunnel")).

Lemma enrolled_reachable : ag_reachable ex_decode ex_sign ex_codes 1852 enrolled.
Proof. exists (at_conn 0 1), (Some "enroll"), (Some "tunnel"). eexists. by split. Qed.

Definition frame (f : JsonFrame) : AgEvent := AMessage (MText (Some (inr f))).

(** A loopback upgrade of stream 1 on connection 1. *)
Definition one_client : Agent :=
  ex_runs [(at_conn 1 1, AOpen 1 "1.0"); (at_conn 2 1, frame (F_ws_open 1 "/ws" []));
           (at_conn 3 1, AClientOpen 1 1 1)] enrolled.

Lemma agent_invariant_witness :
  ag_backoff enrolled = 1000 /\ RECONNECT_MIN_MS <= ag_backoff enrolled <= RECONNECT_MAX_MS.
Proof.
  split; [reflexivity|].
  exact (proj1 (proj2 (proj2
    (agent_invariant ex_decode ex_sign ex_codes 1852 enrolled enrolled_reachable)))).
Defined.

Lemma enroll_fallback_once_witness :
  let m := maybeAttemptEnrollFallback ex_decode (at_conn 5 1) (Some (mkReject 401 None)) in
  ag_token (state m enrolled) = "enroll" /\
  ag_token (state (rejections ex_decode [(at_conn 9 1, None); (at_conn 12 1, None)])
              (state m enrolled)) = "tunnel".
Proof.
  pose proof (enroll_fallback_once ex_decode (at_conn 5 1) 401 None (at_conn 9 1) None
    [(at_conn 12 1, None)] enrolled "tunnel" "enroll") as H.
  destruct H as (H1 & _ & H2 & _); [reflexivity|reflexivity|discriminate|reflexivity|discriminate
    |reflexivity|reflexivity|by left|].
  split; [exact H1|exact H2].
Defined.

Lemma reconnect_backoff_doubles_witness :
  exists d, ag_reconnect (state (failures [at_conn 0 1; at_conn 0 1; at_conn 0 1];;
    scheduleReconnect (at_conn 7 1)) enrolled) = Some d /\ 8000 <= d - 7 < 8500.
Proof.
  apply (reconnect_backoff_doubles [at_conn 0 1; at_conn 0 1; at_conn 0 1] (at_conn 7 1) enrolled);
    [reflexivity|reflexivity|simpl; lia].
Defined.

(** Connection 1 drops: its client is forgotten and not closed. *)
Lemma disconnect_releases_witness :
  ag_wsStreams one_client !! 1 = Some 1 /\
  closes_none (effects (handleDisconnect ex_decode ex_codes (at_conn 5 0) 1) one_client).
Proof.
  split; [vm_compute; reflexivity|].
  refine (proj2 (proj2 (proj2 (proj2 (disconnect_releases ex_decode ex_codes (at_conn 5 0) 1
    (mkLocals false None) one_client _ _)))) _); vm_compute; reflexivity.
Defined.

(** Connection 2 has its own stream 1; then the client of connection 1 closes. *)
Definition second_connection : Agent :=
  ex_runs [(at_conn 5 0, AClose 1); (at_conn 2000 0, AReconnect); (at_conn 2001 2, AOpen 2 "1.0");
           (at_conn 2002 2, frame (F_ws_open 1 "/ws" [])); (at_conn 2003 2, AClientOpen 2 1 2)]
    one_client.

Lemma stale_client_close_drops_stream_witness :
  ag_wsStreams second_connection !! 1 = Some 2 /\
  effects (ex_run (at_conn 2004 2) (AClientClose 1 1 1006 None)) second_connection = [] /\
  ag_wsStreams (state (ex_run (at_conn 2004 2) (AClientClose 1 1 1006 None)) second_connection)
    !! 1 = None.
Proof.
  split; [vm_compute; reflexivity|].
  destruct (stale_client_close_drops_stream ex_decode ex_sign ex_codes 1852 (at_conn 2004 2) 1 1 2
    1006 None second_connection) as (H1 & _ & H2); [reflexivity|vm_compute; reflexivity|].
  split; [exact H2|exact H1].
Defined.

(** A request of the primary, in flight on the agent. *)
Definition one_request : Agent :=
  ex_runs [(at_conn 1 1, AOpen 1 "1.0"); (at_conn 2 1, frame (F_http_req 1 "GET" "/" []))] enrolled.

Lemma idle_http_err_is_ignored_witness :
  let bst := state (Bridge.run_event (quiet_at 0) (BRequest "GET" "/" [])) newBridge in
  ag_http (state (handleJsonFrame ex_sign ex_codes 1852 (at_conn 600000 1)
    (F_http_err 1 http_timeout "stream idle timeout")) one_request) !! 1 = Some (1, false) /\
  br_streams (state (Bridge.onStreamIdle (quiet_at 600000) 1) bst) !! 1 = None.
Proof.
  destruct (idle_http_err_is_ignored ex_sign ex_codes 1852 (quiet_at 600000)
    (state (Bridge.run_event (quiet_at 0) (BRequest "GET" "/" [])) newBridge) 1 1 false
    (at_conn 600000 1) one_request 1) as (_ & H1 & _ & H2);
    [vm_compute; reflexivity|vm_compute; reflexivity|].
  split; [exact H2|exact H1].
Defined.

(** ** The cap on WebSocket streams *)

(** Events that are always possible. *)
Definition free_event (ev : AgEvent) : Prop :=
  stream_event ev /\ match ev with AIdle _ | ASwitch _ => False | _ => True end.

Lemma ex_runs_reachable evs st : ag_exited st = false ->
  ag_reachable ex_decode ex_sign ex_codes 1852 st ->
  Forall (fun x => free_event (snd x) /\ ae_jitter (fst x) = 0) evs ->
  ag_reachable ex_decode ex_sign ex_codes 1852 (ex_runs evs st).
Proof.
  intros Hx Hr Hf. revert st Hx Hr. induction Hf as [|[env ev] evs [[Hs Ht] Hj] _ IH];
    intros st Hx Hr; [done|]. simpl in *. apply IH.
  - destruct (keeps_stream_event ex_decode ex_sign ex_codes 1852 env ev Hs st) as [_ E].
    injection E as _ _ _ _ _ E _. congruence.
  - destruct Hr as (env0 & e & d & st0 & Hst & Hrtc). exists env0, e, d, st0. split; [done|].
    eapply rtc_r; [exact Hrtc|]. constructor. split; [done|]. split; [lia|]. by destruct ev.
Qed.

(** [n] upgrades arrive before the first of them has connected. *)
Definition upgrade_burst (n : nat) : list (AgEnv * AgEvent) :=
  map (fun i => (at_conn 1 1, frame (F_ws_open (Z.of_nat i) "/ws" []))) (seq 1 n)
  ++ map (fun i => (at_conn 2 1, AClientOpen 1 (Z.of_nat i) (Z.of_nat i))) (seq 1 n).

(** The agent's cap is checked when an upgrade arrives, but the stream is
    counted only once its client has connected: 1,100 upgrades that arrive
    together are all accepted, although the cap is 1,024. *)
Theorem ws_cap_exceeded_by_connecting_clients :
  exists st, ag_reachable ex_decode ex_sign ex_codes 1852 st /\ streamCount st = 1100 /\
    MAX_STREAMS_PER_TUNNEL < streamCount st.
Proof.
  exists (ex_runs (upgrade_burst 1100) enrolled). split.
  - apply ex_runs_reachable; [done|apply enrolled_reachable|]. unfold upgrade_burst.
    apply Forall_app. split; apply Forall_map, Forall_true; intros i; by repeat split.
  - vm_compute. done.
Qed.

(** An agent at its cap. *)
Lemma stream_cap_refuses_witness :
  let st := ex_runs (upgrade_burst 1024) enrolled in
  MAX_STREAMS_PER_TUNNEL <= streamCount st /\
  effects (onHttpReq ex_sign 1852 (at_conn 3 1) 2000 "GET" "/" []) st =
    [AgJson 1 (F_http_err 2000 http_agent_error "agent stream cap reached")].
Proof.
  split; [vm_compute; discriminate|]. unfold effects.
  rewrite (proj1 (stream_cap_refuses ex_sign 1852 (at_conn 3 1) 1 2000 "GET" "/" []
    (ex_runs (upgrade_burst 1024) enrolled) ltac:(vm_compute; reflexivity)
    ltac:(vm_compute; discriminate))). reflexivity.
Defined.
