(* ===== verification/StackLock.v ===== *)
(** * Stack operation locks (backend/src/services/StackOpLockService.ts)

    The in-memory lock per (node, stack) that keeps two lifecycle operations of
    one stack apart. The map is keyed by the string [node:stack] as in the code.
    Whether a stack is fenced by a staged restore, and the deletion intents, are
    durable records of other services: each call reads them from its
    environment. [runExclusive] is split at the [await] of the operation it
    runs, and the operations in progress are part of the state. *)

From Stdlib Require Import Ascii.
From S2P Require Import Prelude.

Inductive StackOpAction :=
  | A_deploy | A_down | A_restart | A_stop | A_start | A_update | A_rollback | A_backup
  | A_delete | A_git_apply | A_image_pull | A_data_restore.

#[export] Instance StackOpAction_eq_dec : EqDecision StackOpAction.
Proof. solve_decision. Defined.

Definition StackOpAction_str (a : StackOpAction) : string :=
  match a with
  | A_deploy => "deploy" | A_down => "down" | A_restart => "restart" | A_stop => "stop"
  | A_start => "start" | A_update => "update" | A_rollback => "rollback"
  | A_backup => "backup" | A_delete => "delete" | A_git_apply => "git_apply"
  | A_image_pull => "image_pull" | A_data_restore => "data_restore"
  end.

Definition stackOpSkipMessage (stackName : string) (existingAction : StackOpAction) : string :=
  "Skipped " +:+ dquote +:+ stackName +:+ dquote +:+ ": another operation (" +:+ StackOpAction_str existingAction
    +:+ ") is already in progress.".

Record StackOpLockContext := mkContext { lc_opId : option string; lc_kind : option string }.

Record StackOpLock := mkLock {
  lk_action : StackOpAction;
  lk_startedAt : Z;
  lk_user : string;
  lk_context : option StackOpLockContext;
}.

Inductive AcquireResult := Acquired | Conflict (existing : StackOpLock).

Inductive IntentStatus := prepared | settled.

Record DeletionIntent := mkIntent { di_status : IntentStatus; di_node : Z; di_stack : string }.

(** The clock, the restore fence, and the stored deletion intents. *)
Record LockEnv := mkLockEnv {
  le_now : Z;
  le_fenced : string -> bool;
  le_intent : string -> option DeletionIntent;
}.

Abbreviation Locks := (gmap string StackOpLock).

Definition key (nodeId : Z) (stackName : string) : string :=
  pretty nodeId +:+ ":" +:+ stackName.

Definition tryAcquire (env : LockEnv) (nodeId : Z) (stackName : string) (action : StackOpAction)
    (user : string) (context : option StackOpLockContext) (locks : Locks)
    : AcquireResult * Locks :=
  let k := key nodeId stackName in
  match locks !! k with
  | Some existing => (Conflict existing, locks)
  | None =>
      if negb (bool_decide (action = A_data_restore)) && le_fenced env stackName then
        (Conflict (mkLock A_data_restore (le_now env) "system:data-restore"
           (Some (mkContext None (Some "data_restore")))), locks)
      else (Acquired, <[k := mkLock action (le_now env) user context]> locks)
  end.

Definition release (nodeId : Z) (stackName : string) (locks : Locks) : Locks :=
  delete (key nodeId stackName) locks.

(** The persisted intent is still prepared and is about this stack. *)
Definition intentMatches (env : LockEnv) (intentId : string) (nodeId : Z) (stackName : string)
    : bool :=
  match le_intent env intentId with
  | Some (mkIntent prepared n s) => bool_decide (n = nodeId) && bool_decide (s = stackName)
  | _ => false
  end.

Definition tryAcquireDeletionContinuation (env : LockEnv) (intentId : string) (nodeId : Z)
    (stackName : string) (locks : Locks) : AcquireResult * Locks :=
  if negb (intentMatches env intentId nodeId stackName) then
    (Conflict (default (mkLock A_delete (le_now env) "system" None)
       (locks !! key nodeId stackName)), locks)
  else tryAcquire env nodeId stackName A_delete "system:deletion-continuation" None locks.

Definition get (nodeId : Z) (stackName : string) (locks : Locks) : option StackOpLock :=
  locks !! key nodeId stackName.

(** ** Operations in progress *)

Abbreviation Tid := Z.

Record LockSys := mkLockSys {
  ls_locks : Locks;
  ls_running : gmap Tid (Z * string);          (* operations awaited by runExclusive *)
}.

(** [runExclusive] up to [await fn()]: [None] when the operation runs, or the
    lock that refused it. *)
Definition runExclusive (env : LockEnv) (tid : Tid) (nodeId : Z) (stackName : string)
    (action : StackOpAction) (user : string) (context : option StackOpLockContext)
    (st : LockSys) : option StackOpLock * LockSys :=
  match tryAcquire env nodeId stackName action user context (ls_locks st) with
  | (Conflict existing, _) => (Some existing, st)
  | (Acquired, locks) => (None, mkLockSys locks (<[tid := (nodeId, stackName)]> (ls_running st)))
  end.

(** [deleteDeployedStack] of a crash-resumed deletion, up to [await runDeletionBody]. *)
Definition resumeDeletion (env : LockEnv) (tid : Tid) (intentId : string) (nodeId : Z)
    (stackName : string) (st : LockSys) : option StackOpLock * LockSys :=
  match tryAcquireDeletionContinuation env intentId nodeId stackName (ls_locks st) with
  | (Conflict existing, _) => (Some existing, st)
  | (Acquired, locks) => (None, mkLockSys locks (<[tid := (nodeId, stackName)]> (ls_running st)))
  end.

(** The [finally] of [runExclusive] and of [deleteDeployedStack], whether the
    operation succeeded or threw. *)
Definition operationSettled (tid : Tid) (st : LockSys) : LockSys :=
  match ls_running st !! tid with
  | None => st
  | Some (nodeId, stackName) =>
      mkLockSys (release nodeId stackName (ls_locks st)) (delete tid (ls_running st))
  end.

Inductive lock_step : LockSys -> LockSys -> Prop :=
  | step_run env tid n s a u c st : ls_running st !! tid = None ->
      lock_step st (runExclusive env tid n s a u c st).2
  | step_resume env tid i n s st : ls_running st !! tid = None ->
      lock_step st (resumeDeletion env tid i n s st).2
  | step_settle tid st : lock_step st (operationSettled tid st).

Definition lock_reachable (st : LockSys) : Prop := rtc lock_step (mkLockSys ∅ ∅) st.

(** ** The key names one stack of one node *)

Lemma key_inj n s n' s' : key n s = key n' s' -> n = n' /\ s = s'.
Proof.
  intros [H ->]%append_colon_inj; try apply no_colon_pretty. split; [|done].
  by apply (inj pretty).
Qed.

Lemma key_ne n s n' s' : (n, s) <> (n', s') -> key n s <> key n' s'.
Proof. intros H [-> ->]%key_inj. done. Qed.

(** ** Theorems *)

(** [tryAcquire] on every branch. A held lock is always the answer, also
    for a fenced stack; without one, a fenced stack refuses every operation but
    the restore itself; otherwise the lock is taken and recorded. A refusal
    changes nothing, and no other stack or node is affected. *)
Theorem tryAcquire_spec env n s a u c locks :
  let '(res, locks') := tryAcquire env n s a u c locks in
  (forall n' s', (n', s') <> (n, s) -> get n' s' locks' = get n' s' locks) /\
  match get n s locks with
  | Some existing => res = Conflict existing /\ locks' = locks
  | None =>
      if le_fenced env s then
        if decide (a = A_data_restore)
        then res = Acquired /\ get n s locks' = Some (mkLock a (le_now env) u c)
        else (exists l, res = Conflict l /\ lk_action l = A_data_restore) /\ locks' = locks
      else res = Acquired /\ get n s locks' = Some (mkLock a (le_now env) u c)
  end.
Proof.
  unfold tryAcquire, get. destruct (locks !! key n s) as [l|] eqn:E; [done|].
  destruct (le_fenced env s); simpl; rewrite ?andb_false_r, ?andb_true_r.
  - case_bool_decide; simpl; [rewrite decide_True by done|rewrite decide_False by done; eauto].
    split; [|by rewrite lookup_insert_eq]. intros n' s' Hne.
    by rewrite lookup_insert_ne by (by apply not_eq_sym, key_ne).
  - split; [|by rewrite lookup_insert_eq]. intros n' s' Hne.
    by rewrite lookup_insert_ne by (by apply not_eq_sym, key_ne).
Qed.

Record LockInv (st : LockSys) : Prop := {
  li_held : forall t n s, ls_running st !! t = Some (n, s) -> is_Some (get n s (ls_locks st));
  li_one : forall t t' n s, ls_running st !! t = Some (n, s) ->
    ls_running st !! t' = Some (n, s) -> t = t';
  li_owned : forall k, is_Some (ls_locks st !! k) ->
    exists t n s, ls_running st !! t = Some (n, s) /\ k = key n s;
}.

(** A lock taken for an operation that starts. *)
Lemma linv_acquired tid n s lk st :
  ls_running st !! tid = None -> ls_locks st !! key n s = None -> LockInv st ->
  LockInv (mkLockSys (<[key n s := lk]> (ls_locks st)) (<[tid := (n, s)]> (ls_running st))).
Proof.
  intros Ht E Hi.
  destruct Hi as [H1 H2 H3]. split; simpl; unfold get in *.
  - intros t n' s' H. rewrite lookup_insert in H. case_decide; simplify_eq/=;
      [by rewrite lookup_insert_eq; eauto|]. destruct (H1 _ _ _ H) as [l Hl]. exists l. rewrite lookup_insert_ne; [done|]. congruence.
  - assert (Hfree : forall t, ls_running st !! t <> Some (n, s))
      by (intros t [l Hl]%H1; congruence).
    intros t t' n' s' Ha Hb. map_cases; try done; first [by eapply Hfree in Ha|by eapply Hfree in Hb|eauto].
  - intros k Hk. destruct (decide (k = key n s)) as [->|Hne].
    + exists tid, n, s. by rewrite lookup_insert_eq.
    + rewrite lookup_insert_ne in Hk by done. destruct (H3 _ Hk) as (t & n' & s' & Hr & ->).
      exists t, n', s'. rewrite lookup_insert_ne; [done|]. congruence.
Qed.

Lemma linv_run env tid n s a u c st : ls_running st !! tid = None -> LockInv st ->
  LockInv (runExclusive env tid n s a u c st).2.
Proof.
  intros Ht Hi. unfold runExclusive, tryAcquire.
  destruct (ls_locks st !! key n s) eqn:E; [done|]. destruct (_ && _); [done|].
  by apply linv_acquired.
Qed.

Lemma linv_resume env tid i n s st : ls_running st !! tid = None -> LockInv st ->
  LockInv (resumeDeletion env tid i n s st).2.
Proof.
  intros Ht Hi. unfold resumeDeletion, tryAcquireDeletionContinuation, tryAcquire.
  destruct (intentMatches _ _ _ _); [|done]. simpl.
  destruct (ls_locks st !! key n s) eqn:E; [done|]. destruct (le_fenced _ _); [done|].
  by apply linv_acquired.
Qed.

Lemma linv_settle tid st : LockInv st -> LockInv (operationSettled tid st).
Proof.
  intros Hi. unfold operationSettled. destruct (ls_running st !! tid) as [[n s]|] eqn:E; [|done].
  destruct Hi as [H1 H2 H3]. split; simpl; unfold get, release in *.
  - intros t n' s' H. rewrite lookup_delete in H. case_decide; simplify_eq/=.
    destruct (H1 _ _ _ H) as [l Hl]. exists l. rewrite lookup_delete_ne; [done|]. intros [-> ->]%key_inj. eauto.
  - intros t t' n' s' Ha Hb. map_cases. eauto.
  - intros k [l Hl]. map_cases. destruct (H3 k) as (t & n' & s' & Hr & ->); [eauto|].
    exists t, n', s'. rewrite lookup_delete_ne; [done|]. congruence.
Qed.

Lemma lock_reachable_inv st : lock_reachable st -> LockInv st.
Proof.
  apply rtc_invariant.
  - intros ? ? [env tid n s a u c st' Ht|env tid i n s st' Ht|tid st'];
      [by apply linv_run|by apply linv_resume|apply linv_settle].
  - split; simpl; intros; map_cases; try done.
Qed.

(** C14: mutual exclusion. However the operations that go through
    [runExclusive] and the resumed deletions interleave, succeed or throw: at most one runs per (node,
    stack); while it runs its lock is held, so every other acquisition for that
    stack is refused; and every lock belongs to an operation in progress, so
    none outlives its operation. *)
Theorem stack_mutual_exclusion (st : LockSys) : lock_reachable st ->
  (forall t t' n s, ls_running st !! t = Some (n, s) -> ls_running st !! t' = Some (n, s) ->
     t = t') /\
  (forall t n s env a u c, ls_running st !! t = Some (n, s) ->
     exists l, (tryAcquire env n s a u c (ls_locks st)) = (Conflict l, ls_locks st)) /\
  (forall n s, is_Some (get n s (ls_locks st)) -> exists t, ls_running st !! t = Some (n, s)).
Proof.
  intros [H1 H2 H3]%lock_reachable_inv. split_and!; [done|..].
  - intros t n s env a u c [l Hl]%H1. exists l. unfold tryAcquire. unfold get in Hl.
    by rewrite Hl.
  - intros n s (t & n' & s' & Hr & [-> ->]%key_inj)%H3. eauto.
Qed.

Definition ex_env : LockEnv := mkLockEnv 5 (fun _ => false) (fun _ => None).

Lemma stack_mutual_exclusion_witness :
  let st := (runExclusive ex_env 1 3 "web" A_deploy "ann" None (mkLockSys ∅ ∅)).2 in
  ls_running st !! 1 = Some (3, "web") /\
  exists l, tryAcquire ex_env 3 "web" A_update "bob" None (ls_locks st)
            = (Conflict l, ls_locks st).
Proof.
  split; [vm_compute; reflexivity|].
  refine (proj1 (proj2 (stack_mutual_exclusion
    (runExclusive ex_env 1 3 "web" A_deploy "ann" None (mkLockSys ∅ ∅)).2 _)) 1 3 "web"
    ex_env A_update "bob" None _); [|vm_compute; reflexivity].
  apply rtc_once, step_run. reflexivity.
Defined.

(** A crash-resumed deletion takes the lock exactly when its intent is still
    prepared and is about this stack, the lock is free and the stack is not
    fenced. *)
Lemma deletion_continuation_spec env intentId n s locks :
  (tryAcquireDeletionContinuation env intentId n s locks).1 = Acquired <->
  le_intent env intentId = Some (mkIntent prepared n s) /\ get n s locks = None /\
  le_fenced env s = false.
Proof.
  unfold tryAcquireDeletionContinuation, intentMatches, tryAcquire, get.
  destruct (le_intent env intentId) as [[[] n' s']|]; simpl; try naive_solver.
  destruct (decide (n' = n)) as [->|?]; [|rewrite bool_decide_eq_false_2 by done; naive_solver].
  destruct (decide (s' = s)) as [->|?];
    [|rewrite bool_decide_eq_true_2, bool_decide_eq_false_2 by done; naive_solver].
  rewrite !bool_decide_eq_true_2 by done. simpl.
  destruct (locks !! key n s); simpl; [naive_solver|]. destruct (le_fenced env s); naive_solver.
Qed.
