(* ===== verification/Json.v ===== *)
(** * JSON values

    What [JSON.parse] gives and what request bodies and JSON columns carry, as
    the validating readers of the backend see it ([typeof], [Array.isArray],
    [Number.isInteger], [Object.keys], property reads). A number is a canonical
    rational: JSON has no other numbers. An object is its properties in order,
    with distinct names. *)

From Stdlib Require Import QArith Qcanon.
From S2P Require Import Prelude.

#[global] Open Scope Z_scope.

Inductive Json :=
  | JNull
  | JBool (b : bool)
  | JNum (q : Qc)
  | JStr (s : string)
  | JArr (items : list Json)
  | JObj (fields : list (string * Json)).

(** An integer as a number. *)
Definition JInt (z : Z) : Json := JNum (Qc_of_Z z).

(** [Number.isInteger], with the integer. *)
Definition num_int (q : Qc) : option Z :=
  if (Qden (this q) =? 1)%positive then Some (Qnum (this q)) else None.

Definition json_int (v : Json) : option Z :=
  match v with JNum q => num_int q | _ => None end.

(** [value.k]; [None] is [undefined]. *)
Fixpoint field (k : string) (fields : list (string * Json)) : option Json :=
  match fields with
  | [] => None
  | (k', v) :: fields => if decide (k' = k) then Some v else field k fields
  end.

(** [typeof value.k === 'string'] and the like, with the value. *)
Definition string_field (k : string) (fields : list (string * Json)) : option string :=
  match field k fields with Some (JStr s) => Some s | _ => None end.
Definition bool_field (k : string) (fields : list (string * Json)) : option bool :=
  match field k fields with Some (JBool b) => Some b | _ => None end.
Definition number_field (k : string) (fields : list (string * Json)) : option Qc :=
  match field k fields with Some (JNum q) => Some q | _ => None end.

Lemma num_int_of_Z z : num_int (Qc_of_Z z) = Some z.
Proof. reflexivity. Qed.

Lemma num_int_Some q z : num_int q = Some z -> q = Qc_of_Z z.
Proof.
  unfold num_int. destruct (Pos.eqb_spec (Qden (this q)) 1) as [E|]; [|done]. intros [= <-].
  apply Qc_is_canon. destruct q as [[n d] H]. simpl in *. by subst d.
Qed.
