(* ===== verification/Schedule.v ===== *)
(** * Maintenance windows (backend/src/helpers/notificationSchedule.ts)

    Weekly UTC windows that suppress notifications: the strict reader of a
    schedule, the reader of a stored column, and the test whether a window covers
    an instant. [JSON.parse] and [String.trim] of a stored text are inputs of the
    column reader. *)

From stdpp Require Import sorting.
From S2P Require Import Prelude Json.

Record NotificationSchedule := mkSchedule {
  ns_days : list Z;
  ns_start : Z;
  ns_end : Z;
}.

Definition SCHEDULE_KEYS : list string := ["days"; "start_minute"; "end_minute"; "tz"].

(** [[...new Set(l)]]: the first occurrence of each. *)
Fixpoint dedup (l : list Z) : list Z :=
  match l with
  | [] => []
  | x :: l => x :: filter (fun y => y <> x) (dedup l)
  end.

(** [.sort((a, b) => a - b)] *)
Definition sort_numbers (l : list Z) : list Z := merge_sort (≤) l.

(** [!raw.days.some((d) => not an integer in 0..6)], with the integers. *)
Fixpoint parse_days (items : list Json) : option (list Z) :=
  match items with
  | [] => Some []
  | v :: items =>
      match json_int v with
      | Some d => if (0 <=? d) && (d <=? 6) then cons d <$> parse_days items else None
      | None => None
      end
  end.

Definition minute_of_day (v : option Json) : option Z :=
  match v ≫= json_int with
  | Some m => if (0 <=? m) && (m <=? 1439) then Some m else None
  | None => None
  end.

Definition parseNotificationSchedule (raw : Json) : string + NotificationSchedule :=
  match raw with
  | JObj fields =>
      let keys := map fst fields in
      if negb (bool_decide (length keys = 4%nat))
         || negb (bool_decide (Forall (fun k => k ∈ SCHEDULE_KEYS) keys))
      then inl "schedule must have exactly days, start_minute, end_minute, and tz"
      else match field "tz" fields with
      | Some (JStr "UTC") =>
          match field "days" fields with
          | Some (JArr ((_ :: _) as items)) =>
              match parse_days items with
              | None => inl "schedule.days must be integers 0..6"
              | Some raw_days =>
                  let days := sort_numbers (dedup raw_days) in
                  if negb (bool_decide (length days = length raw_days))
                  then inl "schedule.days must not contain duplicates"
                  else match minute_of_day (field "start_minute" fields) with
                  | None => inl "schedule.start_minute must be an integer 0..1439"
                  | Some start_minute =>
                      match minute_of_day (field "end_minute" fields) with
                      | None => inl "schedule.end_minute must be an integer 0..1439"
                      | Some end_minute =>
                          if start_minute =? end_minute
                          then inl "schedule.start_minute and end_minute must differ"
                          else inr (mkSchedule days start_minute end_minute)
                      end
                  end
              end
          | _ => inl "schedule.days must be a nonempty array"
          end
      | _ => inl "schedule.tz must be UTC"
      end
  | _ => inl "schedule must be an object or null"
  end.

(** A column value: SQL NULL, text with what [trim] and [JSON.parse] make of it
    ([None]: empty after trimming, or not JSON), or a value of another type. *)
Inductive StoredValue :=
  | SqlNull
  | SqlText (parsed : option Json)
  | SqlOther (v : Json).

Inductive StoredSchedule := StoredNull | StoredOk (s : NotificationSchedule) | StoredInvalid.

Definition parseStoredNotificationSchedule (raw : StoredValue) : StoredSchedule :=
  match raw with
  | SqlNull => StoredNull
  | SqlText None => StoredInvalid
  | SqlText (Some JNull) => StoredInvalid
  | SqlText (Some v) | SqlOther v =>
      match parseNotificationSchedule v with
      | inr s => StoredOk s
      | inl _ => StoredInvalid
      end
  end.

(** [getUTCDay], and hours and minutes of [new Date(atMs)] as a minute of the
    day: 1 January 1970 was a Thursday. *)
Definition MS_PER_MINUTE : Z := 60000.
Definition MINUTES_PER_DAY : Z := 1440.
Definition getUTCDay (atMs : Z) : Z := (atMs / (MS_PER_MINUTE * MINUTES_PER_DAY) + 4) mod 7.
Definition utcMinute (atMs : Z) : Z := (atMs / MS_PER_MINUTE) mod MINUTES_PER_DAY.

Definition isScheduleActive (schedule : option NotificationSchedule) (atMs : Z) : bool :=
  match schedule with
  | None => true
  | Some s =>
      let day := getUTCDay atMs in
      let minute := utcMinute atMs in
      let on d := bool_decide (d ∈ ns_days s) in
      if ns_start s <? ns_end s then on day && (minute >=? ns_start s) && (minute <? ns_end s)
      else
        let prevDay := (day + 6) mod 7 in
        (on day && (minute >=? ns_start s)) || (on prevDay && (minute <? ns_end s))
  end.

Definition scheduleAllowsSuppression (schedule : option NotificationSchedule)
    (scheduleInvalid : bool) (atMs : Z) : bool :=
  if scheduleInvalid then false else isScheduleActive schedule atMs.

(** ** Well-formed schedules *)

Record ScheduleOk (s : NotificationSchedule) : Prop := {
  so_days : ns_days s <> [];
  so_sorted : StronglySorted Z.lt (ns_days s);
  so_range : Forall (fun d => 0 <= d <= 6) (ns_days s);
  so_start : 0 <= ns_start s <= 1439;
  so_end : 0 <= ns_end s <= 1439;
  so_differ : ns_start s <> ns_end s;
}.

Lemma elem_of_dedup x l : x ∈ dedup l <-> x ∈ l.
Proof.
  induction l as [|y l IH]; simpl; [done|]. rewrite !elem_of_cons, list_elem_of_filter, IH.
  destruct (decide (x = y)); naive_solver.
Qed.

Lemma NoDup_dedup l : NoDup (dedup l).
Proof.
  induction l as [|y l IH]; simpl; constructor; [|by apply NoDup_filter].
  rewrite list_elem_of_filter. naive_solver.
Qed.

Lemma filter_ne_id (x : Z) (l : list Z) : x ∉ l -> filter (fun y => y <> x) l = l.
Proof.
  induction l as [|y l IH]; [done|]. intros [Hy Hl]%not_elem_of_cons.
  rewrite filter_cons, decide_True by congruence. f_equal. by apply IH.
Qed.

Lemma dedup_NoDup l : NoDup l -> dedup l = l.
Proof.
  induction 1 as [|x l Hx _ IH]; simpl; [done|]. by rewrite IH, filter_ne_id.
Qed.

(** Sorting with [(a, b) => a - b] after removing duplicates. *)
Lemma sort_dedup_sorted l : StronglySorted Z.lt (sort_numbers (dedup l)).
Proof.
  unfold sort_numbers. pose proof (NoDup_dedup l) as Hnd.
  rewrite <-(merge_sort_Permutation Z.le) in Hnd.
  pose proof (StronglySorted_merge_sort Z.le (dedup l)) as Hs.
  induction Hs as [|x l' _ IH Hall]; constructor; apply NoDup_cons in Hnd as [Hx Hnd]; [auto|].
  rewrite Forall_forall in Hall |- *. intros y Hy.
  assert (x <> y) by (by intros ->). specialize (Hall y Hy). lia.
Qed.

Lemma sort_dedup_id l : StronglySorted Z.lt l -> sort_numbers (dedup l) = l.
Proof.
  intros Hs.
  assert (Hnd : NoDup l).
  { induction Hs as [|x l _ IH Hall]; constructor; [|done]. intros Hx.
    rewrite Forall_forall in Hall. specialize (Hall x Hx). lia. }
  rewrite (dedup_NoDup l Hnd). unfold sort_numbers.
  apply (StronglySorted_unique Z.le); [apply StronglySorted_merge_sort; apply _| |
    apply merge_sort_Permutation].
  clear Hnd. induction Hs as [|x l _ IH Hall]; constructor; [done|].
  eapply Forall_impl; [exact Hall|]. intros. lia.
Qed.

Lemma parse_days_Some items ds : parse_days items = Some ds ->
  items = map JInt ds /\ Forall (fun d => 0 <= d <= 6) ds.
Proof.
  revert ds. induction items as [|v items IH]; intros ds; simpl; [by intros [= <-]|].
  destruct (json_int v) as [d|] eqn:E; [|done].
  destruct ((0 <=? d) && (d <=? 6)) eqn:Er; [|done].
  destruct (parse_days items) as [ds'|]; simpl; [|done]. intros [= <-].
  destruct (IH ds' eq_refl) as [-> ?]. destruct v; try done. simpl in E.
  apply num_int_Some in E as ->. split; [done|]. constructor; [lia|done].
Qed.

Lemma parse_days_map ds : Forall (fun d => 0 <= d <= 6) ds -> parse_days (map JInt ds) = Some ds.
Proof.
  induction 1 as [|d ds Hd _ IH]; [done|]. cbn [map parse_days].
  change (json_int (JInt d)) with (Some d). cbv iota.
  replace ((0 <=? d) && (d <=? 6)) with true by lia. by rewrite IH.
Qed.

Lemma minute_of_day_Some v m : minute_of_day v = Some m -> 0 <= m <= 1439.
Proof.
  unfold minute_of_day. destruct (v ≫= json_int) as [m'|]; [|done].
  destruct ((0 <=? m') && (m' <=? 1439)) eqn:E; [|done]. intros [= <-]. lia.
Qed.

Lemma minute_of_day_int m : 0 <= m <= 1439 -> minute_of_day (Some (JInt m)) = Some m.
Proof.
  intros Hm. unfold minute_of_day. change (Some (JInt m) ≫= json_int) with (Some m). cbv iota.
  by replace ((0 <=? m) && (m <=? 1439)) with true by lia.
Qed.

(** A schedule as a request or a column carries it. *)
Definition schedule_json (s : NotificationSchedule) : Json :=
  JObj [("days", JArr (map JInt (ns_days s))); ("start_minute", JInt (ns_start s));
        ("end_minute", JInt (ns_end s)); ("tz", JStr "UTC")].

Lemma parse_schedule_sound raw s : parseNotificationSchedule raw = inr s -> ScheduleOk s.
Proof.
  unfold parseNotificationSchedule. intros H.
  destruct raw as [| | | | |fields]; try done. destruct (_ || _); [done|].
  destruct (field "tz" fields) as [[| | |tz| |]|]; try done.
  destruct (decide (tz = "UTC")) as [->|Hne].
  2:{ exfalso. revert H. repeat (case_match; try done). }
  destruct (field "days" fields) as [[| | | |[|i items]|]|]; try done.
  destruct (parse_days (i :: items)) as [ds|] eqn:Hd; [|done].
  destruct (negb (bool_decide (length (sort_numbers (dedup ds)) = length ds))) eqn:Hl; [done|].
  destruct (minute_of_day (field "start_minute" fields)) as [a|] eqn:Ha; [|done].
  destruct (minute_of_day (field "end_minute" fields)) as [b|] eqn:Hb; [|done].
  destruct (a =? b) eqn:Hab; [done|]. injection H as <-.
  apply negb_false_iff, bool_decide_eq_true in Hl.
  apply parse_days_Some in Hd as [Hi Hr]. split; simpl.
  - intros E. rewrite E in Hl. by destruct ds.
  - apply sort_dedup_sorted.
  - apply Forall_forall. intros d Hin. unfold sort_numbers in Hin.
    rewrite merge_sort_Permutation, elem_of_dedup in Hin. by apply (Forall_forall _ _) with (x := d) in Hr.
  - by apply minute_of_day_Some in Ha.
  - by apply minute_of_day_Some in Hb.
  - lia.
Qed.

Lemma parse_schedule_roundtrip s : ScheduleOk s -> parseNotificationSchedule (schedule_json s) = inr s.
Proof.
  intros [H1 H2 H3 H4 H5 H6]. destruct s as [ds a b]. simpl in *.
  unfold parseNotificationSchedule, schedule_json. cbv zeta. simpl field. simpl map.
  rewrite parse_days_map by done. destruct (map JInt ds) eqn:E; [by destruct ds|].
  rewrite sort_dedup_id by done.
  rewrite bool_decide_eq_true_2 by done. simpl.
  rewrite !minute_of_day_int by done. by destruct (Z.eqb_spec a b).
Qed.

(** The schedules the reader accepts are exactly the well-formed ones (days
    sorted, distinct, within the week; minutes within the day; a window that is
    not empty), each of them accepted from its own JSON; and only SQL NULL reads
    as no schedule, so a damaged column never suppresses a notification. *)
Theorem schedule_reader_exact (s : NotificationSchedule) :
  ((exists raw, parseNotificationSchedule raw = inr s) <-> ScheduleOk s) /\
  (ScheduleOk s -> parseStoredNotificationSchedule (SqlText (Some (schedule_json s))) = StoredOk s) /\
  (forall raw, parseStoredNotificationSchedule raw = StoredNull <-> raw = SqlNull) /\
  (forall atMs, scheduleAllowsSuppression (Some s) true atMs = false).
Proof.
  split_and!; [split| | |done].
  - intros [raw H]. by apply parse_schedule_sound in H.
  - intros H. exists (schedule_json s). by apply parse_schedule_roundtrip.
  - intros H. pose proof (parse_schedule_roundtrip s H) as E.
    unfold parseStoredNotificationSchedule. unfold schedule_json in E |- *. by rewrite E.
  - intros raw. split; [|by intros ->]. unfold parseStoredNotificationSchedule.
    destruct raw as [|[[]|]|]; try done; by destruct (parseNotificationSchedule _).
Qed.

(** ** The window *)

(** Minutes since Sunday 00:00 UTC. *)
Definition weekMinute (atMs : Z) : Z := getUTCDay atMs * 1440 + utcMinute atMs.

Lemma in_window (D M d a b : Z) : 0 <= D <= 6 -> 0 <= M < 1440 -> 0 <= d <= 6 ->
  0 <= a <= 1439 -> 0 <= b <= 1439 -> a <> b ->
  (D * 1440 + M - (d * 1440 + a)) mod 10080 < (b - a) mod 1440 <->
  (if a <? b then d = D /\ a <= M < b else (d = D /\ a <= M) \/ (d = (D + 6) mod 7 /\ M < b)).
Proof.
  intros. destruct (a <? b) eqn:E; zbool; Z.div_mod_to_equations; lia.
Qed.

(** A window covers an instant exactly when the instant is less than the
    window's length after the start of one of its days, counting minutes around
    the week: windows that cross midnight, and the one from Saturday into Sunday,
    included. *)
Theorem schedule_active_window s atMs : ScheduleOk s ->
  isScheduleActive (Some s) atMs = true <->
  exists d, d ∈ ns_days s /\
    (weekMinute atMs - (d * 1440 + ns_start s)) mod 10080 < (ns_end s - ns_start s) mod 1440.
Proof.
  intros [H1 H2 H3 H4 H5 H6]. unfold isScheduleActive, weekMinute.
  assert (HD : 0 <= getUTCDay atMs <= 6) by (unfold getUTCDay; Z.div_mod_to_equations; lia).
  assert (HM : 0 <= utcMinute atMs < 1440)
    by (unfold utcMinute, MINUTES_PER_DAY; Z.div_mod_to_equations; lia).
  set (D := getUTCDay atMs) in *. set (M := utcMinute atMs) in *.
  assert (Hw : forall d, d ∈ ns_days s ->
    (D * 1440 + M - (d * 1440 + ns_start s)) mod 10080 < (ns_end s - ns_start s) mod 1440 <->
    (if ns_start s <? ns_end s then d = D /\ ns_start s <= M < ns_end s
     else (d = D /\ ns_start s <= M) \/ (d = (D + 6) mod 7 /\ M < ns_end s))).
  { intros d Hd. rewrite Forall_forall in H3. apply in_window; auto. }
  split.
  - destruct (ns_start s <? ns_end s) eqn:E.
    + intros [[Hd ?]%andb_true_iff ?]%andb_true_iff. rewrite bool_decide_eq_true in Hd.
      exists D. split; [done|]. apply Hw; [done|]. rewrite Z.geb_leb in *. zlia.
    + intros [[Hd ?]%andb_true_iff|[Hd ?]%andb_true_iff]%orb_true_iff;
        rewrite bool_decide_eq_true in Hd.
      * exists D. split; [done|]. apply Hw; [done|]. left. rewrite Z.geb_leb in *. zlia.
      * exists ((D + 6) mod 7). split; [done|]. apply Hw; [done|]. right. zlia.
  - intros (d & Hd & Hlt). apply Hw in Hlt; [|done].
    destruct (ns_start s <? ns_end s) eqn:E.
    + destruct Hlt as [-> ?]. rewrite bool_decide_eq_true_2 by done.
      rewrite Z.geb_leb. apply andb_true_iff. split; simpl; lia.
    + rewrite Z.geb_leb. apply orb_true_iff. destruct Hlt as [[-> ?]|[-> ?]]; [left|right];
        rewrite bool_decide_eq_true_2 by done; simpl; lia.
Qed.

(** Saturday 23:00 to 01:00, checked on a Sunday at 00:30 UTC. *)
Lemma schedule_active_window_witness :
  let s := mkSchedule [6] 1380 60 in
  ScheduleOk s /\ isScheduleActive (Some s) (3 * 86400000 + 30 * 60000) = true.
Proof.
  assert (H : ScheduleOk (mkSchedule [6] 1380 60))
    by (split; simpl; try lia; try done; repeat constructor; lia).
  split; [exact H|].
  apply (schedule_active_window (mkSchedule [6] 1380 60) (3 * 86400000 + 30 * 60000) H).
  exists 6. split; [left|]. vm_compute. reflexivity.
Defined.
