(* ===== verification/HealthPolicy.v ===== *)
(** * Health rollout policy (backend/src/services/gitops/healthPolicy.ts)

    What a target's health verdict does to a rollout, and the readers of the
    policy frozen into a rollout generation and selected on an intent.
    [JSON.parse] and [JSON.stringify] are parameters of the readers and
    writers. *)

From Stdlib Require Import Ascii QArith Qcanon.
From S2P Require Import Prelude Json.

Inductive HealthRolloutPolicy := observe | pause | retry_once | stop | rollback.

#[export] Instance HealthRolloutPolicy_eq_dec : EqDecision HealthRolloutPolicy.
Proof. solve_decision. Defined.

Definition DEFAULT_HEALTH_ROLLOUT_POLICY : HealthRolloutPolicy := observe.

Definition HealthRolloutPolicy_str (p : HealthRolloutPolicy) : string :=
  match p with
  | observe => "observe" | pause => "pause" | retry_once => "retry_once"
  | stop => "stop" | rollback => "rollback"
  end.

Definition HEALTH_ROLLOUT_POLICIES : list HealthRolloutPolicy :=
  [observe; pause; retry_once; stop; rollback].

Definition gatesAdvancement (policy : HealthRolloutPolicy) : bool :=
  negb (bool_decide (policy = observe)).

(** [isHealthRolloutPolicy], with the mode it names. *)
Definition isHealthRolloutPolicy (value : Json) : option HealthRolloutPolicy :=
  match value with
  | JStr s => head (filter (fun p => HealthRolloutPolicy_str p = s) HEALTH_ROLLOUT_POLICIES)
  | _ => None
  end.

Record FrozenRolloutStrategy := mkStrategy {
  fs_healthPolicy : HealthRolloutPolicy;
  fs_driftMode : option string;
  fs_enabled : option bool;
}.

Inductive PolicyError :=
  | JsonError
  | NotAnObject
  | PolicyIsNull
  | UnknownPolicy (value : Json).

(** [raw.trim() === ''], for ASCII white space. *)
Fixpoint blank (s : string) : bool :=
  match s with
  | EmptyString => true
  | String c s => is_space c && blank s
  end.

Section readers.
Variable json_parse : string -> option Json.
Variable json_stringify : Json -> string.

Definition decodeFrozenRolloutStrategy (raw : option string)
    : PolicyError + FrozenRolloutStrategy :=
  match raw with
  | None => inr (mkStrategy DEFAULT_HEALTH_ROLLOUT_POLICY None None)
  | Some text =>
      if blank text then inr (mkStrategy DEFAULT_HEALTH_ROLLOUT_POLICY None None)
      else match json_parse text with
      | None => inl JsonError
      | Some (JObj decoded) =>
          let driftMode := string_field "driftMode" decoded in
          let enabled := bool_field "enabled" decoded in
          match field "healthPolicy" decoded with
          | None => inr (mkStrategy DEFAULT_HEALTH_ROLLOUT_POLICY driftMode enabled)
          | Some JNull => inl PolicyIsNull
          | Some policy =>
              match isHealthRolloutPolicy policy with
              | None => inl (UnknownPolicy policy)
              | Some p => inr (mkStrategy p driftMode enabled)
              end
          end
      | Some _ => inl NotAnObject
      end
  end.

(** [null] for an absent value. *)
Definition opt_json {A} (f : A -> Json) (o : option A) : Json :=
  match o with Some a => f a | None => JNull end.

Definition strategy_json (s : FrozenRolloutStrategy) : Json :=
  JObj [("healthPolicy", JStr (HealthRolloutPolicy_str (fs_healthPolicy s)));
        ("driftMode", opt_json JStr (fs_driftMode s));
        ("enabled", opt_json JBool (fs_enabled s))].

Definition encodeFrozenRolloutStrategy (input : FrozenRolloutStrategy) : string :=
  json_stringify (strategy_json input).

Definition decodeIntentHealthPolicy (raw : option string) : PolicyError + HealthRolloutPolicy :=
  match raw with
  | None => inr DEFAULT_HEALTH_ROLLOUT_POLICY
  | Some text =>
      if blank text then inr DEFAULT_HEALTH_ROLLOUT_POLICY
      else match json_parse text with
      | None => inl JsonError
      | Some (JObj decoded) =>
          match field "policy" decoded with
          | None | Some JNull => inr DEFAULT_HEALTH_ROLLOUT_POLICY
          | Some policy =>
              match isHealthRolloutPolicy policy with
              | None => inl (UnknownPolicy policy)
              | Some p => inr p
              end
          end
      | Some _ => inl NotAnObject
      end
  end.

Definition intent_json (policy : HealthRolloutPolicy) : Json :=
  JObj [("policy", JStr (HealthRolloutPolicy_str policy))].

Definition encodeIntentHealthPolicy (policy : HealthRolloutPolicy) : string :=
  json_stringify (intent_json policy).
End readers.

(** The column of the previous intent, if there is one, copied as it is. *)
Definition carriedHealthPolicyJson (previous : option (option string)) : option string :=
  match previous with Some (Some raw) => Some raw | _ => None end.

(** ** The decision *)

Inductive HealthVerdict := passed | failed | unknown.

Inductive HealthFenceReason :=
  | health_passed | health_failed | health_unknown | health_retried
  | health_retry_exhausted | rollout_stopped | rollback_unavailable.

Inductive HealthPolicyDecision :=
  | D_advance
  | D_retry
  | D_pause (reason : HealthFenceReason)
  | D_stop (reason : HealthFenceReason)
  | D_rollback (reason : HealthFenceReason)
  | D_none.

Definition decideHealthRolloutAction (policy : HealthRolloutPolicy) (verdict : HealthVerdict)
    (attemptsUsed : Z) (recoveryAvailable : bool) : HealthPolicyDecision :=
  if negb (gatesAdvancement policy) then D_none
  else match verdict with
  | passed => D_advance
  | unknown => D_pause health_unknown
  | failed =>
      match policy with
      | pause => D_pause health_failed
      | retry_once =>
          if attemptsUsed <? 1 then D_retry else D_pause health_retry_exhausted
      | stop => D_stop rollout_stopped
      | rollback =>
          if negb recoveryAvailable then D_pause rollback_unavailable
          else D_rollback health_failed
      | observe => D_none
      end
  end.

(** ** Theorems *)

Lemma health_decision_retry policy verdict attempts recovery :
  decideHealthRolloutAction policy verdict attempts recovery = D_retry ->
  policy = retry_once /\ verdict = failed /\ attempts < 1.
Proof.
  unfold decideHealthRolloutAction, gatesAdvancement.
  destruct policy, verdict, recovery; simpl; try done; destruct (Z.ltb_spec attempts 1); done.
Qed.

(** what each action takes, for every policy, verdict and history: a
    rollout advances only on a passed verdict of a gating policy; it retries,
    stops or rolls back only on a failed one, never on an unknown one, each only
    under the policy of that name; a retry only if none was used; a rollback
    only with a recovery point; [observe] never does anything and every other
    policy always does something. *)
Theorem health_decision_exact policy verdict attempts recovery :
  let d := decideHealthRolloutAction policy verdict attempts recovery in
  (d = D_none <-> policy = observe) /\
  (d = D_advance <-> policy <> observe /\ verdict = passed) /\
  (d = D_retry <-> policy = retry_once /\ verdict = failed /\ attempts < 1) /\
  ((exists r, d = D_stop r) <-> policy = stop /\ verdict = failed) /\
  ((exists r, d = D_rollback r) <-> policy = rollback /\ verdict = failed /\ recovery = true) /\
  (policy <> observe -> verdict = unknown -> d = D_pause health_unknown).
Proof.
  unfold decideHealthRolloutAction, gatesAdvancement.
  destruct policy, verdict, recovery; simpl; try (destruct (Z.ltb_spec attempts 1));
    repeat split; intros; try naive_solver lia.
Qed.

(** A target whose gate reports [verdicts] in turn, each after the action its
    policy chose for the one before; a retry is the only action that keeps it
    under observation. Counts the retries. *)
Fixpoint retries (policy : HealthRolloutPolicy) (recovery : bool) (attempts : Z)
    (verdicts : list HealthVerdict) : Z :=
  match verdicts with
  | [] => 0
  | v :: verdicts =>
      match decideHealthRolloutAction policy v attempts recovery with
      | D_retry => 1 + retries policy recovery (attempts + 1) verdicts
      | _ => 0
      end
  end.

Lemma retries_used policy recovery attempts verdicts : 1 <= attempts ->
  retries policy recovery attempts verdicts = 0.
Proof.
  intros H. destruct verdicts as [|v vs]; [done|]. simpl.
  destruct (decideHealthRolloutAction policy v attempts recovery) eqn:E; try done.
  apply health_decision_retry in E. lia.
Qed.

(** Whatever verdicts a target reports, it is retried at most once per
    rollout generation, and exactly once if the policy is [retry_once] and the
    first verdict is a failure. *)
Theorem retry_at_most_once policy recovery verdicts :
  retries policy recovery 0 verdicts <= 1 /\
  (policy = retry_once -> head verdicts = Some failed -> retries policy recovery 0 verdicts = 1).
Proof.
  destruct verdicts as [|v vs]; [split; [simpl; lia|done]|]. cbn [retries head].
  rewrite (retries_used policy recovery (0 + 1) vs) by lia. split.
  - destruct (decideHealthRolloutAction policy v 0 recovery); lia.
  - by intros -> [= ->].
Qed.

(** The frozen strategy of a rollout survives storage, and a stored policy that
    cannot be read is an error, never the default. *)
Lemma isHealthRolloutPolicy_str p : isHealthRolloutPolicy (JStr (HealthRolloutPolicy_str p)) = Some p.
Proof. by destruct p. Qed.

Lemma isHealthRolloutPolicy_inv v p : isHealthRolloutPolicy v = Some p ->
  v = JStr (HealthRolloutPolicy_str p).
Proof.
  destruct v as [| | |s| |]; try done. simpl. by intros <-%head_filter_Some.
Qed.

(** A strategy written with a rollout generation is read back as written,
    under the round trip of the JSON library on it; and a generation reads as
    [observe] only when it says so, or predates the policy (no column, a blank
    one, or an object without the key): a null or unknown policy is an error. *)
Theorem frozen_strategy_roundtrip json_parse json_stringify s :
  json_parse (json_stringify (strategy_json s)) = Some (strategy_json s) ->
  blank (json_stringify (strategy_json s)) = false ->
  decodeFrozenRolloutStrategy json_parse (Some (encodeFrozenRolloutStrategy json_stringify s))
    = inr s /\
  (forall raw s', decodeFrozenRolloutStrategy json_parse raw = inr s' ->
     fs_healthPolicy s' = observe ->
     match raw with
     | None => True
     | Some text => blank text = true \/ exists fs, json_parse text = Some (JObj fs) /\
         (field "healthPolicy" fs = None \/ field "healthPolicy" fs = Some (JStr "observe"))
     end).
Proof.
  intros Hp Hb. split.
  - unfold decodeFrozenRolloutStrategy, encodeFrozenRolloutStrategy. rewrite Hb, Hp.
    unfold strategy_json. destruct s as [p d e]. simpl field. cbv iota.
    rewrite isHealthRolloutPolicy_str. unfold string_field, bool_field. simpl.
    by destruct d, e.
  - intros [text|] s' H Ho; [|done]. revert H. unfold decodeFrozenRolloutStrategy.
    destruct (blank text); [by left|]. destruct (json_parse text) as [[| | | | |fs]|]; try done.
    intros H. right. exists fs. split; [done|].
    destruct (field "healthPolicy" fs) as [v|]; [|by left]. right.
    destruct (isHealthRolloutPolicy v) as [p|] eqn:E; [|by destruct v].
    apply isHealthRolloutPolicy_inv in E as ->. injection H as <-. simpl in Ho. by subst p.
Qed.

Lemma frozen_strategy_roundtrip_witness :
  let s := mkStrategy rollback (Some "enforce") None in
  let parse t := if decide (t = "stored") then Some (strategy_json s) else None in
  decodeFrozenRolloutStrategy parse (Some (encodeFrozenRolloutStrategy (fun _ => "stored") s))
    = inr s.
Proof.
  refine (proj1 (frozen_strategy_roundtrip
    (fun t => if decide (t = "stored")
              then Some (strategy_json (mkStrategy rollback (Some "enforce") None)) else None)
    (fun _ => "stored") (mkStrategy rollback (Some "enforce") None) _ _)); reflexivity.
Defined.
