(* ===== verification/Placement.v ===== *)
(** * Bounded automatic placement (backend/src/services/gitops/placementPolicy.ts)

    Whether a placement change is small and safe enough to approve without an
    operator. The input's fields are read with [input?.f], so each may be
    undefined ([None]); the node lists come from JSON columns and may be
    anything. *)

From Stdlib Require Import QArith Qcanon.
From stdpp Require Import sorting.
From S2P Require Import Prelude Json.

#[global] Open Scope Z_scope.

Abbreviation NodeId := Qc.

Record PlacementEffect := mkEffect { pe_additions : list NodeId; pe_removals : list NodeId }.

Inductive PlacementPolicyReason :=
  | policy_is_operator | no_placement_change | stateless_addition | stateless_removal
  | mixed_add_and_remove | multiple_additions | multiple_removals | stateful_workload
  | unknown_workload | first_multi_node_placement | pin_driven_placement | cordon_override
  | cordon_driven_removal | stale_node | unknown_connectivity | missing_evidence
  | malformed_evidence | destructive_effect | conflicting_operation.

Inductive PlacementDecision :=
  | no_action (effect : PlacementEffect)
  | auto_approve (reason : PlacementPolicyReason) (effect : PlacementEffect)
  | operator_review (reason : PlacementPolicyReason) (effect : PlacementEffect).

Inductive PlacementPolicy := operator | bounded_auto.
Inductive WorkloadStatelessness := W_stateless | W_stateful | W_unknown.
Inductive AffectedNodeState := N_reachable | N_unreachable | N_unknown.

#[export] Instance PlacementPolicy_eq_dec : EqDecision PlacementPolicy.
Proof. solve_decision. Defined.
#[export] Instance WorkloadStatelessness_eq_dec : EqDecision WorkloadStatelessness.
Proof. solve_decision. Defined.
#[export] Instance AffectedNodeState_eq_dec : EqDecision AffectedNodeState.
Proof. solve_decision. Defined.

Record BoundedAutoInput := mkInput {
  bi_policy : option PlacementPolicy;
  bi_approvedNodeIds : option Json;
  bi_candidateNodeIds : option Json;
  bi_hasPriorApproval : option bool;
  bi_statelessness : option WorkloadStatelessness;
  bi_pinDriven : option bool;
  bi_cordonOverride : option bool;
  bi_cordonDrivenRemoval : option bool;
  bi_affectedNodeState : option AffectedNodeState;
  bi_conflictingOperation : option bool;
  bi_evidenceReadable : option bool;
  bi_evidenceWellFormed : option bool;
}.

(** A flag that is [true], not undefined. *)
Definition is_set (b : option bool) : bool := bool_decide (b = Some true).

Definition setDifference (from to : list NodeId) : list NodeId :=
  filter (fun id => id ∉ to) from.

(** The numbers of a list; nothing of anything else. *)
Definition nodeIdList (value : option Json) : list NodeId :=
  match value with
  | Some (JArr items) => omap (fun v => match v with JNum q => Some q | _ => None end) items
  | _ => []
  end.

Definition sort_ids (l : list NodeId) : list NodeId := merge_sort Qcle l.

Definition decideBoundedAutoPlacement (input : BoundedAutoInput) : PlacementDecision :=
  let approved := nodeIdList (bi_approvedNodeIds input) in
  let candidate := nodeIdList (bi_candidateNodeIds input) in
  let additions := sort_ids (setDifference candidate approved) in
  let removals := sort_ids (setDifference approved candidate) in
  let effect := mkEffect additions removals in
  let review reason := operator_review reason effect in
  if negb (bool_decide (bi_policy input = Some bounded_auto)) then review policy_is_operator
  else if is_set (bi_conflictingOperation input) then review conflicting_operation
  else if bool_decide (bi_evidenceReadable input = Some false) then review missing_evidence
  else if bool_decide (bi_evidenceWellFormed input = Some false) then review malformed_evidence
  else if (length additions =? 0)%nat && (length removals =? 0)%nat then no_action effect
  else if negb (is_set (bi_hasPriorApproval input)) && (1 <? length candidate)%nat
       then review first_multi_node_placement
  else if (0 <? length additions)%nat && (0 <? length removals)%nat
       then review mixed_add_and_remove
  else if (1 <? length additions)%nat then review multiple_additions
  else if (1 <? length removals)%nat then review multiple_removals
  else match bi_statelessness input with
  | None | Some W_stateful => review stateful_workload
  | Some W_unknown => review unknown_workload
  | Some W_stateless =>
      if is_set (bi_cordonOverride input) then review cordon_override
      else if is_set (bi_cordonDrivenRemoval input) then review cordon_driven_removal
      else if is_set (bi_pinDriven input) then review pin_driven_placement
      else if bool_decide (bi_affectedNodeState input = Some N_unreachable) then review stale_node
      else if bool_decide (bi_affectedNodeState input = Some N_unknown)
           then review unknown_connectivity
      else if (length candidate =? 0)%nat then review destructive_effect
      else if (length additions =? 1)%nat then auto_approve stateless_addition effect
      else auto_approve stateless_removal effect
  end.

(** ** Theorems *)

(** Everything the policy asks of a change before it approves it unattended. *)
Record Safe (input : BoundedAutoInput) : Prop := {
  sf_policy : bi_policy input = Some bounded_auto;
  sf_idle : is_set (bi_conflictingOperation input) = false;
  sf_readable : bi_evidenceReadable input <> Some false;
  sf_wellFormed : bi_evidenceWellFormed input <> Some false;
  sf_stateless : bi_statelessness input = Some W_stateless;
  sf_cordon : is_set (bi_cordonOverride input) = false;
  sf_cordonDriven : is_set (bi_cordonDrivenRemoval input) = false;
  sf_pin : is_set (bi_pinDriven input) = false;
  sf_reachable : bi_affectedNodeState input <> Some N_unreachable;
  sf_known : bi_affectedNodeState input <> Some N_unknown;
  sf_nonempty : nodeIdList (bi_candidateNodeIds input) <> [];
  sf_first : is_set (bi_hasPriorApproval input) = true \/
    (length (nodeIdList (bi_candidateNodeIds input)) <= 1)%nat;
}.

Lemma length_sort_ids l : length (sort_ids l) = length l.
Proof. unfold sort_ids. by rewrite merge_sort_Permutation. Qed.

Lemma elem_of_setDifference x from to : x ∈ setDifference from to <-> x ∈ from /\ x ∉ to.
Proof. unfold setDifference. rewrite list_elem_of_filter. naive_solver. Qed.

Lemma length_one {A} (l : list A) : length l = 1%nat -> exists x, l = [x].
Proof. destruct l as [|x [|]]; try done. eauto. Qed.

(** The change adds one node and removes none, or removes one and adds none. *)
Definition OneMove (adds rems : list NodeId) (reason : PlacementPolicyReason) : Prop :=
  (length adds = 1%nat /\ rems = [] /\ reason = stateless_addition) \/
  (adds = [] /\ length rems = 1%nat /\ reason = stateless_removal).

Section shape.
Variable input : BoundedAutoInput.
Let approved := nodeIdList (bi_approvedNodeIds input).
Let candidate := nodeIdList (bi_candidateNodeIds input).
Let adds := setDifference candidate approved.
Let rems := setDifference approved candidate.

Lemma approved_is_safe reason eff :
  decideBoundedAutoPlacement input = auto_approve reason eff ->
  Safe input /\ eff = mkEffect (sort_ids adds) (sort_ids rems) /\ OneMove adds rems reason.
Proof.
  unfold decideBoundedAutoPlacement. fold approved candidate. fold adds rems.
  rewrite !length_sort_ids. intros H.
  destruct (bool_decide (bi_policy input = Some bounded_auto)) eqn:Hp; [|done]. simpl in H.
  destruct (is_set (bi_conflictingOperation input)) eqn:Hc; [done|].
  destruct (bool_decide (bi_evidenceReadable input = Some false)) eqn:Hr; [done|].
  destruct (bool_decide (bi_evidenceWellFormed input = Some false)) eqn:Hw; [done|].
  destruct ((length adds =? 0)%nat && (length rems =? 0)%nat) eqn:Hz; [done|].
  destruct (negb (is_set (bi_hasPriorApproval input)) && (1 <? length candidate)%nat) eqn:Hf;
    [done|].
  destruct ((0 <? length adds)%nat && (0 <? length rems)%nat) eqn:Hm; [done|].
  destruct (1 <? length adds)%nat eqn:Ha; [done|].
  destruct (1 <? length rems)%nat eqn:Hrm; [done|].
  destruct (bi_statelessness input) as [[]|] eqn:Hs; try done.
  destruct (is_set (bi_cordonOverride input)) eqn:Hco; [done|].
  destruct (is_set (bi_cordonDrivenRemoval input)) eqn:Hcd; [done|].
  destruct (is_set (bi_pinDriven input)) eqn:Hpin; [done|].
  destruct (bool_decide (bi_affectedNodeState input = Some N_unreachable)) eqn:Hun; [done|].
  destruct (bool_decide (bi_affectedNodeState input = Some N_unknown)) eqn:Huk; [done|].
  destruct (length candidate =? 0)%nat eqn:Hcand; [done|].
  apply bool_decide_eq_true in Hp. apply bool_decide_eq_false in Hr, Hw, Hun, Huk.
  split.
  { split; try done.
    - intros E. fold candidate in E. by rewrite E in Hcand.
    - fold candidate. apply andb_false_iff in Hf as [Hf|Hf]; [left; by apply negb_false_iff in Hf|].
      right. apply Nat.ltb_ge in Hf. done. }
  destruct (length adds =? 1)%nat eqn:E; injection H as <- <-; (split; [done|]).
  + left. apply Nat.eqb_eq in E. split; [done|]. split; [|done].
    rewrite E in Hm. simpl in Hm. destruct rems; done.
  + right. apply Nat.eqb_neq in E. apply Nat.ltb_ge in Ha, Hrm.
    assert (length adds = 0%nat) as E0 by lia. rewrite E0 in Hz. simpl in Hz.
    apply Nat.eqb_neq in Hz. split; [by destruct adds|]. split; [lia|done].
Qed.

Lemma safe_is_approved reason :
  Safe input -> OneMove adds rems reason ->
  decideBoundedAutoPlacement input = auto_approve reason (mkEffect (sort_ids adds) (sort_ids rems)).
Proof.
  unfold decideBoundedAutoPlacement. fold approved candidate. fold adds rems.
  rewrite !length_sort_ids. intros [] Hshape. rewrite sf_policy0. simpl.
  rewrite sf_idle0, sf_stateless0, sf_cordon0, sf_cordonDriven0, sf_pin0.
  rewrite !bool_decide_eq_false_2 by done.
  assert ((length candidate =? 0)%nat = false) as Hne
    by (apply Nat.eqb_neq; fold candidate in sf_nonempty0; by destruct candidate).
  assert (negb (is_set (bi_hasPriorApproval input)) && (1 <? length candidate)%nat = false) as ->.
  { destruct sf_first0 as [->|Hl]; [done|]. apply andb_false_iff. right. by apply Nat.ltb_ge. }
  rewrite Hne.
  destruct Hshape as [(Ha & -> & ->)|(-> & Hr & ->)]; simpl; [by rewrite Ha|by rewrite Hr].
Qed.
End shape.

(** C40: the policy approves a change by itself exactly when every safety
    condition holds and the candidate adds one node to the approved set or
    removes one from it, and nothing else; the reason says which. *)
Theorem auto_placement_exact input reason eff :
  let approved := nodeIdList (bi_approvedNodeIds input) in
  let candidate := nodeIdList (bi_candidateNodeIds input) in
  let adds := setDifference candidate approved in
  let rems := setDifference approved candidate in
  decideBoundedAutoPlacement input = auto_approve reason eff <->
  Safe input /\ eff = mkEffect (sort_ids adds) (sort_ids rems) /\
  ((length adds = 1%nat /\ rems = [] /\ reason = stateless_addition) \/
   (adds = [] /\ length rems = 1%nat /\ reason = stateless_removal)).
Proof. split; [apply approved_is_safe|]. intros (? & -> & ?). by apply safe_is_approved. Qed.

(** An approved change moves exactly one node: as sets, the candidate is
    the approved set with one node added, or the approved set is the candidate
    with one node added, and then the candidate is not empty. *)
Theorem auto_placement_moves_one_node input reason eff :
  decideBoundedAutoPlacement input = auto_approve reason eff ->
  let approved := nodeIdList (bi_approvedNodeIds input) in
  let candidate := nodeIdList (bi_candidateNodeIds input) in
  exists n,
    (n ∉ approved /\ forall x, x ∈ candidate <-> x ∈ approved \/ x = n) \/
    (n ∉ candidate /\ candidate <> [] /\ forall x, x ∈ approved <-> x ∈ candidate \/ x = n).
Proof.
  intros H approved candidate.
  assert (Hs : Safe input /\ ((length (setDifference candidate approved) = 1%nat /\
      setDifference approved candidate = []) \/ (setDifference candidate approved = [] /\
      length (setDifference approved candidate) = 1%nat))).
  { apply approved_is_safe in H as (? & _ & [(? & ? & _)|(? & ? & _)]); naive_solver. }
  destruct Hs as [Hs [[[n Hn]%length_one H0]|[H0 [n Hn]%length_one]]]; exists n.
  - left. pose proof (fun x => elem_of_setDifference x candidate approved) as E1.
    pose proof (fun x => elem_of_setDifference x approved candidate) as E2.
    rewrite Hn in E1. rewrite H0 in E2. setoid_rewrite list_elem_of_singleton in E1.
    split; [by apply (E1 n)|]. intros x. specialize (E1 x). specialize (E2 x).
    rewrite elem_of_nil in E2. destruct (decide (x ∈ approved)), (decide (x ∈ candidate)); naive_solver.
  - right. pose proof (fun x => elem_of_setDifference x candidate approved) as E1.
    pose proof (fun x => elem_of_setDifference x approved candidate) as E2.
    rewrite Hn in E2. rewrite H0 in E1. setoid_rewrite list_elem_of_singleton in E2.
    split; [by apply (E2 n)|]. split; [apply Hs|]. intros x. specialize (E1 x). specialize (E2 x).
    rewrite elem_of_nil in E1. destruct (decide (x ∈ approved)), (decide (x ∈ candidate)); naive_solver.
Qed.

(** A second node for a stateless workload, approved before on node 1. *)
Definition ex_addition : BoundedAutoInput :=
  mkInput (Some bounded_auto) (Some (JArr [JInt 1])) (Some (JArr [JInt 2; JInt 1])) (Some true)
    (Some W_stateless) (Some false) (Some false) (Some false) (Some N_reachable) (Some false)
    (Some true) (Some true).

Lemma auto_placement_moves_one_node_witness :
  decideBoundedAutoPlacement ex_addition
    = auto_approve stateless_addition (mkEffect [Qc_of_Z 2] []) /\
  exists n, (n ∉ [Qc_of_Z 1] /\ forall x, x ∈ [Qc_of_Z 2; Qc_of_Z 1] <-> x ∈ [Qc_of_Z 1] \/ x = n) \/
    (n ∉ [Qc_of_Z 2; Qc_of_Z 1] /\ [Qc_of_Z 2; Qc_of_Z 1] <> [] /\
     forall x, x ∈ [Qc_of_Z 1] <-> x ∈ [Qc_of_Z 2; Qc_of_Z 1] \/ x = n).
Proof.
  split; [vm_compute; reflexivity|].
  refine (auto_placement_moves_one_node ex_addition stateless_addition
    (mkEffect [Qc_of_Z 2] []) _). vm_compute. reflexivity.
Defined.
