(* ===== verification/Backoff.v ===== *)
(** * Failure classification and retry timing (backend/src/services/gitops/backoff.ts)

    What a failed reconcile attempt is classified as, when it is retried, and
    the poll interval of a source. [Math.random()] is an argument; delays are
    exact rationals, where the code rounds to a double. *)

From Stdlib Require Import QArith Qminmax Lqa.
From S2P Require Import Prelude.

#[global] Open Scope Z_scope.

Inductive TransportFailureReason :=
  | invalid_url | unsafe_target | target_unresolved | ssh_auth_required | invalid_ref
  | git_missing | git_old | ref_not_found | unsupported_ref | tip_changed | size_exceeded
  | timeout | redirect_scope | exit_status.

Inductive GitSourceErrorCode :=
  | REPO_NOT_FOUND | AUTH_FAILED | REF_NOT_FOUND | REF_DELETED | UNSUPPORTED_REF
  | SSH_HOST_KEY_FAILED | FILE_NOT_FOUND | RATE_LIMITED | NETWORK_TIMEOUT | GIT_ERROR
  | STALE_PLAN | PLAN_FINGERPRINT_REQUIRED | PLAN_BLOCKED | LEGACY_PENDING
  | PLAN_UNAVAILABLE | OPERATION_IN_FLIGHT | SOURCE_CLAIMED_BY_BLUEPRINT
  | SOPS_DECRYPT_FAILED.

Inductive FailureEvidence :=
  | git_source_error (code : GitSourceErrorCode) (transportReason : option TransportFailureReason)
  | policy_unavailable
  | persistence_unavailable
  | target_binding_invalid
  | target_unavailable
  | target_mutation_failed
  | blueprint_unavailable
  | interrupted.

Inductive FailureDisposition :=
  | C_supersession
  | C_transient (retryCeiling : Z)
  | C_permanent
  | C_operator_action_required
  | C_degraded
  | C_target_permanent
  | C_target_transient
  | C_target_mutation_failed
  | C_blocked
  | C_reconcile.

Definition DEFAULT_TRANSIENT_CEILING : Z := 8.
Definition LOW_TRANSIENT_CEILING : Z := 3.

Definition TRANSIENT_DEFAULT : FailureDisposition := C_transient DEFAULT_TRANSIENT_CEILING.
Definition TRANSIENT_LOW : FailureDisposition := C_transient LOW_TRANSIENT_CEILING.

(** [None] for [exit], which the table leaves to the code. *)
Definition REASON_DISPOSITION (r : TransportFailureReason) : option FailureDisposition :=
  match r with
  | tip_changed => Some C_supersession
  | timeout | target_unresolved => Some TRANSIENT_DEFAULT
  | invalid_url | unsafe_target | invalid_ref | redirect_scope | git_missing | git_old
  | size_exceeded | ssh_auth_required | ref_not_found | unsupported_ref => Some C_permanent
  | exit_status => None
  end.

Definition CODE_DISPOSITION (c : GitSourceErrorCode) : FailureDisposition :=
  match c with
  | REPO_NOT_FOUND | AUTH_FAILED | REF_NOT_FOUND | REF_DELETED | UNSUPPORTED_REF
  | SSH_HOST_KEY_FAILED => C_permanent
  | RATE_LIMITED | NETWORK_TIMEOUT => TRANSIENT_DEFAULT
  | GIT_ERROR => TRANSIENT_LOW
  | OPERATION_IN_FLIGHT => C_reconcile
  | FILE_NOT_FOUND | STALE_PLAN | PLAN_FINGERPRINT_REQUIRED | PLAN_BLOCKED | LEGACY_PENDING
  | PLAN_UNAVAILABLE | SOURCE_CLAIMED_BY_BLUEPRINT | SOPS_DECRYPT_FAILED =>
      C_operator_action_required
  end.

Definition classifyFailure (evidence : FailureEvidence) : FailureDisposition :=
  match evidence with
  | git_source_error code reason =>
      match reason ≫= REASON_DISPOSITION with
      | Some d => d
      | None => CODE_DISPOSITION code
      end
  | policy_unavailable => C_degraded
  | persistence_unavailable => TRANSIENT_DEFAULT
  | target_binding_invalid => C_target_permanent
  | target_unavailable => C_target_transient
  | target_mutation_failed => C_target_mutation_failed
  | blueprint_unavailable => C_blocked
  | interrupted => C_reconcile
  end.

Definition GitSourceErrorCode_str (c : GitSourceErrorCode) : string :=
  match c with
  | REPO_NOT_FOUND => "REPO_NOT_FOUND" | AUTH_FAILED => "AUTH_FAILED"
  | REF_NOT_FOUND => "REF_NOT_FOUND" | REF_DELETED => "REF_DELETED"
  | UNSUPPORTED_REF => "UNSUPPORTED_REF" | SSH_HOST_KEY_FAILED => "SSH_HOST_KEY_FAILED"
  | FILE_NOT_FOUND => "FILE_NOT_FOUND" | RATE_LIMITED => "RATE_LIMITED"
  | NETWORK_TIMEOUT => "NETWORK_TIMEOUT" | GIT_ERROR => "GIT_ERROR"
  | STALE_PLAN => "STALE_PLAN" | PLAN_FINGERPRINT_REQUIRED => "PLAN_FINGERPRINT_REQUIRED"
  | PLAN_BLOCKED => "PLAN_BLOCKED" | LEGACY_PENDING => "LEGACY_PENDING"
  | PLAN_UNAVAILABLE => "PLAN_UNAVAILABLE" | OPERATION_IN_FLIGHT => "OPERATION_IN_FLIGHT"
  | SOURCE_CLAIMED_BY_BLUEPRINT => "SOURCE_CLAIMED_BY_BLUEPRINT"
  | SOPS_DECRYPT_FAILED => "SOPS_DECRYPT_FAILED"
  end.

Definition ERROR_CODES : list GitSourceErrorCode :=
  [REPO_NOT_FOUND; AUTH_FAILED; REF_NOT_FOUND; REF_DELETED; UNSUPPORTED_REF;
   SSH_HOST_KEY_FAILED; FILE_NOT_FOUND; RATE_LIMITED; NETWORK_TIMEOUT; GIT_ERROR; STALE_PLAN;
   PLAN_FINGERPRINT_REQUIRED; PLAN_BLOCKED; LEGACY_PENDING; PLAN_UNAVAILABLE;
   OPERATION_IN_FLIGHT; SOURCE_CLAIMED_BY_BLUEPRINT; SOPS_DECRYPT_FAILED].

(** [isGitSourceErrorCode], with the code it narrows to. *)
Definition isGitSourceErrorCode (code : string) : option GitSourceErrorCode :=
  head (filter (fun c => GitSourceErrorCode_str c = code) ERROR_CODES).

(** ** Timing *)

Definition BASE_DELAY_MS : Z := 60000.
Definition MAX_DELAY_MS : Z := 3600000.
Definition JITTER_RATIO : Q := 1 # 10.

Definition capped_delay (retryCount : Z) : Z := Z.min (BASE_DELAY_MS * 2 ^ retryCount) MAX_DELAY_MS.

(** [random] is what [Math.random()] gave. *)
Definition nextRetryAt (random now : Q) (retryCount : Z) (providerFloorMs : option Q) : Q :=
  let capped := inject_Z (capped_delay retryCount) in
  let jittered := (capped + capped * JITTER_RATIO * (random * 2 - 1))%Q in
  let delay := match providerFloorMs with
               | Some floor => Qmax jittered floor
               | None => jittered
               end in
  (now + delay)%Q.

Definition MIN_POLL_INTERVAL_SECS : Z := 60.

Definition effectivePollIntervalSecs (perSourceSecs : option Z) (globalIntervalMins : Z) : Z :=
  match perSourceSecs with
  | Some secs => if secs >? 0 then Z.max secs MIN_POLL_INTERVAL_SECS else 0
  | None =>
      let global := globalIntervalMins * 60 in
      if global >? 0 then Z.max global MIN_POLL_INTERVAL_SECS else 0
  end.

(** ** Theorems *)

Lemma capped_delay_bounds n : 0 <= n -> BASE_DELAY_MS <= capped_delay n <= MAX_DELAY_MS.
Proof.
  intros Hn. unfold capped_delay, BASE_DELAY_MS, MAX_DELAY_MS.
  pose proof (Z.pow_pos_nonneg 2 n ltac:(lia) Hn). lia.
Qed.

Lemma capped_delay_mono n m : 0 <= n <= m -> capped_delay n <= capped_delay m.
Proof.
  intros H. unfold capped_delay, BASE_DELAY_MS, MAX_DELAY_MS.
  pose proof (Z.pow_le_mono_r 2 n m ltac:(lia) ltac:(lia)). lia.
Qed.

(** A retry is due within ten percent of [60s * 2^n] capped at one hour,
    and never before the provider's floor; so never sooner than 54 seconds nor,
    without a floor, later than 66 minutes, and the cap grows with the number of
    retries. *)
Theorem retry_delay_bounds random now n floor :
  (0 <= random)%Q -> (random <= 1)%Q -> 0 <= n ->
  let capped := inject_Z (capped_delay n) in
  let delay := (nextRetryAt random now n floor - now)%Q in
  (capped * (9 # 10) <= delay)%Q /\ (54000 <= delay)%Q /\
  match floor with
  | Some f => (f <= delay)%Q /\ ((delay <= capped * (11 # 10))%Q \/ (delay == f)%Q)
  | None => (delay <= capped * (11 # 10))%Q /\ (delay <= 3960000)%Q
  end /\ (forall m, n <= m -> capped_delay n <= capped_delay m).
Proof.
  intros H0 H1 Hn capped delay.
  destruct (capped_delay_bounds n Hn) as [Hlo Hhi].
  rewrite Zle_Qle in Hlo, Hhi. fold capped in Hlo, Hhi.
  change (inject_Z BASE_DELAY_MS) with (60000 # 1)%Q in Hlo.
  change (inject_Z MAX_DELAY_MS) with (3600000 # 1)%Q in Hhi.
  assert (Hj : (capped * (9 # 10) <= capped + capped * JITTER_RATIO * (random * 2 - 1))%Q /\
    (capped + capped * JITTER_RATIO * (random * 2 - 1) <= capped * (11 # 10))%Q).
  { unfold JITTER_RATIO. split; nra. }
  destruct Hj as [Hj1 Hj2]. subst delay. unfold nextRetryAt. fold capped.
  set (j := (capped + capped * JITTER_RATIO * (random * 2 - 1))%Q) in *.
  assert (Hmono : forall m, n <= m -> capped_delay n <= capped_delay m)
    by (intros m Hm; apply capped_delay_mono; lia).
  destruct floor as [f|]; split_and!; try done; try lra.
  - pose proof (Q.le_max_l j f). lra.
  - pose proof (Q.le_max_l j f). lra.
  - pose proof (Q.le_max_r j f). lra.
  - destruct (Q.max_spec j f) as [[_ E]|[_ E]]; rewrite E; [right|left]; lra.
Qed.

Lemma retry_delay_bounds_witness :
  (54000 <= nextRetryAt (1 # 2) 0 3 None - 0)%Q.
Proof.
  refine (proj1 (proj2 (retry_delay_bounds (1 # 2) 0 3 None _ _ _)));
    [unfold Qle; simpl; lia | unfold Qle; simpl; lia | lia].
Defined.

(** A poll interval is off, or at least a minute, whatever is configured; it is
    off exactly when the setting in force is not positive. *)
Lemma poll_interval_floor per global :
  let secs := effectivePollIntervalSecs per global in
  (secs = 0 \/ MIN_POLL_INTERVAL_SECS <= secs) /\
  (secs = 0 <-> default (global * 60) per <= 0) /\
  (secs <> 0 -> default (global * 60) per <= secs).
Proof.
  unfold effectivePollIntervalSecs, MIN_POLL_INTERVAL_SECS.
  destruct per as [p|]; simpl; destruct (_ >? 0) eqn:E; zbool; lia.
Qed.

(** Every stored failure class narrows to the code it names, and to nothing else. *)
Lemma isGitSourceErrorCode_exact code c :
  isGitSourceErrorCode code = Some c <-> GitSourceErrorCode_str c = code.
Proof.
  split.
  - intros H. by apply head_filter_Some in H.
  - intros <-. by destruct c.
Qed.
