(* ===== verification/Heartbeat.v ===== *)
(** * Tunnel heartbeat (backend/src/utils/wsHeartbeat.ts)

    Pings a tunnel WebSocket every interval and terminates it once too many
    intervals pass without a sign of life: a pong, a message, or a send buffer
    that shrinks. *)

From S2P Require Import Prelude.

Definition WS_HEARTBEAT_MAX_MISSED : Z := 2.

(** The closure's variables; [hb_stopped] once the interval is cleared. *)
Record Heartbeat := mkHeartbeat {
  hb_missed : Z;
  hb_lastBuffered : Z;
  hb_stopped : bool;
}.

Inductive HbEffect := Ping | Terminate.

Abbreviation HM := (act Heartbeat HbEffect).

Definition startWsHeartbeat (bufferedAmount : Z) : Heartbeat := mkHeartbeat 0 bufferedAmount false.

Definition stop : HM unit :=
  modify (fun h => mkHeartbeat (hb_missed h) (hb_lastBuffered h) true).

(** The 'pong' and 'message' listener; removed by [stop]. *)
Definition markAlive : HM unit :=
  h ← get;
  if hb_stopped h then skip
  else modify (fun h => mkHeartbeat 0 (hb_lastBuffered h) (hb_stopped h)).

(** The interval's callback; [isOpen] and [bufferedAmount] of the WebSocket. *)
Definition tick (maxMissed : Z) (isOpen : bool) (bufferedAmount : Z) : HM unit :=
  h ← get;
  if hb_stopped h then skip
  else if negb isOpen then skip
  else
    let missed := if bufferedAmount <? hb_lastBuffered h then 0 else hb_missed h in
    modify (fun h => mkHeartbeat missed bufferedAmount (hb_stopped h));;
    if missed >=? maxMissed then stop;; tell Terminate
    else
      modify (fun h => mkHeartbeat (missed + 1) (hb_lastBuffered h) (hb_stopped h));;
      tell Ping.

(** ** Runs *)

Inductive HbEvent := Alive | Tick (bufferedAmount : Z).

Fixpoint hb_run (maxMissed : Z) (evs : list HbEvent) : HM unit :=
  match evs with
  | [] => skip
  | Alive :: evs => markAlive;; hb_run maxMissed evs
  | Tick b :: evs => tick maxMissed true b;; hb_run maxMissed evs
  end.

(** One silent interval: the buffer does not shrink. *)
Lemma tick_silent k b h : hb_stopped h = false -> hb_lastBuffered h <= b ->
  if hb_missed h >=? k
  then state (tick k true b) h = mkHeartbeat (hb_missed h) b true /\
       effects (tick k true b) h = [Terminate]
  else state (tick k true b) h = mkHeartbeat (hb_missed h + 1) b false /\
       effects (tick k true b) h = [Ping].
Proof.
  intros Hs Hb. unfold tick, stop. act_run. rewrite Hs. cbv iota.
  assert ((b <? hb_lastBuffered h) = false) as -> by lia. act_run.
  destruct (hb_missed h >=? k); act_run; by rewrite ?Hs.
Qed.

(** A run with buffers that never shrink. *)
Fixpoint silent (last : Z) (bs : list Z) : Prop :=
  match bs with
  | [] => True
  | b :: bs => last <= b /\ silent b bs
  end.

(** A peer that shows no sign of life is terminated by the tick after
    [maxMissed] missed ones, not before: the ticks until then ping it. *)
Theorem dead_peer_terminated k (bs : list Z) (b last : Z) :
  0 <= k -> silent last (bs ++ [b]) -> Z.of_nat (length bs) = k ->
  let m := hb_run k (map Tick (bs ++ [b])) in
  effects m (startWsHeartbeat last) = replicate (length bs) Ping ++ [Terminate] /\
  hb_stopped (state m (startWsHeartbeat last)) = true.
Proof.
  intros Hk Hsil Hlen m. subst m. unfold startWsHeartbeat.
  assert (Hgen : forall bs last m, silent last (bs ++ [b]) -> m + Z.of_nat (length bs) = k ->
    effects (hb_run k (map Tick (bs ++ [b]))) (mkHeartbeat m last false)
      = replicate (length bs) Ping ++ [Terminate] /\
    hb_stopped (state (hb_run k (map Tick (bs ++ [b]))) (mkHeartbeat m last false)) = true);
    [|by apply (Hgen bs last 0)].
  clear. intros bs. induction bs as [|c bs IH]; intros last m Hs Hm; simpl in *.
  - destruct Hs as [Hs _]. pose proof (tick_silent k b (mkHeartbeat m last false) eq_refl Hs) as H.
    simpl in H. replace (m >=? k) with true in H by (rewrite Z.geb_leb; lia).
    destruct H as [E1 E2]. rewrite effects_bind, state_bind, E1, E2. done.
  - destruct Hs as [Hs Hsil]. pose proof (tick_silent k c (mkHeartbeat m last false) eq_refl Hs) as H.
    simpl in H. replace (m >=? k) with false in H by (rewrite Z.geb_leb; lia).
    destruct H as [E1 E2]. rewrite effects_bind, state_bind, E1, E2.
    destruct (IH c (m + 1) Hsil ltac:(lia)) as [-> ->]. done.
Qed.

Lemma dead_peer_terminated_witness :
  effects (hb_run WS_HEARTBEAT_MAX_MISSED (map Tick [0; 0; 0])) (startWsHeartbeat 0)
  = [Ping; Ping; Terminate].
Proof.
  refine (proj1 (dead_peer_terminated WS_HEARTBEAT_MAX_MISSED [0; 0] 0 0 _ _ _));
    [unfold WS_HEARTBEAT_MAX_MISSED; lia | simpl; lia | reflexivity].
Defined.

(** [signs k m evs]: no more than [k] ticks pass without a sign of life, [m]
    having passed already. *)
Fixpoint signs (k m : Z) (evs : list HbEvent) : Prop :=
  match evs with
  | [] => True
  | Alive :: evs => signs k 0 evs
  | Tick _ :: evs => m < k /\ signs k (m + 1) evs
  end.

(** A peer that shows a sign of life at least every [maxMissed] ticks is
    never terminated, however its send buffer moves. *)
Theorem live_peer_kept k last evs : signs k 0 evs ->
  let m := hb_run k evs in
  Terminate ∉ effects m (startWsHeartbeat last) /\
  hb_stopped (state m (startWsHeartbeat last)) = false.
Proof.
  intros Hs m. subst m. unfold startWsHeartbeat.
  assert (Hgen : forall evs m h, signs k m evs -> hb_stopped h = false -> hb_missed h <= m ->
    0 <= m -> Terminate ∉ effects (hb_run k evs) h /\ hb_stopped (state (hb_run k evs) h) = false);
    [|by apply (Hgen evs 0)].
  clear. intros evs. induction evs as [|[|b] evs IH]; intros m h Hs Hst Hm H0; simpl in *.
  - split; [|done]. apply not_elem_of_nil.
  - unfold markAlive. act_run. rewrite Hst. act_run. apply (IH 0); simpl; try done; lia.
  - destruct Hs as [Hlt Hs]. unfold tick, stop. act_run. rewrite Hst. act_run.
    set (mi := if b <? hb_lastBuffered h then 0 else hb_missed h).
    assert (Hmi : mi <= m) by (subst mi; destruct (_ <? _); lia).
    replace (mi >=? k) with false by (rewrite Z.geb_leb; lia). act_run.
    destruct (IH (m + 1) (mkHeartbeat (mi + 1) b (hb_stopped h)) Hs) as [H1 H2];
      [done|simpl; lia|lia|]. split; [|done]. rewrite not_elem_of_cons. done.
Qed.

Lemma live_peer_kept_witness :
  Terminate ∉ effects (hb_run 2 [Tick 0; Tick 5; Alive; Tick 5; Tick 9; Alive])
    (startWsHeartbeat 0).
Proof.
  refine (proj1 (live_peer_kept 2 0 [Tick 0; Tick 5; Alive; Tick 5; Tick 9; Alive] _)).
  simpl. lia.
Defined.
