(* ===== verification/Reconcile.v ===== *)
(** * Source projection and reconcile outcomes
    (backend/src/services/gitops/derive.ts, [deriveSource];
     backend/src/services/gitops/outcomes.ts)

    What an application row and its generation rows say about the state of a
    Git source, the outcome that state is reported as, and the reader of an
    outcome stored in a JSON column. [JSON.parse] and the generations table are
    parameters. A row is the columns the projection reads; an SQLite integer is
    an unbounded [Z]. *)

From Stdlib Require Import QArith Qcanon.
From S2P Require Import Prelude Json.

(** ** [Date.prototype.toISOString] *)

Definition MS_PER_DAY : Z := 86400000.
(** The largest time value of ECMAScript. *)
Definition MAX_TIME : Z := 8640000000000000.

(** Year, month and day of a day number, in the proleptic Gregorian calendar;
    day 0 is 1970-01-01. Years are counted from March, in cycles of 400. *)
Definition civil_of_cycle (doe : Z) : Z * Z * Z :=
  let yoe := (doe - doe / 1460 + doe / 36524 - doe / 146096) / 365 in
  let doy := doe - (365 * yoe + yoe / 4 - yoe / 100) in
  let mp := (5 * doy + 2) / 153 in
  (yoe, mp, doy - (153 * mp + 2) / 5 + 1).

Definition civil (day : Z) : Z * Z * Z :=
  let z := day + 719468 in
  let '(yoe, mp, d) := civil_of_cycle (z mod 146097) in
  let m := if mp <? 10 then mp + 3 else mp - 9 in
  (yoe + 400 * (z / 146097) + (if m <=? 2 then 1 else 0), m, d).

Fixpoint zeros (n : nat) : string :=
  match n with O => "" | S n => "0" +:+ zeros n end.
Definition pad (w : nat) (z : Z) : string :=
  let s := pretty z in zeros (w - String.length s) +:+ s.

Definition iso_year (y : Z) : string :=
  if (0 <=? y) && (y <=? 9999) then pad 4 y
  else (if y <? 0 then "-" else "+") +:+ pad 6 (Z.abs y).

(** [None] is the [RangeError] of an invalid date. *)
Definition toISOString (ms : Z) : option string :=
  if Z.abs ms <=? MAX_TIME then
    let '(y, m, d) := civil (ms / MS_PER_DAY) in
    let t := ms mod MS_PER_DAY in
    Some (iso_year y +:+ "-" +:+ pad 2 m +:+ "-" +:+ pad 2 d +:+ "T" +:+
          pad 2 (t / 3600000) +:+ ":" +:+ pad 2 (t / 60000 mod 60) +:+ ":" +:+
          pad 2 (t / 1000 mod 60) +:+ "." +:+ pad 3 (t mod 1000) +:+ "Z")
  else None.

(** ** The application row *)

Inductive GitOpsTargetMode := direct | inline_blueprint | blueprint.
Inductive GitOpsLifecycleStatus := active | creating | detached | deleted.
Inductive ApplicationActiveStage := fetch_started | apply_started | deploy_started | recovery_started.
Inductive RecoveryPhase := capturing | restoring | compensating | complete | R_failed.
Inductive ApplicationFailureStage := F_fetch | F_validation | F_apply | F_create | F_recovery.

#[export] Instance GitOpsLifecycleStatus_eq_dec : EqDecision GitOpsLifecycleStatus.
Proof. solve_decision. Defined.
#[export] Instance GitOpsTargetMode_eq_dec : EqDecision GitOpsTargetMode.
Proof. solve_decision. Defined.
#[export] Instance ApplicationActiveStage_eq_dec : EqDecision ApplicationActiveStage.
Proof. solve_decision. Defined.
#[export] Instance RecoveryPhase_eq_dec : EqDecision RecoveryPhase.
Proof. solve_decision. Defined.
#[export] Instance ApplicationFailureStage_eq_dec : EqDecision ApplicationFailureStage.
Proof. solve_decision. Defined.

Definition GitOpsLifecycleStatus_str (s : GitOpsLifecycleStatus) : string :=
  match s with
  | active => "active" | creating => "creating" | detached => "detached" | deleted => "deleted"
  end.
Definition ApplicationActiveStage_str (s : ApplicationActiveStage) : string :=
  match s with
  | fetch_started => "fetch_started" | apply_started => "apply_started"
  | deploy_started => "deploy_started" | recovery_started => "recovery_started"
  end.
Definition ApplicationFailureStage_str (s : ApplicationFailureStage) : string :=
  match s with
  | F_fetch => "fetch" | F_validation => "validation" | F_apply => "apply"
  | F_create => "create" | F_recovery => "recovery"
  end.

Record GitOpsApplicationRow := mkApp {
  app_id : string;
  app_lifecycle_status : GitOpsLifecycleStatus;
  app_target_mode : GitOpsTargetMode;
  app_configured_repo_url : option string;
  app_repo_identity_json : option string;
  app_configured_ref : option string;
  app_materialization_fingerprint : option string;
  app_desired_commit_sha : option string;
  app_fetched_commit_sha : option string;
  app_candidate_generation_id : option string;
  app_accepted_generation_id : option string;
  app_candidate_plan_blocked : Z;
  app_review_required : Z;
  app_review_block_reason : option string;
  app_active_operation_id : option string;
  app_active_operation_stage : option ApplicationActiveStage;
  app_active_generation_id : option string;
  app_source_suspended_reason : option string;
  app_next_poll_at : option Z;
  app_failure_stage : option ApplicationFailureStage;
  app_failure_class : option string;
  app_failure_at : option Z;
  app_retry_at : option Z;
  app_retry_count : Z;
  app_suspended_at : option Z;
  app_recovery_ref : option string;
  app_recovery_phase : option RecoveryPhase;
  app_interruption_stage : option ApplicationActiveStage;
  app_interruption_at : option Z;
  app_interruption_operation_id : option string;
  app_interruption_generation_id : option string;
}.

Record GitOpsGenerationRow := mkGeneration {
  gen_application_id : string;
  gen_commit_sha : string;
  gen_materialization_fingerprint : string;
}.

Record GitOpsLimitation := mkLimitation {
  lim_code : string; lim_message : string; lim_evidence : option string;
}.

(** ** The source facet *)

Record RepoIdentity := mkRepo { repo_host : string; repo_pathname : string }.

Record SourceIdentityFields := mkIdentity {
  si_configuredRepoUrl : string;
  si_repoIdentity : RepoIdentity;
  si_configuredRef : string;
  si_desiredCommitSha : option string;
  si_fetchedCommitSha : option string;
  si_candidateGenerationId : option string;
  si_acceptedGenerationId : option string;
}.

Inductive SourceReviewBlockReason := stateful_withdrawal.

(** The statuses that carry an identity, with the fields of each. *)
Inductive SourceStatus :=
  | never_reconciled
  | checking_fetching
  | application_generation_accepted
  | candidate_ready
  | source_conflict_blocker
  | source_reconcile_required
  | source_review_pending (reviewBlockReason : option SourceReviewBlockReason)
  | source_superseded (supersededGenerationId : string)
  | applying (activeOperationId activeGenerationId : string)
  | source_retry_scheduled (retryAt retryCount : Z)
  | source_poll_scheduled (nextPollAt : Z)
  | source_suspended (suspendedAt : Z) (suspendedReason : option string)
  | source_failed (failureStage : ApplicationFailureStage) (failureClass : string)
      (failureAt : Z) (retryAt : option Z) (retryCount : Z)
  | source_unknown (interruptedStage : ApplicationActiveStage) (interruptedAt : Z)
      (interruptedOperationId interruptedGenerationId : option string)
  | recovery_required (recoveryRef recoveryGenerationId : option string)
  | recovery_failed (recoveryRef recoveryGenerationId : option string)
      (failureClass : string) (failureAt : Z)
  | not_live (lifecycleStatus : GitOpsLifecycleStatus).

Inductive SourceFacet :=
  | not_applicable
  | facet (identity : SourceIdentityFields) (status : SourceStatus).

(** ** [deriveSource] *)

Section derive.
Variable json_parse : string -> option Json.
(** [store.getGeneration] *)
Variable getGeneration : string -> option GitOpsGenerationRow.

Definition repo_identity_invalid : GitOpsLimitation :=
  mkLimitation "repo_identity_invalid" "repo identity json is invalid" None.

Definition sourceIdentity (app : GitOpsApplicationRow)
    : list GitOpsLimitation * SourceIdentityFields :=
  let '(lims, repo) :=
    match truthy (app_repo_identity_json app) with
    | None => ([], mkRepo "" "")
    | Some text =>
        match json_parse text with
        | Some (JObj parsed) =>
            match string_field "host" parsed, string_field "pathname" parsed with
            | Some host, Some pathname => ([], mkRepo host pathname)
            | _, _ => ([repo_identity_invalid], mkRepo "" "")
            end
        | _ => ([repo_identity_invalid], mkRepo "" "")
        end
    end in
  (lims,
   mkIdentity (default "" (app_configured_repo_url app)) repo
     (default "" (app_configured_ref app))
     (app_desired_commit_sha app) (app_fetched_commit_sha app)
     (app_candidate_generation_id app) (app_accepted_generation_id app)).

Definition normalizeSourceReviewBlockReason (value : option string)
    : option SourceReviewBlockReason :=
  if bool_decide (value = Some "stateful_withdrawal") then Some stateful_withdrawal else None.

(** The generation row, if it exists under this application. *)
Definition ownGeneration (app : GitOpsApplicationRow) (id : string) : option GitOpsGenerationRow :=
  match getGeneration id with
  | Some g => if bool_decide (gen_application_id g = app_id app) then Some g else None
  | None => None
  end.

Definition candidateStatus (app : GitOpsApplicationRow) (id : string)
    : list GitOpsLimitation * SourceStatus :=
  match ownGeneration app id with
  | None =>
      ([mkLimitation "candidate_generation_invalid"
          "candidate generation row is missing or belongs to another application" (Some id)],
       source_reconcile_required)
  | Some generation =>
      ([],
       if bool_decide (Some (gen_materialization_fingerprint generation)
                       <> app_materialization_fingerprint app) then source_reconcile_required
       else if app_candidate_plan_blocked app =? 1 then source_conflict_blocker
       else if app_review_required app =? 1 then
         source_review_pending (normalizeSourceReviewBlockReason (app_review_block_reason app))
       else candidate_ready)
  end.

Definition acceptedStatus (app : GitOpsApplicationRow) (id : string)
    : list GitOpsLimitation * SourceStatus :=
  match ownGeneration app id with
  | None =>
      ([mkLimitation "accepted_generation_invalid"
          "accepted generation row is missing or belongs to another application" (Some id)],
       source_reconcile_required)
  | Some accepted =>
      ([],
       if bool_decide (truthy (app_desired_commit_sha app) = None)
          || bool_decide (Some (gen_materialization_fingerprint accepted)
                          <> app_materialization_fingerprint app)
          || bool_decide (Some (gen_commit_sha accepted) <> app_desired_commit_sha app)
       then source_reconcile_required
       else application_generation_accepted)
  end.

(** The status and the limitations noted while it was found, in the order of the
    early returns. *)
Definition sourceStatus (app : GitOpsApplicationRow) : list GitOpsLimitation * SourceStatus :=
  match app_lifecycle_status app with
  | (detached | deleted) as status => ([], not_live status)
  | _ =>
  if bool_decide (app_recovery_phase app = Some restoring)
     || bool_decide (app_recovery_phase app = Some compensating) then
    ([], recovery_required (app_recovery_ref app) None)
  else if bool_decide (app_recovery_phase app = Some R_failed)
     || bool_decide (app_failure_stage app = Some F_recovery) then
    ([], recovery_failed (app_recovery_ref app) None
           (default "unknown" (app_failure_class app)) (default 0 (app_failure_at app)))
  else match app_active_operation_stage app with
  | Some fetch_started => ([], checking_fetching)
  | Some apply_started =>
      ([], applying (default "" (app_active_operation_id app))
                    (default "" (app_active_generation_id app)))
  | _ =>
  match app_interruption_stage app with
  | Some ((fetch_started | apply_started) as stage) =>
      ([], source_unknown stage (default 0 (app_interruption_at app))
             (app_interruption_operation_id app) (app_interruption_generation_id app))
  | _ =>
  match truthyZ (app_suspended_at app) with
  | Some at_ => ([], source_suspended at_ (app_source_suspended_reason app))
  | None =>
  match app_failure_stage app with
  | Some ((F_fetch | F_validation | F_apply | F_create) as stage) =>
      ([], source_failed stage
             (default (ApplicationFailureStage_str stage) (app_failure_class app))
             (default 0 (app_failure_at app)) (app_retry_at app) (app_retry_count app))
  | _ =>
  match truthyZ (app_retry_at app) with
  | Some at_ => ([], source_retry_scheduled at_ (app_retry_count app))
  | None =>
  match truthy (app_candidate_generation_id app) with
  | Some id => candidateStatus app id
  | None =>
  match truthy (app_accepted_generation_id app) with
  | Some id => acceptedStatus app id
  | None =>
  match truthyZ (app_next_poll_at app) with
  | Some at_ => ([], source_poll_scheduled at_)
  | None => ([], never_reconciled)
  end end end end end end end end
  end.

Definition deriveSource (app : GitOpsApplicationRow) (limitations : list GitOpsLimitation)
    : list GitOpsLimitation * SourceFacet :=
  if bool_decide (app_target_mode app = inline_blueprint) then (limitations, not_applicable)
  else
    let '(l1, identity) := sourceIdentity app in
    let '(l2, status) := sourceStatus app in
    (limitations ++ l1 ++ l2, facet identity status).
End derive.

(** ** Outcomes *)

Inductive ReconcileOutcome :=
  | O_converged | O_no_source_change | O_candidate_already_fetched | O_pending_review
  | O_suspended | O_retry_scheduled | O_blocked | O_superseded | O_failed_previous_intact
  | O_recovery_required | O_unknown.

Inductive NextAction :=
  | A_none | A_review | A_resume | A_retry | A_resolve_conflict | A_configure_credentials
  | A_view_target_results.

#[export] Instance ReconcileOutcome_eq_dec : EqDecision ReconcileOutcome.
Proof. solve_decision. Defined.
#[export] Instance NextAction_eq_dec : EqDecision NextAction.
Proof. solve_decision. Defined.

Definition ReconcileOutcome_str (o : ReconcileOutcome) : string :=
  match o with
  | O_converged => "converged" | O_no_source_change => "no_source_change"
  | O_candidate_already_fetched => "candidate_already_fetched"
  | O_pending_review => "pending_review" | O_suspended => "suspended"
  | O_retry_scheduled => "retry_scheduled" | O_blocked => "blocked"
  | O_superseded => "superseded" | O_failed_previous_intact => "failed_previous_intact"
  | O_recovery_required => "recovery_required" | O_unknown => "unknown"
  end.

Definition NextAction_str (a : NextAction) : string :=
  match a with
  | A_none => "none" | A_review => "review" | A_resume => "resume" | A_retry => "retry"
  | A_resolve_conflict => "resolve_conflict"
  | A_configure_credentials => "configure_credentials"
  | A_view_target_results => "view_target_results"
  end.

Definition RECONCILE_OUTCOMES : list ReconcileOutcome :=
  [O_converged; O_no_source_change; O_candidate_already_fetched; O_pending_review;
   O_suspended; O_retry_scheduled; O_blocked; O_superseded; O_failed_previous_intact;
   O_recovery_required; O_unknown].

Definition NEXT_ACTIONS : list NextAction :=
  [A_none; A_review; A_resume; A_retry; A_resolve_conflict; A_configure_credentials;
   A_view_target_results].

(** [isReconcileOutcome] and [isNextAction], with the member named. *)
Definition isReconcileOutcome (value : option Json) : option ReconcileOutcome :=
  match value with
  | Some (JStr s) => head (filter (fun o => ReconcileOutcome_str o = s) RECONCILE_OUTCOMES)
  | _ => None
  end.

Definition isNextAction (value : option Json) : option NextAction :=
  match value with
  | Some (JStr s) => head (filter (fun a => NextAction_str a = s) NEXT_ACTIONS)
  | _ => None
  end.

Definition NO_NEWS_SETTLED_OUTCOMES : list string :=
  ["unknown"; "no_source_change"; "candidate_already_fetched"; "suspended"; "superseded";
   "retry_scheduled"].

Definition settledOutcomeCarriesNews (outcome : string) : bool :=
  negb (bool_decide (outcome ∈ NO_NEWS_SETTLED_OUTCOMES)).

Record ReconcileResult := mkResult {
  rr_outcome : ReconcileOutcome;
  rr_reason : string;
  rr_nextAction : NextAction;
  rr_retryAt : option Qc;
  rr_nextPollAt : option Qc;
  rr_commitSha : option string;
  rr_deployGitopsOperationId : option string;
}.

Definition parseReconcileResultPayload (value : Json) : option ReconcileResult :=
  match value with
  | JObj value =>
      match isReconcileOutcome (field "outcome" value), string_field "reason" value,
            isNextAction (field "nextAction" value) with
      | Some outcome, Some reason, Some nextAction =>
          Some (mkResult outcome reason nextAction
                  (number_field "retryAt" value) (number_field "nextPollAt" value)
                  (string_field "commitSha" value)
                  (string_field "deployGitopsOperationId" value))
      | _, _, _ => None
      end
  | _ => None
  end.

(** [facet.desiredCommitSha ?? facet.fetchedCommitSha ?? undefined] *)
Definition commitShaOf (i : SourceIdentityFields) : option string :=
  match si_desiredCommitSha i with Some s => Some s | None => si_fetchedCommitSha i end.

Definition plain (o : ReconcileOutcome) (reason : string) (a : NextAction)
    (commitSha : option string) : ReconcileResult :=
  mkResult o reason a None None commitSha None.

(** [None] when the date of the next poll cannot be written (a [RangeError]). *)
Definition outcomeFromSourceFacet (f : SourceFacet) : option ReconcileResult :=
  match f with
  | not_applicable =>
      Some (plain O_unknown "No GitOps application exists for this stack." A_none None)
  | facet i status =>
  let sha := commitShaOf i in
  match status with
  | never_reconciled => Some (plain O_unknown "The source has never been reconciled." A_none None)
  | checking_fetching | applying _ _ =>
      Some (plain O_unknown
        "A reconcile operation is currently in flight; no settled result yet." A_none sha)
  | source_reconcile_required =>
      Some (plain O_unknown
        "The source has advanced but reconciliation has not evaluated it yet." A_none sha)
  | application_generation_accepted =>
      Some (plain O_no_source_change
        "The configured ref still resolves to the accepted generation. This is not proof of full convergence."
        A_none sha)
  | candidate_ready =>
      Some (plain O_candidate_already_fetched
        "A candidate generation is already staged and awaiting acceptance." A_none sha)
  | source_review_pending _ =>
      Some (plain O_pending_review
        "A candidate is staged and requires explicit review before acceptance." A_review sha)
  | source_conflict_blocker =>
      Some (plain O_blocked
        "A local conflict is blocking the candidate from being accepted." A_resolve_conflict sha)
  | source_superseded _ =>
      Some (plain O_superseded
        "A newer revision superseded this candidate before it was accepted." A_none sha)
  | source_retry_scheduled retryAt retryCount =>
      Some (mkResult O_retry_scheduled
        ("A previous attempt failed transiently; retry " +:+ pretty (retryCount + 1)
           +:+ " is scheduled.")
        A_none (Some (Qc_of_Z retryAt)) None sha None)
  | source_poll_scheduled nextPollAt =>
      match toISOString nextPollAt with
      | Some date =>
          Some (mkResult O_no_source_change
            ("The source settled; the next poll is scheduled for " +:+ date +:+ ".")
            A_none None (Some (Qc_of_Z nextPollAt)) sha None)
      | None => None
      end
  | source_suspended _ suspendedReason =>
      Some (plain O_suspended
        (match truthy suspendedReason with
         | Some reason => "Reconciliation is suspended: " +:+ reason
         | None => "Reconciliation is suspended."
         end) A_resume sha)
  | source_failed failureStage failureClass _ retryAt _ =>
      Some (mkResult O_failed_previous_intact
        ("The " +:+ ApplicationFailureStage_str failureStage +:+ " stage failed (" +:+ failureClass
           +:+ "). The previously accepted generation is unchanged.")
        (match retryAt with Some _ => A_retry | None => A_configure_credentials end)
        (Qc_of_Z <$> retryAt) None sha None)
  | source_unknown interruptedStage _ _ _ =>
      Some (plain O_recovery_required
        ("An operation was interrupted at " +:+ ApplicationActiveStage_str interruptedStage
           +:+ " and its outcome is unproven.") A_view_target_results sha)
  | recovery_required _ _ =>
      Some (plain O_recovery_required
        "Recovery from an earlier failed mutation is still outstanding." A_view_target_results sha)
  | recovery_failed _ _ failureClass _ =>
      Some (plain O_recovery_required
        ("Recovery itself failed (" +:+ failureClass +:+ "); this needs operator attention.")
        A_view_target_results sha)
  | not_live lifecycleStatus =>
      Some (plain O_unknown
        ("The application is " +:+ GitOpsLifecycleStatus_str lifecycleStatus
           +:+ ", not live; there is nothing to reconcile.") A_none None)
  end
  end.

(** The dates of the ECMAScript range limits, of a leap day, and before the epoch. *)
Example toISOString_examples :
  map toISOString [0; 1709210096789; -1; 951782400000; -MAX_TIME; MAX_TIME; MAX_TIME + 1]
  = [Some "1970-01-01T00:00:00.000Z"; Some "2024-02-29T12:34:56.789Z";
     Some "1969-12-31T23:59:59.999Z"; Some "2000-02-29T00:00:00.000Z";
     Some "-271821-04-20T00:00:00.000Z"; Some "+275760-09-13T00:00:00.000Z"; None].
Proof. vm_compute. reflexivity. Qed.

(** ** What the projection proves *)

(** Nothing is outstanding on the source: it is live, and no recovery, operation,
    interruption, suspension, failure or retry is recorded. *)
Record SourceQuiet (app : GitOpsApplicationRow) : Prop := {
  sq_mode : app_target_mode app <> inline_blueprint;
  sq_live : app_lifecycle_status app <> detached /\ app_lifecycle_status app <> deleted;
  sq_recovery : app_recovery_phase app <> Some restoring
    /\ app_recovery_phase app <> Some compensating /\ app_recovery_phase app <> Some R_failed;
  sq_active : app_active_operation_stage app <> Some fetch_started
    /\ app_active_operation_stage app <> Some apply_started;
  sq_interrupted : app_interruption_stage app <> Some fetch_started
    /\ app_interruption_stage app <> Some apply_started;
  sq_suspended : truthyZ (app_suspended_at app) = None;
  sq_failure : app_failure_stage app = None;
  sq_retry : truthyZ (app_retry_at app) = None;
}.

(** The accepted generation is this application's, of the current materialization
    and of the desired commit. *)
Definition AcceptedEvidence (getGeneration : string -> option GitOpsGenerationRow)
    (app : GitOpsApplicationRow) : Prop :=
  exists id g, truthy (app_accepted_generation_id app) = Some id /\ getGeneration id = Some g
    /\ gen_application_id g = app_id app
    /\ app_materialization_fingerprint app = Some (gen_materialization_fingerprint g)
    /\ truthy (app_desired_commit_sha app) = Some (gen_commit_sha g).

Definition PollScheduled (app : GitOpsApplicationRow) : Prop :=
  truthy (app_accepted_generation_id app) = None
  /\ exists t, truthyZ (app_next_poll_at app) = Some t /\ Z.abs t <= MAX_TIME.

Section outcomes.
Variable json_parse : string -> option Json.
Variable getGeneration : string -> option GitOpsGenerationRow.
Notation outcomeOf app lims :=
  (outcomeFromSourceFacet (snd (deriveSource json_parse getGeneration app lims))).
Notation statusOf app := (snd (sourceStatus getGeneration app)).

Lemma truthy_Some o s : truthy o = Some s -> o = Some s.
Proof. unfold truthy. repeat case_match; naive_solver. Qed.

Lemma deriveSource_facet app lims :
  app_target_mode app <> inline_blueprint ->
  exists i, snd (deriveSource json_parse getGeneration app lims) = facet i (statusOf app).
Proof.
  intros H. unfold deriveSource. rewrite bool_decide_eq_false_2 by done.
  destruct (sourceIdentity _ _) as [l1 i], (sourceStatus _ _) as [l2 s]. by exists i.
Qed.

(** A quiet row falls through every early return to its candidate, its accepted
    generation or its poll. *)
Lemma sourceStatus_quiet app :
  SourceQuiet app ->
  sourceStatus getGeneration app =
    match truthy (app_candidate_generation_id app) with
    | Some id => candidateStatus getGeneration app id
    | None =>
        match truthy (app_accepted_generation_id app) with
        | Some id => acceptedStatus getGeneration app id
        | None => ([], match truthyZ (app_next_poll_at app) with
                       | Some t => source_poll_scheduled t | None => never_reconciled end)
        end
    end.
Proof.
  intros [_ [L1 L2] [R1 [R2 R3]] [A1 A2] [I1 I2] S F T]. unfold sourceStatus.
  rewrite F, S, T. rewrite !bool_decide_eq_false_2 by done. simpl.
  repeat case_match; congruence.
Qed.

Lemma candidateStatus_not_quiet app id :
  snd (candidateStatus getGeneration app id) <> application_generation_accepted
  /\ forall t, snd (candidateStatus getGeneration app id) <> source_poll_scheduled t.
Proof. unfold candidateStatus. repeat case_match; naive_solver. Qed.

Lemma acceptedStatus_exact app id :
  truthy (app_accepted_generation_id app) = Some id ->
  snd (acceptedStatus getGeneration app id) = application_generation_accepted
  <-> AcceptedEvidence getGeneration app.
Proof.
  intros Hid. unfold acceptedStatus, ownGeneration, AcceptedEvidence. rewrite Hid. split.
  - destruct (getGeneration id) as [g|] eqn:E; simpl; [|done].
    case_bool_decide as Ha; simpl; [|done].
    case_match eqn:C; [done|]. intros _.
    rewrite !orb_false_iff, !bool_decide_eq_false in C. destruct C as [[C1 C2] C3].
    destruct (truthy (app_desired_commit_sha app)) as [s|] eqn:Es; [|done].
    pose proof (truthy_Some _ _ Es) as Es'. rewrite Es' in C3.
    exists id, g. split_and!; try done; destruct (app_materialization_fingerprint app);
      apply dec_stable; naive_solver.
  - intros (id' & g & [= <-] & -> & Ha & Hf & Hs). rewrite bool_decide_eq_true_2 by done. simpl.
    rewrite Hs, Hf, (truthy_Some _ _ Hs), !bool_decide_eq_false_2 by naive_solver. done.
Qed.

(** The statuses that report no change. *)
Definition settledStatus (s : SourceStatus) : bool :=
  match s with application_generation_accepted | source_poll_scheduled _ => true | _ => false end.

Lemma match_live {A} app (a b c : A) :
  app_lifecycle_status app <> detached /\ app_lifecycle_status app <> deleted ->
  match app_lifecycle_status app with detached => a | deleted => b | _ => c end = c.
Proof. intros [? ?]. by destruct (app_lifecycle_status app). Qed.

Lemma settled_is_quiet app :
  app_target_mode app <> inline_blueprint -> settledStatus (statusOf app) = true ->
  SourceQuiet app.
Proof.
  intros Hm. unfold sourceStatus.
  assert (app_lifecycle_status app <> detached /\ app_lifecycle_status app <> deleted \/
          (app_lifecycle_status app = detached \/ app_lifecycle_status app = deleted)) as [Hl|Hl]
    by (destruct (app_lifecycle_status app); naive_solver);
    [|destruct Hl as [-> | ->]; discriminate].
  rewrite (match_live app _ _ _ Hl).
  destruct (_ || _) eqn:C1; [discriminate|]. destruct (_ || _) eqn:C2 in |- *; [discriminate|].
  rewrite orb_false_iff, !bool_decide_eq_false in C1, C2. destruct C1, C2.
  destruct (app_active_operation_stage app) as [[]|] eqn:Ea; try discriminate;
  destruct (app_interruption_stage app) as [[]|] eqn:Ei; try discriminate;
  destruct (truthyZ (app_suspended_at app)) eqn:Es; try discriminate;
  destruct (app_failure_stage app) as [[]|] eqn:Ef; try discriminate; try congruence;
  destruct (truthyZ (app_retry_at app)) eqn:Er; try discriminate;
  intros _; constructor; rewrite ?Ea, ?Ei, ?Es, ?Ef, ?Er; done.
Qed.

(** The outcome a status is reported as. *)
Definition outcome_kind (status : SourceStatus) : option ReconcileOutcome :=
  match status with
  | application_generation_accepted => Some O_no_source_change
  | candidate_ready => Some O_candidate_already_fetched
  | source_review_pending _ => Some O_pending_review
  | source_conflict_blocker => Some O_blocked
  | source_superseded _ => Some O_superseded
  | source_retry_scheduled _ _ => Some O_retry_scheduled
  | source_poll_scheduled t => if Z.abs t <=? MAX_TIME then Some O_no_source_change else None
  | source_suspended _ _ => Some O_suspended
  | source_failed _ _ _ _ _ => Some O_failed_previous_intact
  | source_unknown _ _ _ _ | recovery_required _ _ | recovery_failed _ _ _ _ =>
      Some O_recovery_required
  | _ => Some O_unknown
  end.

Lemma outcome_kind_ok i status :
  rr_outcome <$> outcomeFromSourceFacet (facet i status) = outcome_kind status.
Proof.
  destruct status; try reflexivity. cbn. unfold toISOString.
  destruct (Z.abs nextPollAt <=? MAX_TIME); [|reflexivity].
  by destruct (civil _) as [[]].
Qed.

Lemma outcome_no_source_change i status :
  (exists r, outcomeFromSourceFacet (facet i status) = Some r /\ rr_outcome r = O_no_source_change)
  <-> status = application_generation_accepted
      \/ exists t, status = source_poll_scheduled t /\ Z.abs t <= MAX_TIME.
Proof.
  transitivity (outcome_kind status = Some O_no_source_change).
  - rewrite <- (outcome_kind_ok i), fmap_Some. naive_solver.
  - destruct status; simpl; try naive_solver.
    destruct (Z.leb_spec (Z.abs nextPollAt) MAX_TIME) as [|Hlt]; [naive_solver|].
    split; [done|]. intros [?|(t & [= ->] & ?)]; [done|lia].
Qed.

(** C23: A source is reported as unchanged exactly when nothing is outstanding
    on it (not inline, live, no recovery, no operation in flight or interrupted,
    not suspended, no failure, no retry), no candidate is staged, and either the
    accepted generation row belongs to the application and agrees with its
    materialization fingerprint and its desired commit, or nothing was accepted
    and the next poll has a date. *)
Theorem no_source_change_exact app lims :
  (exists r, outcomeOf app lims = Some r /\ rr_outcome r = O_no_source_change)
  <-> SourceQuiet app /\ truthy (app_candidate_generation_id app) = None
      /\ (AcceptedEvidence getGeneration app \/ PollScheduled app).
Proof.
  split.
  - destruct (decide (app_target_mode app = inline_blueprint)) as [Hm|Hm].
    { unfold deriveSource. rewrite bool_decide_eq_true_2 by done. simpl. naive_solver. }
    destruct (deriveSource_facet app lims Hm) as [i ->]. rewrite outcome_no_source_change.
    intros H. assert (SourceQuiet app) as Q by (apply settled_is_quiet; [done|]; by destruct H as [-> |(t & -> & _)]).
    rewrite (sourceStatus_quiet _ Q) in H. split; [done|].
    destruct (truthy (app_candidate_generation_id app)) as [id|].
    { destruct (candidateStatus_not_quiet app id). naive_solver. }
    split; [done|]. destruct (truthy (app_accepted_generation_id app)) as [id|] eqn:Ea.
    + left. apply (acceptedStatus_exact app id Ea). destruct H as [H|(t & H & _)]; [done|].
      unfold acceptedStatus in H. repeat case_match; discriminate.
    + right. split; [done|]. destruct (truthyZ (app_next_poll_at app)); naive_solver.
  - intros (Q & Hc & H). destruct (deriveSource_facet app lims (sq_mode _ Q)) as [i ->].
    rewrite outcome_no_source_change, (sourceStatus_quiet _ Q), Hc.
    destruct H as [H|(Ha & t & Ht & Hb)].
    + left. pose proof H as (id & _ & Ha & _). rewrite Ha. by apply acceptedStatus_exact.
    + right. exists t. by rewrite Ha, Ht.
Qed.

(** The outcome of a row is never [converged], and it is missing only when
    the row's next poll is a time no date can show. *)
Theorem outcome_never_converged app lims :
  (forall r, outcomeOf app lims = Some r -> rr_outcome r <> O_converged)
  /\ (outcomeOf app lims = None ->
        exists t, app_next_poll_at app = Some t /\ MAX_TIME < Z.abs t).
Proof.
  unfold deriveSource. case_bool_decide as Hm; simpl; [split; [naive_solver|done]|].
  destruct (sourceIdentity _ _) as [l1 i]. destruct (sourceStatus _ _) as [l2 s] eqn:Es.
  cbn [snd]. split.
  - intros r Hr Hc. pose proof (outcome_kind_ok i s) as K. rewrite Hr in K. simpl in K.
    rewrite Hc in K. destruct s; try discriminate K. simpl in K. by case_match.
  - intros Hn. pose proof (outcome_kind_ok i s) as K. rewrite Hn in K. clear Hn.
    destruct s as [| | | | | | | | | |t| | | | | |]; try discriminate K. simpl in K.
    destruct (Z.leb_spec (Z.abs t) MAX_TIME) as [|Hlt]; [done|]. exists t. split; [|done].
    assert (statusOf app = source_poll_scheduled t) as Hs by (by rewrite Es).
    assert (SourceQuiet app) as Q by (apply settled_is_quiet; [done|by rewrite Hs]).
    rewrite (sourceStatus_quiet _ Q) in Hs.
    destruct (truthy (app_candidate_generation_id app)) as [id|].
    { destruct (candidateStatus_not_quiet app id). naive_solver. }
    destruct (truthy (app_accepted_generation_id app)) as [id|].
    { unfold acceptedStatus in Hs. repeat case_match; discriminate. }
    simpl in Hs. unfold truthyZ in Hs. repeat case_match; naive_solver.
Qed.

(** The precedence of a recorded failure. *)
Lemma failure_status app stage :
  app_target_mode app <> inline_blueprint ->
  app_lifecycle_status app = active \/ app_lifecycle_status app = creating ->
  app_recovery_phase app = None -> app_active_operation_stage app = None ->
  app_interruption_stage app = None -> truthyZ (app_suspended_at app) = None ->
  app_failure_stage app = Some stage -> stage <> F_recovery ->
  statusOf app = source_failed stage
    (default (ApplicationFailureStage_str stage) (app_failure_class app))
    (default 0 (app_failure_at app)) (app_retry_at app) (app_retry_count app).
Proof.
  intros _ Hl Hr Ha Hi Hs Hf Hn. unfold sourceStatus. rewrite Hr, Ha, Hi, Hs, Hf.
  destruct Hl as [-> | ->], stage; by try reflexivity.
Qed.

(** A recorded failure of a live source that is not in recovery, in flight,
    interrupted or suspended is reported as a failure that left the accepted
    generation intact, whatever candidate, retry or poll is recorded beside it;
    the next action is a retry exactly when one is scheduled. *)
Theorem failure_is_reported app lims stage :
  app_target_mode app <> inline_blueprint ->
  app_lifecycle_status app = active \/ app_lifecycle_status app = creating ->
  app_recovery_phase app = None -> app_active_operation_stage app = None ->
  app_interruption_stage app = None -> truthyZ (app_suspended_at app) = None ->
  app_failure_stage app = Some stage -> stage <> F_recovery ->
  exists r, outcomeOf app lims = Some r
    /\ rr_outcome r = O_failed_previous_intact
    /\ rr_retryAt r = Qc_of_Z <$> app_retry_at app
    /\ rr_nextAction r = (if bool_decide (app_retry_at app = None)
                          then A_configure_credentials else A_retry).
Proof.
  intros Hm Hl Hr Ha Hi Hs Hf Hn. destruct (deriveSource_facet app lims Hm) as [i ->].
  rewrite (failure_status app stage) by done. cbn [outcomeFromSourceFacet]. eexists.
  split; [reflexivity|]. cbn [rr_outcome rr_retryAt rr_nextAction]. split_and!; try done.
  by destruct (app_retry_at app).
Qed.
End outcomes.

(** ** Stored results *)

(** What [JSON.stringify] keeps of a result: the fields that are defined. *)
Definition opt_field {A} (k : string) (f : A -> Json) (o : option A) : list (string * Json) :=
  match o with Some a => [(k, f a)] | None => [] end.
Definition result_json (r : ReconcileResult) : Json :=
  JObj ([("outcome", JStr (ReconcileOutcome_str (rr_outcome r)));
         ("reason", JStr (rr_reason r));
         ("nextAction", JStr (NextAction_str (rr_nextAction r)))]
        ++ opt_field "retryAt" JNum (rr_retryAt r)
        ++ opt_field "nextPollAt" JNum (rr_nextPollAt r)
        ++ opt_field "commitSha" JStr (rr_commitSha r)
        ++ opt_field "deployGitopsOperationId" JStr (rr_deployGitopsOperationId r)).

Lemma parse_payload_head o reason a rest :
  parseReconcileResultPayload
    (JObj (("outcome", JStr (ReconcileOutcome_str o)) :: ("reason", JStr reason)
           :: ("nextAction", JStr (NextAction_str a)) :: rest))
  = Some (mkResult o reason a (number_field "retryAt" rest) (number_field "nextPollAt" rest)
            (string_field "commitSha" rest) (string_field "deployGitopsOperationId" rest)).
Proof. by destruct o, a. Qed.

Lemma isReconcileOutcome_Some v o :
  isReconcileOutcome v = Some o -> v = Some (JStr (ReconcileOutcome_str o)).
Proof.
  destruct v as [[| | |s| |]|]; try done. by intros <-%head_filter_Some.
Qed.

(** A settled result read back from its stored JSON is the result that was
    written, every optional field included; a payload that is accepted is read
    to the outcome, reason and action it names, and no other key of it
    matters. *)
Theorem reconcile_payload_roundtrip r fields :
  parseReconcileResultPayload (result_json r) = Some r
  /\ (parseReconcileResultPayload (JObj fields) = Some r ->
      field "outcome" fields = Some (JStr (ReconcileOutcome_str (rr_outcome r)))
      /\ string_field "reason" fields = Some (rr_reason r)
      /\ rr_retryAt r = number_field "retryAt" fields
      /\ rr_commitSha r = string_field "commitSha" fields).
Proof.
  split.
  - unfold result_json. simpl app. rewrite parse_payload_head.
    by destruct r as [o reason a [] [] [] []].
  - unfold parseReconcileResultPayload. case_match eqn:Ho; [|done].
    case_match eqn:Hr; [|done]. case_match eqn:Ha; [|done]. intros [= <-]. simpl.
    by rewrite (isReconcileOutcome_Some _ _ Ho).
Qed.


(** ** Concrete rows *)

(** A source whose fetch failed while a candidate is staged and a poll is due. *)
Definition ex_failed : GitOpsApplicationRow :=
  mkApp "app" active direct (Some "https://host/repo") None (Some "main") (Some "fp")
    (Some "c1") (Some "c1") (Some "g1") (Some "g0") 0 0 None None None None None (Some 5)
    (Some F_fetch) None (Some 3) (Some 9) 1 None None None None None None None.

Lemma failure_is_reported_witness :
  exists r, outcomeFromSourceFacet (snd (deriveSource (fun _ => None) (fun _ => None) ex_failed []))
              = Some r
    /\ rr_outcome r = O_failed_previous_intact
    /\ rr_retryAt r = Some (Qc_of_Z 9) /\ rr_nextAction r = A_retry.
Proof.
  exact (failure_is_reported (fun _ => None) (fun _ => None) ex_failed [] F_fetch
    ltac:(discriminate) (or_introl eq_refl) eq_refl eq_refl eq_refl eq_refl eq_refl
    ltac:(discriminate)).
Defined.
