(* ===== verification/Concurrency.v ===== *)
(** * Bounded concurrency
    (backend/src/utils/mapWithConcurrency.ts and its copies in
     services/LabelInventoryService.ts and routes/metrics.ts;
     backend/src/services/network/composeRenderSemaphore.ts)

    [Pool]: workers of one process that share an index into the items. A worker
    is suspended only at its [await fn(...)], so a step is the settling of one
    awaited call, after which the worker runs on to its next [await].

    [Slots]: the per-node counting semaphore of Compose renders. A state object
    is shared by reference between the map and the releases that captured it, so
    it lives in a heap. A waiter that was resolved runs on in a later microtask:
    until then it is [Resumed] and not counted. *)

From S2P Require Import Prelude.

(** ** [mapWithConcurrency] *)

Module Pool.
Section pool.
Context {T R E : Type}.
(** What the promise of [fn(item, index)] settles to. *)
Variable fn : T -> nat -> E + R.
Variable items : list T.

Inductive Worker := Awaiting (index : nat) | Returned | Threw (err : E).

Record PoolState := mkPool {
  nextIndex : nat;
  results : list (option R);
  workers : list Worker;
}.

(** The loop of a worker up to its next [await] or its end. *)
Definition advance (next : nat) : Worker * nat :=
  if (next <? length items)%nat then (Awaiting next, S next) else (Returned, next).

(** [Array.from({ length }, worker)]: the workers start one after the other. *)
Fixpoint spawn (n next : nat) : list Worker * nat :=
  match n with
  | O => ([], next)
  | S n => let '(w, next) := advance next in
           let '(ws, next) := spawn n next in (w :: ws, next)
  end.

(** [None] when the limit is refused. *)
Definition mapWithConcurrency (limit : Z) : option PoolState :=
  if limit <? 1 then None
  else
    let '(ws, next) := spawn (Z.to_nat (Z.min limit (Z.of_nat (length items)))) 0 in
    Some (mkPool next (replicate (length items) None) ws).

(** The call awaited by worker [w] settles. *)
Definition settle (w : nat) (st : PoolState) : PoolState :=
  match workers st !! w with
  | Some (Awaiting index) =>
      match items !! index with
      | Some item =>
          match fn item index with
          | inl err => mkPool (nextIndex st) (results st) (<[w := Threw err]> (workers st))
          | inr r =>
              let '(wk, next) := advance (nextIndex st) in
              mkPool next (<[index := Some r]> (results st)) (<[w := wk]> (workers st))
          end
      | None => st
      end
  | _ => st
  end.

Definition awaits (w : Worker) : option nat :=
  match w with Awaiting i => Some i | _ => None end.

(** The calls in flight. *)
Definition inFlight (st : PoolState) : list nat := omap awaits (workers st).

Definition pool_step (st st' : PoolState) : Prop :=
  exists w i, workers st !! w = Some (Awaiting i) /\ st' = settle w st.

Definition returned (w : Worker) : bool := match w with Returned => true | _ => false end.


Definition rejected (st : PoolState) : Prop := exists e, Threw e ∈ workers st.

(** *** Invariant *)

Definition quiescent (st : PoolState) : Prop := inFlight st = [].
Definition measure (st : PoolState) : nat := (length items - nextIndex st + length (inFlight st))%nat.

(** The call of item [i] is in flight, returned its result, or threw. *)
Definition called (st : PoolState) (i : nat) : Prop :=
  i ∈ inFlight st
  \/ (exists x r, items !! i = Some x /\ fn x i = inr r /\ results st !! i = Some (Some r))
  \/ (exists x e, items !! i = Some x /\ fn x i = inl e /\ Threw e ∈ workers st).

Record PoolInv (k : nat) (st : PoolState) : Prop := {
  pi_results : length (results st) = length items;
  pi_workers : length (workers st) = k;
  pi_next : (nextIndex st <= length items)%nat;
  pi_once : NoDup (inFlight st);
  pi_below : forall i, i ∈ inFlight st -> (i < nextIndex st)%nat;
  pi_called : forall i, (i < nextIndex st)%nat -> called st i;
  pi_values : forall i x r, items !! i = Some x -> results st !! i = Some (Some r) -> fn x i = inr r;
  pi_done : Returned ∈ workers st -> nextIndex st = length items;
}.

Lemma inFlight_elem st i : i ∈ inFlight st <-> Awaiting i ∈ workers st.
Proof.
  unfold inFlight. rewrite list_elem_of_omap. split.
  - intros ([j| |] & Hin & [= ->]). done.
  - intros H. by exists (Awaiting i).
Qed.

(** Replacing the worker that awaits [i]. *)
Lemma inFlight_replace st w i wk :
  workers st !! w = Some (Awaiting i) ->
  exists l, inFlight st ≡ₚ i :: l /\
    omap awaits (<[w := wk]> (workers st)) ≡ₚ option_list (awaits wk) ++ l.
Proof.
  intros H. exists (omap awaits (take w (workers st)) ++ omap awaits (drop (S w) (workers st))).
  unfold inFlight. split.
  - rewrite <- (take_drop_middle _ _ _ H) at 1. rewrite omap_app. simpl.
    by rewrite <- Permutation_middle.
  - rewrite insert_take_drop by (by eapply lookup_lt_Some). rewrite omap_app. simpl.
    destruct (awaits wk); simpl; [by rewrite <- Permutation_middle|done].
Qed.

Lemma elem_kept (ws : list Worker) w i wk x :
  ws !! w = Some (Awaiting i) -> x <> Awaiting i -> x ∈ ws -> x ∈ <[w := wk]> ws.
Proof.
  intros Hw Hx [j Hj]%list_elem_of_lookup. apply list_elem_of_lookup. exists j.
  rewrite list_lookup_insert_ne; [done|]. intros ->. congruence.
Qed.

Lemma elem_inserted (ws : list Worker) w i wk :
  ws !! w = Some (Awaiting i) -> wk ∈ <[w := wk]> ws.
Proof.
  intros Hw. apply list_elem_of_lookup. exists w. apply list_lookup_insert_eq.
  by eapply lookup_lt_Some.
Qed.

Lemma elem_of_replaced (ws : list Worker) w wk x : x ∈ <[w := wk]> ws -> x = wk \/ x ∈ ws.
Proof.
  intros [j Hj]%list_elem_of_lookup. apply list_lookup_insert_Some in Hj as [(-> & -> & _)|[_ Hj]];
    [by left|]. right. by eapply list_elem_of_lookup_2.
Qed.

(** A call that threw: its worker ends, the others keep their calls. *)
Lemma pinv_threw k st w i x e :
  workers st !! w = Some (Awaiting i) -> items !! i = Some x -> fn x i = inl e -> PoolInv k st ->
  PoolInv k (mkPool (nextIndex st) (results st) (<[w := Threw e]> (workers st)))
  /\ S (measure (mkPool (nextIndex st) (results st) (<[w := Threw e]> (workers st)))) = measure st.
Proof.
  intros Hw Hx He [H1 H2 H3 H4 H5 H6 H7 H8].
  destruct (inFlight_replace st w i (Threw e) Hw) as (l & E1 & E2). simpl in E2.
  rewrite E1 in H4. apply NoDup_cons in H4 as [H4 H4'].
  split; [|unfold measure, inFlight in *; simpl; rewrite E1, E2; simpl; lia].
  split; simpl; unfold inFlight; simpl; try setoid_rewrite E2; try done.
  - by rewrite length_insert.
  - intros j Hj. apply H5. rewrite E1. by right.
  - intros j Hj. destruct (H6 j Hj) as [Hf|[Hr|(y & e' & Hy & Hf & Ht)]].
    + rewrite E1 in Hf. apply elem_of_cons in Hf as [->|Hf].
      * right; right. exists x, e. split_and!; try done. by eapply elem_inserted.
      * left. unfold inFlight; simpl. by rewrite E2.
    + right; left. done.
    + right; right. exists y, e'. split_and!; try done. by eapply elem_kept.
  - intros Hr. apply elem_of_replaced in Hr as [?|?]; [done|auto].
Qed.

(** A call that returned: its result is stored, and its worker takes the next
    item or ends. *)
Lemma pinv_returned k st w i x r wk next :
  workers st !! w = Some (Awaiting i) -> items !! i = Some x -> fn x i = inr r -> PoolInv k st ->
  advance (nextIndex st) = (wk, next) ->
  let st' := mkPool next (<[i := Some r]> (results st)) (<[w := wk]> (workers st)) in
  PoolInv k st' /\ S (measure st') = measure st.
Proof.
  intros Hw Hx He [H1 H2 H3 H4 H5 H6 H7 H8] Ha st'.
  destruct (inFlight_replace st w i wk Hw) as (l & E1 & E2).
  rewrite E1 in H4. apply NoDup_cons in H4 as [H4 H4'].
  assert (Hb : forall j, j ∈ l -> (j < nextIndex st)%nat)
    by (intros j Hj; apply H5; rewrite E1; by right).
  assert (Hi : (i < nextIndex st)%nat) by (apply H5; rewrite E1; by left).
  assert (Hc : (wk = Awaiting (nextIndex st) /\ next = S (nextIndex st)
                /\ (nextIndex st < length items)%nat)
               \/ (wk = Returned /\ next = nextIndex st /\ nextIndex st = length items)).
  { unfold advance in Ha. destruct (Nat.ltb_spec (nextIndex st) (length items)); simplify_eq;
      [by left|right; split_and!; [done|done|lia]]. }
  assert (Hf : inFlight st' ≡ₚ option_list (awaits wk) ++ l) by done.
  assert (Hmono : forall j, called st j -> called st' j).
  { intros j [Hj|[(y & r' & Hy & Hr & Hv)|(y & e' & Hy & Hr & Ht)]].
    - rewrite E1 in Hj. apply elem_of_cons in Hj as [->|Hj].
      + right; left. exists x, r. split_and!; try done. simpl. apply list_lookup_insert_eq. lia.
      + left. rewrite Hf. set_solver.
    - destruct (decide (j = i)) as [->|Hne].
      + right; left. exists x, r. split_and!; try done. simpl. apply list_lookup_insert_eq. lia.
      + right; left. exists y, r'. split_and!; try done. simpl. by rewrite list_lookup_insert_ne.
    - right; right. exists y, e'. split_and!; try done. by eapply elem_kept. }
  split; [split|]; simpl; rewrite ?length_insert; try done.
  - naive_solver lia.
  - rewrite Hf. destruct Hc as [(-> & _ & _)|(-> & _)]; simpl; [|done].
    apply NoDup_cons. split; [|done]. intros ?%Hb. lia.
  - intros j. rewrite Hf. destruct Hc as [(-> & -> & _)|(-> & -> & _)]; simpl.
    + intros [->|Hj%Hb]%elem_of_cons; lia.
    + apply Hb.
  - intros j Hj. destruct (decide (j < nextIndex st)%nat) as [Hlt|Hge]; [by apply Hmono, H6|].
    destruct Hc as [(-> & -> & _)|(-> & -> & _)]; [|lia].
    left. rewrite Hf. simpl. apply elem_of_cons. left. lia.
  - intros j y r' Hy Hr. apply list_lookup_insert_Some in Hr as [(-> & [= ->] & _)|[_ Hr]];
      [congruence|eauto].
  - intros [Hr|Hr%H8]%elem_of_replaced; destruct Hc as [(-> & -> & ?)|(-> & -> & ?)]; done || lia.
  - unfold measure. rewrite Hf, E1. destruct Hc as [(-> & -> & ?)|(-> & -> & ?)]; simpl; lia.
Qed.

Lemma pool_step_inv k st st' :
  PoolInv k st -> pool_step st st' -> PoolInv k st' /\ S (measure st') = measure st.
Proof.
  intros Hi (w & i & Hw & ->). unfold settle. rewrite Hw.
  assert (is_Some (items !! i)) as [x Hx].
  { apply lookup_lt_is_Some. pose proof (pi_next _ _ Hi). enough (i < nextIndex st)%nat by lia.
    apply (pi_below _ _ Hi), inFlight_elem. by eapply list_elem_of_lookup_2. }
  rewrite Hx. destruct (fn x i) as [e|r] eqn:Hf; [by eapply pinv_threw|].
  destruct (advance (nextIndex st)) as [wk next] eqn:Ha. by eapply pinv_returned.
Qed.

Lemma spawn_spec n next :
  (next + n <= length items)%nat ->
  spawn n next = (Awaiting <$> seq next n, (next + n)%nat).
Proof.
  revert next. induction n as [|n IH]; intros next H; simpl; [f_equal; lia|].
  unfold advance. destruct (Nat.ltb_spec next (length items)); [|lia].
  rewrite IH by lia. f_equal. lia.
Qed.

Lemma omap_awaits_seq a n : omap awaits (Awaiting <$> seq a n : list Worker) = seq a n.
Proof. revert a. induction n as [|n IH]; intros a; simpl; [done|]. by rewrite IH. Qed.

Definition workerCount (limit : Z) : nat := Z.to_nat (Z.min limit (Z.of_nat (length items))).

Lemma start_inv limit st :
  mapWithConcurrency limit = Some st ->
  PoolInv (workerCount limit) st /\ measure st = length items /\ 1 <= limit.
Proof.
  unfold mapWithConcurrency. fold (workerCount limit).
  destruct (Z.ltb_spec limit 1) as [|Hl]; [done|].
  assert (Hk : (workerCount limit <= length items)%nat) by (unfold workerCount; lia).
  rewrite spawn_spec by done. intros [= <-].
  assert (Hf : forall r, inFlight (mkPool (0 + workerCount limit) r
      (Awaiting <$> seq 0 (workerCount limit))) = seq 0 (workerCount limit))
    by (intros r; apply omap_awaits_seq).
  split; [split|split; [|done]]; simpl; rewrite ?Hf; try done.
  - by rewrite length_replicate.
  - by rewrite length_fmap, length_seq.
  - apply NoDup_seq.
  - intros i. rewrite elem_of_seq. lia.
  - intros i Hi. left. rewrite Hf. apply elem_of_seq. lia.
  - intros i x r _ [[=] _]%lookup_replicate.
  - intros (j & Hj & _)%list_elem_of_fmap. done.
  - unfold measure. rewrite Hf, length_seq. simpl. lia.
Qed.

Definition pool_run (limit : Z) (n : nat) (st : PoolState) : Prop :=
  exists st0, mapWithConcurrency limit = Some st0 /\ nsteps pool_step n st0 st.

Lemma pool_run_inv limit n st :
  pool_run limit n st ->
  PoolInv (workerCount limit) st /\ (n + measure st)%nat = length items /\ 1 <= limit.
Proof.
  intros (st0 & Hs & Hn). apply start_inv in Hs as (Hi & Hm & Hl). rewrite <- Hm. clear Hm.
  induction Hn as [st|n st st1 st2 H1 Hn IH]; [done|].
  destruct (pool_step_inv _ _ _ Hi H1) as [Hi1 Hm1]. destruct (IH Hi1) as (? & ? & ?).
  split_and!; [done|lia|done].
Qed.

Lemma not_quiescent_step st : ~ quiescent st -> exists st', pool_step st st'.
Proof.
  unfold quiescent. destruct (inFlight st) as [|i l] eqn:Ef; [done|]. intros _.
  assert (Awaiting i ∈ workers st) as [w Hw]%list_elem_of_lookup
    by (apply inFlight_elem; rewrite Ef; by left).
  exists (settle w st), w, i. done.
Qed.

Lemma length_inFlight st : (length (inFlight st) <= length (workers st))%nat.
Proof. unfold inFlight. induction (workers st) as [|[] ws IH]; csimpl in *; lia. Qed.

(** What a run that awaits nothing has computed. *)
Lemma quiescent_called limit n st :
  pool_run limit n st -> quiescent st -> (exists w, w ∈ workers st /\ returned w = true) ->
  forall i x, items !! i = Some x ->
    match fn x i with
    | inr r => results st !! i = Some (Some r)
    | inl e => Threw e ∈ workers st
    end.
Proof.
  intros Hr Hq (w & Hw & Hret) i x Hx. apply pool_run_inv in Hr as (Hi & _ & _).
  destruct w; try done. assert (Hlt : (i < nextIndex st)%nat).
  { rewrite (pi_done _ _ Hi Hw). by eapply lookup_lt_Some. }
  destruct (pi_called _ _ Hi i Hlt) as [Hf|[(y & r & Hy & Hf & Hv)|(y & e & Hy & Hf & Hv)]].
  - by rewrite Hq in Hf; apply elem_of_nil in Hf.
  - simplify_eq. by rewrite Hf.
  - simplify_eq. by rewrite Hf.
Qed.

Lemma quiescent_all_ended st : quiescent st -> forall w, w ∈ workers st ->
  returned w = true \/ exists e, w = Threw e.
Proof.
  intros Hq [i| |e] Hw; [|by left|right; eauto].
  apply inFlight_elem in Hw. rewrite Hq in Hw. by apply elem_of_nil in Hw.
Qed.

(** The pool terminates: however the awaited calls settle, a run over [n]
    items takes at most [n] steps, and until every call has settled some worker
    has a call to wait for; so after exactly the calls it makes nothing is in
    flight. At every moment at most [limit] calls are in flight and none twice. *)
Theorem pool_terminates limit n st :
  pool_run limit n st ->
  (n <= length items)%nat
  /\ (~ quiescent st -> exists st', pool_run limit (S n) st')
  /\ Z.of_nat (length (inFlight st)) <= limit /\ NoDup (inFlight st).
Proof.
  intros Hr. pose proof (pool_run_inv _ _ _ Hr) as (Hi & Hm & Hl). split_and!.
  - lia.
  - intros [st' Hs]%not_quiescent_step. destruct Hr as (st0 & H0 & Hn). exists st', st0.
    split; [done|]. by eapply nsteps_r.
  - pose proof (length_inFlight st). rewrite (pi_workers _ _ Hi) in H. unfold workerCount in H. lia.
  - apply Hi.
Qed.

(** A rejected call does not stop the other workers: when nothing is in
    flight any more and some worker did not throw, every item has been called,
    also the ones after the item whose call was rejected. *)
Theorem pool_rejection_continues limit n st :
  pool_run limit n st -> quiescent st -> ~ Forall (fun w => exists e, w = Threw e) (workers st) ->
  forall i x r, items !! i = Some x -> fn x i = inr r -> results st !! i = Some (Some r).
Proof.
  intros Hr Hq Ht i x r Hx Hf.
  assert (exists w, w ∈ workers st /\ returned w = true) as Hw.
  { destruct (decide (Exists (fun w => returned w = true) (workers st))) as [He|He].
    - apply Exists_exists in He. naive_solver.
    - exfalso. apply Ht, Forall_forall. intros w Hw.
      destruct (quiescent_all_ended _ Hq w Hw) as [?|?]; [|done].
      exfalso. apply He, Exists_exists. eauto. }
  pose proof (quiescent_called _ _ _ Hr Hq Hw i x Hx) as H. by rewrite Hf in H.
Qed.
End pool.

(** *** Refinement of the sequential map *)

Section refinement.
Context {T R : Type} (f : nat -> T -> R) (items : list T).
Let fn (x : T) (i : nat) : Empty_set + R := inr (f i x).



End refinement.

(** *** A concrete run *)

(** Three items, two workers; the second call settles first. *)
Definition ex_fn (x : Z) (i : nat) : Empty_set + Z := inr (x * x).
Definition ex_start : @PoolState Z Empty_set := default (mkPool 0 [] []) (mapWithConcurrency [5; 6; 7] 2).
Definition ex_end : @PoolState Z Empty_set :=
  settle ex_fn [5; 6; 7] 1 (settle ex_fn [5; 6; 7] 0 (settle ex_fn [5; 6; 7] 1 ex_start)).

Lemma ex_run : pool_run ex_fn [5; 6; 7] 2 3 ex_end.
Proof.
  exists ex_start. split; [reflexivity|]. unfold ex_end.
  eapply nsteps_l; [exists 1%nat, 1%nat; split; reflexivity|].
  eapply nsteps_l; [exists 0%nat, 0%nat; split; reflexivity|].
  eapply nsteps_l; [exists 1%nat, 2%nat; split; reflexivity|]. apply nsteps_O.
Qed.

Lemma pool_terminates_witness : Z.of_nat (length (inFlight ex_end)) <= 2.
Proof. exact (proj1 (proj2 (proj2 (pool_terminates ex_fn [5; 6; 7] 2 3 ex_end ex_run)))). Defined.


(** The first call of four is rejected; the other worker calls all the others. *)
Definition ex_fn_rej (x : Z) (i : nat) : string + Z :=
  if decide (i = 0%nat) then inl "rejected" else inr x.
Definition ex_rej : @PoolState Z string :=
  let go := settle ex_fn_rej [5; 6; 7; 8] in
  go 1%nat (go 1%nat (go 1%nat (go 0%nat
    (default (mkPool 0 [] []) (mapWithConcurrency [5; 6; 7; 8] 2))))).

Lemma pool_rejection_continues_witness : results ex_rej !! 3%nat = Some (Some 8).
Proof.
  eapply (pool_rejection_continues ex_fn_rej [5; 6; 7; 8] 2 4 ex_rej); try reflexivity.
  - eexists. split; [reflexivity|].
    eapply nsteps_l; [exists 0%nat, 0%nat; split; reflexivity|].
    eapply nsteps_l; [exists 1%nat, 1%nat; split; reflexivity|].
    eapply nsteps_l; [exists 1%nat, 2%nat; split; reflexivity|].
    eapply nsteps_l; [exists 1%nat, 3%nat; split; reflexivity|]. apply nsteps_O.
  - intros H. apply Forall_inv_tail, Forall_inv in H as [e He]. discriminate He.
Defined.
End Pool.

(** ** [withComposeRenderSlot] *)

Module Slots.

Definition MAX_ACTIVE_RENDERS : Z := 4.

Abbreviation Tid := Z.
Abbreviation Ref := Z.

Record SemaphoreState := mkSem { active : Z; waiters : list Tid }.

(** Where a call is: in the queue, resolved but not yet running again, or in its
    [work]. *)
Inductive Phase := Waiting | Resumed | Holding.

#[export] Instance Phase_eq_dec : EqDecision Phase.
Proof. solve_decision. Defined.

Record Task := mkTask { tk_node : Z; tk_sem : Ref; tk_phase : Phase }.

Record SlotSys := mkSlots {
  states : gmap Z Ref;
  heap : gmap Ref SemaphoreState;
  tasks : gmap Tid Task;
  nextRef : Ref;
}.

Definition newSlots : SlotSys := mkSlots ∅ ∅ ∅ 0.

(** [acquire], up to its end or to its wait in the queue. *)
Definition acquire (nodeId : Z) (t : Tid) (st : SlotSys) : SlotSys :=
  let '(r, s, next) := match states st !! nodeId with
                       | Some r => (r, default (mkSem 0 []) (heap st !! r), nextRef st)
                       | None => (nextRef st, mkSem 0 [], nextRef st + 1)
                       end in
  if active s >=? MAX_ACTIVE_RENDERS then
    mkSlots (<[nodeId := r]> (states st)) (<[r := mkSem (active s) (waiters s ++ [t])]> (heap st))
      (<[t := mkTask nodeId r Waiting]> (tasks st)) next
  else
    mkSlots (<[nodeId := r]> (states st)) (<[r := mkSem (active s + 1) (waiters s)]> (heap st))
      (<[t := mkTask nodeId r Holding]> (tasks st)) next.

(** [acquire] after the promise it waited for was resolved. *)
Definition resume (t : Tid) (st : SlotSys) : SlotSys :=
  match tasks st !! t with
  | Some (mkTask node r Resumed) =>
      mkSlots (states st) (alter (fun s => mkSem (active s + 1) (waiters s)) r (heap st))
        (<[t := mkTask node r Holding]> (tasks st)) (nextRef st)
  | _ => st
  end.

(** [waiters.shift()], and the waiter is resolved. *)
Definition wake (ws : list Tid) (ts : gmap Tid Task) : list Tid * gmap Tid Task :=
  match ws with
  | [] => ([], ts)
  | w :: ws => (ws, alter (fun k => mkTask (tk_node k) (tk_sem k) Resumed) w ts)
  end.

(** The function [acquire] returns, called when the work has settled. *)
Definition release (t : Tid) (st : SlotSys) : SlotSys :=
  match tasks st !! t with
  | Some (mkTask node r Holding) =>
      match heap st !! r with
      | Some s =>
          let n := active s - 1 in
          let '(ws, ts) := wake (waiters s) (delete t (tasks st)) in
          mkSlots (if (n =? 0) && bool_decide (ws = []) then delete node (states st) else states st)
            (<[r := mkSem n ws]> (heap st)) ts (nextRef st)
      | None => st
      end
  | _ => st
  end.

Inductive slot_step : SlotSys -> SlotSys -> Prop :=
  | step_acquire n t st : tasks st !! t = None -> slot_step st (acquire n t st)
  | step_resume t st : slot_step st (resume t st)
  | step_release t st : slot_step st (release t st).

Definition slots_reachable (st : SlotSys) : Prop := rtc slot_step newSlots st.

(** The calls of a semaphore object in a phase. *)
Definition count (r : Ref) (p : Phase) (ts : gmap Tid Task) : Z :=
  msize (filter (fun kt => tk_sem kt.2 = r /\ tk_phase kt.2 = p) ts).

(** The renders of a node that run at once. *)
Definition holding (n : Z) (st : SlotSys) : Z :=
  msize (filter (fun kt => tk_node kt.2 = n /\ tk_phase kt.2 = Holding) (tasks st)).

(** The cap is not kept. Four renders of a node run and three more wait;
    two finish in the same turn and wake the two waiters at the head of the
    queue; the first of these runs on; the caller that finished first asks for
    its next slot before the second does, is let in, and five renders run. *)
Theorem render_cap_exceeded :
  exists st, slots_reachable st /\ holding 1 st = 5 /\ 5 > MAX_ACTIVE_RENDERS.
Proof.
  exists (resume 6 (acquire 1 8 (resume 5 (release 2 (release 1 (acquire 1 7 (acquire 1 6
    (acquire 1 5 (acquire 1 4 (acquire 1 3 (acquire 1 2 (acquire 1 1 newSlots)))))))))))).
  split; [|split; [vm_compute; reflexivity|unfold MAX_ACTIVE_RENDERS; lia]].
  unfold slots_reachable. repeat (eapply rtc_r; [|first
    [eapply step_resume | eapply step_release | eapply step_acquire; vm_compute; reflexivity]]).
  apply rtc_refl.
Qed.

(** *** Invariant *)

Definition ind (k : Task) (r : Ref) (p : Phase) : Z :=
  if decide (tk_sem k = r /\ tk_phase k = p) then 1 else 0.

Lemma ind_other k r p : tk_sem k <> r \/ tk_phase k <> p -> ind k r p = 0.
Proof. intros H. unfold ind. rewrite decide_False; [done|naive_solver]. Qed.
Lemma ind_same k : ind k (tk_sem k) (tk_phase k) = 1.
Proof. unfold ind. by rewrite decide_True. Qed.

Lemma count_delete r p ts t k :
  ts !! t = Some k -> count r p (delete t ts) = count r p ts - ind k r p.
Proof.
  intros H. unfold count, ind, msize. rewrite map_filter_delete, map_size_delete.
  destruct (decide _) as [Hk|Hk].
  - assert (filter (fun kt => tk_sem kt.2 = r /\ tk_phase kt.2 = p) ts !! t = Some k) as ->
      by (by apply map_lookup_filter_Some).
    assert (size (filter (fun kt => tk_sem kt.2 = r /\ tk_phase kt.2 = p) ts) <> 0%nat).
    { rewrite map_size_ne_0_lookup. exists t. by rewrite map_lookup_filter_Some_2 with (x := k). }
    simpl. lia.
  - assert (filter (fun kt => tk_sem kt.2 = r /\ tk_phase kt.2 = p) ts !! t = None) as ->.
    { apply map_lookup_filter_None. right. intros x Hx. by simplify_eq. }
    simpl. lia.
Qed.

Lemma count_insert_new r p ts t k :
  ts !! t = None -> count r p (<[t := k]> ts) = count r p ts + ind k r p.
Proof.
  intros H. assert (Hd : ts = delete t (<[t := k]> ts)) by (by rewrite delete_insert_id).
  rewrite Hd at 2. rewrite (count_delete _ _ _ _ k) by (by rewrite lookup_insert_eq). lia.
Qed.

Lemma count_replace r p ts t k k' :
  ts !! t = Some k -> count r p (<[t := k']> ts) = count r p ts - ind k r p + ind k' r p.
Proof.
  intros H. rewrite <- insert_delete_eq, count_insert_new by (by rewrite lookup_delete_eq).
  by rewrite (count_delete _ _ _ _ k).
Qed.

Lemma count_none r p ts : (forall t k, ts !! t = Some k -> tk_sem k <> r) -> count r p ts = 0.
Proof.
  intros H. unfold count, msize.
  enough (filter (fun kt => tk_sem kt.2 = r /\ tk_phase kt.2 = p) ts = ∅) as -> by done.
  apply map_empty. intros t. apply map_lookup_filter_None. right. intros k Hk [? _]. by eapply H.
Qed.

Record SlotInv (st : SlotSys) : Prop := {
  si_ref : forall t k, tasks st !! t = Some k -> is_Some (heap st !! tk_sem k);
  si_state : forall n r, states st !! n = Some r -> is_Some (heap st !! r);
  si_active : forall r s, heap st !! r = Some s -> active s = count r Holding (tasks st);
  si_nodup : forall r s, heap st !! r = Some s -> NoDup (waiters s);
  si_queue : forall r s t, heap st !! r = Some s ->
    t ∈ waiters s <-> exists n, tasks st !! t = Some (mkTask n r Waiting);
  si_full : forall r s, heap st !! r = Some s -> waiters s <> [] ->
    MAX_ACTIVE_RENDERS <= active s + count r Resumed (tasks st);
  si_fresh : forall r, nextRef st <= r -> heap st !! r = None;
}.

Lemma newSlots_inv : SlotInv newSlots.
Proof. split; simpl; intros; map_cases; done. Qed.

(** A fresh semaphore object. *)
Lemma inv_alloc n st :
  SlotInv st -> states st !! n = None ->
  SlotInv (mkSlots (<[n := nextRef st]> (states st)) (<[nextRef st := mkSem 0 []]> (heap st))
             (tasks st) (nextRef st + 1)).
Proof.
  intros [H1 H2 H3 H4 H5 H6 H7] Hn.
  assert (Hno : forall t k, tasks st !! t = Some k -> tk_sem k <> nextRef st).
  { intros t k [s Hs]%H1 E. rewrite E, (H7 (nextRef st)) in Hs; [done|lia]. }
  split; simpl.
  - intros t k Hk. rewrite lookup_insert_ne by (symmetry; by eapply Hno). eauto.
  - intros m r Hr. rewrite lookup_insert. case_decide; [done|]. map_cases; eauto.
  - intros r s Hs. map_cases; [by rewrite count_none|eauto].
  - intros r s Hs. map_cases; [apply NoDup_nil_2|eauto].
  - intros r s t Hs. map_cases; [|eauto]. split; [intros []%elem_of_nil|].
    intros [m Hm]. by apply Hno in Hm.
  - intros r s Hs Hw. map_cases; eauto.
  - intros r Hr. rewrite lookup_insert_ne by lia. apply H7. lia.
Qed.

(** A call on an existing object, in the queue or let in. *)
Lemma inv_enter n r s t st (ph : Phase) s' :
  SlotInv st -> heap st !! r = Some s -> tasks st !! t = None ->
  (ph = Waiting /\ MAX_ACTIVE_RENDERS <= active s /\ s' = mkSem (active s) (waiters s ++ [t])
   \/ ph = Holding /\ s' = mkSem (active s + 1) (waiters s)) ->
  SlotInv (mkSlots (<[n := r]> (states st)) (<[r := s']> (heap st))
             (<[t := mkTask n r ph]> (tasks st)) (nextRef st)).
Proof.
  intros [H1 H2 H3 H4 H5 H6 H7] Hs Ht Hc.
  assert (Hnw : forall r0 s0, heap st !! r0 = Some s0 -> t ∉ waiters s0).
  { intros r0 s0 H0 [m Hm]%(H5 _ _ _ H0). congruence. }
  split; simpl.
  - intros t' k Hk. rewrite lookup_insert. case_decide; [done|]. map_cases; eauto.
  - intros m r' Hr. rewrite lookup_insert. case_decide; [done|]. map_cases. eauto.
  - intros r' s0 H0. rewrite count_insert_new by done. unfold ind. simpl. map_cases.
    + rewrite <- (H3 _ _ Hs). destruct Hc as [(-> & _ & ->)|(-> & ->)]; simpl;
        [rewrite decide_False by naive_solver|rewrite decide_True by done]; lia.
    + rewrite decide_False by naive_solver. rewrite <- (H3 _ _ H0). lia.
  - intros r' s0 H0. map_cases; [|eauto]. destruct Hc as [(_ & _ & ->)|(_ & ->)]; simpl; [|eauto].
    apply NoDup_app. split_and!; [eauto|set_solver|apply NoDup_singleton].
  - intros r' s0 t' H0. rewrite lookup_insert. map_cases.
    + destruct Hc as [(-> & _ & ->)|(-> & ->)]; simpl; [rewrite elem_of_app, list_elem_of_singleton|];
        rewrite (H5 _ _ t' Hs); case_decide; naive_solver.
    + rewrite (H5 _ _ t' H0). case_decide; naive_solver.
  - intros r' s0 H0 Hw. rewrite count_insert_new by done. unfold ind. simpl.
    rewrite decide_False by (destruct Hc as [(-> & _)|(-> & _)]; naive_solver).
    map_cases; [|pose proof (H6 _ _ H0 Hw); lia].
    destruct Hc as [(_ & Hm & ->)|(_ & ->)]; simpl in *; [|pose proof (H6 _ _ Hs Hw); lia].
    pose proof (msize_nonneg (filter (fun kt => tk_sem kt.2 = r' /\ tk_phase kt.2 = Resumed)
      (tasks st))) as Hz. unfold count. lia.
  - intros r' Hr. rewrite lookup_insert_ne; [auto|]. intros ->. by rewrite H7 in Hs.
Qed.

Lemma inv_acquire n t st : SlotInv st -> tasks st !! t = None -> SlotInv (acquire n t st).
Proof.
  intros Hi Ht. unfold acquire. destruct (states st !! n) as [r|] eqn:En.
  - destruct (si_state _ Hi _ _ En) as [s Hs]. rewrite Hs. simpl.
    destruct (Z.geb_spec (active s) MAX_ACTIVE_RENDERS); eapply inv_enter; eauto.
  - pose proof (inv_alloc n st Hi En) as Ha. simpl.
    pose proof (inv_enter n (nextRef st) (mkSem 0 []) t _ Holding _ Ha
      (lookup_insert_eq _ _ _) Ht (or_intror (conj eq_refl eq_refl))) as He.
    simpl in He. by rewrite !insert_insert_eq in He.
Qed.

Lemma inv_resume t st : SlotInv st -> SlotInv (resume t st).
Proof.
  intros Hi. unfold resume. destruct (tasks st !! t) as [[n r []]|] eqn:Ht; try done.
  destruct Hi as [H1 H2 H3 H4 H5 H6 H7]. destruct (H1 _ _ Ht) as [s Hs]. simpl in Hs.
  split; simpl.
  - intros t' k Hk. rewrite lookup_alter. map_cases; case_decide; simplify_eq; rewrite ?fmap_is_Some;
      eauto.
  - intros m r' Hr. rewrite lookup_alter. case_decide; rewrite ?fmap_is_Some; eauto.
  - intros r' s0 H0. rewrite (count_replace _ _ _ _ _ _ Ht). unfold ind. simpl.
    rewrite lookup_alter in H0. case_decide; simplify_eq.
    + rewrite Hs in H0. simplify_eq/=. rewrite (H3 _ _ Hs).
      rewrite decide_False by naive_solver. rewrite decide_True by done. lia.
    + rewrite !decide_False by naive_solver. rewrite <- (H3 _ _ H0). lia.
  - intros r' s0 H0. rewrite lookup_alter in H0. case_decide; [|eauto].
    subst. rewrite Hs in H0. simplify_eq/=. eauto.
  - intros r' s0 t' H0.
    assert (exists s1, heap st !! r' = Some s1 /\ waiters s0 = waiters s1) as (s1 & Hs1 & ->).
    { rewrite lookup_alter in H0. case_decide; [|eauto]. subst. rewrite Hs in H0. simplify_eq/=. eauto. }
    rewrite (H5 _ _ t' Hs1), lookup_insert. case_decide; naive_solver.
  - intros r' s0 H0 Hw. rewrite (count_replace _ _ _ _ _ _ Ht). unfold ind. simpl.
    rewrite (decide_False (P := _ /\ Holding = Resumed)) by naive_solver.
    rewrite lookup_alter in H0. case_decide; simplify_eq.
    + rewrite Hs in H0. simplify_eq/=. pose proof (H6 _ _ Hs Hw). rewrite decide_True by done. lia.
    + rewrite decide_False by naive_solver. pose proof (H6 _ _ H0 Hw). lia.
  - intros r' Hr. rewrite lookup_alter. case_decide; [|auto]. subst. by rewrite H7.
Qed.

(** The state after a release that wakes no one. *)
Lemma inv_release_empty n r s t st sts :
  SlotInv st -> tasks st !! t = Some (mkTask n r Holding) -> heap st !! r = Some s ->
  waiters s = [] -> sts ⊆ states st ->
  SlotInv (mkSlots sts (<[r := mkSem (active s - 1) []]> (heap st)) (delete t (tasks st)) (nextRef st)).
Proof.
  intros [H1 H2 H3 H4 H5 H6 H7] Ht Hs Hw Hsub. split; simpl.
  - intros t' k Hk. rewrite lookup_insert. case_decide; [done|]. map_cases. eauto.
  - intros m r' Hr. eapply lookup_weaken in Hr; [|exact Hsub]. rewrite lookup_insert. case_decide; eauto.
  - intros r' s0 H0. rewrite (count_delete _ _ _ _ _ Ht). unfold ind. simpl. map_cases.
    + rewrite (H3 _ _ Hs). by rewrite decide_True.
    + rewrite decide_False by naive_solver. rewrite <- (H3 _ _ H0). lia.
  - intros r' s0 H0. map_cases; [apply NoDup_nil_2|eauto].
  - intros r' s0 t' H0. rewrite lookup_delete. map_cases.
    + rewrite <- Hw, (H5 _ _ t' Hs). case_decide; naive_solver.
    + rewrite (H5 _ _ t' H0). case_decide; naive_solver.
  - intros r' s0 H0 Hne. rewrite (count_delete _ _ _ _ _ Ht). unfold ind. simpl.
    map_cases. rewrite decide_False by naive_solver. pose proof (H6 _ _ H0 Hne). lia.
  - intros r' Hr. rewrite lookup_insert_ne; [auto|]. intros ->. by rewrite H7 in Hs.
Qed.

(** The state after a release that wakes the head of the queue. *)
Lemma inv_release_wake n r s t st w ws :
  SlotInv st -> tasks st !! t = Some (mkTask n r Holding) -> heap st !! r = Some s ->
  waiters s = w :: ws ->
  SlotInv (mkSlots (states st) (<[r := mkSem (active s - 1) ws]> (heap st))
    (alter (fun k => mkTask (tk_node k) (tk_sem k) Resumed) w (delete t (tasks st))) (nextRef st)).
Proof.
  intros [H1 H2 H3 H4 H5 H6 H7] Ht Hs Hw.
  assert (w ∈ waiters s) as [m Hm]%(H5 _ _ w Hs) by (rewrite Hw; left).
  assert (Hne : t <> w) by congruence.
  assert (Hdw : delete t (tasks st) !! w = Some (mkTask m r Waiting)) by (by rewrite lookup_delete_ne).
  pose proof (H4 _ _ Hs) as Hnd. rewrite Hw in Hnd. apply NoDup_cons in Hnd as [Hnw Hnd].
  assert (Halt : alter (fun k => mkTask (tk_node k) (tk_sem k) Resumed) w (delete t (tasks st))
    = <[w := mkTask m r Resumed]> (delete t (tasks st))).
  { apply map_eq. intros j. rewrite lookup_alter, lookup_insert. case_decide; [|done].
    subst. by rewrite Hdw. }
  rewrite Halt. split; simpl.
  - intros t' k Hk. rewrite lookup_insert. case_decide; [done|]. map_cases; eauto.
  - intros m' r' Hr. rewrite lookup_insert. case_decide; eauto.
  - intros r' s0 H0. rewrite (count_replace _ _ _ _ _ _ Hdw), (count_delete _ _ _ _ _ Ht).
    rewrite (ind_other (mkTask m r Waiting)), (ind_other (mkTask m r Resumed)) by (by right).
    map_cases.
    + rewrite (H3 _ _ Hs). pose proof (ind_same (mkTask n r' Holding)) as E. simpl in E. lia.
    + rewrite ind_other by (by left). rewrite <- (H3 _ _ H0). lia.
  - intros r' s0 H0. map_cases; eauto.
  - intros r' s0 t' H0. rewrite lookup_insert, lookup_delete. map_cases.
    + pose proof (H5 _ _ t' Hs) as Hq. rewrite Hw, elem_of_cons in Hq.
      repeat case_decide; naive_solver.
    + rewrite (H5 _ _ t' H0). repeat case_decide; naive_solver.
  - intros r' s0 H0 Hwn. rewrite (count_replace _ _ _ _ _ _ Hdw), (count_delete _ _ _ _ _ Ht).
    map_cases.
    + rewrite (ind_other (mkTask m r' Waiting)), (ind_other (mkTask n r' Holding)) by (by right).
      pose proof (H6 _ _ Hs ltac:(by rewrite Hw)). pose proof (ind_same (mkTask m r' Resumed)) as E.
      simpl in E. lia.
    + rewrite !ind_other by (by left). pose proof (H6 _ _ H0 Hwn). lia.
  - intros r' Hr. rewrite lookup_insert_ne; [auto|]. intros ->. by rewrite H7 in Hs.
Qed.

Lemma inv_release t st : SlotInv st -> SlotInv (release t st).
Proof.
  intros Hi. unfold release. destruct (tasks st !! t) as [[n r []]|] eqn:Ht; try done.
  destruct (heap st !! r) as [s|] eqn:Hs; [|done]. destruct (waiters s) as [|w ws] eqn:Hw; simpl.
  - eapply inv_release_empty; eauto. case_match; [apply delete_subseteq|done].
  - pose proof (inv_release_wake n r s t st w ws Hi Ht Hs Hw) as H.
    case_match; [|done]. destruct H as [K1 K2 K3 K4 K5 K6 K7]. split; simpl in *; eauto.
    intros m r' [_ Hr]%lookup_delete_Some. eauto.
Qed.

Lemma slots_inv st : slots_reachable st -> SlotInv st.
Proof.
  apply rtc_invariant; [|apply newSlots_inv].
  intros ? ? [n t st' Ht|t st'|t st']; intros Hi; [by apply inv_acquire|by apply inv_resume|by apply inv_release].
Qed.

(** No wake-up is lost: while a call waits, it is in the queue of its
    semaphore exactly once, and at least four calls of that semaphore render or
    have been woken, each of which wakes the head of the queue when it
    releases. *)
Theorem waiting_render_is_woken st t n r :
  slots_reachable st -> tasks st !! t = Some (mkTask n r Waiting) ->
  exists s, heap st !! r = Some s /\ t ∈ waiters s /\ NoDup (waiters s)
    /\ MAX_ACTIVE_RENDERS <= count r Holding (tasks st) + count r Resumed (tasks st).
Proof.
  intros Hi%slots_inv Ht. destruct (si_ref _ Hi _ _ Ht) as [s Hs]. simpl in Hs.
  assert (t ∈ waiters s) as Hq by (apply (si_queue _ Hi _ _ t Hs); eauto).
  exists s. split_and!; [done|done|by eapply si_nodup|].
  rewrite <- (si_active _ Hi _ _ Hs). apply (si_full _ Hi _ _ Hs).
  intros E. rewrite E in Hq. by apply elem_of_nil in Hq.
Qed.

Lemma waiting_render_is_woken_witness :
  let st := acquire 1 5 (acquire 1 4 (acquire 1 3 (acquire 1 2 (acquire 1 1 newSlots)))) in
  exists s, heap st !! 0 = Some s /\ 5 ∈ waiters s /\ NoDup (waiters s)
    /\ MAX_ACTIVE_RENDERS <= count 0 Holding (tasks st) + count 0 Resumed (tasks st).
Proof.
  refine (waiting_render_is_woken _ 5 1 0 _ _); [|vm_compute; reflexivity].
  unfold slots_reachable.
  repeat (eapply rtc_r; [|eapply step_acquire; vm_compute; reflexivity]). apply rtc_refl.
Defined.
End Slots.
