(* ===== verification/Cache.v ===== *)
(** * The in-process cache (backend/src/services/CacheService.ts)

    TTL entries, one computation in flight per key, per-key write generations
    that let [invalidate] supersede a computation in flight, and the last value
    served when a computation fails.

    [getOrFetchWithMeta] is split at its awaits: the call itself, which answers
    with a hit, joins the promise in flight, or starts a computation of its own;
    and the settling of a fetcher. A promise is named by a number; [ca_running]
    holds what the closure of a computation captured, [ca_settled] what a promise
    settled to. A fetcher may also throw before its first [await]: then the
    promise of the computation is settled before it is recorded as in flight. *)

From Stdlib Require Import Ascii.
From S2P Require Import Prelude.

Section cache.
Context {V Err : Type}.

Abbreviation Pid := Z.

Record CacheEntry := mkEntry { ce_value : V; ce_expiresAt : Z }.
Record NamespaceStats := mkStats { ns_hits : Z; ns_misses : Z; ns_stale : Z; ns_size : Z }.

Definition MAX_ENTRIES : Z := 1000.

(** What the closure of a computation captured. *)
Record Computation := mkComp {
  co_key : string;
  co_ttl : Z;
  co_existing : option CacheEntry;
  co_generation : Z;
}.

Record Cache := mkCache {
  ca_store : gmap string CacheEntry;
  ca_inflight : gmap string Pid;
  ca_generations : gmap string Z;
  ca_stats : gmap string NamespaceStats;
  ca_running : gmap Pid Computation;
  ca_settled : gmap Pid (Err + V);
  ca_next : Pid;
}.

Definition newCache : Cache := mkCache ∅ ∅ ∅ ∅ ∅ ∅ 0.

Definition upd_store f c := mkCache (f (ca_store c)) (ca_inflight c) (ca_generations c) (ca_stats c)
  (ca_running c) (ca_settled c) (ca_next c).
Definition upd_inflight f c := mkCache (ca_store c) (f (ca_inflight c)) (ca_generations c) (ca_stats c)
  (ca_running c) (ca_settled c) (ca_next c).
Definition upd_generations f c := mkCache (ca_store c) (ca_inflight c) (f (ca_generations c))
  (ca_stats c) (ca_running c) (ca_settled c) (ca_next c).
Definition upd_stats f c := mkCache (ca_store c) (ca_inflight c) (ca_generations c) (f (ca_stats c))
  (ca_running c) (ca_settled c) (ca_next c).
Definition upd_running f c := mkCache (ca_store c) (ca_inflight c) (ca_generations c) (ca_stats c)
  (f (ca_running c)) (ca_settled c) (ca_next c).
Definition upd_settled f c := mkCache (ca_store c) (ca_inflight c) (ca_generations c) (ca_stats c)
  (ca_running c) (f (ca_settled c)) (ca_next c).
Definition upd_next f c := mkCache (ca_store c) (ca_inflight c) (ca_generations c) (ca_stats c)
  (ca_running c) (ca_settled c) (f (ca_next c)).

(** The part of a key before its first colon. *)
Fixpoint namespaceOf (key : string) : string :=
  match key with
  | EmptyString => EmptyString
  | String c rest => if decide (c = ":"%char) then EmptyString else String c (namespaceOf rest)
  end.

(** ** Internals *)

Definition getOrCreateNs (ns : string) (c : Cache) : NamespaceStats :=
  default (mkStats 0 0 0 0) (ca_stats c !! ns).

Definition recordHit (ns : string) (c : Cache) : Cache :=
  let s := getOrCreateNs ns c in
  upd_stats (<[ns := mkStats (ns_hits s + 1) (ns_misses s) (ns_stale s) (ns_size s)]>) c.
Definition recordMiss (ns : string) (c : Cache) : Cache :=
  let s := getOrCreateNs ns c in
  upd_stats (<[ns := mkStats (ns_hits s) (ns_misses s + 1) (ns_stale s) (ns_size s)]>) c.
Definition recordStale (ns : string) (c : Cache) : Cache :=
  let s := getOrCreateNs ns c in
  upd_stats (<[ns := mkStats (ns_hits s) (ns_misses s) (ns_stale s + 1) (ns_size s)]>) c.

Definition purgeExpired (now : Z) (c : Cache) : Cache :=
  upd_store (filter (fun ke => now < ce_expiresAt ke.2)) c.

Definition currentGeneration (key : string) (c : Cache) : Z :=
  default 0 (ca_generations c !! key).

Definition bumpGeneration (key : string) (c : Cache) : Cache :=
  upd_generations (<[key := currentGeneration key c + 1]>) c.

(** ** Operations *)

Definition set (now : Z) (key : string) (value : V) (ttlMs : Z) (c : Cache) : Cache :=
  let insert := upd_store (<[key := mkEntry value (now + ttlMs)]>) in
  if (Z.of_nat (size (ca_store c)) >=? MAX_ENTRIES) && bool_decide (ca_store c !! key = None) then
    let c := purgeExpired now c in
    if Z.of_nat (size (ca_store c)) >=? MAX_ENTRIES then c else insert c
  else insert c.

Definition peek (now : Z) (key : string) (c : Cache) : option V :=
  match ca_store c !! key with
  | Some e => if ce_expiresAt e <=? now then None else Some (ce_value e)
  | None => None
  end.

Definition get (now : Z) (key : string) (c : Cache) : option V * Cache :=
  let ns := namespaceOf key in
  match ca_store c !! key with
  | Some e => if ce_expiresAt e <=? now then (None, recordMiss ns c)
              else (Some (ce_value e), recordHit ns c)
  | None => (None, recordMiss ns c)
  end.

Definition invalidate (key : string) (c : Cache) : Cache :=
  bumpGeneration key (upd_inflight (delete key) (upd_store (delete key) c)).

(** [key === namespace || key.startsWith(`${namespace}:`)] *)
Definition inNamespace (namespace key : string) : bool :=
  bool_decide (key = namespace) || String.prefix (namespace +:+ ":") key.

Definition invalidateNamespace (namespace : string) (c : Cache) : Cache :=
  let keys := elements (dom (ca_store c) ∪ dom (ca_inflight c) ∪ dom (ca_generations c)) in
  foldl (fun c key => if inNamespace namespace key then invalidate key c else c) c keys.

Definition flush (c : Cache) : Cache :=
  mkCache ∅ ∅ ∅ ∅ (ca_running c) (ca_settled c) (ca_next c).

(** The live entries of a namespace. *)
Definition liveSize (now : Z) (ns : string) (c : Cache) : Z :=
  Z.of_nat (size (filter (fun ke => now < ce_expiresAt ke.2 /\ namespaceOf ke.1 = ns) (ca_store c))).

Definition getStats (now : Z) (ns : string) (c : Cache) : option NamespaceStats :=
  if bool_decide (ca_stats c !! ns = None) && (liveSize now ns c =? 0) then None
  else
    let base := getOrCreateNs ns c in
    Some (mkStats (ns_hits base) (ns_misses base) (ns_stale base) (liveSize now ns c)).

(** The answer of a call at its first [await]: the value of a fresh entry, the
    promise it joins, or the promise of its own computation. *)
Inductive FetchStart := FHit (v : V) | FJoin (p : Pid) | FOwn (p : Pid).

(** A computation that failed: its last value, or its error. *)
Definition fallback (existing : option CacheEntry) (ns : string) (err : Err) (c : Cache)
    : (Err + V) * Cache :=
  match existing with
  | Some e => (inr (ce_value e), recordStale ns c)
  | None => (inl err, c)
  end.

(** A call that found no fresh entry: it joins the promise in flight or starts
    its own. [thrown] is what the fetcher threw before it returned a promise. *)
Definition startFetch (key : string) (ttlMs : Z) (thrown : option Err) (c : Cache)
    : FetchStart * Cache :=
  match ca_inflight c !! key with
  | Some p => (FJoin p, c)
  | None =>
      let p := ca_next c in
      let existing := ca_store c !! key in
      let generation := currentGeneration key c in
      let c := upd_next (Z.add 1) c in
      let c := match thrown with
               | None => upd_running (<[p := mkComp key ttlMs existing generation]>) c
               | Some err =>
                   let '(res, c) := fallback existing (namespaceOf key) err c in
                   upd_settled (<[p := res]>) c
               end in
      (FOwn p, upd_inflight (<[key := p]>) c)
  end.

(** [getOrFetchWithMeta] up to its first [await]. *)
Definition getOrFetchWithMeta (now : Z) (key : string) (ttlMs : Z) (thrown : option Err) (c : Cache)
    : FetchStart * Cache :=
  let ns := namespaceOf key in
  let miss := startFetch key ttlMs thrown (recordMiss ns c) in
  match ca_store c !! key with
  | Some e => if now <? ce_expiresAt e then (FHit (ce_value e), recordHit ns c) else miss
  | None => miss
  end.

(** The fetcher of computation [p] settles, and its closure runs to its end. *)
Definition fetcherSettled (now : Z) (p : Pid) (res : Err + V) (c : Cache) : Cache :=
  match ca_running c !! p with
  | None => c
  | Some (mkComp key ttl existing generation) =>
      let c := upd_running (delete p) c in
      let '(out, c) :=
        match res with
        | inr value =>
            (inr value,
             if currentGeneration key c =? generation then set now key value ttl c else c)
        | inl err => fallback existing (namespaceOf key) err c
        end in
      let c := upd_settled (<[p := out]>) c in
      if bool_decide (ca_inflight c !! key = Some p) then upd_inflight (delete key) c else c
  end.

(** ** Histories *)

Inductive CacheEvent :=
  | EvFetch (now : Z) (key : string) (ttl : Z) (thrown : option Err)
  | EvSettled (now : Z) (p : Pid) (res : Err + V)
  | EvGet (now : Z) (key : string)
  | EvSet (now : Z) (key : string) (v : V) (ttl : Z)
  | EvInvalidate (key : string)
  | EvInvalidateNamespace (ns : string)
  | EvFlush.

Definition cache_event (ev : CacheEvent) (c : Cache) : Cache :=
  match ev with
  | EvFetch now key ttl thrown => (getOrFetchWithMeta now key ttl thrown c).2
  | EvSettled now p res => fetcherSettled now p res c
  | EvGet now key => (get now key c).2
  | EvSet now key v ttl => set now key v ttl c
  | EvInvalidate key => invalidate key c
  | EvInvalidateNamespace ns => invalidateNamespace ns c
  | EvFlush => flush c
  end.

Definition history (evs : list CacheEvent) (c : Cache) : Cache :=
  foldl (fun c ev => cache_event ev c) c evs.

Definition noFlush (ev : CacheEvent) : Prop := match ev with EvFlush => False | _ => True end.

(** ** Lemmas *)

Lemma generations_set now key v ttl c :
  ca_generations (set now key v ttl c) = ca_generations c
  /\ ca_running (set now key v ttl c) = ca_running c
  /\ ca_inflight (set now key v ttl c) = ca_inflight c
  /\ ca_next (set now key v ttl c) = ca_next c
  /\ ca_settled (set now key v ttl c) = ca_settled c.
Proof. unfold set. by repeat case_match. Qed.

Lemma fallback_frame existing ns err c out c' :
  fallback existing ns err c = (out, c') ->
  ca_store c' = ca_store c /\ ca_generations c' = ca_generations c /\ ca_running c' = ca_running c
  /\ ca_inflight c' = ca_inflight c /\ ca_next c' = ca_next c /\ ca_settled c' = ca_settled c.
Proof. unfold fallback. case_match; intros [= <- <-]; done. Qed.

(** What a call changes, besides the statistics. *)
Inductive fetch_spec (key : string) (ttl : Z) (c : Cache) : option Err -> FetchStart -> Cache -> Prop :=
  | fs_hit thrown v st : fetch_spec key ttl c thrown (FHit v) (upd_stats (fun _ => st) c)
  | fs_join thrown p st : ca_inflight c !! key = Some p ->
      fetch_spec key ttl c thrown (FJoin p) (upd_stats (fun _ => st) c)
  | fs_own st : ca_inflight c !! key = None ->
      fetch_spec key ttl c None (FOwn (ca_next c))
        (upd_inflight (<[key := ca_next c]>) (upd_running
          (<[ca_next c := mkComp key ttl (ca_store c !! key) (currentGeneration key c)]>)
          (upd_next (Z.add 1) (upd_stats (fun _ => st) c))))
  | fs_thrown st err : ca_inflight c !! key = None ->
      fetch_spec key ttl c (Some err) (FOwn (ca_next c))
        (upd_inflight (<[key := ca_next c]>) (upd_settled
          (<[ca_next c := match ca_store c !! key with Some e => inr (ce_value e) | None => inl err end]>)
          (upd_next (Z.add 1) (upd_stats (fun _ => st) c)))).

Lemma fetch_ok now key ttl thrown c :
  let '(ans, c') := getOrFetchWithMeta now key ttl thrown c in fetch_spec key ttl c thrown ans c'.
Proof.
  assert (Hm : let '(ans, c') := startFetch key ttl thrown (recordMiss (namespaceOf key) c) in
    fetch_spec key ttl c thrown ans c').
  { set (m := ca_stats (recordMiss (namespaceOf key) c)). unfold startFetch. simpl.
    destruct (ca_inflight c !! key) as [q|] eqn:Ei; [exact (fs_join key ttl c thrown q m Ei)|].
    destruct thrown as [err|]; [|exact (fs_own key ttl c m Ei)].
    pose proof (fun st => fs_thrown key ttl c st err Ei) as Hs. unfold fallback.
    destruct (ca_store c !! key) as [e|];
      [exact (Hs (ca_stats (recordStale (namespaceOf key) (recordMiss (namespaceOf key) c))))|exact (Hs m)]. }
  unfold getOrFetchWithMeta.
  destruct (ca_store c !! key) as [e|]; [destruct (now <? ce_expiresAt e)|]; try done.
  exact (fs_hit key ttl c thrown (ce_value e) (ca_stats (recordHit (namespaceOf key) c))).
Qed.

(** What the settling of a fetcher changes: the entry of its key when its
    generation is the current one, its promise, and the slot it still owns. *)
Lemma settled_frame now p res c k ttl ex g :
  ca_running c !! p = Some (mkComp k ttl ex g) ->
  let c' := fetcherSettled now p res c in
  ca_running c' = delete p (ca_running c) /\ ca_generations c' = ca_generations c
  /\ ca_next c' = ca_next c
  /\ ca_inflight c' = (if decide (ca_inflight c !! k = Some p) then delete k (ca_inflight c)
                       else ca_inflight c)
  /\ ca_store c' = (match res with
                    | inr v => if currentGeneration k c =? g then ca_store (set now k v ttl c)
                               else ca_store c
                    | inl _ => ca_store c
                    end).
Proof.
  intros Hp. unfold fetcherSettled. rewrite Hp. destruct res as [err|v].
  - destruct (fallback ex (namespaceOf k) err (upd_running (delete p) c)) as [out c1] eqn:Ef.
    apply fallback_frame in Ef as (E1 & E2 & E3 & E4 & E5 & E6). simpl in *.
    rewrite E4. case_bool_decide; case_decide; try done; simpl; by rewrite ?E1, ?E2, ?E3, ?E4, ?E5.
  - assert (Hset : forall c0, currentGeneration k (upd_running (delete p) c0) = currentGeneration k c0)
      by done.
    rewrite Hset. destruct (currentGeneration k c =? g).
    + destruct (generations_set now k v ttl (upd_running (delete p) c)) as (E1 & E2 & E3 & E4 & _).
      assert (Es : ca_store (set now k v ttl (upd_running (delete p) c)) = ca_store (set now k v ttl c))
        by (unfold set; simpl; by repeat case_match).
      simpl. rewrite E3. simpl. case_bool_decide; case_decide; try done; simpl;
        by rewrite ?E1, ?E2, ?E3, ?E4, ?Es.
    + simpl. case_bool_decide; case_decide; done.
Qed.

Lemma settled_unknown now p res c : ca_running c !! p = None -> fetcherSettled now p res c = c.
Proof. intros H. unfold fetcherSettled. by rewrite H. Qed.

(** ** Invariant of the histories without a flush *)

Record CacheInv (c : Cache) : Prop := {
  ci_running : forall p x, ca_running c !! p = Some x -> p < ca_next c;
  ci_inflight : forall k p, ca_inflight c !! k = Some p -> p < ca_next c;
  ci_slot : forall p k ttl ex g, ca_running c !! p = Some (mkComp k ttl ex g) ->
    g <= currentGeneration k c
    /\ (g = currentGeneration k c -> ca_inflight c !! k = Some p);
}.

Lemma gen_invalidate k k' c :
  currentGeneration k (invalidate k' c)
  = currentGeneration k c + (if decide (k' = k) then 1 else 0).
Proof.
  unfold currentGeneration at 1. simpl. rewrite lookup_insert. case_decide; simpl; [|unfold currentGeneration; lia].
  subst. unfold currentGeneration. simpl. done.
Qed.

Lemma cinv_invalidate k c : CacheInv c -> CacheInv (invalidate k c).
Proof.
  intros [H1 H2 H3]. split; simpl.
  - done.
  - intros k' p. rewrite lookup_delete. case_decide; [done|eauto].
  - intros p k' ttl ex g Hp. destruct (H3 _ _ _ _ _ Hp) as [Hle Hs]. rewrite gen_invalidate.
    case_decide; [split; lia|]. rewrite lookup_delete_ne by done. split; [lia|].
    intros ->. apply Hs. lia.
Qed.

Lemma cinv_fold (f : string -> bool) ks c :
  CacheInv c -> CacheInv (foldl (fun c k => if f k then invalidate k c else c) c ks).
Proof.
  revert c. induction ks as [|k ks IH]; intros c H; simpl; [done|]. apply IH.
  destruct (f k); [by apply cinv_invalidate|done].
Qed.

Lemma cinv_frame c c' :
  ca_running c' = ca_running c -> ca_inflight c' = ca_inflight c ->
  ca_generations c' = ca_generations c -> ca_next c' = ca_next c -> CacheInv c -> CacheInv c'.
Proof.
  intros E1 E2 E3 E4 [H1 H2 H3]. split; unfold currentGeneration in *; rewrite ?E1, ?E2, ?E3, ?E4; done.
Qed.

Lemma cinv_fetch now k ttl thrown c :
  CacheInv c -> CacheInv (getOrFetchWithMeta now k ttl thrown c).2.
Proof.
  intros Hi. pose proof (fetch_ok now k ttl thrown c) as H.
  destruct (getOrFetchWithMeta now k ttl thrown c) as [ans c']. simpl.
  destruct H as [thrown v st|thrown p st Hp|st Hn|st err Hn]; try (by eapply cinv_frame, Hi);
    destruct Hi as [H1 H2 H3]; split; simpl.
  - intros p x Hp. map_cases; [lia|]. apply H1 in Hp. lia.
  - intros k' p Hp. map_cases; [lia|]. apply H2 in Hp. lia.
  - intros p k' ttl' ex g Hp. map_cases.
    1: done.
    all: destruct (H3 _ _ _ _ _ Hp) as [Hle Hs]; split; [done|]; intros E; apply Hs in E; congruence.
  - intros p x Hp. apply H1 in Hp. lia.
  - intros k' p Hp. map_cases; [lia|]. apply H2 in Hp. lia.
  - intros p k' ttl' ex g Hp. destruct (H3 _ _ _ _ _ Hp) as [Hle Hs]. split; [done|].
    intros E. apply Hs in E. rewrite lookup_insert_ne; [done|]. congruence.
Qed.

Lemma cinv_settled now p res c : CacheInv c -> CacheInv (fetcherSettled now p res c).
Proof.
  intros Hi. destruct (ca_running c !! p) as [[k ttl ex g]|] eqn:Hp;
    [|by rewrite settled_unknown].
  destruct (settled_frame now p res c k ttl ex g Hp) as (E1 & E2 & E3 & E4 & _).
  destruct Hi as [H1 H2 H3]. split; unfold currentGeneration; rewrite ?E1, ?E2, ?E3, ?E4.
  - intros q x Hq. map_cases. eauto.
  - intros k' q Hq. case_decide; map_cases; eauto.
  - intros q k' ttl' ex' g' Hq. map_cases. destruct (H3 _ _ _ _ _ Hq) as [Hle Hs].
    split; [done|]. intros E. apply Hs in E. case_decide as Hd; [|done].
    rewrite lookup_delete_ne; [done|]. congruence.
Qed.

Lemma cinv_event ev c : noFlush ev -> CacheInv c -> CacheInv (cache_event ev c).
Proof.
  intros Hf Hi. destruct ev; simpl.
  - by apply cinv_fetch.
  - by apply cinv_settled.
  - unfold get. repeat case_match; by eapply cinv_frame, Hi.
  - destruct (generations_set now key v ttl c) as (E1 & E2 & E3 & E4 & _). by eapply cinv_frame, Hi.
  - by apply cinv_invalidate.
  - apply (cinv_fold (inNamespace ns)), Hi.
  - done.
Qed.

Lemma cinv_history evs c : Forall noFlush evs -> CacheInv c -> CacheInv (history evs c).
Proof.
  intros Hf. revert c. induction Hf as [|ev evs H Hf IH]; intros c Hi; [done|]. simpl.
  by apply IH, cinv_event.
Qed.

Lemma newCache_inv : CacheInv newCache.
Proof. split; simpl; intros; map_cases. Qed.

(** ** Monotonicity *)

Lemma gen_fold (f : string -> bool) ks k c :
  currentGeneration k c
  <= currentGeneration k (foldl (fun c k => if f k then invalidate k c else c) c ks).
Proof.
  revert c. induction ks as [|k' ks IH]; intros c; simpl; [lia|].
  destruct (f k'); [|apply IH]. etrans; [|apply IH]. rewrite gen_invalidate. case_decide; lia.
Qed.

Lemma running_fold (f : string -> bool) ks c :
  ca_running (foldl (fun c k => if f k then invalidate k c else c) c ks) = ca_running c
  /\ ca_next (foldl (fun c k => if f k then invalidate k c else c) c ks) = ca_next c.
Proof.
  revert c. induction ks as [|k' ks IH]; intros c; simpl; [done|].
  destruct (IH (if f k' then invalidate k' c else c)) as [-> ->]. by destruct (f k').
Qed.

(** An event other than a flush never lowers a generation, and never gives a
    promise of the past to another computation. *)
Lemma event_mono ev c k p :
  noFlush ev -> p < ca_next c ->
  currentGeneration k c <= currentGeneration k (cache_event ev c)
  /\ ca_next c <= ca_next (cache_event ev c)
  /\ (ca_running (cache_event ev c) !! p = None
      \/ ca_running (cache_event ev c) !! p = ca_running c !! p).
Proof.
  intros Hf Hp. destruct ev as [now k' ttl thrown|now q res|now k'|now k' v ttl|k'|ns|]; simpl.
  - pose proof (fetch_ok now k' ttl thrown c) as H.
    destruct (getOrFetchWithMeta now k' ttl thrown c) as [ans c'].
    destruct H as [thrown v st|thrown q st Hq|st Hn|st err Hn]; simpl; try (split_and!; [done|lia|auto]).
    right. rewrite lookup_insert_ne; [done|lia].
  - destruct (ca_running c !! q) as [[k' ttl ex g]|] eqn:Hq;
      [|rewrite settled_unknown by done; split_and!; [lia|lia|auto]].
    destruct (settled_frame now q res c k' ttl ex g Hq) as (E1 & E2 & E3 & _).
    unfold currentGeneration. rewrite E1, E2, E3. split_and!; [lia|lia|].
    rewrite lookup_delete. case_decide; auto.
  - unfold get. repeat case_match; split_and!; auto; done || lia.
  - destruct (generations_set now k' v ttl c) as (E1 & E2 & _ & E4 & _).
    unfold currentGeneration. rewrite E1, E2, E4. split_and!; [lia|lia|auto].
  - rewrite gen_invalidate. split_and!; [case_decide; lia|lia|auto].
  - unfold invalidateNamespace. destruct (running_fold (inNamespace ns)
      (elements (dom (ca_store c) ∪ dom (ca_inflight c) ∪ dom (ca_generations c))) c) as [-> ->].
    split_and!; [apply gen_fold|lia|auto].
  - done.
Qed.

Lemma history_mono evs c k p :
  Forall noFlush evs -> p < ca_next c ->
  currentGeneration k c <= currentGeneration k (history evs c)
  /\ (ca_running (history evs c) !! p = None
      \/ ca_running (history evs c) !! p = ca_running c !! p).
Proof.
  intros Hf. revert c. induction Hf as [|ev evs H Hf IH]; intros c Hp; simpl; [split; [lia|auto]|].
  destruct (event_mono ev c k p H Hp) as (E1 & E2 & E3).
  destruct (IH (cache_event ev c) ltac:(lia)) as (F1 & F2). split; [lia|]. intuition congruence.
Qed.

(** ** Theorems *)

(** C21: A computation in flight when its key is invalidated cannot write the
    cache: whatever happens after the invalidation, short of a flush, its
    settling leaves every entry as it is. *)
Theorem superseded_fetch_cannot_commit evs0 evs p k ttl ex g now res :
  Forall noFlush evs0 -> Forall noFlush evs ->
  let c0 := history evs0 newCache in
  ca_running c0 !! p = Some (mkComp k ttl ex g) ->
  let c := history evs (invalidate k c0) in
  ca_store (fetcherSettled now p res c) = ca_store c.
Proof.
  intros H0 H1 c0 Hp c. pose proof (cinv_history evs0 newCache H0 newCache_inv) as Hi. fold c0 in Hi.
  destruct (history_mono evs (invalidate k c0) k p H1) as [Hg Hr]; [by eapply (ci_running _ Hi)|].
  fold c in Hg, Hr. destruct (ci_slot _ Hi _ _ _ _ _ Hp) as [Hle _].
  rewrite gen_invalidate, decide_True in Hg by done. simpl in Hr. rewrite Hp in Hr.
  destruct Hr as [Hr|Hr]; [by rewrite settled_unknown|].
  destruct (settled_frame now p res c k ttl ex g Hr) as (_ & _ & _ & _ & ->).
  destruct res; [done|]. destruct (Z.eqb_spec (currentGeneration k c) g); [lia|done].
Qed.

(** One computation per key: while a computation of the current generation
    of a key runs, no call starts another one; it is a hit or it joins that
    computation. *)
Theorem single_flight evs p k ttl ex now ttl' thrown :
  Forall noFlush evs ->
  let c := history evs newCache in
  ca_running c !! p = Some (mkComp k ttl ex (currentGeneration k c)) ->
  let ans := (getOrFetchWithMeta now k ttl' thrown c).1 in
  ans = FJoin p \/ exists v, ans = FHit v.
Proof.
  intros Hf c Hp ans. subst ans. pose proof (cinv_history evs newCache Hf newCache_inv) as Hi. fold c in Hi.
  destruct (ci_slot _ Hi _ _ _ _ _ Hp) as [_ Hs]. specialize (Hs eq_refl).
  pose proof (fetch_ok now k ttl' thrown c) as H.
  destruct (getOrFetchWithMeta now k ttl' thrown c) as [ans c']. simpl.
  inversion H; subst; try congruence; [right; eauto|left; congruence].
Qed.

(** The events that neither clear nor set a key. *)
Definition quietEvent (ev : CacheEvent) : Prop :=
  match ev with EvFetch _ _ _ _ | EvSettled _ _ _ | EvGet _ _ => True | _ => False end.

Lemma quiet_noFlush ev : quietEvent ev -> noFlush ev.
Proof. by destruct ev. Qed.

(** The promise of [k] in flight belongs to no running computation. *)
Definition poisoned (k : string) (p : Pid) (err : Err) (c : Cache) : Prop :=
  ca_inflight c !! k = Some p /\ ca_running c !! p = None /\ ca_store c !! k = None
  /\ ca_settled c !! p = Some (inl err) /\ p < ca_next c.

Lemma poisoned_settled k p err c now q res :
  CacheInv c -> poisoned k p err c -> poisoned k p err (fetcherSettled now q res c).
Proof.
  intros Hi (H1 & H2 & H3 & H4 & H5).
  destruct (ca_running c !! q) as [[k' ttl ex g]|] eqn:Hq; [|by rewrite settled_unknown].
  assert (Hqp : q <> p) by congruence.
  assert (Hset : ca_settled (fetcherSettled now q res c) !! p = ca_settled c !! p).
  { unfold fetcherSettled. rewrite Hq. destruct res as [err'|v].
    - destruct (fallback ex _ err' _) as [out c1] eqn:Ef.
      apply fallback_frame in Ef as (_ & _ & _ & _ & _ & E6).
      case_match; simpl; rewrite lookup_insert_ne, E6 by done; done.
    - simpl. case_match eqn:Eg; case_match; simpl; rewrite lookup_insert_ne by done; try done;
        destruct (generations_set now k' v ttl (upd_running (delete q) c)) as (_ & _ & _ & _ & E);
        by rewrite E. }
  destruct (settled_frame now q res c k' ttl ex g Hq) as (E1 & E2 & E3 & E4 & E5).
  unfold poisoned. rewrite Hset, E1, E3, E4, E5, lookup_delete_ne by done. split_and!; try done.
  - case_decide as Hd; [|done]. rewrite lookup_delete_ne; [done|]. congruence.
  - destruct res as [|v]; [done|]. destruct (Z.eqb_spec (currentGeneration k' c) g) as [Eg|]; [|done].
    destruct (ci_slot _ Hi _ _ _ _ _ Hq) as [_ Hs]. specialize (Hs (eq_sym Eg)).
    assert (k' <> k) by congruence. unfold set. repeat case_match; simpl; try done;
      rewrite ?lookup_insert_ne by done; try done; apply map_lookup_filter_None; by left.
Qed.

Lemma poisoned_event k p err c ev :
  quietEvent ev -> CacheInv c -> poisoned k p err c -> poisoned k p err (cache_event ev c).
Proof.
  intros Hq Hi Hp. destruct ev as [now k' ttl thrown|now q res|now k'| | | |]; simpl; try done.
  - pose proof (fetch_ok now k' ttl thrown c) as H.
    destruct (getOrFetchWithMeta now k' ttl thrown c) as [ans c'].
    destruct Hp as (H1 & H2 & H3 & H4 & H5).
    destruct H as [thrown v st|thrown q st Hj|st Hn|st err' Hn]; try done;
      (split_and!; simpl; [rewrite lookup_insert_ne by congruence| | | |]); try done;
      rewrite ?lookup_insert_ne by lia; try done; lia.
  - by apply poisoned_settled.
  - unfold get. repeat case_match; done.
Qed.

(** A fetcher that throws before its first [await] poisons its key: its
    rejected promise stays in flight, and until the key is cleared or set every
    later call joins it and fails with the same error, without calling its own
    fetcher. *)
Theorem sync_throw_poisons_key evs0 evs k now ttl err now' ttl' thrown' :
  Forall noFlush evs0 -> Forall quietEvent evs ->
  let c0 := history evs0 newCache in
  ca_store c0 !! k = None -> ca_inflight c0 !! k = None ->
  let c := history (EvFetch now k ttl (Some err) :: evs) c0 in
  (getOrFetchWithMeta now' k ttl' thrown' c).1 = FJoin (ca_next c0)
  /\ ca_settled c !! ca_next c0 = Some (inl err).
Proof.
  intros H0 Hq c0 Hs Hn c. pose proof (cinv_history evs0 newCache H0 newCache_inv) as Hi. fold c0 in Hi.
  assert (Hp : poisoned k (ca_next c0) err (cache_event (EvFetch now k ttl (Some err)) c0)).
  { simpl. pose proof (fetch_ok now k ttl (Some err) c0) as H.
    assert (Hnh : forall v, (getOrFetchWithMeta now k ttl (Some err) c0).1 <> FHit v).
    { intros v. unfold getOrFetchWithMeta, startFetch. simpl. rewrite Hs, Hn. by case_match. }
    destruct (getOrFetchWithMeta now k ttl (Some err) c0) as [ans c']. simpl in *.
    inversion H; subst; try congruence. split_and!; simpl.
    - by rewrite lookup_insert_eq.
    - destruct (ca_running c0 !! ca_next c0) eqn:E; [|done]. apply (ci_running _ Hi) in E. lia.
    - done.
    - by rewrite lookup_insert_eq, Hs.
    - lia. }
  assert (Hev : forall c1, CacheInv c1 -> poisoned k (ca_next c0) err c1 ->
    poisoned k (ca_next c0) err (history evs c1)).
  { clear c Hp. induction Hq as [|ev evs Hv Hq IH]; intros c1 Hi1 Hp1; simpl; [done|].
    apply IH; [by apply cinv_event; [apply quiet_noFlush|]|by apply poisoned_event]. }
  apply Hev in Hp as (P1 & P2 & P3 & P4 & P5); [|by apply cinv_event].
  split; [|done]. unfold getOrFetchWithMeta, startFetch. simpl.
  change (history evs _) with c in P1, P3. by rewrite P3, P1.
Qed.

(** *** The cap *)

Lemma size_set now k v ttl c :
  Z.of_nat (size (ca_store c)) <= MAX_ENTRIES -> Z.of_nat (size (ca_store (set now k v ttl c))) <= MAX_ENTRIES.
Proof.
  intros H. unfold set. destruct (ca_store c !! k) as [e|] eqn:E.
  - rewrite bool_decide_eq_false_2, andb_false_r by done. simpl. by rewrite map_size_insert_Some.
  - rewrite bool_decide_eq_true_2, andb_true_r by done. zbool.
    destruct (Z.geb_spec (Z.of_nat (size (ca_store c))) MAX_ENTRIES).
    + simpl. destruct (Z.geb_spec (Z.of_nat (size (filter (fun ke => now < ce_expiresAt ke.2) (ca_store c))))
        MAX_ENTRIES) as [|Hlt]; simpl.
      * pose proof (map_size_filter (fun ke => now < ce_expiresAt ke.2) (ca_store c)). lia.
      * rewrite map_size_insert_None by (apply map_lookup_filter_None; by left). lia.
    + simpl. rewrite map_size_insert_None by done. lia.
Qed.

Lemma size_delete_le k (m : gmap string CacheEntry) :
  Z.of_nat (size (delete k m)) <= Z.of_nat (size m).
Proof. rewrite map_size_delete. destruct (m !! k); simpl; lia. Qed.

Lemma size_fold (f : string -> bool) ks c :
  Z.of_nat (size (ca_store (foldl (fun c k => if f k then invalidate k c else c) c ks)))
  <= Z.of_nat (size (ca_store c)).
Proof.
  revert c. induction ks as [|k ks IH]; intros c; simpl; [lia|]. etrans; [apply IH|].
  destruct (f k); [apply size_delete_le|lia].
Qed.

Lemma size_event ev c :
  Z.of_nat (size (ca_store c)) <= MAX_ENTRIES ->
  Z.of_nat (size (ca_store (cache_event ev c))) <= MAX_ENTRIES.
Proof.
  intros H. destruct ev as [now k ttl thrown|now p res|now k|now k v ttl|k|ns|]; simpl.
  - pose proof (fetch_ok now k ttl thrown c) as Hs.
    destruct (getOrFetchWithMeta now k ttl thrown c) as [ans c']. by destruct Hs.
  - destruct (ca_running c !! p) as [[k ttl ex g]|] eqn:Hp; [|by rewrite settled_unknown].
    destruct (settled_frame now p res c k ttl ex g Hp) as (_ & _ & _ & _ & ->).
    destruct res; [done|]. case_match; [by apply size_set|done].
  - unfold get. by repeat case_match.
  - by apply size_set.
  - etrans; [apply size_delete_le|done].
  - etrans; [apply (size_fold (inNamespace ns))|done].
  - done.
Qed.

(** The cache never holds more than its cap, in any history. *)
Theorem cache_bounded evs :
  Z.of_nat (size (ca_store (history evs newCache))) <= MAX_ENTRIES.
Proof.
  assert (H : Z.of_nat (size (ca_store newCache)) <= MAX_ENTRIES) by done.
  revert H. generalize newCache. induction evs as [|ev evs IH]; intros c H; simpl; [done|].
  by apply IH, size_event.
Qed.
End cache.

(** ** Concrete histories *)

Definition ex_fetch : list (@CacheEvent Z string) := [EvFetch 0 "stats:1" 10 None].

Lemma superseded_fetch_cannot_commit_witness :
  ca_store (fetcherSettled 5 0 (inr 7)
    (history [EvFetch 3 "stats:1" 10 None] (invalidate "stats:1" (history ex_fetch newCache)))) = ∅.
Proof.
  rewrite (superseded_fetch_cannot_commit ex_fetch [EvFetch 3 "stats:1" 10 None] 0 "stats:1" 10 None 0
    5 (inr 7)); [reflexivity|by repeat constructor..|reflexivity].
Defined.

Lemma single_flight_witness :
  let ans := (getOrFetchWithMeta 3 "stats:1" 10 None (history ex_fetch newCache)).1 in
  ans = FJoin 0 \/ exists v, ans = FHit v.
Proof.
  refine (single_flight ex_fetch 0 "stats:1" 10 None 3 10 None _ _); [by repeat constructor|reflexivity].
Defined.

Lemma sync_throw_poisons_key_witness :
  (getOrFetchWithMeta 900 "stats:1" 10 None
    (history (EvFetch 0 "stats:1" 10 (Some "boom") :: [EvFetch 500 "stats:1" 10 None])
      (@newCache Z string))).1 = FJoin 0.
Proof.
  refine (proj1 (sync_throw_poisons_key [] [EvFetch 500 "stats:1" 10 None] "stats:1" 0 10 "boom"
    900 10 None _ _ _ _)); try reflexivity; by repeat constructor.
Defined.

(** A flush resets the generations: a computation that was in flight before it
    writes its value after it. *)
Lemma flush_lets_old_fetch_commit :
  peek 6 "stats:1" (history (ex_fetch ++ [EvFlush; EvSettled 5 0 (inr 7)]) newCache) = Some 7.
Proof. reflexivity. Qed.
