(* ===== verification/Restore.v ===== *)
(** * Data restores: intents and the restore fence
    (backend/src/services/recovery/restoreIntents.ts and restoreFence.ts)

    An intent is the durable record of a restore and moves through phases; a
    staged overwrite also holds a fence around the containers that mount its
    volume. The intents table is a map by id, the members table a list in rowid
    order. [JSON.parse] and [JSON.stringify] of the dependent stacks are
    parameters; the restart policy of a member is kept as the value its column
    encodes ([None] when the column is not readable JSON).

    A start of a container is registered while the daemon works on it.
    [applyRestoreFence] is split at its wait for the starts in flight, and
    [startContainerUnderFence] at its inspection of the container. The loops over
    the members run in one step each, with the answers of the daemon as inputs. *)

From stdpp Require Import sorting.
From S2P Require Import Prelude Json StackLock.

(** ** Intents *)

Inductive RestoreIntentTargetMode := new_volume | new_path | staged_overwrite.
Inductive RestoreFenceState := fence_none | held | released | release_failed.
Inductive RestoreIntentPhase :=
  | recorded | staging | staged_verified | fenced | protecting | materializing | swapping | swapped
  | committed | rolled_back | completion_unknown.

#[export] Instance RestoreIntentTargetMode_eq_dec : EqDecision RestoreIntentTargetMode.
Proof. solve_decision. Defined.
#[export] Instance RestoreFenceState_eq_dec : EqDecision RestoreFenceState.
Proof. solve_decision. Defined.
#[export] Instance RestoreIntentPhase_eq_dec : EqDecision RestoreIntentPhase.
Proof. solve_decision. Defined.

Definition RESTORE_OVERWRITE_PHASES : list RestoreIntentPhase :=
  [fenced; protecting; materializing; swapping; swapped].

Definition ALLOWED_TRANSITIONS (p : RestoreIntentPhase) : list RestoreIntentPhase :=
  match p with
  | recorded => [staging; rolled_back; completion_unknown]
  | staging => [staged_verified; rolled_back; completion_unknown]
  | staged_verified => [fenced; committed; rolled_back; completion_unknown]
  | fenced => [protecting; rolled_back; completion_unknown]
  | protecting => [materializing; rolled_back; completion_unknown]
  | materializing => [swapping; rolled_back; completion_unknown]
  | swapping => [swapped; rolled_back; completion_unknown]
  | swapped => [committed; rolled_back; completion_unknown]
  | committed => []
  | rolled_back => []
  | completion_unknown => [committed; rolled_back]
  end.

(** [phase NOT IN ('committed','rolled_back','completion_unknown')] *)
Definition unsettled (p : RestoreIntentPhase) : bool :=
  match p with committed | rolled_back | completion_unknown => false | _ => true end.

(** [fence_state IN ('held','release_failed')] *)
Definition LIVE_FENCE_STATE (f : RestoreFenceState) : bool :=
  match f with held | release_failed => true | _ => false end.

Record IntentRow := mkIntentRow {
  ir_operation_id : string;
  ir_point_id : string;
  ir_target_mode : RestoreIntentTargetMode;
  ir_target_volume : option string;
  ir_phase : RestoreIntentPhase;
  ir_staging_volume : option string;
  ir_expected_generation_token : option string;
  ir_dependent_stacks_json : option string;
  ir_pre_restore_point_id : option string;
  ir_fence_state : RestoreFenceState;
  ir_outcome_class : option string;
  ir_files_restored : option Z;
  ir_bytes_restored : option Z;
  ir_verified : option bool;
  ir_xattr_warnings : option Z;
  ir_actor : string;
  ir_process_epoch : string;
  ir_created_at : Z;
  ir_updated_at : Z;
}.

Record IntentAdvanceFields := mkAdvance {
  af_filesRestored : option Z;
  af_bytesRestored : option Z;
  af_verified : option bool;
  af_xattrWarnings : option Z;
  af_stagingVolume : option string;
  af_expectedGenerationToken : option string;
  af_preRestorePointId : option string;
  af_outcomeClass : option (option string);     (* [Some None] is an explicit null *)
}.

Definition no_fields : IntentAdvanceFields := mkAdvance None None None None None None None None.

Inductive RecoveryError := invalid_request | lock_held | fence_unavailable.

Abbreviation Intents := (gmap string IntentRow).

(** [COALESCE(?, column)] *)
Definition coalesce {A} (new old : option A) : option A :=
  match new with Some _ => new | None => old end.

Definition set_phase (p : RestoreIntentPhase) (now : Z) (x : IntentAdvanceFields) (r : IntentRow)
    : IntentRow :=
  mkIntentRow (ir_operation_id r) (ir_point_id r) (ir_target_mode r) (ir_target_volume r) p
    (coalesce (af_stagingVolume x) (ir_staging_volume r))
    (coalesce (af_expectedGenerationToken x) (ir_expected_generation_token r))
    (ir_dependent_stacks_json r)
    (coalesce (af_preRestorePointId x) (ir_pre_restore_point_id r))
    (ir_fence_state r)
    (match af_outcomeClass x with Some o => o | None => ir_outcome_class r end)
    (coalesce (af_filesRestored x) (ir_files_restored r))
    (coalesce (af_bytesRestored x) (ir_bytes_restored r))
    (coalesce (af_verified x) (ir_verified r))
    (coalesce (af_xattrWarnings x) (ir_xattr_warnings r))
    (ir_actor r) (ir_process_epoch r) (ir_created_at r) now.

(** The partial unique index: another live intent of the volume. *)
Definition liveTarget (volume : string) (db : Intents) : bool :=
  bool_decide (filter (fun kr => ir_target_volume kr.2 = Some volume
                                 /\ unsettled (ir_phase kr.2) = true) db <> ∅).

(** The unique operation of an intent. *)
Definition operationUsed (operationId : string) (db : Intents) : bool :=
  bool_decide (filter (fun kr => ir_operation_id kr.2 = operationId) db <> ∅).

(** The caller's part of an intent ([id] generated when it names none). *)
Record RestoreIntentInput := mkIntentInput {
  ii_id : string;
  ii_operationId : string;
  ii_pointId : string;
  ii_targetVolume : string;
  ii_actor : string;
  ii_processEpoch : string;
}.

(** Sorted without duplicates, as [[...new Set(stacks)].sort()]. *)
Definition stack_list (stacks : list string) : list string :=
  merge_sort String.le (remove_dups stacks).

Section intents.
Variable json_parse : string -> option Json.
Variable json_stringify : Json -> string.

(** [insert], for [record] and [recordOverwrite]. *)
Definition insertIntent (mode : RestoreIntentTargetMode) (input : RestoreIntentInput)
    (stagingVolume token : option string) (dependentStacks : list string) (now : Z) (db : Intents)
    : RecoveryError + Intents :=
  if bool_decide (ii_targetVolume input = "") then inl invalid_request
  else if bool_decide (is_Some (db !! ii_id input)) || operationUsed (ii_operationId input) db
          || liveTarget (ii_targetVolume input) db then inl lock_held
  else inr (<[ii_id input := mkIntentRow (ii_operationId input) (ii_pointId input) mode
              (Some (ii_targetVolume input)) recorded stagingVolume token
              (if bool_decide (dependentStacks = []) then None
               else Some (json_stringify (JArr (JStr <$> stack_list dependentStacks))))
              None fence_none None None None None None (ii_actor input) (ii_processEpoch input)
              now now]> db).

Definition record (input : RestoreIntentInput) (now : Z) (db : Intents) : RecoveryError + Intents :=
  insertIntent new_volume input None None [] now db.

Definition recordOverwrite (input : RestoreIntentInput) (stagingVolume token : string)
    (dependentStacks : list string) (now : Z) (db : Intents) : RecoveryError + Intents :=
  insertIntent staged_overwrite input (Some stagingVolume) (Some token) dependentStacks now db.

Definition advance (id : string) (phase : RestoreIntentPhase) (extra : IntentAdvanceFields) (now : Z)
    (db : Intents) : RecoveryError + Intents :=
  match db !! id with
  | None => inl invalid_request
  | Some current =>
      if negb (bool_decide (phase ∈ ALLOWED_TRANSITIONS (ir_phase current))) then inl invalid_request
      else if negb (bool_decide (ir_target_mode current = staged_overwrite))
              && bool_decide (phase ∈ RESTORE_OVERWRITE_PHASES) then inl invalid_request
      else inr (<[id := set_phase phase now extra current]> db)
  end.

(** [update]: evidence without a phase change. *)
Definition updateIntent (id : string) (extra : IntentAdvanceFields) (now : Z) (db : Intents)
    : RecoveryError + Intents :=
  match db !! id with
  | None => inl invalid_request
  | Some r => inr (<[id := set_phase (ir_phase r) now extra r]> db)
  end.

Definition set_fence (f : RestoreFenceState) (now : Z) (r : IntentRow) : IntentRow :=
  mkIntentRow (ir_operation_id r) (ir_point_id r) (ir_target_mode r) (ir_target_volume r)
    (ir_phase r) (ir_staging_volume r) (ir_expected_generation_token r)
    (ir_dependent_stacks_json r) (ir_pre_restore_point_id r) f (ir_outcome_class r)
    (ir_files_restored r) (ir_bytes_restored r) (ir_verified r) (ir_xattr_warnings r)
    (ir_actor r) (ir_process_epoch r) (ir_created_at r) now.

(** [UPDATE ... WHERE id = ?] *)
Definition setFenceState (id : string) (f : RestoreFenceState) (now : Z) (db : Intents) : Intents :=
  alter (set_fence f now) id db.

(** The stacks of a row: the strings of the array in its column. *)
Definition parseStackList (raw : option string) : list string :=
  match truthy raw with
  | None => []
  | Some text =>
      match json_parse text with
      | Some (JArr parsed) => omap (fun v => match v with JStr s => Some s | _ => None end) parsed
      | _ => []
      end
  end.

(** ** Startup *)

(** What Docker answers about the target volume of an interrupted restore.
    [inUse] is [None] when the containers cannot be listed. *)
Inductive VolumeAnswer :=
  | VGone                                       (* 404 *)
  | VError                                      (* any other failure *)
  | VFound (labels : option (gmap string string)) (inUse : option bool) (removeFails : bool).

Definition HELPER_LABEL_RESTORE_INTENT : string := "dev.sencho.recovery.restore-intent".

(** The phase an unsettled new-volume intent is settled in, and whether its
    volume is removed; [None] when the listing of the containers throws. *)
Definition reconcileIntent (id : string) (r : IntentRow) (docker : string -> VolumeAnswer)
    : option (RestoreIntentPhase * bool) :=
  match truthy (ir_target_volume r) with
  | None => Some (completion_unknown, false)
  | Some volume =>
      match docker volume with
      | VError => Some (completion_unknown, false)
      | VGone => Some (rolled_back, false)
      | VFound None _ _ => Some (rolled_back, false)
      | VFound (Some labels) inUse removeFails =>
          if negb (bool_decide (labels !! HELPER_LABEL_RESTORE_INTENT = Some id))
          then Some (completion_unknown, false)
          else match inUse with
               | None => None
               | Some true => Some (completion_unknown, false)
               | Some false => Some (if removeFails then (completion_unknown, false)
                                     else (rolled_back, true))
               end
      end
  end.

Record IntentReconciliation := mkReconciliation { rc_rolledBack : Z; rc_unknown : Z }.

(** [ORDER BY created_at, id] *)
Definition intent_le (x y : string * IntentRow) : Prop :=
  ir_created_at x.2 < ir_created_at y.2
  \/ (ir_created_at x.2 = ir_created_at y.2 /\ String.le x.1 y.1).

#[export] Instance intent_le_dec x y : Decision (intent_le x y).
Proof. unfold intent_le. apply _. Defined.

(** [listUnsettled()], as it was read when the loop began. *)
Definition listUnsettled (db : Intents) : list (string * IntentRow) :=
  merge_sort intent_le (map_to_list (filter (fun kr => unsettled (ir_phase kr.2) = true) db)).

(** The store after the loop, and its counts unless a call threw. *)
Fixpoint reconcileLoop (docker : string -> VolumeAnswer) (now : Z) (l : list (string * IntentRow))
    (db : Intents) (counts : IntentReconciliation) : Intents * option IntentReconciliation :=
  match l with
  | [] => (db, Some counts)
  | (id, r) :: l =>
      if bool_decide (ir_target_mode r = staged_overwrite) then reconcileLoop docker now l db counts
      else
        match reconcileIntent id r docker with
        | None => (db, None)
        | Some (phase, _) =>
            match advance id phase no_fields now db with
            | inl _ => (db, None)
            | inr db' =>
                reconcileLoop docker now l db'
                  (if bool_decide (phase = rolled_back)
                   then mkReconciliation (rc_rolledBack counts + 1) (rc_unknown counts)
                   else mkReconciliation (rc_rolledBack counts) (rc_unknown counts + 1))
            end
        end
  end.

Definition reconcileRestoreIntentsAtStartup (docker : string -> VolumeAnswer) (now : Z) (db : Intents)
    : Intents * option IntentReconciliation :=
  reconcileLoop docker now (listUnsettled db) db (mkReconciliation 0 0).
End intents.

(** ** The fence store *)

Record RestartPolicy := mkPolicy { rp_Name : option string; rp_MaximumRetryCount : option Z }.
Definition policy_no : RestartPolicy := mkPolicy (Some "no") None.

Record FenceMemberInput := mkMemberInput {
  mi_containerId : string;
  mi_containerName : string;
  mi_stackName : option string;
  mi_projectName : option string;
  mi_restartPolicy : RestartPolicy;
  mi_wasRunning : bool;
}.

Record FenceRow := mkFenceRow {
  fr_intent_id : string;
  fr_container_id : string;
  fr_container_name : string;
  fr_stack_name : option string;
  fr_project_name : option string;
  fr_restart_policy : option RestartPolicy;     (* [None]: not readable *)
  fr_was_running : bool;
  fr_released_at : option Z;
}.

Record FenceMember := mkMember {
  fm_intentId : string;
  fm_containerId : string;
  fm_containerName : string;
  fm_stackName : option string;
  fm_projectName : option string;
  fm_restartPolicy : RestartPolicy;
  fm_wasRunning : bool;
  fm_releasedAt : option Z;
}.

Definition toMember (row : FenceRow) : FenceMember :=
  mkMember (fr_intent_id row) (fr_container_id row) (fr_container_name row) (fr_stack_name row)
    (fr_project_name row) (default policy_no (fr_restart_policy row)) (fr_was_running row)
    (fr_released_at row).

(** The tables of the recovery store, and whether this build can read them. *)
Record FenceDb := mkFenceDb {
  fd_intents : Intents;
  fd_members : list FenceRow;
  fd_readable : bool;
}.

Definition upd_intents f db := mkFenceDb (f (fd_intents db)) (fd_members db) (fd_readable db).
Definition upd_members f db := mkFenceDb (fd_intents db) (f (fd_members db)) (fd_readable db).

Definition sameMember (intentId containerId : string) (row : FenceRow) : bool :=
  bool_decide (fr_intent_id row = intentId) && bool_decide (fr_container_id row = containerId).

(** [INSERT ... ON CONFLICT (intent_id, container_id) DO UPDATE]. *)
Fixpoint upsertMember (intentId : string) (m : FenceMemberInput) (rows : list FenceRow) : list FenceRow :=
  match rows with
  | [] => [mkFenceRow intentId (mi_containerId m) (mi_containerName m) (mi_stackName m)
             (mi_projectName m) (Some (mi_restartPolicy m)) (mi_wasRunning m) None]
  | row :: rows =>
      if sameMember intentId (mi_containerId m) row then
        mkFenceRow intentId (mi_containerId m) (mi_containerName m)
          (coalesce (mi_stackName m) (fr_stack_name row))
          (coalesce (mi_projectName m) (fr_project_name row))
          (Some (mi_restartPolicy m)) (mi_wasRunning m) (fr_released_at row) :: rows
      else row :: upsertMember intentId m rows
  end.

Definition touch (now : Z) (r : IntentRow) : IntentRow := set_fence (ir_fence_state r) now r.

Definition recordMembers (intentId : string) (members : list FenceMemberInput) (now : Z) (db : FenceDb)
    : FenceDb :=
  upd_intents (alter (touch now) intentId)
    (upd_members (fun rows => foldl (fun rows m => upsertMember intentId m rows) rows members) db).

Definition listMembers (intentId : string) (db : FenceDb) : list FenceMember :=
  toMember <$> filter (fun row => fr_intent_id row = intentId) (fd_members db).

Definition release_row (now : Z) (row : FenceRow) : FenceRow :=
  mkFenceRow (fr_intent_id row) (fr_container_id row) (fr_container_name row) (fr_stack_name row)
    (fr_project_name row) (fr_restart_policy row) (fr_was_running row) (Some now).

Definition markMemberReleased (intentId containerId : string) (now : Z) (db : FenceDb) : FenceDb :=
  upd_members (fmap (fun row => if sameMember intentId containerId row then release_row now row else row))
    db.

(** A row of an overwrite whose fence is live. *)
Definition liveFence (r : IntentRow) : bool :=
  bool_decide (ir_target_mode r = staged_overwrite) && LIVE_FENCE_STATE (ir_fence_state r).

Definition liveFencedVolumeNames (db : FenceDb) : list string :=
  if fd_readable db then
    omap (fun kr => if liveFence kr.2 then ir_target_volume kr.2 else None)
      (map_to_list (fd_intents db))
  else [].

Definition isVolumeFenced (volumeName : string) (db : FenceDb) : bool :=
  bool_decide (volumeName ∈ liveFencedVolumeNames db).

Section stacks.
Variable json_parse : string -> option Json.

(** [Array.isArray(parsed) && parsed.includes(stackName)] *)
Definition listsStack (stackName : string) (raw : option string) : bool :=
  match raw ≫= json_parse with
  | Some (JArr parsed) => existsb (fun v => match v with JStr s => bool_decide (s = stackName) | _ => false end) parsed
  | _ => false
  end.

Definition memberOfLive (stackName : string) (db : FenceDb) (row : FenceRow) : bool :=
  match fd_intents db !! fr_intent_id row with
  | Some r => liveFence r && (bool_decide (fr_stack_name row = Some stackName)
                              || bool_decide (fr_project_name row = Some stackName))
  | None => false
  end.

Definition isStackFenced (stackName : string) (db : FenceDb) : bool :=
  if bool_decide (stackName = "") then false
  else if fd_readable db then
    existsb (memberOfLive stackName db) (fd_members db)
    || existsb (fun kr => liveFence kr.2 && listsStack stackName (ir_dependent_stacks_json kr.2))
         (map_to_list (fd_intents db))
  else false.
End stacks.

(** An intent that owns a volume ([LIMIT 1]: any of them). *)
Definition ownsVolume (volumeName : string) (r : IntentRow) : bool :=
  bool_decide (ir_target_mode r = staged_overwrite)
  && bool_decide (ir_target_volume r = Some volumeName)
  && (unsettled (ir_phase r) || LIVE_FENCE_STATE (ir_fence_state r)).

Definition liveIntentForVolume (volumeName : string) (db : FenceDb) : option string :=
  if fd_readable db then
    fst <$> head (filter (fun kr => ownsVolume volumeName kr.2 = true) (map_to_list (fd_intents db)))
  else None.

(** ** Docker *)

(** A call to the daemon: done, or the status of its failure. *)
Inductive DockerAnswer := DOk | DErr (statusCode : option Z).

#[export] Instance DockerAnswer_eq_dec : EqDecision DockerAnswer.
Proof. solve_decision. Defined.

Definition isNotModified (a : DockerAnswer) : bool := bool_decide (a = DErr (Some 304)).

Inductive DockerCall :=
  | CUpdate (container : string) (policy : RestartPolicy)
  | CStop (container : string)
  | CStart (container : string).

(** The answers of the daemon for a container: to the policy change and to the
    stop or the start. *)
Record Answers := mkAnswers { an_update : string -> DockerAnswer; an_second : string -> DockerAnswer }.

(** Stop every container and pin its policy, in order; [false] when one could
    not be fenced. The calls are listed whether they succeed or not. *)
Fixpoint fenceContainers (a : Answers) (members : list FenceMember) : list DockerCall * bool :=
  match members with
  | [] => ([], true)
  | m :: members =>
      let c := fm_containerId m in
      match an_update a c with
      | DErr _ => ([CUpdate c policy_no], false)
      | DOk =>
          if bool_decide (an_second a c = DOk) || isNotModified (an_second a c) then
            let '(calls, ok) := fenceContainers a members in
            (CUpdate c policy_no :: CStop c :: calls, ok)
          else ([CUpdate c policy_no; CStop c], false)
      end
  end.

(** The release of one member: its calls, whether it is recorded as released,
    and whether it failed. A container that is gone counts as released. *)
Definition releaseMember (a : Answers) (restart : bool) (m : FenceMember)
    : list DockerCall * bool * bool :=
  let c := fm_containerId m in
  let gone ans := bool_decide (ans = DErr (Some 404)) in
  match an_update a c with
  | DErr s => ([CUpdate c (fm_restartPolicy m)], gone (DErr s), negb (gone (DErr s)))
  | DOk =>
      if restart && fm_wasRunning m then
        let calls := [CUpdate c (fm_restartPolicy m); CStart c] in
        let ans := an_second a c in
        if bool_decide (ans = DOk) || isNotModified ans then (calls, true, false)
        else (calls, gone ans, negb (gone ans))
      else ([CUpdate c (fm_restartPolicy m)], true, false)
  end.

Fixpoint releaseLoop (a : Answers) (restart : bool) (intentId : string) (now : Z)
    (members : list FenceMember) (db : FenceDb) : list DockerCall * bool * FenceDb :=
  match members with
  | [] => ([], false, db)
  | m :: members =>
      match fm_releasedAt m with
      | Some _ => releaseLoop a restart intentId now members db
      | None =>
          let '(calls, done, failed) := releaseMember a restart m in
          let db := if done : bool then markMemberReleased intentId (fm_containerId m) now db else db in
          let '(calls', failed', db) := releaseLoop a restart intentId now members db in
          (calls ++ calls', failed || failed', db)
      end
  end.

(** [releaseRestoreFence]: the calls, the error thrown, and the store. *)
Definition releaseRestoreFence (a : Answers) (restart : bool) (intentId : string) (now : Z)
    (members : list FenceMember) (db : FenceDb) : list DockerCall * option RecoveryError * FenceDb :=
  let '(calls, failed, db) := releaseLoop a restart intentId now members db in
  (calls, if failed : bool then Some fence_unavailable else None,
   upd_intents (setFenceState intentId (if failed then release_failed else released) now) db).

(** ** Starts under the fence *)

Definition startDrainTimeoutMs : Z := 120000.
Definition hungStartAfterMs : Z := 600000.

Abbreviation Tid := Z.

(** A start the daemon works on: when it began, and the volumes its container
    mounts. *)
Record StartInFlight := mkStart { si_startedAt : Z; si_mounts : list string }.

Record FenceSys := mkFenceSys {
  fs_db : FenceDb;
  fs_starts : gmap Tid StartInFlight;
  fs_inspecting : gmap Tid string;              (* starts that await the inspection *)
  fs_waiting : gmap string (gset Tid);          (* applies that await these starts *)
  fs_stopping : gset string;                    (* applies past their wait *)
}.

(** [startUnderFence]: the volume that refused it, or the start registered. *)
Definition startUnderFence (t : Tid) (now : Z) (volumeNames mounts : list string) (st : FenceSys)
    : option string * FenceSys :=
  match truthy (head (filter (fun v => v ∈ liveFencedVolumeNames (fs_db st)) volumeNames)) with
  | Some hit => (Some hit, st)
  | None => (None, mkFenceSys (fs_db st) (<[t := mkStart now mounts]> (fs_starts st))
                     (fs_inspecting st) (fs_waiting st) (fs_stopping st))
  end.

Section system.
(** The named volumes Docker reports for a container. *)
Variable mountsOf : string -> list string.

(** [startContainerUnderFence], up to its inspection when a fence is live. *)
Definition startContainerUnderFence (t : Tid) (now : Z) (container : string) (st : FenceSys) : FenceSys :=
  if bool_decide (liveFencedVolumeNames (fs_db st) = []) then
    (startUnderFence t now [] (mountsOf container) st).2
  else mkFenceSys (fs_db st) (fs_starts st) (<[t := container]> (fs_inspecting st))
         (fs_waiting st) (fs_stopping st).

(** The inspection answers: the mounts, 404, or another failure. A container
    that is gone mounts nothing. *)
Definition inspected (t : Tid) (now : Z) (answer : DockerAnswer) (st : FenceSys) : FenceSys :=
  match fs_inspecting st !! t with
  | None => st
  | Some container =>
      let st := mkFenceSys (fs_db st) (fs_starts st) (delete t (fs_inspecting st)) (fs_waiting st)
                  (fs_stopping st) in
      match answer with
      | DOk => (startUnderFence t now (mountsOf container) (mountsOf container) st).2
      | DErr (Some s) => if s =? 404 then (startUnderFence t now [] [] st).2 else st
      | DErr None => st
      end
  end.

(** The daemon answers a start. *)
Definition startSettled (t : Tid) (st : FenceSys) : FenceSys :=
  mkFenceSys (fs_db st) (delete t (fs_starts st)) (fs_inspecting st) (fs_waiting st) (fs_stopping st).

(** [applyRestoreFence] up to its wait: the fence is recorded first, then a hung
    start refuses it and the other starts are waited for. *)
Definition applyRestoreFence (intentId : string) (now perfNow : Z) (st : FenceSys)
    : option RecoveryError * FenceSys :=
  let db := upd_intents (setFenceState intentId held now) (fs_db st) in
  if bool_decide (filter (fun ts => hungStartAfterMs <= perfNow - si_startedAt ts.2) (fs_starts st) <> ∅) then
    (Some fence_unavailable,
     mkFenceSys db (fs_starts st) (fs_inspecting st) (fs_waiting st) (fs_stopping st))
  else
    (None, mkFenceSys db (fs_starts st) (fs_inspecting st)
             (<[intentId := dom (fs_starts st)]> (fs_waiting st)) (fs_stopping st)).

(** The wait ends: every start it waits for was answered, or its cap ran out. *)
Definition waitEnded (intentId : string) (timedOut : bool) (st : FenceSys) : FenceSys :=
  match fs_waiting st !! intentId with
  | None => st
  | Some pending =>
      let waiting := delete intentId (fs_waiting st) in
      if timedOut then
        mkFenceSys (fs_db st) (fs_starts st) (fs_inspecting st) waiting (fs_stopping st)
      else if bool_decide (pending ∩ dom (fs_starts st) = ∅) then
        mkFenceSys (fs_db st) (fs_starts st) (fs_inspecting st) waiting ({[intentId]} ∪ fs_stopping st)
      else st
  end.

(** The release of a fence, with its answers. *)
Definition fenceReleased (a : Answers) (restart : bool) (intentId : string) (now : Z) (st : FenceSys)
    : FenceSys :=
  let '(_, _, db) := releaseRestoreFence a restart intentId now (listMembers intentId (fs_db st))
                       (fs_db st) in
  mkFenceSys db (fs_starts st) (fs_inspecting st) (delete intentId (fs_waiting st))
    (fs_stopping st ∖ {[intentId]}).

Variable json_stringify : Json -> string.

Definition with_db (db : FenceDb) (st : FenceSys) : FenceSys :=
  mkFenceSys db (fs_starts st) (fs_inspecting st) (fs_waiting st) (fs_stopping st).

(** The fence state is written outside [applyRestoreFence] and
    [releaseRestoreFence]: an abort before anything was stopped puts it back to
    [none], a release without members to [released]. *)
Definition fenceDropped (intentId : string) (f : RestoreFenceState) (now : Z) (st : FenceSys) : FenceSys :=
  mkFenceSys (upd_intents (setFenceState intentId f now) (fs_db st)) (fs_starts st) (fs_inspecting st)
    (delete intentId (fs_waiting st)) (fs_stopping st ∖ {[intentId]}).

Definition freshStart (t : Tid) (st : FenceSys) : Prop :=
  fs_starts st !! t = None /\ fs_inspecting st !! t = None.

Inductive fence_step : FenceSys -> FenceSys -> Prop :=
  | step_insert mode input sv tok stacks now st im2 :
      insertIntent json_stringify mode input sv tok stacks now (fd_intents (fs_db st)) = inr im2 ->
      fence_step st (with_db (upd_intents (fun _ => im2) (fs_db st)) st)
  | step_advance id p x now st im2 :
      advance id p x now (fd_intents (fs_db st)) = inr im2 ->
      fence_step st (with_db (upd_intents (fun _ => im2) (fs_db st)) st)
  | step_update id x now st im2 :
      updateIntent id x now (fd_intents (fs_db st)) = inr im2 ->
      fence_step st (with_db (upd_intents (fun _ => im2) (fs_db st)) st)
  | step_members id ms now st : fence_step st (with_db (recordMembers id ms now (fs_db st)) st)
  | step_open_volume t now names st :           (* the Files & Volumes helper *)
      freshStart t st -> fence_step st (startUnderFence t now names names st).2
  | step_start t now c st :
      freshStart t st -> fence_step st (startContainerUnderFence t now c st)
  | step_inspected t now ans st : fence_step st (inspected t now ans st)
  | step_start_settled t st : fence_step st (startSettled t st)
  | step_apply id now perf r st :               (* and the wait of [fenceWorkloads] before it *)
      fd_intents (fs_db st) !! id = Some r -> ir_target_mode r = staged_overwrite ->
      fence_step st (applyRestoreFence id now perf st).2
  | step_wait_ended id timedOut st : fence_step st (waitEnded id timedOut st)
  | step_dropped id f now st :
      LIVE_FENCE_STATE f = false -> fence_step st (fenceDropped id f now st)
  | step_released a restart id now st : fence_step st (fenceReleased a restart id now st).

(** A process that starts on a store it can read, in which every target has a
    name. *)
Definition fence_start (db : FenceDb) : FenceSys := mkFenceSys db ∅ ∅ ∅ ∅.
Definition storeOk (db : FenceDb) : Prop :=
  fd_readable db = true
  /\ forall id r, fd_intents db !! id = Some r -> ir_target_volume r <> Some "".
Definition fence_reachable (st : FenceSys) : Prop :=
  exists db, storeOk db /\ rtc fence_step (fence_start db) st.

(** *** Invariant *)

(** What the fence depends on of a row. *)
Definition fenceOf (r : IntentRow) : RestoreIntentTargetMode * option string * RestoreFenceState :=
  (ir_target_mode r, ir_target_volume r, ir_fence_state r).

Record FenceInv (st : FenceSys) : Prop := {
  fi_store : storeOk (fs_db st);
  fi_live : forall id, id ∈ fs_stopping st \/ is_Some (fs_waiting st !! id) ->
    exists r, fd_intents (fs_db st) !! id = Some r /\ liveFence r = true;
  fi_waiting : forall id pending r v t s, fs_waiting st !! id = Some pending ->
    fd_intents (fs_db st) !! id = Some r -> ir_target_volume r = Some v ->
    fs_starts st !! t = Some s -> v ∈ si_mounts s -> t ∈ pending;
  fi_stopping : forall id r v t s, id ∈ fs_stopping st ->
    fd_intents (fs_db st) !! id = Some r -> ir_target_volume r = Some v ->
    fs_starts st !! t = Some s -> v ∉ si_mounts s;
}.

Lemma elem_live v db : fd_readable db = true ->
  v ∈ liveFencedVolumeNames db <->
  exists id r, fd_intents db !! id = Some r /\ liveFence r = true /\ ir_target_volume r = Some v.
Proof.
  intros Hr. unfold liveFencedVolumeNames. rewrite Hr, list_elem_of_omap. split.
  - intros ([id r] & Hin%elem_of_map_to_list & H). simpl in H. destruct (liveFence r) eqn:E; [|done].
    eauto.
  - intros (id & r & Hin & Hl & Hv). exists (id, r). rewrite elem_of_map_to_list. simpl. by rewrite Hl.
Qed.

(** A change of the intents that keeps every fence and only adds rows without
    one. *)
Definition keepsFences (im im2 : Intents) : Prop :=
  (forall id r, im !! id = Some r -> exists r', im2 !! id = Some r' /\ fenceOf r' = fenceOf r)
  /\ (forall id r', im2 !! id = Some r' -> im !! id = None -> ir_target_volume r' <> Some "").

Lemma keepsFences_alter f id im : (forall r, fenceOf (f r) = fenceOf r) -> keepsFences im (alter f id im).
Proof.
  intros Hf. split.
  - intros j r Hj. destruct (decide (id = j)) as [->|Hne].
    + exists (f r). rewrite lookup_alter_eq, Hj. by split.
    + exists r. by rewrite lookup_alter_ne.
  - intros j r' Hj Hn. destruct (decide (id = j)) as [->|Hne].
    + rewrite lookup_alter_eq, Hn in Hj. done.
    + rewrite lookup_alter_ne in Hj by done. congruence.
Qed.

Lemma keepsFences_insert r r0 id im :
  im !! id = Some r0 -> fenceOf r = fenceOf r0 -> keepsFences im (<[id := r]> im).
Proof.
  intros H0 Hf. split.
  - intros j x Hj. destruct (decide (id = j)) as [->|Hne].
    + exists r. rewrite lookup_insert_eq. split; [done|congruence].
    + exists x. by rewrite lookup_insert_ne.
  - intros j x Hj Hn. destruct (decide (id = j)) as [->|Hne]; [congruence|].
    rewrite lookup_insert_ne in Hj by done. congruence.
Qed.

Lemma keepsFences_new r id im :
  im !! id = None -> ir_target_volume r <> Some "" -> keepsFences im (<[id := r]> im).
Proof.
  intros H0 Hf. split.
  - intros j x Hj. exists x. rewrite lookup_insert_ne by congruence. done.
  - intros j x Hj Hn. destruct (decide (id = j)) as [->|Hne].
    + rewrite lookup_insert_eq in Hj. congruence.
    + rewrite lookup_insert_ne in Hj by done. congruence.
Qed.

Lemma liveFence_fenceOf r r' : fenceOf r = fenceOf r' -> liveFence r = liveFence r'.
Proof. unfold fenceOf, liveFence. intros [= -> _ ->]. done. Qed.

Lemma finv_db st db' :
  keepsFences (fd_intents (fs_db st)) (fd_intents db') -> fd_readable db' = fd_readable (fs_db st) ->
  FenceInv st -> FenceInv (with_db db' st).
Proof.
  intros [K1 K2] Hr [[Hs1 Hs2] H2 H3 H4].
  assert (Hback : forall id r', fd_intents db' !! id = Some r' ->
    fd_intents (fs_db st) !! id = None \/
    exists r, fd_intents (fs_db st) !! id = Some r /\ fenceOf r = fenceOf r').
  { intros id r' H'. destruct (fd_intents (fs_db st) !! id) as [r|] eqn:E; [|by left].
    right. exists r. split; [done|]. destruct (K1 _ _ E) as (r'' & H'' & Hf). congruence. }
  assert (Hin : forall id r', id ∈ fs_stopping st \/ is_Some (fs_waiting st !! id) ->
    fd_intents db' !! id = Some r' ->
    exists r, fd_intents (fs_db st) !! id = Some r /\ ir_target_volume r = ir_target_volume r').
  { intros id r' Hw H'. destruct (H2 id Hw) as (r & Hr0 & _). destruct (K1 _ _ Hr0) as (r'' & H'' & Hf).
    exists r. split; [done|]. unfold fenceOf in Hf. congruence. }
  split; simpl.
  - split; [congruence|]. intros id r' H'. destruct (Hback id r' H') as [Hn|(r & Hr0 & Hf)]; [eauto|].
    unfold fenceOf in Hf. intros E. eapply Hs2; [done|]. congruence.
  - intros id Hw. destruct (H2 id Hw) as (r & Hr0 & Hl). destruct (K1 _ _ Hr0) as (r' & H' & Hf).
    exists r'. split; [done|]. by rewrite (liveFence_fenceOf r' r).
  - intros id pd r' v t s Hw H' Hv Ht Hm. destruct (Hin id r') as (r & Hr0 & Ev); [rewrite Hw; eauto|done|].
    eapply H3; eauto. congruence.
  - intros id r' v t s Hw H' Hv Ht. destruct (Hin id r') as (r & Hr0 & Ev); [auto|done|].
    eapply H4; eauto. congruence.
Qed.

Lemma keepsFences_refl im : keepsFences im im.
Proof. split; [eauto|]. intros. congruence. Qed.

(** A step of [st] that changes the fence of one intent, and drops or restarts
    its wait. *)
Lemma finv_release st id f now :
  FenceInv st -> FenceInv (fenceDropped id f now st).
Proof.
  intros [[Hs1 Hs2] H2 H3 H4]. unfold fenceDropped. split; simpl.
  - split; [done|]. simpl. intros j r H'. unfold setFenceState in H'.
    rewrite lookup_alter in H'. case_decide; [|eauto].
    apply fmap_Some in H' as (r0 & H' & ->). simpl. eauto.
  - intros j Hw. assert (j <> id) as Hne.
    { intros ->. destruct Hw as [Hw|Hw]; [set_solver|].
      rewrite lookup_delete_eq in Hw. by destruct Hw. }
    rewrite lookup_delete_ne in Hw by done. destruct (H2 j) as (r & Hr & Hl); [set_solver|].
    exists r. split; [|done]. unfold setFenceState. by rewrite lookup_alter_ne.
  - intros j pd r v t s Hw. apply lookup_delete_Some in Hw as [Hne Hw]. unfold setFenceState.
    rewrite lookup_alter_ne by done. eauto.
  - intros j r v t s Hw. apply elem_of_difference in Hw as [Hw Hne].
    rewrite elem_of_singleton in Hne. unfold setFenceState. rewrite lookup_alter_ne by done. eauto.
Qed.

(** A start the fence lets through mounts no volume with a live fence. *)
Definition clearOf (mounts : list string) (db : FenceDb) : Prop :=
  forall id r v, fd_intents db !! id = Some r -> liveFence r = true ->
    ir_target_volume r = Some v -> v ∉ mounts.

Lemma finv_register st t now mounts :
  clearOf mounts (fs_db st) -> FenceInv st ->
  FenceInv (mkFenceSys (fs_db st) (<[t := mkStart now mounts]> (fs_starts st))
              (fs_inspecting st) (fs_waiting st) (fs_stopping st)).
Proof.
  intros Hc [H1 H2 H3 H4]. split; simpl; [done|done| |].
  - intros id pd r v t' s Hw Hr Hv Ht Hm. apply lookup_insert_Some in Ht as [[<- <-]|[_ Ht]]; [|eauto].
    exfalso. destruct (H2 id) as (r' & Hr' & Hl); [rewrite Hw; eauto|].
    assert (r' = r) as -> by congruence. by eapply Hc.
  - intros id r v t' s Hw Hr Hv Ht. apply lookup_insert_Some in Ht as [[<- <-]|[_ Ht]]; [|eauto].
    destruct (H2 id) as (r' & Hr' & Hl); [by left|].
    assert (r' = r) as -> by congruence. simpl. by eapply Hc.
Qed.

Lemma startUnderFence_clear t now names mounts st :
  storeOk (fs_db st) -> (startUnderFence t now names mounts st).1 = None ->
  (forall v, v ∈ mounts -> v ∈ names) -> clearOf mounts (fs_db st).
Proof.
  intros [Hr Hne] Hs Hsub id r v Hid Hl Hv Hm. unfold startUnderFence in Hs.
  assert (Hin : v ∈ filter (fun v => v ∈ liveFencedVolumeNames (fs_db st)) names).
  { apply list_elem_of_filter. split; [|by apply Hsub]. apply elem_live; eauto. }
  destruct (filter _ names) as [|w l] eqn:E; [by apply elem_of_nil in Hin|].
  assert (Hw : w ∈ liveFencedVolumeNames (fs_db st)).
  { assert (w ∈ w :: l) as Hx by set_solver. rewrite <- E in Hx. by apply list_elem_of_filter in Hx as []. }
  apply elem_live in Hw as (id' & r' & Hid' & _ & Hv'); [|done].
  simpl in Hs. destruct w; [by eapply Hne|done].
Qed.

Lemma finv_startUnderFence t now names mounts st :
  ((startUnderFence t now names mounts st).1 = None -> clearOf mounts (fs_db st)) ->
  FenceInv st -> FenceInv (startUnderFence t now names mounts st).2.
Proof.
  intros Hc HI. unfold startUnderFence in *. destruct (truthy _); simpl in *; [done|].
  by apply finv_register; [apply Hc|].
Qed.

Lemma finv_startContainer t now c st : FenceInv st -> FenceInv (startContainerUnderFence t now c st).
Proof.
  intros HI. unfold startContainerUnderFence. case_bool_decide as E; [|by destruct HI; split].
  apply finv_startUnderFence; [|done]. intros _ id r v Hid Hl Hv _.
  assert (v ∈ liveFencedVolumeNames (fs_db st)) as Hx by (apply elem_live; [apply HI|eauto]).
  rewrite E in Hx. by apply elem_of_nil in Hx.
Qed.

Lemma finv_inspected t now ans st : FenceInv st -> FenceInv (inspected t now ans st).
Proof.
  intros HI. unfold inspected. destruct (fs_inspecting st !! t) as [c|]; [|done].
  set (st' := mkFenceSys _ _ _ _ _). assert (FenceInv st') as HI' by (by destruct HI; split).
  destruct ans as [|[s|]]; [| |done].
  - apply finv_startUnderFence; [|done]. intros Hn. eapply startUnderFence_clear; [apply HI'|done|auto].
  - destruct (s =? 404); [|done]. apply finv_startUnderFence; [|done].
    intros _ id r v _ _ _ Hm. by apply elem_of_nil in Hm.
Qed.

Lemma finv_startSettled t st : FenceInv st -> FenceInv (startSettled t st).
Proof.
  intros [H1 H2 H3 H4]. split; simpl; [done|done| |].
  - intros id pd r v t' s Hw Hr Hv Ht. apply lookup_delete_Some in Ht as [_ Ht]. eauto.
  - intros id r v t' s Hw Hr Hv Ht. apply lookup_delete_Some in Ht as [_ Ht]. eauto.
Qed.

Lemma finv_apply id now perf r st :
  fd_intents (fs_db st) !! id = Some r -> ir_target_mode r = staged_overwrite ->
  FenceInv st -> FenceInv (applyRestoreFence id now perf st).2.
Proof.
  intros Hid Hm [[Hs1 Hs2] H2 H3 H4].
  assert (Hback : forall j r', alter (set_fence held now) id (fd_intents (fs_db st)) !! j = Some r' ->
    exists r0, fd_intents (fs_db st) !! j = Some r0 /\ ir_target_volume r' = ir_target_volume r0).
  { intros j r' H'. rewrite lookup_alter in H'. case_decide; [|eauto]. subst j.
    apply fmap_Some in H' as (r0 & H' & ->). by exists r0. }
  assert (Hlive : forall j, j = id \/ j ∈ fs_stopping st \/ is_Some (fs_waiting st !! j) ->
    exists r0, alter (set_fence held now) id (fd_intents (fs_db st)) !! j = Some r0 /\ liveFence r0 = true).
  { intros j Hj. destruct (decide (id = j)) as [<-|Hne].
    - exists (set_fence held now r). rewrite lookup_alter_eq, Hid. split; [done|].
      unfold liveFence. simpl. by rewrite Hm.
    - rewrite lookup_alter_ne by done. apply H2. by destruct Hj as [->|Hj]. }
  assert (Hstore : storeOk (upd_intents (setFenceState id held now) (fs_db st))).
  { split; [done|]. simpl. intros j r' H'. destruct (Hback j r' H') as (r0 & H0 & ->). eauto. }
  unfold applyRestoreFence. case_bool_decide; split; simpl; try done.
  - intros j Hw. apply Hlive. by right.
  - intros j pd r' v t s Hw H'. destruct (Hback j r' H') as (r0 & H0 & ->). eauto.
  - intros j r' v t s Hw H'. destruct (Hback j r' H') as (r0 & H0 & ->). eauto.
  - intros j Hw. apply Hlive. destruct (decide (j = id)); [by left|right].
    by rewrite lookup_insert_ne in Hw.
  - intros j pd r' v t s Hw H'. destruct (Hback j r' H') as (r0 & H0 & ->).
    apply lookup_insert_Some in Hw as [[-> <-]|[_ Hw]]; [|eauto].
    intros _ Ht _. by apply elem_of_dom_2 in Ht.
  - intros j r' v t s Hw H'. destruct (Hback j r' H') as (r0 & H0 & ->). eauto.
Qed.

Lemma finv_waitEnded id timedOut st : FenceInv st -> FenceInv (waitEnded id timedOut st).
Proof.
  intros [H1 H2 H3 H4]. unfold waitEnded. destruct (fs_waiting st !! id) as [pd|] eqn:Ew; [|done].
  assert (Hsub : forall j, is_Some (delete id (fs_waiting st) !! j) -> is_Some (fs_waiting st !! j)).
  { intros j [x Hx]. apply lookup_delete_Some in Hx as [_ Hx]. eauto. }
  destruct timedOut; [|case_bool_decide as Ep]; [| |done]; split; simpl; try done.
  - intros j [Hj|Hj]; eauto.
  - intros j pd' r v t s Hw. apply lookup_delete_Some in Hw as [_ Hw]. eauto.
  - intros j [Hj|Hj]; [|eauto]. apply elem_of_union in Hj as [Hj|Hj]; [|eauto].
    apply elem_of_singleton in Hj as ->. apply H2. rewrite Ew. eauto.
  - intros j pd' r v t s Hw. apply lookup_delete_Some in Hw as [_ Hw]. eauto.
  - intros j r v t s Hj Hr Hv Ht. apply elem_of_union in Hj as [Hj|Hj]; [|eauto].
    apply elem_of_singleton in Hj as ->. intros Hm. assert (t ∈ pd) as Hp by eauto.
    apply elem_of_dom_2 in Ht. set_solver.
Qed.

Lemma releaseLoop_intents a restart id now ms db :
  fd_intents (releaseLoop a restart id now ms db).2 = fd_intents db
  /\ fd_readable (releaseLoop a restart id now ms db).2 = fd_readable db.
Proof.
  revert db. induction ms as [|m ms IH]; intros db; simpl; [done|].
  destruct (fm_releasedAt m); [apply IH|].
  destruct (releaseMember a restart m) as [[calls done0] failed].
  specialize (IH (if done0 then markMemberReleased id (fm_containerId m) now db else db)).
  destruct (releaseLoop _ _ _ _ _ _) as [[calls' failed'] db']. simpl in *.
  destruct IH as [-> ->]. by destruct done0.
Qed.

Lemma finv_released a restart id now st : FenceInv st -> FenceInv (fenceReleased a restart id now st).
Proof.
  intros HI. unfold fenceReleased, releaseRestoreFence.
  destruct (releaseLoop_intents a restart id now (listMembers id (fs_db st)) (fs_db st)) as [E1 E2].
  destruct (releaseLoop _ _ _ _ _ _) as [[calls failed] db]. simpl in *.
  set (f := if failed then release_failed else released).
  assert (FenceInv (with_db db st)) as HI'.
  { apply finv_db; [|done|done]. rewrite E1. apply keepsFences_refl. }
  exact (finv_release _ id f now HI').
Qed.

Lemma insertIntent_keeps mode input sv tok stacks now im im2 :
  insertIntent json_stringify mode input sv tok stacks now im = inr im2 -> keepsFences im im2.
Proof.
  unfold insertIntent. case_bool_decide as Ev; [done|].
  case_bool_decide as Ei; simpl; [done|]. destruct (operationUsed _ _ || _); [done|].
  intros [= <-]. apply keepsFences_new; [by apply eq_None_not_Some|]. simpl. congruence.
Qed.

Lemma advance_keeps id p x now im im2 : advance id p x now im = inr im2 -> keepsFences im im2.
Proof.
  unfold advance. destruct (im !! id) as [r|] eqn:E; [|done].
  case_match; [done|]. case_match; [done|]. intros [= <-]. by eapply keepsFences_insert.
Qed.

Lemma updateIntent_keeps id x now im im2 : updateIntent id x now im = inr im2 -> keepsFences im im2.
Proof.
  unfold updateIntent. destruct (im !! id) as [r|] eqn:E; [|done].
  intros [= <-]. by eapply keepsFences_insert.
Qed.

Lemma fence_step_inv st st' : fence_step st st' -> FenceInv st -> FenceInv st'.
Proof.
  destruct 1; intros HI.
  - apply finv_db; [by eapply insertIntent_keeps|done|done].
  - apply finv_db; [by eapply advance_keeps|done|done].
  - apply finv_db; [by eapply updateIntent_keeps|done|done].
  - apply finv_db; [by apply keepsFences_alter|done|done].
  - apply finv_startUnderFence; [|done]. intros Hn. eapply startUnderFence_clear; [apply HI|done|auto].
  - by apply finv_startContainer.
  - by apply finv_inspected.
  - by apply finv_startSettled.
  - by eapply finv_apply.
  - by apply finv_waitEnded.
  - by apply finv_release.
  - by apply finv_released.
Qed.

Lemma fence_inv st : fence_reachable st -> FenceInv st.
Proof.
  intros (db & Hok & Hs). assert (FenceInv (fence_start db)) as HI.
  { split; simpl; [done| | |]; intros id; rewrite ?lookup_empty; try set_solver. }
  induction Hs; eauto using fence_step_inv.
Qed.

(** C13: while an overwrite that has waited for the starts in flight holds its
    fence, no start the daemon still works on mounts the volume it rewrites,
    whatever starts, inspections, timeouts, other restores and releases came
    before. *)
Theorem no_start_on_fenced_volume st id r v t s :
  fence_reachable st -> id ∈ fs_stopping st ->
  fd_intents (fs_db st) !! id = Some r -> ir_target_volume r = Some v ->
  fs_starts st !! t = Some s -> v ∉ si_mounts s.
Proof. intros HR. eapply fi_stopping. by apply fence_inv. Qed.

(** *** What never changes of an intent *)

Definition identityOf (r : IntentRow) : string * RestoreIntentTargetMode * option string * option string :=
  (ir_operation_id r, ir_target_mode r, ir_target_volume r, ir_dependent_stacks_json r).

Definition keepsRows (im im2 : Intents) : Prop :=
  forall id r, im !! id = Some r -> exists r', im2 !! id = Some r' /\ identityOf r' = identityOf r.

Lemma keepsRows_alter f id im : (forall r, identityOf (f r) = identityOf r) -> keepsRows im (alter f id im).
Proof.
  intros Hf j r Hj. destruct (decide (id = j)) as [->|Hne].
  - exists (f r). rewrite lookup_alter_eq, Hj. by split.
  - exists r. by rewrite lookup_alter_ne.
Qed.

Lemma keepsRows_insert r id im :
  (forall r0, im !! id = Some r0 -> identityOf r = identityOf r0) -> keepsRows im (<[id := r]> im).
Proof.
  intros Hf j x Hj. destruct (decide (id = j)) as [->|Hne].
  - exists r. rewrite lookup_insert_eq. auto.
  - exists x. by rewrite lookup_insert_ne.
Qed.

Lemma keepsRows_refl im : keepsRows im im.
Proof. intros id r. eauto. Qed.

Lemma startUnderFence_db t now names mounts st :
  fs_db (startUnderFence t now names mounts st).2 = fs_db st.
Proof. unfold startUnderFence. by destruct (truthy _). Qed.

(** The intents after a step: one of the operations of the store on one of them. *)
Inductive intents_step (im : Intents) : Intents -> Prop :=
  | is_same : intents_step im im
  | is_insert mode input sv tok stacks now im2 :
      insertIntent json_stringify mode input sv tok stacks now im = inr im2 -> intents_step im im2
  | is_advance id p x now im2 : advance id p x now im = inr im2 -> intents_step im im2
  | is_update id x now im2 : updateIntent id x now im = inr im2 -> intents_step im im2
  | is_fence id f now : intents_step im (setFenceState id f now im)
  | is_touch id now : intents_step im (alter (touch now) id im).

Lemma fence_step_intents st st' :
  fence_step st st' -> intents_step (fd_intents (fs_db st)) (fd_intents (fs_db st')).
Proof.
  destruct 1; simpl; try by econstructor.
  - rewrite startUnderFence_db. constructor.
  - unfold startContainerUnderFence. case_bool_decide; simpl; rewrite ?startUnderFence_db; constructor.
  - unfold inspected. destruct (fs_inspecting st !! t); [|constructor].
    destruct ans as [|[z|]]; [| |constructor].
    + rewrite startUnderFence_db. constructor.
    + destruct (z =? 404); [rewrite startUnderFence_db|]; constructor.
  - unfold applyRestoreFence. case_bool_decide; simpl; constructor.
  - unfold waitEnded. repeat case_match; constructor.
  - unfold fenceReleased, releaseRestoreFence.
    destruct (releaseLoop_intents a restart id now (listMembers id (fs_db st)) (fs_db st)) as [E1 _].
    destruct (releaseLoop _ _ _ _ _ _) as [[calls failed] db]. simpl in *. rewrite E1. constructor.
Qed.

Lemma intents_step_rows im im2 : intents_step im im2 -> keepsRows im im2.
Proof.
  destruct 1 as [|mode input sv tok stacks now im2 H|id p x now im2 H|id x now im2 H|id f now|id now].
  - apply keepsRows_refl.
  - unfold insertIntent in H. case_bool_decide; [done|]. case_bool_decide as Ei; simpl in H; [done|].
    destruct (operationUsed _ _ || _); [done|]. injection H as <-. apply keepsRows_insert.
    intros r0 Hr0. rewrite Hr0 in Ei. by destruct Ei.
  - unfold advance in H. destruct (im !! id) as [r|] eqn:E; [|done]. repeat case_match; try done.
    injection H as <-. apply keepsRows_insert. intros. by simplify_eq.
  - unfold updateIntent in H. destruct (im !! id) as [r|] eqn:E; [|done]. injection H as <-.
    apply keepsRows_insert. intros. by simplify_eq.
  - by apply keepsRows_alter.
  - by apply keepsRows_alter.
Qed.

Lemma fence_steps_rows st st' :
  rtc fence_step st st' -> keepsRows (fd_intents (fs_db st)) (fd_intents (fs_db st')).
Proof.
  induction 1 as [|x y z Hs _ IH]; [apply keepsRows_refl|]. intros id r H.
  destruct (intents_step_rows _ _ (fence_step_intents _ _ Hs) id r H) as (r1 & H1 & E1).
  destruct (IH id r1 H1) as (r2 & H2 & E2). exists r2. split; [done|congruence].
Qed.

(** *** One live restore of a volume *)

Definition oneLive (im : Intents) : Prop :=
  forall i j ri rj v, im !! i = Some ri -> im !! j = Some rj ->
    ir_target_volume ri = Some v -> ir_target_volume rj = Some v ->
    unsettled (ir_phase ri) = true -> unsettled (ir_phase rj) = true -> i = j.

Lemma liveTarget_false v im : liveTarget v im = false ->
  forall j rj, im !! j = Some rj -> ir_target_volume rj = Some v -> unsettled (ir_phase rj) = false.
Proof.
  unfold liveTarget. case_bool_decide as E; [done|]. intros _ j rj Hj Hv.
  destruct (unsettled (ir_phase rj)) eqn:Eu; [|done].
  exfalso. apply (map_filter_empty_not_lookup _ _ j rj E); auto.
Qed.

Lemma advance_unsettled p q : q ∈ ALLOWED_TRANSITIONS p -> unsettled q = true -> unsettled p = true.
Proof.
  intros Hq Hu. destruct p; try done; exfalso; destruct q; try done;
    by apply (bool_decide_eq_true_2 _) in Hq.
Qed.

Lemma oneLive_mono (f : IntentRow -> IntentRow) id r im :
  im !! id = Some r -> ir_target_volume (f r) = ir_target_volume r ->
  (unsettled (ir_phase (f r)) = true -> unsettled (ir_phase r) = true) ->
  oneLive im -> oneLive (<[id := f r]> im).
Proof.
  intros H0 Hv Hp HI i j ri rj v Hi Hj Vi Vj Ui Uj.
  apply lookup_insert_Some in Hi as [[-> <-]|[Hni Hi]], Hj as [[Hej <-]|[Hnj Hj]]; [done| | |by eapply HI].
  - eapply (HI i j r rj v); auto; congruence.
  - subst. eapply (HI i j ri r v); auto; congruence.
Qed.

Lemma alter_as_insert (f : IntentRow -> IntentRow) id (im : Intents) :
  alter f id im = match im !! id with Some r => <[id := f r]> im | None => im end.
Proof.
  apply map_eq. intros j. destruct (im !! id) as [r|] eqn:E.
  - destruct (decide (id = j)) as [->|Hne].
    + by rewrite lookup_alter_eq, lookup_insert_eq, E.
    + by rewrite lookup_alter_ne, lookup_insert_ne.
  - destruct (decide (id = j)) as [->|Hne]; [by rewrite lookup_alter_eq, E|by rewrite lookup_alter_ne].
Qed.

Lemma intents_step_oneLive im im2 : intents_step im im2 -> oneLive im -> oneLive im2.
Proof.
  destruct 1 as [|mode input sv tok stacks now im2 H|id p x now im2 H|id x now im2 H|id f now|id now];
    intros HI; [done| | | | |].
  - unfold insertIntent in H. case_bool_decide as Ev; [done|]. case_bool_decide as Ei; simpl in H; [done|].
    destruct (operationUsed _ _); [done|]. destruct (liveTarget _ _) eqn:El; [done|]. injection H as <-.
    pose proof (liveTarget_false _ _ El) as HL.
    intros i j ri rj v Hi Hj Vi Vj Ui Uj.
    apply lookup_insert_Some in Hi as [[<- <-]|[Hni Hi]], Hj as [[Hej <-]|[Hnj Hj]]; simpl in *;
      [done| | |by eapply HI].
    + simplify_eq. by rewrite (HL j rj) in Uj.
    + simplify_eq. by rewrite (HL i ri) in Ui.
  - unfold advance in H. destruct (im !! id) as [r|] eqn:E; [|done].
    case_bool_decide as Ea; simpl in H; [|done]. case_match; [done|]. injection H as <-.
    eapply (oneLive_mono (set_phase p now x)); eauto. by apply advance_unsettled.
  - unfold updateIntent in H. destruct (im !! id) as [r|] eqn:E; [|done]. injection H as <-.
    eapply (oneLive_mono (set_phase (ir_phase r) now x)); eauto.
  - unfold setFenceState. rewrite alter_as_insert. destruct (im !! id) as [r|] eqn:E; [|done].
    eapply oneLive_mono; eauto.
  - rewrite alter_as_insert. destruct (im !! id) as [r|] eqn:E; [|done].
    eapply oneLive_mono; eauto.
Qed.

(** two restores that are both unsettled never have the same target volume:
    the index refuses the second when it is recorded, and no transition brings a
    settled intent back to an active phase. *)
Theorem one_live_restore_per_volume db st :
  oneLive (fd_intents db) -> rtc fence_step (fence_start db) st -> oneLive (fd_intents (fs_db st)).
Proof.
  intros H0 Hs. change (fd_intents db) with (fd_intents (fs_db (fence_start db))) in H0.
  induction Hs as [|x y z Hs _ IH]; [done|].
  apply IH. eapply intents_step_oneLive; [|done]. by apply fence_step_intents.
Qed.
End system.

(** ** The phases of an intent end *)

(** The moves of one intent, in order; the first refusal stops them. *)
Fixpoint advances (id : string) (moves : list (RestoreIntentPhase * IntentAdvanceFields * Z)) (db : Intents)
    : RecoveryError + Intents :=
  match moves with
  | [] => inr db
  | (p, x, now) :: moves => let! db' := advance id p x now db in advances id moves db'
  end.

(** The longest way from a phase to its end. *)
Definition remaining (p : RestoreIntentPhase) : nat :=
  match p with
  | recorded => 9 | staging => 8 | staged_verified => 7 | fenced => 6 | protecting => 5
  | materializing => 4 | swapping => 3 | swapped => 2 | completion_unknown => 1
  | committed | rolled_back => 0
  end.

Lemma allowed_remaining p q : q ∈ ALLOWED_TRANSITIONS p -> (remaining q < remaining p)%nat.
Proof.
  intros Hq. apply (bool_decide_eq_true_2 _) in Hq. destruct p, q; simpl in Hq; try done; simpl; lia.
Qed.

Lemma advance_inr id p x now db db' : advance id p x now db = inr db' ->
  exists r, db !! id = Some r /\ p ∈ ALLOWED_TRANSITIONS (ir_phase r)
            /\ db' = <[id := set_phase p now x r]> db.
Proof.
  unfold advance. destruct (db !! id) as [r|]; [|done]. case_bool_decide; simpl; [|done].
  case_match; [done|]. intros [= <-]. eauto.
Qed.

Lemma advances_bound id moves db db' r :
  db !! id = Some r -> advances id moves db = inr db' -> (length moves <= remaining (ir_phase r))%nat.
Proof.
  revert db r. induction moves as [|[[p x] now] moves IH]; intros db r Hr H; simpl in *; [lia|].
  destruct (advance id p x now db) as [e|db1] eqn:E; [done|].
  apply advance_inr in E as (r0 & H0 & Hp & ->). simplify_eq.
  apply allowed_remaining in Hp. apply IH with (r := set_phase p now x r) in H; [simpl in H; lia|].
  by rewrite lookup_insert_eq.
Qed.

(** Every restore ends: an intent accepts at most nine moves in its life,
    whatever its mode and whatever evidence they carry, and the phases
    [committed] and [rolled_back] accept none. *)
Theorem restore_phases_end id moves db db' r :
  db !! id = Some r -> advances id moves db = inr db' ->
  (length moves <= 9)%nat
  /\ (ir_phase r = committed \/ ir_phase r = rolled_back -> moves = []).
Proof.
  intros Hr H. apply (advances_bound _ _ _ _ r) in H; [|done]. split.
  - destruct (ir_phase r); simpl in H; lia.
  - intros [E|E]; rewrite E in H; simpl in H; destruct moves; simpl in *; [done|lia|done|lia].
Qed.

(** ** Startup *)

Definition listable (docker : string -> VolumeAnswer) : Prop :=
  forall v labels f, docker v <> VFound (Some labels) None f.

Lemma reconcileIntent_total id r docker : listable docker ->
  exists p b, reconcileIntent id r docker = Some (p, b) /\ (p = rolled_back \/ p = completion_unknown).
Proof.
  intros HL. unfold reconcileIntent. destruct (truthy _) as [v|]; [|eauto 6].
  destruct (docker v) as [| |[labels|] [inUse|] f] eqn:E; [eauto 6|eauto 6| | |eauto 6|eauto 6].
  - case_bool_decide; simpl; [|eauto 6]. destruct inUse, f; eauto 6.
  - by apply HL in E.
Qed.

Lemma unsettled_settles p q :
  unsettled p = true -> q = rolled_back \/ q = completion_unknown -> q ∈ ALLOWED_TRANSITIONS p.
Proof. intros Hu [->| ->]; destruct p; try done; simpl; set_solver. Qed.

Lemma advance_settles id q now db r :
  db !! id = Some r -> unsettled (ir_phase r) = true -> q = rolled_back \/ q = completion_unknown ->
  advance id q no_fields now db = inr (<[id := set_phase q now no_fields r]> db).
Proof.
  intros Hr Hu Hq. unfold advance. rewrite Hr, bool_decide_true by by apply unsettled_settles. simpl.
  replace (bool_decide (q ∈ RESTORE_OVERWRITE_PHASES)) with false by by destruct Hq as [->| ->].
  by rewrite andb_false_r.
Qed.

(** The row the startup leaves for an intent it read. *)
Definition settledRow (docker : string -> VolumeAnswer) (now : Z) (id : string) (r : IntentRow)
    : IntentRow :=
  if unsettled (ir_phase r) && negb (bool_decide (ir_target_mode r = staged_overwrite)) then
    match reconcileIntent id r docker with
    | Some (p, _) => set_phase p now no_fields r
    | None => r
    end
  else r.

Definition toSettle (kr : string * IntentRow) : bool :=
  negb (bool_decide (ir_target_mode kr.2 = staged_overwrite)).

Lemma reconcileLoop_spec docker now l db counts :
  listable docker -> NoDup l.*1 ->
  (forall id r, (id, r) ∈ l -> db !! id = Some r /\ unsettled (ir_phase r) = true) ->
  exists db' c, reconcileLoop docker now l db counts = (db', Some c)
    /\ rc_rolledBack c + rc_unknown c
       = rc_rolledBack counts + rc_unknown counts + Z.of_nat (length (List.filter toSettle l))
    /\ (forall id, db' !! id = if bool_decide (id ∈ l.*1)
                               then settledRow docker now id <$> db !! id else db !! id).
Proof.
  intros HL. revert db counts. induction l as [|[id r] l IH]; intros db counts Hnd Hin.
  { exists db, counts. simpl. repeat split. lia. }
  simpl in Hnd. apply NoDup_cons in Hnd as [Hni Hnd].
  destruct (Hin id r) as [Hr Hu]; [set_solver|]. simpl.
  assert (Hj : forall j, id <> j -> bool_decide (j ∈ id :: l.*1) = bool_decide (j ∈ l.*1)).
  { intros j Hne. apply bool_decide_ext. set_solver. }
  unfold toSettle at 1. simpl. case_bool_decide as Em; simpl.
  - destruct (IH db counts Hnd) as (db' & c & E & Hc & Hl); [set_solver|].
    exists db', c. repeat split; [done|done|]. intros j. rewrite Hl.
    destruct (decide (id = j)) as [<-|Hne]; [|by rewrite Hj].
    rewrite bool_decide_false by done. rewrite bool_decide_true by set_solver. rewrite Hr. simpl.
    unfold settledRow. rewrite Hu, bool_decide_true by done. done.
  - destruct (reconcileIntent_total id r docker HL) as (p & b & Ep & Hp). rewrite Ep.
    rewrite (advance_settles id p now db r) by done.
    edestruct (IH (<[id := set_phase p now no_fields r]> db)) as (db' & c & E & Hc & Hl); [done| |].
    { intros j x Hjx. assert (id <> j) as Hne.
      { intros ->. apply Hni. apply list_elem_of_fmap. by exists (j, x). }
      rewrite lookup_insert_ne by done. set_solver. }
    exists db', c. split; [apply E|]. split; [rewrite Hc; case_bool_decide; simpl; lia|].
    intros j. rewrite Hl. destruct (decide (id = j)) as [<-|Hne].
    + rewrite bool_decide_false by done. rewrite bool_decide_true by set_solver.
      rewrite lookup_insert_eq, Hr. simpl. unfold settledRow.
      by rewrite Hu, bool_decide_false, Ep.
    + by rewrite Hj, lookup_insert_ne.
Qed.

Lemma listUnsettled_spec db id r :
  (id, r) ∈ listUnsettled db <-> db !! id = Some r /\ unsettled (ir_phase r) = true.
Proof.
  unfold listUnsettled. rewrite merge_sort_Permutation, elem_of_map_to_list, map_lookup_filter_Some. done.
Qed.

Lemma listUnsettled_keys db : NoDup (listUnsettled db).*1.
Proof.
  unfold listUnsettled. rewrite merge_sort_Permutation. apply NoDup_fst_map_to_list.
Qed.

(** at boot every interrupted restore into a new volume is settled and none
    is left open, overwrites and settled intents are left as they are, the counts
    add up to the intents that were settled, and the pass ends without an error
    as long as the containers can be listed. *)
Theorem startup_settles_new_restores docker now db :
  listable docker ->
  exists db' c, reconcileRestoreIntentsAtStartup docker now db = (db', Some c)
    /\ (forall id, db' !! id = settledRow docker now id <$> db !! id)
    /\ (forall id r, db' !! id = Some r -> unsettled (ir_phase r) = true ->
          ir_target_mode r = staged_overwrite)
    /\ rc_rolledBack c + rc_unknown c = Z.of_nat (length (List.filter toSettle (listUnsettled db))).
Proof.
  intros HL. unfold reconcileRestoreIntentsAtStartup.
  destruct (reconcileLoop_spec docker now (listUnsettled db) db (mkReconciliation 0 0))
    as (db' & c & E & Hc & Hl); [done|apply listUnsettled_keys|by intros; apply listUnsettled_spec|].
  assert (Hrows : forall id, db' !! id = settledRow docker now id <$> db !! id).
  { intros id. rewrite Hl. case_bool_decide as Hi; [done|]. destruct (db !! id) as [r|] eqn:Er; [|done].
    simpl. f_equal. unfold settledRow. destruct (unsettled (ir_phase r)) eqn:Eu; [|done].
    exfalso. apply Hi. apply list_elem_of_fmap. exists (id, r). split; [done|]. by apply listUnsettled_spec. }
  exists db', c. split; [done|]. split; [done|]. split; [|by rewrite Hc].
  intros id r Hr Hu. rewrite Hrows in Hr. apply fmap_Some in Hr as (r0 & Hr0 & ->).
  unfold settledRow in *. destruct (unsettled (ir_phase r0)) eqn:Eu; simpl in *; [|congruence].
  case_bool_decide as Em; simpl in *; [done|].
  destruct (reconcileIntent_total id r0 docker HL) as (p & b & Ep & Hp). rewrite Ep in *. simpl in *.
  by destruct Hp as [->| ->].
Qed.

(** The startup removes a volume only when the volume carries the label of
    that very intent and no container mounts it; anything else of the host is
    left alone. *)
Theorem startup_removes_only_its_volume docker id r p :
  reconcileIntent id r docker = Some (p, true) ->
  p = rolled_back /\ exists v labels, ir_target_volume r = Some v
    /\ docker v = VFound (Some labels) (Some false) false
    /\ labels !! HELPER_LABEL_RESTORE_INTENT = Some id.
Proof.
  unfold reconcileIntent. intros H. destruct (truthy _) as [v|] eqn:Ev; [|done].
  destruct (docker v) as [| |[labels|] inUse f] eqn:Ed; [done|done| |done].
  case_bool_decide as El; simpl in H; [|done].
  destruct inUse as [[]|], f; try done. injection H as <-. split; [done|]. exists v, labels.
  split; [|done]. unfold truthy in Ev. by destruct (ir_target_volume r) as [[|]|].
Qed.

(** ** Release *)

Definition released_member (now : Z) (m : FenceMember) : FenceMember :=
  mkMember (fm_intentId m) (fm_containerId m) (fm_containerName m) (fm_stackName m) (fm_projectName m)
    (fm_restartPolicy m) (fm_wasRunning m) (Some now).

Definition pendingMembers (ms : list FenceMember) : list FenceMember :=
  filter (fun m => fm_releasedAt m = None) ms.

Definition releases (a : Answers) (restart : bool) (m : FenceMember) : bool :=
  bool_decide (fm_releasedAt m = None) && (releaseMember a restart m).1.2.

Lemma listMembers_mark id c now db :
  listMembers id (markMemberReleased id c now db)
  = (fun m => if bool_decide (fm_containerId m = c) then released_member now m else m) <$> listMembers id db.
Proof.
  unfold listMembers, markMemberReleased. simpl. induction (fd_members db) as [|row rows IH]; [done|].
  simpl. unfold sameMember. rewrite !filter_cons. destruct (decide (fr_intent_id row = id)) as [E|E].
  - rewrite bool_decide_true by done. simpl. case_bool_decide as Ec; simpl.
    + rewrite decide_True by done. apply (f_equal2 cons); [done|exact IH].
    + rewrite decide_True by done. apply (f_equal2 cons); [done|exact IH].
  - rewrite bool_decide_false by done. simpl. rewrite decide_False by done. exact IH.
Qed.

Lemma releaseLoop_members a restart id now ms db :
  listMembers id (releaseLoop a restart id now ms db).2
  = (fun x => if existsb (fun m => releases a restart m && bool_decide (fm_containerId x = fm_containerId m)) ms
              then released_member now x else x) <$> listMembers id db.
Proof.
  revert db. induction ms as [|m ms IH]; intros db; simpl; [by rewrite list_fmap_id|].
  destruct (fm_releasedAt m) as [z|] eqn:Em.
  { rewrite IH. apply list_fmap_ext. intros i x _. unfold releases at 2. by rewrite Em. }
  unfold releases at 1. rewrite Em, bool_decide_true by done. simpl.
  destruct (releaseMember a restart m) as [[calls d] failed] eqn:Er. simpl.
  specialize (IH (if d then markMemberReleased id (fm_containerId m) now db else db)).
  destruct (releaseLoop _ _ _ _ _ _) as [[calls' failed'] db']. simpl in *. rewrite IH.
  destruct d; [|done]. rewrite listMembers_mark, <- list_fmap_compose. apply list_fmap_ext.
  intros i x _. simpl. case_bool_decide; simpl; [|done]. by destruct (existsb _ ms).
Qed.

Lemma releaseLoop_calls a restart id now ms db :
  (releaseLoop a restart id now ms db).1
  = (pendingMembers ms ≫= fun m => (releaseMember a restart m).1.1,
     existsb (fun m => (releaseMember a restart m).2) (pendingMembers ms)).
Proof.
  revert db. unfold pendingMembers. induction ms as [|m ms IH]; intros db; simpl; [done|].
  rewrite filter_cons. destruct (fm_releasedAt m) as [z|] eqn:Em.
  { rewrite decide_False by done. apply IH. }
  rewrite decide_True by done. destruct (releaseMember a restart m) as [[calls d] failed] eqn:Er.
  specialize (IH (if d then markMemberReleased id (fm_containerId m) now db else db)).
  destruct (releaseLoop _ _ _ _ _ _) as [[calls' failed'] db']. simpl in *. rewrite Er. simpl.
  by injection IH as -> ->.
Qed.

Lemma releaseMember_done_or_failed a restart m :
  (releaseMember a restart m).1.2 = negb (releaseMember a restart m).2.
Proof.
  unfold releaseMember. destruct (an_update a _); [|simpl; by rewrite negb_involutive].
  destruct (restart && fm_wasRunning m); [|done].
  destruct (_ || isNotModified _); [done|]. simpl. by rewrite negb_involutive.
Qed.

(** The rows of an intent have distinct containers (the primary key). *)
Definition memberKey (id : string) (db : FenceDb) : Prop :=
  NoDup (fm_containerId <$> listMembers id db).

Lemma release_members a restart id now db :
  memberKey id db ->
  listMembers id (releaseLoop a restart id now (listMembers id db) db).2
  = (fun x => if releases a restart x then released_member now x else x) <$> listMembers id db.
Proof.
  intros Hk. rewrite releaseLoop_members. unfold memberKey in Hk. revert Hk.
  generalize (listMembers id db) as ms. intros ms Hk. apply list_fmap_ext. intros i x Hx.
  assert (existsb (fun m => releases a restart m && bool_decide (fm_containerId x = fm_containerId m)) ms
          = releases a restart x) as ->; [|done].
  apply eq_bool_prop_intro. rewrite !Is_true_true, existsb_exists. split.
  - intros (m & Hm & Hb). apply andb_true_iff in Hb as [Hr Hc]. apply bool_decide_eq_true in Hc.
    apply list_elem_of_In, list_elem_of_lookup in Hm as [j Hj].
    assert (i = j) as ->; [|congruence]. eapply NoDup_lookup; [done| |].
    + by rewrite list_lookup_fmap, Hx.
    + by rewrite list_lookup_fmap, Hj, Hc.
  - intros Hr. exists x. split; [|by rewrite Hr, bool_decide_true].
    apply list_elem_of_In. by eapply list_elem_of_lookup_2.
Qed.

Lemma listMembers_upd_intents id f db : listMembers id (upd_intents f db) = listMembers id db.
Proof. done. Qed.

Lemma pending_after a restart now ms :
  pendingMembers ((fun x => if releases a restart x then released_member now x else x) <$> ms)
  = filter (fun m => (releaseMember a restart m).2 = true) (pendingMembers ms).
Proof.
  unfold pendingMembers. induction ms as [|m ms IH]; [done|].
  rewrite fmap_cons, (filter_cons _ m ms). destruct (decide (fm_releasedAt m = None)) as [Em|Em].
  - assert (releases a restart m = negb (releaseMember a restart m).2) as ->.
    { unfold releases. by rewrite bool_decide_true, releaseMember_done_or_failed. }
    rewrite (filter_cons _ m). destruct (releaseMember a restart m).2; simpl.
    + rewrite filter_cons, !decide_True by done. f_equal. apply IH.
    + rewrite filter_cons, !decide_False by done. apply IH.
  - assert (releases a restart m = false) as -> by (unfold releases; by rewrite bool_decide_false).
    rewrite filter_cons, decide_False by done. apply IH.
Qed.

Lemma existsb_filter_nil {A} (f : A -> bool) (l : list A) :
  existsb f l = false <-> filter (fun x => f x = true) l = [].
Proof.
  induction l as [|x l IH]; [done|]. rewrite filter_cons. simpl.
  by destruct (f x).
Qed.

Lemma releaseMember_start a restart m c :
  CStart c ∈ (releaseMember a restart m).1.1 ->
  restart = true /\ fm_wasRunning m = true /\ fm_containerId m = c.
Proof.
  unfold releaseMember. destruct (an_update a _); simpl; [|set_solver].
  destruct (restart && fm_wasRunning m) eqn:E; [|simpl; set_solver].
  apply andb_true_iff in E as [-> ->]. destruct (_ || _); simpl; set_solver.
Qed.

Lemma releaseMember_policy a restart m :
  CUpdate (fm_containerId m) (fm_restartPolicy m) ∈ (releaseMember a restart m).1.1.
Proof.
  unfold releaseMember. destruct (an_update a _); simpl; [|set_solver].
  destruct (restart && fm_wasRunning m); [|simpl; set_solver]. destruct (_ || _); simpl; set_solver.
Qed.

(** A release puts the recorded restart policy of every member that is not
    released yet back, starts a container only when it was running and a restart
    was asked for, and leaves pending exactly the members whose calls failed
    (a container that is gone is not one): the fence is [released] when there is
    none of them and stays live as [release_failed], with an error, otherwise. *)
Theorem release_exact a restart id now db r calls err db' :
  memberKey id db -> fd_intents db !! id = Some r ->
  releaseRestoreFence a restart id now (listMembers id db) db = (calls, err, db') ->
  (forall m, m ∈ pendingMembers (listMembers id db) ->
     CUpdate (fm_containerId m) (fm_restartPolicy m) ∈ calls)
  /\ (forall c, CStart c ∈ calls -> restart = true /\
        exists m, m ∈ pendingMembers (listMembers id db) /\ fm_containerId m = c /\ fm_wasRunning m = true)
  /\ pendingMembers (listMembers id db')
     = filter (fun m => (releaseMember a restart m).2 = true) (pendingMembers (listMembers id db))
  /\ (err = None <-> pendingMembers (listMembers id db') = [])
  /\ (exists r', fd_intents db' !! id = Some r' /\
        ir_fence_state r' = if decide (err = None) then released else release_failed).
Proof.
  intros Hk Hr. unfold releaseRestoreFence.
  pose proof (releaseLoop_calls a restart id now (listMembers id db) db) as Hc.
  pose proof (release_members a restart id now db Hk) as Hm.
  destruct (releaseLoop_intents a restart id now (listMembers id db) db) as [Hi _].
  destruct (releaseLoop _ _ _ _ _ _) as [[calls0 failed] db0]. simpl in *. injection Hc as -> Hf.
  intros [= <- <- <-]. rewrite listMembers_upd_intents, Hm, pending_after. split_and!.
  - intros m Hin. apply list_elem_of_bind. exists m. split; [apply releaseMember_policy|done].
  - intros c Hin. apply list_elem_of_bind in Hin as (m & Hs & Hin).
    apply releaseMember_start in Hs as (-> & Hw & Hcid). eauto.
  - done.
  - rewrite <- existsb_filter_nil, <- Hf. by destruct failed.
  - simpl. rewrite Hi. unfold setFenceState. rewrite lookup_alter_eq, Hr. eexists. split; [done|].
    simpl. by destruct failed.
Qed.

(** A release that failed can be retried: when the daemon then answers
    every call, the second release calls only the members the first one left
    pending and the fence ends [released] with nobody pending. *)
Theorem release_retry a restart a' restart' id now now' db calls err db1 :
  memberKey id db ->
  releaseRestoreFence a restart id now (listMembers id db) db = (calls, err, db1) ->
  (forall c, an_update a' c = DOk) -> (forall c, an_second a' c = DOk) ->
  exists calls' db2,
    releaseRestoreFence a' restart' id now' (listMembers id db1) db1 = (calls', None, db2)
    /\ calls' = (filter (fun m => (releaseMember a restart m).2 = true)
                   (pendingMembers (listMembers id db))) ≫= (fun m => (releaseMember a' restart' m).1.1)
    /\ pendingMembers (listMembers id db2) = [].
Proof.
  intros Hk H1 Hu Hs.
  assert (Hok : forall m, (releaseMember a' restart' m).2 = false).
  { intros m. unfold releaseMember. rewrite Hu, Hs. by destruct (_ && _). }
  assert (Hm1 : listMembers id db1
    = (fun x => if releases a restart x then released_member now x else x) <$> listMembers id db).
  { pose proof (release_members a restart id now db Hk) as Hm. unfold releaseRestoreFence in H1.
    destruct (releaseLoop _ _ _ _ _ _) as [[? ?] db0]. by injection H1 as <- <- <-. }
  assert (Hk1 : memberKey id db1).
  { unfold memberKey. rewrite Hm1, <- list_fmap_compose. erewrite list_fmap_ext; [exact Hk|].
    intros i x _. simpl. by destruct (releases _ _ _). }
  unfold releaseRestoreFence.
  pose proof (releaseLoop_calls a' restart' id now' (listMembers id db1) db1) as Hc.
  pose proof (release_members a' restart' id now' db1 Hk1) as Hm2.
  destruct (releaseLoop _ _ _ _ _ _) as [[calls' failed] db2]. simpl in *. injection Hc as -> ->.
  assert (existsb (fun m => (releaseMember a' restart' m).2) (pendingMembers (listMembers id db1)) = false) as ->.
  { apply not_true_is_false. rewrite existsb_exists. intros (m & _ & Hf). by rewrite Hok in Hf. }
  eexists _, _. split; [done|]. split; [by rewrite Hm1, pending_after|].
  rewrite listMembers_upd_intents, Hm2, pending_after. apply existsb_filter_nil.
  apply not_true_is_false. rewrite existsb_exists. intros (m & _ & Hf). by rewrite Hok in Hf.
Qed.

(** ** The fence and the stack locks *)

Section locks.
Variable json_parse : string -> option Json.
Variable json_stringify : Json -> string.
Variable mountsOf : string -> list string.

(** [JSON.parse] reads back what [JSON.stringify] wrote of an array of strings. *)
Definition stringsRoundTrip : Prop :=
  forall l : list string,
    json_parse (json_stringify (JArr (JStr <$> l))) = Some (JArr (JStr <$> l)).

Lemma listsStack_recorded name stacks : stringsRoundTrip -> name ∈ stacks ->
  listsStack json_parse name
    (Some (json_stringify (JArr (JStr <$> stack_list stacks)))) = true.
Proof.
  intros HR Hin. unfold listsStack. simpl. rewrite HR. apply existsb_exists. exists (JStr name).
  split; [|by rewrite bool_decide_true]. apply in_map, list_elem_of_In. unfold stack_list.
  rewrite merge_sort_Permutation. by apply elem_of_remove_dups.
Qed.

Lemma isStackFenced_dependent name db id r :
  name <> "" -> fd_readable db = true -> fd_intents db !! id = Some r -> liveFence r = true ->
  listsStack json_parse name (ir_dependent_stacks_json r) = true ->
  isStackFenced json_parse name db = true.
Proof.
  intros Hn Hr Hid Hl Hs. unfold isStackFenced. rewrite bool_decide_false, Hr by done.
  apply orb_true_iff. right. apply existsb_exists. exists (id, r). simpl. rewrite Hl, Hs.
  split; [|done]. by apply list_elem_of_In, elem_of_map_to_list.
Qed.

(** a stack that declares the volume of an overwrite when it is recorded
    is locked out while the fence is live, whatever happened to the intent since:
    every operation of the stack but a data restore is refused by the lock and
    changes nothing. *)
Theorem fenced_stack_locked input sv tok stacks now im0 im1 st0 st r name action env node user ctx locks :
  stringsRoundTrip ->
  recordOverwrite json_stringify input sv tok stacks now im0 = inr im1 ->
  fd_intents (fs_db st0) = im1 -> rtc (fence_step mountsOf json_stringify) st0 st ->
  fd_readable (fs_db st) = true ->
  fd_intents (fs_db st) !! ii_id input = Some r -> LIVE_FENCE_STATE (ir_fence_state r) = true ->
  name ∈ stacks -> name <> "" -> action <> A_data_restore ->
  le_fenced env = (fun s => isStackFenced json_parse s (fs_db st)) ->
  exists existing, tryAcquire env node name action user ctx locks = (Conflict existing, locks).
Proof.
  intros HR Hrec E1 Hs Hrd Hr Hl Hin Hn Ha He.
  assert (exists r1, im1 !! ii_id input = Some r1 /\ ir_target_mode r1 = staged_overwrite
            /\ ir_dependent_stacks_json r1
               = Some (json_stringify (JArr (JStr <$> stack_list stacks)))) as (r1 & H1 & Hm & Hd).
  { unfold recordOverwrite, insertIntent in Hrec. case_bool_decide; [done|].
    destruct (_ || _); [done|]. injection Hrec as <-. eexists. split; [by rewrite lookup_insert_eq|].
    simpl. split; [done|]. rewrite bool_decide_false; [done|]. intros ->. by apply elem_of_nil in Hin. }
  subst im1. destruct (fence_steps_rows _ _ _ _ Hs _ _ H1) as (r' & H' & Eid). assert (r' = r) as -> by congruence.
  unfold identityOf in Eid. injection Eid as _ Em _ Ed.
  assert (isStackFenced json_parse name (fs_db st) = true) as HF.
  { eapply isStackFenced_dependent; eauto.
    - unfold liveFence. by rewrite Em, Hm, bool_decide_true.
    - rewrite Ed, Hd. by apply listsStack_recorded. }
  unfold tryAcquire. destruct (locks !! key node name) as [l|]; [eauto|].
  rewrite bool_decide_false by done. simpl. rewrite He, HF. eauto.
Qed.
End locks.

(** ** Two gaps of the documentation *)

(** An overwrite can be committed without ever having held its fence: the
    transition a new-volume restore needs is open to it too. *)
Lemma overwrite_may_skip_the_fence id x now db r :
  db !! id = Some r -> ir_target_mode r = staged_overwrite -> ir_phase r = staged_verified ->
  advance id committed x now db = inr (<[id := set_phase committed now x r]> db).
Proof. intros Hr Hm Hp. unfold advance. by rewrite Hr, Hm, Hp. Qed.

(** A target that exists with no labels is reported as rolled back, as if it were
    gone. *)
Lemma unlabelled_target_rolled_back id r v docker inUse f :
  ir_target_volume r = Some v -> v <> "" -> docker v = VFound None inUse f ->
  reconcileIntent id r docker = Some (rolled_back, false).
Proof.
  intros Hv Hne Hd. unfold reconcileIntent. rewrite Hv. destruct v as [|c v]; [done|]. simpl. by rewrite Hd.
Qed.

(** ** Examples *)

Definition ex_row (mode : RestoreIntentTargetMode) (op v : string) (p : RestoreIntentPhase)
    (f : RestoreFenceState) : IntentRow :=
  mkIntentRow op "point" mode (Some v) p None None None None f None None None None None "op" "e" 1 1.
Definition ex_db : FenceDb := mkFenceDb {["i" := ex_row staged_overwrite "o" "v" fenced fence_none]} [] true.
Definition ex_mounts (c : string) : list string := if bool_decide (c = "db") then ["v"] else ["w"].
Definition ex_str (_ : Json) : string := "".

(** The fence of [i] is applied with the database container starting, the start is
    answered, the wait ends, and another container starts. *)
Definition ex_st1 := (startContainerUnderFence ex_mounts 1 0 "db" (fence_start ex_db)).
Definition ex_st2 := (applyRestoreFence "i" 1 10 ex_st1).2.
Definition ex_st3 := waitEnded "i" false (startSettled 1 ex_st2).
Definition ex_st4 := startContainerUnderFence ex_mounts 2 20 "web" ex_st3.
Definition ex_st5 := inspected ex_mounts 2 21 DOk ex_st4.

Lemma ex_steps : rtc (fence_step ex_mounts ex_str) (fence_start ex_db) ex_st5.
Proof.
  apply (rtc_l _ _ ex_st1); [by apply (step_start _ _ 1 0 "db")|].
  apply (rtc_l _ _ ex_st2); [by eapply (step_apply _ _ "i" 1 10)|].
  apply (rtc_l _ _ (startSettled 1 ex_st2)); [by apply (step_start_settled _ _ 1)|].
  apply (rtc_l _ _ ex_st3); [by apply (step_wait_ended _ _ "i" false)|].
  apply (rtc_l _ _ ex_st4); [by apply (step_start _ _ 2 20 "web")|].
  apply rtc_once. apply (step_inspected _ _ 2 21 DOk).
Qed.

Lemma ex_reachable : fence_reachable ex_mounts ex_str ex_st5.
Proof.
  exists ex_db. split; [|apply ex_steps]. split; [done|].
  intros id r H. simpl in H. apply lookup_singleton_Some in H as [_ <-]. done.
Qed.

Lemma no_start_on_fenced_volume_witness : "v" ∉ ["w"].
Proof.
  apply (no_start_on_fenced_volume ex_mounts ex_str ex_st5 "i"
           (ex_row staged_overwrite "o" "v" fenced held) "v" 2 (mkStart 21 ["w"]));
    [apply ex_reachable|by apply (bool_decide_eq_true_1 _); vm_compute|vm_compute; reflexivity..].
Defined.

Lemma one_live_restore_per_volume_witness : oneLive (fd_intents (fs_db ex_st5)).
Proof.
  apply (one_live_restore_per_volume ex_mounts ex_str ex_db); [|apply ex_steps].
  intros i j ri rj v Hi Hj _ _ _ _. simpl in *.
  apply lookup_singleton_Some in Hi as [<- _]. apply lookup_singleton_Some in Hj as [<- _]. done.
Defined.

Definition ex_moves : list (RestoreIntentPhase * IntentAdvanceFields * Z) :=
  (fun p => (p, no_fields, 2)) <$>
    [staging; staged_verified; fenced; protecting; materializing; swapping; swapped;
     completion_unknown; committed].
Definition ex_intents : Intents := {["i" := ex_row staged_overwrite "o" "v" recorded fence_none]}.

Lemma restore_phases_end_witness : (length ex_moves <= 9)%nat.
Proof.
  apply (restore_phases_end "i" ex_moves ex_intents
           {["i" := mkIntentRow "o" "point" staged_overwrite (Some "v") committed None None None None
                      fence_none None None None None None "op" "e" 1 2]}
           (ex_row staged_overwrite "o" "v" recorded fence_none)); vm_compute; reflexivity.
Defined.

Definition ex_docker (v : string) : VolumeAnswer :=
  if bool_decide (v = "a") then VFound (Some {[HELPER_LABEL_RESTORE_INTENT := "i"]}) (Some false) false
  else VGone.

Lemma startup_settles_new_restores_witness :
  exists db' c, reconcileRestoreIntentsAtStartup ex_docker 7
    {["i" := ex_row new_volume "o" "a" staging fence_none]} = (db', Some c)
    /\ rc_rolledBack c + rc_unknown c = 1.
Proof.
  destruct (startup_settles_new_restores ex_docker 7 {["i" := ex_row new_volume "o" "a" staging fence_none]})
    as (db' & c & E & _ & _ & Hc).
  - intros v labels f. unfold ex_docker. by case_bool_decide.
  - exists db', c. split; [exact E|]. rewrite Hc. reflexivity.
Defined.

Lemma startup_removes_only_its_volume_witness :
  exists labels, ex_docker "a" = VFound (Some labels) (Some false) false.
Proof.
  destruct (startup_removes_only_its_volume ex_docker "i" (ex_row new_volume "o" "a" staging fence_none)
              rolled_back) as (_ & v & labels & Hv & Hd & _); [reflexivity|].
  exists labels. simpl in Hv. injection Hv as <-. exact Hd.
Defined.

(** Two fenced containers, one of which cannot be updated. *)
Definition ex_always : RestartPolicy := mkPolicy (Some "always") None.
Definition ex_member (c : string) (running : bool) : FenceRow :=
  mkFenceRow "i" c c None None (Some ex_always) running None.
Definition ex_db2 : FenceDb :=
  mkFenceDb {["i" := ex_row staged_overwrite "o" "v" swapped held]}
    [ex_member "db" true; ex_member "web" false] true.
Definition ex_ok : Answers := mkAnswers (fun _ => DOk) (fun _ => DOk).
Definition ex_bad : Answers :=
  mkAnswers (fun c => if bool_decide (c = "web") then DErr (Some 500) else DOk) (fun _ => DOk).
Definition ex_released := releaseRestoreFence ex_bad true "i" 9 (listMembers "i" ex_db2) ex_db2.

Lemma ex_memberKey : memberKey "i" ex_db2.
Proof. apply (bool_decide_unpack _). vm_compute. done. Qed.

Lemma release_exact_witness :
  pendingMembers (listMembers "i" ex_released.2) = [toMember (ex_member "web" false)].
Proof.
  destruct (release_exact ex_bad true "i" 9 ex_db2 (ex_row staged_overwrite "o" "v" swapped held)
              ex_released.1.1 ex_released.1.2 ex_released.2) as (_ & _ & E & _);
    [apply ex_memberKey|reflexivity|reflexivity|].
  rewrite E. vm_compute. reflexivity.
Defined.

Lemma release_retry_witness : exists calls' db2,
  releaseRestoreFence ex_ok true "i" 10 (listMembers "i" ex_released.2) ex_released.2
  = (calls', None, db2) /\ calls' = [CUpdate "web" ex_always].
Proof.
  destruct (release_retry ex_bad true ex_ok true "i" 9 10 ex_db2
              ex_released.1.1 ex_released.1.2 ex_released.2) as (calls' & db2 & E & Ec & _);
    [apply ex_memberKey|reflexivity|reflexivity|reflexivity|].
  exists calls', db2. split; [exact E|]. rewrite Ec. vm_compute. reflexivity.
Defined.

(** A concrete pair of functions for arrays of strings. *)
Definition ex_stop : Ascii.ascii := Ascii.ascii_of_nat 46.
Definition ex_char : Ascii.ascii := Ascii.ascii_of_nat 120.
Fixpoint ex_enc_str (s k : string) : string :=
  match s with
  | EmptyString => String ex_stop k
  | String c s => String ex_char (String c (ex_enc_str s k))
  end.
Fixpoint ex_dec (s : string) : list string :=
  match s with
  | EmptyString => []
  | String m rest =>
      if bool_decide (m = ex_stop) then "" :: ex_dec rest
      else match rest with
           | String c rest => match ex_dec rest with s :: l => String c s :: l | [] => [] end
           | EmptyString => []
           end
  end.
Definition ex_stringify (j : Json) : string :=
  match j with
  | JArr l => foldr (fun v k => match v with JStr s => ex_enc_str s k | _ => k end) "" l
  | _ => ""
  end.
Definition ex_parse (s : string) : option Json := Some (JArr (JStr <$> ex_dec s)).

Lemma ex_dec_enc s k : ex_dec (ex_enc_str s k) = s :: ex_dec k.
Proof. induction s as [|c s IH]; simpl; [done|]. by rewrite IH. Qed.

Lemma ex_roundTrip : stringsRoundTrip ex_parse ex_stringify.
Proof.
  intros l. unfold ex_parse. do 3 f_equal. induction l as [|s l IH]; [done|].
  simpl. rewrite ex_dec_enc. f_equal. exact IH.
Qed.

Definition ex_input : RestoreIntentInput := mkIntentInput "i" "o" "point" "v" "op" "e".
Definition ex_recorded : Intents :=
  match recordOverwrite ex_stringify ex_input "sv" "tok" ["app"] 1 ∅ with inr im => im | inl _ => ∅ end.
Definition ex_start6 : FenceSys := fence_start (mkFenceDb ex_recorded [] true).
Definition ex_st6 : FenceSys := (applyRestoreFence "i" 1 10 ex_start6).2.
Definition ex_lock_env : LockEnv :=
  mkLockEnv 5 (fun s => isStackFenced ex_parse s (fs_db ex_st6)) (fun _ => None).

Lemma fenced_stack_locked_witness :
  exists existing, tryAcquire ex_lock_env 1 "app" A_deploy "u" None ∅ = (Conflict existing, ∅).
Proof.
  eapply (fenced_stack_locked ex_parse ex_stringify ex_mounts ex_input "sv" "tok" ["app"] 1 ∅ ex_recorded
            ex_start6 ex_st6); [apply ex_roundTrip|vm_compute; reflexivity|reflexivity| |reflexivity
            |vm_compute; reflexivity|reflexivity|set_solver|done|done|reflexivity].
  eapply rtc_l; [by eapply (step_apply _ _ "i" 1 10)|]. apply rtc_refl.
Defined.
