(* ===== verification/AutoHeal.v ===== *)
(** * Auto-heal (backend/src/services/AutoHealService.ts)

    The service polls the containers of the local nodes and restarts the ones
    that are unhealthy or crashed, under policies with a duration threshold, a
    cooldown and an hourly cap. A pass is guarded by [isProcessing], so passes do
    not overlap and one is a single action here; what other requests do to the
    policies and the suppressions while a pass awaits Docker is an input, like
    the clock, the listings, the event stream and the answers to the restarts.

    Restarts, history entries, audit entries, notifications and the start of a
    pass are the effects of an action, in order. The texts shown to users are not
    modelled. The policies are the rows of their table in rowid order, with the
    columns the service reads. *)

From stdpp Require Import sorting.
From S2P Require Import Prelude.

(** ** Data *)

Inductive HealReason := hr_unhealthy | hr_crashed.
Inductive SkipReason :=
  | not_unhealthy | duration_not_met | skipped_user_action | skipped_cooldown | skipped_rate_limit.

#[export] Instance HealReason_eq_dec : EqDecision HealReason.
Proof. solve_decision. Defined.
#[export] Instance SkipReason_eq_dec : EqDecision SkipReason.
Proof. solve_decision. Defined.

Record HealSignal := mkSignal {
  sg_reason : option HealReason;
  sg_downSince : option Z;
  sg_lastKillAt : option Z;
}.

Record AutoHealPolicy := mkPolicyRow {
  ap_id : option Z;
  ap_node_id : Z;
  ap_stack_name : string;
  ap_service_name : option string;
  ap_unhealthy_duration_mins : Z;
  ap_cooldown_mins : Z;
  ap_max_restarts_per_hour : Z;
  ap_auto_disable_after_failures : Z;
  ap_enabled : Z;
  ap_consecutive_failures : Z;
  ap_last_fired_at : Z;
}.

Record ContainerInfo := mkContainer {
  co_Id : string;
  co_Names : option (list string);
  co_Labels : option (gmap string string);
  co_State : option string;
  co_Status : option string;
}.

Inductive HealthStatus := hs_healthy | hs_unhealthy | hs_starting.
#[export] Instance HealthStatus_eq_dec : EqDecision HealthStatus.
Proof. solve_decision. Defined.

Record ContainerHealthSnapshot := mkSnapshot {
  sn_healthStatus : option HealthStatus;
  sn_unhealthySince : option Z;
  sn_lastKillAt : option Z;
  sn_crashedAt : option Z;
}.

Definition INTENTIONAL_KILL_WINDOW_MS : Z := 60000.
Definition RATE_LIMIT_WINDOW_MS : Z := 60 * 60000.
Definition HISTORY_THROTTLE_MS : Z := 5 * 60000.
Definition LEASE_REFRESH_FAILURE_WARN_THRESHOLD : Z := 3.

Inductive HistoryAction :=
  | ha_restarted | ha_failed | ha_policy_auto_disabled | ha_docker_unavailable
  | ha_skipped (r : SkipReason).

Definition HistoryAction_str (a : HistoryAction) : string :=
  match a with
  | ha_restarted => "restarted"
  | ha_failed => "failed"
  | ha_policy_auto_disabled => "policy_auto_disabled"
  | ha_docker_unavailable => "docker_unavailable"
  | ha_skipped not_unhealthy => "not_unhealthy"
  | ha_skipped duration_not_met => "duration_not_met"
  | ha_skipped skipped_user_action => "skipped_user_action"
  | ha_skipped skipped_cooldown => "skipped_cooldown"
  | ha_skipped skipped_rate_limit => "skipped_rate_limit"
  end.

(** A row of the history, without its sentence for the user. *)
Record AutoHealHistoryEntry := mkHistory {
  he_policy_id : Z;
  he_stack_name : string;
  he_service_name : option string;
  he_container_name : string;
  he_container_id : string;
  he_action : HistoryAction;
  he_success : bool;
  he_error : option string;
  he_timestamp : Z;
}.

Inductive AlertLevel := al_info | al_warning.

Inductive HealEffect :=
  | EPass (nodeId : Z) (now : Z) (listed : list string)
  | ERestart (policy : AutoHealPolicy) (nodeId : Z) (containerId : string) (now : Z)
  | EHistory (entry : AutoHealHistoryEntry)
  | EAudit (nodeId : Z) (containerName stackName : string) (now : Z)
  | EAlert (level : AlertLevel) (stackName : string) (containerName serviceName : option string)
  | ELeaseWarning (nodeId : Z).

Record AutoHeal := mkHeal {
  ah_restartTimestamps : gmap string (list Z);
  ah_observedUnhealthySince : gmap string Z;
  ah_historyTimestamps : gmap string Z;
  ah_suppressedServices : gmap string Z;
  ah_leaseRefreshFailures : gmap Z Z;
  ah_isProcessing : bool;
  ah_policies : list AutoHealPolicy;            (* auto_heal_policies *)
}.

Definition newHeal (rows : list AutoHealPolicy) : AutoHeal := mkHeal ∅ ∅ ∅ ∅ ∅ false rows.

Definition upd_restarts f s := mkHeal (f (ah_restartTimestamps s)) (ah_observedUnhealthySince s)
  (ah_historyTimestamps s) (ah_suppressedServices s) (ah_leaseRefreshFailures s) (ah_isProcessing s) (ah_policies s).
Definition upd_observed f s := mkHeal (ah_restartTimestamps s) (f (ah_observedUnhealthySince s))
  (ah_historyTimestamps s) (ah_suppressedServices s) (ah_leaseRefreshFailures s) (ah_isProcessing s) (ah_policies s).
Definition upd_history f s := mkHeal (ah_restartTimestamps s) (ah_observedUnhealthySince s)
  (f (ah_historyTimestamps s)) (ah_suppressedServices s) (ah_leaseRefreshFailures s) (ah_isProcessing s) (ah_policies s).
Definition upd_suppressed f s := mkHeal (ah_restartTimestamps s) (ah_observedUnhealthySince s)
  (ah_historyTimestamps s) (f (ah_suppressedServices s)) (ah_leaseRefreshFailures s) (ah_isProcessing s) (ah_policies s).
Definition upd_leases f s := mkHeal (ah_restartTimestamps s) (ah_observedUnhealthySince s)
  (ah_historyTimestamps s) (ah_suppressedServices s) (f (ah_leaseRefreshFailures s)) (ah_isProcessing s) (ah_policies s).
Definition upd_processing f s := mkHeal (ah_restartTimestamps s) (ah_observedUnhealthySince s)
  (ah_historyTimestamps s) (ah_suppressedServices s) (ah_leaseRefreshFailures s) (f (ah_isProcessing s)) (ah_policies s).
Definition upd_policies f s := mkHeal (ah_restartTimestamps s) (ah_observedUnhealthySince s)
  (ah_historyTimestamps s) (ah_suppressedServices s) (ah_leaseRefreshFailures s) (ah_isProcessing s) (f (ah_policies s)).

Abbreviation heal := (act AutoHeal HealEffect).

(** ** The policy rows *)

Definition hasId (id : Z) (p : AutoHealPolicy) : bool := bool_decide (ap_id p = Some id).

Definition getAutoHealPolicy (id : Z) (rows : list AutoHealPolicy) : option AutoHealPolicy :=
  head (filter (fun p => ap_id p = Some id) rows).

(** [UPDATE auto_heal_policies SET ... WHERE id = ?] *)
Definition updatePolicy (id : Z) (f : AutoHealPolicy -> AutoHealPolicy) (rows : list AutoHealPolicy)
    : list AutoHealPolicy :=
  (fun p => if hasId id p then f p else p) <$> rows.

Definition set_last_fired (now : Z) (p : AutoHealPolicy) : AutoHealPolicy :=
  mkPolicyRow (ap_id p) (ap_node_id p) (ap_stack_name p) (ap_service_name p)
    (ap_unhealthy_duration_mins p) (ap_cooldown_mins p) (ap_max_restarts_per_hour p)
    (ap_auto_disable_after_failures p) (ap_enabled p) (ap_consecutive_failures p) now.
Definition set_failures (f : Z -> Z) (p : AutoHealPolicy) : AutoHealPolicy :=
  mkPolicyRow (ap_id p) (ap_node_id p) (ap_stack_name p) (ap_service_name p)
    (ap_unhealthy_duration_mins p) (ap_cooldown_mins p) (ap_max_restarts_per_hour p)
    (ap_auto_disable_after_failures p) (ap_enabled p) (f (ap_consecutive_failures p)) (ap_last_fired_at p).
Definition set_enabled (b : bool) (p : AutoHealPolicy) : AutoHealPolicy :=
  mkPolicyRow (ap_id p) (ap_node_id p) (ap_stack_name p) (ap_service_name p)
    (ap_unhealthy_duration_mins p) (ap_cooldown_mins p) (ap_max_restarts_per_hour p)
    (ap_auto_disable_after_failures p) (if b then 1 else 0) (ap_consecutive_failures p) (ap_last_fired_at p).

Definition incrementConsecutiveFailures (id : Z) := updatePolicy id (set_failures (fun n => n + 1)).
Definition resetConsecutiveFailures (id : Z) := updatePolicy id (set_failures (fun _ => 0)).
Definition setPolicyEnabled (id : Z) (b : bool) := updatePolicy id (set_enabled b).

(** ** Suppressions *)

Definition suppressKey (nodeId : Z) (stackName serviceName : string) : string :=
  pretty nodeId +:+ ":" +:+ stackName +:+ ":" +:+ serviceName.

Definition suppress (nodeId : Z) (stackName serviceName : string) : heal unit :=
  let key := suppressKey nodeId stackName serviceName in
  modify (upd_suppressed (fun m => <[key := default 0 (m !! key) + 1]> m)).

Definition clearSuppress (nodeId : Z) (stackName serviceName : string) : heal unit :=
  let key := suppressKey nodeId stackName serviceName in
  modify (upd_suppressed (fun m =>
    let current := default 0 (m !! key) in
    if current <=? 1 then delete key m else <[key := current - 1]> m)).

Definition isSuppressed (nodeId : Z) (stackName serviceName : string) (st : AutoHeal) : bool :=
  0 <? default 0 (ah_suppressedServices st !! suppressKey nodeId stackName serviceName).

(** [stop], without the timers. *)
Definition stop : heal unit := modify (upd_suppressed (fun _ => ∅)).

(** ** Entitlement leases of the remote nodes *)

Inductive LeaseAnswer := LNoTarget | LOk | LHttpError | LThrew.

Definition noteLeaseRefreshFailure (nodeId : Z) : heal unit :=
  st ← get;
  let count := default 0 (ah_leaseRefreshFailures st !! nodeId) + 1 in
  modify (upd_leases (fun m => <[nodeId := count]> m));;
  when (count =? LEASE_REFRESH_FAILURE_WARN_THRESHOLD) (tell (ELeaseWarning nodeId)).

(** The pings of the remotes settle one by one; a node without an id is skipped. *)
Definition leaseAnswered (nodeId : option Z) (a : LeaseAnswer) : heal unit :=
  match nodeId with
  | None => skip
  | Some nodeId =>
      match a with
      | LOk => modify (upd_leases (delete nodeId))
      | LNoTarget | LHttpError | LThrew => noteLeaseRefreshFailure nodeId
      end
  end.

Definition refreshRemoteLeases (remotes : list (option Z)) (answers : list (option Z * LeaseAnswer)) : heal unit :=
  if bool_decide (remotes = []) then skip
  else
    modify (upd_leases (filter (fun kv => Some kv.1 ∈ remotes)));;
    for_each (fun ra => leaseAnswered ra.1 ra.2) answers.

(** ** Text *)

(** The parts of a key before and after its first colon. *)
Fixpoint cut (s : string) : string * string :=
  match s with
  | EmptyString => (EmptyString, EmptyString)
  | String c s => if decide (c = colon) then (EmptyString, s)
                  else let '(a, b) := cut s in (String c a, b)
  end.

Fixpoint take_chars (n : nat) (s : string) : string :=
  match n, s with
  | S n, String c s => String c (take_chars n s)
  | _, _ => EmptyString
  end.

Definition slash : Ascii.ascii := Ascii.ascii_of_nat 47.

(** [Names?.[0]?.replace(/^\//, '') ?? Id.slice(0, 12)] *)
Definition containerName (c : ContainerInfo) : string :=
  match co_Names c ≫= head with
  | Some (String d name) => if decide (d = slash) then name else String d name
  | Some EmptyString => EmptyString
  | None => take_chars 12 (co_Id c)
  end.

Definition containerKey (nodeId : Z) (containerId : string) : string :=
  pretty nodeId +:+ ":" +:+ containerId.

Definition label (name : string) (c : ContainerInfo) : option string :=
  co_Labels c ≫= fun labels => labels !! name.

(** ** The trigger *)

Definition dockerHealth (c : ContainerInfo) : option HealthStatus :=
  let statusText := toLowerCase (default "" (co_State c) +:+ " " +:+ default "" (co_Status c)) in
  if includes "unhealthy" statusText then Some hs_unhealthy
  else if includes "healthy" statusText then Some hs_healthy
  else if includes "starting" statusText then Some hs_starting
  else None.

(** [eventState?.healthStatus === 'unhealthy' && eventState.unhealthySince] *)
Definition streamUnhealthySince (ev : option ContainerHealthSnapshot) : option Z :=
  match ev with
  | Some s => if bool_decide (sn_healthStatus s = Some hs_unhealthy) then truthyZ (sn_unhealthySince s) else None
  | None => None
  end.

Definition getHealSignal (nodeId : Z) (c : ContainerInfo) (ev : option ContainerHealthSnapshot) (now : Z)
    : heal HealSignal :=
  let key := containerKey nodeId (co_Id c) in
  let lastKillAt := ev ≫= sn_lastKillAt in
  let rawState := toLowerCase (default "" (co_State c)) in
  if bool_decide (rawState = "exited") || bool_decide (rawState = "dead") then
    modify (upd_observed (delete key));;
    mret (match truthyZ (ev ≫= sn_crashedAt) with
          | Some t => mkSignal (Some hr_crashed) (Some t) lastKillAt
          | None => mkSignal None None lastKillAt
          end)
  else
    match dockerHealth c with
    | Some hs_unhealthy =>
        st ← get;
        let since := match streamUnhealthySince ev with
                     | Some t => t
                     | None => default now (ah_observedUnhealthySince st !! key)
                     end in
        modify (upd_observed (fun m => <[key := since]> m));;
        mret (mkSignal (Some hr_unhealthy) (Some since) lastKillAt)
    | Some hs_healthy | Some hs_starting =>
        modify (upd_observed (delete key));; mret (mkSignal None None lastKillAt)
    | None =>
        match streamUnhealthySince ev with
        | Some t => modify (upd_observed (fun m => <[key := t]> m));;
                    mret (mkSignal (Some hr_unhealthy) (Some t) lastKillAt)
        | None => modify (upd_observed (delete key));; mret (mkSignal None None lastKillAt)
        end
    end.

(** [now - t < RATE_LIMIT_WINDOW_MS] *)
Definition recent (now : Z) (ts : list Z) : list Z := filter (fun t => now - t < RATE_LIMIT_WINDOW_MS) ts.

Definition stamps (key : string) (st : AutoHeal) : list Z := default [] (ah_restartTimestamps st !! key).

(** [inr] is a heal with its reason. *)
Definition shouldHeal (signal : HealSignal) (policy : AutoHealPolicy) (key : string) (now : Z) (st : AutoHeal)
    : SkipReason + HealReason :=
  match sg_reason signal, truthyZ (sg_downSince signal) with
  | Some reason, Some downSince =>
      if now - downSince <? ap_unhealthy_duration_mins policy * 60000 then inl duration_not_met
      else if match sg_lastKillAt signal with
              | Some k => now - k <? INTENTIONAL_KILL_WINDOW_MS
              | None => false
              end then inl skipped_user_action
      else if (0 <? ap_last_fired_at policy)
              && (now - ap_last_fired_at policy <? ap_cooldown_mins policy * 60000) then inl skipped_cooldown
      else if ap_max_restarts_per_hour policy <=? Z.of_nat (length (recent now (stamps key st)))
           then inl skipped_rate_limit
      else inr reason
  | _, _ => inl not_unhealthy
  end.

(** ** History *)

Definition historyKey (nodeId policyId : Z) (containerId : string) (a : HistoryAction) : string :=
  pretty nodeId +:+ ":" +:+ pretty policyId +:+ ":" +:+ containerId +:+ ":" +:+ HistoryAction_str a.

Definition recordThrottledHistory (policy : AutoHealPolicy) (entry : AutoHealHistoryEntry) (nodeId : Z)
    (containerId : string) : heal unit :=
  match ap_id policy with
  | None => skip
  | Some id =>
      let key := historyKey nodeId id containerId (he_action entry) in
      st ← get;
      let lastRecorded := default 0 (ah_historyTimestamps st !! key) in
      if he_timestamp entry - lastRecorded <? HISTORY_THROTTLE_MS then skip
      else modify (upd_history (fun m => <[key := he_timestamp entry]> m));; tell (EHistory entry)
  end.

(** The policy of a key is the text of its second part; the keys are the ones
    [recordThrottledHistory] writes, so [Number] of it is an id exactly when it is
    the text of that id. *)
Definition pruneInactivePolicyHistory (nodeId : Z) (policies : list AutoHealPolicy) : heal unit :=
  let active := (fun id : Z => pretty id) <$> omap ap_id policies in
  modify (upd_history (filter (fun kv =>
    ~ ((cut kv.1).1 = pretty nodeId /\ (cut (cut kv.1).2).1 ∉ active)))).

(** ** Healing *)

Inductive RestartAnswer :=
  | RestartOk
  | RestartFailed (msg : string) (refused : bool).   (* [refused]: by the guard or a fence *)

(** What a heal of a container meets: the event stream at its check, the clock and
    the answer of its restart, and what other requests do meanwhile. *)
Record ItemEnv := mkItem {
  ie_event : option ContainerHealthSnapshot;
  ie_now : Z;
  ie_answer : RestartAnswer;
  ie_policies : list AutoHealPolicy -> list AutoHealPolicy;
  ie_suppressed : gmap string Z -> gmap string Z;
}.

Definition handleAutoDisable (policyId : Z) (policy : AutoHealPolicy) (serviceName : option string)
    (containerName containerId : string) (now : Z) : heal unit :=
  modify (upd_policies (setPolicyEnabled policyId false));;
  tell (EHistory (mkHistory policyId (ap_stack_name policy) serviceName containerName containerId
                    ha_policy_auto_disabled false None now));;
  tell (EAlert al_warning (ap_stack_name policy) None None).

Definition executeHeal (policy : AutoHealPolicy) (id nodeId : Z) (containerId containerName : string)
    (serviceName : option string) (e : ItemEnv) : heal unit :=
  let now := ie_now e in
  let key := containerKey nodeId containerId in
  let entry action success error :=
    mkHistory id (ap_stack_name policy) serviceName containerName containerId action success error now in
  modify (upd_policies (updatePolicy id (set_last_fired now)));;
  modify (upd_restarts (fun m => <[key := recent now (default [] (m !! key)) ++ [now]]> m));;
  tell (ERestart policy nodeId containerId now);;
  modify (upd_policies (ie_policies e));;
  modify (upd_suppressed (ie_suppressed e));;
  match ie_answer e with
  | RestartOk =>
      modify (upd_policies (resetConsecutiveFailures id));;
      tell (EHistory (entry ha_restarted true None));;
      tell (EAudit nodeId containerName (ap_stack_name policy) now);;
      tell (EAlert al_info (ap_stack_name policy) (Some containerName) (truthy serviceName))
  | RestartFailed msg refused =>
      when (negb refused) (modify (upd_policies (incrementConsecutiveFailures id)));;
      st ← get;
      let failures :=
        if refused then ap_consecutive_failures policy
        else match getAutoHealPolicy id (ah_policies st) with
             | Some updated => ap_consecutive_failures updated
             | None => ap_consecutive_failures policy + 1
             end in
      tell (EHistory (entry ha_failed false (Some msg)));;
      tell (EAlert al_warning (ap_stack_name policy) (Some containerName) (truthy serviceName));;
      when (negb refused && (ap_auto_disable_after_failures policy <=? failures))
        (handleAutoDisable id policy serviceName containerName containerId now)
  end.

Definition isCandidate (policy : AutoHealPolicy) (c : ContainerInfo) : bool :=
  bool_decide (label "com.docker.compose.project" c = Some (ap_stack_name policy))
  && match truthy (ap_service_name policy) with
     | Some service => bool_decide (label "com.docker.compose.service" c = Some service)
     | None => true
     end.

Definition isReported (r : SkipReason) : bool :=
  match r with not_unhealthy | duration_not_met => false | _ => true end.

(** [a ?? b] *)
Definition nullish {A} (a b : option A) : option A := match a with Some _ => a | None => b end.

(** The containers of one policy; the result is [healedThisPass]. *)
Fixpoint healContainers (nodeId now : Z) (env : Z -> string -> ItemEnv) (policy : AutoHealPolicy) (id : Z)
    (cs : list ContainerInfo) (healed : gset string) : heal (gset string) :=
  match cs with
  | [] => mret healed
  | c :: cs =>
      let e := env id (co_Id c) in
      let serviceOverride := label "com.docker.compose.service" c in
      st ← get;
      if match truthy serviceOverride with
         | Some s => isSuppressed nodeId (ap_stack_name policy) s st
         | None => false
         end then healContainers nodeId now env policy id cs healed
      else
        signal ← getHealSignal nodeId c (ie_event e) now;
        st ← get;
        match shouldHeal signal policy (containerKey nodeId (co_Id c)) now st with
        | inl skipReason =>
            when (isReported skipReason)
              (recordThrottledHistory policy
                 (mkHistory id (ap_stack_name policy) (nullish (ap_service_name policy) serviceOverride)
                    (containerName c) (co_Id c) (ha_skipped skipReason) false None now) nodeId (co_Id c));;
            healContainers nodeId now env policy id cs healed
        | inr reason =>
            if bool_decide (co_Id c ∈ healed) then healContainers nodeId now env policy id cs healed
            else
              executeHeal policy id nodeId (co_Id c) (containerName c)
                (nullish (ap_service_name policy) serviceOverride) e;;
              healContainers nodeId now env policy id cs ({[co_Id c]} ∪ healed)
        end
  end.

Fixpoint healPolicies (nodeId now : Z) (env : Z -> string -> ItemEnv) (containers : list ContainerInfo)
    (policies : list AutoHealPolicy) (healed : gset string) : heal unit :=
  match policies with
  | [] => skip
  | p :: ps =>
      match ap_id p with
      | None => healPolicies nodeId now env containers ps healed
      | Some id =>
          healed' ← healContainers nodeId now env p id (List.filter (isCandidate p) containers) healed;
          healPolicies nodeId now env containers ps healed'
      end
  end.

(** A node in a pass: the listing of its containers, the clock after it, and what
    other requests do while it is awaited. *)
Record NodeEnv := mkNodeEnv {
  ne_listing : string + list ContainerInfo;
  ne_now : Z;
  ne_item : Z -> string -> ItemEnv;
  ne_policies : list AutoHealPolicy -> list AutoHealPolicy;
  ne_suppressed : gmap string Z -> gmap string Z;
}.

(** The restart times of the containers that are listed, within the window. *)
Definition pruneRestarts (nodeId now : Z) (ids : list string) (m : gmap string (list Z)) : gmap string (list Z) :=
  map_imap (fun key ts =>
    match strip_prefix (node_prefix nodeId) key with
    | None => Some ts
    | Some containerId =>
        if bool_decide (recent now ts = []) || negb (bool_decide (containerId ∈ ids)) then None
        else Some (recent now ts)
    end) m.

Definition pruneObserved (nodeId : Z) (ids : list string) (m : gmap string Z) : gmap string Z :=
  filter (fun kv => ~ (is_Some (strip_prefix (node_prefix nodeId) kv.1)
                       /\ kv.1 ∉ (containerKey nodeId <$> ids))) m.

Definition evaluateForNode (nodeId : Z) (policies : list AutoHealPolicy) (e : NodeEnv) : heal unit :=
  modify (upd_policies (ne_policies e));;
  modify (upd_suppressed (ne_suppressed e));;
  match ne_listing e with
  | inl err =>
      for_each (fun p =>
        match ap_id p with
        | None => skip
        | Some id =>
            recordThrottledHistory p
              (mkHistory id (ap_stack_name p) (ap_service_name p) ("node-" +:+ pretty nodeId)
                 ("node-" +:+ pretty nodeId) ha_docker_unavailable false (Some err) (ne_now e))
              nodeId ("node-" +:+ pretty nodeId)
        end) policies
  | inr containers =>
      let now := ne_now e in
      let ids := co_Id <$> containers in
      tell (EPass nodeId now ids);;
      modify (upd_restarts (pruneRestarts nodeId now ids));;
      modify (upd_observed (pruneObserved nodeId ids));;
      pruneInactivePolicyHistory nodeId policies;;
      healPolicies nodeId now (ne_item e) containers policies ∅
  end.

(** The enabled policies of a node, as they are in the table. *)
Definition enabledPolicies (nodeId : Z) (rows : list AutoHealPolicy) : list AutoHealPolicy :=
  filter (fun p => ap_node_id p = nodeId /\ ap_enabled p = 1) rows.

(** [evaluate], over the local nodes. *)
Definition evaluate (nodes : list Z) (env : Z -> NodeEnv) : heal unit :=
  st ← get;
  if ah_isProcessing st then skip
  else
    modify (upd_processing (fun _ => true));;
    for_each (fun nodeId =>
      st ← get;
      let policies := enabledPolicies nodeId (ah_policies st) in
      pruneInactivePolicyHistory nodeId policies;;
      if bool_decide (policies = []) then skip else evaluateForNode nodeId policies (env nodeId)) nodes;;
    modify (upd_processing (fun _ => false)).

(** ** The log of a service *)

(** The clock readings of a log, and the restarts of one container in it. *)
Definition clock (L : list HealEffect) : list Z :=
  omap (fun e => match e with EPass _ t _ | ERestart _ _ _ t => Some t | _ => None end) L.
Definition times (n : Z) (c : string) (L : list HealEffect) : list Z :=
  omap (fun e => match e with
                 | ERestart _ n' c' t => if decide (n' = n /\ c' = c) then Some t else None
                 | _ => None
                 end) L.

(** A container that was restarted before a pass that does not list it is removed:
    Docker never gives its id to another one. *)
Definition gone (n : Z) (c : string) (L : list HealEffect) : Prop :=
  exists L1 t ids L2, L = L1 ++ EPass n t ids :: L2 /\ times n c L1 <> [] /\ c ∉ ids.
Definition noReturn (L : list HealEffect) : Prop :=
  forall L1 p n c t L2, L = L1 ++ ERestart p n c t :: L2 -> ~ gone n c L1.

(** The clock does not run backwards, and no removed container is restarted. *)
Definition sane (L : list HealEffect) : Prop := StronglySorted Z.le (clock L) /\ noReturn L.

(** The restart [e] keeps the cap after the log [pre]. *)
Definition capped (pre : list HealEffect) (e : HealEffect) : Prop :=
  match e with
  | ERestart p n c t => Z.of_nat (length (recent t (times n c pre))) + 1 <= ap_max_restarts_per_hour p
  | _ => True
  end.

Fixpoint capOk (pre L : list HealEffect) : Prop :=
  match L with [] => True | e :: L => capped pre e /\ capOk (pre ++ [e]) L end.

Record LogInv (L : list HealEffect) (st : AutoHeal) : Prop := {
  li_times : forall n c, gone n c L \/
    forall T, Forall (fun t => t <= T) (clock L) ->
      recent T (times n c L) = recent T (stamps (containerKey n c) st);
  li_cap : capOk [] L;
}.

Definition quietEffect (e : HealEffect) : bool :=
  match e with EPass _ _ _ | ERestart _ _ _ _ => false | _ => true end.

(** An action that restarts nothing. *)
Definition quiet {A} (m : heal A) : Prop :=
  forall st, ah_restartTimestamps (state m st) = ah_restartTimestamps st
             /\ Forall (fun e => quietEffect e = true) (effects m st).

Definition keeps {A} (m : heal A) : Prop :=
  forall L st, LogInv L st -> sane (L ++ effects m st) -> LogInv (L ++ effects m st) (state m st).

Lemma capOk_app pre L M : capOk pre (L ++ M) <-> capOk pre L /\ capOk (pre ++ L) M.
Proof.
  revert pre. induction L as [|e L IH]; intros pre; simpl; [by rewrite app_nil_r; naive_solver|].
  rewrite IH, <- app_assoc. simpl. naive_solver.
Qed.

Lemma capOk_split L : capOk [] L ->
  forall L1 p n c t L2, L = L1 ++ ERestart p n c t :: L2 ->
    Z.of_nat (length (recent t (times n c L1))) + 1 <= ap_max_restarts_per_hour p.
Proof. intros H L1 p n c t L2 ->. apply capOk_app in H as [_ H]. by destruct H. Qed.

Lemma clock_app L M : clock (L ++ M) = clock L ++ clock M.
Proof. apply omap_app. Qed.
Lemma times_app n c L M : times n c (L ++ M) = times n c L ++ times n c M.
Proof. apply omap_app. Qed.
Lemma recent_app T l m : recent T (l ++ m) = recent T l ++ recent T m.
Proof. apply filter_app. Qed.

Lemma recent_recent T now l : now <= T -> recent T (recent now l) = recent T l.
Proof.
  intros H. unfold recent. induction l as [|t l IH]; [done|]. rewrite !filter_cons.
  repeat case_decide; rewrite ?filter_cons; repeat case_decide; rewrite ?IH; done || lia.
Qed.

Lemma recent_length T now l : now <= T -> (length (recent T l) <= length (recent now l))%nat.
Proof. intros H. rewrite <- (recent_recent T now l H). apply length_filter. Qed.

Lemma sane_prefix L M : sane (L ++ M) -> sane L.
Proof.
  intros [Hs Hn]. split.
  - rewrite clock_app in Hs. by apply StronglySorted_app_1_l in Hs.
  - intros L1 p n c t L2 ->. apply (Hn L1 p n c t (L2 ++ M)). by rewrite <- app_assoc.
Qed.

Lemma gone_app n c L M : gone n c L -> gone n c (L ++ M).
Proof.
  intros (L1 & t & ids & L2 & -> & H1 & H2). exists L1, t, ids, (L2 ++ M). by rewrite <- app_assoc.
Qed.

Lemma quiet_clock M : Forall (fun e => quietEffect e = true) M -> clock M = [] /\ forall n c, times n c M = [].
Proof. induction 1 as [|e M He _ [IH1 IH2]]; [done|]. by destruct e. Qed.

Lemma quiet_capOk pre M : Forall (fun e => quietEffect e = true) M -> capOk pre M.
Proof. intros H. revert pre. induction H as [|e M He _ IH]; intros pre; simpl; [done|]. by destruct e. Qed.

Lemma quiet_inv L M st st' :
  Forall (fun e => quietEffect e = true) M -> ah_restartTimestamps st' = ah_restartTimestamps st ->
  LogInv L st -> LogInv (L ++ M) st'.
Proof.
  intros HM Hst [H1 H2]. destruct (quiet_clock M HM) as [Hc Ht]. split.
  - intros n c. destruct (H1 n c) as [Hg|He]; [left; by apply gone_app|right].
    intros T HT. rewrite clock_app, Hc, app_nil_r in HT. rewrite times_app, Ht, app_nil_r.
    unfold stamps in *. rewrite Hst. auto.
  - apply capOk_app. split; [done|]. by apply quiet_capOk.
Qed.

Lemma quiet_keeps {A} (m : heal A) : quiet m -> keeps m.
Proof. intros H L st HI _. destruct (H st) as [H1 H2]. by apply quiet_inv with (st := st). Qed.

Lemma heal_quiet_bind {A B} (m : heal A) (k : A -> heal B) : quiet m -> (forall a, quiet (k a)) -> quiet (m ≫= k).
Proof.
  intros Hm Hk st. rewrite state_bind, effects_bind. destruct (Hm st) as [E1 F1].
  destruct (Hk (result m st) (state m st)) as [E2 F2]. split; [congruence|]. by apply Forall_app.
Qed.

Lemma heal_keeps_bind {A B} (m : heal A) (k : A -> heal B) : keeps m -> (forall a, keeps (k a)) -> keeps (m ≫= k).
Proof.
  intros Hm Hk L st HI HS. rewrite effects_bind, app_assoc in *. rewrite state_bind.
  apply Hk; [|done]. apply Hm; [done|]. by eapply sane_prefix.
Qed.

Lemma heal_quiet_ret {A} (a : A) : quiet (mret a).
Proof. intros st. by rewrite state_ret, effects_ret. Qed.
Lemma heal_quiet_skip : quiet skip.
Proof. intros st. by rewrite state_skip, effects_skip. Qed.
Lemma heal_quiet_get : quiet get.
Proof. intros st. by rewrite state_get, effects_get. Qed.
Lemma heal_quiet_tell e : quietEffect e = true -> quiet (tell e).
Proof. intros H st. rewrite state_tell, effects_tell. split; [done|]. by constructor. Qed.
Lemma heal_quiet_modify f :
  (forall st, ah_restartTimestamps (f st) = ah_restartTimestamps st) -> quiet (modify f).
Proof. intros H st. rewrite state_modify, effects_modify. by split. Qed.
Lemma heal_quiet_when b m : quiet m -> quiet (when b m).
Proof. intros H. destruct b; [done|apply heal_quiet_skip]. Qed.
Lemma heal_quiet_for_each {A} (f : A -> heal unit) l : (forall x, quiet (f x)) -> quiet (for_each f l).
Proof. intros H. induction l as [|x l IH]; [apply heal_quiet_skip|]. by apply heal_quiet_bind. Qed.

Create HintDb heal.
#[export] Hint Resolve heal_quiet_ret heal_quiet_skip heal_quiet_get heal_quiet_tell heal_quiet_modify heal_quiet_when : heal.

(** Sequences of actions that restart nothing. *)
Ltac quiet := repeat first
  [ solve [eauto with heal] | apply heal_quiet_bind; [|intros ?] | apply heal_quiet_for_each; intros ?
  | case_match ].

Lemma getHealSignal_quiet n c ev now : quiet (getHealSignal n c ev now).
Proof. unfold getHealSignal. quiet. Qed.
Lemma recordThrottledHistory_quiet p entry n c : quiet (recordThrottledHistory p entry n c).
Proof. unfold recordThrottledHistory. quiet. Qed.
Lemma pruneInactivePolicyHistory_quiet n ps : quiet (pruneInactivePolicyHistory n ps).
Proof. unfold pruneInactivePolicyHistory. quiet. Qed.
Lemma handleAutoDisable_quiet id p s cn c now : quiet (handleAutoDisable id p s cn c now).
Proof. unfold handleAutoDisable. quiet. Qed.
#[export] Hint Resolve getHealSignal_quiet recordThrottledHistory_quiet pruneInactivePolicyHistory_quiet
  handleAutoDisable_quiet : heal.

Lemma executeHeal_shape policy id n c cn s e st :
  exists es, effects (executeHeal policy id n c cn s e) st = ERestart policy n c (ie_now e) :: es
    /\ Forall (fun x => quietEffect x = true) es
    /\ ah_restartTimestamps (state (executeHeal policy id n c cn s e) st)
       = <[containerKey n c := recent (ie_now e) (stamps (containerKey n c) st) ++ [ie_now e]]>
           (ah_restartTimestamps st).
Proof.
  unfold executeHeal. cbv zeta.
  rewrite !state_bind, !effects_bind, !state_modify, !effects_modify, !state_tell, !effects_tell. simpl.
  set (m := match ie_answer e with RestartOk => _ | RestartFailed _ _ => _ end).
  set (s1 := upd_suppressed _ _).
  assert (quiet m) as Hm by (subst m; quiet).
  destruct (Hm s1) as [E F]. eexists. split; [done|]. split; [done|]. rewrite E. done.
Qed.

Lemma restart_inv L st st' policy n c t pn :
  LogInv L st -> sane (L ++ [ERestart policy n c t]) ->
  pn ∈ clock L -> Z.of_nat (length (recent pn (stamps (containerKey n c) st))) < ap_max_restarts_per_hour policy ->
  ah_restartTimestamps st'
    = <[containerKey n c := recent t (stamps (containerKey n c) st) ++ [t]]> (ah_restartTimestamps st) ->
  LogInv (L ++ [ERestart policy n c t]) st'.
Proof.
  intros [H1 H2] [Hs Hn] Hpn Hcap Hst. rewrite clock_app in Hs. simpl in Hs.
  assert (Hle : Forall (fun x => x <= t) (clock L)).
  { apply Forall_forall. intros x Hx. eapply StronglySorted_app_1_elem_of; [done|done|set_solver]. }
  assert (Heq : forall T, Forall (fun t => t <= T) (clock L) ->
            recent T (times n c L) = recent T (stamps (containerKey n c) st)).
  { destruct (H1 n c) as [Hg|He]; [|done]. exfalso. by apply (Hn L policy n c t []). }
  split.
  - intros n' c'. destruct (decide (n' = n /\ c' = c)) as [[-> ->]|Hne].
    + right. intros T HT. rewrite clock_app in HT. apply Forall_app in HT as [HT Ht]. simpl in Ht.
      apply Forall_cons in Ht as [Ht _]. rewrite times_app. simpl. rewrite decide_True by done.
      unfold stamps at 1. rewrite Hst, lookup_insert_eq. simpl.
      rewrite !recent_app, recent_recent by done. f_equal. auto.
    + destruct (H1 n' c') as [Hg|He]; [left; by apply gone_app|right]. intros T HT.
      rewrite clock_app in HT. apply Forall_app in HT as [HT _].
      rewrite times_app. simpl. rewrite decide_False by naive_solver. rewrite app_nil_r.
      unfold stamps. rewrite Hst, lookup_insert_ne; [by apply He|].
      unfold containerKey. intros E%append_colon_inj; try apply no_colon_pretty.
      destruct E as [E ->]. apply (inj pretty) in E. naive_solver.
  - apply capOk_app. split; [done|]. simpl. split; [|done]. rewrite Heq by done.
    rewrite Forall_forall in Hle. pose proof (recent_length t pn (stamps (containerKey n c) st) (Hle _ Hpn)). lia.
Qed.

Lemma shouldHeal_cap signal p key now st reason :
  shouldHeal signal p key now st = inr reason ->
  Z.of_nat (length (recent now (stamps key st))) < ap_max_restarts_per_hour p.
Proof.
  unfold shouldHeal. intros H. repeat case_match; try done;
  match goal with H : (_ <=? _) = false |- _ => apply Z.leb_gt in H; exact H end.
Qed.

Lemma executeHeal_inv L st policy id n c cn s e pn :
  LogInv L st -> sane (L ++ effects (executeHeal policy id n c cn s e) st) ->
  pn ∈ clock L -> Z.of_nat (length (recent pn (stamps (containerKey n c) st))) < ap_max_restarts_per_hour policy ->
  LogInv (L ++ effects (executeHeal policy id n c cn s e) st) (state (executeHeal policy id n c cn s e) st).
Proof.
  intros HI HS Hpn Hcap. destruct (executeHeal_shape policy id n c cn s e st) as (es & E & Hq & Hst).
  rewrite E in *. change (?x :: es) with ([x] ++ es) in *. rewrite app_assoc in *.
  set (st1 := upd_restarts (fun m => <[containerKey n c :=
    recent (ie_now e) (stamps (containerKey n c) st) ++ [ie_now e]]> m) st).
  apply quiet_inv with (st := st1); [done|done|].
  eapply restart_inv; eauto using sane_prefix.
Qed.

Definition keepsIn {A} (pn : Z) (m : heal A) : Prop :=
  forall L st, pn ∈ clock L -> LogInv L st -> sane (L ++ effects m st) -> LogInv (L ++ effects m st) (state m st).

Lemma keepsIn_bind {A B} pn (m : heal A) (k : A -> heal B) :
  keepsIn pn m -> (forall a, keepsIn pn (k a)) -> keepsIn pn (m ≫= k).
Proof.
  intros Hm Hk L st Hp HI HS. rewrite effects_bind, app_assoc in *. rewrite state_bind.
  apply Hk; [rewrite clock_app; set_solver| |done]. apply Hm; [done|done|]. by eapply sane_prefix.
Qed.

Lemma keeps_keepsIn {A} pn (m : heal A) : keeps m -> keepsIn pn m.
Proof. intros H L st _. apply H. Qed.

Lemma keepsIn_get {A} pn (k : AutoHeal -> heal A) :
  (forall L st, pn ∈ clock L -> LogInv L st -> sane (L ++ effects (k st) st) ->
     LogInv (L ++ effects (k st) st) (state (k st) st)) ->
  keepsIn pn (get ≫= k).
Proof.
  intros H L st Hp HI. rewrite effects_bind, state_bind, effects_get, state_get, result_get. simpl.
  by apply H.
Qed.

Lemma healContainers_keeps n now env p id cs healed : keepsIn now (healContainers n now env p id cs healed).
Proof.
  revert healed. induction cs as [|c cs IH]; intros healed; simpl; [apply keeps_keepsIn, quiet_keeps; quiet|].
  apply keepsIn_bind; [apply keeps_keepsIn, quiet_keeps; quiet|]. intros st0.
  case_match; [apply IH|].
  apply keepsIn_bind; [apply keeps_keepsIn, quiet_keeps; quiet|]. intros signal.
  apply keepsIn_get. intros L st Hp HI. destruct (shouldHeal _ _ _ _ _) as [skip|reason] eqn:Es.
  - clear Es. revert L st Hp HI. apply (keepsIn_bind now); [|by intros _].
    apply keeps_keepsIn, quiet_keeps. quiet.
  - case_bool_decide; [by apply IH|]. intros HS. rewrite effects_bind, state_bind, app_assoc in *.
    apply IH; [rewrite clock_app; set_solver| |done].
    eapply executeHeal_inv; eauto using sane_prefix, shouldHeal_cap.
Qed.

Lemma healPolicies_keeps n now env cs ps healed : keepsIn now (healPolicies n now env cs ps healed).
Proof.
  revert healed. induction ps as [|p ps IH]; intros healed; simpl; [apply keeps_keepsIn, quiet_keeps; quiet|].
  destruct (ap_id p) as [id|]; [|apply IH]. apply keepsIn_bind; [apply healContainers_keeps|done].
Qed.

Lemma lookup_pruneRestarts n now ids n' c m :
  pruneRestarts n now ids m !! containerKey n' c
  = m !! containerKey n' c ≫= fun ts =>
      if decide (n = n') then
        if bool_decide (recent now ts = []) || negb (bool_decide (c ∈ ids)) then None else Some (recent now ts)
      else Some ts.
Proof.
  unfold pruneRestarts. rewrite map_lookup_imap. unfold containerKey. rewrite strip_node_prefix.
  by case_decide.
Qed.

Lemma recent_nil T now l : now <= T -> recent now l = [] -> recent T l = [].
Proof. intros H E. rewrite <- (recent_recent T now l H), E. done. Qed.

Lemma pass_inv L st n now ids :
  LogInv L st -> LogInv (L ++ [EPass n now ids]) (upd_restarts (pruneRestarts n now ids) st).
Proof.
  intros [H1 H2]. split; [|apply capOk_app; by split]. intros n' c.
  destruct (H1 n' c) as [Hg|He]; [left; by apply gone_app|].
  destruct (decide (times n' c L = [])) as [Et|Et];
    [|destruct (decide (n = n')) as [<-|Hn]; [destruct (decide (c ∈ ids)) as [Hc|Hc]|]];
    [right|right| |right].
  3: { left. by exists L, now, ids, []. }
  all: intros T HT; rewrite clock_app in HT; apply Forall_app in HT as [HT Hnow]; simpl in Hnow;
    apply Forall_cons in Hnow as [Hnow _]; specialize (He T HT);
    rewrite times_app; simpl; rewrite app_nil_r, He; unfold stamps in *; simpl; rewrite lookup_pruneRestarts;
    destruct (ah_restartTimestamps st !! containerKey _ c) as [ts|]; simpl in *; try done.
  - case_decide; [|done]. destruct (_ || _); simpl; [|by rewrite recent_recent].
    rewrite Et in He. by rewrite <- He.
  - rewrite decide_True by done. case_bool_decide as Er; simpl; [by apply recent_nil with (now := now)|].
    rewrite bool_decide_true by done. simpl. by rewrite recent_recent.
  - rewrite decide_False by done. done.
Qed.

Lemma evaluateForNode_keeps n ps e : keeps (evaluateForNode n ps e).
Proof.
  unfold evaluateForNode. do 2 (apply heal_keeps_bind; [apply quiet_keeps; quiet|intros _]).
  destruct (ne_listing e) as [err|cs]; [apply quiet_keeps; quiet|].
  intros L st HI. rewrite effects_bind, state_bind, effects_tell, state_tell.
  rewrite effects_bind, state_bind, effects_modify, state_modify. intros HS.
  rewrite (app_nil_l (effects _ _)) in *. rewrite app_assoc in *.
  eapply (keepsIn_bind (ne_now e)); [| |rewrite clock_app; simpl; set_solver|by apply pass_inv|done].
  - apply keeps_keepsIn, quiet_keeps; quiet.
  - intros _. apply keepsIn_bind; [apply keeps_keepsIn, quiet_keeps; quiet|].
    intros _. apply healPolicies_keeps.
Qed.

Lemma heal_keeps_for_each {A} (f : A -> heal unit) l : (forall x, keeps (f x)) -> keeps (for_each f l).
Proof.
  intros H. induction l as [|x l IH]; simpl; [apply quiet_keeps; quiet|]. by apply heal_keeps_bind.
Qed.

Lemma evaluate_keeps nodes env : keeps (evaluate nodes env).
Proof.
  unfold evaluate. apply heal_keeps_bind; [apply quiet_keeps; quiet|]. intros st.
  case_match; [apply quiet_keeps; quiet|].
  apply heal_keeps_bind; [apply quiet_keeps; quiet|]. intros _.
  apply heal_keeps_bind; [|intros _; apply quiet_keeps; quiet]. apply heal_keeps_for_each. intros n.
  apply heal_keeps_bind; [apply quiet_keeps; quiet|]. intros st'.
  apply heal_keeps_bind; [apply quiet_keeps; quiet|]. intros _.
  case_bool_decide; [apply quiet_keeps; quiet|apply evaluateForNode_keeps].
Qed.

(** What happens to a service: its passes, the suppressions of updates, the lease
    refreshes, and requests that change the policies. *)
Inductive HealOp :=
  | OpEvaluate (nodes : list Z) (env : Z -> NodeEnv)
  | OpSuppress (nodeId : Z) (stackName serviceName : string)
  | OpClearSuppress (nodeId : Z) (stackName serviceName : string)
  | OpStop
  | OpLeases (remotes : list (option Z)) (answers : list (option Z * LeaseAnswer))
  | OpPolicies (f : list AutoHealPolicy -> list AutoHealPolicy).

Definition heal_op (o : HealOp) : heal unit :=
  match o with
  | OpEvaluate nodes env => evaluate nodes env
  | OpSuppress n stack service => suppress n stack service
  | OpClearSuppress n stack service => clearSuppress n stack service
  | OpStop => stop
  | OpLeases remotes answers => refreshRemoteLeases remotes answers
  | OpPolicies f => modify (upd_policies f)
  end.

Definition heal_run (ops : list HealOp) : heal unit := for_each heal_op ops.

Lemma heal_op_keeps o : keeps (heal_op o).
Proof.
  destruct o; simpl; [apply evaluate_keeps|apply quiet_keeps..]; [| | | |quiet];
    unfold suppress, clearSuppress, stop, refreshRemoteLeases, leaseAnswered, noteLeaseRefreshFailure; quiet.
Qed.

Lemma newHeal_inv rows : LogInv [] (newHeal rows).
Proof. split; [|done]. intros n c. right. intros T _. unfold stamps. simpl. by rewrite lookup_empty. Qed.

(** C20: the hourly cap holds: in every history of the service, with any policies,
    answers and edits, a restart of a container is made only when, with it, the
    restarts of that container in the hour before it stay within the cap of the
    policy that makes it. *)
Theorem hourly_cap rows ops L1 p n c t L2 :
  let L := effects (heal_run ops) (newHeal rows) in
  sane L -> L = L1 ++ ERestart p n c t :: L2 ->
  Z.of_nat (length (recent t (times n c L1))) + 1 <= ap_max_restarts_per_hour p.
Proof.
  intros L HS HL. eapply capOk_split; [|exact HL].
  assert (keeps (heal_run ops)) as HK by (apply heal_keeps_for_each, heal_op_keeps).
  apply (HK [] (newHeal rows) (newHeal_inv rows)). done.
Qed.

(** ** One restart of a container per pass *)

Definition restarted (L : list HealEffect) : list string :=
  omap (fun e => match e with ERestart _ _ c _ => Some c | _ => None end) L.

Lemma restarted_app L M : restarted (L ++ M) = restarted L ++ restarted M.
Proof. apply omap_app. Qed.

Lemma quiet_restarted M : Forall (fun e => quietEffect e = true) M -> restarted M = [].
Proof. induction 1 as [|e M He _ IH]; [done|]. by destruct e. Qed.

(** What an action restarts, given what the pass restarted before it. *)
Definition once (healed healed' : gset string) (L : list HealEffect) : Prop :=
  NoDup (restarted L) /\ (forall c, c ∈ restarted L -> c ∉ healed)
  /\ forall c, c ∈ healed' <-> c ∈ healed \/ c ∈ restarted L.

Lemma once_quiet healed M : Forall (fun e => quietEffect e = true) M -> once healed healed M.
Proof.
  intros H. unfold once. rewrite (quiet_restarted M H). split_and!; [constructor|set_solver|set_solver].
Qed.

Lemma once_app healed1 healed2 healed3 L M :
  once healed1 healed2 L -> once healed2 healed3 M -> once healed1 healed3 (L ++ M).
Proof.
  unfold once. intros (A1 & A2 & A3) (B1 & B2 & B3). rewrite restarted_app. split_and!.
  - apply NoDup_app. split_and!; [done| |done]. set_solver.
  - set_solver.
  - set_solver.
Qed.

Lemma healContainers_once n now env p id cs healed st :
  once healed (result (healContainers n now env p id cs healed) st)
    (effects (healContainers n now env p id cs healed) st).
Proof.
  revert healed st. induction cs as [|c cs IH]; intros healed st; simpl.
  { rewrite result_ret, effects_ret. by apply once_quiet. }
  rewrite effects_bind, result_bind, effects_get, state_get, result_get. simpl.
  case_match; [apply IH|]. rewrite effects_bind, result_bind.
  destruct (getHealSignal_quiet n c (ie_event (env id (co_Id c))) now st) as [_ Hq].
  eapply once_app; [by apply once_quiet|].
  rewrite effects_bind, result_bind, effects_get, state_get, result_get. simpl.
  destruct (shouldHeal _ _ _ _ _) as [r|reason].
  - rewrite effects_bind, result_bind. eapply once_app; [|apply IH]. apply once_quiet.
    apply (heal_quiet_when (isReported r)), recordThrottledHistory_quiet.
  - case_bool_decide as Eh; [apply IH|]. rewrite effects_bind, result_bind.
    eapply once_app; [|apply IH].
    destruct (executeHeal_shape p id n (co_Id c) (containerName c)
                (nullish (ap_service_name p) (label "com.docker.compose.service" c)) (env id (co_Id c))
                (state (getHealSignal n c (ie_event (env id (co_Id c))) now) st)) as (es & -> & Hes & _).
    unfold once. simpl. rewrite (quiet_restarted es Hes). split_and!; [apply NoDup_singleton|set_solver|set_solver].
Qed.

Lemma healPolicies_once n now env cs ps healed st :
  exists healed', once healed healed' (effects (healPolicies n now env cs ps healed) st).
Proof.
  revert healed st. induction ps as [|p ps IH]; intros healed st; simpl.
  { exists healed. by apply once_quiet. }
  destruct (ap_id p) as [id|]; [|apply IH]. rewrite effects_bind.
  edestruct IH as [healed' H']. exists healed'. eapply once_app; [apply healContainers_once|exact H'].
Qed.

Lemma evaluateForNode_effects n ps e st cs :
  ne_listing e = inr cs ->
  exists pre st', Forall (fun x => quietEffect x = true \/ exists m t ids, x = EPass m t ids) pre
    /\ effects (evaluateForNode n ps e) st
       = pre ++ effects (healPolicies n (ne_now e) (ne_item e) cs ps ∅) st'
    /\ ah_suppressedServices st' = ne_suppressed e (ah_suppressedServices st).
Proof.
  intros El. unfold evaluateForNode, pruneInactivePolicyHistory. rewrite El. act_run.
  eexists [_], _. split; [|by split]. constructor; [eauto|constructor].
Qed.

(** Overlapping policies do not double a restart: a pass over a node
    restarts a container at most once, whatever the policies and the answers. *)
Theorem one_restart_per_pass n ps e st : NoDup (restarted (effects (evaluateForNode n ps e) st)).
Proof.
  destruct (ne_listing e) as [err|cs] eqn:El.
  - rewrite quiet_restarted; [constructor|]. unfold evaluateForNode. rewrite El.
    eapply (heal_quiet_bind _ _); [quiet|intros _; quiet].
  - destruct (evaluateForNode_effects n ps e st cs El) as (pre & st' & Hp & -> & _).
    rewrite restarted_app. assert (restarted pre = []) as ->.
    { induction Hp as [|x pre [Hx|(m & t & ids & ->)] _ IH]; [done|by destruct x|done]. }
    edestruct healPolicies_once as [healed' (H & _)]. exact H.
Qed.

(** ** What a restart needs *)

Definition stopped (c : ContainerInfo) : bool :=
  let rawState := toLowerCase (default "" (co_State c)) in
  bool_decide (rawState = "exited") || bool_decide (rawState = "dead").

(** A container may be restarted at [now] for what the event stream says of it. *)
Definition healable (now : Z) (c : ContainerInfo) (ev : option ContainerHealthSnapshot) (p : AutoHealPolicy)
    : Prop :=
  let due d := ap_unhealthy_duration_mins p * 60000 <= now - d in
  (forall k, ev ≫= sn_lastKillAt = Some k -> INTENTIONAL_KILL_WINDOW_MS <= now - k)
  /\ (0 < ap_last_fired_at p -> ap_cooldown_mins p * 60000 <= now - ap_last_fired_at p)
  /\ (if stopped c then exists d, truthyZ (ev ≫= sn_crashedAt) = Some d /\ due d
      else dockerHealth c = Some hs_unhealthy
           \/ (dockerHealth c = None /\ exists d, streamUnhealthySince ev = Some d /\ due d)).

Lemma truthyZ_truthyZ o : truthyZ (truthyZ o) = truthyZ o.
Proof. destruct o as [z|]; simpl; [|done]. destruct (z =? 0) eqn:E; [done|]. simpl. by rewrite E. Qed.

Lemma shouldHeal_inr signal p key now st reason :
  shouldHeal signal p key now st = inr reason ->
  (exists d, sg_reason signal = Some reason /\ truthyZ (sg_downSince signal) = Some d
             /\ ap_unhealthy_duration_mins p * 60000 <= now - d)
  /\ (forall k, sg_lastKillAt signal = Some k -> INTENTIONAL_KILL_WINDOW_MS <= now - k)
  /\ (0 < ap_last_fired_at p -> ap_cooldown_mins p * 60000 <= now - ap_last_fired_at p).
Proof.
  unfold shouldHeal. destruct (sg_reason signal) as [r|]; [|done].
  destruct (truthyZ (sg_downSince signal)) as [d|]; [|done].
  destruct (now - d <? _) eqn:Ed; [done|].
  destruct (match sg_lastKillAt signal with Some k => _ | None => _ end) eqn:Ek; [done|].
  destruct (_ && _) eqn:Ec; [done|]. destruct (_ <=? _); [done|]. intros [= <-]. split_and!.
  - exists d. split_and!; [done|done|zlia].
  - intros k E. rewrite E in Ek. zlia.
  - intros H. zlia.
Qed.

Lemma truthyZ_Some_inv o d : truthyZ o = Some d -> truthyZ (Some d) = Some d.
Proof. intros H. rewrite <- H, truthyZ_truthyZ. done. Qed.

Lemma streamUnhealthySince_truthy ev d : streamUnhealthySince ev = Some d -> truthyZ (Some d) = Some d.
Proof. unfold streamUnhealthySince. repeat case_match; try done. apply truthyZ_Some_inv. Qed.

#[local] Arguments truthyZ : simpl never.

Lemma signal_healable n c ev now p key st st' reason :
  shouldHeal (result (getHealSignal n c ev now) st) p key now st' = inr reason -> healable now c ev p.
Proof.
  intros H. apply shouldHeal_inr in H as ((d & Hr & Hd & Hdue) & Hk & Hc). unfold healable.
  assert (sg_lastKillAt (result (getHealSignal n c ev now) st) = ev ≫= sn_lastKillAt) as Ek.
  { unfold getHealSignal. repeat case_match; act_run; by repeat case_match. }
  rewrite Ek in Hk. split_and!; [done|done|]. clear Ek Hk Hc.
  unfold getHealSignal in Hr, Hd. fold (stopped c) in *. destruct (stopped c).
  - revert Hr Hd. act_run. destruct (truthyZ (ev ≫= sn_crashedAt)) as [t|] eqn:E; [|done]. simpl.
    intros _ Hd. rewrite (truthyZ_Some_inv _ _ E) in Hd. simplify_eq. eauto.
  - destruct (dockerHealth c) as [[]|] eqn:E; [revert Hr; by act_run|by left|revert Hr; by act_run|right].
    split; [done|]. revert Hr Hd. destruct (streamUnhealthySince ev) as [t|] eqn:Es; act_run; [|done].
    intros _ Hd. rewrite (streamUnhealthySince_truthy _ _ Es) in Hd. simplify_eq. eauto.
Qed.

Lemma quiet_no_restart M p n c t :
  Forall (fun e => quietEffect e = true) M -> ERestart p n c t ∉ M.
Proof. intros H Hin. rewrite Forall_forall in H. by apply H in Hin. Qed.

(** The restarts of an action are by [p], of a listed container of its stack that
    may be restarted. *)
Definition justified (n now : Z) (env : Z -> string -> ItemEnv) (cs : list ContainerInfo)
    (ps : list AutoHealPolicy) (e : HealEffect) : Prop :=
  match e with
  | ERestart p n' c t =>
      n' = n /\ p ∈ ps /\ exists id ci, ap_id p = Some id /\ ci ∈ cs /\ co_Id ci = c /\ isCandidate p ci = true
        /\ t = ie_now (env id c) /\ healable now ci (ie_event (env id c)) p
  | _ => True
  end.

Lemma quiet_justified n now env cs ps M :
  Forall (fun e => quietEffect e = true) M -> Forall (justified n now env cs ps) M.
Proof. intros H. eapply Forall_impl; [exact H|]. by intros []. Qed.

Lemma healContainers_justified n now env p id cs all healed st :
  ap_id p = Some id -> Forall (fun c => c ∈ all /\ isCandidate p c = true) cs ->
  Forall (justified n now env all [p]) (effects (healContainers n now env p id cs healed) st).
Proof.
  intros Hid. revert healed st. induction cs as [|c cs IH]; intros healed st Hcs; simpl; [constructor|].
  apply Forall_cons in Hcs as [[Hc Hcand] Hcs].
  rewrite effects_bind, effects_get, state_get, result_get. simpl. case_match; [by apply IH|].
  rewrite effects_bind. apply Forall_app. split; [apply quiet_justified, getHealSignal_quiet|].
  rewrite effects_bind, effects_get, state_get, result_get. simpl.
  destruct (shouldHeal _ _ _ _ _) as [r|reason] eqn:Es.
  - rewrite effects_bind. apply Forall_app. split; [|by apply IH].
    apply quiet_justified, (heal_quiet_when (isReported r)), recordThrottledHistory_quiet.
  - case_bool_decide; [by apply IH|]. rewrite effects_bind. apply Forall_app. split; [|by apply IH].
    match goal with |- Forall _ (effects (executeHeal ?a ?b ?c ?d ?e ?f ?g) ?s) =>
      destruct (executeHeal_shape a b c d e f g s) as (es & -> & Hes & _) end.
    constructor; [|by apply quiet_justified]. simpl. split; [done|]. split; [set_solver|].
    exists id, c. split_and!; try done. by eapply signal_healable.
Qed.

Lemma healPolicies_justified n now env cs all ps qs healed st :
  (forall p, p ∈ ps -> p ∈ qs) -> (forall c, c ∈ cs -> c ∈ all) ->
  Forall (justified n now env all qs) (effects (healPolicies n now env cs ps healed) st).
Proof.
  intros Hps Hcs. revert healed st. induction ps as [|p ps IH]; intros healed st; simpl; [constructor|].
  destruct (ap_id p) as [id|] eqn:Hid; [|apply IH; set_solver]. rewrite effects_bind. apply Forall_app.
  split; [|apply IH; set_solver]. eapply Forall_impl; [apply (healContainers_justified n now env p id _ all); [exact Hid|]|].
  - apply Forall_forall. intros c Hc%list_elem_of_In%filter_In. rewrite <- list_elem_of_In in Hc. naive_solver.
  - intros [] He; try done. simpl in *. destruct He as (E & Hin & He). split; [done|]. split; [|done].
    apply Hps. set_solver.
Qed.

(** a restart is always justified: it is made under one of the enabled
    policies, on a listed container of its stack and service that is unhealthy,
    or that crashed and stayed down for the threshold, that no operator stopped
    in the last minute, and whose policy is out of its cooldown. A container that
    was stopped on purpose or exited cleanly is never restarted. *)
Theorem heal_is_justified n ps e cs st p n' c t :
  ne_listing e = inr cs -> ERestart p n' c t ∈ effects (evaluateForNode n ps e) st ->
  n' = n /\ p ∈ ps /\ exists id ci, ap_id p = Some id /\ ci ∈ cs /\ co_Id ci = c /\ isCandidate p ci = true
    /\ t = ie_now (ne_item e id c) /\ healable (ne_now e) ci (ie_event (ne_item e id c)) p.
Proof.
  intros El Hin. destruct (evaluateForNode_effects n ps e st cs El) as (pre & st' & Hp & E & _).
  rewrite E in Hin. apply elem_of_app in Hin as [Hin|Hin].
  - rewrite Forall_forall in Hp. destruct (Hp _ Hin) as [H|(? & ? & ? & H)]; done.
  - eapply Forall_forall in Hin; [|apply (healPolicies_justified _ _ _ _ cs _ ps); auto]. exact Hin.
Qed.

(** ** Parts of the state an action leaves alone *)

Definition stable {X A} (f : AutoHeal -> X) (m : heal A) : Prop := forall st, f (state m st) = f st.

Section stable.
Context {X : Type} (f : AutoHeal -> X).

Lemma stable_bind {A B} (m : heal A) (k : A -> heal B) :
  stable f m -> (forall a, stable f (k a)) -> stable f (m ≫= k).
Proof. intros Hm Hk st. rewrite state_bind, Hk. apply Hm. Qed.
Lemma stable_ret {A} (a : A) : stable f (mret a).
Proof. intros st. by rewrite state_ret. Qed.
Lemma stable_skip : stable f skip.
Proof. intros st. by rewrite state_skip. Qed.
Lemma stable_get : stable f get.
Proof. intros st. by rewrite state_get. Qed.
Lemma stable_tell e : stable f (tell e).
Proof. intros st. by rewrite state_tell. Qed.
Lemma stable_modify g : (forall st, f (g st) = f st) -> stable f (modify g).
Proof. intros H st. by rewrite state_modify. Qed.
Lemma stable_when b m : stable f m -> stable f (when b m).
Proof. intros H. destruct b; [done|apply stable_skip]. Qed.
End stable.

#[export] Hint Resolve stable_ret stable_skip stable_get stable_tell stable_modify stable_when : heal.

Ltac stable := repeat first
  [ solve [eauto with heal] | apply stable_bind; [|intros ?] | apply stable_when | case_match ].

Lemma getHealSignal_stable n c ev now :
  stable ah_suppressedServices (getHealSignal n c ev now) /\ stable ah_policies (getHealSignal n c ev now).
Proof. unfold getHealSignal. split; stable. Qed.

Lemma recordThrottledHistory_stable p entry n c :
  stable ah_suppressedServices (recordThrottledHistory p entry n c)
  /\ stable ah_policies (recordThrottledHistory p entry n c).
Proof. unfold recordThrottledHistory. split; stable. Qed.

Lemma executeHeal_suppressed p id n c cn s e st :
  ah_suppressedServices (state (executeHeal p id n c cn s e) st) = ie_suppressed e (ah_suppressedServices st).
Proof.
  unfold executeHeal, handleAutoDisable. cbv zeta. act_run.
  match goal with |- ah_suppressedServices (state ?m ?s) = _ =>
    assert (stable ah_suppressedServices m) as H by stable; by rewrite H end.
Qed.

Lemma truthy_nonempty s : s <> "" -> truthy (Some s) = Some s.
Proof. by destruct s. Qed.

(** ** Suppressed services *)

Section suppressed.
Context (n : Z) (stack service : string).

Definition held (m : gmap string Z) : bool := 0 <? default 0 (m !! suppressKey n stack service).

(** A restart of a container of another service. *)
Definition elsewhere (cs : list ContainerInfo) (e : HealEffect) : Prop :=
  match e with
  | ERestart p _ c _ => ap_stack_name p = stack ->
      exists ci, ci ∈ cs /\ co_Id ci = c /\ label "com.docker.compose.service" ci <> Some service
  | _ => True
  end.

Lemma quiet_elsewhere cs M : Forall (fun e => quietEffect e = true) M -> Forall (elsewhere cs) M.
Proof. intros H. eapply Forall_impl; [exact H|]. by intros []. Qed.

Lemma healContainers_elsewhere now env p id cs all healed st :
  service <> "" -> (forall id c m, held m = true -> held (ie_suppressed (env id c) m) = true) ->
  held (ah_suppressedServices st) = true -> (forall c, c ∈ cs -> c ∈ all) ->
  Forall (elsewhere all) (effects (healContainers n now env p id cs healed) st)
  /\ held (ah_suppressedServices (state (healContainers n now env p id cs healed) st)) = true.
Proof.
  intros Hne Henv. revert healed st. induction cs as [|c cs IH]; intros healed st Hs Hcs; simpl; [done|].
  rewrite effects_bind, state_bind, effects_get, state_get, result_get. simpl.
  case_match eqn:Esup; [apply IH; [done|set_solver]|].
  rewrite effects_bind, state_bind. set (st1 := state (getHealSignal _ _ _ _) st).
  assert (Hs1 : held (ah_suppressedServices st1) = true)
    by (subst st1; by rewrite (proj1 (getHealSignal_stable _ _ _ _))).
  rewrite effects_bind, state_bind, effects_get, state_get, result_get. simpl.
  assert (Hq : Forall (elsewhere all) (effects (getHealSignal n c (ie_event (env id (co_Id c))) now) st))
    by apply quiet_elsewhere, getHealSignal_quiet.
  destruct (shouldHeal _ _ _ _ _) as [r|reason].
  - rewrite effects_bind, state_bind. edestruct (IH healed) as [F G]; [|set_solver|split; [|exact G]].
    + destruct (isReported r); [|exact Hs1]. unfold when.
      by rewrite (proj1 (recordThrottledHistory_stable _ _ _ _)).
    + rewrite !Forall_app. split_and!; [done| |done].
      apply quiet_elsewhere, (heal_quiet_when (isReported r)), recordThrottledHistory_quiet.
  - case_bool_decide.
    { edestruct (IH healed st1) as [F G]; [done|set_solver|]. split; [|exact G]. by apply Forall_app. }
    rewrite effects_bind, state_bind. edestruct IH as [F G]; [| |split; [|exact G]]; [|set_solver|].
    { rewrite executeHeal_suppressed. by apply Henv. }
    rewrite !Forall_app. split_and!; [done| |exact F].
    match goal with |- Forall _ (effects (executeHeal ?a ?b ?c ?d ?e ?f ?g) ?s) =>
      destruct (executeHeal_shape a b c d e f g s) as (es & -> & Hes & _) end.
    constructor; [|by apply quiet_elsewhere]. simpl. intros Hst. exists c. split_and!; [set_solver|done|].
    intros El. rewrite El, truthy_nonempty, Hst in Esup by done.
    unfold isSuppressed in Esup. unfold held in Hs. congruence.
Qed.

Lemma healPolicies_elsewhere now env ps cs all healed st :
  service <> "" -> (forall id c m, held m = true -> held (ie_suppressed (env id c) m) = true) ->
  held (ah_suppressedServices st) = true -> (forall c, c ∈ cs -> c ∈ all) ->
  Forall (elsewhere all) (effects (healPolicies n now env cs ps healed) st).
Proof.
  intros Hne Henv. revert healed st. induction ps as [|p ps IH]; intros healed st Hs Hcs; simpl; [constructor|].
  destruct (ap_id p) as [id|]; [|by apply IH]. rewrite effects_bind.
  destruct (healContainers_elsewhere now env p id (List.filter (isCandidate p) cs) all healed st)
    as [F G]; [done|done|done| |apply Forall_app; split; [exact F|by apply IH]].
  intros c Hc%list_elem_of_In%filter_In. rewrite <- list_elem_of_In in Hc. naive_solver.
Qed.

Lemma evaluateForNode_elsewhere ps e cs st p n' c t :
  ne_listing e = inr cs -> service <> "" -> NoDup (co_Id <$> cs) ->
  held (ne_suppressed e (ah_suppressedServices st)) = true ->
  (forall id c m, held m = true -> held (ie_suppressed (ne_item e id c) m) = true) ->
  ERestart p n' c t ∈ effects (evaluateForNode n ps e) st -> ap_stack_name p = stack ->
  forall ci, ci ∈ cs -> co_Id ci = c -> label "com.docker.compose.service" ci <> Some service.
Proof.
  intros El Hne Hnd Hs Henv Hin Hst ci Hci Hid.
  destruct (evaluateForNode_effects n ps e st cs El) as (pre & st' & Hp & E & Es).
  rewrite E in Hin. apply elem_of_app in Hin as [Hin|Hin].
  { rewrite Forall_forall in Hp. destruct (Hp _ Hin) as [H|(? & ? & ? & H)]; done. }
  eapply Forall_forall in Hin; [|apply (healPolicies_elsewhere _ _ _ _ cs); [done|done|by rewrite Es|auto]].
  destruct (Hin Hst) as (ci' & Hci' & Hid' & Hl). assert (ci = ci') as ->; [|done].
  apply list_elem_of_lookup in Hci as [i Hi], Hci' as [j Hj].
  assert (i = j) as ->; [|congruence]. eapply NoDup_lookup; [done| |].
  - by rewrite list_lookup_fmap, Hi.
  - rewrite list_lookup_fmap, Hj. simpl. by rewrite Hid, Hid'.
Qed.

(** Auto-heal leaves a service alone while it is suppressed: as long as an
    update or its health gate holds the suppression, a pass restarts no container
    of that service under any policy of its stack. *)
Theorem suppressed_service_left_alone ps e cs st p n' c t :
  ne_listing e = inr cs -> service <> "" -> NoDup (co_Id <$> cs) ->
  held (ne_suppressed e (ah_suppressedServices st)) = true ->
  (forall id c m, held m = true -> held (ie_suppressed (ne_item e id c) m) = true) ->
  ERestart p n' c t ∈ effects (evaluateForNode n ps e) st -> ap_stack_name p = stack ->
  forall ci, ci ∈ cs -> co_Id ci = c -> label "com.docker.compose.service" ci <> Some service.
Proof. exact (evaluateForNode_elsewhere ps e cs st p n' c t). Qed.
End suppressed.

(** ** The cooldown *)

(** The rows of a policy say it fired at [t] or later. *)
Definition fired (id t : Z) (rows : list AutoHealPolicy) : Prop :=
  forall p, p ∈ rows -> ap_id p = Some id -> t <= ap_last_fired_at p.

(** An edit does not set a policy back; no request can write [last_fired_at]. *)
Definition keepsFired (f : list AutoHealPolicy -> list AutoHealPolicy) : Prop :=
  forall id t rows, fired id t rows -> fired id t (f rows).

Lemma updatePolicy_fired id f : (forall p, ap_id (f p) = ap_id p /\ ap_last_fired_at (f p) = ap_last_fired_at p) ->
  keepsFired (updatePolicy id f).
Proof.
  intros Hf j t rows H p Hp Hid. apply list_elem_of_fmap in Hp as (q & -> & Hq).
  unfold hasId in *. case_bool_decide; [|by apply H]. destruct (Hf q) as [E1 E2]. rewrite E2. apply H; congruence.
Qed.

Lemma fired_now id now rows : fired id now (updatePolicy id (set_last_fired now) rows).
Proof.
  intros p Hp Hid. apply list_elem_of_fmap in Hp as (q & -> & Hq). unfold hasId in *.
  case_bool_decide as E; simpl; [lia|done].
Qed.

Lemma executeHeal_fired p id n c cn s e st :
  keepsFired (ie_policies e) ->
  fired id (ie_now e) (ah_policies (state (executeHeal p id n c cn s e) st)).
Proof.
  intros He. unfold executeHeal, handleAutoDisable. cbv zeta. act_run.
  assert (H0 : fired id (ie_now e) (ie_policies e (updatePolicy id (set_last_fired (ie_now e)) (ah_policies st))))
    by apply He, fired_now.
  destruct (ie_answer e) as [|msg refused]; act_run; [by apply updatePolicy_fired|].
  destruct refused; simpl; act_run; [done|].
  match goal with |- context [when ?b _] => destruct b end; simpl; act_run;
    repeat (apply updatePolicy_fired; [done|]); done.
Qed.

(** The cooldown of a policy covers all of its containers: after it
    restarted one of them, successfully or not, no pass restarts any container
    under it before its cooldown is over, also one that was never restarted. *)
Theorem cooldown_covers_policy p id n c cn s e st st2 e2 cs p2 n2 c2 t2 :
  0 < ie_now e -> keepsFired (ie_policies e) ->
  (forall t, fired id t (ah_policies (state (executeHeal p id n c cn s e) st)) -> fired id t (ah_policies st2)) ->
  ne_listing e2 = inr cs ->
  ERestart p2 n2 c2 t2 ∈ effects (evaluateForNode n (enabledPolicies n (ah_policies st2)) e2) st2 ->
  ap_id p2 = Some id -> ap_cooldown_mins p2 * 60000 <= ne_now e2 - ie_now e.
Proof.
  intros Hnow Hk Hbetween El Hin Hid.
  destruct (heal_is_justified _ _ _ _ _ _ _ _ _ El Hin) as (_ & Hp & _ & _ & _ & _ & _ & _ & _ & (_ & Hc & _)).
  apply list_elem_of_filter in Hp as [_ Hp].
  assert (ie_now e <= ap_last_fired_at p2) by (eapply Hbetween; [by apply executeHeal_fired|done|done]). lia.
Qed.

(** ** Examples *)

Definition ex_policy : AutoHealPolicy := mkPolicyRow (Some 1) 1 "shop" None 1 5 3 5 1 0 0.
Definition ex_container (id service : string) : ContainerInfo :=
  mkContainer id (Some ["/" +:+ id])
    (Some {["com.docker.compose.project" := "shop"; "com.docker.compose.service" := service]})
    (Some "running") (Some "Up 3 minutes (unhealthy)").
Definition ex_event : option ContainerHealthSnapshot := Some (mkSnapshot (Some hs_unhealthy) (Some 1) None None).
Definition ex_item (now : Z) : ItemEnv := mkItem ex_event now RestartOk (fun r => r) (fun m => m).
Definition ex_node (now : Z) (cs : list ContainerInfo) : NodeEnv :=
  mkNodeEnv (inr cs) now (fun _ _ => ex_item (now + 1)) (fun r => r) (fun m => m).
Definition ex_ops : list HealOp := [OpEvaluate [1] (fun _ => ex_node 100000 [ex_container "c1" "web"])].
Definition ex_log : list HealEffect := effects (heal_run ex_ops) (newHeal [ex_policy]).

Lemma ex_log_eq : exists a b c,
  ex_log = [EPass 1 100000 ["c1"]; ERestart ex_policy 1 "c1" 100001; EHistory a; b; c]
  /\ quietEffect b = true /\ quietEffect c = true.
Proof. eexists _, _, _. split; [vm_compute; reflexivity|done]. Qed.

Lemma ex_sane : sane ex_log.
Proof.
  split; [vm_compute; repeat constructor; done|].
  destruct ex_log_eq as (a & b & c & -> & Hb & Hc). intros L1 p n c0 t L2 E (M1 & t' & ids & M2 & EM & Ht & _).
  destruct L1 as [|x1 [|x2 [|x3 [|x4 [|x5 L1]]]]]; simpl in E; simplify_eq; try done.
  - by destruct M1 as [|? [|]].
  - by destruct L1.
Qed.

Lemma hourly_cap_witness : Z.of_nat (length (recent 100001 (times 1 "c1" [EPass 1 100000 ["c1"]]))) + 1 <= 3.
Proof.
  exact (hourly_cap [ex_policy] ex_ops [EPass 1 100000 ["c1"]] ex_policy 1 "c1" 100001
           (drop 2 ex_log) ex_sane eq_refl).
Defined.

Lemma heal_is_justified_witness : healable 100000 (ex_container "c1" "web") ex_event ex_policy.
Proof.
  destruct (heal_is_justified 1 [ex_policy] (ex_node 100000 [ex_container "c1" "web"])
              [ex_container "c1" "web"] (newHeal [ex_policy]) ex_policy 1 "c1" 100001)
    as (_ & _ & id & ci & _ & Hci & _ & _ & _ & H); [reflexivity|vm_compute; right; left|].
  apply list_elem_of_singleton in Hci as ->. exact H.
Defined.

(** The service [web] is suppressed, [db] is not. *)
Definition ex_suppressed : AutoHeal := state (suppress 1 "shop" "web") (newHeal [ex_policy]).
Definition ex_two : list ContainerInfo := [ex_container "c1" "web"; ex_container "c2" "db"].

Lemma suppressed_service_left_alone_witness :
  label "com.docker.compose.service" (ex_container "c2" "db") <> Some "web".
Proof.
  apply (suppressed_service_left_alone 1 "shop" "web" [ex_policy] (ex_node 100000 ex_two) ex_two ex_suppressed
           ex_policy 1 "c2" 100001); [reflexivity|done|apply (bool_decide_unpack _); vm_compute; done|reflexivity
           |done|vm_compute; right; left|reflexivity|right; left|reflexivity].
Defined.

(** [c1] is restarted at 100001 and [c2] only after the cooldown of five minutes. *)
Definition ex_after : AutoHeal :=
  state (executeHeal ex_policy 1 1 "c1" "c1" None (ex_item 100001)) (newHeal [ex_policy]).

Lemma cooldown_covers_policy_witness : 5 * 60000 <= 500000 - 100001.
Proof.
  apply (cooldown_covers_policy ex_policy 1 1 "c1" "c1" None (ex_item 100001) (newHeal [ex_policy])
           ex_after (ex_node 500000 [ex_container "c2" "db"]) [ex_container "c2" "db"]
           (set_last_fired 100001 ex_policy) 1 "c2" 500001);
    [reflexivity|by intros ? ? ? ?|by intros|reflexivity|vm_compute; right; left|reflexivity].
Defined.
