(* ===== verification/GatePoll.v ===== *)
(** * Health gate, one poll (backend/src/services/HealthGateService.ts and
    backend/src/utils/oneShotCompletion.ts)

    What a gate keeps about the containers it observes, and the verdict it draws
    from one poll: [runPollCycle] and [runServicePollCycle] after their reads. The
    evidence of a poll, the declared restart intent and the clock are arguments.
    A [Map] whose order the code iterates is an association list with distinct
    keys; one that is only looked up is a [gmap]. Reasons are kept as data, without
    their wording. *)

From S2P Require Import Prelude HealthPolicy.

(** ** Facts *)

Record StackContainerFact := mkFact {
  cf_id : string;
  cf_name : string;
  cf_service : option string;
  cf_state : string;
  cf_health : option string;
  cf_restartCount : Z;
  cf_startedAt : option string;
  cf_imageId : string;
  cf_exitCode : option Z;
  cf_restartPolicy : option string;
}.

Record ObservedContainer := mkObserved { ob_fact : StackContainerFact; ob_restarts : Z }.

Definition ob_name (c : ObservedContainer) : string := cf_name (ob_fact c).
Definition ob_state (c : ObservedContainer) : string := cf_state (ob_fact c).
Definition ob_service (c : ObservedContainer) : option string := cf_service (ob_fact c).
Definition ob_health (c : ObservedContainer) : option string := cf_health (ob_fact c).
Definition set_restarts (n : Z) (c : ObservedContainer) : ObservedContainer := mkObserved (ob_fact c) n.

Inductive GateRole := primary | collateral.
#[export] Instance GateRole_eq_dec : EqDecision GateRole.
Proof. solve_decision. Defined.

Inductive TargetScope := scope_stack | scope_service.
#[export] Instance TargetScope_eq_dec : EqDecision TargetScope.
Proof. solve_decision. Defined.

Inductive GateTrigger := t_update | t_deploy | t_service_update | t_service_restore | t_recovery | t_rollout.
#[export] Instance GateTrigger_eq_dec : EqDecision GateTrigger.
Proof. solve_decision. Defined.

Definition POLL_INTERVAL_MS : Z := 5000.
Definition EMPTY_GRACE_MS : Z := 15000.
Definition DEFAULT_WINDOW_SECONDS : Z := 90.
Definition MIN_WINDOW_SECONDS : Z := 15.
Definition MAX_WINDOW_SECONDS : Z := 600.
Definition MAX_CONCURRENT_GATES : Z := 25.

(** The declared restart intent by service; [None] when it could not be read. *)
Abbreviation DeclaredIntent := (option (gmap string (option string))).
Abbreviation Tracked := (list (string * ObservedContainer)).

Record ActiveGate := mkGate {
  ga_runId : string;
  ga_nodeId : Z;
  ga_stackName : string;
  ga_windowSeconds : Z;
  ga_startedAt : Z;
  ga_timer : bool;                              (* armed *)
  ga_expected : option Tracked;
  ga_consecutivePollErrors : Z;
  ga_missingLastPoll : gset string;
  ga_restartingLastPoll : gset string;
  ga_finalized : bool;
  ga_targetScope : TargetScope;
  ga_trigger : GateTrigger;
  ga_serviceName : option string;
  ga_expectedImageId : option string;
  ga_expectedReplicas : Z;
  ga_collateralEligibleNames : gset string;
  ga_collateralBaselineByName : Tracked;
  ga_roleByName : gmap string GateRole;
  ga_declaredRestartByService : DeclaredIntent;
  ga_declaredRestartRead : bool;
}.

(** Why an observation ended. *)
Inductive EntryFailure := disappeared | exited_early | reported_unhealthy | restart_looping | stuck_restarting.

Inductive GateReason :=
  | R_container (name : string) (f : EntryFailure)
  | R_declared_intent_unavailable
  | R_not_running (names : list string)
  | R_still_starting
  | R_no_containers
  | R_no_replicas
  | R_unexpected_image (name : string)
  | R_replica_count (satisfied expected : Z)
  | R_siblings_not_running (names : list string)
  | R_docker_unreachable
  | R_node_unreadable
  | R_observation_unsupported
  | R_other (text : string).                    (* supersession, shutdown, restart, operations *)

Record HealthGateContainer := mkSummary {
  hc_name : string;
  hc_state : string;
  hc_health : option string;
  hc_restarts : Z;
  hc_service : option string;                   (* service gates only *)
  hc_role : option GateRole;
}.

(** ** One-shot containers *)

Definition isNoRestartPolicy (policy : option string) : bool := bool_decide (policy = Some "no").

Definition isCleanOneShotCompletion (state : string) (exitCode : option Z) (restartPolicy : option string) : bool :=
  bool_decide (state = "exited") && bool_decide (exitCode = Some 0) && isNoRestartPolicy restartPolicy.

Definition isDeclaredCleanOneShot (declared : DeclaredIntent) (c : ObservedContainer) : bool :=
  match declared, truthy (ob_service c) with
  | Some m, Some service =>
      match m !! service with
      | Some policy => isCleanOneShotCompletion (ob_state c) (cf_exitCode (ob_fact c)) policy
      | None => false
      end
  | _, _ => false
  end.

Definition isObservedContainerSatisfied (declared : DeclaredIntent) (current : option ObservedContainer) : bool :=
  match current with
  | None => false
  | Some c => bool_decide (ob_state c = "running") || isDeclaredCleanOneShot declared c
  end.

Definition ambiguousCleanExit (declared : DeclaredIntent) (current : option ObservedContainer) : bool :=
  match declared, current with
  | None, Some c => bool_decide (ob_state c = "exited") && bool_decide (cf_exitCode (ob_fact c) = Some 0)
  | _, _ => false
  end.

Definition isRegressionEligibleSibling (b : StackContainerFact) : bool :=
  bool_decide (cf_state b = "running")
  && (bool_decide (cf_health b = None) || bool_decide (cf_health b = Some "healthy")).

Definition observedFromPreparedBaseline (b : StackContainerFact) : ObservedContainer := mkObserved b 0.

(** ** Accounting *)

(** [new Map(observed.map(c => [c.name, c]))]: a later entry replaces an earlier
    one of the same name. *)
Definition byNameOf (observed : list ObservedContainer) : gmap string ObservedContainer :=
  list_to_map (reverse ((fun c => (ob_name c, c)) <$> observed)).

Definition restartedSince (current baseline : ObservedContainer) : bool :=
  bool_decide (cf_id (ob_fact current) <> cf_id (ob_fact baseline))
  || (cf_restartCount (ob_fact baseline) <? cf_restartCount (ob_fact current))
  || match cf_startedAt (ob_fact current), cf_startedAt (ob_fact baseline) with
     | Some a, Some b => bool_decide (a <> b)
     | _, _ => false
     end.

Definition account (nb : string * ObservedContainer) (cur : ObservedContainer) : ObservedContainer :=
  set_restarts (ob_restarts nb.2 + (if restartedSince cur nb.2 then 1 else 0)) cur.

(** The first pass: the restarts of every tracked container that is present. *)
Definition accounted (expected : Tracked) (byName : gmap string ObservedContainer)
    : gmap string ObservedContainer :=
  foldl (fun m nb => alter (account nb) nb.1 m) byName expected.

Definition summarize (expected : Tracked) (current : gmap string ObservedContainer) : list HealthGateContainer :=
  (fun nb =>
     match current !! ob_name nb.2 with
     | Some now => mkSummary (ob_name nb.2) (ob_state now) (ob_health now) (ob_restarts now) None None
     | None => mkSummary (ob_name nb.2) "missing" None (ob_restarts nb.2) None None
     end) <$> expected.

(** [a ?? b] *)
Definition orElse {A} (a b : option A) : option A := match a with Some _ => a | None => b end.

Definition summarizeService (g : ActiveGate) (expected : Tracked) (current : gmap string ObservedContainer)
    : list HealthGateContainer :=
  (fun nb =>
     let role := ga_roleByName g !! ob_name nb.2 in
     match current !! ob_name nb.2 with
     | Some now => mkSummary (ob_name nb.2) (ob_state now) (ob_health now) (ob_restarts now)
                     (orElse (ob_service now) (ga_serviceName g)) role
     | None => mkSummary (ob_name nb.2) "missing" None (ob_restarts nb.2)
                 (orElse (ob_service nb.2) (ga_serviceName g)) role
     end) <$> expected.

(** ** The second pass *)

Inductive EntryResult := EFail (f : EntryFailure) | EMissing | EAmbiguous | EOk (restarting : bool).

(** The checks of one tracked container. *)
Definition checkEntry (declared : DeclaredIntent) (wasMissing wasRestarting : bool)
    (baseline : ObservedContainer) (current : option ObservedContainer) : EntryResult :=
  match current with
  | None => if wasMissing then EFail disappeared else EMissing
  | Some c =>
      let cleanOneShot := isDeclaredCleanOneShot declared c in
      if bool_decide (ob_state c = "exited") && (ob_restarts baseline =? ob_restarts c) && negb cleanOneShot then
        if ambiguousCleanExit declared (Some c) then EAmbiguous else EFail exited_early
      else if negb cleanOneShot && bool_decide (ob_health c = Some "unhealthy") then EFail reported_unhealthy
      else if 2 <=? ob_restarts c then EFail restart_looping
      else if bool_decide (ob_state c = "restarting") then
        if wasRestarting then EFail stuck_restarting else EOk true
      else EOk false
  end.

Record PassState := mkPass {
  pa_missing : gset string;
  pa_restarting : gset string;
  pa_expected : Tracked;                        (* the entries done, in order *)
  pa_ambiguous : option string;                 (* the first one held back *)
}.

(** The loop over the tracked containers; [inl] is the one that ends the gate. *)
Fixpoint checkAll (declared : DeclaredIntent) (byName : gmap string ObservedContainer) (es : Tracked)
    (ps : PassState) : (string * EntryFailure) + PassState :=
  match es with
  | [] => inr ps
  | (name, baseline) :: es =>
      let current := byName !! name in
      match checkEntry declared (bool_decide (name ∈ pa_missing ps))
              (bool_decide (name ∈ pa_restarting ps)) baseline current with
      | EFail f => inl (name, f)
      | EMissing =>
          checkAll declared byName es
            (mkPass ({[name]} ∪ pa_missing ps) (pa_restarting ps) (pa_expected ps ++ [(name, baseline)])
               (pa_ambiguous ps))
      | EAmbiguous =>
          checkAll declared byName es
            (mkPass (pa_missing ps ∖ {[name]}) (pa_restarting ps) (pa_expected ps ++ [(name, baseline)])
               (match pa_ambiguous ps with None => Some name | s => s end))
      | EOk restarting =>
          checkAll declared byName es
            (mkPass (pa_missing ps ∖ {[name]})
               (if restarting then {[name]} ∪ pa_restarting ps else pa_restarting ps ∖ {[name]})
               (pa_expected ps ++ [(name, default baseline current)]) (pa_ambiguous ps))
      end
  end.

(** ** Updates of a gate *)

Definition set_tracking (expected : option Tracked) (missing restarting : gset string)
    (roles : gmap string GateRole) (g : ActiveGate) : ActiveGate :=
  mkGate (ga_runId g) (ga_nodeId g) (ga_stackName g) (ga_windowSeconds g) (ga_startedAt g) (ga_timer g)
    expected (ga_consecutivePollErrors g) missing restarting (ga_finalized g) (ga_targetScope g)
    (ga_trigger g) (ga_serviceName g) (ga_expectedImageId g) (ga_expectedReplicas g)
    (ga_collateralEligibleNames g) (ga_collateralBaselineByName g) roles
    (ga_declaredRestartByService g) (ga_declaredRestartRead g).

Definition after_pass (ps : PassState) (g : ActiveGate) : ActiveGate :=
  set_tracking (Some (pa_expected ps)) (pa_missing ps) (pa_restarting ps) (ga_roleByName g) g.

Definition arm (expected : Tracked) (roles : gmap string GateRole) (g : ActiveGate) : ActiveGate :=
  set_tracking (Some expected) (ga_missingLastPoll g) (ga_restartingLastPoll g) roles g.

Definition start_pass (g : ActiveGate) : PassState :=
  mkPass (ga_missingLastPoll g) (ga_restartingLastPoll g) [] None.

(** What a poll does to its gate. *)
Inductive PollOutcome :=
  | Keep (g : ActiveGate)
  | Final (status : HealthVerdict) (reason : option GateReason) (summary : list HealthGateContainer)
      (source : option GateRole).

(** ** [runPollCycle], after its reads *)

Definition windowOver (g : ActiveGate) (elapsedMs : Z) : bool := ga_windowSeconds g * 1000 <=? elapsedMs.

(** [new Map(observed.map(c => [c.name, c]))] as the tracked set: the first place
    of a name with its last value. *)
Definition trackedOf (observed : list ObservedContainer) : Tracked :=
  omap (fun name => (pair name) <$> byNameOf observed !! name) (reverse (remove_dups (reverse (ob_name <$> observed)))).

Definition stackPoll (g : ActiveGate) (observed : list ObservedContainer) (elapsedMs : Z) : PollOutcome :=
  let declared := ga_declaredRestartByService g in
  match ga_expected g with
  | None =>
      if bool_decide (observed <> []) then Keep (arm (trackedOf observed) (ga_roleByName g) g)
      else if EMPTY_GRACE_MS <=? elapsedMs then Final unknown (Some R_no_containers) [] None
      else Keep g
  | Some expected =>
      let byName := accounted expected (byNameOf observed) in
      let summary := summarize expected byName in
      match checkAll declared byName expected (start_pass g) with
      | inl (name, f) => Final failed (Some (R_container name f)) summary None
      | inr ps =>
          if bool_decide (is_Some (pa_ambiguous ps)) && negb (windowOver g elapsedMs) then
            Final unknown (Some R_declared_intent_unavailable) summary None
          else if negb (windowOver g elapsedMs) then Keep (after_pass ps g)
          else
            let notRunning := List.filter (fun name => negb (isObservedContainerSatisfied declared (byName !! name)))
                                (pa_expected ps).*1 in
            if bool_decide (notRunning <> []) then
              if forallb (fun name => ambiguousCleanExit declared (byName !! name)) notRunning
              then Final unknown (Some R_declared_intent_unavailable) summary None
              else Final failed (Some (R_not_running notRunning)) summary None
            else if existsb (fun c => bool_decide (ob_health c = Some "starting")
                                      && negb (isDeclaredCleanOneShot declared c)) observed
            then Final unknown (Some R_still_starting) summary None
            else Final passed None summary None
      end
  end.

(** ** [runServicePollCycle], after its reads *)

(** The tracked set of a service gate, and the role of each of its members. *)
Definition armService (g : ActiveGate) (observed : list ObservedContainer) : Tracked * gmap string GateRole :=
  let serviceName := default "" (ga_serviceName g) in
  let set_entry (e : string * ObservedContainer) (acc : Tracked * gmap string GateRole) (role : GateRole) :=
    (* [Map.set]: the place of an entry that exists, the end otherwise *)
    (if bool_decide (e.1 ∈ acc.1.*1)
     then (fun x => if bool_decide (x.1 = e.1) then e else x) <$> acc.1 else acc.1 ++ [e],
     <[e.1 := role]> acc.2) in
  let acc := foldl (fun acc c => set_entry (ob_name c, c) acc primary) ([], ga_roleByName g)
               (List.filter (fun c => bool_decide (ob_service c = Some serviceName)) observed) in
  let acc := foldl (fun acc nb =>
               if bool_decide (is_Some (acc.2 !! nb.1)) then acc
               else set_entry (nb.1, default nb.2 (byNameOf observed !! nb.1)) acc collateral)
               acc (ga_collateralBaselineByName g) in
  foldl (fun acc c =>
    if bool_decide (ob_name c ∈ ga_collateralEligibleNames g) && negb (bool_decide (is_Some (acc.2 !! ob_name c)))
    then set_entry (ob_name c, c) acc collateral else acc) acc observed.

(** [gate.roleByName.get(name) ?? 'collateral'] *)
Definition roleOf (g : ActiveGate) (name : string) : GateRole := default collateral (ga_roleByName g !! name).

Definition isReplica (g : ActiveGate) (c : ObservedContainer) : bool :=
  bool_decide (ob_service c = Some (default "" (ga_serviceName g))).

(** The replicas a window end accounts for: the tracked primaries, then the
    replicas it never tracked. *)
Definition replicas (g : ActiveGate) (expected : Tracked) (byName : gmap string ObservedContainer)
    (observed : list ObservedContainer) : list (string * option ObservedContainer) :=
  if 0 <? ga_expectedReplicas g then
    ((fun name => (name, byName !! name)) <$>
       List.filter (fun name => bool_decide (ga_roleByName g !! name = Some primary)) expected.*1)
    ++ ((fun nc => (nc.1, Some nc.2)) <$>
          trackedOf (List.filter (fun c => isReplica g c && negb (bool_decide (ob_name c ∈ expected.*1))) observed))
  else [].

(** The end of the window of a service gate. *)
Definition serviceWindowEnd (g : ActiveGate) (expected : Tracked) (byName : gmap string ObservedContainer)
    (observed : list ObservedContainer) (summary : list HealthGateContainer) : PollOutcome :=
  let declared := ga_declaredRestartByService g in
  let unsatisfiedReplicas := List.filter (fun nc => negb (isObservedContainerSatisfied declared nc.2))
                               (replicas g expected byName observed) in
  let definiteReplicas := List.filter (fun nc => negb (ambiguousCleanExit declared nc.2)) unsatisfiedReplicas in
  let collateralNotRunning :=
    List.filter (fun name => negb (isObservedContainerSatisfied declared (byName !! name)))
      (List.filter (fun name => bool_decide (ga_roleByName g !! name = Some collateral)) expected.*1) in
  let definiteCollateral :=
    List.filter (fun name => negb (ambiguousCleanExit declared (byName !! name))) collateralNotRunning in
  let satisfiedReplicas :=
    Z.of_nat (length (List.filter (fun c => isReplica g c && isObservedContainerSatisfied declared (Some c)) observed)) in
  let replicaDeficit := ga_expectedReplicas g - satisfiedReplicas in
  if bool_decide (definiteReplicas <> []) then
    Final failed (Some (if satisfiedReplicas =? ga_expectedReplicas g then R_not_running definiteReplicas.*1
                        else R_replica_count satisfiedReplicas (ga_expectedReplicas g))) summary (Some primary)
  else if bool_decide (definiteCollateral <> []) then
    Final failed (Some (R_siblings_not_running definiteCollateral)) summary (Some collateral)
  else if (0 <? replicaDeficit) && (replicaDeficit <=? Z.of_nat (length unsatisfiedReplicas)) then
    Final unknown (Some R_declared_intent_unavailable) summary (Some primary)
  else if negb (satisfiedReplicas =? ga_expectedReplicas g) then
    Final failed (Some (R_replica_count satisfiedReplicas (ga_expectedReplicas g))) summary (Some primary)
  else if bool_decide (unsatisfiedReplicas <> []) then
    Final unknown (Some R_declared_intent_unavailable) summary (Some primary)
  else if bool_decide (collateralNotRunning <> []) then
    Final unknown (Some R_declared_intent_unavailable) summary (Some collateral)
  else if existsb (fun c => bool_decide (ob_health c = Some "starting") && negb (isDeclaredCleanOneShot declared c)
                            && (isReplica g c || bool_decide (ob_name c ∈ ga_collateralEligibleNames g))) observed
  then Final unknown (Some R_still_starting) summary None
  else Final passed None summary None.

Definition servicePoll (g : ActiveGate) (observed : list ObservedContainer) (elapsedMs : Z) : PollOutcome :=
  let declared := ga_declaredRestartByService g in
  match ga_expected g with
  | None =>
      let primaries := List.filter (isReplica g) observed in
      if (0 <? ga_expectedReplicas g) && bool_decide (primaries = []) then
        if EMPTY_GRACE_MS <=? elapsedMs then Final failed (Some R_no_replicas) [] (Some primary) else Keep g
      else let '(expected, roles) := armService g observed in Keep (arm expected roles g)
  | Some expected =>
      let byName := accounted expected (byNameOf observed) in
      let summary := summarizeService g expected byName in
      let wrongImage :=
        match truthy (ga_expectedImageId g) with
        | Some image => List.find (fun c => isReplica g c && negb (bool_decide (cf_imageId (ob_fact c) = ""))
                                            && negb (bool_decide (cf_imageId (ob_fact c) = image))) observed
        | None => None
        end in
      match wrongImage with
      | Some c => Final failed (Some (R_unexpected_image (ob_name c))) summary (Some primary)
      | None =>
          match checkAll declared byName expected (start_pass g) with
          | inl (name, f) => Final failed (Some (R_container name f)) summary (Some (roleOf g name))
          | inr ps =>
              let untracked := List.find (fun c => isReplica g c && negb (bool_decide (ob_name c ∈ (pa_expected ps).*1))
                                           && bool_decide (ob_state c = "running")
                                           && bool_decide (ob_health c = Some "unhealthy")) observed in
              match untracked with
              | Some c => Final failed (Some (R_container (ob_name c) reported_unhealthy)) summary (Some primary)
              | None =>
                  match pa_ambiguous ps with
                  | Some name =>
                      if negb (windowOver g elapsedMs) then
                        Final unknown (Some R_declared_intent_unavailable) summary (Some (roleOf g name))
                      else serviceWindowEnd g (pa_expected ps) byName observed summary
                  | None =>
                      if negb (windowOver g elapsedMs) then Keep (after_pass ps g)
                      else serviceWindowEnd g (pa_expected ps) byName observed summary
                  end
              end
          end
      end
  end.

(** ** Accounting, by name *)

Lemma accounted_notin es m name : name ∉ es.*1 -> accounted es m !! name = m !! name.
Proof.
  unfold accounted. revert m. induction es as [|[n b] es IH]; intros m Hn; simpl in *; [done|].
  rewrite IH by set_solver. apply lookup_alter_ne. set_solver.
Qed.

Lemma accounted_in es m name b :
  NoDup es.*1 -> (name, b) ∈ es -> accounted es m !! name = account (name, b) <$> m !! name.
Proof.
  unfold accounted. revert m. induction es as [|[n b'] es IH]; intros m Hnd Hin; simpl in *; [set_solver|].
  apply NoDup_cons in Hnd as [Hni Hnd]. apply elem_of_cons in Hin as [[= <- <-]|Hin].
  - pose proof (accounted_notin es (alter (account (name, b)) name m) name Hni) as H.
    unfold accounted in H. rewrite H. apply lookup_alter_eq.
  - rewrite IH by done. rewrite lookup_alter_ne; [done|]. intros ->. apply Hni.
    apply list_elem_of_fmap. by exists (name, b).
Qed.

Lemma accounted_perm es es' m : NoDup es.*1 -> es ≡ₚ es' -> accounted es m = accounted es' m.
Proof.
  intros Hnd Hp. assert (Hnd' : NoDup es'.*1) by by rewrite <- Hp.
  apply map_eq. intros name. destruct (decide (name ∈ es.*1)) as [Hin|Hni].
  - apply list_elem_of_fmap in Hin as ([n b] & -> & Hin). simpl.
    rewrite (accounted_in es m n b) by done. symmetry. apply accounted_in; [done|]. by rewrite <- Hp.
  - rewrite !accounted_notin; [done| |done]. by rewrite <- Hp.
Qed.

Lemma byNameOf_perm l l' : NoDup (ob_name <$> l) -> l ≡ₚ l' -> byNameOf l = byNameOf l'.
Proof.
  intros Hnd Hp. unfold byNameOf. apply list_to_map_proper.
  - rewrite fmap_reverse, <- list_fmap_compose. by rewrite reverse_Permutation.
  - by rewrite !reverse_Permutation, Hp.
Qed.

(** ** The second pass, entry by entry *)

Section pass.
Context (declared : DeclaredIntent) (byName : gmap string ObservedContainer) (missing restarting : gset string).

(** The checks of a tracked container with the sets of the last poll. *)
Definition entry (nb : string * ObservedContainer) : EntryResult :=
  checkEntry declared (bool_decide (nb.1 ∈ missing)) (bool_decide (nb.1 ∈ restarting)) nb.2 (byName !! nb.1).

Definition fails (nb : string * ObservedContainer) : bool :=
  match entry nb with EFail _ => true | _ => false end.
Definition heldBack (nb : string * ObservedContainer) : bool :=
  match entry nb with EAmbiguous => true | _ => false end.

(** The sets of a pass agree with the last poll on the entries still to come. *)
Definition pristine (es : Tracked) (ps : PassState) : Prop :=
  forall name, name ∈ es.*1 ->
    (name ∈ pa_missing ps <-> name ∈ missing) /\ (name ∈ pa_restarting ps <-> name ∈ restarting).

Lemma checkAll_spec es ps :
  NoDup es.*1 -> pristine es ps ->
  match checkAll declared byName es ps with
  | inl (name, f) => exists b, (name, b) ∈ es /\ entry (name, b) = EFail f
  | inr ps' =>
      existsb fails es = false
      /\ (pa_expected ps').*1 = (pa_expected ps).*1 ++ es.*1
      /\ bool_decide (is_Some (pa_ambiguous ps')) = bool_decide (is_Some (pa_ambiguous ps)) || existsb heldBack es
  end.
Proof.
  revert ps. induction es as [|[name b] es IH]; intros ps Hnd Hpr; simpl in *.
  { rewrite app_nil_r, orb_false_r. done. }
  apply NoDup_cons in Hnd as [Hni Hnd]. destruct (Hpr name ltac:(simpl; set_solver)) as [Hm Hr].
  assert (He : checkEntry declared (bool_decide (name ∈ pa_missing ps)) (bool_decide (name ∈ pa_restarting ps))
                 b (byName !! name) = entry (name, b)).
  { unfold entry. simpl. by rewrite (bool_decide_ext _ _ Hm), (bool_decide_ext _ _ Hr). }
  assert (Hp' : forall m r x a, (forall n, n <> name -> (n ∈ m <-> n ∈ pa_missing ps)) ->
            (forall n, n <> name -> (n ∈ r <-> n ∈ pa_restarting ps)) -> pristine es (mkPass m r x a)).
  { intros m r x a H1 H2 n Hn. assert (n <> name) by (intros ->; done). simpl.
    destruct (Hpr n ltac:(simpl; set_solver)). rewrite H1, H2 by done. done. }
  rewrite He. unfold fails at 1, heldBack at 1. destruct (entry (name, b)) as [f| | |rs] eqn:Ee.
  - exists b. split; [set_solver|done].
  - specialize (IH (mkPass ({[name]} ∪ pa_missing ps) (pa_restarting ps)
      (pa_expected ps ++ [(name, b)]) (pa_ambiguous ps)) Hnd ltac:(apply Hp'; set_solver)).
    destruct (checkAll _ _ _ _) as [[n f]|ps']; [set_solver|]. simpl in *.
    rewrite fmap_app, <- app_assoc in IH. done.
  - specialize (IH (mkPass (pa_missing ps ∖ {[name]}) (pa_restarting ps) (pa_expected ps ++ [(name, b)])
      (match pa_ambiguous ps with None => Some name | s => s end)) Hnd ltac:(apply Hp'; set_solver)).
    destruct (checkAll _ _ _ _) as [[n f]|ps']; [set_solver|]. simpl in *.
    rewrite fmap_app, <- app_assoc in IH. destruct IH as (H1 & H2 & H3). split_and!; [done|done|].
    rewrite H3, orb_true_r. destruct (pa_ambiguous ps); by rewrite bool_decide_true.
  - specialize (IH (mkPass (pa_missing ps ∖ {[name]})
      (if rs then {[name]} ∪ pa_restarting ps else pa_restarting ps ∖ {[name]})
      (pa_expected ps ++ [(name, default b (byName !! name))]) (pa_ambiguous ps)) Hnd
      ltac:(apply Hp'; destruct rs; set_solver)).
    destruct (checkAll _ _ _ _) as [[n f]|ps']; [set_solver|]. simpl in *.
    rewrite fmap_app, <- app_assoc in IH. done.
Qed.
End pass.

Definition entryOf (g : ActiveGate) (byName : gmap string ObservedContainer) : string * ObservedContainer -> EntryResult :=
  entry (ga_declaredRestartByService g) byName (ga_missingLastPoll g) (ga_restartingLastPoll g).
Definition failsIn (g : ActiveGate) (byName : gmap string ObservedContainer) : string * ObservedContainer -> bool :=
  fails (ga_declaredRestartByService g) byName (ga_missingLastPoll g) (ga_restartingLastPoll g).
Definition heldIn (g : ActiveGate) (byName : gmap string ObservedContainer) : string * ObservedContainer -> bool :=
  heldBack (ga_declaredRestartByService g) byName (ga_missingLastPoll g) (ga_restartingLastPoll g).

Lemma pass_spec g byName es :
  NoDup es.*1 ->
  match checkAll (ga_declaredRestartByService g) byName es (start_pass g) with
  | inl (name, f) => exists b, (name, b) ∈ es /\ entryOf g byName (name, b) = EFail f
  | inr ps => existsb (failsIn g byName) es = false /\ (pa_expected ps).*1 = es.*1
              /\ bool_decide (is_Some (pa_ambiguous ps)) = existsb (heldIn g byName) es
  end.
Proof.
  intros Hnd. apply (checkAll_spec _ _ (ga_missingLastPoll g) (ga_restartingLastPoll g) es (start_pass g)); [done|].
  done.
Qed.

Lemma entry_fails g byName es name b f :
  (name, b) ∈ es -> entryOf g byName (name, b) = EFail f -> existsb (failsIn g byName) es = true.
Proof.
  intros Hin E. apply existsb_exists. exists (name, b). split; [by apply list_elem_of_In|].
  unfold failsIn, fails. unfold entryOf in E. by rewrite E.
Qed.

Definition verdictOf (o : PollOutcome) : option HealthVerdict :=
  match o with Keep _ => None | Final v _ _ _ => Some v end.

(** A healthcheck that has not finished starting. *)
Definition starting (declared : DeclaredIntent) (c : ObservedContainer) : bool :=
  bool_decide (ob_health c = Some "starting") && negb (isDeclaredCleanOneShot declared c).

(** The verdict of a poll of a stack gate, without its loops. *)
Definition stackVerdict (g : ActiveGate) (expected : Tracked) (observed : list ObservedContainer) (elapsedMs : Z)
    : option HealthVerdict :=
  let declared := ga_declaredRestartByService g in
  let byName := accounted expected (byNameOf observed) in
  let ok nb := isObservedContainerSatisfied declared (byName !! nb.1) in
  let excused nb := ok nb || ambiguousCleanExit declared (byName !! nb.1) in
  if existsb (failsIn g byName) expected then Some failed
  else if negb (windowOver g elapsedMs) then
    if existsb (heldIn g byName) expected then Some unknown else None
  else if forallb ok expected then if existsb (starting declared) observed then Some unknown else Some passed
  else if forallb excused expected then Some unknown else Some failed.

Lemma filter_nil_forallb {A} (f : A -> bool) (l : list A) :
  List.filter (fun x => negb (f x)) l = [] <-> forallb f l = true.
Proof. induction l as [|x l IH]; simpl; [done|]. by destruct (f x). Qed.

Lemma forallb_filter {A} (f h : A -> bool) (l : list A) :
  forallb h (List.filter (fun x => negb (f x)) l) = forallb (fun x => f x || h x) l.
Proof. induction l as [|x l IH]; simpl; [done|]. destruct (f x); simpl; by rewrite IH. Qed.

Lemma forallb_fst (f : string -> bool) (es : Tracked) : forallb f es.*1 = forallb (fun nb => f nb.1) es.
Proof. induction es as [|[n b] es IH]; [done|]. exact (f_equal (andb (f n)) IH). Qed.

Lemma stackPoll_verdict g expected observed elapsedMs :
  ga_expected g = Some expected -> NoDup expected.*1 ->
  verdictOf (stackPoll g observed elapsedMs) = stackVerdict g expected observed elapsedMs.
Proof.
  intros He Hnd. unfold stackPoll, stackVerdict. rewrite He. cbv zeta.
  set (byName := accounted expected (byNameOf observed)).
  pose proof (pass_spec g byName expected Hnd) as Hp.
  destruct (checkAll _ _ _ _) as [[name f]|ps].
  { destruct Hp as (b & Hin & E). by rewrite (entry_fails g byName expected name b f). }
  destruct Hp as (-> & Hx & Ha). rewrite Hx, Ha.
  destruct (windowOver g elapsedMs); simpl; [rewrite andb_false_r|rewrite andb_true_r; by destruct (existsb _ _)].
  simpl. rewrite forallb_filter, !forallb_fst.
  destruct (forallb (fun nb => isObservedContainerSatisfied _ _) expected) eqn:Eall.
  - rewrite bool_decide_false; [unfold starting; by case_match|].
    intros Hn. apply Hn, filter_nil_forallb. by rewrite forallb_fst.
  - rewrite bool_decide_true; [by case_match|].
    intros Hn. apply filter_nil_forallb in Hn. rewrite forallb_fst in Hn. congruence.
Qed.


Lemma existsb_perm {A} (f : A -> bool) (l l' : list A) : l ≡ₚ l' -> existsb f l = existsb f l'.
Proof.
  induction 1 as [|x l l' _ IH|x y l|l1 l2 l3 _ IH1 _ IH2]; simpl; [done|by rewrite IH| |congruence].
  by destruct (f x), (f y).
Qed.
Lemma forallb_perm {A} (f : A -> bool) (l l' : list A) : l ≡ₚ l' -> forallb f l = forallb f l'.
Proof.
  induction 1 as [|x l l' _ IH|x y l|l1 l2 l3 _ IH1 _ IH2]; simpl; [done|by rewrite IH| |congruence].
  by destruct (f x), (f y).
Qed.

Lemma stackVerdict_perm g es es' obs obs' elapsedMs :
  NoDup es.*1 -> NoDup (ob_name <$> obs) -> es ≡ₚ es' -> obs ≡ₚ obs' ->
  stackVerdict g es obs elapsedMs = stackVerdict g es' obs' elapsedMs.
Proof.
  intros H1 H2 He Ho. unfold stackVerdict. cbv zeta.
  rewrite (byNameOf_perm obs obs' H2 Ho), (accounted_perm es es' _ H1 He).
  rewrite !(existsb_perm _ es es' He), !(forallb_perm _ es es' He), (existsb_perm _ obs obs' Ho). done.
Qed.

(** the order in which Docker lists the containers, and the order in which
    the gate tracks them, never decide between two verdicts. *)
Theorem listing_order_never_decides g es es' obs obs' elapsedMs :
  NoDup es.*1 -> NoDup (ob_name <$> obs) -> es ≡ₚ es' -> obs ≡ₚ obs' ->
  let at_ es := set_tracking (Some es) (ga_missingLastPoll g) (ga_restartingLastPoll g) (ga_roleByName g) g in
  verdictOf (stackPoll (at_ es) obs elapsedMs) = verdictOf (stackPoll (at_ es') obs' elapsedMs).
Proof.
  intros H1 H2 He Ho at_. assert (Hnd' : NoDup es'.*1) by by rewrite <- He.
  rewrite (stackPoll_verdict (at_ es) es), (stackPoll_verdict (at_ es') es') by done.
  change (stackVerdict g es obs elapsedMs = stackVerdict g es' obs' elapsedMs). by apply stackVerdict_perm.
Qed.

(** ** Service gates *)

Lemma nonempty_false {A} (l : list A) `{!Decision (l <> [])} : bool_decide (l <> []) = false -> l = [].
Proof. intros H. apply bool_decide_eq_false in H. destruct l; [done|]. exfalso. by apply H. Qed.

(** What the end of the window of a service gate asks for a pass. *)
Record ServiceHealthy (g : ActiveGate) (expected : Tracked) (byName : gmap string ObservedContainer)
    (observed : list ObservedContainer) : Prop := {
  sh_replicas : Forall (fun nc => isObservedContainerSatisfied (ga_declaredRestartByService g) nc.2 = true)
                  (replicas g expected byName observed);
  sh_siblings : forall name, name ∈ expected.*1 -> ga_roleByName g !! name = Some collateral ->
    isObservedContainerSatisfied (ga_declaredRestartByService g) (byName !! name) = true;
  sh_count : Z.of_nat (length (List.filter (fun c => isReplica g c
               && isObservedContainerSatisfied (ga_declaredRestartByService g) (Some c)) observed))
             = ga_expectedReplicas g;
  sh_started : forall c, c ∈ observed -> isReplica g c = true -> starting (ga_declaredRestartByService g) c = false;
}.

Lemma serviceWindowEnd_passed g expected byName observed summary :
  verdictOf (serviceWindowEnd g expected byName observed summary) = Some passed ->
  ServiceHealthy g expected byName observed.
Proof.
  unfold serviceWindowEnd. cbv zeta.
  case_match; [done|]. case_match; [done|]. case_match; [done|]. case_match eqn:Ec; [done|].
  case_match eqn:Eu; [done|]. case_match eqn:Es; [done|]. case_match eqn:Et; [done|]. intros _.
  apply nonempty_false, filter_nil_forallb in Eu. apply nonempty_false, filter_nil_forallb in Es. split.
  - apply Forall_forall. intros x Hx. rewrite forallb_forall in Eu. by apply Eu, list_elem_of_In.
  - intros name Hn Hr. rewrite forallb_forall in Es. apply Es, filter_In. rewrite bool_decide_true by done.
    split; [by apply list_elem_of_In|done].
  - by apply negb_false_iff, Z.eqb_eq in Ec.
  - intros c Hc Hrep. apply not_true_is_false. intros Hst. apply not_true_iff_false in Et. apply Et.
    apply existsb_exists. exists c. split; [by apply list_elem_of_In|]. unfold starting in Hst.
    by rewrite Hst, Hrep.
Qed.

Lemma replicas_tracked g expected byName observed name :
  0 < ga_expectedReplicas g -> name ∈ expected.*1 -> ga_roleByName g !! name = Some primary ->
  (name, byName !! name) ∈ replicas g expected byName observed.
Proof.
  intros Hp Hn Hr. unfold replicas. rewrite (proj2 (Z.ltb_lt _ _) Hp). apply elem_of_app. left.
  apply list_elem_of_fmap. exists name. split; [done|]. apply list_elem_of_In, filter_In.
  split; [by apply list_elem_of_In|]. by apply bool_decide_eq_true.
Qed.

Lemma entry_checked g byName es name b :
  existsb (failsIn g byName) es = false -> (name, b) ∈ es ->
  isObservedContainerSatisfied (ga_declaredRestartByService g) (byName !! name) = true ->
  exists c, byName !! name = Some c /\ ob_restarts c < 2
    /\ (isDeclaredCleanOneShot (ga_declaredRestartByService g) c = false ->
          ob_state c = "running" /\ ob_health c <> Some "unhealthy").
Proof.
  intros Hf Hin Hs. assert (Hn : failsIn g byName (name, b) = false).
  { apply not_true_is_false. intros E. apply not_true_iff_false in Hf. apply Hf, existsb_exists.
    exists (name, b). split; [by apply list_elem_of_In|done]. }
  unfold failsIn, fails, entry in Hn. simpl in *. destruct (byName !! name) as [c|]; [|done].
  exists c. split; [done|]. unfold checkEntry in Hn. simpl in Hs.
  destruct (isDeclaredCleanOneShot _ c) eqn:Eo; simpl in *.
  - rewrite andb_false_r in Hn. simpl in Hn. destruct (2 <=? ob_restarts c) eqn:E2; [done|].
    split; [zlia|done].
  - rewrite orb_false_r in Hs. apply bool_decide_eq_true in Hs. rewrite Hs in Hn. simpl in Hn.
    case_bool_decide as Eh; [done|]. destruct (2 <=? ob_restarts c) eqn:E2; [done|]. split; [zlia|done].
Qed.

(** a service gate passes only on a healthy service: the window is over, as
    many replicas as declared are up and none of the replicas the gate saw is
    unaccounted for, none of them runs another image than the expected one, and
    every tracked replica and sibling is running, not unhealthy and not
    restarting in a loop, or completed as declared. *)
Theorem service_pass_sound g expected observed elapsedMs :
  ga_expected g = Some expected -> NoDup expected.*1 ->
  (forall name, name ∈ expected.*1 -> is_Some (ga_roleByName g !! name)) -> 0 < ga_expectedReplicas g ->
  verdictOf (servicePoll g observed elapsedMs) = Some passed ->
  let byName := accounted expected (byNameOf observed) in
  windowOver g elapsedMs = true
  /\ Z.of_nat (length (List.filter (fun c => isReplica g c
       && isObservedContainerSatisfied (ga_declaredRestartByService g) (Some c)) observed)) = ga_expectedReplicas g
  /\ Forall (fun nc => isObservedContainerSatisfied (ga_declaredRestartByService g) nc.2 = true)
       (replicas g expected byName observed)
  /\ (forall image c, truthy (ga_expectedImageId g) = Some image -> c ∈ observed -> isReplica g c = true ->
        cf_imageId (ob_fact c) = "" \/ cf_imageId (ob_fact c) = image)
  /\ (forall name b, (name, b) ∈ expected ->
        exists c, byName !! name = Some c /\ ob_restarts c < 2
          /\ (isDeclaredCleanOneShot (ga_declaredRestartByService g) c = false ->
                ob_state c = "running" /\ ob_health c <> Some "unhealthy")).
Proof.
  intros He Hnd Hroles Hpos. unfold servicePoll. rewrite He. cbv zeta.
  set (byName := accounted expected (byNameOf observed)).
  destruct (match truthy (ga_expectedImageId g) with Some _ => _ | None => _ end) eqn:Ew; [done|].
  pose proof (pass_spec g byName expected Hnd) as Hp. destruct (checkAll _ _ _ _) as [[name f]|ps]; [done|].
  destruct Hp as (Hf & Hx & _). destruct (List.find _ _); [done|].
  assert (Hend : forall o, verdictOf (match o with
      | Some name => if negb (windowOver g elapsedMs)
          then Final unknown (Some R_declared_intent_unavailable) (summarizeService g expected byName) (Some (roleOf g name))
          else serviceWindowEnd g (pa_expected ps) byName observed (summarizeService g expected byName)
      | None => if negb (windowOver g elapsedMs) then Keep (after_pass ps g)
          else serviceWindowEnd g (pa_expected ps) byName observed (summarizeService g expected byName)
      end) = Some passed ->
    windowOver g elapsedMs = true /\ verdictOf (serviceWindowEnd g (pa_expected ps) byName observed
      (summarizeService g expected byName)) = Some passed).
  { intros []; by destruct (windowOver g elapsedMs). }
  intros [Hw Hv]%Hend. apply serviceWindowEnd_passed in Hv as [H1 H2 H3 _].
  assert (replicas g (pa_expected ps) byName observed = replicas g expected byName observed) as Er
    by (unfold replicas; by rewrite Hx).
  rewrite Er in H1. split_and!; [done|done|done| |].
  - intros image c Hi Hc Hrep. rewrite Hi in Ew.
    pose proof (List.find_none _ _ Ew c ltac:(by apply list_elem_of_In)) as Hn.
    cbv beta in Hn. rewrite Hrep in Hn. simpl in Hn. apply andb_false_iff in Hn as [Hn|Hn];
      apply negb_false_iff, bool_decide_eq_true in Hn; auto.
  - intros name b Hin. assert (Hn : name ∈ expected.*1) by (apply list_elem_of_fmap; by exists (name, b)).
    eapply entry_checked; [done|done|]. destruct (Hroles name Hn) as [[] Hr].
    + rewrite Forall_forall in H1. by apply (H1 _ (replicas_tracked g expected byName observed name Hpos Hn Hr)).
    + apply H2; [|done]. by rewrite Hx.
Qed.

(** ** The end of a window *)

(** Once the window is over an armed gate is decided by its next poll. *)
Lemma stackPoll_decides g expected observed elapsedMs :
  ga_expected g = Some expected -> windowOver g elapsedMs = true ->
  exists v, verdictOf (stackPoll g observed elapsedMs) = Some v.
Proof.
  intros He Hw. unfold stackPoll. rewrite He, Hw. cbv zeta. destruct (checkAll _ _ _ _) as [[]|ps]; [by eauto|].
  simpl. rewrite andb_false_r. repeat case_match; eauto.
Qed.

Lemma servicePoll_decides g expected observed elapsedMs :
  ga_expected g = Some expected -> windowOver g elapsedMs = true ->
  exists v, verdictOf (servicePoll g observed elapsedMs) = Some v.
Proof.
  intros He Hw. unfold servicePoll. rewrite He, Hw. cbv zeta.
  destruct (match truthy (ga_expectedImageId g) with Some _ => _ | None => _ end); [by eauto|].
  destruct (checkAll _ _ _ _) as [[]|ps]; [by eauto|]. destruct (List.find _ _); [by eauto|].
  destruct (pa_ambiguous ps); simpl; unfold serviceWindowEnd; repeat case_match; eauto.
Qed.

(** ** Witnesses *)

Definition ex_up (name service : string) : ObservedContainer :=
  mkObserved (mkFact name name (Some service) "running" None 0 None "img" None None) 0.
Definition ex_watch (es : Tracked) : ActiveGate :=
  mkGate "r1" 1 "shop" 90 0 true (Some es) 0 ∅ ∅ false scope_stack t_update None None 0 ∅ [] ∅ None true.
Definition ex_es : Tracked := [("a", ex_up "a" "web"); ("b", ex_up "b" "db")].


Lemma listing_order_never_decides_witness :
  verdictOf (stackPoll (ex_watch ex_es) [ex_up "a" "web"; ex_up "b" "db"] 90000)
  = verdictOf (stackPoll (ex_watch (reverse ex_es)) [ex_up "b" "db"; ex_up "a" "web"] 90000).
Proof.
  apply (listing_order_never_decides (ex_watch ex_es) ex_es (reverse ex_es)).
  - apply (bool_decide_unpack _). vm_compute. done.
  - apply (bool_decide_unpack _). vm_compute. done.
  - symmetry. apply reverse_Permutation.
  - apply Permutation_swap.
Defined.

Definition ex_service_watch : ActiveGate :=
  mkGate "r1" 1 "shop" 90 0 true (Some ex_es) 0 ∅ ∅ false scope_service t_service_update (Some "web") (Some "img") 1
    {["b"]} [("b", ex_up "b" "db")] {["a" := primary; "b" := collateral]} None true.

Lemma service_pass_sound_witness : windowOver ex_service_watch 90000 = true.
Proof.
  apply (service_pass_sound ex_service_watch ex_es [ex_up "a" "web"; ex_up "b" "db"] 90000).
  - reflexivity.
  - apply (bool_decide_unpack _). vm_compute. done.
  - intros name Hn. apply elem_of_cons in Hn as [->|Hn]; [by eexists|].
    apply elem_of_cons in Hn as [->|Hn]; [by eexists|]. by apply elem_of_nil in Hn.
  - done.
  - vm_compute. reflexivity.
Defined.

(** [restartingLastPoll] is not the last poll: a container that is seen
    restarting, then missing, then restarting again fails as stuck, although the
    poll before the last saw no such container restarting. *)
Lemma stuck_after_a_gap :
  let again := mkObserved (mkFact "a" "a" (Some "web") "restarting" None 0 None "img" None None) 0 in
  exists g1 g2, stackPoll (ex_watch ex_es) [again; ex_up "b" "db"] 5000 = Keep g1
    /\ stackPoll g1 [ex_up "b" "db"] 10000 = Keep g2
    /\ exists summary, stackPoll g2 [again; ex_up "b" "db"] 15000
                       = Final failed (Some (R_container "a" stuck_restarting)) summary None.
Proof. do 2 eexists. split; [vm_compute; reflexivity|]. split; [vm_compute; reflexivity|]. eexists. vm_compute. reflexivity. Qed.
