(* ===== verification/HealthGate.v ===== *)
(** * Health gate service (backend/src/services/HealthGateService.ts)

    The gates in flight, the prepare tokens, the rows of [health_gate_runs], and
    the operations on them: the begin paths, supersession and container
    operations, the polls with their two reads, and [finalize]. A poll is split at
    its awaits: the read of the evidence and the one read of the declared intent.

    The [ActiveGate] objects live in a heap by run id (a fresh UUID each), and
    [active] refers to them, so that a poll that resumes after its gate was
    replaced still sees its own object. A gate releases the suppression that
    [StackUpdateOrchestrator] took in the auto-heal service, whose state is part of
    this one; the service updates in progress are the owners of the others. SQLite
    does not fail here. Activity entries are effects; logging is not modelled. *)

From S2P Require Import Prelude HealthPolicy GatePoll AutoHeal.

(** ** State *)

Record HealthGateRunRow := mkRow {
  rw_node_id : Z;
  rw_stack_name : string;
  rw_trigger_action : GateTrigger;
  rw_status : option HealthVerdict;             (* [None]: observing *)
  rw_reason : option GateReason;
  rw_window_seconds : Z;
  rw_containers : list HealthGateContainer;
  rw_started_at : Z;
  rw_ended_at : option Z;
  rw_target_scope : TargetScope;
  rw_service_name : option string;
  rw_failure_source : option GateRole;
  rw_deployed_generation_id : option string;
  rw_rollout_generation_id : option string;
}.

Record PreparedGate := mkPrepared {
  pr_token : string;
  pr_nodeId : Z;
  pr_stackName : string;
  pr_serviceName : string;
  pr_trigger : GateTrigger;
  pr_windowSeconds : Z;
  pr_expiresAt : Z;
  pr_expectedReplicas : Z;
  pr_expectedImageId : option string;
  pr_collateralEligibleNames : gset string;
  pr_primaryBaseline : list StackContainerFact;
  pr_collateralBaseline : list StackContainerFact;
}.

(** Where a poll in flight is. *)
Inductive PollPhase := Reading | Intending (observed : list ObservedContainer).

Record GateSys := mkSys {
  gs_started : bool;
  gs_heap : gmap string ActiveGate;
  gs_active : gmap string string;               (* key to run id *)
  gs_prepared : gmap string PreparedGate;
  gs_droppedPrepared : gmap string Z;
  gs_rows : gmap string HealthGateRunRow;
  gs_polls : gmap string PollPhase;
  gs_heal : AutoHeal;
  gs_updates : gmap string (Z * string * string);  (* service updates that hold their suppression *)
}.

Inductive GateEffect :=
  | GVerdict (runId : string) (status : HealthVerdict)   (* to the GitOps state *)
  | GActivity (nodeId : Z) (stackName : string) (status : option HealthVerdict).

Definition upd_started f s := mkSys (f (gs_started s)) (gs_heap s) (gs_active s) (gs_prepared s) (gs_droppedPrepared s)
  (gs_rows s) (gs_polls s) (gs_heal s) (gs_updates s).
Definition upd_heap f s := mkSys (gs_started s) (f (gs_heap s)) (gs_active s) (gs_prepared s) (gs_droppedPrepared s)
  (gs_rows s) (gs_polls s) (gs_heal s) (gs_updates s).
Definition upd_active f s := mkSys (gs_started s) (gs_heap s) (f (gs_active s)) (gs_prepared s) (gs_droppedPrepared s)
  (gs_rows s) (gs_polls s) (gs_heal s) (gs_updates s).
Definition upd_prepared f s := mkSys (gs_started s) (gs_heap s) (gs_active s) (f (gs_prepared s)) (gs_droppedPrepared s)
  (gs_rows s) (gs_polls s) (gs_heal s) (gs_updates s).
Definition upd_dropped f s := mkSys (gs_started s) (gs_heap s) (gs_active s) (gs_prepared s) (f (gs_droppedPrepared s))
  (gs_rows s) (gs_polls s) (gs_heal s) (gs_updates s).
Definition upd_rows f s := mkSys (gs_started s) (gs_heap s) (gs_active s) (gs_prepared s) (gs_droppedPrepared s)
  (f (gs_rows s)) (gs_polls s) (gs_heal s) (gs_updates s).
Definition upd_polls f s := mkSys (gs_started s) (gs_heap s) (gs_active s) (gs_prepared s) (gs_droppedPrepared s)
  (gs_rows s) (f (gs_polls s)) (gs_heal s) (gs_updates s).
Definition upd_heal f s := mkSys (gs_started s) (gs_heap s) (gs_active s) (gs_prepared s) (gs_droppedPrepared s)
  (gs_rows s) (gs_polls s) (f (gs_heal s)) (gs_updates s).
Definition upd_updates f s := mkSys (gs_started s) (gs_heap s) (gs_active s) (gs_prepared s) (gs_droppedPrepared s)
  (gs_rows s) (gs_polls s) (gs_heal s) (f (gs_updates s)).

Abbreviation gate := (act GateSys GateEffect).

Definition TargetScope_str (s : TargetScope) : string :=
  match s with scope_stack => "stack" | scope_service => "service" end.

Definition gateKey (nodeId : Z) (stackName : string) (scope : TargetScope) (serviceName : option string) : string :=
  pretty nodeId +:+ ":" +:+ stackName +:+ ":" +:+ TargetScope_str scope +:+ ":" +:+ default "_" serviceName.

Definition keyOf (g : ActiveGate) : string :=
  gateKey (ga_nodeId g) (ga_stackName g) (ga_targetScope g) (ga_serviceName g).

(** ** Fields of a gate *)

Definition set_flags (timer : bool) (errors : Z) (finalized : bool) (declared : DeclaredIntent) (read : bool)
    (g : ActiveGate) : ActiveGate :=
  mkGate (ga_runId g) (ga_nodeId g) (ga_stackName g) (ga_windowSeconds g) (ga_startedAt g) timer
    (ga_expected g) errors (ga_missingLastPoll g) (ga_restartingLastPoll g) finalized (ga_targetScope g)
    (ga_trigger g) (ga_serviceName g) (ga_expectedImageId g) (ga_expectedReplicas g)
    (ga_collateralEligibleNames g) (ga_collateralBaselineByName g) (ga_roleByName g) declared read.

Definition set_timer (b : bool) (g : ActiveGate) : ActiveGate :=
  set_flags b (ga_consecutivePollErrors g) (ga_finalized g) (ga_declaredRestartByService g) (ga_declaredRestartRead g) g.
Definition set_errors (n : Z) (g : ActiveGate) : ActiveGate :=
  set_flags (ga_timer g) n (ga_finalized g) (ga_declaredRestartByService g) (ga_declaredRestartRead g) g.
Definition set_finalized (g : ActiveGate) : ActiveGate :=
  set_flags false (ga_consecutivePollErrors g) true (ga_declaredRestartByService g) (ga_declaredRestartRead g) g.
Definition set_declaredRead (g : ActiveGate) : ActiveGate :=
  set_flags (ga_timer g) (ga_consecutivePollErrors g) (ga_finalized g) (ga_declaredRestartByService g) true g.
Definition set_declared (d : DeclaredIntent) (g : ActiveGate) : ActiveGate :=
  set_flags (ga_timer g) (ga_consecutivePollErrors g) (ga_finalized g) d (ga_declaredRestartRead g) g.

Definition finish_row (status : HealthVerdict) (reason : option GateReason) (now : Z)
    (containers : list HealthGateContainer) (source : option GateRole) (r : HealthGateRunRow) : HealthGateRunRow :=
  mkRow (rw_node_id r) (rw_stack_name r) (rw_trigger_action r) (Some status) reason (rw_window_seconds r) containers
    (rw_started_at r) (Some now) (rw_target_scope r) (rw_service_name r) source (rw_deployed_generation_id r)
    (rw_rollout_generation_id r).

(** ** Ending a gate *)

(** [this.active.get(key) === gate] *)
Definition isActive (g : ActiveGate) (st : GateSys) : bool := bool_decide (gs_active st !! keyOf g = Some (ga_runId g)).

Definition clearSuppression (g : ActiveGate) : gate unit :=
  match ga_targetScope g, truthy (ga_serviceName g) with
  | scope_service, Some service =>
      modify (upd_heal (state (clearSuppress (ga_nodeId g) (ga_stackName g) service)))
  | _, _ => skip
  end.

Definition finalize (runId : string) (status : HealthVerdict) (reason : option GateReason)
    (containers : list HealthGateContainer) (source : option GateRole) (now : Z) : gate unit :=
  st ← get;
  match gs_heap st !! runId with
  | None => skip
  | Some g =>
      if ga_finalized g then skip
      else
        modify (upd_heap (<[runId := set_finalized g]>));;
        when (isActive g st) (modify (upd_active (delete (keyOf g))));;
        clearSuppression g;;
        modify (upd_rows (alter (finish_row status reason now containers source) runId));;
        tell (GVerdict runId status);;
        match status with
        | unknown => skip
        | _ => tell (GActivity (ga_nodeId g) (ga_stackName g) (Some status))
        end
  end.

(** A run this process does not observe. *)
Definition finalizePersistedRun (runId : string) (reason : GateReason) (now : Z) : gate unit :=
  st ← get;
  match gs_rows st !! runId with
  | None => skip
  | Some r =>
      modify (upd_rows (<[runId := finish_row unknown (Some reason) now (rw_containers r) None r]>));;
      tell (GVerdict runId unknown)
  end.

(** The gates in [active]. *)
Definition activeGates (st : GateSys) : list ActiveGate :=
  omap (fun kr => gs_heap st !! kr.2) (map_to_list (gs_active st)).

Definition endGates (p : ActiveGate -> bool) (reason : GateReason) (now : Z) : gate unit :=
  st ← get;
  for_each (fun g => finalize (ga_runId g) unknown (Some reason) [] None now) (List.filter p (activeGates st)).

Definition onStack (nodeId : Z) (stackName : string) (g : ActiveGate) : bool :=
  bool_decide (ga_nodeId g = nodeId) && bool_decide (ga_stackName g = stackName).

(** [serviceName] is [None] for a stack-scoped begin (the option is absent);
    [stackOnly] is passed by no caller. *)
Definition supersedeGatesForStack (nodeId : Z) (stackName : string) (serviceName : option (option string))
    (reason : GateReason) (now : Z) : gate unit :=
  endGates (fun g => onStack nodeId stackName g
    && match serviceName with
       | Some s => negb (bool_decide (ga_targetScope g = scope_service) && negb (bool_decide (ga_serviceName g = s)))
       | None => true
       end) reason now.

Definition R_superseded : GateReason := R_other "superseded by a newer operation".
Definition R_shutdown : GateReason := R_other "shutdown during observation".
Definition R_restarted : GateReason := R_other "Sencho restarted during observation".
Definition R_too_many : GateReason := R_other "too many concurrent observations".

(** ** Lifecycle *)

(** [start], without the delivery of verdicts to the GitOps state. *)
Definition start (now : Z) : gate unit :=
  modify (upd_started (fun _ => true));;
  st ← get;
  for_each (fun kr => finalizePersistedRun kr.1 R_restarted now)
    (List.filter (fun kr => bool_decide (rw_status kr.2 = None)) (map_to_list (gs_rows st))).

Definition stop (now : Z) : gate unit :=
  modify (upd_started (fun _ => false));;
  endGates (fun _ => true) R_shutdown now;;
  modify (upd_prepared (fun _ => ∅)).

(** ** Settings *)

(** The window of the settings, with [parseInt] of the stored text done by the
    caller ([None]: not a number). *)
Definition windowSecondsOf (windowRaw : option Z) : Z :=
  match windowRaw with
  | Some w => Z.min MAX_WINDOW_SECONDS (Z.max MIN_WINDOW_SECONDS w)
  | None => DEFAULT_WINDOW_SECONDS
  end.

Record GateSettings := mkSettings { se_enabled : bool; se_windowSeconds : Z }.

Definition readSettings (enabledText : option string) (windowRaw : option Z) : GateSettings :=
  mkSettings (negb (bool_decide (enabledText = Some "0"))) (windowSecondsOf windowRaw).

(** ** Begin *)

(** What a begin reads: the clock, a fresh run id and the settings. *)
Record BeginEnv := mkBegin { be_now : Z; be_runId : string; be_settings : GateSettings }.

Definition observingRow (nodeId : Z) (stackName : string) (trigger : GateTrigger) (window now : Z)
    (scope : TargetScope) (service deployed rollout : option string) : HealthGateRunRow :=
  mkRow nodeId stackName trigger None None window [] now None scope service None deployed rollout.

Definition newGate (runId : string) (nodeId : Z) (stackName : string) (window now : Z) (scope : TargetScope)
    (trigger : GateTrigger) (service image : option string) (replicas : Z) (eligible : gset string)
    (baseline : Tracked) : ActiveGate :=
  mkGate runId nodeId stackName window now true None 0 ∅ ∅ false scope trigger service image replicas eligible
    baseline ∅ None false.

(** [active.set(key, gate)], with its poll timer armed. *)
Definition arm_gate (g : ActiveGate) : gate unit :=
  modify (upd_heap (<[ga_runId g := g]>));;
  modify (upd_active (<[keyOf g := ga_runId g]>)).

Definition atCap (st : GateSys) : bool := MAX_CONCURRENT_GATES <=? Z.of_nat (size (gs_active st)).

(** The row of a gate past the cap: it ends at once. *)
Definition refusedRow (now : Z) (r : HealthGateRunRow) : HealthGateRunRow :=
  finish_row unknown (Some R_too_many) now [] None r.

Definition beginStack (nodeId : Z) (stackName : string) (trigger : GateTrigger) (deployed : option string)
    (e : BeginEnv) : gate (option string) :=
  st ← get;
  if negb (gs_started st) then mret None
  else
    when (bool_decide (trigger = t_update)) (tell (GActivity nodeId stackName None));;
    if negb (se_enabled (be_settings e)) then mret None
    else
      supersedeGatesForStack nodeId stackName None R_superseded (be_now e);;
      st ← get;
      let row := observingRow nodeId stackName trigger (se_windowSeconds (be_settings e)) (be_now e)
                   scope_stack None deployed None in
      if atCap st then
        modify (upd_rows (<[be_runId e := refusedRow (be_now e) row]>));; mret (Some (be_runId e))
      else
        modify (upd_rows (<[be_runId e := row]>));;
        arm_gate (newGate (be_runId e) nodeId stackName (se_windowSeconds (be_settings e)) (be_now e)
                    scope_stack trigger None None 0 ∅ []);;
        mret (Some (be_runId e)).

(** [reserveRecoveryRun]; [linked] is the run the recovery already has. *)
Inductive Reservation := Reserved (runId : string) | Replayed (runId : string) | Disabled.

Definition reserveRecoveryRun (linked : option string) (nodeId : Z) (stackName deployed : string) (e : BeginEnv)
    : gate Reservation :=
  if negb (se_enabled (be_settings e)) then mret Disabled
  else
    match truthy linked with
    | Some runId => mret (Replayed runId)
    | None =>
        modify (upd_rows (<[be_runId e :=
          observingRow nodeId stackName t_recovery (se_windowSeconds (be_settings e)) (be_now e) scope_stack None
            (Some deployed) None]>));;
        mret (Reserved (be_runId e))
    end.

(** A run the rollout already reserved (any of them, as SQLite lists them). *)
Definition findRolloutReservation (rollout : string) (nodeId : Z) (stackName : string) (st : GateSys) : option string :=
  fst <$> head (List.filter (fun kr =>
    bool_decide (rw_status kr.2 = None) && bool_decide (rw_node_id kr.2 = nodeId)
    && bool_decide (rw_stack_name kr.2 = stackName) && bool_decide (rw_trigger_action kr.2 = t_rollout)
    && bool_decide (rw_rollout_generation_id kr.2 = Some rollout)) (map_to_list (gs_rows st))).

Definition reserveRolloutRun (rollout accepted : string) (nodeId : Z) (stackName : string) (e : BeginEnv)
    : gate Reservation :=
  if negb (se_enabled (be_settings e)) then mret Disabled
  else
    st ← get;
    match findRolloutReservation rollout nodeId stackName st with
    | Some runId => mret (Replayed runId)
    | None =>
        modify (upd_rows (<[be_runId e :=
          observingRow nodeId stackName t_rollout (se_windowSeconds (be_settings e)) (be_now e) scope_stack None
            (Some accepted) (Some rollout)]>));;
        mret (Reserved (be_runId e))
    end.

(** [armReservedStackRun]; [false] when it throws. *)
Definition armReservedStackRun (runId : string) (nodeId : Z) (stackName : string) (expectedTrigger : GateTrigger)
    (now : Z) : gate bool :=
  st ← get;
  if negb (gs_started st) then mret false
  else
    match gs_rows st !! runId with
    | None => mret false
    | Some r =>
        if negb (bool_decide (rw_node_id r = nodeId) && bool_decide (rw_stack_name r = stackName)) then mret false
        else if negb (bool_decide (rw_status r = None) && bool_decide (rw_trigger_action r = expectedTrigger)
                      && bool_decide (rw_target_scope r = scope_stack)) then mret false
        else if bool_decide (gs_active st !! gateKey nodeId stackName scope_stack None = Some runId) then mret true
        else
          supersedeGatesForStack nodeId stackName None R_superseded now;;
          st ← get;
          if atCap st then mret false
          else
            arm_gate (newGate runId nodeId stackName (rw_window_seconds r) now scope_stack expectedTrigger
                        None None 0 ∅ []);;
            mret true
    end.

Definition abandonReservedRun (runId : string) (nodeId : Z) (stackName : string) (reason : GateReason) (now : Z)
    : gate unit :=
  st ← get;
  match gs_rows st !! runId with
  | Some r =>
      if bool_decide (rw_node_id r = nodeId) && bool_decide (rw_stack_name r = stackName)
         && bool_decide (rw_status r = None)
      then finalizePersistedRun runId reason now else skip
  | None => skip
  end.

(** ** Prepared gates *)

Definition sweepExpiredPrepared (now : Z) : gate unit :=
  modify (upd_prepared (filter (fun kp => now < pr_expiresAt kp.2)));;
  modify (upd_dropped (filter (fun kx => now < kx.2))).

Definition prepareTtlMs (composeTimeoutMs : Z) : Z := Z.max composeTimeoutMs (30 * 60000) + 5 * 60000.

(** [prepare], after its snapshot; [None] is a snapshot that failed. The sweep at
    its start is the caller's step. *)
Definition prepare (nodeId : Z) (stackName serviceName : string) (trigger : GateTrigger) (expectedReplicas : Z)
    (snapshot : option (list StackContainerFact)) (window now composeTimeoutMs : Z) (token : string) : gate bool :=
  let baselines := default [] snapshot in
  let collateral := List.filter (fun b => negb (bool_decide (cf_service b = Some serviceName))) baselines in
  modify (upd_prepared (<[token :=
    mkPrepared token nodeId stackName serviceName trigger window (now + prepareTtlMs composeTimeoutMs)
      expectedReplicas None
      (list_to_set (cf_name <$> List.filter isRegressionEligibleSibling collateral))
      (List.filter (fun b => bool_decide (cf_service b = Some serviceName)) baselines) collateral]>));;
  mret (bool_decide (is_Some snapshot)).

Definition set_image (image : string) (p : PreparedGate) : PreparedGate :=
  mkPrepared (pr_token p) (pr_nodeId p) (pr_stackName p) (pr_serviceName p) (pr_trigger p) (pr_windowSeconds p)
    (pr_expiresAt p) (pr_expectedReplicas p) (Some image) (pr_collateralEligibleNames p) (pr_primaryBaseline p)
    (pr_collateralBaseline p).

Definition attachExpectedImage (token image : string) (now : Z) : gate unit :=
  sweepExpiredPrepared now;;
  modify (upd_prepared (alter (set_image image) token)).

(** [baselineMapFromPrepared]: the last baseline of a name, at the place of its
    first. *)
Definition baselineMapFromPrepared (bs : list StackContainerFact) : Tracked :=
  trackedOf (observedFromPreparedBaseline <$> bs).

Record BeginPreparedResult := mkBeginResult {
  br_runId : option string;
  br_observing : bool;
  br_droppedByContainerOp : bool;
}.

Definition beginPrepared (token : string) (e : BeginEnv) : gate BeginPreparedResult :=
  sweepExpiredPrepared (be_now e);;
  st ← get;
  let prep := gs_prepared st !! token in
  let dropped := bool_decide (is_Some (gs_droppedPrepared st !! token)) in
  modify (upd_prepared (delete token));;
  modify (upd_dropped (delete token));;
  match prep with
  | None => mret (mkBeginResult None false dropped)
  | Some p =>
      if negb (gs_started st) then mret (mkBeginResult None false dropped)
      else if negb (se_enabled (be_settings e)) then mret (mkBeginResult None false dropped)
      else
        supersedeGatesForStack (pr_nodeId p) (pr_stackName p) (Some (Some (pr_serviceName p))) R_superseded (be_now e);;
        st ← get;
        let row := observingRow (pr_nodeId p) (pr_stackName p) (pr_trigger p) (pr_windowSeconds p) (be_now e)
                     scope_service (Some (pr_serviceName p)) None None in
        if atCap st then
          modify (upd_rows (<[be_runId e := refusedRow (be_now e) row]>));;
          mret (mkBeginResult (Some (be_runId e)) false dropped)
        else
          modify (upd_rows (<[be_runId e := row]>));;
          arm_gate (newGate (be_runId e) (pr_nodeId p) (pr_stackName p) (pr_windowSeconds p) (be_now e)
                      scope_service (pr_trigger p) (Some (pr_serviceName p)) (pr_expectedImageId p)
                      (pr_expectedReplicas p) (pr_collateralEligibleNames p)
                      (baselineMapFromPrepared
                         (List.filter (fun b => bool_decide (cf_name b ∈ pr_collateralEligibleNames p))
                            (pr_collateralBaseline p))));;
          mret (mkBeginResult (Some (be_runId e)) true dropped)
  end.

(** ** Container operations *)

(** [Map.get] *)
Definition tracked_get (name : string) (es : Tracked) : option ObservedContainer :=
  snd <$> head (List.filter (fun nb => bool_decide (nb.1 = name)) es).

(** The names of a service in a gate's collateral and observed sets. *)
Definition detachedNames (service : string) (g : ActiveGate) : gset string :=
  filter (fun name => tracked_get name (ga_collateralBaselineByName g) ≫= ob_service = Some service)
    (ga_collateralEligibleNames g)
  ∪ list_to_set (List.filter (fun name => negb (bool_decide (ga_roleByName g !! name = Some primary)))
      ((List.filter (fun nb => bool_decide (ob_service nb.2 = Some service)) (default [] (ga_expected g))).*1)).

Definition detachServiceFromGate (service : string) (g : ActiveGate) : ActiveGate :=
  let names := detachedNames service g in
  let drop_ (es : Tracked) := List.filter (fun nb => negb (bool_decide (nb.1 ∈ names))) es in
  mkGate (ga_runId g) (ga_nodeId g) (ga_stackName g) (ga_windowSeconds g) (ga_startedAt g) (ga_timer g)
    (drop_ <$> ga_expected g) (ga_consecutivePollErrors g) (ga_missingLastPoll g ∖ names)
    (ga_restartingLastPoll g ∖ names) (ga_finalized g) (ga_targetScope g) (ga_trigger g) (ga_serviceName g)
    (ga_expectedImageId g) (ga_expectedReplicas g) (ga_collateralEligibleNames g ∖ names)
    (drop_ (ga_collateralBaselineByName g)) (filter (fun kr => kr.1 ∉ names) (ga_roleByName g))
    (ga_declaredRestartByService g) (ga_declaredRestartRead g).

Definition detachServiceFromPrepared (service : string) (p : PreparedGate) : PreparedGate :=
  mkPrepared (pr_token p) (pr_nodeId p) (pr_stackName p) (pr_serviceName p) (pr_trigger p) (pr_windowSeconds p)
    (pr_expiresAt p) (pr_expectedReplicas p) (pr_expectedImageId p)
    (filter (fun name => ~ Exists (fun b => cf_name b = name /\ cf_service b = Some service) (pr_collateralBaseline p))
       (pr_collateralEligibleNames p))
    (pr_primaryBaseline p)
    (List.filter (fun b => negb (bool_decide (cf_service b = Some service))) (pr_collateralBaseline p)).

(** [dropPreparedForContainerOp] of every token that satisfies [p]. *)
Definition dropPrepared (p : PreparedGate -> bool) : gate unit :=
  st ← get;
  let dropped := filter (fun kp => p kp.2 = true) (gs_prepared st) in
  modify (upd_prepared (filter (fun kp => p kp.2 = false)));;
  modify (upd_dropped (fun m => (pr_expiresAt <$> dropped) ∪ m)).

Definition supersedeForContainerOp (nodeId : Z) (stackName : string) (reason : GateReason)
    (serviceNames : list string) (now : Z) : gate unit :=
  let named := List.filter (fun name => negb (bool_decide (name = ""))) serviceNames in
  let prepOnStack p := bool_decide (pr_nodeId p = nodeId) && bool_decide (pr_stackName p = stackName) in
  if bool_decide (named = []) then
    supersedeGatesForStack nodeId stackName None reason now;;
    dropPrepared prepOnStack
  else
    (* one pass over the gates in the code: ending a gate leaves the others as they are *)
    let subject g := bool_decide (ga_targetScope g = scope_stack)
                     || bool_decide (default "" (ga_serviceName g) ∈ named) in
    st ← get;
    let others := List.filter (fun g => onStack nodeId stackName g && negb (subject g)) (activeGates st) in
    endGates (fun g => onStack nodeId stackName g && subject g) reason now;;
    for_each (fun g => modify (upd_heap (alter (fun g => foldl (fun g s => detachServiceFromGate s g) g named)
                                           (ga_runId g)))) others;;
    dropPrepared (fun p => prepOnStack p && bool_decide (pr_serviceName p ∈ named));;
    modify (upd_prepared (fmap (fun p =>
      if prepOnStack p then foldl (fun p s => detachServiceFromPrepared s p) p named else p))).

(** ** Polls *)

Inductive ReadCause := cause_docker | cause_node.
Inductive Evidence :=
  | Ev_ok (containers : list StackContainerFact)
  | Ev_unsupported
  | Ev_unavailable (cause : ReadCause)          (* also a read that timed out *)
  .

(** The timer of a gate fires. *)
Definition poll (runId : string) : gate unit :=
  st ← get;
  match gs_heap st !! runId with
  | None => skip
  | Some g =>
      if negb (ga_timer g) then skip
      else
        modify (upd_heap (<[runId := set_timer false g]>));;
        if ga_finalized g || negb (isActive g st) then skip
        else modify (upd_polls (<[runId := Reading]>))
  end.

(** The [finally] of [poll]: the next one is armed only now. *)
Definition pollSettled (runId : string) : gate unit :=
  modify (upd_polls (delete runId));;
  st ← get;
  match gs_heap st !! runId with
  | None => skip
  | Some g =>
      if negb (ga_finalized g) && isActive g st then modify (upd_heap (<[runId := set_timer true g]>)) else skip
  end.

Definition countPollError (runId : string) (cause : ReadCause) (now : Z) : gate unit :=
  st ← get;
  match gs_heap st !! runId with
  | None => skip
  | Some g =>
      let errors := ga_consecutivePollErrors g + 1 in
      modify (upd_heap (<[runId := set_errors errors g]>));;
      when (3 <=? errors)
        (finalize runId unknown
           (Some (match cause with cause_node => R_node_unreadable | cause_docker => R_docker_unreachable end)) [] None now)
  end.

(** The cycle after its reads. *)
Definition runCycle (runId : string) (observed : list ObservedContainer) (now : Z) : gate unit :=
  st ← get;
  match gs_heap st !! runId with
  | None => skip
  | Some g =>
      if ga_finalized g || negb (isActive g st) then skip
      else
        let elapsedMs := now - ga_startedAt g in
        match (match ga_targetScope g with
               | scope_stack => stackPoll g observed elapsedMs
               | scope_service => servicePoll g observed elapsedMs
               end) with
        | Keep g' => modify (upd_heap (<[runId := g']>))
        | Final status reason summary source => finalize runId status reason summary source now
        end
  end.

(** The evidence of a poll arrives. *)
Definition evidenceRead (runId : string) (ev : Evidence) (now : Z) : gate unit :=
  st ← get;
  match gs_polls st !! runId, gs_heap st !! runId with
  | Some Reading, Some g =>
      match ev with
      | Ev_unsupported => finalize runId unknown (Some R_observation_unsupported) [] None now;; pollSettled runId
      | Ev_unavailable cause => countPollError runId cause now;; pollSettled runId
      | Ev_ok containers =>
          let observed := observedFromPreparedBaseline <$> containers in
          modify (upd_heap (<[runId := set_errors 0 g]>));;
          if ga_finalized g || negb (isActive g st) then pollSettled runId
          else if ga_declaredRestartRead g then runCycle runId observed now;; pollSettled runId
          else
            modify (upd_heap (alter set_declaredRead runId));;
            modify (upd_polls (<[runId := Intending observed]>))
      end
  | _, _ => skip
  end.

(** The declared intent arrives. *)
Definition intentRead (runId : string) (declared : DeclaredIntent) (now : Z) : gate unit :=
  st ← get;
  match gs_polls st !! runId with
  | Some (Intending observed) =>
      modify (upd_heap (alter (set_declared declared) runId));;
      runCycle runId observed now;; pollSettled runId
  | _ => skip
  end.

(** ** Steps of the system *)

(** A service update takes its suppression, and gives it back unless its gate
    observes ([executeService] of StackUpdateOrchestrator.ts). *)
Definition updateBegins (op : string) (nodeId : Z) (stackName serviceName : string) : gate unit :=
  modify (upd_heal (state (suppress nodeId stackName serviceName)));;
  modify (upd_updates (<[op := (nodeId, stackName, serviceName)]>)).

Definition updateEnds (op : string) : gate unit :=
  st ← get;
  match gs_updates st !! op with
  | Some (n, s, service) =>
      modify (upd_heal (state (clearSuppress n s service)));; modify (upd_updates (delete op))
  | None => skip
  end.

Definition updateObserves (op token : string) (e : BeginEnv) : gate BeginPreparedResult :=
  res ← beginPrepared token e;
  when (br_observing res) (modify (upd_updates (delete op)));;
  mret res.

Definition freshRun (runId : string) (st : GateSys) : Prop := gs_rows st !! runId = None.

(** Names of stacks have no colon (a stack is a directory Compose accepts as a
    project), so a key names one target. *)
Inductive gate_step : GateSys -> GateSys -> Prop :=
  | gs_start now st : gs_started st = false -> gs_active st = ∅ -> gate_step st (state (start now) st)
  | gs_stop now st : gate_step st (state (stop now) st)
  | gs_begin n s trigger deployed e st :
      freshRun (be_runId e) st -> no_colon s = true -> gate_step st (state (beginStack n s trigger deployed e) st)
  | gs_reserve_recovery linked n s deployed e st :
      freshRun (be_runId e) st -> gate_step st (state (reserveRecoveryRun linked n s deployed e) st)
  | gs_reserve_rollout rollout accepted n s e st :
      freshRun (be_runId e) st -> gate_step st (state (reserveRolloutRun rollout accepted n s e) st)
  | gs_arm runId n s trigger now st :
      no_colon s = true -> gate_step st (state (armReservedStackRun runId n s trigger now) st)
  | gs_abandon runId n s reason now st :        (* a reservation that was not armed *)
      gs_heap st !! runId = None -> gate_step st (state (abandonReservedRun runId n s reason now) st)
  | gs_sweep now st : gate_step st (state (sweepExpiredPrepared now) st)
  | gs_prepare n s service trigger r snapshot w now t token st :
      no_colon s = true -> gate_step st (state (prepare n s service trigger r snapshot w now t token) st)
  | gs_attach token image now st : gate_step st (state (attachExpectedImage token image now) st)
  | gs_container_op n s reason services now st :
      gate_step st (state (supersedeForContainerOp n s reason services now) st)
  | gs_poll runId st : gate_step st (state (poll runId) st)
  | gs_evidence runId ev now st : gate_step st (state (evidenceRead runId ev now) st)
  | gs_intent runId declared now st : gate_step st (state (intentRead runId declared now) st)
  | gs_update_begins op n s service st :
      gs_updates st !! op = None -> service <> "" -> gate_step st (state (updateBegins op n s service) st)
  | gs_update_ends op st : gate_step st (state (updateEnds op) st)
  | gs_update_observes op token e st n s service :
      freshRun (be_runId e) st -> gs_updates st !! op = Some (n, s, service) -> service <> "" ->
      (forall p, gs_prepared st !! token = Some p ->
         pr_nodeId p = n /\ pr_stackName p = s /\ pr_serviceName p = service) ->
      gate_step st (state (updateObserves op token e) st).

Definition gate_boot (rows : gmap string HealthGateRunRow) : GateSys :=
  mkSys false ∅ ∅ ∅ ∅ rows ∅ (newHeal []) ∅.

Definition gate_reachable (st : GateSys) : Prop := exists rows, rtc gate_step (gate_boot rows) st.

(** ** Invariant *)

Definition wellNamed (g : ActiveGate) : Prop :=
  no_colon (ga_stackName g) = true
  /\ match ga_targetScope g with scope_stack => ga_serviceName g = None | scope_service => is_Some (ga_serviceName g) end.

Record GateInv (st : GateSys) : Prop := {
  gi_active : forall key runId, gs_active st !! key = Some runId ->
    exists g, gs_heap st !! runId = Some g /\ ga_finalized g = false /\ keyOf g = key;
  gi_heap : forall runId g, gs_heap st !! runId = Some g ->
    ga_runId g = runId /\ (ga_finalized g = false -> gs_active st !! keyOf g = Some runId);
  gi_row : forall runId g, gs_heap st !! runId = Some g ->
    exists r, gs_rows st !! runId = Some r /\ rw_node_id r = ga_nodeId g /\ rw_stack_name r = ga_stackName g
      /\ rw_target_scope r = ga_targetScope g
      /\ (ga_targetScope g = scope_service -> rw_service_name r = ga_serviceName g)
      /\ (ga_finalized g = false <-> rw_status r = None);
  gi_single : forall runId g, gs_heap st !! runId = Some g ->
    ga_timer g = negb (ga_finalized g) && negb (bool_decide (is_Some (gs_polls st !! runId)));
  gi_polls : forall runId, is_Some (gs_polls st !! runId) -> is_Some (gs_heap st !! runId);
  gi_cap : Z.of_nat (size (gs_active st)) <= MAX_CONCURRENT_GATES;
  gi_names : forall runId g, gs_heap st !! runId = Some g -> wellNamed g;
  gi_prepared : forall token p, gs_prepared st !! token = Some p -> no_colon (pr_stackName p) = true;
  gi_errors : forall runId g, gs_heap st !! runId = Some g -> 0 <= ga_consecutivePollErrors g;
}.

(** What identifies a gate, and is never changed. *)
Definition gateId (g : ActiveGate) : string * Z * string * TargetScope * option string :=
  (ga_runId g, ga_nodeId g, ga_stackName g, ga_targetScope g, ga_serviceName g).

Lemma keyOf_gateId g g' : gateId g = gateId g' -> keyOf g = keyOf g'.
Proof. unfold gateId, keyOf. intros [= _ -> -> -> ->]. done. Qed.

Lemma inv_heap_upd st runId g g' :
  GateInv st -> gs_heap st !! runId = Some g -> gateId g' = gateId g -> ga_finalized g' = ga_finalized g ->
  ga_timer g' = ga_timer g -> 0 <= ga_consecutivePollErrors g' -> GateInv (upd_heap (<[runId := g']>) st).
Proof.
  intros [H1 H2 H3 H4 H5 H6 H7 H8 H9] Hg Hid Hf Ht He. pose proof (keyOf_gateId _ _ Hid) as Hk.
  assert (ga_runId g' = ga_runId g /\ ga_nodeId g' = ga_nodeId g /\ ga_stackName g' = ga_stackName g
          /\ ga_targetScope g' = ga_targetScope g /\ ga_serviceName g' = ga_serviceName g)
    as (E1 & E2 & E3 & E4 & E5) by (unfold gateId in Hid; by injection Hid).
  split; simpl; [| | | | |done| |done|].
  - intros key r Hr. destruct (H1 key r Hr) as (x & Hx & Hxf & Hxk).
    destruct (decide (runId = r)) as [<-|Hne].
    + exists g'. rewrite lookup_insert_eq. split; [done|]. simplify_eq. split; congruence.
    + exists x. by rewrite lookup_insert_ne.
  - intros r x Hx. apply lookup_insert_Some in Hx as [[<- <-]|[Hne Hx]]; [|eauto].
    destruct (H2 _ _ Hg) as [Ha Hb]. rewrite E1, Hk, Hf. done.
  - intros r x Hx. apply lookup_insert_Some in Hx as [[<- <-]|[Hne Hx]]; [|eauto].
    destruct (H3 _ _ Hg) as (y & Hy). exists y. by rewrite E2, E3, E4, E5, Hf.
  - intros r x Hx. apply lookup_insert_Some in Hx as [[<- <-]|[Hne Hx]]; [|eauto].
    rewrite Ht, Hf. by apply H4.
  - intros r Hr. destruct (decide (runId = r)) as [<-|Hne]; [rewrite lookup_insert_eq; eauto|].
    rewrite lookup_insert_ne by done. auto.
  - intros r x Hx. apply lookup_insert_Some in Hx as [[<- <-]|[Hne Hx]]; [|eauto].
    specialize (H7 _ _ Hg). unfold wellNamed in *. by rewrite E3, E4, E5.
  - intros r x Hx. apply lookup_insert_Some in Hx as [[<- <-]|[Hne Hx]]; [done|eauto].
Qed.

(** The state after a gate in flight ended. *)
Definition ended (g : ActiveGate) (status : HealthVerdict) (reason : option GateReason)
    (containers : list HealthGateContainer) (source : option GateRole) (now : Z) (st : GateSys) : GateSys :=
  upd_rows (alter (finish_row status reason now containers source) (ga_runId g))
    (state (clearSuppression g)
       (upd_active (delete (keyOf g)) (upd_heap (<[ga_runId g := set_finalized g]>) st))).

Lemma clearSuppression_frame g st :
  let st' := state (clearSuppression g) st in
  gs_started st' = gs_started st /\ gs_heap st' = gs_heap st /\ gs_active st' = gs_active st
  /\ gs_prepared st' = gs_prepared st /\ gs_droppedPrepared st' = gs_droppedPrepared st
  /\ gs_rows st' = gs_rows st /\ gs_polls st' = gs_polls st /\ gs_updates st' = gs_updates st.
Proof.
  unfold clearSuppression. destruct (ga_targetScope g); [done|]. destruct (truthy _); [|done].
  by rewrite state_modify.
Qed.

Lemma finalize_eq runId status reason containers source now st :
  GateInv st ->
  state (finalize runId status reason containers source now) st
  = match gs_heap st !! runId with
    | Some g => if ga_finalized g then st else ended g status reason containers source now st
    | None => st
    end.
Proof.
  intros HI. unfold finalize. rewrite state_bind, state_get, result_get.
  destruct (gs_heap st !! runId) as [g|] eqn:Hg; [|done]. destruct (ga_finalized g) eqn:Hf; [done|].
  destruct (gi_heap _ HI _ _ Hg) as [Hid Ha]. specialize (Ha Hf). unfold ended. rewrite Hid.
  rewrite state_bind, state_modify, state_bind. unfold isActive. rewrite Ha, Hid, bool_decide_true by done.
  unfold when. rewrite state_modify, state_bind, state_bind, state_modify, state_bind, state_tell.
  by destruct status; rewrite ?state_tell, ?state_skip.
Qed.

Lemma ended_fields g status reason containers source now st :
  let st' := ended g status reason containers source now st in
  gs_started st' = gs_started st /\ gs_heap st' = <[ga_runId g := set_finalized g]> (gs_heap st)
  /\ gs_active st' = delete (keyOf g) (gs_active st)
  /\ gs_prepared st' = gs_prepared st /\ gs_droppedPrepared st' = gs_droppedPrepared st
  /\ gs_rows st' = alter (finish_row status reason now containers source) (ga_runId g) (gs_rows st)
  /\ gs_polls st' = gs_polls st /\ gs_updates st' = gs_updates st.
Proof.
  unfold ended.
  destruct (clearSuppression_frame g (upd_active (delete (keyOf g)) (upd_heap (<[ga_runId g := set_finalized g]>) st)))
    as (E1 & E2 & E3 & E4 & E5 & E6 & E7 & E8).
  simpl in *. rewrite E1, E2, E3, E4, E5, E6, E7, E8. done.
Qed.

Lemma inv_ended st g status reason containers source now :
  GateInv st -> gs_heap st !! ga_runId g = Some g -> ga_finalized g = false ->
  GateInv (ended g status reason containers source now st).
Proof.
  intros HI Hg Hf. destruct (ended_fields g status reason containers source now st)
    as (_ & Eh & Ea & Epr & _ & Er & Ep & _).
  destruct HI as [H1 H2 H3 H4 H5 H6 H7 H8 H9]. destruct (H2 _ _ Hg) as [_ Hact]. specialize (Hact Hf).
  split; rewrite ?Eh, ?Ea, ?Er, ?Ep, ?Epr; [| | | | | | |done|].
  - intros key r Hr. apply lookup_delete_Some in Hr as [Hk Hr]. destruct (H1 key r Hr) as (x & Hx & Hxf & Hxk).
    exists x. rewrite lookup_insert_ne; [done|]. intros <-. simplify_eq.
  - intros r x Hx. apply lookup_insert_Some in Hx as [[<- <-]|[Hne Hx]]; [done|].
    destruct (H2 r x Hx) as [Hid Ha]. split; [done|]. intros Hxf. specialize (Ha Hxf).
    rewrite lookup_delete_ne; [done|]. intros Hk. rewrite Hk in Hact. congruence.
  - intros r x Hx. apply lookup_insert_Some in Hx as [[<- <-]|[Hne Hx]].
    + destruct (H3 _ _ Hg) as (y & Hy & Hrest). exists (finish_row status reason now containers source y).
      rewrite lookup_alter_eq, Hy. split; [done|]. simpl. naive_solver.
    + rewrite lookup_alter_ne by done. eauto.
  - intros r x Hx. apply lookup_insert_Some in Hx as [[<- <-]|[Hne Hx]]; [done|eauto].
  - intros r Hr. destruct (decide (ga_runId g = r)) as [<-|Hne]; [rewrite lookup_insert_eq; eauto|].
    rewrite lookup_insert_ne by done. auto.
  - rewrite map_size_delete, Hact. simpl. lia.
  - intros r x Hx. apply lookup_insert_Some in Hx as [[<- <-]|[Hne Hx]]; [exact (H7 _ _ Hg)|eauto].
  - intros r x Hx. apply lookup_insert_Some in Hx as [[<- <-]|[Hne Hx]]; [exact (H9 _ _ Hg)|eauto].
Qed.

Lemma inv_finalize runId status reason containers source now st :
  GateInv st -> GateInv (state (finalize runId status reason containers source now) st).
Proof.
  intros HI. rewrite finalize_eq by done. destruct (gs_heap st !! runId) as [g|] eqn:Hg; [|done].
  destruct (ga_finalized g) eqn:Hf; [done|]. apply inv_ended; [done| |done].
  destruct (gi_heap _ HI _ _ Hg) as [-> _]. done.
Qed.

(** ** Ending several gates *)

(** [st'] is [st] after some gates in flight ended. *)
Record Ends (st st' : GateSys) : Prop := {
  en_active : gs_active st' ⊆ gs_active st;
  en_heap : forall r g', gs_heap st' !! r = Some g' ->
    exists g, gs_heap st !! r = Some g /\ gateId g' = gateId g /\ (ga_finalized g' = false -> g' = g);
  en_rows : forall r row, gs_rows st !! r = Some row -> is_Some (rw_status row) -> gs_rows st' !! r = Some row;
  en_fresh : forall r, gs_rows st !! r = None -> gs_rows st' !! r = None;
  en_other : forall r, gs_heap st !! r = None -> gs_rows st' !! r = gs_rows st !! r;
  en_row_id : forall r row', gs_rows st' !! r = Some row' -> exists row, gs_rows st !! r = Some row
    /\ rw_window_seconds row' = rw_window_seconds row;
  en_started : gs_started st' = gs_started st;
  en_prepared : gs_prepared st' = gs_prepared st /\ gs_droppedPrepared st' = gs_droppedPrepared st;
  en_polls : gs_polls st' = gs_polls st;
  en_updates : gs_updates st' = gs_updates st;
}.

Lemma Ends_refl st : Ends st st.
Proof. split; eauto. Qed.

Lemma Ends_trans st1 st2 st3 : Ends st1 st2 -> Ends st2 st3 -> Ends st1 st3.
Proof.
  intros A B. split.
  - etrans; [apply B|apply A].
  - intros r g3 H3. destruct (en_heap _ _ B r g3 H3) as (g2 & H2 & E2 & F2).
    destruct (en_heap _ _ A r g2 H2) as (g1 & H1 & E1 & F1). exists g1. split_and!; [done|congruence|].
    intros Hf. specialize (F2 Hf). subst g3. by apply F1.
  - intros r row H Hs. apply (en_rows _ _ B); [|done]. by apply (en_rows _ _ A).
  - intros r H. by apply (en_fresh _ _ B), (en_fresh _ _ A).
  - intros r H. rewrite (en_other _ _ B); [by apply (en_other _ _ A)|].
    destruct (gs_heap st2 !! r) as [g|] eqn:Hg; [|done].
    destruct (en_heap _ _ A r g Hg) as (x & Hx & _). congruence.
  - intros r row3 H3. destruct (en_row_id _ _ B r row3 H3) as (row2 & H2 & E2).
    destruct (en_row_id _ _ A r row2 H2) as (row1 & H1 & E1). exists row1. split; [done|congruence].
  - rewrite (en_started _ _ B). apply A.
  - destruct (en_prepared _ _ B) as [-> ->]. apply A.
  - rewrite (en_polls _ _ B). apply A.
  - rewrite (en_updates _ _ B). apply A.
Qed.

Lemma Ends_ended st g status reason containers source now :
  GateInv st -> gs_heap st !! ga_runId g = Some g -> ga_finalized g = false ->
  Ends st (ended g status reason containers source now st).
Proof.
  intros HI Hg Hf. destruct (ended_fields g status reason containers source now st)
    as (Es & Eh & Ea & Ep1 & Ep2 & Er & Ep & Eu).
  split; rewrite ?Es, ?Eh, ?Ea, ?Ep1, ?Ep2, ?Er, ?Ep, ?Eu; try done.
  - apply delete_subseteq.
  - intros r g' H'. apply lookup_insert_Some in H' as [[<- <-]|[Hne H']]; [|eauto].
    exists g. split_and!; [done|done|]. intros [=].
  - intros r row Hr [v Hv]. destruct (decide (ga_runId g = r)) as [<-|Hne]; [|by rewrite lookup_alter_ne].
    destruct (gi_row _ HI _ _ Hg) as (y & Hy & _ & _ & _ & _ & Hst). simplify_eq.
    apply Hst in Hf. congruence.
  - intros r Hr. destruct (decide (ga_runId g = r)) as [<-|Hne]; [|by rewrite lookup_alter_ne].
    by rewrite lookup_alter_eq, Hr.
  - intros r Hr. apply lookup_alter_ne. intros <-. congruence.
  - intros r row' H'. rewrite lookup_alter in H'. case_decide; [|eauto].
    subst r. apply fmap_Some in H' as (y & Hy & ->). eauto.
Qed.

Lemma finalize_ends runId status reason containers source now st :
  GateInv st -> Ends st (state (finalize runId status reason containers source now) st).
Proof.
  intros HI. rewrite finalize_eq by done. destruct (gs_heap st !! runId) as [g|] eqn:Hg; [|apply Ends_refl].
  destruct (ga_finalized g) eqn:Hf; [apply Ends_refl|]. apply Ends_ended; [done| |done].
  destruct (gi_heap _ HI _ _ Hg) as [-> _]. done.
Qed.

Lemma finalize_done runId status reason containers source now st x :
  GateInv st -> gs_heap (state (finalize runId status reason containers source now) st) !! runId = Some x ->
  ga_finalized x = true.
Proof.
  intros HI. rewrite finalize_eq by done. destruct (gs_heap st !! runId) as [g|] eqn:Hg; [|congruence].
  destruct (ga_finalized g) eqn:Hf; [congruence|].
  destruct (ended_fields g status reason containers source now st) as (_ & -> & _).
  destruct (gi_heap _ HI _ _ Hg) as [-> _]. rewrite lookup_insert_eq. by intros [= <-].
Qed.

Lemma Ends_finalized st st' r x x' :
  Ends st st' -> gs_heap st !! r = Some x -> gs_heap st' !! r = Some x' -> ga_finalized x = true ->
  ga_finalized x' = true.
Proof.
  intros HE Hx Hx' Hf. destruct (en_heap _ _ HE r x' Hx') as (y & Hy & _ & E). simplify_eq.
  destruct (ga_finalized x') eqn:F; [done|]. specialize (E eq_refl). congruence.
Qed.

Lemma endList_spec reason now l st :
  GateInv st ->
  let st' := state (for_each (fun g => finalize (ga_runId g) unknown (Some reason) [] None now) l) st in
  GateInv st' /\ Ends st st'
  /\ forall g x, g ∈ l -> gs_heap st' !! ga_runId g = Some x -> ga_finalized x = true.
Proof.
  revert st. induction l as [|g l IH]; intros st HI; cbn [for_each].
  { rewrite state_skip. split_and!; [done|apply Ends_refl|set_solver]. }
  rewrite state_bind. set (st1 := state (finalize _ _ _ _ _ _) st).
  assert (HI1 : GateInv st1) by by apply inv_finalize.
  assert (HE1 : Ends st st1) by by apply finalize_ends.
  destruct (IH st1 HI1) as (HI2 & HE2 & Hl). split_and!; [done|by eapply Ends_trans|].
  intros g' x Hin Hx. apply elem_of_cons in Hin as [->|Hin]; [|by eapply Hl].
  destruct (en_heap _ _ HE2 _ _ Hx) as (y & Hy & _). eapply Ends_finalized; [exact HE2|exact Hy|exact Hx|].
  eapply (finalize_done (ga_runId g)); [exact HI|exact Hy].
Qed.

Lemma endGates_spec p reason now st :
  GateInv st ->
  let st' := state (endGates p reason now) st in
  GateInv st' /\ Ends st st'
  /\ forall key r g, gs_active st' !! key = Some r -> gs_heap st' !! r = Some g -> p g = false.
Proof.
  intros HI. unfold endGates. rewrite state_bind, state_get, result_get.
  destruct (endList_spec reason now (List.filter p (activeGates st)) st HI) as (HI' & HE & Hl).
  split_and!; [done|done|]. intros key r g Hr Hg. destruct (p g) eqn:Ep; [|done]. exfalso.
  destruct (gi_active _ HI' _ _ Hr) as (x & Hx & Hxf & _). simplify_eq.
  destruct (en_heap _ _ HE _ _ Hg) as (y & Hy & _ & E). specialize (E Hxf). subst y.
  assert (Hid : ga_runId g = r) by by apply (gi_heap _ HI').
  assert (ga_finalized g = true); [|congruence]. apply (Hl g); [|by rewrite Hid].
  apply list_elem_of_In, filter_In. split; [|done]. apply list_elem_of_In.
  unfold activeGates. apply list_elem_of_omap. exists (key, r). split; [|done].
  apply elem_of_map_to_list. by eapply lookup_weaken; [|apply HE].
Qed.

(** ** Keys *)

Lemma gateKey_inj n s sc sv n' s' sc' sv' :
  no_colon s = true -> no_colon s' = true ->
  gateKey n s sc sv = gateKey n' s' sc' sv' -> n = n' /\ s = s' /\ sc = sc' /\ default "_" sv = default "_" sv'.
Proof.
  intros Hs Hs' H. unfold gateKey in H.
  apply append_colon_inj in H as [Hn H]; try apply no_colon_pretty. apply (inj pretty) in Hn.
  apply append_colon_inj in H as [-> H]; [|done|done].
  apply append_colon_inj in H as [Hsc Hsv]; [|by destruct sc|by destruct sc'].
  split_and!; [done|done|by destruct sc, sc'|done].
Qed.

(** No gate in flight has the key of a target whose gates were ended. *)
Lemma key_free_stack n s st :
  GateInv st -> no_colon s = true ->
  (forall key r g, gs_active st !! key = Some r -> gs_heap st !! r = Some g -> onStack n s g && true = false) ->
  gs_active st !! gateKey n s scope_stack None = None.
Proof.
  intros HI Hs Hend. destruct (gs_active st !! _) as [r|] eqn:Hr; [|done]. exfalso.
  destruct (gi_active _ HI _ _ Hr) as (g & Hg & _ & Hk). destruct (gi_names _ HI _ _ Hg) as [Hgs _].
  apply gateKey_inj in Hk as (E1 & E2 & _); [|done|done].
  specialize (Hend _ _ _ Hr Hg). unfold onStack in Hend. by rewrite E1, E2, !bool_decide_true in Hend.
Qed.

Lemma key_free_service n s sv st :
  GateInv st -> no_colon s = true ->
  (forall key r g, gs_active st !! key = Some r -> gs_heap st !! r = Some g ->
     onStack n s g && negb (bool_decide (ga_targetScope g = scope_service)
                            && negb (bool_decide (ga_serviceName g = Some sv))) = false) ->
  gs_active st !! gateKey n s scope_service (Some sv) = None.
Proof.
  intros HI Hs Hend. destruct (gs_active st !! _) as [r|] eqn:Hr; [|done]. exfalso.
  destruct (gi_active _ HI _ _ Hr) as (g & Hg & _ & Hk). destruct (gi_names _ HI _ _ Hg) as [Hgs Hsv].
  apply gateKey_inj in Hk as (E1 & E2 & Hsc & Hd); [|done|done]. rewrite Hsc in Hsv. destruct Hsv as [x Hx].
  rewrite Hx in Hd. simpl in Hd. subst x. specialize (Hend _ _ _ Hr Hg). unfold onStack in Hend.
  by rewrite E1, E2, Hx, !bool_decide_true in Hend.
Qed.

(** ** Arming *)

Definition fits (g : ActiveGate) (r : HealthGateRunRow) : Prop :=
  rw_node_id r = ga_nodeId g /\ rw_stack_name r = ga_stackName g /\ rw_target_scope r = ga_targetScope g
  /\ (ga_targetScope g = scope_service -> rw_service_name r = ga_serviceName g) /\ rw_status r = None.

Lemma inv_arm g r st :
  GateInv st -> gs_rows st !! ga_runId g = Some r -> fits g r -> gs_heap st !! ga_runId g = None ->
  gs_active st !! keyOf g = None -> atCap st = false -> ga_finalized g = false -> ga_timer g = true -> wellNamed g ->
  0 <= ga_consecutivePollErrors g ->
  GateInv (state (arm_gate g) st).
Proof.
  intros [H1 H2 H3 H4 H5 H6 H7 H8 H9] Hr Hfit Hh Ha Hcap Hf Ht Hn He. unfold arm_gate.
  rewrite state_bind, !state_modify. split; simpl; [| | | | | | |done|].
  - intros key x Hx. apply lookup_insert_Some in Hx as [[<- <-]|[Hne Hx]].
    + exists g. by rewrite lookup_insert_eq.
    + destruct (H1 key x Hx) as (y & Hy & Hrest). exists y. rewrite lookup_insert_ne; [done|]. intros <-. congruence.
  - intros x y Hy. apply lookup_insert_Some in Hy as [[<- <-]|[Hne Hy]].
    + split; [done|]. intros _. apply lookup_insert_eq.
    + destruct (H2 x y Hy) as [Hid Hact]. split; [done|]. intros Hyf. specialize (Hact Hyf).
      rewrite lookup_insert_ne; [done|]. intros Hk. rewrite Hk in Ha. congruence.
  - intros x y Hy. apply lookup_insert_Some in Hy as [[<- <-]|[Hne Hy]]; [|eauto].
    destruct Hfit as (F1 & F2 & F3 & F4 & F5). exists r. by rewrite F5.
  - intros x y Hy. apply lookup_insert_Some in Hy as [[<- <-]|[Hne Hy]]; [|eauto].
    rewrite Ht, Hf, bool_decide_false; [done|]. intros Hp. apply H5 in Hp. rewrite Hh in Hp. by destruct Hp.
  - intros x Hx. destruct (decide (ga_runId g = x)) as [<-|Hne]; [rewrite lookup_insert_eq; eauto|].
    rewrite lookup_insert_ne by done. auto.
  - rewrite map_size_insert_None by done. unfold atCap, MAX_CONCURRENT_GATES in *. zlia.
  - intros x y Hy. apply lookup_insert_Some in Hy as [[<- <-]|[Hne Hy]]; [done|eauto].
  - intros x y Hy. apply lookup_insert_Some in Hy as [[<- <-]|[Hne Hy]]; [done|eauto].
Qed.

Lemma fresh_heap runId st : GateInv st -> freshRun runId st -> gs_heap st !! runId = None.
Proof.
  intros HI Hf. destruct (gs_heap st !! runId) as [g|] eqn:Hg; [|done].
  destruct (gi_row _ HI _ _ Hg) as (r & Hr & _). unfold freshRun in Hf. congruence.
Qed.

Lemma inv_new_row runId row st : GateInv st -> freshRun runId st -> GateInv (upd_rows (<[runId := row]>) st).
Proof.
  intros HI Hf. pose proof (fresh_heap _ _ HI Hf) as Hh. destruct HI as [H1 H2 H3 H4 H5 H6 H7 H8 H9].
  split; simpl; try done. intros r g Hg. destruct (H3 r g Hg) as (x & Hx & Hrest). exists x.
  rewrite lookup_insert_ne; [done|]. intros <-. congruence.
Qed.

Lemma inv_prepared f st :
  GateInv st -> (forall token p, f (gs_prepared st) !! token = Some p -> no_colon (pr_stackName p) = true) ->
  GateInv (upd_prepared f st).
Proof. intros [H1 H2 H3 H4 H5 H6 H7 H8 H9] Hf. by split. Qed.

Lemma inv_frame st st' :
  GateInv st -> gs_heap st' = gs_heap st -> gs_active st' = gs_active st -> gs_rows st' = gs_rows st ->
  gs_polls st' = gs_polls st -> gs_prepared st' = gs_prepared st -> GateInv st'.
Proof.
  intros [H1 H2 H3 H4 H5 H6 H7 H8 H9] Eh Ea Er Ep Epr.
  split; rewrite ?Eh, ?Ea, ?Er, ?Ep, ?Epr; done.
Qed.

Lemma supersede_stack_spec n s reason now st :
  GateInv st -> no_colon s = true ->
  let st' := state (supersedeGatesForStack n s None reason now) st in
  GateInv st' /\ Ends st st' /\ gs_active st' !! gateKey n s scope_stack None = None.
Proof.
  intros HI Hs. unfold supersedeGatesForStack.
  destruct (endGates_spec (fun g => onStack n s g && true) reason now st HI) as (HI' & HE & Hend).
  split; [exact HI'|split; [exact HE|]]. by apply key_free_stack.
Qed.

Lemma supersede_service_spec n s sv reason now st :
  GateInv st -> no_colon s = true ->
  let st' := state (supersedeGatesForStack n s (Some (Some sv)) reason now) st in
  GateInv st' /\ Ends st st' /\ gs_active st' !! gateKey n s scope_service (Some sv) = None.
Proof.
  intros HI Hs. unfold supersedeGatesForStack.
  destruct (endGates_spec (fun g => onStack n s g && negb (bool_decide (ga_targetScope g = scope_service)
    && negb (bool_decide (ga_serviceName g = Some sv)))) reason now st HI) as (HI' & HE & Hend).
  split; [exact HI'|split; [exact HE|]]. by apply key_free_service.
Qed.
