(* ===== verification/GateSteps.v ===== *)
(** * Health gate service: what every step keeps, and how a gate ends

    The invariant of HealthGate.v and the suppressions of auto-heal through every
    step of the service, and the theorems on reachable states: gates and rows, the
    finality of a verdict, the suppression of a service under observation, and the
    decision of a gate after its window. *)

From S2P Require Import Prelude HealthPolicy GatePoll AutoHeal HealthGate.

(** ** Counting the entries of a map by key *)

Section count.
Context {A : Type} (f : A -> option string) (key : string).

Definition tally (x : A) : Z := if bool_decide (f x = Some key) then 1 else 0.
Definition countOf (m : gmap string A) : Z :=
  Z.of_nat (size (filter (fun kx => f kx.2 = Some key) m)).

Lemma countOf_new m i x : m !! i = None -> countOf (<[i := x]> m) = countOf m + tally x.
Proof.
  intros Hi. unfold countOf, tally. rewrite map_filter_insert.
  assert (Hf : filter (fun kx : string * A => f kx.2 = Some key) m !! i = None)
    by (apply map_lookup_filter_None; by left).
  destruct (decide _) as [Hk|Hk]; simpl in Hk.
  - rewrite bool_decide_true, map_size_insert_None by done. lia.
  - rewrite bool_decide_false, delete_id by done. lia.
Qed.

Lemma countOf_delete m i y : m !! i = Some y -> countOf (delete i m) = countOf m - tally y.
Proof.
  intros Hi. rewrite <- (insert_delete_id m i y Hi) at 2. rewrite countOf_new by apply lookup_delete_eq. lia.
Qed.

Lemma countOf_replace m i y x :
  m !! i = Some y -> countOf (<[i := x]> m) = countOf m - tally y + tally x.
Proof.
  intros Hi. rewrite <- insert_delete_eq, countOf_new by apply lookup_delete_eq. by rewrite (countOf_delete _ _ _ Hi).
Qed.

Lemma tally_nonneg x : 0 <= tally x.
Proof. unfold tally. case_bool_decide; lia. Qed.

Lemma countOf_nonneg m : 0 <= countOf m.
Proof. unfold countOf. lia. Qed.

Lemma countOf_pos m i x : m !! i = Some x -> f x = Some key -> 0 < countOf m.
Proof.
  intros Hi Hk. pose proof (countOf_delete _ _ _ Hi) as H. pose proof (countOf_nonneg (delete i m)).
  unfold tally in H. rewrite bool_decide_true in H by done. lia.
Qed.
End count.

(** ** The suppressions *)

(** The suppression a gate in flight releases. *)
Definition heldBy (g : ActiveGate) : option string :=
  if ga_finalized g then None
  else match ga_targetScope g, truthy (ga_serviceName g) with
       | scope_service, Some service => Some (suppressKey (ga_nodeId g) (ga_stackName g) service)
       | _, _ => None
       end.

Definition updateKey (u : Z * string * string) : option string := Some (suppressKey u.1.1 u.1.2 u.2).

Definition suppressions (key : string) (h : AutoHeal) : Z := default 0 (ah_suppressedServices h !! key).

(** A suppression per service update in progress and per service gate in flight. *)
Definition HealInv (st : GateSys) : Prop :=
  forall key, suppressions key (gs_heal st) = countOf heldBy key (gs_heap st) + countOf updateKey key (gs_updates st).

Lemma suppress_count n s service h key :
  suppressions key (state (suppress n s service) h) = suppressions key h + tally updateKey key (n, s, service).
Proof.
  unfold suppress, suppressions, tally, updateKey. cbv zeta. cbn [fst snd].
  set (k := suppressKey n s service). rewrite state_modify. cbn [ah_suppressedServices upd_suppressed].
  rewrite lookup_insert. case_decide as Hk; [subst; rewrite bool_decide_true by done; simpl; lia|].
  rewrite bool_decide_false; [lia|]. by intros [= ->].
Qed.

Lemma clearSuppress_count n s service h key :
  tally updateKey key (n, s, service) <= suppressions key h ->
  suppressions key (state (clearSuppress n s service) h) = suppressions key h - tally updateKey key (n, s, service).
Proof.
  unfold clearSuppress, suppressions, tally, updateKey. cbv zeta. cbn [fst snd].
  set (k := suppressKey n s service). rewrite state_modify. cbn [ah_suppressedServices upd_suppressed]. destruct (decide (k = key)) as [->|Hne].
  - rewrite bool_decide_true by done. intros Hle. destruct (_ <=? 1) eqn:E; simpl.
    + rewrite lookup_delete_eq. simpl. zlia.
    + rewrite lookup_insert_eq. simpl. lia.
  - rewrite bool_decide_false by (by intros [= ->]). intros _. destruct (_ <=? 1); simpl.
    + rewrite lookup_delete_ne by done. lia.
    + rewrite lookup_insert_ne by done. lia.
Qed.

(** ** What a step keeps *)

(** The rows that have a verdict keep it, whole. *)
Definition settled (st st' : GateSys) : Prop :=
  forall runId row, gs_rows st !! runId = Some row -> is_Some (rw_status row) -> gs_rows st' !! runId = Some row.

Record Good (st0 st : GateSys) : Prop := {
  gd_inv : GateInv st;
  gd_heal : HealInv st;
  gd_settled : settled st0 st;
}.

Lemma Good_refl st : GateInv st -> HealInv st -> Good st st.
Proof. by split; [| |intros r row Hr _]. Qed.

Section steps.
Context (st0 : GateSys).

Lemma good_frame st st' :
  Good st0 st -> gs_heap st' = gs_heap st -> gs_active st' = gs_active st -> gs_rows st' = gs_rows st ->
  gs_polls st' = gs_polls st -> gs_prepared st' = gs_prepared st -> gs_heal st' = gs_heal st ->
  gs_updates st' = gs_updates st -> Good st0 st'.
Proof.
  intros [HI HH HS] E1 E2 E3 E4 E5 E6 E7. split.
  - by eapply inv_frame.
  - intros key. rewrite E1, E6, E7. apply HH.
  - intros r row Hr Hs. rewrite E3. by apply HS.
Qed.

Lemma good_prepared f st :
  Good st0 st -> (forall token p, f (gs_prepared st) !! token = Some p -> no_colon (pr_stackName p) = true) ->
  Good st0 (upd_prepared f st).
Proof. intros [HI HH HS] Hf. split; [by apply inv_prepared|exact HH|exact HS]. Qed.

Lemma heldBy_gateId g g' : gateId g' = gateId g -> ga_finalized g' = ga_finalized g -> heldBy g' = heldBy g.
Proof. unfold gateId, heldBy. intros [= _ -> -> -> ->] ->. done. Qed.

Lemma tally_ext g g' key : heldBy g' = heldBy g -> tally heldBy key g' = tally heldBy key g.
Proof. unfold tally. by intros ->. Qed.

Lemma good_heap runId g g' st :
  Good st0 st -> gs_heap st !! runId = Some g -> gateId g' = gateId g -> ga_finalized g' = ga_finalized g ->
  ga_timer g' = ga_timer g -> 0 <= ga_consecutivePollErrors g' -> Good st0 (upd_heap (<[runId := g']>) st).
Proof.
  intros [HI HH HS] Hg Hid Hf Ht He. split; [by eapply inv_heap_upd| |exact HS].
  intros key. simpl. rewrite (countOf_replace _ _ _ _ _ _ Hg), (tally_ext g g' key) by by apply heldBy_gateId.
  rewrite HH. lia.
Qed.

Lemma alter_insert {A} (f : A -> A) i (m : gmap string A) :
  alter f i m = match m !! i with Some x => <[i := f x]> m | None => m end.
Proof.
  apply map_eq. intros j. rewrite lookup_alter. case_decide; [subst|].
  - destruct (m !! j) eqn:E; [by rewrite lookup_insert_eq|by rewrite E].
  - destruct (m !! i) eqn:E; [by rewrite lookup_insert_ne|done].
Qed.

Lemma upd_heap_id st : upd_heap id st = st.
Proof. by destruct st. Qed.

(** An update of one gate that keeps its identity, its timer and its counter. *)
Lemma good_alter (f : ActiveGate -> ActiveGate) runId st :
  (forall g, gateId (f g) = gateId g /\ ga_finalized (f g) = ga_finalized g /\ ga_timer (f g) = ga_timer g
             /\ (0 <= ga_consecutivePollErrors g -> 0 <= ga_consecutivePollErrors (f g))) ->
  Good st0 st -> Good st0 (upd_heap (alter f runId) st).
Proof.
  intros Hf HG. destruct (gs_heap st !! runId) as [g|] eqn:Hg.
  - replace (upd_heap (alter f runId) st) with (upd_heap (<[runId := f g]>) st)
      by (unfold upd_heap; by rewrite alter_insert, Hg).
    destruct (Hf g) as (H1 & H2 & H3 & H4). eapply good_heap; eauto. apply H4, (gi_errors _ (gd_inv _ _ HG) _ _ Hg).
  - replace (upd_heap (alter f runId) st) with st; [done|].
    rewrite <- (upd_heap_id st) at 1. unfold upd_heap. by rewrite alter_insert, Hg.
Qed.

Lemma ended_heal g status reason containers source now st key :
  tally heldBy key g <= suppressions key (gs_heal st) -> ga_finalized g = false ->
  suppressions key (gs_heal (ended g status reason containers source now st))
  = suppressions key (gs_heal st) - tally heldBy key g.
Proof.
  intros Hle Hf. unfold ended, clearSuppression. simpl. unfold tally, heldBy in *. rewrite Hf in *.
  destruct (ga_targetScope g); [rewrite state_skip; simpl; lia|].
  destruct (truthy (ga_serviceName g)) as [service|]; [|rewrite state_skip; simpl; lia].
  rewrite state_modify. simpl. by apply clearSuppress_count.
Qed.

Lemma good_finalize runId status reason containers source now st :
  Good st0 st -> Good st0 (state (finalize runId status reason containers source now) st).
Proof.
  intros [HI HH HS]. pose proof (finalize_ends runId status reason containers source now st HI) as HE.
  split; [by apply inv_finalize| |intros r row Hr Hs; apply (en_rows _ _ HE); auto].
  rewrite finalize_eq by done. destruct (gs_heap st !! runId) as [g|] eqn:Hg; [|done].
  destruct (ga_finalized g) eqn:Hf; [done|]. destruct (gi_heap _ HI _ _ Hg) as [Hid _].
  destruct (ended_fields g status reason containers source now st) as (_ & Eh & _ & _ & _ & _ & _ & Eu).
  intros key. rewrite Hid in Eh. pose proof (countOf_delete heldBy key _ _ _ Hg).
  pose proof (countOf_nonneg heldBy key (delete runId (gs_heap st))).
  pose proof (countOf_nonneg updateKey key (gs_updates st)). specialize (HH key).
  rewrite ended_heal, Eh, Eu, (countOf_replace _ _ _ _ _ _ Hg) by (done || lia).
  change (tally heldBy key (set_finalized g)) with 0. lia.
Qed.

Lemma good_endGates p reason now st : Good st0 st -> Good st0 (state (endGates p reason now) st).
Proof.
  intros HG. unfold endGates. rewrite state_bind, state_get, result_get. apply for_each_ind; [done|].
  intros g st' _ HG'. by apply good_finalize.
Qed.

Lemma good_supersede n s service reason now st :
  Good st0 st -> Good st0 (state (supersedeGatesForStack n s service reason now) st).
Proof. apply good_endGates. Qed.

Lemma good_new_row runId row st :
  Good st0 st -> freshRun runId st -> Good st0 (upd_rows (<[runId := row]>) st).
Proof.
  intros [HI HH HS] Hf. split; [by apply inv_new_row|exact HH|].
  intros r x Hr Hs. simpl. rewrite lookup_insert_ne; [by apply HS|]. intros <-.
  specialize (HS _ _ Hr Hs). unfold freshRun in Hf. congruence.
Qed.

(** A row that observes and that no gate of this process has. *)
Lemma good_orphan_row runId row row' st :
  Good st0 st -> gs_rows st !! runId = Some row -> rw_status row = None -> gs_heap st !! runId = None ->
  Good st0 (upd_rows (<[runId := row']>) st).
Proof.
  intros [[H1 H2 H3 H4 H5 H6 H7 H8 H9] HH HS] Hr Hn Hh. split; [|exact HH|].
  - split; simpl; try done. intros r g Hg. destruct (H3 r g Hg) as (x & Hx & Hrest). exists x.
    rewrite lookup_insert_ne; [done|]. intros <-. congruence.
  - intros r x Hx Hs. simpl. rewrite lookup_insert_ne; [by apply HS|]. intros <-. specialize (HS _ _ Hx Hs).
    rewrite Hr in HS. injection HS as ->. rewrite Hn in Hs. by destruct Hs.
Qed.

(** Arming a gate whose suppression, if any, is counted elsewhere. *)
Lemma arm_heal g st key :
  gs_heap st !! ga_runId g = None -> HealInv st ->
  suppressions key (gs_heal (state (arm_gate g) st)) + tally heldBy key g
  = countOf heldBy key (gs_heap (state (arm_gate g) st)) + countOf updateKey key (gs_updates (state (arm_gate g) st)).
Proof.
  intros Hh HH. unfold arm_gate. rewrite state_bind, !state_modify. simpl. rewrite countOf_new by done.
  specialize (HH key). lia.
Qed.

(** What a gate that is about to be armed satisfies. *)
Record Armable (g : ActiveGate) (st : GateSys) : Prop := {
  ar_row : exists r, gs_rows st !! ga_runId g = Some r /\ fits g r;
  ar_heap : gs_heap st !! ga_runId g = None;
  ar_free : gs_active st !! keyOf g = None;
  ar_room : atCap st = false;
  ar_fresh : ga_finalized g = false /\ ga_timer g = true /\ 0 <= ga_consecutivePollErrors g;
  ar_named : wellNamed g;
}.

Lemma armable_inv g st : GateInv st -> Armable g st -> GateInv (state (arm_gate g) st).
Proof. intros HI [(r & Hr & Hfit) H2 H3 H4 (H5 & H6 & H7) H8]. by eapply inv_arm. Qed.

Lemma arm_settled g st : settled st0 st -> settled st0 (state (arm_gate g) st).
Proof. intros HS. unfold arm_gate. rewrite state_bind, !state_modify. exact HS. Qed.

Lemma good_arm_stack g st :
  Good st0 st -> Armable g st -> ga_targetScope g = scope_stack -> Good st0 (state (arm_gate g) st).
Proof.
  intros [HI HH HS] HA Hsc. split; [by apply armable_inv| |by apply arm_settled].
  intros key. rewrite <- (arm_heal g st key (ar_heap _ _ HA) HH). unfold tally, heldBy. rewrite Hsc.
  destruct (ga_finalized g); simpl; lia.
Qed.

Lemma good_arm_service g op u st :
  Good st0 st -> Armable g st -> gs_updates st !! op = Some u -> heldBy g = updateKey u ->
  Good st0 (upd_updates (delete op) (state (arm_gate g) st)).
Proof.
  intros [HI HH HS] HA Hu Hk. split.
  - eapply inv_frame; [by apply armable_inv| | | | |]; done.
  - intros key. pose proof (arm_heal g st key (ar_heap _ _ HA) HH) as E.
    assert (Eu : gs_updates (state (arm_gate g) st) = gs_updates st) by done.
    rewrite Eu in E. cbn [upd_updates gs_heal gs_heap gs_updates].
    change (delete op _) with (delete op (gs_updates st)). rewrite (countOf_delete updateKey key _ _ _ Hu).
    assert (Ht : tally updateKey key u = tally heldBy key g) by (unfold tally; by rewrite Hk).
    lia.
  - by apply arm_settled.
Qed.

Lemma row_armable g row st :
  GateInv st -> freshRun (ga_runId g) st -> fits g row -> gs_active st !! keyOf g = None -> atCap st = false ->
  ga_finalized g = false -> ga_timer g = true -> 0 <= ga_consecutivePollErrors g -> wellNamed g ->
  Armable g (upd_rows (<[ga_runId g := row]>) st).
Proof.
  intros HI Hfresh Hfit Hk Hcap Hf Ht He Hn. split; simpl; try done.
  - exists row. by rewrite lookup_insert_eq.
  - by apply fresh_heap.
Qed.

Lemma good_beginStack n s trigger deployed e st :
  Good st0 st -> freshRun (be_runId e) st -> no_colon s = true ->
  Good st0 (state (beginStack n s trigger deployed e) st).
Proof.
  intros HG Hf Hs. unfold beginStack. rewrite state_bind, state_get, result_get.
  destruct (negb (gs_started st)); [done|]. rewrite state_bind, state_when_tell.
  destruct (negb (se_enabled _)); [done|]. rewrite state_bind.
  destruct (supersede_stack_spec n s R_superseded (be_now e) st (gd_inv _ _ HG) Hs) as (HI1 & HE & Hfree).
  pose proof (good_supersede n s None R_superseded (be_now e) st HG) as HG1.
  set (st1 := state (supersedeGatesForStack _ _ _ _ _) st) in *.
  assert (Hf1 : freshRun (be_runId e) st1) by by apply (en_fresh _ _ HE).
  rewrite state_bind, state_get, result_get. destruct (atCap st1) eqn:Ecap.
  - rewrite state_bind, state_modify, state_ret. by apply good_new_row.
  - rewrite !state_bind, state_modify, state_ret.
    match goal with |- context [arm_gate ?x] => set (g := x) end. apply good_arm_stack; [by apply good_new_row| |done].
    apply (row_armable g); try done.
Qed.

Lemma good_reserveRecoveryRun linked n s deployed e st :
  Good st0 st -> freshRun (be_runId e) st -> Good st0 (state (reserveRecoveryRun linked n s deployed e) st).
Proof.
  intros HG Hf. unfold reserveRecoveryRun. destruct (negb (se_enabled _)); [done|].
  destruct (truthy linked); [done|]. rewrite state_bind, state_modify. by apply good_new_row.
Qed.

Lemma good_reserveRolloutRun rollout accepted n s e st :
  Good st0 st -> freshRun (be_runId e) st -> Good st0 (state (reserveRolloutRun rollout accepted n s e) st).
Proof.
  intros HG Hf. unfold reserveRolloutRun. destruct (negb (se_enabled _)); [done|].
  rewrite state_bind, state_get, result_get. destruct (findRolloutReservation _ _ _ _); [done|].
  rewrite state_bind, state_modify. by apply good_new_row.
Qed.

(** A row that observes and that this process holds a gate for is in flight. *)
Lemma observing_in_flight runId g r st :
  GateInv st -> gs_heap st !! runId = Some g -> gs_rows st !! runId = Some r -> rw_status r = None ->
  rw_target_scope r = scope_stack ->
  gs_active st !! gateKey (rw_node_id r) (rw_stack_name r) scope_stack None = Some runId.
Proof.
  intros HI Hg Hr Hst Hsc. destruct (gi_row _ HI _ _ Hg) as (x & Hx & E1 & E2 & E3 & _ & Hf).
  assert (x = r) as -> by congruence.
  destruct (gi_heap _ HI _ _ Hg) as [_ Ha]. specialize (Ha (proj2 Hf Hst)).
  destruct (gi_names _ HI _ _ Hg) as [_ Hn]. rewrite Hsc in E3. rewrite <- E3 in Hn. unfold keyOf in Ha.
  by rewrite <- E1, <- E2, <- E3, Hn in Ha.
Qed.

Lemma good_armReservedStackRun runId n s trigger now st :
  Good st0 st -> no_colon s = true -> Good st0 (state (armReservedStackRun runId n s trigger now) st).
Proof.
  intros HG Hs. unfold armReservedStackRun. rewrite state_bind, state_get, result_get.
  destruct (negb (gs_started st)); [done|]. destruct (gs_rows st !! runId) as [r|] eqn:Hr; [|done].
  destruct (negb (_ && _)) eqn:E1; [done|]. destruct (negb (_ && _ && _)) eqn:E2; [done|].
  destruct (bool_decide (gs_active st !! _ = Some runId)) eqn:Ea; [done|].
  apply bool_decide_eq_false in Ea. apply negb_false_iff in E1, E2.
  apply andb_true_iff in E1 as [E1n E1s]. apply andb_true_iff in E2 as [E2 E2c]. apply andb_true_iff in E2 as [E2a E2b].
  apply bool_decide_eq_true in E1n, E1s, E2a, E2b, E2c.
  assert (Hh : gs_heap st !! runId = None).
  { destruct (gs_heap st !! runId) as [g|] eqn:Hg; [|done]. exfalso. apply Ea. rewrite <- E1n, <- E1s.
    eapply observing_in_flight; eauto. apply HG. }
  rewrite state_bind.
  destruct (supersede_stack_spec n s R_superseded now st (gd_inv _ _ HG) Hs) as (HI1 & HE & Hfree).
  pose proof (good_supersede n s None R_superseded now st HG) as HG1.
  set (st1 := state (supersedeGatesForStack _ _ _ _ _) st) in *.
  rewrite state_bind, state_get, result_get. destruct (atCap st1) eqn:Ecap; [done|].
  rewrite state_bind, state_ret. apply good_arm_stack; [done| |done]. split; simpl; try done.
  - exists r. rewrite (en_other _ _ HE) by done. by split.
  - destruct (gs_heap st1 !! runId) as [g|] eqn:Hg; [|done].
    destruct (en_heap _ _ HE _ _ Hg) as (x & Hx & _). congruence.
Qed.

Lemma good_finalizePersistedRun runId reason now st row :
  Good st0 st -> gs_rows st !! runId = Some row -> rw_status row = None -> gs_heap st !! runId = None ->
  Good st0 (state (finalizePersistedRun runId reason now) st).
Proof.
  intros HG Hr Hn Hh. unfold finalizePersistedRun. rewrite state_bind, state_get, result_get, Hr.
  rewrite state_bind, state_modify, state_tell. by eapply good_orphan_row.
Qed.

Lemma good_abandonReservedRun runId n s reason now st :
  Good st0 st -> gs_heap st !! runId = None -> Good st0 (state (abandonReservedRun runId n s reason now) st).
Proof.
  intros HG Hh. unfold abandonReservedRun. rewrite state_bind, state_get, result_get.
  destruct (gs_rows st !! runId) as [r|] eqn:Hr; [|done]. destruct (_ && _ && _) eqn:E; [|done].
  apply andb_true_iff in E as [_ E]. apply bool_decide_eq_true in E. by eapply good_finalizePersistedRun.
Qed.

(** ** Start and stop *)

Lemma NoDup_filter_fst {A B} (f : A * B -> bool) l : NoDup l.*1 -> NoDup (List.filter f l).*1.
Proof.
  induction l as [|[a b] l IH]; [done|]. cbn [List.filter]. rewrite fmap_cons. intros [Hn Hd]%NoDup_cons.
  destruct (f (a, b)); [|by apply IH]. rewrite fmap_cons. apply NoDup_cons. split; [|by apply IH]. intros Hin. apply Hn. apply list_elem_of_fmap in Hin as (x & -> & Hx).
  apply list_elem_of_In, filter_In in Hx as [Hx _]. apply list_elem_of_fmap. exists x. split; [done|]. by apply list_elem_of_In.
Qed.

Lemma good_finalize_rows reason now l st :
  Good st0 st -> NoDup l.*1 ->
  (forall kr, kr ∈ l -> gs_rows st !! kr.1 = Some kr.2 /\ rw_status kr.2 = None /\ gs_heap st !! kr.1 = None) ->
  Good st0 (state (for_each (fun kr : string * HealthGateRunRow => finalizePersistedRun kr.1 reason now) l) st).
Proof.
  revert st. induction l as [|[r row] l IH]; intros st HG Hd Hl; cbn [for_each]; [done|].
  apply NoDup_cons in Hd as [Hn Hd]. rewrite state_bind. cbn [fst].
  destruct (Hl (r, row) ltac:(left)) as (Hr & Hs & Hh). simpl in *. apply IH; [by eapply good_finalizePersistedRun|done|].
  intros [r' row'] Hin. destruct (Hl (r', row') ltac:(by right)) as (Hr' & Hs' & Hh'). simpl in *.
  unfold finalizePersistedRun. rewrite state_bind, state_get, result_get, Hr, state_bind, state_modify, state_tell. simpl.
  rewrite lookup_insert_ne; [done|]. intros ->. apply Hn, list_elem_of_fmap. by exists (r', row').
Qed.

Lemma good_start now st : Good st0 st -> gs_active st = ∅ -> Good st0 (state (start now) st).
Proof.
  intros HG Ha. unfold start. rewrite state_bind, state_modify, state_bind, state_get, result_get. simpl.
  apply good_finalize_rows.
  - eapply good_frame; [exact HG|..]; done.
  - apply NoDup_filter_fst, NoDup_fst_map_to_list.
  - intros [r row] Hin. apply list_elem_of_In, filter_In in Hin as [Hin Hs]. simpl in *.
    apply list_elem_of_In, elem_of_map_to_list in Hin. apply bool_decide_eq_true in Hs. split_and!; [done|done|].
    destruct (gs_heap st !! r) as [g|] eqn:Hg; [|done]. exfalso.
    destruct (gi_row _ (gd_inv _ _ HG) _ _ Hg) as (x & Hx & _ & _ & _ & _ & Hf). assert (x = row) as -> by congruence.
    destruct (gi_heap _ (gd_inv _ _ HG) _ _ Hg) as [_ Hact]. specialize (Hact (proj2 Hf Hs)).
    by rewrite Ha, lookup_empty in Hact.
Qed.

Lemma good_stop now st : Good st0 st -> Good st0 (state (stop now) st).
Proof.
  intros HG. unfold stop. rewrite !state_bind, !state_modify. apply good_prepared; [|done].
  apply good_endGates. eapply good_frame; [exact HG|..]; done.
Qed.

(** ** Prepared gates *)

Lemma good_prepared_sub f st :
  Good st0 st -> (forall token p, f (gs_prepared st) !! token = Some p ->
                    exists p', gs_prepared st !! token = Some p' /\ pr_stackName p = pr_stackName p') ->
  Good st0 (upd_prepared f st).
Proof.
  intros HG Hf. apply good_prepared; [done|]. intros token p Hp. destruct (Hf token p Hp) as (p' & Hp' & ->).
  exact (gi_prepared _ (gd_inv _ _ HG) _ _ Hp').
Qed.

Lemma good_sweep now st : Good st0 st -> Good st0 (state (sweepExpiredPrepared now) st).
Proof.
  intros HG. unfold sweepExpiredPrepared. rewrite state_bind, !state_modify.
  eapply good_frame; [apply (good_prepared_sub (filter (fun kp => now < pr_expiresAt kp.2)) st HG)|..]; [|done..].
  intros token p Hp. apply map_lookup_filter_Some in Hp as [Hp _]. eauto.
Qed.

Lemma good_prepare n s service trigger r snapshot w now t token st :
  Good st0 st -> no_colon s = true -> Good st0 (state (prepare n s service trigger r snapshot w now t token) st).
Proof.
  intros HG Hs. unfold prepare. rewrite state_bind, state_modify, state_ret. apply good_prepared; [done|].
  intros token' p Hp. apply lookup_insert_Some in Hp as [[<- <-]|[_ Hp]]; [done|].
  exact (gi_prepared _ (gd_inv _ _ HG) _ _ Hp).
Qed.

Lemma good_attach token image now st : Good st0 st -> Good st0 (state (attachExpectedImage token image now) st).
Proof.
  intros HG. unfold attachExpectedImage. rewrite state_bind, state_modify.
  apply good_prepared_sub; [by apply good_sweep|]. intros token' p Hp. rewrite lookup_alter in Hp. case_decide; [|eauto].
  subst. apply fmap_Some in Hp as (p' & Hp & ->). eauto.
Qed.

Lemma good_dropPrepared p st : Good st0 st -> Good st0 (state (dropPrepared p) st).
Proof.
  intros HG. unfold dropPrepared. rewrite state_bind, state_get, result_get, state_bind, !state_modify.
  eapply good_frame; [apply (good_prepared_sub (filter (fun kp => p kp.2 = false)) st HG)|..]; [|done..].
  intros token x Hx. apply map_lookup_filter_Some in Hx as [Hx _]. eauto.
Qed.

(** ** Container operations *)

Lemma detach_keeps services g :
  let g' := foldl (fun g s => detachServiceFromGate s g) g services in
  gateId g' = gateId g /\ ga_finalized g' = ga_finalized g /\ ga_timer g' = ga_timer g
  /\ (0 <= ga_consecutivePollErrors g -> 0 <= ga_consecutivePollErrors g').
Proof.
  revert g. induction services as [|s services IH]; intros g; simpl; [done|].
  destruct (IH (detachServiceFromGate s g)) as (H1 & H2 & H3 & H4). split_and!; [exact H1|exact H2|exact H3|exact H4].
Qed.

Lemma detachPrepared_keeps services p :
  pr_stackName (foldl (fun p s => detachServiceFromPrepared s p) p services) = pr_stackName p.
Proof. revert p. induction services as [|s services IH]; intros p; simpl; [done|]. by rewrite IH. Qed.

Lemma good_supersedeForContainerOp n s reason services now st :
  Good st0 st -> Good st0 (state (supersedeForContainerOp n s reason services now) st).
Proof.
  intros HG. unfold supersedeForContainerOp. case_bool_decide.
  - rewrite state_bind. by apply good_dropPrepared, good_supersede.
  - rewrite state_bind, state_get, result_get, !state_bind, state_modify. apply good_prepared_sub.
    + apply good_dropPrepared, for_each_ind; [by apply good_endGates|]. intros g st' _ HG'. rewrite state_modify.
      apply good_alter; [|done]. intros g'. apply detach_keeps.
    + intros token p Hp. apply lookup_fmap_Some in Hp as (p' & <- & Hp). exists p'. split; [exact Hp|].
      destruct (_ && _); [apply detachPrepared_keeps|done].
Qed.

(** ** Polls *)

Lemma good_timer runId g g' polls st :
  Good st0 st -> gs_heap st !! runId = Some g -> gateId g' = gateId g -> ga_finalized g' = ga_finalized g ->
  ga_consecutivePollErrors g' = ga_consecutivePollErrors g ->
  (forall r, r <> runId -> polls !! r = gs_polls st !! r) ->
  ga_timer g' = negb (ga_finalized g) && negb (bool_decide (is_Some (polls !! runId))) ->
  Good st0 (upd_polls (fun _ => polls) (upd_heap (<[runId := g']>) st)).
Proof.
  intros [HI HH HS] Hg Hid Hf He Hp Ht.
  (* the same state with the old timer satisfies all but [gi_single] and [gi_polls] *)
  pose proof (good_heap runId g (set_timer (ga_timer g) g') st (Build_Good _ _ HI HH HS) Hg
    ltac:(exact Hid) ltac:(exact Hf) ltac:(done) ltac:(simpl; rewrite He; apply (gi_errors _ HI _ _ Hg))) as [HI' HH' _].
  split; [| |exact HS].
  - destruct HI as [_ _ _ H4 H5 _ _ _ _], HI' as [K1 K2 K3 _ _ K6 K7 K8 K9].
    assert (Hup : forall r x, <[runId := g']> (gs_heap st) !! r = Some x ->
      exists y, <[runId := set_timer (ga_timer g) g']> (gs_heap st) !! r = Some y
        /\ gateId y = gateId x /\ ga_finalized y = ga_finalized x
        /\ ga_consecutivePollErrors y = ga_consecutivePollErrors x).
    { intros r x Hx. apply lookup_insert_Some in Hx as [[<- <-]|[Hne Hx]].
      - exists (set_timer (ga_timer g) g'). by rewrite lookup_insert_eq.
      - exists x. by rewrite lookup_insert_ne. }
    split; simpl; [| | | | |done| |done|].
    + intros key r Hr. destruct (K1 key r Hr) as (x & Hx & Hxf & Hxk).
      simpl in Hx. apply lookup_insert_Some in Hx as [[<- <-]|[Hne Hx]].
      * exists g'. by rewrite lookup_insert_eq.
      * exists x. by rewrite lookup_insert_ne.
    + intros r x Hx. destruct (Hup r x Hx) as (y & Hy & E1 & E2 & E3). destruct (K2 r y Hy) as [A B].
      rewrite (keyOf_gateId _ _ (eq_sym E1)), <- E2. split; [|exact B]. unfold gateId in E1. by injection E1 as <-.
    + intros r x Hx. destruct (Hup r x Hx) as (y & Hy & E1 & E2 & E3). destruct (K3 r y Hy) as (row & Hrow & Hrest).
      exists row. unfold gateId in E1. injection E1 as _ <- <- <- <-. rewrite <- E2. by split.
    + intros r x Hx. apply lookup_insert_Some in Hx as [[<- <-]|[Hne Hx]]; [by rewrite Ht, Hf|].
      rewrite Hp by done. by apply H4.
    + intros r Hr. destruct (decide (runId = r)) as [<-|Hne]; [rewrite lookup_insert_eq; eauto|].
      rewrite lookup_insert_ne by done. apply H5. by rewrite <- Hp.
    + intros r x Hx. destruct (Hup r x Hx) as (y & Hy & E1 & E2 & E3). specialize (K7 r y Hy). unfold wellNamed in *.
      unfold gateId in E1. by injection E1 as _ _ <- <- <-.
    + intros r x Hx. destruct (Hup r x Hx) as (y & Hy & E1 & E2 & E3). rewrite <- E3. by eapply K9.
  - intros key. simpl. rewrite (countOf_replace _ _ _ _ _ _ Hg), (tally_ext g g' key) by by apply heldBy_gateId.
    rewrite HH. lia.
Qed.

(** What the cycle of a poll leaves of its gate. *)
Record SameGate (g g' : ActiveGate) : Prop := {
  sg_id : gateId g' = gateId g;
  sg_finalized : ga_finalized g' = ga_finalized g;
  sg_timer : ga_timer g' = ga_timer g;
  sg_errors : ga_consecutivePollErrors g' = ga_consecutivePollErrors g;
  sg_window : ga_windowSeconds g' = ga_windowSeconds g /\ ga_startedAt g' = ga_startedAt g;
}.

Definition cycleOutcome (g : ActiveGate) (observed : list ObservedContainer) (elapsedMs : Z) : PollOutcome :=
  match ga_targetScope g with
  | scope_stack => stackPoll g observed elapsedMs
  | scope_service => servicePoll g observed elapsedMs
  end.

Lemma cycle_keep g observed elapsedMs g' : cycleOutcome g observed elapsedMs = Keep g' -> SameGate g g'.
Proof.
  unfold cycleOutcome, stackPoll, servicePoll, serviceWindowEnd. cbv zeta.
  intros H. repeat (case_match; simplify_eq); by split.
Qed.

Lemma good_poll runId st : Good st0 st -> Good st0 (state (poll runId) st).
Proof.
  intros HG. unfold poll. rewrite state_bind, state_get, result_get.
  destruct (gs_heap st !! runId) as [g|] eqn:Hg; [|done]. destruct (negb (ga_timer g)) eqn:Ht; [done|].
  apply negb_false_iff in Ht. pose proof (gi_single _ (gd_inv _ _ HG) _ _ Hg) as Hs. rewrite Ht in Hs.
  symmetry in Hs. apply andb_true_iff in Hs as [Hf Hp]. apply negb_true_iff in Hf.
  destruct (gi_heap _ (gd_inv _ _ HG) _ _ Hg) as [Hid Ha]. specialize (Ha Hf).
  rewrite state_bind, state_modify. unfold isActive. rewrite Hf, Hid, bool_decide_true by done. simpl. rewrite state_modify.
  apply (good_timer runId g (set_timer false g) (<[runId := Reading]> (gs_polls st)) st); try done.
  - intros r Hne. by rewrite lookup_insert_ne.
  - by rewrite lookup_insert_eq, Hf, bool_decide_true by eauto.
Qed.

Lemma good_pollSettled runId st : Good st0 st -> Good st0 (state (pollSettled runId) st).
Proof.
  intros HG. unfold pollSettled. rewrite state_bind, state_modify, state_bind, state_get, result_get. simpl.
  destruct (gs_heap st !! runId) as [g|] eqn:Hg.
  - destruct (gi_heap _ (gd_inv _ _ HG) _ _ Hg) as [Hid Ha]. unfold isActive. simpl. rewrite Hid.
    destruct (ga_finalized g) eqn:Hf; simpl.
    + pose proof (good_timer runId g g (delete runId (gs_polls st)) st HG Hg eq_refl eq_refl eq_refl
        ltac:(intros r Hne; by rewrite lookup_delete_ne)
        ltac:(rewrite Hf, (gi_single _ (gd_inv _ _ HG) _ _ Hg), Hf; done)) as H.
      eapply good_frame; [exact H|simpl; by rewrite insert_id|done..].
    + rewrite bool_decide_true by auto. rewrite state_modify.
      apply (good_timer runId g (set_timer true g) (delete runId (gs_polls st)) st HG Hg); try done.
      * intros r Hne. by rewrite lookup_delete_ne.
      * by rewrite lookup_delete_eq, Hf, bool_decide_false by (intros [? ?]; done).
  - eapply good_frame; [exact HG|done|done|done| |done|done|done]. simpl. rewrite delete_id; [done|].
    destruct (gs_polls st !! runId) eqn:Hp; [|done].
    destruct (gi_polls _ (gd_inv _ _ HG) runId) as [x Hx]; [eauto|congruence].
Qed.

Lemma good_countPollError runId cause now st :
  Good st0 st -> Good st0 (state (countPollError runId cause now) st).
Proof.
  intros HG. unfold countPollError. rewrite state_bind, state_get, result_get.
  destruct (gs_heap st !! runId) as [g|] eqn:Hg; [|done]. rewrite state_bind, state_modify.
  assert (HG' : Good st0 (upd_heap <[runId:=set_errors (ga_consecutivePollErrors g + 1) g]> st)).
  { eapply good_heap; try done. simpl. pose proof (gi_errors _ (gd_inv _ _ HG) _ _ Hg). lia. }
  unfold when. destruct (_ <=? _); [by apply good_finalize|done].
Qed.

Lemma good_runCycle runId observed now st : Good st0 st -> Good st0 (state (runCycle runId observed now) st).
Proof.
  intros HG. unfold runCycle. rewrite state_bind, state_get, result_get.
  destruct (gs_heap st !! runId) as [g|] eqn:Hg; [|done]. destruct (_ || _); [done|].
  cbv zeta. fold (cycleOutcome g observed (now - ga_startedAt g)).
  destruct (cycleOutcome _ _ _) as [g'|] eqn:E; [|by apply good_finalize].
  apply cycle_keep in E as [H1 H2 H3 H4 _]. rewrite state_modify. eapply good_heap; try done. rewrite H4.
  exact (gi_errors _ (gd_inv _ _ HG) _ _ Hg).
Qed.

Lemma good_evidenceRead runId ev now st : Good st0 st -> Good st0 (state (evidenceRead runId ev now) st).
Proof.
  intros HG. unfold evidenceRead. rewrite state_bind, state_get, result_get.
  destruct (gs_polls st !! runId) as [[]|] eqn:Hp; try done. destruct (gs_heap st !! runId) as [g|] eqn:Hg; [|done].
  destruct ev as [containers| |cause].
  - rewrite state_bind, state_modify.
    assert (HG1 : Good st0 (upd_heap <[runId:=set_errors 0 g]> st)) by by eapply good_heap.
    destruct (_ || _) eqn:Ef; [by apply good_pollSettled|].
    destruct (ga_declaredRestartRead g); rewrite state_bind.
    + by apply good_pollSettled, good_runCycle.
    + rewrite !state_modify. simpl.
      assert (HG2 : Good st0 (upd_heap (alter set_declaredRead runId) (upd_heap <[runId:=set_errors 0 g]> st)))
        by by apply good_alter.
      destruct HG2 as [HI HH HS]. split; [|exact HH|exact HS].
      destruct HI as [K1 K2 K3 K4 K5 K6 K7 K8 K9]. split; try done; simpl in *.
      * intros r x Hx. rewrite (K4 r x Hx). do 2 f_equal. apply bool_decide_ext. rewrite lookup_insert. case_decide; [|done].
        subst. rewrite Hp. split; eauto.
      * intros r Hr. apply K5. rewrite lookup_insert in Hr. case_decide; [subst; rewrite Hp; eauto|done].
  - rewrite state_bind. by apply good_pollSettled, good_finalize.
  - rewrite state_bind. by apply good_pollSettled, good_countPollError.
Qed.

Lemma good_intentRead runId declared now st : Good st0 st -> Good st0 (state (intentRead runId declared now) st).
Proof.
  intros HG. unfold intentRead. rewrite state_bind, state_get, result_get.
  destruct (gs_polls st !! runId) as [[]|] eqn:Hp; try done. rewrite !state_bind, state_modify.
  apply good_pollSettled, good_runCycle, good_alter; [|done]. intros g. done.
Qed.

(** ** Service updates *)

Lemma good_updateBegins op n s service st :
  Good st0 st -> gs_updates st !! op = None -> Good st0 (state (updateBegins op n s service) st).
Proof.
  intros [HI HH HS] Hop. unfold updateBegins. rewrite state_bind, !state_modify. split.
  - by eapply inv_frame.
  - intros key. cbn [upd_updates upd_heal gs_heal gs_updates gs_heap].
    rewrite suppress_count, HH, countOf_new by done. lia.
  - exact HS.
Qed.

Lemma good_updateEnds op st : Good st0 st -> Good st0 (state (updateEnds op) st).
Proof.
  intros [HI HH HS]. unfold updateEnds. rewrite state_bind, state_get, result_get.
  destruct (gs_updates st !! op) as [[[n s] service]|] eqn:Hop; [|done].
  rewrite state_bind, !state_modify. split; [by eapply inv_frame| |exact HS].
  intros key. cbn [upd_updates upd_heal gs_heal gs_updates gs_heap].
  pose proof (countOf_delete updateKey key _ _ _ Hop) as Hd. pose proof (countOf_nonneg updateKey key (delete op (gs_updates st))).
  pose proof (countOf_nonneg heldBy key (gs_heap st)). specialize (HH key).
  rewrite clearSuppress_count by lia. lia.
Qed.

(** [beginPrepared] either observes nothing, or arms a gate for the service of its
    token. *)
Lemma beginPrepared_spec token e st :
  Good st0 st -> freshRun (be_runId e) st ->
  let m := beginPrepared token e in
  (br_observing (result m st) = false /\ Good st0 (state m st))
  \/ exists p g st1, gs_prepared st !! token = Some p /\ br_observing (result m st) = true
       /\ state m st = state (arm_gate g) st1 /\ Good st0 st1 /\ Armable g st1 /\ gs_updates st1 = gs_updates st
       /\ ga_finalized g = false /\ ga_targetScope g = scope_service /\ ga_nodeId g = pr_nodeId p
       /\ ga_stackName g = pr_stackName p /\ ga_serviceName g = Some (pr_serviceName p).
Proof.
  intros HG Hf. cbv zeta. unfold beginPrepared. rewrite !state_bind, !result_bind.
  pose proof (good_sweep (be_now e) st HG) as HG1.
  assert (Hsw : forall p, gs_prepared (state (sweepExpiredPrepared (be_now e)) st) !! token = Some p ->
                          gs_prepared st !! token = Some p).
  { intros p Hp. unfold sweepExpiredPrepared in Hp. rewrite state_bind, !state_modify in Hp. simpl in Hp.
    by apply map_lookup_filter_Some in Hp as [Hp _]. }
  assert (Hr1 : gs_rows (state (sweepExpiredPrepared (be_now e)) st) = gs_rows st
                /\ gs_updates (state (sweepExpiredPrepared (be_now e)) st) = gs_updates st) by done.
  set (st1 := state (sweepExpiredPrepared (be_now e)) st) in *. rewrite state_get, result_get, !state_modify.
  set (st2 := upd_dropped (delete token) (upd_prepared (delete token) st1)).
  assert (HG2 : Good st0 st2).
  { eapply good_frame; [apply (good_prepared_sub (delete token) st1 HG1)|..]; [|done..].
    intros t p Hp. apply lookup_delete_Some in Hp as [_ Hp]. eauto. }
  destruct (gs_prepared st1 !! token) as [p|] eqn:Hp; [|left; by split].
  destruct (negb (gs_started st1)); [left; by split|]. destruct (negb (se_enabled _)); [left; by split|].
  pose proof (gi_prepared _ (gd_inv _ _ HG1) _ _ Hp) as Hs. rewrite !state_bind, !result_bind.
  destruct (supersede_service_spec (pr_nodeId p) (pr_stackName p) (pr_serviceName p) R_superseded (be_now e) st2
    (gd_inv _ _ HG2) Hs) as (HI3 & HE & Hfree).
  pose proof (good_supersede (pr_nodeId p) (pr_stackName p) (Some (Some (pr_serviceName p))) R_superseded (be_now e) st2 HG2)
    as HG3.
  set (st3 := state (supersedeGatesForStack _ _ _ _ _) st2) in *. rewrite state_get, result_get.
  assert (Hf3 : freshRun (be_runId e) st3).
  { apply (en_fresh _ _ HE). change (gs_rows st1 !! be_runId e = None).
    rewrite (proj1 Hr1). exact Hf. }
  destruct (atCap st3) eqn:Ecap.
  - left. rewrite state_bind, result_bind, state_modify, state_ret, result_ret. split; [done|]. by apply good_new_row.
  - right. rewrite !state_bind, !result_bind, state_modify, state_ret, result_ret.
    match goal with |- context [arm_gate ?x] => set (g := x) end.
    match goal with |- context [upd_rows (<[be_runId e := ?x]>)] => set (row := x) end.
    exists p, g, (upd_rows (<[be_runId e := row]>) st3). split_and!; try done.
    + by apply Hsw.
    + by apply good_new_row.
    + apply (row_armable g); try done. split; [exact Hs|by eexists].
    + exact (eq_trans (en_updates _ _ HE) (proj2 Hr1)).
Qed.

Lemma good_updateObserves op token e st n s service :
  Good st0 st -> freshRun (be_runId e) st -> gs_updates st !! op = Some (n, s, service) -> service <> "" ->
  (forall p, gs_prepared st !! token = Some p -> pr_nodeId p = n /\ pr_stackName p = s /\ pr_serviceName p = service) ->
  Good st0 (state (updateObserves op token e) st).
Proof.
  intros HG Hf Hop Hne Hp. unfold updateObserves. rewrite !state_bind, state_ret.
  destruct (beginPrepared_spec token e st HG Hf)
    as [[-> HG1]|(p & g & st1 & Hpr & -> & -> & HG1 & HA & Hu & Hgf & Hsc & En & Es & Esv)]; [exact HG1|].
  unfold when. rewrite state_modify. destruct (Hp p Hpr) as (P1 & P2 & P3).
  apply (good_arm_service g op (n, s, service)); [done|done|by rewrite Hu|].
  unfold heldBy, updateKey. rewrite Hgf, Hsc, Esv, En, Es, P1, P2, P3, truthy_nonempty by done. done.
Qed.
End steps.

(** ** Reachable states *)

Lemma gate_step_good st st' : gate_step st st' -> GateInv st -> HealInv st -> Good st st'.
Proof.
  intros Hstep HI HH. pose proof (Good_refl st HI HH) as HG. destruct Hstep;
    eauto using good_start, good_stop, good_beginStack, good_reserveRecoveryRun, good_reserveRolloutRun,
      good_armReservedStackRun, good_abandonReservedRun, good_sweep, good_prepare, good_attach,
      good_supersedeForContainerOp, good_poll, good_evidenceRead, good_intentRead, good_updateBegins, good_updateEnds,
      good_updateObserves.
Qed.

Lemma boot_good rows : GateInv (gate_boot rows) /\ HealInv (gate_boot rows).
Proof. split; [split|]; try done; simpl; try (intros ? ? H; by rewrite lookup_empty in H). by intros r [? H]. Qed.

Lemma reachable_good st : gate_reachable st -> GateInv st /\ HealInv st.
Proof.
  intros [rows Hr]. revert Hr. generalize (boot_good rows). generalize (gate_boot rows).
  intros st0 HG Hr. induction Hr as [|st1 st2 st3 H12 _ IH]; [done|]. apply IH. destruct HG as [HI HH].
  destruct (gate_step_good _ _ H12 HI HH) as [HI' HH' _]. done.
Qed.

(** ** A gate ends *)

(** A poll with its reads, from its timer to the next one. *)
Definition pollOnce (runId : string) (ev : Evidence) (declared : DeclaredIntent) (now : Z) : gate unit :=
  poll runId;; evidenceRead runId ev now;; intentRead runId declared now.

(** The polls a gate can still have once its window is over. *)
Definition pollsLeft (g : ActiveGate) : Z :=
  (if ga_expected g then 0 else 3) + Z.max 1 (3 - ga_consecutivePollErrors g).

Definition overdue (g : ActiveGate) (now : Z) : Prop :=
  ga_windowSeconds g * 1000 <= now - ga_startedAt g /\ EMPTY_GRACE_MS <= now - ga_startedAt g.

Lemma cycle_overdue g observed now :
  overdue g now ->
  match cycleOutcome g observed (now - ga_startedAt g) with
  | Keep g' => ga_expected g = None /\ is_Some (ga_expected g')
  | Final _ _ _ _ => True
  end.
Proof.
  intros [Hw Hg]. assert (Ew : windowOver g (now - ga_startedAt g) = true) by (unfold windowOver; zlia).
  destruct (ga_expected g) as [expected|] eqn:He.
  - unfold cycleOutcome. destruct (ga_targetScope g).
    + destruct (stackPoll_decides g expected observed _ He Ew) as [v Hv]. by destruct (stackPoll _ _ _).
    + destruct (servicePoll_decides g expected observed _ He Ew) as [v Hv]. by destruct (servicePoll _ _ _).
  - assert (Eg : EMPTY_GRACE_MS <=? now - ga_startedAt g = true) by zlia.
    unfold cycleOutcome, stackPoll, servicePoll. rewrite He, Eg.
    repeat case_match; simplify_eq; by eauto.
Qed.

(** What a poll can leave of a gate past its window. *)
Definition Progress (g : ActiveGate) (bound : Z) (o : option ActiveGate) : Prop :=
  exists g', o = Some g' /\ (ga_finalized g' = true
    \/ ga_finalized g' = false /\ ga_windowSeconds g' = ga_windowSeconds g /\ ga_startedAt g' = ga_startedAt g
       /\ ga_timer g' = true /\ pollsLeft g' <= bound).

Lemma pollSettled_heap runId g st :
  GateInv st -> gs_heap st !! runId = Some g ->
  gs_heap (state (pollSettled runId) st) !! runId = Some (if ga_finalized g then g else set_timer true g).
Proof.
  intros HI Hg. unfold pollSettled. rewrite state_bind, state_modify, state_bind, state_get, result_get. simpl. rewrite Hg.
  destruct (gi_heap _ HI _ _ Hg) as [Hid Ha]. unfold isActive. simpl. rewrite Hid.
  destruct (ga_finalized g); simpl; [done|]. rewrite bool_decide_true by auto. apply lookup_insert_eq.
Qed.

Lemma finalize_heap runId status reason containers source now st g :
  GateInv st -> gs_heap st !! runId = Some g ->
  exists g', gs_heap (state (finalize runId status reason containers source now) st) !! runId = Some g'
    /\ ga_finalized g' = true.
Proof.
  intros HI Hg. rewrite finalize_eq, Hg by done. destruct (ga_finalized g) eqn:Hf; [by eauto|].
  destruct (ended_fields g status reason containers source now st) as (_ & -> & _).
  destruct (gi_heap _ HI _ _ Hg) as [-> _]. eexists. by rewrite lookup_insert_eq.
Qed.

(** The settled heap of a state whose gate ended. *)
Lemma settled_final g0 bound runId st :
  GateInv st -> (exists g', gs_heap st !! runId = Some g' /\ ga_finalized g' = true) ->
  Progress g0 bound (gs_heap (state (pollSettled runId) st) !! runId).
Proof. intros HI (g' & Hg & Hf). rewrite (pollSettled_heap _ g') by done. rewrite Hf. exists g'. auto. Qed.

Lemma cycle_progress runId g observed now st :
  GateInv st -> HealInv st -> gs_heap st !! runId = Some g -> ga_finalized g = false -> overdue g now ->
  Progress g (Z.max 1 (3 - ga_consecutivePollErrors g))
    (gs_heap (state (runCycle runId observed now;; pollSettled runId) st) !! runId)
  /\ (ga_expected g <> None -> exists g',
        gs_heap (state (runCycle runId observed now;; pollSettled runId) st) !! runId = Some g' /\ ga_finalized g' = true).
Proof.
  intros HI HH Hg Hf Ho. pose proof (good_runCycle st runId observed now st (Good_refl st HI HH)) as [HI' _ _].
  rewrite state_bind. revert HI'.
  unfold runCycle. rewrite state_bind, state_get, result_get, Hg. destruct (gi_heap _ HI _ _ Hg) as [Hid Ha].
  unfold isActive. rewrite Hf, Hid, bool_decide_true by auto. simpl. fold (cycleOutcome g observed (now - ga_startedAt g)).
  pose proof (cycle_overdue g observed now Ho) as Hc.
  destruct (cycleOutcome _ _ _) as [g'|status reason summary source] eqn:E; intros HI'.
  - destruct (cycle_keep _ _ _ _ E) as [S1 S2 S3 S4 [S5 S6]]. destruct Hc as [Hn [x Hx]]. rewrite state_modify in HI' |- *.
    split; [|done]. rewrite (pollSettled_heap _ g') by (done || apply lookup_insert_eq). rewrite S2, Hf.
    exists (set_timer true g'). split; [done|]. right. simpl. split_and!; try congruence.
    unfold pollsLeft. simpl. rewrite Hx, S4. lia.
  - destruct (finalize_heap runId status reason summary source now st g HI Hg) as (g' & Hg' & Hf').
    split; [by apply settled_final; eauto|]. intros _. rewrite (pollSettled_heap _ g') by done. rewrite Hf'. eauto.
Qed.

Lemma Progress_weaken g g0 b b' o :
  Progress g b o -> ga_windowSeconds g = ga_windowSeconds g0 -> ga_startedAt g = ga_startedAt g0 -> b <= b' ->
  Progress g0 b' o.
Proof.
  intros (g' & -> & [Hf|(H1 & H2 & H3 & H4 & H5)]) E1 E2 Hb; exists g'; split; auto.
  right. split_and!; [done|congruence|congruence|done|lia].
Qed.

Lemma settled_poll_gone runId st : gs_polls (state (pollSettled runId) st) !! runId = None.
Proof.
  unfold pollSettled. rewrite state_bind, state_modify, state_bind, state_get, result_get. simpl.
  destruct (gs_heap st !! runId); [destruct (_ && _)|]; simpl; apply lookup_delete_eq.
Qed.

Lemma intent_idle runId declared now st : gs_polls st !! runId = None -> state (intentRead runId declared now) st = st.
Proof. intros H. unfold intentRead. by rewrite state_bind, state_get, result_get, H. Qed.

(** The evidence and the intent of a poll that is reading. *)
Lemma reading_progress runId g ev declared now st :
  GateInv st -> HealInv st -> gs_heap st !! runId = Some g -> ga_finalized g = false -> overdue g now ->
  gs_polls st !! runId = Some Reading ->
  Progress g (pollsLeft g - 1)
    (gs_heap (state (evidenceRead runId ev now;; intentRead runId declared now) st) !! runId).
Proof.
  intros HI HH Hg Hf Ho Hp. pose proof (Good_refl st HI HH) as HG. rewrite state_bind. unfold evidenceRead.
  rewrite state_bind, state_get, result_get, Hp, Hg. destruct (gi_heap _ HI _ _ Hg) as [Hid Ha].
  destruct ev as [containers| |cause].
  - rewrite state_bind, state_modify. unfold isActive. rewrite Hf, Hid, bool_decide_true by auto. simpl.
    set (g1 := set_errors 0 g). set (st1 := upd_heap <[runId:=g1]> st).
    assert (HG1 : Good st st1) by by eapply good_heap.
    assert (Hg1 : gs_heap st1 !! runId = Some g1) by apply lookup_insert_eq.
    assert (Hm : forall g2, ga_expected g2 = ga_expected g -> ga_consecutivePollErrors g2 = 0 ->
      ga_windowSeconds g2 = ga_windowSeconds g -> ga_startedAt g2 = ga_startedAt g -> forall st2,
      GateInv st2 -> HealInv st2 -> gs_heap st2 !! runId = Some g2 -> ga_finalized g2 = false -> forall observed,
      Progress g (pollsLeft g - 1) (gs_heap (state (runCycle runId observed now;; pollSettled runId) st2) !! runId)).
    { intros g2 E1 E2 E3 E4 st2 HI2 HH2 Hg2 Hf2 observed.
      destruct (cycle_progress runId g2 observed now st2 HI2 HH2 Hg2 Hf2) as [P Q];
        [destruct Ho; unfold overdue; by rewrite E3, E4|].
      destruct (ga_expected g) as [x|] eqn:Ex.
      - destruct Q as (g' & Hg' & Hf'); [by rewrite E1|]. exists g'. auto.
      - eapply Progress_weaken; [exact P|done|done|]. unfold pollsLeft. rewrite Ex, E2. lia. }
    destruct (ga_declaredRestartRead g) eqn:Ed.
    + rewrite intent_idle by (rewrite state_bind; apply settled_poll_gone).
      by apply (Hm g1); try done; apply HG1.
    + rewrite state_bind, !state_modify. unfold intentRead. rewrite state_bind, state_get, result_get. simpl.
      rewrite lookup_insert_eq, state_bind, state_modify.
      set (st2 := upd_heap (alter (set_declared declared) runId) _).
      assert (HG2 : Good st st2).
      { apply good_alter; [done|]. pose proof (good_evidenceRead st runId (Ev_ok containers) now st HG) as HE.
        unfold evidenceRead in HE. rewrite state_bind, state_get, result_get, Hp, Hg, state_bind, state_modify in HE.
        unfold isActive in HE. rewrite Hf, Hid, bool_decide_true in HE by auto. simpl in HE.
        by rewrite Ed, state_bind, !state_modify in HE. }
      apply (Hm (set_declared declared (set_declaredRead g1))); try done; [apply HG2|apply HG2|].
      unfold st2. simpl. by rewrite lookup_alter_eq, lookup_alter_eq, lookup_insert_eq.
  - rewrite state_bind, intent_idle by apply settled_poll_gone.
    destruct (finalize_heap runId unknown (Some R_observation_unsupported) [] None now st g HI Hg) as (g' & Hg' & Hf').
    apply settled_final; [by apply inv_finalize|eauto].
  - rewrite state_bind, intent_idle by apply settled_poll_gone.
    pose proof (good_countPollError st runId cause now st HG) as [HI' _ _]. revert HI'.
    unfold countPollError. rewrite state_bind, state_get, result_get, Hg, state_bind, state_modify.
    set (st1 := upd_heap _ st). assert (Hg1 : gs_heap st1 !! runId = Some (set_errors (ga_consecutivePollErrors g + 1) g))
      by apply lookup_insert_eq.
    assert (HI1 : GateInv st1).
    { eapply (good_heap st); try done. simpl. pose proof (gi_errors _ HI _ _ Hg). lia. }
    destruct (3 <=? _) eqn:E3; intros HI'; unfold when in *.
    + destruct (finalize_heap runId unknown (Some (match cause with cause_node => R_node_unreadable
        | cause_docker => R_docker_unreachable end)) [] None now st1 _ HI1 Hg1) as (g' & Hg' & Hf').
      apply settled_final; [done|eauto].
    + rewrite state_skip, (pollSettled_heap _ _ _ HI1 Hg1). simpl. rewrite Hf. eexists. split; [done|]. right.
      simpl. split_and!; try done. unfold pollsLeft. simpl. zlia.
Qed.

Definition polls (runId : string) (reads : list (Evidence * DeclaredIntent * Z)) : gate unit :=
  for_each (fun x => pollOnce runId x.1.1 x.1.2 x.2) reads.

Lemma good_pollOnce st0 runId ev declared now st : Good st0 st -> Good st0 (state (pollOnce runId ev declared now) st).
Proof. intros HG. unfold pollOnce. rewrite !state_bind. by apply good_intentRead, good_evidenceRead, good_poll. Qed.

Lemma pollOnce_progress runId g ev declared now st :
  GateInv st -> HealInv st -> gs_heap st !! runId = Some g -> ga_finalized g = false -> ga_timer g = true ->
  overdue g now -> Progress g (pollsLeft g - 1) (gs_heap (state (pollOnce runId ev declared now) st) !! runId).
Proof.
  intros HI HH Hg Hf Ht Ho. unfold pollOnce. rewrite state_bind.
  pose proof (good_poll st runId st (Good_refl st HI HH)) as HG. revert HG.
  unfold poll. rewrite state_bind, state_get, result_get, Hg, Ht. simpl. rewrite state_bind, state_modify.
  destruct (gi_heap _ HI _ _ Hg) as [Hid Ha]. unfold isActive. rewrite Hf, Hid, bool_decide_true by auto. simpl.
  rewrite state_modify. intros HG.
  apply (reading_progress runId (set_timer false g)); try done; try apply HG; simpl; by rewrite lookup_insert_eq.
Qed.

Lemma good_polls st0 runId reads st : Good st0 st -> Good st0 (state (polls runId reads) st).
Proof. intros HG. unfold polls. apply for_each_ind; [done|]. intros x s _. apply good_pollOnce. Qed.

Lemma final_row runId g st :
  GateInv st -> gs_heap st !! runId = Some g -> ga_finalized g = true ->
  exists row, gs_rows st !! runId = Some row /\ is_Some (rw_status row).
Proof.
  intros HI Hg Hf. destruct (gi_row _ HI _ _ Hg) as (row & Hr & _ & _ & _ & _ & Hs). exists row. split; [done|].
  destruct (rw_status row) eqn:E; [by eauto|]. apply proj2 in Hs. rewrite Hs in Hf by done. done.
Qed.

Lemma polls_decide runId reads g st :
  GateInv st -> HealInv st -> gs_heap st !! runId = Some g -> ga_finalized g = false -> ga_timer g = true ->
  Forall (fun x => overdue g x.2) reads -> pollsLeft g <= Z.of_nat (length reads) ->
  exists row, gs_rows (state (polls runId reads) st) !! runId = Some row /\ is_Some (rw_status row).
Proof.
  revert g st. induction reads as [|[[ev declared] now] reads IH]; intros g st HI HH Hg Hf Ht Ho Hn.
  { unfold pollsLeft in Hn. simpl in Hn. destruct (ga_expected g); lia. }
  apply Forall_cons in Ho as [Ho1 Ho]. unfold polls. cbn [for_each fst snd]. rewrite state_bind.
  fold (polls runId reads). pose proof (good_pollOnce st runId ev declared now st (Good_refl st HI HH)) as [HI1 HH1 _].
  destruct (pollOnce_progress runId g ev declared now st HI HH Hg Hf Ht Ho1) as (g' & Hg' & [Hf'|(Hf' & Hw & Hs & Ht' & Hb)]).
  - destruct (final_row runId g' _ HI1 Hg' Hf') as (row & Hr & Hst). exists row. split; [|done].
    apply (gd_settled _ _ (good_polls _ runId reads _ (Good_refl _ HI1 HH1))); [exact Hr|exact Hst].
  - apply (IH g'); try done.
    + eapply Forall_impl; [exact Ho|]. intros x [H1 H2]. unfold overdue. by rewrite Hw, Hs.
    + simpl in Hn. lia.
Qed.

(** ** Theorems *)


Lemma steps_settled st st' : rtc gate_step st st' -> GateInv st -> HealInv st -> settled st st'.
Proof.
  induction 1 as [st|st1 st2 st3 H12 _ IH]; intros HI HH r row Hr Hs; [done|].
  destruct (gate_step_good _ _ H12 HI HH) as [HI2 HH2 HS]. apply IH; auto.
Qed.

(** a verdict is final. Whatever happens after a run ended (a late poll,
    another operation, a replaced gate, a stop, a start of the process), its row
    is never written again. *)
Theorem verdict_is_final st st' runId row :
  gate_reachable st -> rtc gate_step st st' -> gs_rows st !! runId = Some row -> is_Some (rw_status row) ->
  gs_rows st' !! runId = Some row.
Proof. intros [HI HH]%reachable_good Hs. by apply (steps_settled _ _ Hs HI HH). Qed.

Lemma suppressed_iff key st :
  HealInv st ->
  0 < suppressions key (gs_heal st) <->
    (exists op u, gs_updates st !! op = Some u /\ updateKey u = Some key)
    \/ (exists runId g, gs_heap st !! runId = Some g /\ heldBy g = Some key).
Proof.
  intros HH. rewrite (HH key). pose proof (countOf_nonneg heldBy key (gs_heap st)).
  pose proof (countOf_nonneg updateKey key (gs_updates st)). split.
  - intros Hpos. destruct (decide (countOf heldBy key (gs_heap st) = 0)) as [E0|E0].
    + destruct (decide (countOf updateKey key (gs_updates st) = 0)) as [E1|E1]; [lia|]. left.
      destruct (decide (filter (fun kx => updateKey kx.2 = Some key) (gs_updates st) = ∅)) as [Ee|Ee].
      * unfold countOf in E1. by rewrite Ee, map_size_empty in E1.
      * apply map_choose in Ee as (op & u & Hu). apply map_lookup_filter_Some in Hu as [Hu Hk]. eauto.
    + right. destruct (decide (filter (fun kx => heldBy kx.2 = Some key) (gs_heap st) = ∅)) as [Ee|Ee].
      * unfold countOf in E0. by rewrite Ee, map_size_empty in E0.
      * apply map_choose in Ee as (r & g & Hg). apply map_lookup_filter_Some in Hg as [Hg Hk]. eauto.
  - intros [(op & u & Hu & Hk)|(r & g & Hg & Hk)].
    + pose proof (countOf_pos updateKey key _ _ _ Hu Hk). lia.
    + pose proof (countOf_pos heldBy key _ _ _ Hg Hk). lia.
Qed.

(** C15: no suppression leaks and none is released early: auto-heal is told to
    leave a service alone exactly while some service update of it is in progress
    or some gate observes it, whatever way those end (a verdict, a newer
    operation, a container operation, unreadable evidence, a stop). *)
Theorem suppression_exact n stackName service st :
  gate_reachable st ->
  isSuppressed n stackName service (gs_heal st) = true <->
    (exists op u, gs_updates st !! op = Some u /\ updateKey u = Some (suppressKey n stackName service))
    \/ (exists runId g, gs_heap st !! runId = Some g /\ heldBy g = Some (suppressKey n stackName service)).
Proof.
  intros [_ HH]%reachable_good. rewrite <- suppressed_iff by done. unfold isSuppressed, suppressions. by rewrite Z.ltb_lt.
Qed.

(** a gate is decided. Once its window and the grace for an empty stack are
    over, six polls are enough whatever Docker, the node and the declared intent
    answer, a failing read included. *)
Theorem gate_decides st runId g reads :
  gate_reachable st -> gs_heap st !! runId = Some g -> ga_finalized g = false -> ga_timer g = true ->
  Forall (fun x => overdue g x.2) reads -> 6 <= Z.of_nat (length reads) ->
  exists row v, gs_rows (state (polls runId reads) st) !! runId = Some row /\ rw_status row = Some v.
Proof.
  intros [HI HH]%reachable_good Hg Hf Ht Ho Hn.
  destruct (polls_decide runId reads g st HI HH Hg Hf Ht Ho) as (row & Hr & [v Hv]); [|by eauto].
  pose proof (gi_errors _ HI _ _ Hg). unfold pollsLeft. destruct (ga_expected g); lia.
Qed.

(** while a gate observes a service, auto-heal restarts none of its
    containers: the suppressions a pass reads, at its start and after each of its
    awaits, are those of states of the service in which the gate is in flight. *)
Theorem observed_service_not_healed n stackName service runId ps e cs h p n' c t :
  let during m := exists st g, gate_reachable st /\ gs_heap st !! runId = Some g
                    /\ heldBy g = Some (suppressKey n stackName service) /\ m = ah_suppressedServices (gs_heal st) in
  ne_listing e = inr cs -> service <> "" -> NoDup (co_Id <$> cs) ->
  (forall m, during (ne_suppressed e m)) -> (forall id c m, during (ie_suppressed (ne_item e id c) m)) ->
  ERestart p n' c t ∈ effects (evaluateForNode n ps e) h -> ap_stack_name p = stackName ->
  forall ci, ci ∈ cs -> co_Id ci = c -> label "com.docker.compose.service" ci <> Some service.
Proof.
  intros during El Hne Hnd H1 H2.
  assert (Hd : forall m, during m -> held n stackName service m = true).
  { intros m (st & g & [_ HH]%reachable_good & Hg & Hk & ->). unfold held.
    apply Z.ltb_lt, (suppressed_iff (suppressKey n stackName service) st HH). right. eauto. }
  apply evaluateForNode_elsewhere; auto.
Qed.

(** ** Witnesses *)

Definition ex_begin (runId : string) (now : Z) : BeginEnv := mkBegin now runId (readSettings None (Some 15)).

Definition ex_started : GateSys := state (start 0) (gate_boot ∅).
Definition ex_stack : GateSys := state (beginStack 1 "shop" t_update None (ex_begin "r1" 0)) ex_started.

Lemma ex_started_reachable : gate_reachable ex_started.
Proof. exists ∅. eapply rtc_l; [|apply rtc_refl]. by apply gs_start. Qed.

Lemma reachable_step st st' : gate_reachable st -> gate_step st st' -> gate_reachable st'.
Proof. intros [rows Hr] Hs. exists rows. by eapply rtc_r. Qed.

Lemma ex_stack_reachable : gate_reachable ex_stack.
Proof. eapply reachable_step; [apply ex_started_reachable|]. by apply gs_begin. Qed.

Definition ex_gate : ActiveGate := newGate "r1" 1 "shop" 15 0 scope_stack t_update None None 0 ∅ [].


(** The process stops while it observes; the timer that was armed fires later. *)
Definition ex_stopped : GateSys := state (stop 9000) ex_stack.

Lemma ex_stopped_reachable : gate_reachable ex_stopped.
Proof. eapply reachable_step; [apply ex_stack_reachable|]. apply gs_stop. Qed.

Lemma verdict_is_final_witness :
  exists row, rw_status row = Some unknown /\ gs_rows (state (poll "r1") ex_stopped) !! "r1" = Some row.
Proof.
  eexists (mkRow 1 "shop" t_update (Some unknown) (Some R_shutdown) 15 [] 0 (Some 9000) scope_stack None None None None).
  split; [done|]. apply (verdict_is_final ex_stopped); [apply ex_stopped_reachable| |reflexivity|by eexists].
  eapply rtc_l; [apply (gs_poll "r1")|apply rtc_refl].
Defined.

(** A service update: its suppression, its token, its gate. *)
Definition ex_updating : GateSys := state (updateBegins "op1" 1 "shop" "web") ex_started.
Definition ex_prepared_gate : GateSys :=
  state (prepare 1 "shop" "web" t_service_update 1 (Some []) 15 0 600000 "t1") ex_updating.
Definition ex_observing : GateSys := state (updateObserves "op1" "t1" (ex_begin "r1" 1000)) ex_prepared_gate.

Lemma ex_updating_reachable : gate_reachable ex_updating.
Proof. eapply reachable_step; [apply ex_started_reachable|]. by apply gs_update_begins. Qed.

Lemma ex_observing_reachable : gate_reachable ex_observing.
Proof.
  assert (gate_reachable ex_prepared_gate)
    by (eapply reachable_step; [apply ex_updating_reachable|]; by apply gs_prepare).
  eapply reachable_step; [eassumption|]. eapply (gs_update_observes _ _ _ _ 1 "shop" "web"); [done|reflexivity|done|].
  intros p Hp. vm_compute in Hp. injection Hp as <-. done.
Qed.

Lemma suppression_exact_witness :
  isSuppressed 1 "shop" "web" (gs_heal ex_updating) = true /\ isSuppressed 1 "shop" "web" (gs_heal ex_observing) = true.
Proof.
  split.
  - apply (suppression_exact 1 "shop" "web" ex_updating ex_updating_reachable). left.
    exists "op1", (1, "shop", "web"). by split.
  - apply (suppression_exact 1 "shop" "web" ex_observing ex_observing_reachable). right.
    exists "r1". eexists. split; [reflexivity|]. reflexivity.
Defined.

(** The reads fail until the window is over, then Docker answers and fails again. *)
Definition ex_reads : list (Evidence * DeclaredIntent * Z) :=
  let ok := Ev_ok [mkFact "c1" "web-1" (Some "web") "running" None 0 None "img" None None] in
  let bad := Ev_unavailable cause_docker in
  [(bad, None, 15000); (bad, None, 20000); (ok, None, 25000); (bad, None, 30000); (bad, None, 35000); (ok, None, 40000)].

Lemma gate_decides_witness :
  exists row v, gs_rows (state (polls "r1" ex_reads) ex_stack) !! "r1" = Some row /\ rw_status row = Some v.
Proof.
  apply (gate_decides ex_stack "r1" ex_gate ex_reads); [apply ex_stack_reachable|reflexivity|done|done| |done].
  repeat constructor; simpl; unfold EMPTY_GRACE_MS; lia.
Defined.

Definition ex_pass : NodeEnv :=
  let at_ := fun _ : gmap string Z => ah_suppressedServices (gs_heal ex_observing) in
  mkNodeEnv (inr ex_two) 100000
    (fun _ _ => mkItem ex_event 100000 RestartOk id at_) id at_.

Lemma observed_service_not_healed_witness :
  label "com.docker.compose.service" (ex_container "c2" "db") <> Some "web".
Proof.
  assert (Hd : exists st g, gate_reachable st /\ gs_heap st !! "r1" = Some g
      /\ heldBy g = Some (suppressKey 1 "shop" "web") /\
      ah_suppressedServices (gs_heal ex_observing) = ah_suppressedServices (gs_heal st)).
  { exists ex_observing. eexists. split; [apply ex_observing_reachable|]. split; [reflexivity|]. by split. }
  apply (observed_service_not_healed 1 "shop" "web" "r1" [ex_policy] ex_pass ex_two (newHeal [ex_policy])
           ex_policy 1 "c2" 100000).
  - reflexivity.
  - done.
  - apply (bool_decide_unpack _). by vm_compute.
  - intros m. exact Hd.
  - intros id c m. exact Hd.
  - vm_compute. right. left.
  - reflexivity.
  - right. left.
  - reflexivity.
Defined.
