(* ===== verification/SourceRows.v ===== *)
(** * GitOps rows and transactions (backend/src/services/gitops/types.ts, store.ts)

    The rows the source transitions of a Direct application read and write, the
    tables they are in, and a transaction over them. The columns of an application
    that the projection reads are those of Reconcile.v; [SourceRow] adds the others
    a source transition touches. A target row has its operation, interruption,
    failure and recovery columns grouped. Columns of rollouts, placements and
    evidence, the before and after snapshots of history rows and the outbox are
    not modelled.

    A transaction is a function of the tables that returns a value and the new
    tables, or the error that was thrown: a throw rolls back everything, nested
    transactions included. *)

From S2P Require Import Prelude Reconcile.

(** ** Application rows *)

Inductive SourcePolicy := sp_manual | sp_review | sp_automatic.
#[export] Instance SourcePolicy_eq_dec : EqDecision SourcePolicy.
Proof. solve_decision. Defined.

Record Material := mkMaterial {
  mt_compose_paths_json : option string;
  mt_context_dir : option string;
  mt_sync_env : Z;
  mt_env_path : option string;
}.

Record SourceRow := mkSource {
  sr_app : GitOpsApplicationRow;
  sr_stack_name : string;
  sr_material : Material;
  sr_fetched_resolved_ref_kind : option string;
  sr_artifact_set_id : option string;
  sr_latest_artifact_set_id : option string;
  sr_source_acceptance_ref : option string;
  sr_placement_approval_ref : option string;
  sr_rollout_authorization_policy : string;
  sr_latest_operation_id : option string;
  sr_active_operation_at : option Z;
  sr_pause_at : option Z;
  sr_pause_reason : option string;
  sr_pause_origin : string;
  sr_source_policy : SourcePolicy;
  sr_attempt_seq : Z;
  sr_updated_at : Z;
}.

Definition set_lifecycle (s : GitOpsLifecycleStatus) (a : GitOpsApplicationRow) : GitOpsApplicationRow :=
  mkApp
    (app_id a) s (app_target_mode a) (app_configured_repo_url a) (app_repo_identity_json a)
    (app_configured_ref a) (app_materialization_fingerprint a) (app_desired_commit_sha a)
    (app_fetched_commit_sha a) (app_candidate_generation_id a) (app_accepted_generation_id a)
    (app_candidate_plan_blocked a) (app_review_required a) (app_review_block_reason a)
    (app_active_operation_id a) (app_active_operation_stage a) (app_active_generation_id a)
    (app_source_suspended_reason a) (app_next_poll_at a) (app_failure_stage a) (app_failure_class a)
    (app_failure_at a) (app_retry_at a) (app_retry_count a) (app_suspended_at a) (app_recovery_ref a)
    (app_recovery_phase a) (app_interruption_stage a) (app_interruption_at a) (app_interruption_operation_id a)
    (app_interruption_generation_id a).
Definition set_source (url identity ref fingerprint : option string) (a : GitOpsApplicationRow) : GitOpsApplicationRow :=
  mkApp
    (app_id a) (app_lifecycle_status a) (app_target_mode a) url identity ref fingerprint
    (app_desired_commit_sha a) (app_fetched_commit_sha a) (app_candidate_generation_id a)
    (app_accepted_generation_id a) (app_candidate_plan_blocked a) (app_review_required a)
    (app_review_block_reason a) (app_active_operation_id a) (app_active_operation_stage a)
    (app_active_generation_id a) (app_source_suspended_reason a) (app_next_poll_at a) (app_failure_stage a)
    (app_failure_class a) (app_failure_at a) (app_retry_at a) (app_retry_count a) (app_suspended_at a)
    (app_recovery_ref a) (app_recovery_phase a) (app_interruption_stage a) (app_interruption_at a)
    (app_interruption_operation_id a) (app_interruption_generation_id a).
Definition set_commits (sha : option string) (a : GitOpsApplicationRow) : GitOpsApplicationRow :=
  mkApp
    (app_id a) (app_lifecycle_status a) (app_target_mode a) (app_configured_repo_url a)
    (app_repo_identity_json a) (app_configured_ref a) (app_materialization_fingerprint a) sha sha
    (app_candidate_generation_id a) (app_accepted_generation_id a) (app_candidate_plan_blocked a)
    (app_review_required a) (app_review_block_reason a) (app_active_operation_id a)
    (app_active_operation_stage a) (app_active_generation_id a) (app_source_suspended_reason a)
    (app_next_poll_at a) (app_failure_stage a) (app_failure_class a) (app_failure_at a) (app_retry_at a)
    (app_retry_count a) (app_suspended_at a) (app_recovery_ref a) (app_recovery_phase a)
    (app_interruption_stage a) (app_interruption_at a) (app_interruption_operation_id a)
    (app_interruption_generation_id a).
Definition set_candidate (g : option string) (blocked review : Z) (reason : option string) (a : GitOpsApplicationRow) : GitOpsApplicationRow :=
  mkApp
    (app_id a) (app_lifecycle_status a) (app_target_mode a) (app_configured_repo_url a)
    (app_repo_identity_json a) (app_configured_ref a) (app_materialization_fingerprint a)
    (app_desired_commit_sha a) (app_fetched_commit_sha a) g (app_accepted_generation_id a) blocked review reason
    (app_active_operation_id a) (app_active_operation_stage a) (app_active_generation_id a)
    (app_source_suspended_reason a) (app_next_poll_at a) (app_failure_stage a) (app_failure_class a)
    (app_failure_at a) (app_retry_at a) (app_retry_count a) (app_suspended_at a) (app_recovery_ref a)
    (app_recovery_phase a) (app_interruption_stage a) (app_interruption_at a) (app_interruption_operation_id a)
    (app_interruption_generation_id a).
Definition set_accepted (g : option string) (a : GitOpsApplicationRow) : GitOpsApplicationRow :=
  mkApp
    (app_id a) (app_lifecycle_status a) (app_target_mode a) (app_configured_repo_url a)
    (app_repo_identity_json a) (app_configured_ref a) (app_materialization_fingerprint a)
    (app_desired_commit_sha a) (app_fetched_commit_sha a) (app_candidate_generation_id a) g
    (app_candidate_plan_blocked a) (app_review_required a) (app_review_block_reason a)
    (app_active_operation_id a) (app_active_operation_stage a) (app_active_generation_id a)
    (app_source_suspended_reason a) (app_next_poll_at a) (app_failure_stage a) (app_failure_class a)
    (app_failure_at a) (app_retry_at a) (app_retry_count a) (app_suspended_at a) (app_recovery_ref a)
    (app_recovery_phase a) (app_interruption_stage a) (app_interruption_at a) (app_interruption_operation_id a)
    (app_interruption_generation_id a).
Definition set_active (op : option string) (stage : option ApplicationActiveStage) (g : option string) (a : GitOpsApplicationRow) : GitOpsApplicationRow :=
  mkApp
    (app_id a) (app_lifecycle_status a) (app_target_mode a) (app_configured_repo_url a)
    (app_repo_identity_json a) (app_configured_ref a) (app_materialization_fingerprint a)
    (app_desired_commit_sha a) (app_fetched_commit_sha a) (app_candidate_generation_id a)
    (app_accepted_generation_id a) (app_candidate_plan_blocked a) (app_review_required a)
    (app_review_block_reason a) op stage g (app_source_suspended_reason a) (app_next_poll_at a)
    (app_failure_stage a) (app_failure_class a) (app_failure_at a) (app_retry_at a) (app_retry_count a)
    (app_suspended_at a) (app_recovery_ref a) (app_recovery_phase a) (app_interruption_stage a)
    (app_interruption_at a) (app_interruption_operation_id a) (app_interruption_generation_id a).
Definition set_failure (stage : option ApplicationFailureStage) (class : option string) (at_ : option Z) (a : GitOpsApplicationRow) : GitOpsApplicationRow :=
  mkApp
    (app_id a) (app_lifecycle_status a) (app_target_mode a) (app_configured_repo_url a)
    (app_repo_identity_json a) (app_configured_ref a) (app_materialization_fingerprint a)
    (app_desired_commit_sha a) (app_fetched_commit_sha a) (app_candidate_generation_id a)
    (app_accepted_generation_id a) (app_candidate_plan_blocked a) (app_review_required a)
    (app_review_block_reason a) (app_active_operation_id a) (app_active_operation_stage a)
    (app_active_generation_id a) (app_source_suspended_reason a) (app_next_poll_at a) stage class at_
    (app_retry_at a) (app_retry_count a) (app_suspended_at a) (app_recovery_ref a) (app_recovery_phase a)
    (app_interruption_stage a) (app_interruption_at a) (app_interruption_operation_id a)
    (app_interruption_generation_id a).
Definition set_schedule (poll retry : option Z) (count : Z) (a : GitOpsApplicationRow) : GitOpsApplicationRow :=
  mkApp
    (app_id a) (app_lifecycle_status a) (app_target_mode a) (app_configured_repo_url a)
    (app_repo_identity_json a) (app_configured_ref a) (app_materialization_fingerprint a)
    (app_desired_commit_sha a) (app_fetched_commit_sha a) (app_candidate_generation_id a)
    (app_accepted_generation_id a) (app_candidate_plan_blocked a) (app_review_required a)
    (app_review_block_reason a) (app_active_operation_id a) (app_active_operation_stage a)
    (app_active_generation_id a) (app_source_suspended_reason a) poll (app_failure_stage a)
    (app_failure_class a) (app_failure_at a) retry count (app_suspended_at a) (app_recovery_ref a)
    (app_recovery_phase a) (app_interruption_stage a) (app_interruption_at a) (app_interruption_operation_id a)
    (app_interruption_generation_id a).
Definition set_suspension (at_ : option Z) (reason : option string) (a : GitOpsApplicationRow) : GitOpsApplicationRow :=
  mkApp
    (app_id a) (app_lifecycle_status a) (app_target_mode a) (app_configured_repo_url a)
    (app_repo_identity_json a) (app_configured_ref a) (app_materialization_fingerprint a)
    (app_desired_commit_sha a) (app_fetched_commit_sha a) (app_candidate_generation_id a)
    (app_accepted_generation_id a) (app_candidate_plan_blocked a) (app_review_required a)
    (app_review_block_reason a) (app_active_operation_id a) (app_active_operation_stage a)
    (app_active_generation_id a) reason (app_next_poll_at a) (app_failure_stage a) (app_failure_class a)
    (app_failure_at a) (app_retry_at a) (app_retry_count a) at_ (app_recovery_ref a) (app_recovery_phase a)
    (app_interruption_stage a) (app_interruption_at a) (app_interruption_operation_id a)
    (app_interruption_generation_id a).
Definition set_interruption (stage : option ApplicationActiveStage) (at_ : option Z) (op g : option string) (a : GitOpsApplicationRow) : GitOpsApplicationRow :=
  mkApp
    (app_id a) (app_lifecycle_status a) (app_target_mode a) (app_configured_repo_url a)
    (app_repo_identity_json a) (app_configured_ref a) (app_materialization_fingerprint a)
    (app_desired_commit_sha a) (app_fetched_commit_sha a) (app_candidate_generation_id a)
    (app_accepted_generation_id a) (app_candidate_plan_blocked a) (app_review_required a)
    (app_review_block_reason a) (app_active_operation_id a) (app_active_operation_stage a)
    (app_active_generation_id a) (app_source_suspended_reason a) (app_next_poll_at a) (app_failure_stage a)
    (app_failure_class a) (app_failure_at a) (app_retry_at a) (app_retry_count a) (app_suspended_at a)
    (app_recovery_ref a) (app_recovery_phase a) stage at_ op g.
Definition set_recovery (ref : option string) (phase : option RecoveryPhase) (a : GitOpsApplicationRow) : GitOpsApplicationRow :=
  mkApp
    (app_id a) (app_lifecycle_status a) (app_target_mode a) (app_configured_repo_url a)
    (app_repo_identity_json a) (app_configured_ref a) (app_materialization_fingerprint a)
    (app_desired_commit_sha a) (app_fetched_commit_sha a) (app_candidate_generation_id a)
    (app_accepted_generation_id a) (app_candidate_plan_blocked a) (app_review_required a)
    (app_review_block_reason a) (app_active_operation_id a) (app_active_operation_stage a)
    (app_active_generation_id a) (app_source_suspended_reason a) (app_next_poll_at a) (app_failure_stage a)
    (app_failure_class a) (app_failure_at a) (app_retry_at a) (app_retry_count a) (app_suspended_at a) ref phase
    (app_interruption_stage a) (app_interruption_at a) (app_interruption_operation_id a)
    (app_interruption_generation_id a).

Definition upd_app (f : GitOpsApplicationRow -> GitOpsApplicationRow) (r : SourceRow) : SourceRow :=
  mkSource
    (f (sr_app r)) (sr_stack_name r) (sr_material r) (sr_fetched_resolved_ref_kind r) (sr_artifact_set_id r)
    (sr_latest_artifact_set_id r) (sr_source_acceptance_ref r) (sr_placement_approval_ref r)
    (sr_rollout_authorization_policy r) (sr_latest_operation_id r) (sr_active_operation_at r) (sr_pause_at r)
    (sr_pause_reason r) (sr_pause_origin r) (sr_source_policy r) (sr_attempt_seq r) (sr_updated_at r).
Definition set_material (m : Material) (r : SourceRow) : SourceRow :=
  mkSource
    (sr_app r) (sr_stack_name r) m (sr_fetched_resolved_ref_kind r) (sr_artifact_set_id r)
    (sr_latest_artifact_set_id r) (sr_source_acceptance_ref r) (sr_placement_approval_ref r)
    (sr_rollout_authorization_policy r) (sr_latest_operation_id r) (sr_active_operation_at r) (sr_pause_at r)
    (sr_pause_reason r) (sr_pause_origin r) (sr_source_policy r) (sr_attempt_seq r) (sr_updated_at r).
Definition set_ref_kind (k : option string) (r : SourceRow) : SourceRow :=
  mkSource
    (sr_app r) (sr_stack_name r) (sr_material r) k (sr_artifact_set_id r) (sr_latest_artifact_set_id r)
    (sr_source_acceptance_ref r) (sr_placement_approval_ref r) (sr_rollout_authorization_policy r)
    (sr_latest_operation_id r) (sr_active_operation_at r) (sr_pause_at r) (sr_pause_reason r)
    (sr_pause_origin r) (sr_source_policy r) (sr_attempt_seq r) (sr_updated_at r).
Definition set_acceptance (artifact ref : option string) (r : SourceRow) : SourceRow :=
  mkSource
    (sr_app r) (sr_stack_name r) (sr_material r) (sr_fetched_resolved_ref_kind r) artifact artifact ref
    (sr_placement_approval_ref r) (sr_rollout_authorization_policy r) (sr_latest_operation_id r)
    (sr_active_operation_at r) (sr_pause_at r) (sr_pause_reason r) (sr_pause_origin r) (sr_source_policy r)
    (sr_attempt_seq r) (sr_updated_at r).
Definition set_active_at (at_ : option Z) (r : SourceRow) : SourceRow :=
  mkSource
    (sr_app r) (sr_stack_name r) (sr_material r) (sr_fetched_resolved_ref_kind r) (sr_artifact_set_id r)
    (sr_latest_artifact_set_id r) (sr_source_acceptance_ref r) (sr_placement_approval_ref r)
    (sr_rollout_authorization_policy r) (sr_latest_operation_id r) at_ (sr_pause_at r) (sr_pause_reason r)
    (sr_pause_origin r) (sr_source_policy r) (sr_attempt_seq r) (sr_updated_at r).
Definition lift_pause  (r : SourceRow) : SourceRow :=
  mkSource
    (sr_app r) (sr_stack_name r) (sr_material r) (sr_fetched_resolved_ref_kind r) (sr_artifact_set_id r)
    (sr_latest_artifact_set_id r) (sr_source_acceptance_ref r) (sr_placement_approval_ref r)
    (sr_rollout_authorization_policy r) (sr_latest_operation_id r) (sr_active_operation_at r) None None
    "operator" (sr_source_policy r) (sr_attempt_seq r) (sr_updated_at r).
Definition set_source_policy (p : SourcePolicy) (r : SourceRow) : SourceRow :=
  mkSource
    (sr_app r) (sr_stack_name r) (sr_material r) (sr_fetched_resolved_ref_kind r) (sr_artifact_set_id r)
    (sr_latest_artifact_set_id r) (sr_source_acceptance_ref r) (sr_placement_approval_ref r)
    (sr_rollout_authorization_policy r) (sr_latest_operation_id r) (sr_active_operation_at r) (sr_pause_at r)
    (sr_pause_reason r) (sr_pause_origin r) p (sr_attempt_seq r) (sr_updated_at r).
Definition set_attempt_seq (n : Z) (r : SourceRow) : SourceRow :=
  mkSource
    (sr_app r) (sr_stack_name r) (sr_material r) (sr_fetched_resolved_ref_kind r) (sr_artifact_set_id r)
    (sr_latest_artifact_set_id r) (sr_source_acceptance_ref r) (sr_placement_approval_ref r)
    (sr_rollout_authorization_policy r) (sr_latest_operation_id r) (sr_active_operation_at r) (sr_pause_at r)
    (sr_pause_reason r) (sr_pause_origin r) (sr_source_policy r) n (sr_updated_at r).
Definition stamp (op : string) (at_ : Z) (r : SourceRow) : SourceRow :=
  mkSource
    (sr_app r) (sr_stack_name r) (sr_material r) (sr_fetched_resolved_ref_kind r) (sr_artifact_set_id r)
    (sr_latest_artifact_set_id r) (sr_source_acceptance_ref r) (sr_placement_approval_ref r)
    (sr_rollout_authorization_policy r) (Some op) (sr_active_operation_at r) (sr_pause_at r) (sr_pause_reason r)
    (sr_pause_origin r) (sr_source_policy r) (sr_attempt_seq r) at_.
Definition touch_row (at_ : Z) (r : SourceRow) : SourceRow :=
  mkSource
    (sr_app r) (sr_stack_name r) (sr_material r) (sr_fetched_resolved_ref_kind r) (sr_artifact_set_id r)
    (sr_latest_artifact_set_id r) (sr_source_acceptance_ref r) (sr_placement_approval_ref r)
    (sr_rollout_authorization_policy r) (sr_latest_operation_id r) (sr_active_operation_at r) (sr_pause_at r)
    (sr_pause_reason r) (sr_pause_origin r) (sr_source_policy r) (sr_attempt_seq r) at_.

(** ** Target rows *)

Inductive TargetStatus := T_active | T_tombstoned.
#[export] Instance TargetStatus_eq_dec : EqDecision TargetStatus.
Proof. solve_decision. Defined.

(** An operation, live or interrupted. *)
Record OpMark := mkMark {
  om_stage : option string;
  om_at : option Z;
  om_operation_id : option string;
  om_generation_id : option string;
  om_intent_revision_id : option string;
  om_rollout_candidate_id : option string;
}.
Record FailureMark := mkFailure { fm_stage : option string; fm_class : option string; fm_at : option Z }.
Record RecoveryClaim := mkClaim {
  rc_phase : option RecoveryPhase; rc_ref : option string;
  rc_failure_class : option string; rc_failure_at : option Z;
}.
Record Lkg := mkLkg {
  lk_generation_id : option string; lk_artifact_set_id : option string;
  lk_unavailable_at : option Z; lk_unavailable_reason : option string;
}.

Record TargetRow := mkTarget {
  tg_status : TargetStatus;
  tg_desired_generation_id : option string;
  tg_candidate_generation_id : option string;
  tg_applied_generation_id : option string;
  tg_expected_artifact_set_id : option string;
  tg_latest_artifact_set_id : option string;
  tg_source_acceptance_ref : option string;
  tg_latest_stage : option string;
  tg_active : OpMark;
  tg_interruption : OpMark;
  tg_failure : FailureMark;
  tg_recovery : RecoveryClaim;
  tg_lkg : Lkg;
  tg_updated_at : Z;
}.

Definition noMark : OpMark := mkMark None None None None None None.
Definition noFailure : FailureMark := mkFailure None None None.
Definition noLkg : Lkg := mkLkg None None None None.

Definition emptyTargetRow (now : Z) : TargetRow :=
  mkTarget T_active None None None None None None None noMark noMark noFailure (mkClaim None None None None) noLkg now.

Definition set_tg_status (s : TargetStatus) (t : TargetRow) : TargetRow :=
  mkTarget
    s (tg_desired_generation_id t) (tg_candidate_generation_id t) (tg_applied_generation_id t)
    (tg_expected_artifact_set_id t) (tg_latest_artifact_set_id t) (tg_source_acceptance_ref t)
    (tg_latest_stage t) (tg_active t) (tg_interruption t) (tg_failure t) (tg_recovery t) (tg_lkg t)
    (tg_updated_at t).
Definition set_tg_candidate (g : option string) (t : TargetRow) : TargetRow :=
  mkTarget
    (tg_status t) (tg_desired_generation_id t) g (tg_applied_generation_id t) (tg_expected_artifact_set_id t)
    (tg_latest_artifact_set_id t) (tg_source_acceptance_ref t) (tg_latest_stage t) (tg_active t)
    (tg_interruption t) (tg_failure t) (tg_recovery t) (tg_lkg t) (tg_updated_at t).
Definition set_tg_applied (g artifact ref : string) (t : TargetRow) : TargetRow :=
  mkTarget
    (tg_status t) (Some g) None (Some g) (Some artifact) (Some artifact) (Some ref) (tg_latest_stage t)
    (tg_active t) (tg_interruption t) (tg_failure t) (tg_recovery t) (tg_lkg t) (tg_updated_at t).
Definition set_tg_stage (stage : string) (at_ : Z) (t : TargetRow) : TargetRow :=
  mkTarget
    (tg_status t) (tg_desired_generation_id t) (tg_candidate_generation_id t) (tg_applied_generation_id t)
    (tg_expected_artifact_set_id t) (tg_latest_artifact_set_id t) (tg_source_acceptance_ref t) (Some stage)
    (tg_active t) (tg_interruption t) (tg_failure t) (tg_recovery t) (tg_lkg t) at_.
Definition set_tg_marks (active_ interruption_ : OpMark) (at_ : Z) (t : TargetRow) : TargetRow :=
  mkTarget
    (tg_status t) (tg_desired_generation_id t) (tg_candidate_generation_id t) (tg_applied_generation_id t)
    (tg_expected_artifact_set_id t) (tg_latest_artifact_set_id t) (tg_source_acceptance_ref t)
    (tg_latest_stage t) active_ interruption_ (tg_failure t) (tg_recovery t) (tg_lkg t) at_.
Definition set_tg_failure (f : FailureMark) (t : TargetRow) : TargetRow :=
  mkTarget
    (tg_status t) (tg_desired_generation_id t) (tg_candidate_generation_id t) (tg_applied_generation_id t)
    (tg_expected_artifact_set_id t) (tg_latest_artifact_set_id t) (tg_source_acceptance_ref t)
    (tg_latest_stage t) (tg_active t) (tg_interruption t) f (tg_recovery t) (tg_lkg t) (tg_updated_at t).
Definition set_tg_recovery (x : RecoveryClaim) (t : TargetRow) : TargetRow :=
  mkTarget
    (tg_status t) (tg_desired_generation_id t) (tg_candidate_generation_id t) (tg_applied_generation_id t)
    (tg_expected_artifact_set_id t) (tg_latest_artifact_set_id t) (tg_source_acceptance_ref t)
    (tg_latest_stage t) (tg_active t) (tg_interruption t) (tg_failure t) x (tg_lkg t) (tg_updated_at t).
Definition set_tg_lkg (x : Lkg) (t : TargetRow) : TargetRow :=
  mkTarget
    (tg_status t) (tg_desired_generation_id t) (tg_candidate_generation_id t) (tg_applied_generation_id t)
    (tg_expected_artifact_set_id t) (tg_latest_artifact_set_id t) (tg_source_acceptance_ref t)
    (tg_latest_stage t) (tg_active t) (tg_interruption t) (tg_failure t) (tg_recovery t) x (tg_updated_at t).

(** recoveryClaim.ts *)
Definition targetRestoreInFlight (t : TargetRow) : bool :=
  match rc_phase (tg_recovery t) with Some (capturing | restoring | compensating) => true | _ => false end.

(** ** Tables *)

Record SourceGeneration := mkGen {
  gn_row : GitOpsGenerationRow;
  gn_validation_ok : Z;
  gn_plan_blocked : Z;
  gn_resolved_ref_kind : option string;
}.

Inductive ApprovalAuthority := by_operator | by_policy.
#[export] Instance ApprovalAuthority_eq_dec : EqDecision ApprovalAuthority.
Proof. solve_decision. Defined.

(** A source acceptance. *)
Record Approval := mkApproval {
  av_authority : ApprovalAuthority;
  av_application_id : string;
  av_generation_id : string;
  av_placement_approval_ref : option string;
  av_actor : option string;
}.

Record HistoryRow := mkHistory {
  hi_application_id : string;
  hi_operation_id : string;
  hi_stage : string;
  hi_dedupe_target : string;
  hi_outcome : string;
  hi_generation_id : option string;
}.

Record GitDb := mkDb {
  db_apps : gmap string SourceRow;
  db_targets : gmap (string * Z) TargetRow;
  db_generations : gmap string SourceGeneration;
  db_approvals : gmap string Approval;
  db_artifacts : gmap string (string * Z);      (* generation and evidence version *)
  db_checkpoints : gmap string string;          (* create checkpoints: generation by application *)
  db_history : list HistoryRow;
}.

Definition upd_apps f d := mkDb (f (db_apps d)) (db_targets d) (db_generations d) (db_approvals d) (db_artifacts d)
  (db_checkpoints d) (db_history d).
Definition upd_targets f d := mkDb (db_apps d) (f (db_targets d)) (db_generations d) (db_approvals d) (db_artifacts d)
  (db_checkpoints d) (db_history d).
Definition upd_generations f d := mkDb (db_apps d) (db_targets d) (f (db_generations d)) (db_approvals d)
  (db_artifacts d) (db_checkpoints d) (db_history d).
Definition upd_approvals f d := mkDb (db_apps d) (db_targets d) (db_generations d) (f (db_approvals d))
  (db_artifacts d) (db_checkpoints d) (db_history d).
Definition upd_artifacts f d := mkDb (db_apps d) (db_targets d) (db_generations d) (db_approvals d)
  (f (db_artifacts d)) (db_checkpoints d) (db_history d).
Definition upd_checkpoints f d := mkDb (db_apps d) (db_targets d) (db_generations d) (db_approvals d)
  (db_artifacts d) (f (db_checkpoints d)) (db_history d).
Definition upd_db_history f d := mkDb (db_apps d) (db_targets d) (db_generations d) (db_approvals d)
  (db_artifacts d) (db_checkpoints d) (f (db_history d)).

(** ** Transactions *)

Definition Tx (A : Type) : Type := GitDb -> string + (A * GitDb).

#[export] Instance Tx_ret : MRet Tx := fun A a d => inr (a, d).
#[export] Instance Tx_bind : MBind Tx := fun A B k m d =>
  match m d with inl e => inl e | inr (a, d) => k a d end.

Definition read {A} (f : GitDb -> A) : Tx A := fun d => inr (f d, d).
Definition write (f : GitDb -> GitDb) : Tx unit := fun d => inr (tt, f d).
Definition throw {A} (e : string) : Tx A := fun _ => inl e.
Definition throw_if (b : bool) (e : string) : Tx unit := if b then throw e else mret tt.

(** The tables after a transaction that may throw. *)
Definition commit {A} (m : Tx A) (d : GitDb) : GitDb := match m d with inl _ => d | inr (_, d) => d end.

Section tx.
Context {A B : Type}.
Lemma bind_inr (m : Tx A) (k : A -> Tx B) d r :
  (m ≫= k) d = inr r <-> exists a d1, m d = inr (a, d1) /\ k a d1 = inr r.
Proof.
  unfold mbind, Tx_bind. split.
  - destruct (m d) as [e|[a d1]]; [done|]. intros H. by exists a, d1.
  - intros (a & d1 & -> & H). done.
Qed.
Lemma ret_inr (a : A) d r : (mret a : Tx A) d = inr r <-> r = (a, d).
Proof. unfold mret, Tx_ret. split; [by intros [= <-]|by intros ->]. Qed.
Lemma read_inr (f : GitDb -> A) d r : read f d = inr r <-> r = (f d, d).
Proof. unfold read. split; [by intros [= <-]|by intros ->]. Qed.
Lemma write_inr f d r : write f d = inr r <-> r = (tt, f d).
Proof. unfold write. split; [by intros [= <-]|by intros ->]. Qed.
Lemma throw_if_inr b e d r : throw_if b e d = inr r <-> b = false /\ r = (tt, d).
Proof. destruct b; unfold throw_if, throw, mret, Tx_ret; naive_solver. Qed.
End tx.

(** Take a successful transaction apart. *)
Ltac tx_inv :=
  repeat match goal with
  | H : (_ ≫= _) _ = inr _ |- _ => apply bind_inr in H as (? & ? & ? & H)
  | H : (mret _ : Tx _) _ = inr _ |- _ => apply ret_inr in H
  | H : read _ _ = inr _ |- _ => apply read_inr in H
  | H : write _ _ = inr _ |- _ => apply write_inr in H
  | H : throw_if _ _ _ = inr _ |- _ => apply throw_if_inr in H as [? H]
  | H : throw _ _ = inr _ |- _ => discriminate H
  | H : (_, _) = (_, _) |- _ => injection H as ? ?; subst
  | H : _ = (_, _) |- _ => is_var_pair H
  end
with is_var_pair H := match type of H with ?x = (_, _) => is_var x; subst x end.
