(* ===== verification/SourceTx.v ===== *)
(** * Source transitions of a Direct application
    (backend/src/services/gitops/transitions.ts)

    How the row of a Direct application, its target rows and the tables around
    them move: fetching, staging, reviewing and accepting a generation, suspending
    the source, scheduling, tombstoning, creating from Git, the reservations of
    reconcile attempts, and what a restart interrupts. Each definition is a
    transaction of SourceRows.v. The branches for Blueprint applications, which
    also move rollout and placement columns, are not modelled; neither is the
    adoption of encryption identities at activation. *)

From S2P Require Import Prelude Reconcile SourceRows.

Record EventEnvelope := mkEnv {
  ev_operationId : string; ev_actor : option string; ev_trigger : string; ev_at : Z;
}.

Record SourceConfirmation := mkConfirmation {
  sc_placementApprovalRef : option string; sc_rolloutMayStart : bool;
}.

Record AppliedArgs := mkApplied {
  ar_generationId : string;
  ar_artifactSetId : string;
  ar_sourceAcceptanceId : string;
  ar_authority : ApprovalAuthority;
  ar_envelope : EventEnvelope;
  ar_activateCreating : bool;
  ar_confirmation : option SourceConfirmation;
}.

(** ** Columns *)

Definition candidate (r : SourceRow) : option string := truthy (app_candidate_generation_id (sr_app r)).
Definition stage (r : SourceRow) : option ApplicationActiveStage := app_active_operation_stage (sr_app r).
Definition busy (r : SourceRow) : bool := bool_decide (is_Some (stage r)).
Definition suspended (r : SourceRow) : bool := bool_decide (is_Some (truthyZ (app_suspended_at (sr_app r)))).
Definition interrupted (s : ApplicationActiveStage) (r : SourceRow) : bool :=
  bool_decide (app_interruption_stage (sr_app r) = Some s).

(** The candidate, with the columns that describe it kept or cleared. *)
Definition drop_candidate (r : SourceRow) : SourceRow := upd_app (set_candidate None 0 0 None) r.
Definition stage_candidate (g : string) (blocked review : Z) (r : SourceRow) : SourceRow :=
  upd_app (set_candidate (Some g) blocked review None) r.
Definition set_review (review : Z) (reason : option string) (r : SourceRow) : SourceRow :=
  upd_app (fun a => set_candidate (app_candidate_generation_id a) (app_candidate_plan_blocked a) review reason a) r.
Definition set_next_poll (t : option Z) (r : SourceRow) : SourceRow :=
  upd_app (fun a => set_schedule t (app_retry_at a) (app_retry_count a) a) r.
Definition set_retry (t : option Z) (r : SourceRow) : SourceRow :=
  upd_app (fun a => set_schedule (app_next_poll_at a) t (app_retry_count a) a) r.
Definition set_retry_count (n : Z) (r : SourceRow) : SourceRow :=
  upd_app (fun a => set_schedule (app_next_poll_at a) (app_retry_at a) n a) r.
Definition fail_app (s : ApplicationFailureStage) (class : string) (at_ : Z) (r : SourceRow) : SourceRow :=
  upd_app (set_failure (Some s) (Some class) (Some at_)) r.

Definition clearActive (r : SourceRow) : SourceRow := set_active_at None (upd_app (set_active None None None) r).

Definition clearInterruption (s : ApplicationActiveStage) (r : SourceRow) : SourceRow :=
  if interrupted s r then upd_app (set_interruption None None None None) r else r.

Definition clearAppFailure (stages : list ApplicationFailureStage) (r : SourceRow) : SourceRow :=
  match app_failure_stage (sr_app r) with
  | Some s => if bool_decide (s ∈ stages) then upd_app (set_failure None None None) r else r
  | None => r
  end.

(** ** History *)

Definition sameEvent (a b : HistoryRow) : bool :=
  bool_decide (hi_application_id a = hi_application_id b) && bool_decide (hi_operation_id a = hi_operation_id b)
  && bool_decide (hi_stage a = hi_stage b) && bool_decide (hi_dedupe_target a = hi_dedupe_target b).

(** [INSERT ... ON CONFLICT(application_id, operation_id, stage, dedupe_target) DO
    NOTHING]; the result is the number of rows it added. *)
Definition insertHistory (h : HistoryRow) : Tx nat := fun d =>
  if existsb (sameEvent h) (db_history d) then inr (O, d) else inr (1%nat, upd_db_history (fun l => l ++ [h]) d).

Definition dedupeTarget (nodeId : option Z) : string :=
  match nodeId with None => "app" | Some n => "node:" +:+ pretty n end.

Definition history (id : string) (nodeId : option Z) (e : EventEnvelope) (stage_ outcome : string)
    (generation : option string) : Tx nat :=
  insertHistory (mkHistory id (ev_operationId e) stage_ (dedupeTarget nodeId) outcome generation).

(** ** The rows of a transition *)

Definition requireApp (id : string) : Tx SourceRow :=
  found ← read (fun d => db_apps d !! id);
  match found with Some r => mret r | None => throw "application not found" end.

Definition writeApplication (id : string) (r : SourceRow) : Tx unit := write (upd_apps (<[id := r]>)).

Definition requireOwnedGeneration (id g : string) : Tx SourceGeneration :=
  found ← read (fun d => db_generations d !! g);
  match found with
  | Some x => if bool_decide (gen_application_id (gn_row x) = id) then mret x
              else throw "generation is not owned by this application"
  | None => throw "generation is not owned by this application"
  end.

(** The targets of an application that satisfy a condition, updated. *)
Definition updateTargets (id : string) (p : TargetRow -> bool) (f : TargetRow -> TargetRow) : Tx unit :=
  write (upd_targets (map_imap (fun k t => Some (if bool_decide (k.1 = id) && p t then f t else t)))).

Definition isActiveTarget (t : TargetRow) : bool := bool_decide (tg_status t = T_active).

Definition targetsOf (id : string) (d : GitDb) : list ((string * Z) * TargetRow) :=
  List.filter (fun kt => bool_decide (kt.1.1 = id)) (map_to_list (db_targets d)).

(** [forEachLiveDirectTarget] with the one update that is made of it. *)
Definition setTargetCandidates (id : string) (g : option string) : Tx unit :=
  updateTargets id isActiveTarget (set_tg_candidate g).

(** A mutator returns the row to write and the history rows it added itself. *)
Abbreviation mutator := (SourceRow -> Tx (SourceRow * nat)).

Definition mutateApp (id : string) (e : EventEnvelope) (stage_ outcome : string) (generation : option string)
    (mutate : mutator) : Tx nat :=
  r ← requireApp id;
  res ← mutate r;
  writeApplication id (stamp (ev_operationId e) (ev_at e) res.1);;
  n ← history id None e stage_ outcome generation;
  mret (res.2 + n)%nat.

Definition done_ (r : SourceRow) : Tx (SourceRow * nat) := mret (r, O).

(** ** Fetching *)

Definition fetchStarted (id : string) (e : EventEnvelope) : Tx nat :=
  mutateApp id e "fetch_started" "committed" None (fun r =>
    throw_if (suspended r) "source is suspended";;
    throw_if (bool_decide (stage r = Some apply_started)) "apply is already active";;
    throw_if (busy r && negb (bool_decide (app_active_operation_id (sr_app r) = Some (ev_operationId e))))
      "conflicting active operation";;
    done_ (clearInterruption fetch_started (set_next_poll None (set_retry None
      (set_active_at (Some (ev_at e))
         (upd_app (set_active (Some (ev_operationId e)) (Some fetch_started) None) r)))))).

(** [!id || id === operationId] *)
Definition unclaimed (o : option string) (e : EventEnvelope) : bool :=
  match truthy o with None => true | Some op => bool_decide (op = ev_operationId e) end.

Definition requireMatchingFetch (r : SourceRow) (e : EventEnvelope) : Tx unit :=
  let live := bool_decide (stage r = Some fetch_started) && unclaimed (app_active_operation_id (sr_app r)) e in
  let late := interrupted fetch_started r && unclaimed (app_interruption_operation_id (sr_app r)) e in
  throw_if (negb live && negb late) "no matching fetch operation".

Definition fetched (id commitSha : string) (refKind : option string) (e : EventEnvelope) : Tx nat :=
  mutateApp id e "fetched" "committed" None (fun r =>
    requireMatchingFetch r e;;
    done_ (clearInterruption fetch_started (clearAppFailure [F_fetch; F_validation]
      (set_retry_count 0 (set_ref_kind refKind (upd_app (set_commits (Some commitSha)) (clearActive r))))))).

(** The class is the code of the failure, or [fetch]. *)
Definition fetchFailed (id : string) (code : option string) (e : EventEnvelope) : Tx nat :=
  mutateApp id e "fetch_failed" "failed" None (fun r =>
    requireMatchingFetch r e;;
    done_ (clearInterruption fetch_started (fail_app F_fetch (default "fetch" code) (ev_at e) (clearActive r)))).

Definition fetchedInvalid (id commitSha : string) (refKind : option string) (e : EventEnvelope) : Tx nat :=
  mutateApp id e "fetched_invalid" "failed" None (fun r =>
    requireMatchingFetch r e;;
    done_ (clearInterruption fetch_started (fail_app F_validation "validation" (ev_at e)
      (set_ref_kind refKind (upd_app (set_commits (Some commitSha)) (clearActive r)))))).

(** ** Staging *)

Definition supersedeCandidate (id : string) (r : SourceRow) (next : string) (e : EventEnvelope) : Tx nat :=
  match candidate r with
  | Some g => if bool_decide (g = next) then mret O else history id None e "candidate_superseded" "superseded" (Some g)
  | None => mret O
  end.

Definition applyingOther (g : string) (r : SourceRow) : bool :=
  bool_decide (stage r = Some apply_started)
  && negb (bool_decide (app_candidate_generation_id (sr_app r) = Some g)).

Definition sourceConflictBlocker (id g : string) (e : EventEnvelope) : Tx nat :=
  mutateApp id e "source_conflict_blocker" "committed" (Some g) (fun r =>
    x ← requireOwnedGeneration id g;
    throw_if (negb (gn_plan_blocked x =? 1)) "generation is not blocked";;
    throw_if (applyingOther g r) "cannot replace the candidate while an apply is in flight";;
    n ← supersedeCandidate id r g e;
    setTargetCandidates id (Some g);;
    mret (upd_app (fun a => set_candidate (Some g) 1 (app_review_required a) None a) r, n)).

Definition candidateReady (id g : string) (reviewRequired : bool) (e : EventEnvelope) : Tx nat :=
  mutateApp id e "candidate_ready" "committed" (Some g) (fun r =>
    x ← requireOwnedGeneration id g;
    throw_if (negb (gn_validation_ok x =? 1) || negb (gn_plan_blocked x =? 0)) "generation is not a valid candidate";;
    throw_if (negb (bool_decide (Some (gen_materialization_fingerprint (gn_row x))
                                 = app_materialization_fingerprint (sr_app r))))
      "generation fingerprint does not match current configuration";;
    throw_if (applyingOther g r) "cannot replace the candidate while an apply is in flight";;
    n ← supersedeCandidate id r g e;
    setTargetCandidates id (Some g);;
    mret (clearAppFailure [F_validation] (stage_candidate g 0 (if reviewRequired then 1 else 0) r), n)).

Definition dismissed (id : string) (e : EventEnvelope) : Tx nat :=
  mutateApp id e "dismissed" "skipped" None (fun r =>
    throw_if (bool_decide (candidate r = None)) "no candidate to dismiss";;
    throw_if (busy r) "cannot dismiss while an operation is in flight";;
    setTargetCandidates id None;;
    done_ (drop_candidate r)).

Record NewSource := mkNewSource {
  ns_repoUrl : string; ns_repoIdentityJson : string; ns_configuredRef : string;
  ns_material : Material; ns_fingerprint : string;
}.

Definition configChangedPendingCleared (id : string) (c : NewSource) (e : EventEnvelope) : Tx nat :=
  mutateApp id e "config_changed_pending_cleared" "committed" None (fun r =>
    throw_if (negb (bool_decide (app_target_mode (sr_app r) = direct)))
      "material configuration applies to Direct applications only";;
    throw_if (busy r) "cannot change material configuration while an operation is in flight";;
    setTargetCandidates id None;;
    done_ (clearAppFailure [F_fetch; F_validation] (drop_candidate (set_ref_kind None (upd_app (set_commits None)
      (set_material (ns_material c)
         (upd_app (set_source (Some (ns_repoUrl c)) (Some (ns_repoIdentityJson c)) (Some (ns_configuredRef c))
                     (Some (ns_fingerprint c))) r))))))).

Definition sourceReviewBlocked (id g reason : string) (e : EventEnvelope) : Tx nat :=
  mutateApp id e "source_review_blocked" "committed" (Some g) (fun r =>
    throw_if (negb (bool_decide (app_candidate_generation_id (sr_app r) = Some g)))
      "blocked generation is not the current candidate";;
    throw_if (app_candidate_plan_blocked (sr_app r) =? 1) "candidate is blocked by its plan, not by acceptance";;
    throw_if (bool_decide (stage r = Some apply_started)) "cannot hold acceptance while an apply is in flight";;
    done_ (set_review 1 (Some reason) r)).

(** ** Applying *)

Definition applyStarted (id g : string) (e : EventEnvelope) : Tx nat :=
  mutateApp id e "apply_started" "committed" (Some g) (fun r =>
    throw_if (suspended r) "source is suspended";;
    throw_if (negb (bool_decide (app_candidate_generation_id (sr_app r) = Some g)))
      "apply generation is not the current candidate";;
    throw_if (app_candidate_plan_blocked (sr_app r) =? 1) "candidate is blocked";;
    x ← requireOwnedGeneration id g;
    throw_if (negb (bool_decide (Some (gen_materialization_fingerprint (gn_row x))
                                 = app_materialization_fingerprint (sr_app r))))
      "generation fingerprint does not match current configuration";;
    throw_if (busy r && negb (bool_decide (app_active_operation_id (sr_app r) = Some (ev_operationId e))))
      "conflicting active operation";;
    done_ (clearInterruption apply_started (set_active_at (Some (ev_at e))
      (upd_app (set_active (Some (ev_operationId e)) (Some apply_started) (Some g)) r)))).

Definition applyFailed (id class : string) (e : EventEnvelope) : Tx nat :=
  mutateApp id e "apply_failed" "failed" None (fun r =>
    throw_if (negb (bool_decide (stage r = Some apply_started)) && negb (interrupted apply_started r))
      "no matching apply operation";;
    done_ (clearInterruption apply_started (fail_app F_apply class (ev_at e) (clearActive r)))).

Definition requireAcceptableCandidate (id : string) (r : SourceRow) (a : AppliedArgs) : Tx unit :=
  let g := ar_generationId a in
  throw_if (negb (bool_decide (app_candidate_generation_id (sr_app r) = Some g)))
    "applied generation is not the current candidate";;
  throw_if (app_candidate_plan_blocked (sr_app r) =? 1) "candidate is blocked";;
  throw_if (bool_decide (ar_authority a = by_policy) && negb (bool_decide (sr_source_policy r = sp_automatic)))
    "source policy is no longer automatic";;
  throw_if (bool_decide (app_accepted_generation_id (sr_app r) = Some g)) "generation is already accepted";;
  _ ← requireOwnedGeneration id g;
  throw_if (bool_decide (stage r = Some apply_started)
            && negb (bool_decide (app_active_generation_id (sr_app r) = Some g)))
    "live apply is bound to a different generation";;
  throw_if (bool_decide (stage r = Some apply_started)
            && negb (unclaimed (app_active_operation_id (sr_app r)) (ar_envelope a)))
    "live apply belongs to a different operation".

(** The store's uniqueness constraints, on the two rows of an acceptance. *)
Definition insertAcceptanceRecords (id : string) (a : AppliedArgs) : Tx unit :=
  taken ← read (fun d => bool_decide (is_Some (db_artifacts d !! ar_artifactSetId a))
                         || existsb (fun kv => bool_decide (kv.2 = (ar_generationId a, 1))) (map_to_list (db_artifacts d)));
  throw_if taken "UNIQUE constraint failed: gitops_artifact_sets";;
  write (upd_artifacts (<[ar_artifactSetId a := (ar_generationId a, 1)]>));;
  known ← read (fun d => bool_decide (is_Some (db_approvals d !! ar_sourceAcceptanceId a)));
  throw_if known "UNIQUE constraint failed: gitops_approvals.id";;
  write (upd_approvals (<[ar_sourceAcceptanceId a :=
    mkApproval (ar_authority a) id (ar_generationId a) (ar_confirmation a ≫= sc_placementApprovalRef)
      (ev_actor (ar_envelope a))]>)).

Definition applySourceAcceptanceMutation (id : string) (r : SourceRow) (a : AppliedArgs) : Tx SourceRow :=
  insertAcceptanceRecords id a;;
  let r := drop_candidate (set_acceptance (Some (ar_artifactSetId a)) (Some (ar_sourceAcceptanceId a))
             (upd_app (set_accepted (Some (ar_generationId a))) r)) in
  let r := if ar_activateCreating a && bool_decide (app_lifecycle_status (sr_app r) = creating)
           then upd_app (set_lifecycle active) r else r in
  mret (clearInterruption apply_started (clearAppFailure [F_apply; F_fetch; F_validation] (clearActive r))).

(** [invalidateAuthorizationOnSourceChange] of a Direct application: the hold of a
    superseded rollout is lifted. *)
Definition invalidateAuthorizationOnSourceChange (id : string) (r : SourceRow) (e : EventEnvelope)
    : Tx (SourceRow * nat) :=
  if bool_decide (is_Some (sr_pause_at r)) && bool_decide (sr_pause_origin r = "system") then
    n ← history id None e "rollout_unpaused" "committed" None;
    mret (lift_pause r, n)
  else done_ r.

Definition acceptanceTargets (id : string) (r : SourceRow) (a : AppliedArgs) : Tx unit :=
  requireAcceptableCandidate id r a;;
  mismatch ← read (fun d => existsb (fun kt => isActiveTarget kt.2
                && negb (bool_decide (tg_candidate_generation_id kt.2 = Some (ar_generationId a)))) (targetsOf id d));
  throw_if mismatch "direct target candidate does not match applied generation".

Definition applyTargetAcceptanceMutation (a : AppliedArgs) (t : TargetRow) : TargetRow :=
  set_tg_applied (ar_generationId a) (ar_artifactSetId a) (ar_sourceAcceptanceId a) t.

Definition applied (id : string) (a : AppliedArgs) : Tx nat :=
  mutateApp id (ar_envelope a) "applied" "committed" (Some (ar_generationId a)) (fun r =>
    acceptanceTargets id r a;;
    res ← invalidateAuthorizationOnSourceChange id r (ar_envelope a);
    r ← applySourceAcceptanceMutation id res.1 a;
    updateTargets id isActiveTarget (applyTargetAcceptanceMutation a);;
    mret (r, res.2)).

(** sourceConfirmation.ts *)
Inductive ConfirmationDrift := placement_changed | rollout_authorization_widened.

Definition sourceConfirmationDrift (r : SourceRow) (c : SourceConfirmation) : option ConfirmationDrift :=
  if negb (bool_decide (sr_placement_approval_ref r = sc_placementApprovalRef c)) then Some placement_changed
  else if negb (sc_rolloutMayStart c) && bool_decide (sr_rollout_authorization_policy r = "automatic")
  then Some rollout_authorization_widened
  else None.

Definition driftSentence (d : ConfirmationDrift) : string :=
  match d with
  | placement_changed =>
      "The approved placement changed since you reviewed it; review the current approval and confirm again."
  | rollout_authorization_widened =>
      "Rollout authorization now authorizes without an operator, so this could start a rollout; review it and confirm again."
  end.

Definition sourceAccepted (id : string) (a : AppliedArgs) : Tx nat :=
  mutateApp id (ar_envelope a) "source_accepted" "committed" (Some (ar_generationId a)) (fun r =>
    throw_if (suspended r) "source is suspended";;
    requireAcceptableCandidate id r a;;
    match ar_confirmation a ≫= sourceConfirmationDrift r with
    | Some drift => throw (driftSentence drift)
    | None =>
        res ← invalidateAuthorizationOnSourceChange id r (ar_envelope a);
        r ← applySourceAcceptanceMutation id res.1 a;
        mret (r, res.2)
    end).

(** [mutateTarget]; a Direct target has no standing Blueprint decision to keep. *)
Definition mutateTarget (id : string) (nodeId : Z) (e : EventEnvelope) (stage_ outcome : string)
    (generation : option string) (mutate : TargetRow -> SourceRow -> Tx TargetRow) : Tx nat :=
  r ← requireApp id;
  found ← read (fun d => db_targets d !! (id, nodeId));
  match found with
  | None => throw "target not found"
  | Some t =>
      t ← mutate t r;
      write (upd_targets (<[(id, nodeId) := set_tg_stage stage_ (ev_at e) t]>));;
      history id (Some nodeId) e stage_ outcome generation
  end.

Definition targetApplied (id : string) (nodeId : Z) (a : AppliedArgs) : Tx nat :=
  r ← requireApp id;
  throw_if (negb (bool_decide (app_target_mode (sr_app r) = direct))) "target application is not direct";;
  throw_if (negb (bool_decide (app_accepted_generation_id (sr_app r) = Some (ar_generationId a))))
    "generation is not accepted";;
  throw_if (negb (bool_decide (sr_source_acceptance_ref r = Some (ar_sourceAcceptanceId a))))
    "source acceptance reference does not match the accepted generation";;
  mutateTarget id nodeId (ar_envelope a) "target_applied" "committed" (Some (ar_generationId a)) (fun t _ =>
    throw_if (negb (isActiveTarget t)) "cannot apply to a tombstoned target";;
    throw_if (negb (bool_decide (tg_candidate_generation_id t = Some (ar_generationId a))))
      "target candidate does not match applied generation";;
    mret (applyTargetAcceptanceMutation a t)).

(** ** Lifecycle *)

Definition applicationTombstoned (id : string) (status : GitOpsLifecycleStatus) (e : EventEnvelope) : Tx nat :=
  mutateApp id e "application_tombstoned" "committed" None (fun r =>
    throw_if (bool_decide (app_lifecycle_status (sr_app r) = deleted)
              || bool_decide (app_lifecycle_status (sr_app r) = detached)) "application is already tombstoned";;
    done_ (upd_app (set_failure None None None) (clearActive (upd_app (set_lifecycle status) r)))).

Definition sourceRetryScheduled (id : string) (retryAt retryCount : Z) (e : EventEnvelope) : Tx nat :=
  mutateApp id e "source_retry_scheduled" "committed" None (fun r =>
    throw_if (suspended r) "source is suspended";;
    throw_if (busy r) "cannot schedule a retry while an operation is in flight";;
    done_ (set_retry_count retryCount (set_retry (Some retryAt) r))).

Definition sourcePollScheduled (id : string) (nextPollAt : Z) (e : EventEnvelope) : Tx nat :=
  mutateApp id e "source_poll_scheduled" "committed" None (fun r =>
    throw_if (suspended r) "source is suspended";;
    throw_if (busy r) "cannot schedule a poll while an operation is in flight";;
    done_ (set_next_poll (Some nextPollAt) r)).

Definition sourcePolicyChanged (id : string) (p : SourcePolicy) (e : EventEnvelope) : Tx nat :=
  mutateApp id e "source_policy_changed" "committed" None (fun r =>
    throw_if (busy r) "cannot change the source policy while an operation is in flight";;
    let r := set_source_policy p r in
    let r := if bool_decide (p <> sp_automatic) then set_review (app_review_required (sr_app r)) None r else r in
    done_ (if bool_decide (p = sp_manual) then set_next_poll None (set_retry None r) else r)).

(** ** Interruption and suspension *)

Definition recoveryInFlight (p : option RecoveryPhase) : bool :=
  match p with Some (capturing | restoring | compensating) => true | _ => false end.

(** What [interruptActiveOperations] does to a target that it touches. *)
Definition interruptTarget (e : EventEnvelope) (t : TargetRow) : TargetRow :=
  let restoring_ := targetRestoreInFlight t in
  let prior := rc_failure_class (tg_recovery t) in
  let t' :=
    if restoring_ then
      set_tg_failure (mkFailure (Some "recovery") (Some "interrupted") (Some (ev_at e)))
        (set_tg_recovery
           (if bool_decide (prior <> None) && negb (bool_decide (prior = Some "pre_mutation"))
            then mkClaim (Some R_failed) (rc_ref (tg_recovery t)) prior
                   (Some (default (ev_at e) (rc_failure_at (tg_recovery t))))
            else mkClaim (Some R_failed) (rc_ref (tg_recovery t)) (Some "interrupted") (Some (ev_at e))) t)
    else t in
  let m := tg_active t in
  set_tg_marks noMark
    (mkMark (match om_stage m with Some s => Some s | None => if restoring_ then Some "recovery_started" else None end)
       (Some (ev_at e)) (om_operation_id m) (om_generation_id m) (om_intent_revision_id m) (om_rollout_candidate_id m))
    (ev_at e) t'.

Definition targetBusy (t : TargetRow) : bool :=
  bool_decide (is_Some (om_stage (tg_active t))) || targetRestoreInFlight t.

Fixpoint interruptTargets (id : string) (e : EventEnvelope) (ts : list ((string * Z) * TargetRow)) : Tx nat :=
  match ts with
  | [] => mret O
  | (k, t) :: ts =>
      if targetBusy t then
        write (upd_targets (<[k := interruptTarget e t]>));;
        n ← history id (Some k.2) e "operation_interrupted" "unknown" None;
        m ← interruptTargets id e ts;
        mret (n + m)%nat
      else interruptTargets id e ts
  end.

(** The application row [interruptActiveOperations] writes, when it writes it. *)
Definition interruptApp (e : EventEnvelope) (r : SourceRow) : option SourceRow :=
  let lost := recoveryInFlight (app_recovery_phase (sr_app r)) in
  let r' := if lost then fail_app F_recovery "interrupted" (ev_at e)
                           (upd_app (fun a => set_recovery (app_recovery_ref a) (Some R_failed) a) r) else r in
  if busy r || lost then
    Some (touch_row (ev_at e) (clearActive (upd_app (fun a =>
      set_interruption (app_active_operation_stage a) (Some (ev_at e)) (app_active_operation_id a)
        (app_active_generation_id a) a) r')))
  else None.

Definition interruptActiveOperations (id : string) (e : EventEnvelope) : Tx nat :=
  r ← requireApp id;
  n ← match interruptApp e r with
      | Some r' => writeApplication id r';; history id None e "operation_interrupted" "unknown" None
      | None => mret O
      end;
  ts ← read (targetsOf id);
  m ← interruptTargets id e ts;
  mret (n + m)%nat.

Definition sourceSuspended (id reason : string) (e : EventEnvelope) : Tx nat :=
  mutateApp id e "source_suspended" "committed" None (fun r =>
    throw_if (negb (bool_decide (app_lifecycle_status (sr_app r) = active))) "source is not live";;
    res ← (if busy r then
             n ← interruptActiveOperations id e;
             reloaded ← requireApp id;
             let a := sr_app reloaded in
             mret (clearActive (upd_app (set_interruption (app_interruption_stage a) (app_interruption_at a)
                     (app_interruption_operation_id a) (app_interruption_generation_id a)) r), n)
           else done_ r);
    mret (upd_app (set_suspension (Some (ev_at e)) (Some reason)) res.1, res.2)).

Definition sourceUnsuspended (id : string) (e : EventEnvelope) : Tx nat :=
  mutateApp id e "source_unsuspended" "committed" None (fun r =>
    throw_if (negb (suspended r)) "source is not suspended";;
    done_ (upd_app (set_suspension None None) r)).

(** ** Reconcile attempts *)

Definition reserveReconcileAttempt (id : string) (e : EventEnvelope) : Tx bool :=
  _ ← requireApp id;
  n ← history id None e "source_reconcile_started" "committed" None;
  mret (bool_decide (n <> O)).

Definition attemptId (id : string) (seq : Z) : string := id +:+ ":attempt:" +:+ pretty seq.

Definition allocateReconcileAttempt (id : string) (actor : option string) (trigger : string) (at_ : Z)
    : Tx (string * bool) :=
  r ← requireApp id;
  let seq := sr_attempt_seq r + 1 in
  writeApplication id (set_attempt_seq seq r);;
  let op := attemptId id seq in
  n ← history id None (mkEnv op actor trigger at_) "source_reconcile_started" "committed" None;
  mret (op, bool_decide (n <> O)).

Definition settleReconcileAttempt (id : string) (e : EventEnvelope) : Tx bool :=
  _ ← requireApp id;
  n ← history id None e "source_reconcile_settled" "committed" None;
  mret (bool_decide (n <> O)).

(** ** Activation *)

(** directApplication.ts, with the configuration and its fingerprint as the row
    keeps them. *)
Definition buildDirectApplicationRow (id stackName : string) (c : NewSource) (status : GitOpsLifecycleStatus) (at_ : Z)
    (rolloutAuthorizationPolicy : string) (policy : SourcePolicy) : SourceRow :=
  mkSource
    (mkApp id status direct (Some (ns_repoUrl c)) (Some (ns_repoIdentityJson c)) (Some (ns_configuredRef c))
       (Some (ns_fingerprint c)) None None None None 0 0 None None None None None None None None None None 0 None None
       None None None None None)
    stackName (ns_material c) None None None None None rolloutAuthorizationPolicy None None None None "operator" policy
    0 at_.

Definition liveDirect (stackName : string) (d : GitDb) : bool :=
  existsb (fun kr => bool_decide (sr_stack_name kr.2 = stackName)
    && (bool_decide (app_lifecycle_status (sr_app kr.2) = active)
        || bool_decide (app_lifecycle_status (sr_app kr.2) = creating))) (map_to_list (db_apps d)).

Definition insertApplication (r : SourceRow) : Tx unit :=
  taken ← read (fun d => bool_decide (is_Some (db_apps d !! app_id (sr_app r))));
  throw_if taken "UNIQUE constraint failed: gitops_applications.id";;
  write (upd_apps (<[app_id (sr_app r) := r]>)).

Definition activateDirect (r : SourceRow) (nodeId : Z) (e : EventEnvelope) : Tx nat :=
  live ← read (liveDirect (sr_stack_name r));
  throw_if live "live direct application already exists";;
  insertApplication r;;
  write (upd_targets (<[(app_id (sr_app r), nodeId) := emptyTargetRow (ev_at e)]>));;
  history (app_id (sr_app r)) None e "application_activated" "committed" None.

Definition activateCreateFromGit (r : SourceRow) (nodeId : Z) (commitSha g : string) (x : SourceGeneration)
    (e : EventEnvelope) : Tx nat :=
  let id := app_id (sr_app r) in
  live ← read (liveDirect (sr_stack_name r));
  throw_if live "live direct application already exists";;
  throw_if (negb (bool_decide (app_lifecycle_status (sr_app r) = creating)))
    "create activation requires a creating application";;
  throw_if (negb (bool_decide (gen_application_id (gn_row x) = id)))
    "generation does not belong to the application";;
  throw_if (negb (bool_decide (Some (gen_materialization_fingerprint (gn_row x))
                               = app_materialization_fingerprint (sr_app r))))
    "generation fingerprint does not match the application";;
  throw_if (negb (gn_validation_ok x =? 1) || negb (gn_plan_blocked x =? 0))
    "create cannot persist an invalid or blocked candidate";;
  insertApplication r;;
  n1 ← history id None e "application_activated" "committed" None;
  n2 ← history id None e "fetched" "committed" None;
  known ← read (fun d => bool_decide (is_Some (db_generations d !! g)));
  throw_if known "UNIQUE constraint failed: gitops_generations.id";;
  write (upd_generations (<[g := x]>));;
  write (upd_checkpoints (<[id := g]>));;
  writeApplication id (stamp (ev_operationId e) (ev_at e) (stage_candidate g 0 0
    (set_retry_count 0 (set_ref_kind (gn_resolved_ref_kind x) (upd_app (set_commits (Some commitSha)) r)))));;
  write (upd_targets (<[(id, nodeId) := set_tg_candidate (Some g) (emptyTargetRow (ev_at e))]>));;
  n3 ← history id None e "candidate_ready" "committed" (Some g);
  mret (n1 + n2 + n3)%nat.

Definition createFailed (id class : string) (e : EventEnvelope) : Tx nat :=
  r ← requireApp id;
  throw_if (negb (bool_decide (app_lifecycle_status (sr_app r) = creating)))
    "create_failed requires a creating application";;
  writeApplication id (stamp (ev_operationId e) (ev_at e) (clearActive (upd_app (set_lifecycle deleted)
    (fail_app F_create class (ev_at e) r))));;
  updateTargets id (fun _ => true) (fun t => set_tg_lkg noLkg (set_tg_failure noFailure
    (set_tg_marks noMark (tg_interruption t) (ev_at e) (set_tg_status T_tombstoned t))));;
  write (upd_checkpoints (delete id));;
  history id None e "create_failed" "failed" None.
