(* ===== verification/SourceInv.v ===== *)
(** * Source transitions: what they keep, and what the projection reads

    The invariant of the tables under the transitions of SourceTx.v, in any order
    and interleaved with the other transitions of a Direct application; what it
    gives the source projection of Reconcile.v; acceptance, suspension, settlement
    and the history. *)

From S2P Require Import Prelude Reconcile SourceRows SourceTx.

(** ** The steps *)

(** What the transitions that are not modelled (deploy, health, recovery, rollout
    and evidence) may do to the row of a Direct application: everything but its
    source columns; a failure they record or clear is a recovery's. *)
Record OthersRow (r r' : SourceRow) : Prop := {
  ot_id : app_id (sr_app r') = app_id (sr_app r) /\ app_target_mode (sr_app r') = app_target_mode (sr_app r);
  ot_source : app_materialization_fingerprint (sr_app r') = app_materialization_fingerprint (sr_app r)
    /\ app_desired_commit_sha (sr_app r') = app_desired_commit_sha (sr_app r);
  ot_candidate : app_candidate_generation_id (sr_app r') = app_candidate_generation_id (sr_app r)
    /\ app_candidate_plan_blocked (sr_app r') = app_candidate_plan_blocked (sr_app r);
  ot_accepted : app_accepted_generation_id (sr_app r') = app_accepted_generation_id (sr_app r)
    /\ sr_source_acceptance_ref r' = sr_source_acceptance_ref r;
  ot_active : app_active_operation_id (sr_app r') = app_active_operation_id (sr_app r)
    /\ app_active_operation_stage (sr_app r') = app_active_operation_stage (sr_app r)
    /\ app_active_generation_id (sr_app r') = app_active_generation_id (sr_app r);
  ot_interruption : app_interruption_stage (sr_app r') = app_interruption_stage (sr_app r)
    /\ app_interruption_at (sr_app r') = app_interruption_at (sr_app r);
  ot_failure :
    (app_failure_stage (sr_app r') = app_failure_stage (sr_app r)
       /\ app_failure_class (sr_app r') = app_failure_class (sr_app r)
       /\ app_failure_at (sr_app r') = app_failure_at (sr_app r))
    \/ (app_failure_stage (sr_app r') = Some F_recovery /\ is_Some (app_failure_class (sr_app r'))
          /\ is_Some (app_failure_at (sr_app r')))
    \/ app_failure_stage (sr_app r') = None;
}.

(** Those transitions may retire a target and move any of its columns but the
    candidate; they add rows of their own to the history. *)
Definition OthersTargets (m m' : gmap (string * Z) TargetRow) : Prop :=
  forall k t', m' !! k = Some t' -> exists t, m !! k = Some t
    /\ tg_candidate_generation_id t' = tg_candidate_generation_id t
    /\ (tg_status t' = T_active -> tg_status t = T_active).

Inductive tx_step : GitDb -> GitDb -> Prop :=
  | tx_op {A} (m : Tx A) a d d' : source_op m -> m d = inr (a, d') -> tx_step d d'
  | tx_generation g x d :                       (* a fetch stores what it built *)
      g <> "" -> db_generations d !! g = None -> tx_step d (upd_generations (<[g := x]>) d)
  | tx_other id r r' targets rows d :
      db_apps d !! id = Some r -> OthersRow r r' -> OthersTargets (db_targets d) targets ->
      tx_step d (upd_db_history (fun l => l ++ rows) (upd_targets (fun _ => targets) (upd_apps (<[id := r']>) d)))
with source_op : forall {A}, Tx A -> Prop :=
  | op_fetchStarted id e : source_op (fetchStarted id e)
  | op_fetched id sha kind e : source_op (fetched id sha kind e)
  | op_fetchFailed id code e : source_op (fetchFailed id code e)
  | op_fetchedInvalid id sha kind e : source_op (fetchedInvalid id sha kind e)
  | op_sourceConflictBlocker id g e : source_op (sourceConflictBlocker id g e)
  | op_candidateReady id g review e : source_op (candidateReady id g review e)
  | op_dismissed id e : source_op (dismissed id e)
  | op_configChanged id c e : source_op (configChangedPendingCleared id c e)
  | op_sourceReviewBlocked id g reason e : source_op (sourceReviewBlocked id g reason e)
  | op_applyStarted id g e : source_op (applyStarted id g e)
  | op_applyFailed id class e : source_op (applyFailed id class e)
  | op_applied id a : source_op (applied id a)
  | op_sourceAccepted id a : source_op (sourceAccepted id a)
  | op_targetApplied id n a : source_op (targetApplied id n a)
  | op_tombstoned id status e :
      status = deleted \/ status = detached -> source_op (applicationTombstoned id status e)
  | op_retryScheduled id t n e : source_op (sourceRetryScheduled id t n e)
  | op_pollScheduled id t e : source_op (sourcePollScheduled id t e)
  | op_policyChanged id p e : source_op (sourcePolicyChanged id p e)
  | op_interrupt id e : source_op (interruptActiveOperations id e)
  | op_suspended id reason e : source_op (sourceSuspended id reason e)
  | op_unsuspended id e : source_op (sourceUnsuspended id e)
  | op_reserve id e : source_op (reserveReconcileAttempt id e)
  | op_allocate id actor trigger t : source_op (allocateReconcileAttempt id actor trigger t)
  | op_settle id e : source_op (settleReconcileAttempt id e)
  | op_activate id stack c t rp p n e :
      source_op (activateDirect (buildDirectApplicationRow id stack c active t rp p) n e)
  | op_create id stack c t rp p n sha g x e :
      g <> "" -> source_op (activateCreateFromGit (buildDirectApplicationRow id stack c creating t rp p) n sha g x e)
  | op_createFailed id class e : source_op (createFailed id class e).

Definition emptyDb : GitDb := mkDb ∅ ∅ ∅ ∅ ∅ ∅ [].
Definition db_reachable (d : GitDb) : Prop := rtc tx_step emptyDb d.

(** ** The invariant *)

Definition owned (id g : string) (d : GitDb) (P : SourceGeneration -> Prop) : Prop :=
  exists x, db_generations d !! g = Some x /\ gen_application_id (gn_row x) = id /\ P x.

Lemma owned_impl id g d (P Q : SourceGeneration -> Prop) :
  (forall x, P x -> Q x) -> owned id g d P -> owned id g d Q.
Proof. intros H (x & Hx & Hid & HP). exists x. auto. Qed.

(** A valid generation of the application, with its acceptance. *)
Definition accepted_on_record (d : GitDb) (id g : string) (ref : option string) : Prop :=
  owned id g d (fun x => gn_validation_ok x = 1 /\ gn_plan_blocked x = 0)
  /\ exists ref' v, ref = Some ref' /\ db_approvals d !! ref' = Some v
       /\ av_application_id v = id /\ av_generation_id v = g.

(** A candidate is a stored generation of the application; it is held by its plan,
    or it is valid and built from the configuration in force. An accepted
    generation is valid and its acceptance is on record. A live apply runs on the
    candidate. A failure and an interruption say when they happened. A live target
    waits for the same candidate as its application. *)
Record RowInv (d : GitDb) (id : string) (r : SourceRow) : Prop := {
  ri_id : app_id (sr_app r) = id /\ app_target_mode (sr_app r) = direct;
  ri_candidate : forall g, app_candidate_generation_id (sr_app r) = Some g ->
    owned id g d (fun x =>
      (app_candidate_plan_blocked (sr_app r) = 1 /\ gn_plan_blocked x = 1)
      \/ (app_candidate_plan_blocked (sr_app r) = 0 /\ gn_validation_ok x = 1 /\ gn_plan_blocked x = 0
          /\ Some (gen_materialization_fingerprint (gn_row x)) = app_materialization_fingerprint (sr_app r)));
  ri_accepted : forall g, app_accepted_generation_id (sr_app r) = Some g ->
    accepted_on_record d id g (sr_source_acceptance_ref r);
  ri_active : match app_active_operation_stage (sr_app r) with
    | None => True
    | Some fetch_started => is_Some (app_active_operation_id (sr_app r))
    | Some apply_started => is_Some (app_active_operation_id (sr_app r))
        /\ is_Some (app_candidate_generation_id (sr_app r))
        /\ app_active_generation_id (sr_app r) = app_candidate_generation_id (sr_app r)
        /\ app_candidate_plan_blocked (sr_app r) = 0
    | _ => False
    end;
  ri_failure : is_Some (app_failure_stage (sr_app r)) ->
    is_Some (app_failure_class (sr_app r)) /\ is_Some (app_failure_at (sr_app r));
  ri_interruption : is_Some (app_interruption_stage (sr_app r)) -> is_Some (app_interruption_at (sr_app r));
  ri_targets : forall n t g, db_targets d !! (id, n) = Some t -> tg_status t = T_active ->
    app_candidate_generation_id (sr_app r) = Some g -> app_accepted_generation_id (sr_app r) <> Some g ->
    tg_candidate_generation_id t = Some g;
}.

Record DbInv (d : GitDb) : Prop := {
  di_rows : forall id r, db_apps d !! id = Some r -> RowInv d id r;
  di_generations : forall g x, db_generations d !! g = Some x -> g <> "";
  di_orphans : forall id n t, db_targets d !! (id, n) = Some t -> is_Some (db_apps d !! id);
}.

(** ** Frames *)

(** Generations and approvals are never rewritten. *)
Definition grows (d d' : GitDb) : Prop :=
  db_generations d ⊆ db_generations d' /\ db_approvals d ⊆ db_approvals d'.

Lemma grows_trans d1 d2 d3 : grows d1 d2 -> grows d2 d3 -> grows d1 d3.
Proof. intros [? ?] [? ?]. split; by etrans. Qed.

(** The targets of an application move no candidate, and none comes back. *)
Definition TargetsKept (id : string) (d d' : GitDb) : Prop :=
  forall n t', db_targets d' !! (id, n) = Some t' -> exists t, db_targets d !! (id, n) = Some t
    /\ tg_candidate_generation_id t' = tg_candidate_generation_id t
    /\ (tg_status t' = T_active -> tg_status t = T_active).

Lemma TargetsKept_eq id d d' :
  (forall n, db_targets d' !! (id, n) = db_targets d !! (id, n)) -> TargetsKept id d d'.
Proof. intros H n t' Ht. rewrite H in Ht. eauto. Qed.

Lemma TargetsKept_trans id d1 d2 d3 : TargetsKept id d1 d2 -> TargetsKept id d2 d3 -> TargetsKept id d1 d3.
Proof.
  intros A B n t' Ht. destruct (B n t' Ht) as (t2 & H2 & -> & S2). destruct (A n t2 H2) as (t1 & H1 & -> & S1). eauto 10.
Qed.

Lemma owned_grows d d' id g P : grows d d' -> owned id g d P -> owned id g d' P.
Proof. intros [Hg _] (x & Hx & Hrest). exists x. split; [by eapply lookup_weaken|done]. Qed.

Lemma accepted_grows d d' id g ref : grows d d' -> accepted_on_record d id g ref -> accepted_on_record d' id g ref.
Proof.
  intros G [Ho (ref' & v & Hr & Hv & Hv2)]. split; [by eapply owned_grows|].
  exists ref', v. split_and!; try done; [eapply lookup_weaken; [done|apply G]|tauto..].
Qed.

Lemma RowInv_frame d d' id r : grows d d' -> TargetsKept id d d' -> RowInv d id r -> RowInv d' id r.
Proof.
  intros Hd Ht [H1 H2 H3 H4 H5 H6 H7]. split; try done.
  - intros g Hc. eapply owned_grows, H2; eauto.
  - intros g Hc. by eapply accepted_grows, H3.
  - intros n t' g Hn Ha Hc Hacc. destruct (Ht _ _ Hn) as (t & Hn' & -> & Ha'). eauto.
Qed.

(** What a transition of one application does to the tables of the others. *)
Record Moved (d d' : GitDb) (id : string) : Prop := {
  mv_apps : forall id', id' <> id -> db_apps d' !! id' = db_apps d !! id';
  mv_exists : is_Some (db_apps d !! id) -> is_Some (db_apps d' !! id);
  mv_targets : forall id' n, id' <> id -> db_targets d' !! (id', n) = db_targets d !! (id', n);
  mv_orphans : forall n, is_Some (db_targets d' !! (id, n)) -> is_Some (db_targets d !! (id, n));
  mv_generations : db_generations d' = db_generations d;
  mv_approvals : db_approvals d ⊆ db_approvals d';
}.

Lemma Moved_refl d id : Moved d d id.
Proof. by split. Qed.

Lemma Moved_trans d1 d2 d3 id : Moved d1 d2 id -> Moved d2 d3 id -> Moved d1 d3 id.
Proof.
  intros [A1 A2 A3 A4 A5 A6] [B1 B2 B3 B4 B5 B6]. split; eauto.
  - intros id' H. by rewrite B1, A1.
  - intros id' n H. by rewrite B3, A3.
  - congruence.
  - by etrans.
Qed.

Lemma Moved_grows d d' id : Moved d d' id -> grows d d'.
Proof. intros [_ _ _ _ E H]. split; [by rewrite E|done]. Qed.

Lemma Moved_app d d' id r : db_apps d' = <[id := r]> (db_apps d) -> db_targets d' = db_targets d ->
  db_generations d' = db_generations d -> db_approvals d' = db_approvals d -> Moved d d' id.
Proof.
  intros E1 E2 E3 E4. split; rewrite ?E1, ?E2, ?E3, ?E4; try done.
  - intros id' H. by rewrite lookup_insert_ne.
  - intros _. rewrite lookup_insert_eq. eauto.
Qed.

(** A transition of [id] keeps the invariant when it keeps it for [id]. *)
Lemma DbInv_moved d d' id : DbInv d -> Moved d d' id ->
  (forall r, db_apps d' !! id = Some r -> RowInv d' id r) -> DbInv d'.
Proof.
  intros [D1 D2 D3] M Hr. split.
  - intros id' r H. destruct (decide (id' = id)) as [->|Hne]; [by apply Hr|].
    apply (RowInv_frame d); [by eapply Moved_grows| |by apply D1; rewrite <- (mv_apps _ _ _ M)].
    apply TargetsKept_eq. intros n. by apply (mv_targets _ _ _ M).
  - rewrite (mv_generations _ _ _ M). done.
  - intros id' n t Ht. destruct (decide (id' = id)) as [->|Hne].
    + apply (mv_exists _ _ _ M). destruct (mv_orphans _ _ _ M n) as [t' Ht']; eauto.
    + rewrite (mv_apps _ _ _ M) by done. rewrite (mv_targets _ _ _ M) in Ht by done. eauto.
Qed.

(** The history is not read by the invariant. *)
Definition but_history (d d' : GitDb) : Prop :=
  db_apps d' = db_apps d /\ db_targets d' = db_targets d /\ db_generations d' = db_generations d
  /\ db_approvals d' = db_approvals d.

Lemma history_frame id n e s o g d k d' : history id n e s o g d = inr (k, d') -> but_history d d'.
Proof. unfold history, insertHistory. destruct (existsb _ _); intros [= <- <-]; done. Qed.

Lemma but_history_Moved d d' id : but_history d d' -> Moved d d' id /\ TargetsKept id d d'.
Proof.
  intros (E1 & E2 & E3 & E4). split; [|by apply TargetsKept_eq; rewrite E2].
  split; by rewrite ?E1, ?E2, ?E3, ?E4.
Qed.

Lemma RowInv_history d d' id r : but_history d d' -> RowInv d id r -> RowInv d' id r.
Proof.
  intros H. destruct (but_history_Moved d d' id H) as [M T].
  apply RowInv_frame; [by eapply Moved_grows|done].
Qed.

(** ** The setters *)

(** Columns the invariant does not read. *)
Definition same_columns (r r' : SourceRow) : Prop :=
  (app_id (sr_app r'), app_target_mode (sr_app r'), app_materialization_fingerprint (sr_app r'),
   app_candidate_generation_id (sr_app r'), app_candidate_plan_blocked (sr_app r'))
  = (app_id (sr_app r), app_target_mode (sr_app r), app_materialization_fingerprint (sr_app r),
     app_candidate_generation_id (sr_app r), app_candidate_plan_blocked (sr_app r))
  /\ (app_accepted_generation_id (sr_app r'), sr_source_acceptance_ref r')
     = (app_accepted_generation_id (sr_app r), sr_source_acceptance_ref r).

Definition same_operation (r r' : SourceRow) : Prop :=
  (app_active_operation_id (sr_app r'), app_active_operation_stage (sr_app r'), app_active_generation_id (sr_app r'))
  = (app_active_operation_id (sr_app r), app_active_operation_stage (sr_app r), app_active_generation_id (sr_app r)).

Definition same_marks (r r' : SourceRow) : Prop :=
  (app_failure_stage (sr_app r'), app_failure_class (sr_app r'), app_failure_at (sr_app r'),
   app_interruption_stage (sr_app r'), app_interruption_at (sr_app r'))
  = (app_failure_stage (sr_app r), app_failure_class (sr_app r), app_failure_at (sr_app r),
     app_interruption_stage (sr_app r), app_interruption_at (sr_app r)).

Lemma RowInv_same d id r r' :
  same_columns r r' -> same_operation r r' -> same_marks r r' -> RowInv d id r -> RowInv d id r'.
Proof.
  unfold same_columns, same_operation, same_marks.
  intros [[= E1 E2 E3 E4 E5] [= E6 E7]] [= E8 E9 E10] [= E11 E12 E13 E14 E15] [].
  split; by rewrite ?E1, ?E2, ?E3, ?E4, ?E5, ?E6, ?E7, ?E8, ?E9, ?E10, ?E11, ?E12, ?E13, ?E14, ?E15.
Qed.

(** A row whose operation is over, and whose marks are dated. *)
Lemma RowInv_settled d id r r' : same_columns r r' -> app_active_operation_stage (sr_app r') = None ->
  (is_Some (app_failure_stage (sr_app r')) ->
     is_Some (app_failure_class (sr_app r')) /\ is_Some (app_failure_at (sr_app r'))) ->
  (is_Some (app_interruption_stage (sr_app r')) -> is_Some (app_interruption_at (sr_app r'))) ->
  RowInv d id r -> RowInv d id r'.
Proof.
  unfold same_columns. intros [[= E1 E2 E3 E4 E5] [= E6 E7]] Ha Hf Hi [].
  split; rewrite ?E1, ?E2, ?E3, ?E4, ?E5, ?E6, ?E7, ?Ha; done.
Qed.

Section setters.
Context (d : GitDb) (id : string).

Lemma RowInv_clearActive r : RowInv d id r -> RowInv d id (clearActive r).
Proof. intros H. apply (RowInv_settled _ _ r); try done; apply H. Qed.

Lemma RowInv_clearInterruption s r : RowInv d id r -> RowInv d id (clearInterruption s r).
Proof. unfold clearInterruption. destruct (interrupted s r); [|done]. intros []. split; try done; by intros []. Qed.

Lemma RowInv_clearAppFailure l r : RowInv d id r -> RowInv d id (clearAppFailure l r).
Proof.
  unfold clearAppFailure. destruct (app_failure_stage (sr_app r)); [|done]. case_bool_decide; [|done].
  intros []. split; try done; by intros [].
Qed.

Lemma RowInv_fail_app s c t r : RowInv d id r -> RowInv d id (fail_app s c t r).
Proof. intros []. split; eauto. Qed.

Lemma RowInv_interruption s t o g r :
  RowInv d id r -> RowInv d id (upd_app (set_interruption s (Some t) o g) r).
Proof. intros []. split; eauto. Qed.

(** Drop the candidate, whatever becomes of the targets. *)
Lemma RowInv_drop d' r : grows d d' -> app_active_operation_stage (sr_app r) <> Some apply_started ->
  RowInv d id r -> RowInv d' id (drop_candidate r).
Proof.
  intros G Hs [I1 I2 I3 I4 I5 I6 I7]. split; try done; simpl.
  - intros g Hc. by eapply accepted_grows, I3.
  - destruct (app_active_operation_stage (sr_app r)) as [[]|]; done.
Qed.

(** Without a candidate, targets and configuration may move. *)
Lemma RowInv_no_candidate d' r : grows d d' -> app_candidate_generation_id (sr_app r) = None ->
  RowInv d id r -> RowInv d' id r.
Proof.
  intros G Hc [I1 I2 I3 I4 I5 I6 I7]. split; try done; rewrite ?Hc; try done.
  intros g Hg. by eapply accepted_grows, I3.
Qed.

Lemma RowInv_source url identity ref fingerprint r : app_candidate_generation_id (sr_app r) = None ->
  RowInv d id r -> RowInv d id (upd_app (set_source url identity ref fingerprint) r).
Proof. intros Hc []. split; try done; simpl; by rewrite ?Hc. Qed.

(** Stage a generation, on every live target, that is not another than the one a
    live apply runs on. *)
Lemma RowInv_stage d' g blocked review reason r x : grows d d' -> RowInv d id r ->
  db_generations d' !! g = Some x -> gen_application_id (gn_row x) = id ->
  (blocked = 1 /\ gn_plan_blocked x = 1)
    \/ (blocked = 0 /\ gn_validation_ok x = 1 /\ gn_plan_blocked x = 0
        /\ Some (gen_materialization_fingerprint (gn_row x)) = app_materialization_fingerprint (sr_app r)) ->
  (app_active_operation_stage (sr_app r) = Some apply_started -> app_candidate_generation_id (sr_app r) = Some g) ->
  (forall n t, db_targets d' !! (id, n) = Some t -> tg_status t = T_active -> tg_candidate_generation_id t = Some g) ->
  RowInv d' id (upd_app (set_candidate (Some g) blocked review reason) r).
Proof.
  intros G [I1 I2 I3 I4 I5 I6 I7] Hx Hid Hb Hs Ht. split; try done; simpl.
  - intros g' [= <-]. exists x. auto.
  - intros g' Hc. by eapply accepted_grows, I3.
  - destruct (app_active_operation_stage (sr_app r)) as [[]|] eqn:E; try done.
    destruct I4 as (Ho & Hc & Ha & Hp). specialize (Hs eq_refl). split_and!; eauto; [congruence|].
    destruct Hb as [[-> Hb]|[-> _]]; [|done].
    destruct (I2 _ Hs) as (y & Hy & _ & [[? _]|(_ & _ & ? & _)]); [congruence|].
    assert (db_generations d' !! g = Some y) by (eapply lookup_weaken; [done|apply G]). congruence.
  - intros n t g' Hn Ha [= <-] _. eauto.
Qed.
End setters.

Ltac same_row := apply RowInv_same; done.

Section plain_setters.
Context (d : GitDb) (id : string) (r : SourceRow).

Lemma RowInv_stamp o t : RowInv d id r -> RowInv d id (stamp o t r).
Proof. same_row. Qed.
Lemma RowInv_touch t : RowInv d id r -> RowInv d id (touch_row t r).
Proof. same_row. Qed.
Lemma RowInv_next_poll t : RowInv d id r -> RowInv d id (set_next_poll t r).
Proof. same_row. Qed.
Lemma RowInv_retry t : RowInv d id r -> RowInv d id (set_retry t r).
Proof. same_row. Qed.
Lemma RowInv_retry_count n : RowInv d id r -> RowInv d id (set_retry_count n r).
Proof. same_row. Qed.
Lemma RowInv_ref_kind k : RowInv d id r -> RowInv d id (set_ref_kind k r).
Proof. same_row. Qed.
Lemma RowInv_commits sha : RowInv d id r -> RowInv d id (upd_app (set_commits sha) r).
Proof. same_row. Qed.
Lemma RowInv_review n reason : RowInv d id r -> RowInv d id (set_review n reason r).
Proof. same_row. Qed.
Lemma RowInv_lifecycle s : RowInv d id r -> RowInv d id (upd_app (set_lifecycle s) r).
Proof. same_row. Qed.
Lemma RowInv_suspension t reason : RowInv d id r -> RowInv d id (upd_app (set_suspension t reason) r).
Proof. same_row. Qed.
Lemma RowInv_recovery x p : RowInv d id r -> RowInv d id (upd_app (set_recovery x p) r).
Proof. same_row. Qed.
Lemma RowInv_source_policy p : RowInv d id r -> RowInv d id (set_source_policy p r).
Proof. same_row. Qed.
Lemma RowInv_lift_pause : RowInv d id r -> RowInv d id (lift_pause r).
Proof. same_row. Qed.
Lemma RowInv_attempt_seq n : RowInv d id r -> RowInv d id (set_attempt_seq n r).
Proof. same_row. Qed.
Lemma RowInv_active_at t : RowInv d id r -> RowInv d id (set_active_at t r).
Proof. same_row. Qed.
Lemma RowInv_material m : RowInv d id r -> RowInv d id (set_material m r).
Proof. same_row. Qed.
End plain_setters.

Create HintDb rows discriminated.
#[export] Hint Resolve RowInv_clearActive RowInv_clearInterruption RowInv_clearAppFailure RowInv_fail_app
  RowInv_interruption RowInv_stamp RowInv_touch RowInv_next_poll RowInv_retry RowInv_retry_count RowInv_ref_kind
  RowInv_commits RowInv_review RowInv_lifecycle RowInv_suspension RowInv_recovery RowInv_source_policy
  RowInv_lift_pause RowInv_attempt_seq RowInv_active_at RowInv_material : rows.

(** ** The rules *)

Definition keeps {A} (m : Tx A) : Prop := forall d a d', DbInv d -> m d = inr (a, d') -> DbInv d'.

Lemma requireApp_inr id d r d' : requireApp id d = inr (r, d') <-> d' = d /\ db_apps d !! id = Some r.
Proof.
  unfold requireApp, mbind, Tx_bind, read, mret, Tx_ret, throw. destruct (db_apps d !! id); naive_solver.
Qed.

Lemma requireOwnedGeneration_inr id g d x d' : requireOwnedGeneration id g d = inr (x, d') ->
  d' = d /\ db_generations d !! g = Some x /\ gen_application_id (gn_row x) = id.
Proof.
  unfold requireOwnedGeneration. intros H. tx_inv.
  destruct (db_generations d !! g); [|done]. case_bool_decide; [|done]. tx_inv. done.
Qed.

(** What a transition returned, and the tables it left. *)
Lemma mutateApp_inr id e s o g mutate d k d' : mutateApp id e s o g mutate d = inr (k, d') ->
  exists r r' n d1, db_apps d !! id = Some r /\ mutate r d = inr ((r', n), d1)
    /\ but_history (upd_apps (<[id := stamp (ev_operationId e) (ev_at e) r']>) d1) d'.
Proof.
  unfold mutateApp. intros H. apply bind_inr in H as (r & d0 & [-> Hr]%requireApp_inr & H).
  apply bind_inr in H as ([r' n] & d1 & Hm & H). unfold writeApplication in H. tx_inv.
  exists r, r', n, d1. split_and!; [done..|]. by eapply history_frame.
Qed.

Lemma RowInv_upd_apps d id f r : RowInv d id r -> RowInv (upd_apps f d) id r.
Proof. apply RowInv_frame; [done|by apply TargetsKept_eq]. Qed.

(** The rule of [mutateApp]: a mutator that keeps the invariant of its own row, and
    stays within its application. *)
Lemma mutateApp_keeps id e s o g mutate :
  (forall r d r' n d1, DbInv d -> db_apps d !! id = Some r -> RowInv d id r ->
     mutate r d = inr ((r', n), d1) -> Moved d d1 id /\ RowInv d1 id r') ->
  keeps (mutateApp id e s o g mutate).
Proof.
  intros Hm d k d' D H. apply mutateApp_inr in H as (r & r' & n & d1 & Hr & Hmut & Hh).
  destruct (Hm r d r' n d1) as [M R]; auto; [by apply D|].
  pose proof (but_history_Moved _ _ id Hh) as [Mh _]. destruct Hh as (E1 & E2 & E3 & E4).
  assert (Moved d d' id) as M'.
  { eapply Moved_trans; [exact M|]. apply (Moved_app d1 d' id (stamp (ev_operationId e) (ev_at e) r')); done. }
  apply (DbInv_moved d d' id D M'). intros r2. rewrite E1. simpl. rewrite lookup_insert_eq. intros [= <-].
  apply RowInv_stamp. eapply RowInv_frame, R.
  - split; by rewrite ?E3, ?E4.
  - apply TargetsKept_eq. intros n'. by rewrite E2.
Qed.
