(* ===== verification/SourceSteps.v ===== *)
(** * Source transitions: every transition keeps the invariant

    Each transition of SourceTx.v keeps [DbInv], so do the steps that interleave
    with them, and so every reachable database satisfies it. *)

From S2P Require Import Prelude Reconcile SourceRows SourceTx SourceInv.

Lemma requireMatchingFetch_inr r e d x d' : requireMatchingFetch r e d = inr (x, d') -> d' = d.
Proof. unfold requireMatchingFetch. intros H. by tx_inv. Qed.

(** Guards that did not throw, as propositions. *)
Ltac guards :=
  repeat match goal with
  | H : false = _ |- _ => symmetry in H
  | H : negb _ = false |- _ => apply negb_false_iff in H
  | H : (_ || _) = false |- _ => apply orb_false_iff in H as [? ?]
  | H : bool_decide _ = true |- _ => apply bool_decide_eq_true in H
  | H : bool_decide _ = false |- _ => apply bool_decide_eq_false in H
  | H : (_ =? _) = true |- _ => apply Z.eqb_eq in H
  | H : (_ =? _) = false |- _ => apply Z.eqb_neq in H
  | H : requireOwnedGeneration _ _ _ = inr _ |- _ =>
      apply requireOwnedGeneration_inr in H as (-> & ? & ?)
  | H : requireApp _ _ = inr _ |- _ => apply requireApp_inr in H as [-> ?]
  | H : requireMatchingFetch _ _ _ = inr _ |- _ => apply requireMatchingFetch_inr in H as ->
  end.
Ltac tx_run := unfold done_, busy, suspended in *; repeat (progress (tx_inv; guards)).

(** A transition whose mutator writes no table. *)
Ltac row_op :=
  apply mutateApp_keeps; intros r d r' k d1 D Hr R H; tx_run; split; [apply Moved_refl|auto 20 with rows].

Lemma fetchStarted_keeps id e : keeps (fetchStarted id e).
Proof.
  apply mutateApp_keeps. intros r d r' k d1 D Hr R H. tx_run. split; [apply Moved_refl|].
  apply RowInv_clearInterruption, RowInv_next_poll, RowInv_retry, RowInv_active_at.
  destruct R. split; try done. simpl. eauto.
Qed.

Lemma fetched_keeps id sha kind e : keeps (fetched id sha kind e).
Proof. row_op. Qed.
Lemma fetchFailed_keeps id code e : keeps (fetchFailed id code e).
Proof. row_op. Qed.
Lemma fetchedInvalid_keeps id sha kind e : keeps (fetchedInvalid id sha kind e).
Proof. row_op. Qed.
Lemma sourceReviewBlocked_keeps id g reason e : keeps (sourceReviewBlocked id g reason e).
Proof. row_op. Qed.
Lemma applyFailed_keeps id class e : keeps (applyFailed id class e).
Proof. row_op. Qed.
Lemma sourceRetryScheduled_keeps id t n e : keeps (sourceRetryScheduled id t n e).
Proof. row_op. Qed.
Lemma sourcePollScheduled_keeps id t e : keeps (sourcePollScheduled id t e).
Proof. row_op. Qed.
Lemma sourceUnsuspended_keeps id e : keeps (sourceUnsuspended id e).
Proof. row_op. Qed.

Lemma sourcePolicyChanged_keeps id p e : keeps (sourcePolicyChanged id p e).
Proof.
  apply mutateApp_keeps. intros r d r' k d1 D Hr R H. tx_run. split; [apply Moved_refl|].
  repeat case_bool_decide; auto 20 with rows.
Qed.

Lemma applyStarted_keeps id g e : keeps (applyStarted id g e).
Proof.
  apply mutateApp_keeps. intros r d r' k d1 D Hr R H. tx_run. split; [apply Moved_refl|].
  apply RowInv_clearInterruption, RowInv_active_at. destruct R as [R1 R2 R3 R4 R5 R6 R7]. split; try done.
  simpl. split_and!; eauto. destruct (R2 g) as (x' & _ & _ & [[? _]|[? _]]); done.
Qed.

Lemma applicationTombstoned_keeps id status e : keeps (applicationTombstoned id status e).
Proof.
  apply mutateApp_keeps. intros r d r' k d1 D Hr R H. tx_run. split; [apply Moved_refl|].
  apply (RowInv_settled _ _ r); try done; simpl; [by intros []|apply R].
Qed.

(** ** Transitions that move targets *)

Lemma updateTargets_inr id p f d x d' : updateTargets id p f d = inr (x, d') ->
  exists targets, d' = upd_targets (fun _ => targets) d
    /\ forall k, targets !! k = (fun t => if bool_decide (k.1 = id) && p t then f t else t) <$> db_targets d !! k.
Proof.
  unfold updateTargets. intros H. tx_inv. eexists. split; [done|]. intros k.
  rewrite map_lookup_imap. by destruct (db_targets d !! k).
Qed.

(** The other applications keep their targets, this one gets none. *)
Lemma updateTargets_Moved id p f d x d' : updateTargets id p f d = inr (x, d') -> Moved d d' id.
Proof.
  intros (targets & -> & Ht)%updateTargets_inr. split; try done; simpl.
  - intros id' n Hne. rewrite Ht. simpl. rewrite bool_decide_eq_false_2 by done. by destruct (db_targets d !! _).
  - intros n. rewrite Ht. intros H. by apply fmap_is_Some in H.
Qed.

Lemma setTargetCandidates_active id g d x d' n t : setTargetCandidates id g d = inr (x, d') ->
  db_targets d' !! (id, n) = Some t -> tg_status t = T_active -> tg_candidate_generation_id t = g.
Proof.
  intros (targets & -> & Ht)%updateTargets_inr. simpl. rewrite Ht. simpl. rewrite bool_decide_eq_true_2 by done.
  intros (t0 & _ & ->)%fmap_Some_1. unfold isActiveTarget. case_bool_decide; done.
Qed.

Lemma supersedeCandidate_frame id r g e d n d' : supersedeCandidate id r g e d = inr (n, d') -> but_history d d'.
Proof.
  unfold supersedeCandidate. intros H.
  destruct (candidate r); [case_bool_decide|]; tx_inv; try done. by eapply history_frame.
Qed.

(** Both ways of staging a generation. *)
Lemma staging_keeps d d1 d2 id r g blocked review reason e x n u : RowInv d id r ->
  db_generations d !! g = Some x -> gen_application_id (gn_row x) = id -> applyingOther g r = false ->
  (blocked = 1 /\ gn_plan_blocked x = 1)
    \/ (blocked = 0 /\ gn_validation_ok x = 1 /\ gn_plan_blocked x = 0
        /\ Some (gen_materialization_fingerprint (gn_row x)) = app_materialization_fingerprint (sr_app r)) ->
  supersedeCandidate id r g e d = inr (n, d1) -> setTargetCandidates id (Some g) d1 = inr (u, d2) ->
  Moved d d2 id /\ RowInv d2 id (upd_app (set_candidate (Some g) blocked review reason) r).
Proof.
  intros R Hx Hid Ha Hb Hs Ht.
  assert (Moved d d2 id) as M.
  { eapply Moved_trans; [apply but_history_Moved; by eapply supersedeCandidate_frame|by eapply updateTargets_Moved]. }
  split; [done|]. eapply RowInv_stage; [by eapply Moved_grows|done|by rewrite (mv_generations _ _ _ M)|done..| |].
  - intros Hst. unfold applyingOther, stage in Ha. rewrite bool_decide_eq_true_2 in Ha by done. simpl in Ha. by guards.
  - intros k t. by apply setTargetCandidates_active with (1 := Ht).
Qed.

Lemma sourceConflictBlocker_keeps id g e : keeps (sourceConflictBlocker id g e).
Proof.
  apply mutateApp_keeps. intros r d r' k d1 D Hr R H. tx_run. eapply staging_keeps; eauto.
Qed.

Lemma candidateReady_keeps id g review e : keeps (candidateReady id g review e).
Proof.
  apply mutateApp_keeps. intros r d r' k d1 D Hr R H. tx_run.
  match goal with |- Moved _ ?d2 _ /\ _ =>
    assert (Moved d d2 id /\ RowInv d2 id (stage_candidate g 0 (if review then 1 else 0) r)) as [M R']
      by (eapply staging_keeps; [done..|right; done|done|done])
  end.
  split; [done|]. by apply RowInv_clearAppFailure.
Qed.

Lemma dismissed_keeps id e : keeps (dismissed id e).
Proof.
  apply mutateApp_keeps. intros r d r' k d1 D Hr R H. tx_run.
  match goal with H : setTargetCandidates _ _ _ = _ |- _ => apply updateTargets_Moved in H as M end.
  split; [done|]. eapply RowInv_drop; [by eapply Moved_grows| |done].
  intros E. unfold stage in *. rewrite E in *. eauto.
Qed.

Lemma configChangedPendingCleared_keeps id c e : keeps (configChangedPendingCleared id c e).
Proof.
  apply mutateApp_keeps. intros r d r' k d1 D Hr R H. tx_run.
  match goal with H : setTargetCandidates _ _ _ = _ |- Moved _ ?d2 _ /\ _ =>
    apply updateTargets_Moved in H as M;
    assert (RowInv d2 id (drop_candidate r)) as Rd
  end.
  { eapply RowInv_drop; [by eapply Moved_grows| |done].
    intros E. unfold stage in *. rewrite E in *. eauto. }
  split; [done|]. apply RowInv_clearAppFailure.
  apply (RowInv_ref_kind _ _ (upd_app (set_commits None) (set_material (ns_material c)
    (upd_app (set_source (Some (ns_repoUrl c)) (Some (ns_repoIdentityJson c)) (Some (ns_configuredRef c))
       (Some (ns_fingerprint c))) (drop_candidate r))))).
  apply RowInv_commits, RowInv_material. by apply RowInv_source.
Qed.

(** ** Acceptance *)

Lemma requireAcceptableCandidate_inr id r a d u d1 : requireAcceptableCandidate id r a d = inr (u, d1) ->
  d1 = d /\ app_candidate_generation_id (sr_app r) = Some (ar_generationId a)
  /\ app_candidate_plan_blocked (sr_app r) <> 1
  /\ (ar_authority a = by_policy -> sr_source_policy r = sp_automatic)
  /\ app_accepted_generation_id (sr_app r) <> Some (ar_generationId a)
  /\ (app_active_operation_stage (sr_app r) = Some apply_started ->
        app_active_generation_id (sr_app r) = Some (ar_generationId a)
        /\ (truthy (app_active_operation_id (sr_app r)) = None
            \/ truthy (app_active_operation_id (sr_app r)) = Some (ev_operationId (ar_envelope a)))).
Proof.
  unfold requireAcceptableCandidate. intros H. tx_run. split_and!; try done.
  - intros E. rewrite E, bool_decide_eq_true_2 in * by done. simpl in *. by guards.
  - intros E. unfold stage in *. rewrite !(bool_decide_eq_true_2 _ E) in *. simpl in *. guards.
    split; [done|]. unfold unclaimed in *. destruct (truthy _); [right; guards; congruence|by left].
Qed.

Lemma invalidate_inr id r e d r' n d' : invalidateAuthorizationOnSourceChange id r e d = inr ((r', n), d') ->
  but_history d d' /\ (r' = r \/ r' = lift_pause r).
Proof.
  unfold invalidateAuthorizationOnSourceChange, done_. case_match; intros H1; tx_inv; [|split; [done|by left]].
  split; [by eapply history_frame|by right].
Qed.

Lemma insertAcceptanceRecords_inr id a d u d' : insertAcceptanceRecords id a d = inr (u, d') ->
  db_apps d' = db_apps d /\ db_targets d' = db_targets d /\ db_generations d' = db_generations d
  /\ db_approvals d !! ar_sourceAcceptanceId a = None
  /\ db_approvals d' = <[ar_sourceAcceptanceId a :=
       mkApproval (ar_authority a) id (ar_generationId a) (ar_confirmation a ≫= sc_placementApprovalRef)
         (ev_actor (ar_envelope a))]> (db_approvals d).
Proof.
  unfold insertAcceptanceRecords. intros H. tx_run. split_and!; try done.
  by apply eq_None_not_Some.
Qed.

Lemma applySourceAcceptance_keeps id r a d r' d' : RowInv d id r ->
  app_candidate_generation_id (sr_app r) = Some (ar_generationId a) -> app_candidate_plan_blocked (sr_app r) <> 1 ->
  applySourceAcceptanceMutation id r a d = inr (r', d') ->
  Moved d d' id /\ RowInv d' id r' /\ app_candidate_generation_id (sr_app r') = None.
Proof.
  intros [R1 R2 R3 R4 R5 R6 R7] Hc Hb H. unfold applySourceAcceptanceMutation in H.
  apply bind_inr in H as (u & d1 & (E1 & E2 & E3 & E4 & E5)%insertAcceptanceRecords_inr & [= -> <-]%ret_inr).
  assert (Moved d d' id) as M.
  { split; rewrite ?E1, ?E2, ?E5; try done. by apply insert_subseteq. }
  split; [done|].
  assert (accepted_on_record d' id (ar_generationId a) (Some (ar_sourceAcceptanceId a))) as Hacc.
  { split.
    - eapply owned_grows; [by eapply Moved_grows|]. eapply owned_impl, R2; [|done].
      intros x [[? _]|(_ & ? & ? & _)]; done.
    - eexists _, _. split_and!; [done|rewrite E5; apply lookup_insert_eq|done..]. }
  split.
  - apply RowInv_clearInterruption, RowInv_clearAppFailure.
    clear R4. case_match; (split; simpl; try done; by intros g [= <-]).
  - unfold clearInterruption, clearAppFailure. repeat case_match; done.
Qed.

(** The hold lifted, then the acceptance recorded. *)
Lemma invalidate_apply_keeps id r a d r1 n d1 r' d' : RowInv d id r ->
  app_candidate_generation_id (sr_app r) = Some (ar_generationId a) -> app_candidate_plan_blocked (sr_app r) <> 1 ->
  invalidateAuthorizationOnSourceChange id r (ar_envelope a) d = inr ((r1, n), d1) ->
  applySourceAcceptanceMutation id r1 a d1 = inr (r', d') ->
  Moved d d' id /\ RowInv d' id r' /\ app_candidate_generation_id (sr_app r') = None.
Proof.
  intros R Hc Hb [F Hr1]%invalidate_inr Ha.
  assert (RowInv d1 id r1) as R1.
  { apply (RowInv_history d); [done|]. destruct Hr1 as [->| ->]; auto with rows. }
  destruct (applySourceAcceptance_keeps id r1 a d1 r' d' R1) as (M & R' & C);
    [by destruct Hr1 as [->| ->]..|done|].
  split; [|done]. eapply Moved_trans, M. by apply but_history_Moved.
Qed.

Lemma applied_keeps id a : keeps (applied id a).
Proof.
  apply mutateApp_keeps. intros r d r' k d1 D Hr R H.
  apply bind_inr in H as (u & d2 & Ha & H).
  assert (d2 = d) as -> by (unfold acceptanceTargets in Ha; tx_inv;
    match goal with H : requireAcceptableCandidate _ _ _ _ = _ |- _ =>
      by apply requireAcceptableCandidate_inr in H as [-> _] end).
  apply bind_inr in Ha as (u' & d2 & (-> & Hc & Hb & _)%requireAcceptableCandidate_inr & _).
  apply bind_inr in H as ([r1 n1] & d2 & Hi & H). apply bind_inr in H as (r2 & d3 & Hm & H).
  apply bind_inr in H as (u2 & d4 & Ht & [= -> -> <-]%ret_inr).
  destruct (invalidate_apply_keeps id r a d r1 n1 d2 r2 d3) as (M & R' & C); try done.
  apply updateTargets_Moved in Ht. split; [by eapply Moved_trans|].
  eapply RowInv_no_candidate, R'; [by eapply Moved_grows|done].
Qed.

Lemma sourceAccepted_keeps id a : keeps (sourceAccepted id a).
Proof.
  apply mutateApp_keeps. intros r d r' k d1 D Hr R H.
  apply bind_inr in H as (u & d2 & [_ [= -> ->]]%throw_if_inr & H).
  apply bind_inr in H as (u' & d2 & (-> & Hc & Hb & _)%requireAcceptableCandidate_inr & H).
  destruct (_ ≫= _); [done|].
  apply bind_inr in H as ([r1 n1] & d2 & Hi & H). apply bind_inr in H as (r2 & d3 & Hm & [= -> -> <-]%ret_inr).
  destruct (invalidate_apply_keeps id r a d r1 n1 d2 r2 d1) as (M & R' & C); done.
Qed.

(** One target of an application is rewritten; [Ht] says what the invariant needs. *)
Lemma target_write_keeps d d' id n t t' : DbInv d -> db_targets d !! (id, n) = Some t ->
  db_apps d' = db_apps d -> db_targets d' = <[(id, n) := t']> (db_targets d) ->
  db_generations d' = db_generations d -> db_approvals d' = db_approvals d ->
  (tg_status t' = T_active -> tg_status t = T_active) ->
  (forall r, db_apps d !! id = Some r -> tg_status t' = T_active ->
     app_accepted_generation_id (sr_app r) = tg_candidate_generation_id t
     \/ tg_candidate_generation_id t' = tg_candidate_generation_id t) ->
  Moved d d' id /\ DbInv d'.
Proof.
  intros D Hn E1 E2 E3 E4 Hs Ht. assert (Moved d d' id) as M.
  { split; rewrite ?E1, ?E2, ?E3, ?E4; try done.
    - intros id' m Hne. apply lookup_insert_ne. congruence.
    - intros m. rewrite lookup_insert. case_decide; [simplify_eq; by rewrite Hn|done]. }
  split; [done|]. apply (DbInv_moved d d' id D M). intros r. rewrite E1. intros Hr.
  destruct (di_rows d D id r Hr) as [I1 I2 I3 I4 I5 I6 I7]. pose proof (Moved_grows _ _ _ M) as G.
  split; try done.
  - intros g Hg. by eapply owned_grows, I2.
  - intros g Hg. by eapply accepted_grows, I3.
  - intros m s g. rewrite E2, lookup_insert. case_decide as Em; [|by eauto]. intros [= <-] Ha Hc Hacc. simplify_eq.
    specialize (I7 m t g Hn (Hs Ha) Hc Hacc). destruct (Ht r Hr Ha) as [E|E]; congruence.
Qed.

Lemma targetApplied_keeps id n a : keeps (targetApplied id n a).
Proof.
  intros d k d' D H. unfold targetApplied, mutateTarget in H. tx_run.
  match goal with H : (match ?o with _ => _ end) _ = inr _ |- _ => destruct o as [t|] eqn:Ht; [|done] end.
  tx_run. simplify_eq. apply history_frame in H as (E1 & E2 & E3 & E4).
  destruct (target_write_keeps d d' id n t
    (set_tg_stage "target_applied" (ev_at (ar_envelope a)) (applyTargetAcceptanceMutation a t))) as [_ ?]; try done.
  intros r Hr _. left. simplify_eq. congruence.
Qed.

(** ** Interruption *)

(** The same target, as far as candidates go. *)
Definition alike (t t' : TargetRow) : Prop :=
  tg_candidate_generation_id t' = tg_candidate_generation_id t /\ tg_status t' = tg_status t.

Lemma interruptTarget_alike e t : alike t (interruptTarget e t).
Proof. unfold interruptTarget. split; simpl; by repeat case_match. Qed.

Definition listed (id : string) (d : GitDb) (kt : (string * Z) * TargetRow) : Prop :=
  kt.1.1 = id /\ exists t, db_targets d !! kt.1 = Some t /\ alike t kt.2.

Lemma targetsOf_listed id d : Forall (listed id d) (targetsOf id d).
Proof.
  apply Forall_forall. intros [k t] [Hk Ht]%list_elem_of_In%filter_In. apply list_elem_of_In in Hk.
  apply elem_of_map_to_list in Hk. apply bool_decide_eq_true in Ht. split; [done|]. exists t. done.
Qed.

Lemma interruptTargets_frame id e ts : forall d n d', Forall (listed id d) ts ->
  interruptTargets id e ts d = inr (n, d') ->
  Moved d d' id /\ TargetsKept id d d' /\ db_apps d' = db_apps d.
Proof.
  induction ts as [|[k t] ts IH]; intros d n d' Hl H; simpl in H.
  { tx_inv. split_and!; [apply Moved_refl|by apply TargetsKept_eq|done]. }
  apply Forall_cons in Hl as [[Hk (t0 & Ht & Hal)] Hl]. simpl in Hk, Ht, Hal.
  destruct (targetBusy t); [|by eapply IH].
  apply bind_inr in H as (u & d1 & [= -> ->]%write_inr & H).
  apply bind_inr in H as (n1 & d2 & F%history_frame & H). apply bind_inr in H as (n2 & d3 & H & [= -> <-]%ret_inr).
  set (d1 := upd_targets <[k := interruptTarget e t]> d) in *.
  assert (alike t0 (interruptTarget e t)) as Hal'.
  { destruct (interruptTarget_alike e t), Hal. split; congruence. }
  assert (Moved d d1 id) as M1.
  { split; try done; simpl.
    - intros id' m Hne. apply lookup_insert_ne. destruct k; simpl in *; congruence.
    - intros m. rewrite lookup_insert. case_decide; [|done]. subst k. by rewrite Ht. }
  assert (TargetsKept id d d1) as K1.
  { intros m t'. simpl. rewrite lookup_insert. case_decide; [|by eauto]. intros [= <-]. subst k.
    exists t0. destruct Hal' as [-> ->]. eauto. }
  destruct (but_history_Moved d1 d2 id F) as [M2 K2]. pose proof F as (E1 & E2 & _).
  apply IH in H as (M3 & K3 & E3).
  - split_and!; [by do 2 (eapply Moved_trans; [done|])| |by rewrite E3, E1].
    by do 2 (eapply TargetsKept_trans; [done|]).
  - eapply Forall_impl; [exact Hl|]. intros [k' s] (Hk' & s0 & Hs0 & Hals). split; [done|]. simpl in *.
    rewrite E2. simpl. rewrite lookup_insert. case_decide as Ek; [subst k'|by eauto].
    eexists. split; [done|]. assert (s0 = t0) as -> by congruence. destruct Hals, Hal'. split; congruence.
Qed.

Lemma interruptApp_keeps d id e r r' : RowInv d id r -> interruptApp e r = Some r' -> RowInv d id r'.
Proof.
  intros R. unfold interruptApp. case_match; [|done]. intros [= <-].
  apply RowInv_touch, RowInv_clearActive.
  set (r0 := if recoveryInFlight _ then _ else _).
  assert (RowInv d id r0) as R0.
  { subst r0. destruct (recoveryInFlight _); [|done].
    apply RowInv_fail_app. exact (RowInv_recovery _ _ r (app_recovery_ref (sr_app r)) _ R). }
  exact (RowInv_interruption d id (app_active_operation_stage (sr_app r0)) _ _ _ _ R0).
Qed.

Lemma interruptActiveOperations_inr id e d n d' : DbInv d -> interruptActiveOperations id e d = inr (n, d') ->
  exists r, db_apps d !! id = Some r /\ Moved d d' id /\ TargetsKept id d d'
    /\ db_apps d' !! id = Some (default r (interruptApp e r)) /\ RowInv d' id (default r (interruptApp e r)).
Proof.
  intros D H. unfold interruptActiveOperations in H.
  apply bind_inr in H as (r & d1 & [-> Hr]%requireApp_inr & H).
  apply bind_inr in H as (n1 & d1 & Ha & H). apply bind_inr in H as (ts & d2 & [= -> ->]%read_inr & H).
  apply bind_inr in H as (n2 & d2 & Ht & [= -> <-]%ret_inr).
  apply interruptTargets_frame in Ht as (M2 & K2 & E2); [|apply targetsOf_listed].
  assert (Moved d d1 id /\ TargetsKept id d d1 /\ db_apps d1 !! id = Some (default r (interruptApp e r)))
    as (M1 & K1 & E1).
  { destruct (interruptApp e r) as [r'|] eqn:Hi; simpl; [|tx_inv; split_and!; [apply Moved_refl|by apply TargetsKept_eq|done]].
    apply bind_inr in Ha as (u & d0 & [= -> ->]%write_inr & (E1 & E2' & E3 & E4)%history_frame).
    split_and!; [by apply (Moved_app _ _ _ r')|by apply TargetsKept_eq; intros; rewrite E2'|].
    rewrite E1. apply lookup_insert_eq. }
  assert (RowInv d id (default r (interruptApp e r))) as R.
  { destruct (interruptApp e r) eqn:Hi; simpl; [|by apply D]. eapply interruptApp_keeps, Hi. by apply D. }
  assert (TargetsKept id d d') as K by (by eapply TargetsKept_trans).
  assert (Moved d d' id) as M by (by eapply Moved_trans).
  exists r. split_and!; [done..|by rewrite E2|]. eapply RowInv_frame, R; [by eapply Moved_grows|done].
Qed.

Lemma interruptActiveOperations_keeps id e : keeps (interruptActiveOperations id e).
Proof.
  intros d n d' D H. destruct (interruptActiveOperations_inr id e d n d' D H) as (r & Hr & M & K & E & R).
  apply (DbInv_moved d d' id D M). intros r' Hr'. rewrite E in Hr'. by injection Hr' as <-.
Qed.

Lemma sourceSuspended_keeps id reason e : keeps (sourceSuspended id reason e).
Proof.
  apply mutateApp_keeps. intros r d r' k d1 D Hr R H. apply bind_inr in H as (u & d2 & [_ [= -> ->]]%throw_if_inr & H).
  apply bind_inr in H as ([r2 n2] & d2 & H & [= -> -> <-]%ret_inr). simpl.
  destruct (busy r); [|unfold done_ in H; tx_inv; split; [apply Moved_refl|auto with rows]].
  apply bind_inr in H as (n & d3 & Hi & H). apply bind_inr in H as (r3 & d4 & [-> Hr3]%requireApp_inr & [= -> -> ->]%ret_inr).
  destruct (interruptActiveOperations_inr id e d n d3 D Hi) as (r0 & Hr0 & M & K & E & R3). simplify_eq.
  split; [done|]. apply RowInv_suspension.
  assert (RowInv d3 id r) as R' by (eapply RowInv_frame, R; [by eapply Moved_grows|done]).
  apply (RowInv_settled _ _ r); try done; [apply R'|apply R3].
Qed.

(** ** Attempts *)

Lemma history_keeps id n e s o g : keeps (history id n e s o g).
Proof.
  intros d k d' D F%history_frame. destruct (but_history_Moved d d' id F) as [M T]. destruct F as (E1 & E2 & E3 & E4).
  apply (DbInv_moved d d' id D M). intros r. rewrite E1. intros Hr.
  eapply RowInv_frame; [by eapply Moved_grows|done|by apply D].
Qed.

Lemma reserveReconcileAttempt_keeps id e : keeps (reserveReconcileAttempt id e).
Proof.
  intros d k d' D H. unfold reserveReconcileAttempt in H. tx_run. by eapply history_keeps.
Qed.

Lemma settleReconcileAttempt_keeps id e : keeps (settleReconcileAttempt id e).
Proof.
  intros d k d' D H. unfold settleReconcileAttempt in H. tx_run. by eapply history_keeps.
Qed.

Lemma allocateReconcileAttempt_keeps id actor trigger t : keeps (allocateReconcileAttempt id actor trigger t).
Proof.
  intros d k d' D H. unfold allocateReconcileAttempt, writeApplication in H. tx_run.
  eapply history_keeps; [|done].
  match goal with |- DbInv ?d2 => eapply (DbInv_moved d d2 id D); [by eapply Moved_app|] end.
  simpl. intros r'. rewrite lookup_insert_eq. intros [= <-]. apply RowInv_upd_apps, RowInv_attempt_seq. by apply D.
Qed.

(** ** Activation *)

(** A new application with one target, and a generation of its own. *)
Lemma fresh_keeps d d' id n r t : DbInv d -> db_apps d !! id = None ->
  db_apps d' = <[id := r]> (db_apps d) -> db_targets d' = <[(id, n) := t]> (db_targets d) ->
  db_generations d ⊆ db_generations d' -> db_approvals d' = db_approvals d ->
  (forall g x, db_generations d' !! g = Some x -> g <> "") -> RowInv d' id r -> DbInv d'.
Proof.
  intros D Hid E1 E2 G E4 Hg R.
  assert (forall id', id' <> id -> TargetsKept id' d d') as K.
  { intros id' Hne. apply TargetsKept_eq. intros m. rewrite E2. apply lookup_insert_ne. congruence. }
  split; [|done|].
  - intros id' r'. rewrite E1, lookup_insert. case_decide as E; [intros [= <-]; by subst|]. intros Hr.
    eapply RowInv_frame, di_rows; eauto. split; [done|by rewrite E4].
  - intros id' m t'. rewrite E1, E2, !lookup_insert. case_decide as E; [simplify_eq; by rewrite decide_True|].
    intros Ht. destruct (di_orphans d D id' m t' Ht) as [r' Hr']. case_decide; eauto.
Qed.

Lemma no_targets d id n : DbInv d -> db_apps d !! id = None -> db_targets d !! (id, n) = None.
Proof.
  intros D H. destruct (db_targets d !! (id, n)) eqn:E; [|done]. apply D in E. rewrite H in E. by destruct E.
Qed.

Lemma buildDirectApplicationRow_inv d id stack c status t rp p :
  RowInv d id (buildDirectApplicationRow id stack c status t rp p).
Proof. split; try done; by intros []. Qed.

Lemma activateDirect_keeps id stack c t rp p n e :
  keeps (activateDirect (buildDirectApplicationRow id stack c active t rp p) n e).
Proof.
  intros d k d' D H. unfold activateDirect, insertApplication in H. tx_run. simpl in *.
  eapply history_keeps; [|done]. assert (db_apps d !! id = None) as Hid by (by apply eq_None_not_Some).
  eapply fresh_keeps; simpl; try done; [by apply D|apply buildDirectApplicationRow_inv].
Qed.

Lemma activateCreateFromGit_keeps id stack c t rp p n sha g x e : g <> "" ->
  keeps (activateCreateFromGit (buildDirectApplicationRow id stack c creating t rp p) n sha g x e).
Proof.
  intros Hg d k d' D H. unfold activateCreateFromGit, insertApplication, writeApplication in H. tx_run. simpl in *.
  eapply history_keeps; [|done]. assert (db_apps d !! id = None) as Hid by (by apply eq_None_not_Some).
  repeat match goal with H : history _ _ _ _ _ _ _ = inr _ |- _ =>
    apply history_frame in H as (? & ? & ? & ?); simpl in * end.
  match goal with H : ~ is_Some (db_generations ?d2 !! g) |- _ =>
    apply eq_None_not_Some in H as Hnew;
    assert (db_apps d2 = <[id := buildDirectApplicationRow id stack c creating t rp p]> (db_apps d)
      /\ db_targets d2 = db_targets d /\ db_generations d2 = db_generations d /\ db_approvals d2 = db_approvals d)
      as (E1 & E2 & E3 & E4) by (split_and!; congruence)
  end.
  eapply (fresh_keeps d _ id n); simpl; try done; rewrite ?E1, ?E2, ?E3, ?E4; try done.
  - by rewrite insert_insert_eq.
  - apply insert_subseteq. by rewrite <- E3.
  - intros g' x'. rewrite lookup_insert. case_decide; [congruence|apply D].
  - apply RowInv_stamp. eapply (RowInv_stage d); simpl; try done.
    + split; simpl; rewrite ?E3, ?E4; [by apply insert_subseteq; rewrite <- E3|done].
    + apply RowInv_retry_count, RowInv_ref_kind, RowInv_commits, buildDirectApplicationRow_inv.
    + rewrite E3. apply lookup_insert_eq.
    + by right.
    + intros m t'. rewrite E2, lookup_insert. case_decide; [by intros [= <-]|]. by rewrite no_targets.
Qed.

Lemma createFailed_keeps id class e : keeps (createFailed id class e).
Proof.
  intros d k d' D H. unfold createFailed, writeApplication in H. tx_run. eapply history_keeps; [|done].
  match goal with H : updateTargets _ _ _ _ = inr (_, ?d2), Hr : db_apps d !! id = Some ?r
    |- DbInv (upd_checkpoints _ _) =>
      pose proof H as M%updateTargets_Moved; apply updateTargets_inr in H as (targets & -> & Ht); simpl in *
  end.
  match goal with |- DbInv ?d2 => apply (DbInv_moved d d2 id D) end.
  - destruct M as [M1 M2 M3 M4 M5 M6]. split; simpl in *; try done.
    + intros id' Hne. by rewrite lookup_insert_ne.
    + rewrite lookup_insert_eq. eauto.
  - simpl. intros r'. rewrite lookup_insert_eq. intros [= <-].
    eapply (RowInv_frame d); [done| |].
    + intros m t'. simpl. rewrite Ht. simpl. rewrite bool_decide_eq_true_2 by done.
      intros (t0 & Ht0 & ->)%fmap_Some_1. exists t0. split; [done|]. by split.
    + apply RowInv_stamp, RowInv_clearActive, RowInv_lifecycle, RowInv_fail_app. by apply D.
Qed.

(** ** Every step *)

Lemma source_op_keeps {A} (m : Tx A) : source_op m -> keeps m.
Proof.
  intros H. destruct H;
    [apply fetchStarted_keeps|apply fetched_keeps|apply fetchFailed_keeps|apply fetchedInvalid_keeps|
     apply sourceConflictBlocker_keeps|apply candidateReady_keeps|apply dismissed_keeps|
     apply configChangedPendingCleared_keeps|apply sourceReviewBlocked_keeps|apply applyStarted_keeps|
     apply applyFailed_keeps|apply applied_keeps|apply sourceAccepted_keeps|apply targetApplied_keeps|
     apply applicationTombstoned_keeps|apply sourceRetryScheduled_keeps|apply sourcePollScheduled_keeps|
     apply sourcePolicyChanged_keeps|apply interruptActiveOperations_keeps|apply sourceSuspended_keeps|
     apply sourceUnsuspended_keeps|apply reserveReconcileAttempt_keeps|apply allocateReconcileAttempt_keeps|
     apply settleReconcileAttempt_keeps|apply activateDirect_keeps|by apply activateCreateFromGit_keeps|
     apply createFailed_keeps].
Qed.

Lemma others_keep d id r r' targets rows : DbInv d -> db_apps d !! id = Some r -> OthersRow r r' ->
  OthersTargets (db_targets d) targets ->
  DbInv (upd_db_history (fun l => l ++ rows) (upd_targets (fun _ => targets) (upd_apps (<[id := r']>) d))).
Proof.
  intros D Hr O T. set (d' := upd_db_history _ _).
  assert (forall id', TargetsKept id' d d') as K by (intros id' n t' Ht; by apply T).
  assert (RowInv d' id r) as R by (apply (RowInv_frame d); [done|done|by apply D]).
  split; simpl; [|apply D|].
  - intros id' r2. rewrite lookup_insert. case_decide as E; [intros [= <-]; subst id'|].
    + destruct O as [[O1 O2] [O3 O4] [O5 O6] [O7 O8] (O9 & O10 & O11) [O12 O13] O14].
      destruct R as [R1 R2 R3 R4 R5 R6 R7].
      split; rewrite ?O1, ?O2, ?O3, ?O5, ?O6, ?O7, ?O8, ?O9, ?O10, ?O11, ?O12, ?O13; try done.
      destruct O14 as [(-> & -> & ->)|[(-> & ? & ?)| ->]]; [done|done|by intros []].
    + intros H. apply (RowInv_frame d); [done|done|by apply D].
  - intros id' n t' Ht. destruct (T _ _ Ht) as (t & Ht' & _). rewrite lookup_insert. case_decide; [eauto|].
    eapply di_orphans; eauto.
Qed.

Lemma tx_step_keeps d d' : tx_step d d' -> DbInv d -> DbInv d'.
Proof.
  intros [A m a d1 d2 Hop Hm|g x d1 Hg Hnew|id r r' targets rows d1 Hr O T] D; [by eapply source_op_keeps| |by eapply others_keep].
  split; simpl; [|by intros g' x'; rewrite lookup_insert; case_decide; [congruence|apply D]|apply D].
  intros id r Hr. apply (RowInv_frame d1); [|by apply TargetsKept_eq|by apply D].
  split; [by apply insert_subseteq|done].
Qed.

Lemma emptyDb_inv : DbInv emptyDb.
Proof. split; intros until 1; simpl in *; map_cases. Qed.

Lemma db_reachable_inv d : db_reachable d -> DbInv d.
Proof. apply rtc_invariant; [intros a b; apply tx_step_keeps|apply emptyDb_inv]. Qed.
