(* ===== verification/SourceProps.v ===== *)
(** * Source transitions: what the transitions guarantee

    The projection of Reconcile.v read over the tables of SourceRows.v; when an
    acceptance succeeds and what it leaves; suspension; the reservation of attempts;
    a suspension during a recovery. *)

From S2P Require Import Prelude Reconcile SourceRows SourceTx SourceInv SourceSteps.

(** ** The projection *)



Section projection.
Context (d : GitDb) (id : string) (r : SourceRow) (D : DbInv d) (R : RowInv d id r).







End projection.



(** ** Running a transaction *)

Lemma bind_run {A B} (m : Tx A) (k : A -> Tx B) d a d1 : m d = inr (a, d1) -> (m ≫= k) d = k a d1.
Proof. unfold mbind, Tx_bind. by intros ->. Qed.


Lemma requireApp_run id d r : db_apps d !! id = Some r -> requireApp id d = inr (r, d).
Proof. intros H. by apply requireApp_inr. Qed.



(** ** Acceptance *)





Section apply.
Context (d : GitDb) (id : string) (r : SourceRow) (a : AppliedArgs).
Context (D : DbInv d) (Hr : db_apps d !! id = Some r).



End apply.





(** ** The history *)

(** A transaction only adds to the history. *)
Definition appends {A} (m : Tx A) : Prop :=
  forall d a d', m d = inr (a, d') -> db_history d `prefix_of` db_history d'.

Section appends.
Context {A B : Type}.
Lemma appends_ret (a : A) : appends (mret a : Tx A).
Proof. intros d b d' [= _ ->]%ret_inr. done. Qed.
Lemma appends_read (f : GitDb -> A) : appends (read f).
Proof. intros d b d' [= _ ->]%read_inr. done. Qed.
Lemma appends_throw e : appends (@throw A e).
Proof. done. Qed.
Lemma appends_throw_if b e : appends (throw_if b e).
Proof. intros d a d' [_ [= _ ->]]%throw_if_inr. done. Qed.
Lemma appends_write f : (forall d, db_history (f d) = db_history d) -> appends (write f).
Proof. intros Hf d a d' [= _ ->]%write_inr. by rewrite Hf. Qed.
Lemma appends_bind (m : Tx A) (k : A -> Tx B) : appends m -> (forall a, appends (k a)) -> appends (m ≫= k).
Proof. intros Hm Hk d b d' (a & d1 & H1 & H2)%bind_inr. etrans; [by eapply Hm|by eapply Hk]. Qed.
End appends.

Lemma appends_history id n e s o g : appends (history id n e s o g).
Proof.
  unfold history, insertHistory. intros d a d'. destruct (existsb _ _); intros [= <- <-]; [done|]. by apply prefix_app_r.
Qed.

Create HintDb tx discriminated.
#[export] Hint Resolve appends_ret appends_read appends_throw appends_throw_if appends_history : tx.

Ltac appends_go :=
  repeat first
    [ solve [eauto 2 with tx]
    | apply appends_write; done
    | apply appends_bind; [|intros ?]
    | match goal with |- appends (match ?x with _ => _ end) => destruct x end
    | match goal with |- appends (let _ := _ in _) => cbv zeta end ].

Lemma appends_requireApp id : appends (requireApp id).
Proof. unfold requireApp. appends_go. Qed.
Lemma appends_requireOwnedGeneration id g : appends (requireOwnedGeneration id g).
Proof. unfold requireOwnedGeneration. appends_go. Qed.
Lemma appends_updateTargets id p f : appends (updateTargets id p f).
Proof. apply appends_write. done. Qed.
#[export] Hint Resolve appends_requireApp appends_requireOwnedGeneration appends_updateTargets : tx.

Lemma appends_mutateApp id e s o g (mutate : mutator) :
  (forall r, appends (mutate r)) -> appends (mutateApp id e s o g mutate).
Proof. intros H. unfold mutateApp, writeApplication. appends_go. Qed.

Lemma appends_interruptTargets id e ts : appends (interruptTargets id e ts).
Proof. induction ts as [|[k t] ts IH]; simpl; appends_go; done. Qed.
Lemma appends_interrupt id e : appends (interruptActiveOperations id e).
Proof. unfold interruptActiveOperations, writeApplication. appends_go. apply appends_interruptTargets. Qed.
#[export] Hint Resolve appends_interrupt : tx.

Lemma appends_acceptable id r a : appends (requireAcceptableCandidate id r a).
Proof. unfold requireAcceptableCandidate. appends_go. Qed.
Lemma appends_acceptance id r a : appends (applySourceAcceptanceMutation id r a).
Proof. unfold applySourceAcceptanceMutation, insertAcceptanceRecords. appends_go. Qed.
Lemma appends_invalidate id r e : appends (invalidateAuthorizationOnSourceChange id r e).
Proof. unfold invalidateAuthorizationOnSourceChange, done_. appends_go. Qed.
Lemma appends_supersede id r g e : appends (supersedeCandidate id r g e).
Proof. unfold supersedeCandidate. appends_go. Qed.
#[export] Hint Resolve appends_acceptable appends_acceptance appends_invalidate appends_supersede : tx.

Lemma source_op_appends {A} (m : Tx A) : source_op m -> appends m.
Proof.
  intros []; try apply appends_mutateApp; intros;
    unfold acceptanceTargets, requireMatchingFetch, setTargetCandidates, done_, mutateTarget, targetApplied,
      reserveReconcileAttempt, settleReconcileAttempt, allocateReconcileAttempt, writeApplication, activateDirect,
      activateCreateFromGit, createFailed, insertApplication;
    appends_go.
Qed.

Lemma tx_steps_append d d' : rtc tx_step d d' -> db_history d `prefix_of` db_history d'.
Proof.
  induction 1 as [|d1 d2 d3 H _ IH]; [done|]. etrans; [|exact IH].
  destruct H as [A m a d d' Hop Hm| |]; [by eapply source_op_appends|done|by apply prefix_app_r].
Qed.

Lemma existsb_prefix {A} (f : A -> bool) l l' : l `prefix_of` l' -> existsb f l = true -> existsb f l' = true.
Proof. intros [x ->]. rewrite existsb_app. by intros ->. Qed.

Lemma history_known id n e s o g d k d1 d2 : history id n e s o g d = inr (k, d1) -> rtc tx_step d1 d2 ->
  forall e', ev_operationId e' = ev_operationId e -> forall o' g', history id n e' s o' g' d2 = inr (O, d2).
Proof.
  intros H1 H2 e' He o' g'. assert (existsb (sameEvent (mkHistory id (ev_operationId e) s (dedupeTarget n) o g))
    (db_history d1) = true) as Hd1.
  { unfold history, insertHistory in H1. destruct (existsb _ _) eqn:E; injection H1 as <- <-; [done|].
    simpl. rewrite existsb_app. simpl. unfold sameEvent. rewrite !bool_decide_eq_true_2 by done. apply orb_true_r. }
  unfold history, insertHistory. rewrite He.
  change (existsb (sameEvent (mkHistory id (ev_operationId e) s (dedupeTarget n) o' g')) (db_history d2))
    with (existsb (sameEvent (mkHistory id (ev_operationId e) s (dedupeTarget n) o g)) (db_history d2)).
  by rewrite (existsb_prefix _ _ _ (tx_steps_append _ _ H2) Hd1).
Qed.

(** an operation reserves its reconcile attempt at most once, and settles it at
    most once. Whatever happens after the reservation, reserving again for the same
    operation is answered with no and writes nothing, so a redelivered webhook does
    not repeat the work; the same holds of settling. *)
Theorem attempt_reserved_once id e d b d1 d2 e' :
  rtc tx_step d1 d2 -> is_Some (db_apps d2 !! id) -> ev_operationId e' = ev_operationId e ->
  (reserveReconcileAttempt id e d = inr (b, d1) -> reserveReconcileAttempt id e' d2 = inr (false, d2))
  /\ (settleReconcileAttempt id e d = inr (b, d1) -> settleReconcileAttempt id e' d2 = inr (false, d2)).
Proof.
  intros H2 [r Hr] He. unfold reserveReconcileAttempt, settleReconcileAttempt.
  split; intros (r0 & d0 & [-> _]%requireApp_inr & (n & d3 & H1 & [= -> ->]%ret_inr)%bind_inr)%bind_inr;
    rewrite (bind_run _ _ _ _ _ (requireApp_run id d2 r Hr));
    by rewrite (bind_run _ _ _ _ _ (history_known _ _ _ _ _ _ _ _ _ _ H1 H2 e' He _ _)).
Qed.

(** ** Suspension *)

(** What a suspension must not forget. *)
Definition pointers (r : SourceRow) :=
  let a := sr_app r in
  (app_desired_commit_sha a, app_fetched_commit_sha a, app_candidate_generation_id a, app_candidate_plan_blocked a,
   app_review_required a, app_review_block_reason a, app_accepted_generation_id a, sr_source_acceptance_ref r,
   (app_retry_at a, app_retry_count a, app_next_poll_at a),
   (app_failure_stage a, app_failure_class a, app_failure_at a, sr_source_policy r)).

(** The operation that was live, as the interruption names it; an earlier
    interruption when none was. *)
Definition interruption_after (at_ : Z) (r : SourceRow) :=
  let a := sr_app r in
  if busy r then (app_active_operation_stage a, Some at_, app_active_operation_id a, app_active_generation_id a)
  else (app_interruption_stage a, app_interruption_at a, app_interruption_operation_id a, app_interruption_generation_id a).

Definition interruption (r : SourceRow) :=
  let a := sr_app r in
  (app_interruption_stage a, app_interruption_at a, app_interruption_operation_id a, app_interruption_generation_id a).

Lemma sourceSuspended_row id reason e d k d' : DbInv d -> sourceSuspended id reason e d = inr (k, d') ->
  exists r r', db_apps d !! id = Some r /\ db_apps d' !! id = Some r'
  /\ pointers r' = pointers r /\ interruption r' = interruption_after (ev_at e) r
  /\ app_active_operation_stage (sr_app r') = None
  /\ app_suspended_at (sr_app r') = Some (ev_at e)
  /\ app_recovery_phase (sr_app r') = app_recovery_phase (sr_app r).
Proof.
  intros D (r & r' & n & d1 & Hr & Hm & E1 & _)%mutateApp_inr. exists r, (stamp (ev_operationId e) (ev_at e) r').
  split; [done|]. split; [rewrite E1; apply lookup_insert_eq|].
  apply bind_inr in Hm as (u & d2 & [_ [= -> ->]]%throw_if_inr & H).
  apply bind_inr in H as ([r2 n2] & d2 & H & [= -> -> <-]%ret_inr). unfold interruption_after.
  destruct (busy r) eqn:Hb.
  - apply bind_inr in H as (n & d3 & Hi & H).
    apply bind_inr in H as (r3 & d4 & [-> Hr3]%requireApp_inr & [= -> -> ->]%ret_inr).
    destruct (interruptActiveOperations_inr id e d n d3 D Hi) as (r0 & Hr0 & _ & _ & E & _).
    rewrite Hr in Hr0. injection Hr0 as <-. rewrite Hr3 in E. injection E as ->.
    unfold interruptApp. rewrite Hb. simpl. split_and!; try done. by destruct (recoveryInFlight _).
  - unfold done_ in H. apply ret_inr in H as [= -> -> ->]. split_and!; try done.
    unfold busy, stage in Hb. simpl. by destruct (app_active_operation_stage (sr_app r)).
Qed.



(** C39: a restore in flight when its source is suspended during an operation loses
    the outcome it was given. [interruptActiveOperations] marks the recovery of the
    application as failed, but [sourceSuspended] then writes its own copy of the row,
    read before: the row still says that the restore is running, no failure is
    recorded, and no operation is left to settle it. *)
Theorem suspension_loses_recovery_outcome d id reason e r k d1 n d2 : db_reachable d -> db_apps d !! id = Some r ->
  busy r = true -> recoveryInFlight (app_recovery_phase (sr_app r)) = true ->
  sourceSuspended id reason e d = inr (k, d1) -> interruptActiveOperations id e d = inr (n, d2) ->
  (forall r2, db_apps d2 !! id = Some r2 -> app_recovery_phase (sr_app r2) = Some R_failed
     /\ app_failure_class (sr_app r2) = Some "interrupted")
  /\ (forall r1, db_apps d1 !! id = Some r1 -> recoveryInFlight (app_recovery_phase (sr_app r1)) = true
     /\ app_failure_class (sr_app r1) = app_failure_class (sr_app r) /\ app_active_operation_stage (sr_app r1) = None).
Proof.
  intros D%db_reachable_inv Hr Hb Hrec Hs Hi. split.
  - intros r2 Hr2. destruct (interruptActiveOperations_inr id e d n d2 D Hi) as (r0 & Hr0 & _ & _ & E & _).
    rewrite Hr in Hr0. injection Hr0 as <-. rewrite Hr2 in E. injection E as ->.
    unfold interruptApp. rewrite Hb, Hrec. done.
  - intros r1 Hr1. apply sourceSuspended_row in Hs as (r0 & r3 & Hr0 & Hr3 & [= ? ? ? ? ? ? ? ? ? ? ? ? Hc] & _ & Ha & _ & Hp);
      [|done]. simplify_eq. by rewrite Hp.
Qed.

(** ** Examples *)

Lemma commit_reachable {A} (m : Tx A) d : source_op m -> db_reachable d -> db_reachable (commit m d).
Proof.
  intros Hm Hd. unfold commit. destruct (m d) as [err|[a d']] eqn:E; [done|].
  eapply rtc_r; [exact Hd|by eapply tx_op].
Qed.

(** A manual source that fetches, stages a generation for review and applies it. *)
Definition demo_env (op : string) (t : Z) : EventEnvelope := mkEnv op (Some "ana") "manual" t.
Definition demo_source : NewSource :=
  mkNewSource "https://git.example/web" "{}" "main" (mkMaterial None None 0 None) "fp".

Definition demo_active : GitDb :=
  commit (activateDirect (buildDirectApplicationRow "app" "web" demo_source active 1 "manual" sp_manual) 1
    (demo_env "op0" 1)) emptyDb.
Definition demo_fetching : GitDb := commit (fetchStarted "app" (demo_env "op1" 2)) demo_active.

Lemma demo_active_reachable : db_reachable demo_active.
Proof. apply commit_reachable; [apply op_activate|apply rtc_refl]. Qed.
Lemma demo_fetching_reachable : db_reachable demo_fetching.
Proof. apply commit_reachable; [apply op_fetchStarted|apply demo_active_reachable]. Qed.

Definition demo_row (d : GitDb) : SourceRow :=
  default (buildDirectApplicationRow "" "" demo_source deleted 0 "" sp_manual) (db_apps d !! "app").

(** The same source with a restore in flight while it fetches. *)
Definition demo_restoring : GitDb :=
  upd_db_history (fun l => l ++ []) (upd_targets (fun _ => db_targets demo_fetching) (upd_apps (<["app" :=
    upd_app (set_recovery (Some "rec") (Some restoring)) (demo_row demo_fetching)]>) demo_fetching)).
Lemma others_recovery r x p : OthersRow r (upd_app (set_recovery x p) r).
Proof. split; try done. by left. Qed.

Lemma demo_restoring_reachable : db_reachable demo_restoring.
Proof.
  eapply rtc_r; [apply demo_fetching_reachable|]. apply (tx_other "app" (demo_row demo_fetching)).
  - by vm_compute.
  - apply others_recovery.
  - intros k t Ht. by exists t.
Qed.






Lemma attempt_reserved_once_witness : exists b d1,
  reserveReconcileAttempt "app" (demo_env "hook" 3) demo_active = inr (b, d1) /\ b = true
  /\ reserveReconcileAttempt "app" (demo_env "hook" 9) (commit (fetchStarted "app" (demo_env "op1" 4)) d1)
       = inr (false, commit (fetchStarted "app" (demo_env "op1" 4)) d1).
Proof.
  set (d1 := commit (reserveReconcileAttempt "app" (demo_env "hook" 3)) demo_active).
  assert (reserveReconcileAttempt "app" (demo_env "hook" 3) demo_active = inr (true, d1)) as H by (vm_compute; reflexivity).
  exists true, d1. split; [exact H|]. split; [done|].
  eapply (attempt_reserved_once "app" (demo_env "hook" 3) demo_active true d1); [|by vm_compute; eexists|done|exact H].
  apply rtc_once. eapply tx_op; [apply (op_fetchStarted "app" (demo_env "op1" 4))|]. vm_compute. reflexivity.
Defined.


Lemma suspension_loses_recovery_outcome_witness : exists k d1,
  sourceSuspended "app" "hold" (demo_env "op9" 9) demo_restoring = inr (k, d1)
  /\ app_recovery_phase (sr_app (demo_row d1)) = Some restoring
  /\ forall r1, db_apps d1 !! "app" = Some r1 -> recoveryInFlight (app_recovery_phase (sr_app r1)) = true.
Proof.
  set (d1 := commit (sourceSuspended "app" "hold" (demo_env "op9" 9)) demo_restoring).
  set (d2 := commit (interruptActiveOperations "app" (demo_env "op9" 9)) demo_restoring).
  assert (sourceSuspended "app" "hold" (demo_env "op9" 9) demo_restoring = inr (2%nat, d1)) as H by (vm_compute; reflexivity).
  assert (interruptActiveOperations "app" (demo_env "op9" 9) demo_restoring = inr (1%nat, d2)) as H2 by (vm_compute; reflexivity).
  exists 2%nat, d1. split; [exact H|]. split; [by vm_compute|].
  destruct (suspension_loses_recovery_outcome demo_restoring "app" "hold" (demo_env "op9" 9) (demo_row demo_restoring)
    2 d1 1 d2 demo_restoring_reachable) as [_ Hw]; [by vm_compute|by vm_compute|by vm_compute|exact H|exact H2|].
  intros r1 Hr1. apply (Hw r1 Hr1).
Defined.
