(* ===== verification/Dialer.v ===== *)
(** * The proxy-tunnel dialer (backend/src/services/MeshProxyTunnelDialer.ts)

    Bridges that the primary dials to proxy-mode nodes: dials in flight and joined,
    failures remembered for a minute, reactive redials, the idle sweeper.

    A dial is split at its awaits ([DialStage]); the promise of a dial that is over
    leaves [dl_inflight] in a later microtask. A bridge is a reference, alive until
    it is closed; it emits 'closed' once, and its 'closed' event carries no
    argument (PilotTunnelBridge.ts, [close]). The registry's answer, the network
    and [Math.random] are arguments of the events. [Math.random] is [k / 2^53]. *)

From Stdlib Require Import Ascii.
From S2P Require Import Prelude.

Abbreviation Ref := Z.

Definition DEFAULT_IDLE_TTL_MS : Z := 0.
Definition FAILURE_CACHE_TTL_MS : Z := 60 * 1000.

Inductive DialFailureCode :=
  | no_target | endpoint_not_found | auth_failed | scope_denied | tier_denied | blocked_by_proxy
  | remote_refused | refused_unverified | proxy_upstream_error | upgrade_rejected | tls_failed
  | dns_failed | connection_refused | timeout | blocked_address | config_invalid | network_error.
#[export] Instance DialFailureCode_eq_dec : EqDecision DialFailureCode.
Proof. solve_decision. Defined.

Inductive BridgeDownReason := R_idle | R_remote_closed | R_network_error | R_protocol_error | R_auth_failed.
#[export] Instance BridgeDownReason_eq_dec : EqDecision BridgeDownReason.
Proof. solve_decision. Defined.

Definition classifyCloseCode (code : option Z) : BridgeDownReason :=
  match code with
  | Some 1000 | Some 1001 => R_remote_closed
  | Some 1006 => R_network_error
  | Some 1007 | Some 1008 | Some 1009 => R_protocol_error
  | _ => R_remote_closed
  end.

(** ** Why a dial failed *)

(** utils/outboundTarget.ts *)
Inductive UnsafeReason := blocked | unresolved.

(** A header of a refused upgrade: one value, or several. *)
Inductive HeaderVal := H_one (v : string) | H_many (vs : list string).

(** What a dial can throw: the unsafe-target error it is or is caused by, its
    message, the answer of a refused upgrade, and the code of a system error. *)
Record DialError := mkDialError {
  er_unsafe : option UnsafeReason;
  er_message : string;
  er_httpStatus : option Z;
  er_httpHeaders : gmap string HeaderVal;
  er_code : option string;
}.

Definition TLS_ERROR_CODES : list string :=
  ["CERT_HAS_EXPIRED"; "CERT_NOT_YET_VALID"; "CERT_UNTRUSTED"; "CERT_SIGNATURE_FAILURE";
   "UNABLE_TO_VERIFY_LEAF_SIGNATURE"; "UNABLE_TO_GET_ISSUER_CERT"; "UNABLE_TO_GET_ISSUER_CERT_LOCALLY";
   "DEPTH_ZERO_SELF_SIGNED_CERT"; "SELF_SIGNED_CERT_IN_CHAIN"; "ERR_TLS_CERT_ALTNAME_INVALID";
   "ERR_SSL_WRONG_VERSION_NUMBER"; "EPROTO"].

Definition MESH_REJECT_HEADER : string := "X-Sencho-Mesh-Reject".

Definition headerValue (headers : gmap string HeaderVal) (name : string) : option string :=
  match headers !! toLowerCase name with
  | Some (H_one v) => Some v
  | Some (H_many vs) => head vs
  | None => None
  end.

Definition REDIRECT_STATUSES : list Z := [300; 301; 302; 303; 305; 307; 308].

Fixpoint strip_final_dot (s : string) : string :=
  match s with
  | EmptyString => EmptyString
  | String c EmptyString => if decide (c = "."%char) then EmptyString else s
  | String c s => String c (strip_final_dot s)
  end.

Section classify.
(** [new URL(location, LOCATION_PARSE_BASE).hostname], or the error it throws. *)
Variable url_hostname : string -> option string.
(** [sanitizeForLog], and [redactSensitiveText] before it. *)
Variable sanitizeForLog redactSensitiveText : string -> string.

Definition isCloudflareAccessLogin (location : option string) : bool :=
  match truthy location with
  | None => false
  | Some location =>
      match url_hostname location with
      | None => false
      | Some h =>
          let host := strip_final_dot (toLowerCase h) in
          bool_decide (host = "cloudflareaccess.com") || endsWith ".cloudflareaccess.com" host
      end
  end.

Definition classifyHttp (status : Z) (headers : gmap string HeaderVal) : DialFailureCode * string :=
  let senchoReason := headerValue headers MESH_REJECT_HEADER in
  let n := pretty status in
  if bool_decide (senchoReason = Some "unauthorized") then (auth_failed, "api token rejected by remote")
  else if bool_decide (senchoReason = Some "scope") then (scope_denied, "remote refused: node token is not full-admin")
  else if bool_decide (senchoReason = Some "tier") then
    (tier_denied, "remote refused: license tier does not include mesh")
  else if bool_decide (senchoReason = Some "forbidden") then
    (remote_refused, "remote refused the mesh upgrade without a stated reason")
  else if status =? 404 then (endpoint_not_found, "remote does not expose /api/mesh/proxy-tunnel")
  else if bool_decide (status ∈ REDIRECT_STATUSES) then
    let location := headerValue headers "location" in
    if isCloudflareAccessLogin location then
      (blocked_by_proxy, "redirected to the Cloudflare Access login (HTTP " +:+ n
         +:+ "); the gateway wants its own credential")
    else
      (refused_unverified,
       "redirected with HTTP " +:+ n +:+
       (if bool_decide (is_Some (truthy location))
        then " to a destination that is not a recognized access-gateway login, so neither the destination nor the response headers identify the hop that redirected"
        else " without a usable Location header, so neither the destination nor the response headers identify the hop that redirected"))
  else if status =? 407 then
    (blocked_by_proxy, "proxy authentication required (HTTP 407) by a proxy in front of the remote")
  else if (status =? 401) || (status =? 403) || (status =? 429) then
    (refused_unverified, "refused or rate-limited with HTTP " +:+ n
       +:+ " without identifying whether the remote Sencho or a proxy in front of it answered")
  else if (status =? 502) || (status =? 503) || (status =? 504) || ((520 <=? status) && (status <=? 530)) then
    (proxy_upstream_error, "proxy in front of the remote could not reach Sencho (HTTP " +:+ n +:+ ")")
  else (upgrade_rejected, "WebSocket upgrade rejected (HTTP " +:+ n +:+ ")").

Definition classifyDialError (err : DialError) : DialFailureCode * string :=
  match er_unsafe err with
  | Some unresolved => (dns_failed, "remote hostname could not be resolved")
  | Some blocked =>
      (blocked_address, "remote resolves to a loopback, link-local or reserved address Sencho does not dial")
  | None =>
      let message := sanitizeForLog (er_message err) in
      match er_httpStatus err with
      | Some status => classifyHttp status (er_httpHeaders err)
      | None =>
          let errno := default "" (er_code err) in
          if bool_decide (errno ∈ TLS_ERROR_CODES) then (tls_failed, message)
          else if bool_decide (errno = "ENOTFOUND") || bool_decide (errno = "EAI_AGAIN") then (dns_failed, message)
          else if bool_decide (errno = "ECONNREFUSED") then (connection_refused, message)
          else if bool_decide (errno = "ETIMEDOUT") || includes "handshake has timed out" (toLowerCase message)
          then (timeout, message)
          else (network_error, message)
      end
  end.

(** ** The dialer *)

Record DialFailure := mkDialFailure { df_code : DialFailureCode; df_message : option string; df_ts : Z }.

Inductive DialStage :=
  | awaiting_outbound
  | awaiting_open (ws : Ref)
  | awaiting_start (bridge : Ref)
  | over (bridge : option Ref).      (* its [finally] callback is queued *)

Record Dial := mkDial { di_node : Z; di_stage : DialStage }.

(** Whether a node of this name has headers of its own to send; the extra trust
    roots of the configuration only reach the socket. *)
Definition Config : Type := option string -> bool.

Record Dialer := mkDialer {
  dl_bridges : gmap Z Ref;
  dl_inflight : gmap Z Z;                  (* the dial of a node *)
  dl_idleSince : gmap Z Z;
  dl_recentFailures : gmap Z DialFailure;
  dl_redialAttempts : gmap Z Z;
  dl_redialTimers : gmap Z Z;              (* the time it is due *)
  dl_idleTtlMs : Z;
  dl_config : option Config;
  dl_idleCheck : bool;
  dl_stopped : bool;
  dl_dials : gmap Z Dial;
  dl_nextDial : Z;
  dl_alive : gset Ref;                     (* bridges that were constructed and not closed *)
  dl_listening : gmap Ref Z;               (* the dialer's 'closed' listener of a bridge *)
  dl_nextRef : Ref;
}.

(** Field updates. *)
Definition upd_dl_bridges f st := mkDialer (f (dl_bridges st)) (dl_inflight st) (dl_idleSince st)
  (dl_recentFailures st) (dl_redialAttempts st) (dl_redialTimers st) (dl_idleTtlMs st) (dl_config st)
  (dl_idleCheck st) (dl_stopped st) (dl_dials st) (dl_nextDial st) (dl_alive st) (dl_listening st) (dl_nextRef
  st).
Definition upd_dl_inflight f st := mkDialer (dl_bridges st) (f (dl_inflight st)) (dl_idleSince st)
  (dl_recentFailures st) (dl_redialAttempts st) (dl_redialTimers st) (dl_idleTtlMs st) (dl_config st)
  (dl_idleCheck st) (dl_stopped st) (dl_dials st) (dl_nextDial st) (dl_alive st) (dl_listening st) (dl_nextRef
  st).
Definition upd_dl_idleSince f st := mkDialer (dl_bridges st) (dl_inflight st) (f (dl_idleSince st))
  (dl_recentFailures st) (dl_redialAttempts st) (dl_redialTimers st) (dl_idleTtlMs st) (dl_config st)
  (dl_idleCheck st) (dl_stopped st) (dl_dials st) (dl_nextDial st) (dl_alive st) (dl_listening st) (dl_nextRef
  st).
Definition upd_dl_recentFailures f st := mkDialer (dl_bridges st) (dl_inflight st) (dl_idleSince st) (f
  (dl_recentFailures st)) (dl_redialAttempts st) (dl_redialTimers st) (dl_idleTtlMs st) (dl_config st)
  (dl_idleCheck st) (dl_stopped st) (dl_dials st) (dl_nextDial st) (dl_alive st) (dl_listening st) (dl_nextRef
  st).
Definition upd_dl_redialAttempts f st := mkDialer (dl_bridges st) (dl_inflight st) (dl_idleSince st)
  (dl_recentFailures st) (f (dl_redialAttempts st)) (dl_redialTimers st) (dl_idleTtlMs st) (dl_config st)
  (dl_idleCheck st) (dl_stopped st) (dl_dials st) (dl_nextDial st) (dl_alive st) (dl_listening st) (dl_nextRef
  st).
Definition upd_dl_redialTimers f st := mkDialer (dl_bridges st) (dl_inflight st) (dl_idleSince st)
  (dl_recentFailures st) (dl_redialAttempts st) (f (dl_redialTimers st)) (dl_idleTtlMs st) (dl_config st)
  (dl_idleCheck st) (dl_stopped st) (dl_dials st) (dl_nextDial st) (dl_alive st) (dl_listening st) (dl_nextRef
  st).
Definition upd_dl_idleTtlMs f st := mkDialer (dl_bridges st) (dl_inflight st) (dl_idleSince st)
  (dl_recentFailures st) (dl_redialAttempts st) (dl_redialTimers st) (f (dl_idleTtlMs st)) (dl_config st)
  (dl_idleCheck st) (dl_stopped st) (dl_dials st) (dl_nextDial st) (dl_alive st) (dl_listening st) (dl_nextRef
  st).
Definition upd_dl_config f st := mkDialer (dl_bridges st) (dl_inflight st) (dl_idleSince st)
  (dl_recentFailures st) (dl_redialAttempts st) (dl_redialTimers st) (dl_idleTtlMs st) (f (dl_config st))
  (dl_idleCheck st) (dl_stopped st) (dl_dials st) (dl_nextDial st) (dl_alive st) (dl_listening st) (dl_nextRef
  st).
Definition upd_dl_idleCheck f st := mkDialer (dl_bridges st) (dl_inflight st) (dl_idleSince st)
  (dl_recentFailures st) (dl_redialAttempts st) (dl_redialTimers st) (dl_idleTtlMs st) (dl_config st) (f
  (dl_idleCheck st)) (dl_stopped st) (dl_dials st) (dl_nextDial st) (dl_alive st) (dl_listening st)
  (dl_nextRef st).
Definition upd_dl_stopped f st := mkDialer (dl_bridges st) (dl_inflight st) (dl_idleSince st)
  (dl_recentFailures st) (dl_redialAttempts st) (dl_redialTimers st) (dl_idleTtlMs st) (dl_config st)
  (dl_idleCheck st) (f (dl_stopped st)) (dl_dials st) (dl_nextDial st) (dl_alive st) (dl_listening st)
  (dl_nextRef st).
Definition upd_dl_dials f st := mkDialer (dl_bridges st) (dl_inflight st) (dl_idleSince st) (dl_recentFailures
  st) (dl_redialAttempts st) (dl_redialTimers st) (dl_idleTtlMs st) (dl_config st) (dl_idleCheck st)
  (dl_stopped st) (f (dl_dials st)) (dl_nextDial st) (dl_alive st) (dl_listening st) (dl_nextRef st).
Definition upd_dl_nextDial f st := mkDialer (dl_bridges st) (dl_inflight st) (dl_idleSince st)
  (dl_recentFailures st) (dl_redialAttempts st) (dl_redialTimers st) (dl_idleTtlMs st) (dl_config st)
  (dl_idleCheck st) (dl_stopped st) (dl_dials st) (f (dl_nextDial st)) (dl_alive st) (dl_listening st)
  (dl_nextRef st).
Definition upd_dl_alive f st := mkDialer (dl_bridges st) (dl_inflight st) (dl_idleSince st) (dl_recentFailures
  st) (dl_redialAttempts st) (dl_redialTimers st) (dl_idleTtlMs st) (dl_config st) (dl_idleCheck st)
  (dl_stopped st) (dl_dials st) (dl_nextDial st) (f (dl_alive st)) (dl_listening st) (dl_nextRef st).
Definition upd_dl_listening f st := mkDialer (dl_bridges st) (dl_inflight st) (dl_idleSince st)
  (dl_recentFailures st) (dl_redialAttempts st) (dl_redialTimers st) (dl_idleTtlMs st) (dl_config st)
  (dl_idleCheck st) (dl_stopped st) (dl_dials st) (dl_nextDial st) (dl_alive st) (f (dl_listening st))
  (dl_nextRef st).
Definition upd_dl_nextRef f st := mkDialer (dl_bridges st) (dl_inflight st) (dl_idleSince st)
  (dl_recentFailures st) (dl_redialAttempts st) (dl_redialTimers st) (dl_idleTtlMs st) (dl_config st)
  (dl_idleCheck st) (dl_stopped st) (dl_dials st) (dl_nextDial st) (dl_alive st) (dl_listening st) (f
  (dl_nextRef st)).

Definition newDialer (idleTtlMs : Z) : Dialer :=
  mkDialer ∅ ∅ ∅ ∅ ∅ ∅ idleTtlMs None (0 <? idleTtlMs) false ∅ 1 ∅ ∅ 1.

(** The clock, [Math.random], and what the node registry, the disk and the debug
    settings answer during one event. *)
Record DialEnv := mkDialEnv {
  de_now : Z;
  de_random : Z;
  de_target : Z -> option (string * string);     (* getProxyTarget: url and token *)
  de_nodeName : Z -> option string;
  de_loadConfig : string + Config;
}.

Inductive DialEffect :=
  | DE_closeSocket (ws : Ref) (code : option Z)
  | DE_closeBridge (r : Ref) (code : Z) (reason : string)
  | DE_metric (name : string)
  | DE_openOk (node : Z)
  | DE_openFail (node : Z) (reason : string) (message : option string)
  | DE_redialExhausted (node : Z)
  | DE_closed (node : Z) (reason : BridgeDownReason)
  | DE_bridgeUp (node : Z)
  | DE_bridgeDown (node : Z) (reason : BridgeDownReason).

Abbreviation DM := (act Dialer DialEffect).

Definition DialFailureCode_str (c : DialFailureCode) : string :=
  match c with
  | no_target => "no_target" | endpoint_not_found => "endpoint_not_found" | auth_failed => "auth_failed"
  | scope_denied => "scope_denied" | tier_denied => "tier_denied" | blocked_by_proxy => "blocked_by_proxy"
  | remote_refused => "remote_refused" | refused_unverified => "refused_unverified"
  | proxy_upstream_error => "proxy_upstream_error" | upgrade_rejected => "upgrade_rejected"
  | tls_failed => "tls_failed" | dns_failed => "dns_failed" | connection_refused => "connection_refused"
  | timeout => "timeout" | blocked_address => "blocked_address" | config_invalid => "config_invalid"
  | network_error => "network_error"
  end.

(** ** Failures *)

Definition recordFailure (env : DialEnv) (node : Z) (code : DialFailureCode) (rawMessage : option string)
    (reasonOverride : option string) : DM unit :=
  st ← get;
  let message := match truthy rawMessage with
                 | Some m => Some (sanitizeForLog (redactSensitiveText m)) | None => None end in
  let reason := default (DialFailureCode_str code) reasonOverride in
  let isFresh := match dl_recentFailures st !! node with
                 | None => true
                 | Some previous => (FAILURE_CACHE_TTL_MS <? de_now env - df_ts previous)
                                    || negb (bool_decide (df_code previous = code)) end in
  modify (upd_dl_recentFailures (<[node := mkDialFailure code message (de_now env)]>));;
  tell (DE_metric "proxy_dials_failed");;
  when isFresh (tell (DE_openFail node reason (truthy message))).

Definition getRecentFailure (env : DialEnv) (node : Z) : DM (option DialFailure) :=
  st ← get;
  match dl_recentFailures st !! node with
  | None => mret None
  | Some entry =>
      if FAILURE_CACHE_TTL_MS <? de_now env - df_ts entry then
        modify (upd_dl_recentFailures (delete node));; mret None
      else mret (Some entry)
  end.

(** ** Reactive redials *)

Definition redialBase (attempt : Z) : Z := Z.min (5000 * 2 ^ (attempt - 1)) (5 * 60000).
Definition redialDelay (random attempt : Z) : Z :=
  redialBase attempt + random * redialBase attempt * 3 / (10 * 2 ^ 53).

Definition scheduleReactiveRedial (env : DialEnv) (node : Z) : DM unit :=
  st ← get;
  if dl_stopped st then skip
  else
    let attempt := default 0 (dl_redialAttempts st !! node) + 1 in
    if 8 <? attempt then
      modify (upd_dl_redialAttempts (delete node));; tell (DE_redialExhausted node)
    else
      modify (upd_dl_redialAttempts (<[node := attempt]>));;
      modify (upd_dl_redialTimers (<[node := de_now env + redialDelay (de_random env) attempt]>)).

(** The dialer's own listener of 'proxy-bridge-down'. *)
Definition onProxyBridgeDown (env : DialEnv) (node : Z) (reason : BridgeDownReason) : DM unit :=
  match reason with
  | R_idle | R_auth_failed => skip
  | _ => scheduleReactiveRedial env node
  end.

(** ** Teardown *)

(** [closing] is the call of [bridge.close], or nothing. *)
Definition tearDownBridge (env : DialEnv) (node : Z) (reason : BridgeDownReason) (closing : Ref -> DM unit) : DM unit :=
  st ← get;
  match dl_bridges st !! node with
  | None => skip
  | Some r =>
      modify (upd_dl_bridges (delete node));;
      modify (upd_dl_idleSince (delete node));;
      closing r;;
      when (bool_decide (reason = R_idle)) (tell (DE_metric "proxy_idle_closes"));;
      tell (DE_closed node reason);;
      tell (DE_bridgeDown node reason);;
      onProxyBridgeDown env node reason
  end.

(** The [once('closed')] listener of [attachBridgeCloseListener], with the [code] of
    its argument. *)
Definition onClosed (env : DialEnv) (r : Ref) (code : option Z) : DM unit :=
  st ← get;
  match dl_listening st !! r with
  | None => skip
  | Some node =>
      modify (upd_dl_listening (delete r));;
      if bool_decide (dl_bridges st !! node = Some r)
      then tearDownBridge env node (classifyCloseCode code) (fun _ => skip)
      else skip
  end.

(** A bridge closes: once, and it tells its listeners. *)
Definition bridgeCloses (env : DialEnv) (r : Ref) : DM unit :=
  st ← get;
  if bool_decide (r ∈ dl_alive st) then
    modify (upd_dl_alive (fun s => s ∖ {[r]}));; onClosed env r None
  else skip.

Definition closeObject (env : DialEnv) (r : Ref) (code : Z) (reason : string) : DM unit :=
  tell (DE_closeBridge r code reason);; bridgeCloses env r.

Definition closeBridge (env : DialEnv) (node : Z) (reason : string) : DM unit :=
  st ← get;
  match dl_bridges st !! node with
  | None => skip
  | Some r =>
      modify (upd_dl_bridges (delete node));;
      modify (upd_dl_idleSince (delete node));;
      closeObject env r 1000 reason
  end.

Definition stop (env : DialEnv) : DM unit :=
  modify (upd_dl_stopped (fun _ => true));;
  modify (upd_dl_idleCheck (fun _ => false));;
  st ← get;
  for_each (fun nr => modify (upd_dl_bridges (delete nr.1));; closeObject env nr.2 1000 "dialer shutdown")
    (map_to_list (dl_bridges st));;
  modify (upd_dl_redialTimers (fun _ => ∅));;
  modify (upd_dl_redialAttempts (fun _ => ∅));;
  modify (upd_dl_idleSince (fun _ => ∅));;
  modify (upd_dl_recentFailures (fun _ => ∅));;
  modify (upd_dl_inflight (fun _ => ∅)).

Definition runIdleCheck (env : DialEnv) (activeStreams : Ref -> Z) : DM unit :=
  st ← get;
  for_each (fun nr =>
    if 0 <? activeStreams nr.2 then modify (upd_dl_idleSince (<[nr.1 := de_now env]>))
    else
      st ← get;
      let last := default (de_now env) (dl_idleSince st !! nr.1) in
      when (dl_idleTtlMs st <=? de_now env - last)
        (tearDownBridge env nr.1 R_idle (fun r => closeObject env r 1000 "idle timeout")))
    (map_to_list (dl_bridges st)).

(** ** Dialling *)

(** utils/wsUrl.ts *)
Fixpoint strip_final_slash (s : string) : string :=
  match s with
  | EmptyString => EmptyString
  | String c EmptyString => if decide (c = "/"%char) then EmptyString else s
  | String c s => String c (strip_final_slash s)
  end.
Definition httpUrlToWs (baseUrl : string) : string :=
  let s := strip_final_slash baseUrl in
  match strip_prefix "https" s with
  | Some rest => "wss" +:+ rest
  | None => match strip_prefix "http" s with Some rest => "ws" +:+ rest | None => s end
  end.

Definition tunnelUrl (node : Z) (apiUrl : string) : string :=
  httpUrlToWs apiUrl +:+ "/api/mesh/proxy-tunnel?nodeId=" +:+ pretty node.

(** [/^wss:\/\//i] *)
Definition overTls (wsUrl : string) : bool := bool_decide (is_Some (strip_prefix "wss://" (toLowerCase wsUrl))).

Definition MESH_PROXY_HEADERS_ENV : string := "SENCHO_MESH_PROXY_HEADERS".

Definition getDialConfig (env : DialEnv) : DM (string + Config) :=
  st ← get;
  match dl_config st with
  | Some c => mret (inr c)
  | None =>
      match de_loadConfig env with
      | inl e => mret (inl e)
      | inr c => modify (upd_dl_config (fun _ => Some c));; mret (inr c)
      end
  end.

(** [dial] up to its first await. *)
Definition dial (env : DialEnv) (node : Z) : DM DialStage :=
  match de_target env node with
  | Some (apiUrl, token) =>
      if bool_decide (token = "") then
        recordFailure env node no_target (Some "no proxy target configured") None;; mret (over None)
      else
      st ← get;
      if dl_stopped st then mret (over None)
      else
        config ← getDialConfig env;
        match config with
        | inl message => recordFailure env node config_invalid (Some message) None;; mret (over None)
        | inr headersFor =>
            let wsUrl := tunnelUrl node apiUrl in
            if headersFor (de_nodeName env node) && negb (overTls wsUrl) then
              recordFailure env node config_invalid
                (Some (MESH_PROXY_HEADERS_ENV +:+
                  ": headers are only sent over a TLS node URL, and this node dials " +:+ wsUrl)) None;;
              mret (over None)
            else mret awaiting_outbound
        end
  | None => recordFailure env node no_target (Some "no proxy target configured") None;; mret (over None)
  end.

(** What [ensureBridge] answers: a bridge, nothing, or the promise of a dial. *)
Inductive Ensured := E_bridge (r : Ref) | E_nothing | E_dial (d : Z).

Definition ensureBridge (env : DialEnv) (node : Z) : DM Ensured :=
  st ← get;
  match dl_bridges st !! node with
  | Some r => modify (upd_dl_idleSince (<[node := de_now env]>));; mret (E_bridge r)
  | None =>
      failure ← getRecentFailure env node;
      match failure with
      | Some _ => mret E_nothing
      | None =>
          match dl_inflight st !! node with
          | Some d => mret (E_dial d)
          | None =>
              let d := dl_nextDial st in
              modify (upd_dl_nextDial (Z.add 1));;
              stage ← dial env node;
              modify (upd_dl_dials (<[d := mkDial node stage]>));;
              modify (upd_dl_inflight (<[node := d]>));;
              mret (E_dial d)
          end
      end
  end.

Definition setStage (d : Z) (node : Z) (stage : DialStage) : DM unit :=
  modify (upd_dl_dials (<[d := mkDial node stage]>)).

Definition newRef : DM Ref :=
  st ← get; modify (upd_dl_nextRef (Z.add 1));; mret (dl_nextRef st).

(** The target check and the construction of the socket. *)
Definition outboundSettled (env : DialEnv) (d : Z) (answer : DialError + unit) : DM unit :=
  st ← get;
  match dl_dials st !! d with
  | Some (mkDial node awaiting_outbound) =>
      match answer with
      | inl err =>
          let failure := classifyDialError err in
          recordFailure env node failure.1 (Some failure.2) None;; setStage d node (over None)
      | inr _ => ws ← newRef; setStage d node (awaiting_open ws)
      end
  | _ => skip
  end.

Definition openSettled (env : DialEnv) (d : Z) (answer : DialError + unit) : DM unit :=
  st ← get;
  match dl_dials st !! d with
  | Some (mkDial node (awaiting_open ws)) =>
      match answer with
      | inl err =>
          tell (DE_closeSocket ws None);;
          let failure := classifyDialError err in
          recordFailure env node failure.1 (Some failure.2) None;; setStage d node (over None)
      | inr _ =>
          if dl_stopped st then tell (DE_closeSocket ws (Some 1001));; setStage d node (over None)
          else
            r ← newRef;
            modify (upd_dl_alive (fun s => {[r]} ∪ s));; setStage d node (awaiting_start r)
      end
  | _ => skip
  end.

(** [bridge.start()] settles, and the registry answers: [Some] is an error. *)
Definition startSettled (env : DialEnv) (d : Z) (startError registerError : option string) : DM unit :=
  st ← get;
  match dl_dials st !! d with
  | Some (mkDial node (awaiting_start r)) =>
      match startError with
      | Some message =>
          recordFailure env node network_error (Some message) (Some "bridge_start_failed");;
          closeObject env r 1011 "bridge start failed";; setStage d node (over None)
      | None =>
          if dl_stopped st then closeObject env r 1001 "dialer shutdown";; setStage d node (over None)
          else
            match registerError with
            | Some message =>
                recordFailure env node network_error (Some message) (Some "manager_rejected");;
                closeObject env r 1013 "manager rejected";; setStage d node (over None)
            | None =>
                modify (upd_dl_bridges (<[node := r]>));;
                modify (upd_dl_listening (<[r := node]>));;
                modify (upd_dl_idleSince (<[node := de_now env]>));;
                modify (upd_dl_recentFailures (delete node));;
                modify (upd_dl_redialAttempts (delete node));;
                tell (DE_openOk node);;
                tell (DE_bridgeUp node);;
                setStage d node (over (Some r))
            end
      end
  | _ => skip
  end.

(** The [finally] callback of a dial. *)
Definition dialOver (d : Z) : DM unit :=
  st ← get;
  match dl_dials st !! d with
  | Some (mkDial node (over _)) =>
      modify (upd_dl_dials (delete d));; modify (upd_dl_inflight (delete node))
  | _ => skip
  end.

(** A redial timer fires. *)
Definition redialFires (env : DialEnv) (node : Z) : DM unit :=
  st ← get;
  match dl_redialTimers st !! node with
  | Some _ => modify (upd_dl_redialTimers (delete node));; ensureBridge env node;; skip
  | None => skip
  end.

(** ** Events *)

Inductive DialerEvent :=
  | EvEnsure (node : Z)
  | EvRecentFailure (node : Z)
  | EvClose (node : Z) (reason : string)
  | EvOutbound (d : Z) (answer : DialError + unit)
  | EvOpen (d : Z) (answer : DialError + unit)
  | EvStart (d : Z) (startError registerError : option string)
  | EvOver (d : Z)
  | EvBridgeDies (r : Ref)                   (* the WebSocket of a bridge closes or fails *)
  | EvRedial (node : Z)
  | EvIdleCheck (activeStreams : Ref -> Z)
  | EvStop.

Definition dialer_run (env : DialEnv) (ev : DialerEvent) : DM unit :=
  match ev with
  | EvEnsure node => ensureBridge env node;; skip
  | EvRecentFailure node => getRecentFailure env node;; skip
  | EvClose node reason => closeBridge env node reason
  | EvOutbound d answer => outboundSettled env d answer
  | EvOpen d answer => openSettled env d answer
  | EvStart d e1 e2 => startSettled env d e1 e2
  | EvOver d => dialOver d
  | EvBridgeDies r => bridgeCloses env r
  | EvRedial node => redialFires env node
  | EvIdleCheck streams => st ← get; if dl_idleCheck st then runIdleCheck env streams else skip
  | EvStop => stop env
  end.

Inductive dialer_step : Dialer -> Dialer -> Prop :=
  | dialer_step_intro env ev st : 0 <= de_random env < 2 ^ 53 -> dialer_step st (state (dialer_run env ev) st).

Definition dialer_reachable (st : Dialer) : Prop := exists ttl, rtc dialer_step (newDialer ttl) st.
End classify.
