(* ===== verification/DialerSteps.v ===== *)
(** * The proxy-tunnel dialer: what every event keeps

    The invariant of Dialer.v's states and its preservation by every event. *)

From S2P Require Import Prelude Dialer.

Record DialerInv (st : Dialer) : Prop := {
  (* references and dial numbers are fresh *)
  dv_fresh : (forall r, r ∈ dl_alive st -> r < dl_nextRef st)
    /\ (forall r n, dl_listening st !! r = Some n -> r < dl_nextRef st)
    /\ (forall n r, dl_bridges st !! n = Some r -> r < dl_nextRef st)
    /\ (forall d n r, dl_dials st !! d = Some (mkDial n (awaiting_start r)) -> r < dl_nextRef st)
    /\ (forall d x, dl_dials st !! d = Some x -> d < dl_nextDial st);
  (* a stopped dialer holds nothing *)
  dv_stopped : dl_stopped st = true ->
    dl_bridges st = ∅ /\ dl_redialTimers st = ∅ /\ dl_redialAttempts st = ∅ /\ dl_idleCheck st = false;
  (* one dial per node while it runs, and it is the one callers join *)
  dv_flight : dl_stopped st = false -> forall d n s, dl_dials st !! d = Some (mkDial n s) -> dl_inflight st !! n = Some d;
  dv_joined : forall n d, dl_inflight st !! n = Some d ->
    exists s, dl_dials st !! d = Some (mkDial n s);
  (* a node is not dialled while it has a bridge *)
  dv_dialing : dl_stopped st = false -> forall d n s, dl_dials st !! d = Some (mkDial n s) ->
    (forall b, s <> over b) -> dl_bridges st !! n = None;
  (* a bridge clears the failures and the redials of its node, and is listened to while it lives *)
  dv_bridge : forall n r, dl_bridges st !! n = Some r ->
    dl_redialAttempts st !! n = None /\ dl_recentFailures st !! n = None
    /\ (r ∈ dl_alive st -> dl_listening st !! r = Some n);
  dv_listening : forall r n, dl_listening st !! r = Some n -> r ∈ dl_alive st -> dl_bridges st !! n = Some r;
  (* no redial is ever more than the first *)
  dv_attempts : forall n a, dl_redialAttempts st !! n = Some a -> a = 1;
  (* a bridge is held by the map or by its dial *)
  dv_alive : forall r, r ∈ dl_alive st ->
    (exists n, dl_bridges st !! n = Some r) \/ (exists d n, dl_dials st !! d = Some (mkDial n (awaiting_start r)));
  dv_starting : forall d n r, dl_dials st !! d = Some (mkDial n (awaiting_start r)) ->
    dl_listening st !! r = None /\ (forall n', dl_bridges st !! n' <> Some r)
    /\ (forall d' n', dl_dials st !! d' = Some (mkDial n' (awaiting_start r)) -> d' = d);
}.

Lemma newDialer_inv ttl : DialerInv (newDialer ttl).
Proof. split; simpl; intros; split_and?; intros; map_cases; set_solver. Qed.

(** Fields the invariant does not read, or reads less of. *)
Lemma dinv_idleSince f st : DialerInv st -> DialerInv (upd_dl_idleSince f st).
Proof. by intros []. Qed.
Lemma dinv_config f st : DialerInv st -> DialerInv (upd_dl_config f st).
Proof. by intros []. Qed.
Lemma dinv_nextRef st : DialerInv st -> DialerInv (upd_dl_nextRef (Z.add 1) st).
Proof.
  intros [(F1 & F2 & F3 & F4 & F5) ? ? ? ? ? ? ? ? ?]. split; try done; simpl.
  split_and!; eauto; intros; [specialize (F1 _ H)|specialize (F2 _ _ H)|specialize (F3 _ _ H)|specialize (F4 _ _ _ H)]; lia.
Qed.
Lemma dinv_nextDial st : DialerInv st -> DialerInv (upd_dl_nextDial (Z.add 1) st).
Proof.
  intros [(F1 & F2 & F3 & F4 & F5) ? ? ? ? ? ? ? ? ?]. split; try done; simpl.
  split_and!; eauto. intros d x H. specialize (F5 _ _ H). lia.
Qed.
Lemma dinv_forgetFailure n st : DialerInv st -> DialerInv (upd_dl_recentFailures (delete n) st).
Proof.
  intros [? ? ? ? ? B ? ? ? ?]. split; try done; simpl.
  intros n' r H. destruct (B _ _ H) as (? & ? & ?). split_and!; try done. by map_cases.
Qed.
Lemma dinv_failure n f st : dl_bridges st !! n = None -> DialerInv st ->
  DialerInv (upd_dl_recentFailures (<[n := f]>) st).
Proof.
  intros Hn [? ? ? ? ? B ? ? ? ?]. split; try done; simpl.
  intros n' r H. destruct (B _ _ H) as (? & ? & ?). split_and!; try done. map_cases; congruence.
Qed.

Section ops.
Context (url_hostname : string -> option string) (sanitizeForLog redactSensitiveText : string -> string).
Abbreviation recordFailure := (recordFailure sanitizeForLog redactSensitiveText).
Abbreviation dial := (dial sanitizeForLog redactSensitiveText).
Abbreviation ensureBridge := (ensureBridge sanitizeForLog redactSensitiveText).
Abbreviation outboundSettled := (outboundSettled url_hostname sanitizeForLog redactSensitiveText).
Abbreviation openSettled := (openSettled url_hostname sanitizeForLog redactSensitiveText).
Abbreviation startSettled := (startSettled sanitizeForLog redactSensitiveText).
Abbreviation redialFires := (redialFires sanitizeForLog redactSensitiveText).
Abbreviation dialer_run := (dialer_run url_hostname sanitizeForLog redactSensitiveText).

(** ** Failures *)

Lemma state_recordFailure env n c m o st : exists f, df_code f = c /\ df_ts f = de_now env /\
  state (recordFailure env n c m o) st = upd_dl_recentFailures (<[n := f]>) st.
Proof. eexists. split_and!; [..|unfold Dialer.recordFailure; by act_run]; done. Qed.

Lemma dinv_recordFailure env n c m o st : dl_bridges st !! n = None -> DialerInv st ->
  DialerInv (state (recordFailure env n c m o) st).
Proof. intros Hn H. destruct (state_recordFailure env n c m o st) as (f & _ & _ & ->). by apply dinv_failure. Qed.

Lemma dinv_getRecentFailure env n st : DialerInv st -> DialerInv (state (getRecentFailure env n) st).
Proof. intros H. unfold getRecentFailure. act_cases; try done. by apply dinv_forgetFailure. Qed.

(** ** Stages *)

Lemma dinv_over d n s b st : dl_dials st !! d = Some (mkDial n s) ->
  (forall r, s = awaiting_start r -> r ∉ dl_alive st \/ exists n', dl_bridges st !! n' = Some r) -> DialerInv st ->
  DialerInv (upd_dl_dials (<[d := mkDial n (over b)]>) st).
Proof.
  intros Hd Hs [(F1 & F2 & F3 & F4 & F5) ? Fl J Di B L A Al S]. split; try done; simpl.
  - split_and!; try done; intros; map_cases; eauto.
  - intros Hst d' n' s' H. map_cases; eauto.
  - intros n' d' H. destruct (J _ _ H) as [s' Hs']. rewrite lookup_insert. case_decide; simplify_eq; eauto.
  - intros Hst d' n' s' H Ho. map_cases; [by destruct (Ho b)|eauto].
  - intros r Hr. destruct (Al r Hr) as [?|(d' & n' & H)]; [by left|].
    destruct (decide (d = d')) as [<-|Hne].
    + simplify_eq. destruct (Hs r eq_refl) as [?|?]; [done|by left].
    + right. exists d', n'. by rewrite lookup_insert_ne.
  - intros d' n' r H. map_cases. destruct (S _ _ _ H) as (Q1 & Q2 & U). split_and!; try done.
    intros d2 n2 H2. map_cases. eauto.
Qed.

Lemma dinv_awaitOpen d n ws st : dl_dials st !! d = Some (mkDial n awaiting_outbound) -> DialerInv st ->
  DialerInv (upd_dl_dials (<[d := mkDial n (awaiting_open ws)]>) st).
Proof.
  intros Hd [(F1 & F2 & F3 & F4 & F5) ? Fl J Di B L A Al S]. split; try done; simpl.
  - split_and!; try done; intros; map_cases; eauto.
  - intros Hst d' n' s' H. map_cases; eauto.
  - intros n' d' H. destruct (J _ _ H) as [s' Hs']. rewrite lookup_insert. case_decide; simplify_eq; eauto.
  - intros Hst d' n' s' H Ho. map_cases; eauto.
  - intros r Hr. destruct (Al r Hr) as [?|(d' & n' & H)]; [by left|].
    right. exists d', n'. rewrite lookup_insert_ne by congruence. done.
  - intros d' n' r H. map_cases. destruct (S _ _ _ H) as (Q1 & Q2 & U). split_and!; try done.
    intros d2 n2 H2. map_cases. eauto.
Qed.

(** A bridge is constructed. *)
Lemma dinv_awaitStart d n ws st : dl_dials st !! d = Some (mkDial n (awaiting_open ws)) -> DialerInv st ->
  DialerInv (upd_dl_dials (<[d := mkDial n (awaiting_start (dl_nextRef st))]>)
    (upd_dl_alive (fun s => {[dl_nextRef st]} ∪ s) (upd_dl_nextRef (Z.add 1) st))).
Proof.
  intros Hd [(F1 & F2 & F3 & F4 & F5) ? Fl J Di B L A Al S]. split; try done; simpl.
  - split_and!; try done; intros.
    + apply elem_of_union in H as [->%elem_of_singleton|H]; [lia|]. specialize (F1 _ H). lia.
    + specialize (F2 _ _ H). lia.
    + specialize (F3 _ _ H). lia.
    + map_cases; [lia|]. specialize (F4 _ _ _ H). lia.
    + map_cases; eauto.
  - intros Hst d' n' s' H. map_cases; eauto.
  - intros n' d' H. destruct (J _ _ H) as [s' Hs']. rewrite lookup_insert. case_decide; simplify_eq; eauto.
  - intros Hst d' n' s' H Ho. map_cases; eauto.
  - intros n' r H. destruct (B _ _ H) as (? & ? & Hl). split_and!; try done. intros Hr.
    apply Hl. apply elem_of_union in Hr as [->%elem_of_singleton|Hr]; [|done]. specialize (F3 _ _ H). lia.
  - intros r n' H [->%elem_of_singleton|Hr]%elem_of_union; [|eauto]. specialize (F2 _ _ H). lia.
  - intros r [->%elem_of_singleton|Hr]%elem_of_union.
    + right. exists d, n. apply lookup_insert_eq.
    + destruct (Al r Hr) as [?|(d' & n' & H)]; [by left|]. right. exists d', n'. by rewrite lookup_insert_ne by congruence.
  - intros d' n' r H. map_cases.
    + split_and!.
      * destruct (dl_listening st !! dl_nextRef st) eqn:E; [|done]. specialize (F2 _ _ E). lia.
      * intros n'' E. specialize (F3 _ _ E). lia.
      * intros d2 n2 H2. map_cases; [done|]. specialize (F4 _ _ _ H2). lia.
    + destruct (S _ _ _ H) as (Q1 & Q2 & U). split_and!; try done.
      intros d2 n2 H2. map_cases; eauto. specialize (F4 _ _ _ H). lia.
Qed.

Lemma dinv_dialOver d st : DialerInv st -> DialerInv (state (dialOver d) st).
Proof.
  intros I. pose proof I as [(F1 & F2 & F3 & F4 & F5) ? Fl J Di B L A Al S]. unfold dialOver. act_run.
  destruct (dl_dials st !! d) as [[n []]|] eqn:Hd; try done. act_run. split; try done; simpl.
  - split_and!; try done; intros; map_cases; eauto.
  - intros Hst d' n' s' [Hne H]%lookup_delete_Some. apply lookup_delete_Some. split; [|eauto].
    intros <-. pose proof (Fl Hst _ _ _ H). pose proof (Fl Hst _ _ _ Hd). congruence.
  - intros n' d' [Hne H]%lookup_delete_Some. destruct (J _ _ H) as [s' Hs']. exists s'.
    rewrite lookup_delete_ne; [done|]. intros <-. congruence.
  - intros Hst d' n' s' H Ho. map_cases. eauto.
  - intros r Hr. destruct (Al r Hr) as [?|(d' & n' & H)]; [by left|]. right. exists d', n'.
    by rewrite lookup_delete_ne by congruence.
  - intros d' n' r H. map_cases. destruct (S _ _ _ H) as (Q1 & Q2 & U). split_and!; try done.
    intros d2 n2 H2. map_cases. eauto.
Qed.

(** ** Closing *)

(** A bridge that is closed and no longer listened to. *)
Definition detach (r : Ref) (st : Dialer) : Dialer :=
  if decide (r ∈ dl_alive st) then upd_dl_listening (delete r) (upd_dl_alive (fun s => s ∖ {[r]}) st) else st.

Lemma unlisten_id r st : dl_listening st !! r = None -> upd_dl_listening (delete r) st = st.
Proof. intros H. destruct st. unfold upd_dl_listening. simpl in *. by rewrite delete_id. Qed.

(** Nobody holds the bridge: its 'closed' event changes nothing else. *)
Lemma state_bridgeCloses_unheld env r st :
  (forall n, dl_listening st !! r = Some n -> r ∈ dl_alive st -> dl_bridges st !! n <> Some r) ->
  state (bridgeCloses env r) st = detach r st.
Proof.
  intros H. unfold bridgeCloses, detach, onClosed. act_run. case_bool_decide; case_decide; try done. act_run.
  destruct (dl_listening st !! r) as [n|] eqn:E; [|by rewrite unlisten_id].
  act_run. rewrite bool_decide_eq_false_2 by eauto. done.
Qed.

Lemma state_closeObject_unheld env r c s st :
  (forall n, dl_listening st !! r = Some n -> r ∈ dl_alive st -> dl_bridges st !! n <> Some r) ->
  state (closeObject env r c s) st = detach r st.
Proof. intros H. unfold closeObject. act_run. by apply state_bridgeCloses_unheld. Qed.

Lemma dinv_drop n r st : dl_bridges st !! n = Some r -> DialerInv st ->
  DialerInv (detach r (upd_dl_bridges (delete n) st)).
Proof.
  intros Hn [(F1 & F2 & F3 & F4 & F5) St Fl J Di B L A Al S]. unfold detach. simpl.
  assert (forall n' r', delete n (dl_bridges st) !! n' = Some r' -> dl_bridges st !! n' = Some r') as D
    by (intros; by map_cases).
  assert (dl_stopped st = false) as Hns.
  { destruct (dl_stopped st) eqn:E; [|done]. destruct (St eq_refl) as (E' & _). by rewrite E' in Hn. }
  case_decide as Hr; split; simpl; try done; try (intros Hst; congruence).
  - split_and!; eauto; [set_solver|]. intros r' n' H. map_cases. eauto.
  - intros Hst d n' s H Ho. rewrite lookup_delete. case_decide; eauto.
  - intros n' r' H%D. destruct (B _ _ H) as (? & ? & Hl). split_and!; try done. intros Hr'.
    rewrite lookup_delete_ne by set_solver. set_solver.
  - intros r' n' H Hr'. map_cases; [|set_solver]. specialize (L _ _ H). set_solver.
  - intros r' Hr'. destruct (Al r') as [[n' H]|?]; [set_solver| |by right]. left. exists n'. map_cases; [set_solver|done].
  - intros d n' r' H. destruct (S _ _ _ H) as (? & Q & U). split_and!; eauto; [by map_cases|]. intros n2 E%D. by eapply Q.
  - split_and!; eauto.
  - intros Hst d n' s H Ho. rewrite lookup_delete. case_decide; eauto.
  - intros n' r' H%D. eauto.
  - intros r' n' H Hr'. specialize (L _ _ H Hr'). map_cases; [congruence|done].
  - intros r' Hr'. destruct (Al r') as [[n' H]|?]; [done| |by right]. left. exists n'. map_cases; [congruence|done].
  - intros d n' r' H. destruct (S _ _ _ H) as (? & Q & U). split_and!; eauto. intros n2 E%D. by eapply Q.
Qed.

Lemma drop_unheld n r st : DialerInv st -> dl_bridges st !! n = Some r ->
  forall n', dl_listening st !! r = Some n' -> r ∈ dl_alive st -> delete n (dl_bridges st) !! n' <> Some r.
Proof.
  intros I Hn n' Hl Ha. destruct (dv_bridge _ I _ _ Hn) as (_ & _ & E). rewrite E in Hl by done. simplify_eq.
  by rewrite lookup_delete_eq.
Qed.

Lemma dinv_closeBridge env n s st : DialerInv st -> DialerInv (state (closeBridge env n s) st).
Proof.
  intros H. unfold closeBridge. act_run. destruct (dl_bridges st !! n) as [r|] eqn:Hn; [|done]. act_run.
  rewrite state_closeObject_unheld.
  - change (DialerInv (detach r (upd_dl_bridges (delete n) (upd_dl_idleSince (delete n) st)))).
    apply dinv_drop; [done|by apply dinv_idleSince].
  - simpl. by apply drop_unheld.
Qed.

(** ** Redials *)

Lemma state_schedule env n st : dl_stopped st = false -> dl_redialAttempts st !! n = None ->
  state (scheduleReactiveRedial env n) st
  = upd_dl_redialTimers (<[n := de_now env + redialDelay (de_random env) 1]>) (upd_dl_redialAttempts (<[n := 1]>) st).
Proof. intros Hs Ha. unfold scheduleReactiveRedial. act_run. rewrite Hs, Ha. by act_run. Qed.

Lemma dinv_schedule env n st : dl_bridges st !! n = None -> dl_redialAttempts st !! n = None -> DialerInv st ->
  DialerInv (state (scheduleReactiveRedial env n) st).
Proof.
  intros Hb Ha H. destruct (dl_stopped st) eqn:Hs.
  { unfold scheduleReactiveRedial. act_run. by rewrite Hs. }
  rewrite state_schedule by done. destruct H as [F St Fl J Di B L A Al S]. split; try done; simpl.
  - intros E. congruence.
  - intros n' r H. destruct (B _ _ H) as (? & ? & ?). split_and!; try done. map_cases; congruence.
  - intros n' a H. map_cases; eauto.
Qed.

Lemma dinv_tearDown env n reason closing st : DialerInv st ->
  (forall r st', dl_bridges st !! n = Some r -> DialerInv st ->
     st' = upd_dl_idleSince (delete n) (upd_dl_bridges (delete n) st) -> state (closing r) st' = detach r st') ->
  DialerInv (state (tearDownBridge env n reason closing) st).
Proof.
  intros H Hc. unfold tearDownBridge. act_run. destruct (dl_bridges st !! n) as [r|] eqn:Hn; [|done].
  act_run. erewrite Hc by done.
  set (st1 := upd_dl_idleSince (delete n) (upd_dl_bridges (delete n) st)).
  assert (DialerInv (detach r st1)) as I.
  { change (DialerInv (detach r (upd_dl_bridges (delete n) (upd_dl_idleSince (delete n) st)))).
    apply dinv_drop; [done|by apply dinv_idleSince]. }
  assert (dl_bridges (detach r st1) !! n = None) as Hb.
  { unfold detach. case_decide; simpl; apply lookup_delete_eq. }
  assert (dl_redialAttempts (detach r st1) !! n = None) as Ha.
  { unfold detach. destruct (dv_bridge _ H _ _ Hn). case_decide; simpl; done. }
  unfold onProxyBridgeDown. destruct reason; act_run; try done; by apply dinv_schedule.
Qed.

Lemma dinv_runIdleCheck env f st : DialerInv st -> DialerInv (state (runIdleCheck env f) st).
Proof.
  intros H. unfold runIdleCheck. act_run. apply for_each_ind; [done|]. intros [n r] st' _ H'. simpl.
  destruct (0 <? f r); act_run; [by apply dinv_idleSince|]. unfold when. case_match; [|done].
  apply dinv_tearDown; [done|]. intros r' st2 Hn H2 ->. apply state_closeObject_unheld. simpl. by apply drop_unheld.
Qed.

(** The WebSocket of a bridge goes away: a registered bridge is torn down, one that
    is starting is only closed. *)
Lemma dinv_starting_dies r st : (forall n, dl_bridges st !! n <> Some r) -> dl_listening st !! r = None ->
  DialerInv st -> DialerInv (upd_dl_alive (fun s => s ∖ {[r]}) st).
Proof.
  intros Hn Hl [(F1 & F2 & F3 & F4 & F5) St Fl J Di B L A Al S]. split; simpl; try done.
  - split_and!; eauto. set_solver.
  - intros n' r' H. destruct (B _ _ H) as (? & ? & ?). split_and!; try done. set_solver.
  - intros r' n' H Hr'. apply L; set_solver.
  - intros r' Hr'. apply Al. set_solver.
Qed.

Lemma dinv_bridgeCloses env r st : DialerInv st -> DialerInv (state (bridgeCloses env r) st).
Proof.
  intros I. unfold bridgeCloses, onClosed. act_run. case_bool_decide as Hr; [|done]. act_run.
  destruct (dl_listening st !! r) as [n|] eqn:Hl.
  - pose proof (dv_listening _ I _ _ Hl Hr) as Hn. act_run. rewrite bool_decide_eq_true_2 by done.
    apply (dinv_drop n r (upd_dl_idleSince (delete n) st)) in Hn as D; [|by apply dinv_idleSince].
    unfold detach in D. rewrite decide_True in D by done. unfold tearDownBridge, onProxyBridgeDown. act_run. rewrite Hn.
    act_run. apply dinv_schedule; simpl; [apply lookup_delete_eq|by destruct (dv_bridge _ I _ _ Hn)|exact D].
  - apply dinv_starting_dies; try done. intros n Hn. destruct (dv_bridge _ I _ _ Hn) as (_ & _ & E).
    rewrite E in Hl; done.
Qed.

Lemma alive_bridgeCloses env r st : dl_alive (state (bridgeCloses env r) st) = dl_alive st ∖ {[r]}.
Proof.
  unfold bridgeCloses, onClosed, tearDownBridge, onProxyBridgeDown, scheduleReactiveRedial. act_cases; try done.
  apply bool_decide_eq_false in Heqb. set_solver.
Qed.
Lemma dials_bridgeCloses env r st : dl_dials (state (bridgeCloses env r) st) = dl_dials st.
Proof.
  unfold bridgeCloses, onClosed, tearDownBridge, onProxyBridgeDown, scheduleReactiveRedial. act_cases; done.
Qed.

(** ** Dialling *)

(** Before its first await a dial only records its failure, or reads the configuration. *)
Lemma state_dial env n st : exists f c, (f = id \/ exists x, f = <[n := x]>) /\
  state (dial env n) st = upd_dl_recentFailures f (upd_dl_config c st).
Proof.
  unfold Dialer.dial, getDialConfig, Dialer.recordFailure. act_cases.
  all: first
    [ exists id, id; split; [by left|by destruct st]
    | eexists id, (fun _ => Some _); split; [by left|reflexivity]
    | eexists (insert n _), id; split; [right; eexists; reflexivity|by destruct st]
    | eexists (insert n _), (fun _ => Some _); split; [right; eexists; reflexivity|reflexivity] ].
Qed.

Lemma result_dial env n st : result (dial env n) st = awaiting_outbound \/ exists b, result (dial env n) st = over b.
Proof. unfold Dialer.dial, getDialConfig. act_run. repeat (case_match; act_run); eauto. Qed.

(** A dial starts. *)
Lemma dinv_startDial n s st : DialerInv st -> dl_bridges st !! n = None -> dl_inflight st !! n = None ->
  (forall r, s <> awaiting_start r) ->
  DialerInv (upd_dl_inflight (<[n := dl_nextDial st]>) (upd_dl_dials (<[dl_nextDial st := mkDial n s]>)
    (upd_dl_nextDial (Z.add 1) st))).
Proof.
  intros [(F1 & F2 & F3 & F4 & F5) St Fl J Di B L A Al S] Hb Hi Hs. split; try done; simpl.
  - split_and!; try done; intros; map_cases; eauto; [by edestruct Hs|lia|]. specialize (F5 _ _ H). lia.
  - intros Hst d' n' s' H. apply lookup_insert_Some in H as [[<- ?]|[_ H]]; simplify_eq; [apply lookup_insert_eq|].
    pose proof (Fl Hst _ _ _ H). by rewrite lookup_insert_ne by congruence.
  - intros n' d' H. apply lookup_insert_Some in H as [[<- <-]|[_ H]]; [exists s; apply lookup_insert_eq|].
    destruct (J _ _ H) as [s' Hs']. exists s'. specialize (F5 _ _ Hs'). by rewrite lookup_insert_ne by lia.
  - intros Hst d' n' s' H Ho. map_cases; eauto.
  - intros r Hr. destruct (Al r Hr) as [?|(d' & n' & H)]; [by left|]. right. exists d', n'.
    specialize (F5 _ _ H). by rewrite lookup_insert_ne by lia.
  - intros d' n' r H. map_cases; [by edestruct Hs|]. destruct (S _ _ _ H) as (Q1 & Q2 & U). split_and!; try done.
    intros d2 n2 H2. map_cases; [by edestruct Hs|eauto].
Qed.

Lemma dinv_ensureBridge env n st : DialerInv st -> DialerInv (state (ensureBridge env n) st).
Proof.
  intros I. unfold Dialer.ensureBridge. act_run. destruct (dl_bridges st !! n) eqn:Hb; act_run; [by apply dinv_idleSince|].
  set (st1 := state (getRecentFailure env n) st).
  assert (DialerInv st1 /\ dl_bridges st1 = dl_bridges st /\ dl_inflight st1 = dl_inflight st /\
    dl_nextDial st1 = dl_nextDial st) as (I1 & Eb & Ei & Ed).
  { split; [by apply dinv_getRecentFailure|]. unfold st1, getRecentFailure. act_cases; done. }
  case_match; act_run; [done|]. destruct (dl_inflight st !! n) eqn:Hi; act_run; [done|].
  destruct (state_dial env n (upd_dl_nextDial (Z.add 1) st1)) as (f & c & Hf & ->). rewrite <-Ed.
  set (s := result _ _).
  pose (st2 := upd_dl_recentFailures f (upd_dl_config c st1)).
  change (DialerInv (upd_dl_inflight (<[n := dl_nextDial st2]>) (upd_dl_dials (<[dl_nextDial st2 := mkDial n s]>)
    (upd_dl_nextDial (Z.add 1) st2)))).
  apply dinv_startDial; simpl; [|by rewrite Eb|by rewrite Ei|].
  - unfold st2. destruct Hf as [->|[x ->]].
    + apply (dinv_config c) in I1. by destruct st1.
    + apply dinv_failure; [simpl; by rewrite Eb|by apply dinv_config].
  - intros r. destruct (result_dial env n (upd_dl_nextDial (Z.add 1) st1)) as [E|[b E]]; unfold s; by rewrite E.
Qed.

Lemma dialing_no_bridge d n s st : DialerInv st -> dl_dials st !! d = Some (mkDial n s) -> (forall b, s <> over b) ->
  dl_bridges st !! n = None.
Proof.
  intros I Hd Hs. destruct (dl_stopped st) eqn:E; [|by eapply dv_dialing].
  destruct (dv_stopped _ I E) as (-> & _). apply lookup_empty.
Qed.

(** A dial fails before its bridge is constructed, or after it was closed. *)
Lemma dinv_fail env d n s c m o st : DialerInv st -> dl_dials st !! d = Some (mkDial n s) -> (forall b, s <> over b) ->
  (forall r, s = awaiting_start r -> r ∉ dl_alive st) ->
  DialerInv (upd_dl_dials (<[d := mkDial n (over None)]>) (state (recordFailure env n c m o) st)).
Proof.
  intros I Hd Hs Hr. pose proof (dialing_no_bridge _ _ _ _ I Hd Hs).
  pose proof (dinv_recordFailure env n c m o st) as I'.
  destruct (state_recordFailure env n c m o st) as (f & _ & _ & E). rewrite E in *.
  apply (dinv_over d n s None); [done| |by apply I']. intros r ->. left. by apply Hr.
Qed.

Lemma dinv_outboundSettled env d a st : DialerInv st -> DialerInv (state (outboundSettled env d a) st).
Proof.
  intros I. unfold Dialer.outboundSettled, setStage. act_run. destruct (dl_dials st !! d) as [[n []]|] eqn:Hd; try done.
  destruct a as [e|[]]; act_run; [by eapply dinv_fail|].
  unfold newRef. act_run. apply dinv_awaitOpen; [done|by apply dinv_nextRef].
Qed.

Lemma dinv_openSettled env d a st : DialerInv st -> DialerInv (state (openSettled env d a) st).
Proof.
  intros I. unfold Dialer.openSettled, setStage. act_run. destruct (dl_dials st !! d) as [[n []]|] eqn:Hd; try done.
  destruct a as [e|[]]; act_run; [by eapply dinv_fail|].
  destruct (dl_stopped st); act_run; [by eapply dinv_over|].
  unfold newRef. act_run. by eapply dinv_awaitStart.
Qed.

(** The bridge of a dial is registered, dead or alive. *)
Lemma dinv_register d n r st : DialerInv st -> dl_dials st !! d = Some (mkDial n (awaiting_start r)) ->
  dl_stopped st = false ->
  DialerInv (upd_dl_dials (<[d := mkDial n (over (Some r))]>) (upd_dl_redialAttempts (delete n)
    (upd_dl_recentFailures (delete n) (upd_dl_listening (<[r := n]>) (upd_dl_bridges (<[n := r]>) st))))).
Proof.
  intros I Hd Hns. assert (dl_bridges st !! n = None) as Hn by (by eapply dv_dialing).
  destruct I as [(F1 & F2 & F3 & F4 & F5) St Fl J Di B L A Al S].
  destruct (S _ _ _ Hd) as (Sl & Sb & Su). split; simpl.
  - split_and!; try done; intros; map_cases; eauto.
  - congruence.
  - intros Hst d' n' s' H. map_cases; eauto.
  - intros n' d' H. destruct (J _ _ H) as [s' Hs']. rewrite lookup_insert. case_decide; simplify_eq; eauto.
  - intros Hst d' n' s' H Ho. apply lookup_insert_Some in H as [[<- ?]|[? H]]; [by edestruct Ho; simplify_eq|].
    rewrite lookup_insert_ne; [by eauto|]. intros <-. pose proof (Fl Hst _ _ _ H). pose proof (Fl Hst _ _ _ Hd). congruence.
  - intros n' r' H. apply lookup_insert_Some in H as [[<- <-]|[? H]].
    { by rewrite !lookup_delete_eq, lookup_insert_eq. }
    destruct (B _ _ H) as (? & ? & ?). rewrite !lookup_delete_ne, lookup_insert_ne by (done || congruence). done.
  - intros r' n' H Hr'. apply lookup_insert_Some in H as [[<- <-]|[? H]]; [apply lookup_insert_eq|].
    specialize (L _ _ H Hr'). by rewrite lookup_insert_ne by congruence.
  - intros n' a H. map_cases. eauto.
  - intros r' Hr'. destruct (Al _ Hr') as [[n' H]|(d' & n' & H)].
    + left. exists n'. by rewrite lookup_insert_ne by congruence.
    + destruct (decide (d' = d)) as [->|]; [left; exists n; simplify_eq; apply lookup_insert_eq|].
      right. exists d', n'. by rewrite lookup_insert_ne by done.
  - intros d' n' r' H. apply lookup_insert_Some in H as [[<- ?]|[? H]]; [done|].
    destruct (S _ _ _ H) as (Q1 & Q2 & U). assert (r <> r') by (intros <-; by destruct (Su _ _ H)). split_and!.
    + by rewrite lookup_insert_ne by done.
    + intros n2 H2. map_cases. by eapply Q2.
    + intros d2 n2 H2. map_cases. eauto.
Qed.

Lemma dinv_abandon env d n r st : DialerInv st -> dl_dials st !! d = Some (mkDial n (awaiting_start r)) ->
  DialerInv (upd_dl_dials (<[d := mkDial n (over None)]>) (state (bridgeCloses env r) st)).
Proof.
  intros I Hd. eapply dinv_over; [by rewrite dials_bridgeCloses| |by apply dinv_bridgeCloses].
  intros r' E. simplify_eq. left. rewrite alive_bridgeCloses. set_solver.
Qed.

Lemma dinv_startSettled env d e1 e2 st : DialerInv st -> DialerInv (state (startSettled env d e1 e2) st).
Proof.
  intros I. unfold Dialer.startSettled, setStage, closeObject. act_run.
  destruct (dl_dials st !! d) as [[n []]|] eqn:Hd; try done.
  assert (forall c m o, DialerInv (upd_dl_dials (<[d := mkDial n (over None)]>)
    (state (bridgeCloses env bridge) (state (recordFailure env n c m o) st)))) as Hfail.
  { intros c m o. apply dinv_abandon.
    - apply dinv_recordFailure; [by eapply dialing_no_bridge|done].
    - destruct (state_recordFailure env n c m o st) as (f & _ & _ & ->). done. }
  destruct e1 as [m|]; act_run; [done|]. destruct (dl_stopped st) eqn:Hst; act_run; [by apply dinv_abandon|].
  destruct e2 as [m|]; act_run; [done|].
  change (DialerInv (upd_dl_idleSince (<[n := de_now env]>) (upd_dl_dials (<[d := mkDial n (over (Some bridge))]>)
    (upd_dl_redialAttempts (delete n) (upd_dl_recentFailures (delete n) (upd_dl_listening (<[bridge := n]>)
    (upd_dl_bridges (<[n := bridge]>) st))))))). by apply dinv_idleSince, dinv_register.
Qed.

Lemma dinv_timers n st : DialerInv st -> DialerInv (upd_dl_redialTimers (delete n) st).
Proof.
  intros [F St Fl J Di B L A Al S]. split; try done; simpl.
  intros H. destruct (St H) as (? & -> & ? & ?). split_and!; try done.
Qed.

Lemma dinv_redialFires env n st : DialerInv st -> DialerInv (state (redialFires env n) st).
Proof.
  intros I. unfold Dialer.redialFires. act_run. case_match; [|done]. act_run.
  by apply dinv_ensureBridge, dinv_timers.
Qed.

(** ** The stop *)

Definition stopping (st : Dialer) : Dialer := upd_dl_idleCheck (fun _ => false) (upd_dl_stopped (fun _ => true) st).

Lemma stop_loop env l st : DialerInv st -> NoDup l.*1 -> (forall n r, (n, r) ∈ l -> dl_bridges st !! n = Some r) ->
  exists st', DialerInv st' /\ dl_stopped st' = dl_stopped st /\
    state (for_each (fun nr => modify (upd_dl_bridges (delete nr.1));; closeObject env nr.2 1000 "dialer shutdown") l)
      (stopping st) = stopping st' /\
    (forall n r, dl_bridges st' !! n = Some r -> dl_bridges st !! n = Some r /\ n ∉ l.*1).
Proof.
  revert st. induction l as [|[n r] l IH]; intros st I Nd Hl.
  { exists st. split_and!; try done. intros. split; [done|]. set_solver. }
  inversion Nd as [|? ? Hn Nd']; simplify_eq. assert (dl_bridges st !! n = Some r) as Hr by (apply Hl; left).
  destruct (IH (detach r (upd_dl_bridges (delete n) st))) as (st' & I' & Hs & E & Hb).
  - by apply dinv_drop.
  - done.
  - intros n' r' H. assert (n' <> n) by (intros ->; apply Hn, list_elem_of_fmap; by exists (n, r')).
    unfold detach. case_decide; simpl; rewrite lookup_delete_ne by done; apply Hl; by right.
  - exists st'. split_and!; [done| | |].
    + rewrite Hs. unfold detach. by case_decide.
    + rewrite <-E. cbn [for_each fst snd]. rewrite !state_bind, state_modify, state_closeObject_unheld.
      * f_equal. unfold detach. simpl. by case_decide.
      * simpl. by apply drop_unheld.
    + intros n' r' H. destruct (Hb _ _ H) as [H1 H2].
      assert (delete n (dl_bridges st) !! n' = Some r') as H3 by (unfold detach in H1; by case_decide).
      apply lookup_delete_Some in H3 as [? H3]. split; [done|]. simpl. set_solver.
Qed.

Lemma dinv_stop env st : DialerInv st -> DialerInv (state (stop env) st).
Proof.
  intros I. unfold stop. act_run.
  destruct (stop_loop env (map_to_list (dl_bridges st)) st) as (st' & I' & Hs & E & Hb);
    [done|apply NoDup_fst_map_to_list|by intros ? ? ?%elem_of_map_to_list|].
  unfold stopping in E at 1. rewrite E.
  assert (dl_bridges st' = ∅) as Eb.
  { apply map_empty. intros n. apply eq_None_not_Some. intros [r H]. destruct (Hb _ _ H) as [H1 H2].
    apply H2, list_elem_of_fmap. exists (n, r). split; [done|]. by apply elem_of_map_to_list. }
  destruct I' as [F St Fl J Di B L A Al S]. split; simpl; try done.
  intros n r H. by rewrite Eb in H.
Qed.

Lemma dinv_run env ev st : DialerInv st -> DialerInv (state (dialer_run env ev) st).
Proof.
  intros I. unfold Dialer.dialer_run. destruct ev; act_run.
  - by apply dinv_ensureBridge.
  - by apply dinv_getRecentFailure.
  - by apply dinv_closeBridge.
  - by apply dinv_outboundSettled.
  - by apply dinv_openSettled.
  - by apply dinv_startSettled.
  - by apply dinv_dialOver.
  - by apply dinv_bridgeCloses.
  - by apply dinv_redialFires.
  - destruct (dl_idleCheck st); [by apply dinv_runIdleCheck|done].
  - by apply dinv_stop.
Qed.

Lemma dialer_reachable_inv st :
  dialer_reachable url_hostname sanitizeForLog redactSensitiveText st -> DialerInv st.
Proof.
  intros [ttl H]. remember (newDialer ttl) as st0 eqn:E.
  assert (DialerInv st0) as I by (subst; apply newDialer_inv). clear E.
  induction H as [|? ? ? [? ? ? _] _ IH]; [done|]. by apply IH, dinv_run.
Qed.
End ops.
