(* ===== verification/DialerProps.v ===== *)
(** * The proxy-tunnel dialer: what it promises

    One dial per node, failures that suppress dials, redials, dead bridges, and
    the end of every dial. *)

From S2P Require Import Prelude Dialer DialerSteps.

(** A run: what happens, and what the environment answers meanwhile. *)
Definition run_one (f : DialEnv -> DialerEvent -> act Dialer DialEffect unit) (st : Dialer) (e : DialEnv * DialerEvent) :=
  state (f e.1 e.2) st.

Section props.
Context (url_hostname : string -> option string) (sanitizeForLog redactSensitiveText : string -> string).
Abbreviation ensureBridge := (ensureBridge sanitizeForLog redactSensitiveText).
Abbreviation dialer_run := (dialer_run url_hostname sanitizeForLog redactSensitiveText).
Abbreviation dialer_reachable := (dialer_reachable url_hostname sanitizeForLog redactSensitiveText).
Abbreviation runs l st := (foldl (run_one dialer_run) st l).

Lemma runs_reachable l st : Forall (fun e => 0 <= de_random e.1 < 2 ^ 53) l -> dialer_reachable st ->
  dialer_reachable (runs l st).
Proof.
  revert st. induction l as [|e l IH]; intros st Hl Hst; [done|]. inversion Hl; simplify_eq. simpl. apply IH; [done|].
  destruct Hst as [ttl Hr]. exists ttl. eapply rtc_r; [exact Hr|]. by constructor.
Qed.

Lemma runs_inv l st : DialerInv st -> DialerInv (runs l st).
Proof. revert st. induction l as [|e l IH]; intros st H; [done|]. simpl. apply IH. by apply dinv_run. Qed.

(** ** One dial, one bridge *)

(** C37: While the dialer runs, a node has at most one dial, the one callers join, and
    none past its [finally] callback; it has no bridge while it is dialled. A bridge
    that was constructed and not closed is held by the map under one node or by the
    one dial that is starting it, so none leaks. A stopped dialer holds no bridge,
    no timer and no redial count. *)
Theorem dialer_holds_what_it_dials st : dialer_reachable st ->
  (dl_stopped st = false -> forall d n s, dl_dials st !! d = Some (mkDial n s) ->
     dl_inflight st !! n = Some d /\ ((forall b, s <> over b) -> dl_bridges st !! n = None)) /\
  (forall r, r ∈ dl_alive st ->
     (exists n, forall n', dl_bridges st !! n' = Some r <-> n' = n) \/
     ((forall n, dl_bridges st !! n <> Some r) /\
      exists d n, forall d' n', dl_dials st !! d' = Some (mkDial n' (awaiting_start r)) <-> d' = d /\ n' = n)) /\
  (dl_stopped st = true -> dl_bridges st = ∅ /\ dl_redialTimers st = ∅ /\ dl_redialAttempts st = ∅).
Proof.
  intros I%dialer_reachable_inv. split_and!.
  - intros Hs d n s Hd. split; [by eapply dv_flight|]. intros. by eapply dv_dialing.
  - intros r Hr. destruct (dv_alive _ I r Hr) as [[n Hn]|(d & n & Hd)]; [left|right].
    + exists n. intros n'. split; [|by intros ->]. intros Hn'.
      destruct (dv_bridge _ I _ _ Hn) as (_ & _ & E1), (dv_bridge _ I _ _ Hn') as (_ & _ & E2).
      specialize (E1 Hr). specialize (E2 Hr). congruence.
    + destruct (dv_starting _ I _ _ _ Hd) as (_ & Hb & U). split; [done|]. exists d, n. intros d' n'. split.
      * intros Hd'. pose proof (U _ _ Hd'). by simplify_eq.
      * by intros [-> ->].
  - intros Hs. by destruct (dv_stopped _ I Hs) as (? & ? & ? & _).
Qed.

(** ** Redials *)

Lemma redialDelay_first r : 0 <= r < 2 ^ 53 -> 5000 <= redialDelay r 1 < 6500.
Proof.
  intros [H1 H2]. unfold redialDelay. change (redialBase 1) with 5000.
  pose proof (Z.div_pos (r * 5000 * 3) (10 * 2 ^ 53)).
  assert (r * 5000 * 3 / (10 * 2 ^ 53) < 1500) by (apply Z.div_lt_upper_bound; lia). lia.
Qed.

(** The timers armed by a call are those of a first attempt, it gives up no node, and
    a bridge goes down because it was idle or because the remote closed it. *)
Definition expected (e : DialEffect) : Prop :=
  match e with
  | DE_redialExhausted _ => False
  | DE_closed _ reason | DE_bridgeDown _ reason => reason = R_idle \/ reason = R_remote_closed
  | _ => True
  end.
Definition first_redials (env : DialEnv) (st st' : Dialer) : Prop :=
  forall n t, dl_redialTimers st' !! n = Some t ->
    dl_redialTimers st !! n = Some t \/ t = de_now env + redialDelay (de_random env) 1.
Definition calm {A} (env : DialEnv) (m : act Dialer DialEffect A) (st : Dialer) : Prop :=
  first_redials env st (state m st) /\ Forall expected (effects m st).

Lemma first_redials_eq env st st' : dl_redialTimers st' = dl_redialTimers st -> first_redials env st st'.
Proof. intros E n t. rewrite E. by left. Qed.

Lemma calm_bind {A B} env (m : act Dialer DialEffect A) (k : A -> act Dialer DialEffect B) st :
  calm env m st -> calm env (k (result m st)) (state m st) -> calm env (m ≫= k) st.
Proof.
  intros [H1 H2] [H3 H4]. unfold calm. rewrite state_bind, effects_bind. split; [|by apply Forall_app].
  intros n t H. destruct (H3 n t H) as [H'|]; [by apply H1|by right].
Qed.
Lemma calm_modify env f st : dl_redialTimers (f st) = dl_redialTimers st -> calm env (modify f) st.
Proof. intros E. split; [by apply first_redials_eq|constructor]. Qed.
Lemma calm_tell env e st : expected e -> calm env (tell e) st.
Proof. intros. split; [by apply first_redials_eq|by constructor]. Qed.
Lemma calm_pure {A} env (m : act Dialer DialEffect A) st : state m st = st -> effects m st = [] -> calm env m st.
Proof. intros E1 E2. unfold calm. rewrite E1, E2. split; [by apply first_redials_eq|constructor]. Qed.

Lemma calm_for_each {A} env (f : A -> act Dialer DialEffect unit) (P : Dialer -> Prop) l st :
  P st -> (forall x st', P st' -> P (state (f x) st') /\ calm env (f x) st') -> calm env (for_each f l) st.
Proof.
  intros Hst Hf. revert st Hst. induction l as [|x l IH]; intros st Hst; simpl; [by apply calm_pure|].
  destruct (Hf x st Hst). apply calm_bind; [done|]. by apply IH.
Qed.

(** Steps through a call up to the calls of other operations. *)
Ltac calm_step :=
  first
    [ done
    | apply calm_pure; reflexivity
    | apply calm_modify; reflexivity
    | apply calm_tell; by simpl; auto
    | apply calm_bind
    | progress simpl
    | case_match ].

Lemma calm_recordFailure env n c m o st : calm env (recordFailure sanitizeForLog redactSensitiveText env n c m o) st.
Proof. unfold recordFailure, when. repeat calm_step. Qed.
Lemma calm_getRecentFailure env n st : calm env (getRecentFailure env n) st.
Proof. unfold getRecentFailure. repeat calm_step. Qed.
Lemma calm_dial env n st : calm env (dial sanitizeForLog redactSensitiveText env n) st.
Proof. unfold dial, getDialConfig. repeat first [apply calm_recordFailure | calm_step]. Qed.
Lemma calm_ensureBridge env n st : calm env (ensureBridge env n) st.
Proof. unfold Dialer.ensureBridge. repeat first [apply calm_getRecentFailure | apply calm_dial | calm_step]. Qed.
Lemma calm_outboundSettled env d a st :
  calm env (outboundSettled url_hostname sanitizeForLog redactSensitiveText env d a) st.
Proof. unfold outboundSettled, setStage, newRef. repeat first [apply calm_recordFailure | calm_step]. Qed.
Lemma calm_openSettled env d a st :
  calm env (openSettled url_hostname sanitizeForLog redactSensitiveText env d a) st.
Proof. unfold openSettled, setStage, newRef. repeat first [apply calm_recordFailure | calm_step]. Qed.

(** ** Closing *)

(** A call that changes neither the timers nor the counts of redials. *)
Lemma calm_closeObject_unheld env r c s st :
  (forall n, dl_listening st !! r = Some n -> r ∈ dl_alive st -> dl_bridges st !! n <> Some r) ->
  calm env (closeObject env r c s) st.
Proof.
  intros H. unfold closeObject. apply calm_bind; [by repeat calm_step|]. act_run.
  unfold calm. rewrite state_bridgeCloses_unheld by done. split.
  - apply first_redials_eq. unfold detach. by case_decide.
  - unfold bridgeCloses, onClosed. act_run. case_bool_decide; [|constructor]. act_run.
    destruct (dl_listening st !! r) eqn:E; [|constructor]. act_run. rewrite bool_decide_eq_false_2 by eauto. constructor.
Qed.

Lemma calm_schedule env n st : dl_redialAttempts st !! n = None -> calm env (scheduleReactiveRedial env n) st.
Proof.
  intros H. unfold scheduleReactiveRedial. apply calm_bind; [repeat calm_step|]. act_run. rewrite H.
  case_match; [by repeat calm_step|]. apply calm_bind; [repeat calm_step|]. split; [|constructor].
  intros n' t Ht. simpl in Ht. map_cases; auto.
Qed.

Lemma calm_tearDown env n reason closing st : reason = R_idle \/ reason = R_remote_closed ->
  dl_redialAttempts st !! n = None ->
  (forall r st', dl_bridges st !! n = Some r -> st' = upd_dl_idleSince (delete n) (upd_dl_bridges (delete n) st) ->
     calm env (closing r) st' /\ dl_redialAttempts (state (closing r) st') = dl_redialAttempts st') ->
  calm env (tearDownBridge env n reason closing) st.
Proof.
  intros Hre Ha Hc. unfold tearDownBridge. apply calm_bind; [repeat calm_step|]. act_run.
  destruct (dl_bridges st !! n) as [r|] eqn:Hn; [|repeat calm_step]. do 2 (apply calm_bind; [repeat calm_step|]).
  destruct (Hc r _ eq_refl eq_refl) as [H1 H2].
  apply calm_bind; [exact H1|]. do 3 (apply calm_bind; [unfold when; repeat calm_step|]). act_run.
  unfold onProxyBridgeDown. destruct reason; try (by repeat calm_step); apply calm_schedule; by rewrite H2.
Qed.

Lemma calm_bridgeCloses env r st : DialerInv st -> calm env (bridgeCloses env r) st.
Proof.
  intros I. unfold bridgeCloses, onClosed. apply calm_bind; [repeat calm_step|]. act_run.
  case_bool_decide as Hr; [|repeat calm_step]. do 2 (apply calm_bind; [repeat calm_step|]). act_run.
  destruct (dl_listening st !! r) as [n|] eqn:Hl; [|repeat calm_step].
  pose proof (dv_listening _ I _ _ Hl Hr) as Hn. apply calm_bind; [repeat calm_step|]. act_run.
  rewrite bool_decide_eq_true_2 by done. apply calm_tearDown; [auto|by destruct (dv_bridge _ I _ _ Hn)|].
  intros r' st' _ ->. split; [repeat calm_step|done].
Qed.

Lemma calm_closeBridge env n s st : DialerInv st -> calm env (closeBridge env n s) st.
Proof.
  intros I. unfold closeBridge. apply calm_bind; [repeat calm_step|]. act_run.
  destruct (dl_bridges st !! n) as [r|] eqn:Hn; [|repeat calm_step]. do 2 (apply calm_bind; [repeat calm_step|]). act_run.
  apply calm_closeObject_unheld. simpl. by apply drop_unheld.
Qed.

Lemma calm_runIdleCheck env f st : DialerInv st -> calm env (runIdleCheck env f) st.
Proof.
  intros I. unfold runIdleCheck. apply calm_bind; [repeat calm_step|]. act_run.
  apply (calm_for_each _ _ DialerInv); [done|]. intros [n r] st' I'. simpl.
  destruct (0 <? f r); [split; [by apply dinv_idleSince|by repeat calm_step]|].
  assert (forall r' st2, dl_bridges st' !! n = Some r' ->
    st2 = upd_dl_idleSince (delete n) (upd_dl_bridges (delete n) st') ->
    forall n', dl_listening st2 !! r' = Some n' -> r' ∈ dl_alive st2 -> dl_bridges st2 !! n' <> Some r') as Hu.
  { intros r' st2 Hn ->. simpl. by apply drop_unheld. }
  split.
  - act_run. unfold when. case_match; [|done]. apply dinv_tearDown; [done|]. intros r' st2 Hn _ ->.
    apply state_closeObject_unheld. by eapply Hu.
  - apply calm_bind; [repeat calm_step|]. act_run. unfold when. case_match; [|by apply calm_pure].
    destruct (dl_bridges st' !! n) as [r1|] eqn:Hn; [|unfold tearDownBridge; apply calm_bind; [repeat calm_step|];
      act_run; rewrite Hn; by apply calm_pure].
    apply calm_tearDown; [auto|by destruct (dv_bridge _ I' _ _ Hn)|]. intros r' st2 Hn' ->. split.
    + apply calm_closeObject_unheld. eapply Hu; [congruence|done].
    + rewrite state_closeObject_unheld by (eapply Hu; [congruence|done]). unfold detach. by case_decide.
Qed.

Lemma calm_closeObject_stopped env r c s st : dl_stopped st = true ->
  dl_stopped (state (closeObject env r c s) st) = true /\ calm env (closeObject env r c s) st.
Proof.
  intros H. unfold closeObject, bridgeCloses, onClosed, tearDownBridge, onProxyBridgeDown, scheduleReactiveRedial. split; [|split].
  - act_cases; congruence.
  - intros n t. act_cases; try congruence; auto.
  - act_cases; try congruence; by repeat constructor.
Qed.

Lemma calm_stop env st : calm env (stop env) st.
Proof.
  unfold stop. do 3 (apply calm_bind; [repeat calm_step|]). apply calm_bind.
  - apply (calm_for_each _ _ (fun st => dl_stopped st = true)); [done|]. intros [n r] st' H'.
    destruct (calm_closeObject_stopped env r 1000 "dialer shutdown" (upd_dl_bridges (delete n) st')) as [H1 H2]; [done|].
    split; [act_run; done|]. apply calm_bind; [by apply calm_modify|done].
  - split; [|act_run; repeat constructor]. intros n t. act_run. by rewrite lookup_empty.
Qed.
Lemma calm_startSettled env d e1 e2 st : DialerInv st ->
  calm env (startSettled sanitizeForLog redactSensitiveText env d e1 e2) st.
Proof.
  intros I. unfold startSettled, setStage. apply calm_bind; [repeat calm_step|]. act_run.
  destruct (dl_dials st !! d) as [[n []]|] eqn:Hd; try (by apply calm_pure).
  destruct (dv_starting _ I _ _ _ Hd) as (_ & Hb & _).
  assert (forall c m o c' s, calm env
    (recordFailure sanitizeForLog redactSensitiveText env n c m o;;
     closeObject env bridge c' s;; modify (upd_dl_dials (<[d := mkDial n (over None)]>))) st) as Hfail.
  { intros c m o c' s. apply calm_bind; [apply calm_recordFailure|]. apply calm_bind; [|repeat calm_step].
    apply calm_closeObject_unheld. destruct (state_recordFailure sanitizeForLog redactSensitiveText env n c m o st)
      as (f & _ & _ & ->). simpl. auto. }
  destruct e1; [apply Hfail|]. destruct (dl_stopped st).
  - apply calm_bind; [apply calm_closeObject_unheld; auto|repeat calm_step].
  - destruct e2; [apply Hfail|repeat calm_step].
Qed.

Lemma calm_redialFires env n st : calm env (redialFires sanitizeForLog redactSensitiveText env n) st.
Proof.
  unfold redialFires. apply calm_bind; [repeat calm_step|]. act_run. case_match; [|repeat calm_step].
  apply calm_bind; [|apply calm_bind; [apply calm_ensureBridge|repeat calm_step]].
  split; [|constructor]. intros n' t. act_run. intros Ht. map_cases. auto.
Qed.

Lemma calm_run env ev st : DialerInv st -> calm env (dialer_run env ev) st.
Proof.
  intros I. unfold Dialer.dialer_run. destruct ev.
  - apply calm_bind; [apply calm_ensureBridge|repeat calm_step].
  - apply calm_bind; [apply calm_getRecentFailure|repeat calm_step].
  - by apply calm_closeBridge.
  - apply calm_outboundSettled.
  - apply calm_openSettled.
  - by apply calm_startSettled.
  - unfold dialOver. apply calm_bind; [repeat calm_step|]. act_run. repeat calm_step.
  - by apply calm_bridgeCloses.
  - apply calm_redialFires.
  - apply calm_bind; [repeat calm_step|]. act_run. case_match; [by apply calm_runIdleCheck|repeat calm_step].
  - apply calm_stop.
Qed.

(** The exponential backoff never backs off. In every reachable state the redial
    count of a node is absent or 1, each timer that an event arms is due between 5
    and 6.5 seconds later, and no event ever gives a node up as exhausted: the count
    grows only when a bridge goes down, and a bridge that was up cleared it. *)
Theorem redial_never_backs_off st env ev : dialer_reachable st -> 0 <= de_random env < 2 ^ 53 ->
  (forall n a, dl_redialAttempts st !! n = Some a -> a = 1) /\
  (forall n t, dl_redialTimers (state (dialer_run env ev) st) !! n = Some t ->
     dl_redialTimers st !! n = Some t \/ 5000 <= t - de_now env < 6500) /\
  (forall n, DE_redialExhausted n ∉ effects (dialer_run env ev) st).
Proof.
  intros I%dialer_reachable_inv Hr. destruct (calm_run env ev st I) as [H1 H2]. split_and!.
  - apply I.
  - intros n t Ht. destruct (H1 n t Ht) as [?| ->]; [by left|right]. pose proof (redialDelay_first _ Hr). lia.
  - intros n Hn. rewrite Forall_forall in H2. by apply (H2 _ Hn).
Qed.

(** A bridge goes down as idle or as closed by the remote: it emits 'closed' without
    an argument, so no close code reaches [classifyCloseCode]. *)
Lemma bridge_down_reasons st env ev n reason : dialer_reachable st ->
  DE_bridgeDown n reason ∈ effects (dialer_run env ev) st \/ DE_closed n reason ∈ effects (dialer_run env ev) st ->
  reason = R_idle \/ reason = R_remote_closed.
Proof.
  intros I%dialer_reachable_inv H. destruct (calm_run env ev st I) as [_ He]. rewrite Forall_forall in He.
  by destruct H as [H|H]; apply He in H.
Qed.

(** ** Remembered failures *)

(** For a minute after a dial failed nobody dials the node: whoever asks for its
    bridge gets nothing, and nothing changes; when the minute is over the failure is
    forgotten and a dial starts, or the one in flight is joined. *)
Theorem failure_suppresses_dials st env n f : dl_bridges st !! n = None -> dl_recentFailures st !! n = Some f ->
  (de_now env - df_ts f <= FAILURE_CACHE_TTL_MS -> ensureBridge env n st = (E_nothing, st, [])) /\
  (FAILURE_CACHE_TTL_MS < de_now env - df_ts f -> exists d, result (ensureBridge env n) st = E_dial d /\
     dl_inflight (state (ensureBridge env n) st) !! n = Some d).
Proof.
  intros Hb Hf. unfold Dialer.ensureBridge. split; intros Ht.
  - unfold getRecentFailure, mbind, act_bind, get. simpl. rewrite Hb. simpl. rewrite Hf. simpl.
    assert (FAILURE_CACHE_TTL_MS <? de_now env - df_ts f = false) as -> by lia. done.
  - act_run. rewrite Hb. act_run. unfold getRecentFailure. act_run. rewrite Hf.
    assert (FAILURE_CACHE_TTL_MS <? de_now env - df_ts f = true) as -> by lia. act_run.
    destruct (dl_inflight st !! n) as [d|] eqn:E; act_run; [by exists d|].
    eexists. split; [done|]. by rewrite lookup_insert_eq.
Qed.

(** ** The end of a dial *)

(** How many answers a dial still waits for. *)
Definition rank (x : option Dial) : nat :=
  match x with
  | None => 0
  | Some (mkDial _ (over _)) => 1
  | Some (mkDial _ (awaiting_start _)) => 2
  | Some (mkDial _ (awaiting_open _)) => 3
  | Some (mkDial _ awaiting_outbound) => 4
  end.

(** The answers of dial [d], and what is left to wait for after each. *)
Definition answer (d : Z) (ev : DialerEvent) (k : nat) : Prop :=
  match ev with
  | EvOutbound d' _ => d' = d /\ k = 3%nat
  | EvOpen d' _ => d' = d /\ k = 2%nat
  | EvStart d' _ _ => d' = d /\ k = 1%nat
  | EvOver d' => d' = d /\ k = 0%nat
  | _ => False
  end.

Definition same_dials (st st' : Dialer) : Prop :=
  dl_dials st' = dl_dials st /\ dl_nextDial st' = dl_nextDial st /\ dl_nextRef st' = dl_nextRef st.

Lemma same_bridgeCloses env r st : same_dials st (state (bridgeCloses env r) st).
Proof.
  unfold bridgeCloses, onClosed, tearDownBridge, onProxyBridgeDown, scheduleReactiveRedial, same_dials.
  act_cases; done.
Qed.
Lemma same_closeObject env r c s st : same_dials st (state (closeObject env r c s) st).
Proof. unfold closeObject. act_run. apply same_bridgeCloses. Qed.
Lemma same_trans st1 st2 st3 : same_dials st1 st2 -> same_dials st2 st3 -> same_dials st1 st3.
Proof. unfold same_dials. intuition congruence. Qed.

Lemma same_closing env ev st :
  match ev with EvClose _ _ | EvBridgeDies _ | EvIdleCheck _ | EvStop => True | _ => False end ->
  same_dials st (state (dialer_run env ev) st).
Proof.
  intros Hev. unfold Dialer.dialer_run. destruct ev; try done.
  - unfold closeBridge. act_run. destruct (dl_bridges st !! node); [|done]. act_run.
    eapply same_trans; [|apply same_closeObject]. done.
  - apply same_bridgeCloses.
  - act_run. destruct (dl_idleCheck st); [|done]. unfold runIdleCheck. act_run. apply for_each_ind; [done|].
    intros [n r] st' _ H. eapply same_trans; [exact H|]. simpl. destruct (0 <? activeStreams r); [done|].
    act_run. unfold when. case_match; [|done]. unfold tearDownBridge, onProxyBridgeDown. act_run.
    destruct (dl_bridges st' !! n); [|done]. act_run. eapply same_trans; [|apply same_closeObject]. done.
  - unfold stop. act_run.
    assert (same_dials st (state (for_each (fun nr => modify (upd_dl_bridges (delete nr.1));;
      closeObject env nr.2 1000 "dialer shutdown") (map_to_list (dl_bridges st)))
      (upd_dl_idleCheck (fun _ => false) (upd_dl_stopped (fun _ => true) st)))) as H.
    { apply for_each_ind; [done|]. intros [n r] st' _ H. eapply same_trans; [exact H|]. act_run.
      eapply same_trans; [|apply same_closeObject]. done. }
    exact H.
Qed.

Lemma dials_ensureBridge env n st : exists f, dl_dials (state (ensureBridge env n) st) = f (dl_dials st) /\
  dl_nextDial st <= dl_nextDial (state (ensureBridge env n) st) /\
  dl_nextRef (state (ensureBridge env n) st) = dl_nextRef st /\
  (forall x d, d < dl_nextDial st -> f x !! d = x !! d).
Proof.
  unfold Dialer.ensureBridge. act_run. destruct (dl_bridges st !! n); act_run; [by exists id|].
  assert (same_dials st (state (getRecentFailure env n) st)) as (E1 & E2 & E3).
  { unfold getRecentFailure, same_dials. act_cases; done. }
  case_match; act_run; [by exists id; rewrite E1, E2, E3|].
  destruct (dl_inflight st !! n); act_run; [by exists id; rewrite E1, E2, E3|].
  edestruct (state_dial sanitizeForLog redactSensitiveText env n) as (f & c & _ & ->). simpl.
  rewrite E1, E2, E3. eexists. split_and!; [reflexivity|lia|done|].
  intros x d Hd. by rewrite lookup_insert_ne by lia.
Qed.

(** An answer moves its own dial one stage on, or finds it elsewhere. *)
Definition advances (d : Z) (k : nat) (st st' : Dialer) : Prop :=
  dl_nextDial st' = dl_nextDial st /\
  ((dl_dials st' = dl_dials st /\ rank (dl_dials st !! d) <> (k + 1)%nat) \/
   (exists y, dl_dials st' = partial_alter (fun _ => y) d (dl_dials st) /\ (rank y <= k)%nat /\
      rank (dl_dials st !! d) = (k + 1)%nat)).

Lemma dials_recordFailure env n c m o st :
  dl_dials (state (recordFailure sanitizeForLog redactSensitiveText env n c m o) st) = dl_dials st /\
  dl_nextDial (state (recordFailure sanitizeForLog redactSensitiveText env n c m o) st) = dl_nextDial st.
Proof. by destruct (state_recordFailure sanitizeForLog redactSensitiveText env n c m o st) as (f & _ & _ & ->). Qed.

Ltac advance_with y := right; exists y; split_and!; [done|simpl; lia|done].

Lemma run_advances env ev st d k : answer d ev k -> advances d k st (state (dialer_run env ev) st).
Proof.
  unfold Dialer.dialer_run, advances. destruct ev; try done; simpl; intros [-> ->].
  - unfold outboundSettled, setStage, newRef. act_run. destruct (dl_dials st !! d) as [[n []]|] eqn:Hd;
      try (split; [done|left; split; [done|simpl; lia]]).
    destruct answer0 as [e|[]]; act_run.
    + edestruct dials_recordFailure as [-> ->]. split; [done|]. advance_with (Some (mkDial n (over None))).
    + split; [done|]. advance_with (Some (mkDial n (awaiting_open (dl_nextRef st)))).
  - unfold openSettled, setStage, newRef. act_run. destruct (dl_dials st !! d) as [[n []]|] eqn:Hd;
      try (split; [done|left; split; [done|simpl; lia]]).
    destruct answer0 as [e|[]]; act_run; [|destruct (dl_stopped st); act_run].
    + edestruct dials_recordFailure as [-> ->]. split; [done|]. advance_with (Some (mkDial n (over None))).
    + split; [done|]. advance_with (Some (mkDial n (over None))).
    + split; [done|]. advance_with (Some (mkDial n (awaiting_start (dl_nextRef st)))).
  - unfold startSettled, setStage. act_run. destruct (dl_dials st !! d) as [[n []]|] eqn:Hd;
      try (split; [done|left; split; [done|simpl; lia]]).
    destruct startError; [|destruct (dl_stopped st); [|destruct registerError]]; act_run.
    1,2,3: edestruct same_closeObject as (-> & -> & _).
    1,3: edestruct dials_recordFailure as [-> ->].
    all: split; [done|]. 1-3: advance_with (Some (mkDial n (over None))).
    advance_with (Some (mkDial n (over (Some bridge)))).
  - unfold dialOver. act_run. destruct (dl_dials st !! d) as [[n []]|] eqn:Hd;
      try (split; [done|left; split; [done|simpl; lia]]).
    act_run. split; [done|]. advance_with (None : option Dial).
Qed.

(** Other events leave the dials that exist alone. *)
Lemma dials_other env ev st : (forall d k, ~ answer d ev k) ->
  dl_nextDial st <= dl_nextDial (state (dialer_run env ev) st) /\
  (forall d, d < dl_nextDial st -> dl_dials (state (dialer_run env ev) st) !! d = dl_dials st !! d).
Proof.
  intros Hno.
  assert (forall st', same_dials st st' -> dl_nextDial st <= dl_nextDial st' /\
    forall d, d < dl_nextDial st -> dl_dials st' !! d = dl_dials st !! d) as Hsame
    by (intros st' (-> & -> & _); done).
  destruct ev as [n|n|n s|d' a|d' a|d' e1 e2|d'|r|n|f|];
    try (by edestruct Hno); try (by apply Hsame, same_closing).
  - destruct (dials_ensureBridge env n st) as (f & E1 & E2 & _ & E3). unfold Dialer.dialer_run. act_run.
    rewrite E1. auto.
  - apply Hsame. unfold Dialer.dialer_run, getRecentFailure, same_dials. act_cases; done.
  - unfold Dialer.dialer_run, redialFires. act_run. destruct (dl_redialTimers st !! n); [|by apply Hsame]. act_run.
    destruct (dials_ensureBridge env n (upd_dl_redialTimers (delete n) st)) as (f & E1 & E2 & _ & E3).
    rewrite E1. auto.
Qed.

Lemma rank_run env ev st d : d < dl_nextDial st ->
  (rank (dl_dials (state (dialer_run env ev) st) !! d) <= rank (dl_dials st !! d))%nat /\
  dl_nextDial st <= dl_nextDial (state (dialer_run env ev) st) /\
  (forall k, answer d ev k -> (rank (dl_dials st !! d) <= k + 1)%nat ->
     (rank (dl_dials (state (dialer_run env ev) st) !! d) <= k)%nat).
Proof.
  intros Hd. assert ((exists d' k, answer d' ev k) \/ forall d k, ~ answer d ev k) as [(d' & k & H)|Hno].
  { destruct ev; simpl; try (by right; intros ? ? ?); left; eauto. }
  - assert (forall k', answer d ev k' -> k' = k) as Hk by (destruct ev; simpl in *; try done; intuition congruence).
    destruct (run_advances env ev st d' k H) as [-> [[-> Hne]|(y & -> & Hy & Hx)]].
    + split_and!; [done|lia|]. intros k' H'. assert (d' = d) as -> by (destruct ev; simpl in *; intuition congruence).
      rewrite (Hk _ H'). lia.
    + destruct (decide (d' = d)) as [->|Hne].
      * rewrite lookup_partial_alter_eq. split_and!; [lia|lia|]. intros k' ->%Hk. lia.
      * rewrite lookup_partial_alter_ne by done. split_and!; [done|lia|]. intros k' H'.
        destruct Hne. destruct ev; simpl in *; intuition congruence.
  - destruct (dials_other env ev st Hno) as [H1 H2]. rewrite H2 by done. split_and!; [done|done|]. by intros k ?%Hno.
Qed.

Lemma rank_runs l st d : d < dl_nextDial st ->
  (rank (dl_dials (runs l st) !! d) <= rank (dl_dials st !! d))%nat /\ d < dl_nextDial (runs l st).
Proof.
  revert st. induction l as [|[env ev] l IH]; intros st Hd; [done|]. simpl. unfold run_one at 2 4. simpl.
  destruct (rank_run env ev st d Hd) as (H1 & H2 & _). destruct (IH (state (dialer_run env ev) st)); lia.
Qed.

Lemma answer_runs l st d ev k : d < dl_nextDial st -> ev ∈ l.*2 -> answer d ev k ->
  (rank (dl_dials st !! d) <= k + 1)%nat -> (rank (dl_dials (runs l st) !! d) <= k)%nat.
Proof.
  revert st. induction l as [|[env ev'] l IH]; intros st Hd Hin Ha Hr; simpl in Hin; [by apply not_elem_of_nil in Hin|].
  destruct (rank_run env ev' st d Hd) as (H1 & H2 & H3).
  apply elem_of_cons in Hin as [<-|Hin]; simpl; unfold run_one at 2; simpl.
  - destruct (rank_runs l (state (dialer_run env ev) st) d) as [H4 _]; [lia|]. specialize (H3 k Ha Hr). lia.
  - apply IH; [lia|done|done|lia].
Qed.

(** C38: Every dial ends. Whatever else happens in between and whatever the answers
    are, once the target check, the upgrade, the bridge's start and the [finally]
    callback of a dial have come, in this order, the dial is gone, and nobody joins
    it any more: the next caller dials afresh or finds a bridge. *)
Theorem every_dial_ends st l1 l2 l3 l4 d a b e1 e2 : dialer_reachable st -> d < dl_nextDial st ->
  EvOutbound d a ∈ l1.*2 -> EvOpen d b ∈ l2.*2 -> EvStart d e1 e2 ∈ l3.*2 -> EvOver d ∈ l4.*2 ->
  dl_dials (runs (l1 ++ l2 ++ l3 ++ l4) st) !! d = None /\
  (forall n, dl_inflight (runs (l1 ++ l2 ++ l3 ++ l4) st) !! n <> Some d).
Proof.
  intros I%dialer_reachable_inv Hd H1 H2 H3 H4.
  assert (dl_dials (runs (l1 ++ l2 ++ l3 ++ l4) st) !! d = None) as E.
  { rewrite !foldl_app. set (s1 := runs l1 st). set (s2 := runs l2 s1). set (s3 := runs l3 s2).
    assert (d < dl_nextDial s1) as D1 by (by apply rank_runs). assert (d < dl_nextDial s2) as D2 by (by apply rank_runs).
    assert (d < dl_nextDial s3) as D3 by (by apply rank_runs).
    assert (rank (dl_dials s1 !! d) <= 3)%nat as R1.
    { eapply answer_runs; [done|exact H1|done|]. destruct (dl_dials st !! d) as [[? []]|]; simpl; lia. }
    assert (rank (dl_dials s2 !! d) <= 2)%nat as R2 by (by eapply answer_runs; [|exact H2| |]).
    assert (rank (dl_dials s3 !! d) <= 1)%nat as R3 by (by eapply answer_runs; [|exact H3| |]).
    assert (rank (dl_dials (runs l4 s3) !! d) <= 0)%nat as R4 by (by eapply answer_runs; [|exact H4| |]).
    destruct (dl_dials (runs l4 s3) !! d) as [[? []]|]; simpl in R4; [lia..|done]. }
  split; [done|]. intros n Hn. destruct (dv_joined _ (runs_inv (l1 ++ l2 ++ l3 ++ l4) _ I) _ _ Hn) as [s Hs]. congruence.
Qed.

(** ** Closing while dialling, and bridges that died too early *)

(** Closing a node's bridge while it is dialled does nothing: the dial, with the target
    and the token it started with, goes on to register its bridge. *)
Lemma close_misses_dial st env d n s reason : dialer_reachable st -> dl_dials st !! d = Some (mkDial n s) ->
  (forall b, s <> over b) -> closeBridge env n reason st = (tt, st, []).
Proof.
  intros I%dialer_reachable_inv Hd Hs. pose proof (dialing_no_bridge _ _ _ _ I Hd Hs) as Hn.
  unfold closeBridge, mbind, act_bind, get. simpl. by rewrite Hn.
Qed.

(** The map holds a closed bridge, and no idle check runs. *)
Definition holds_dead (n r : Z) (st : Dialer) : Prop :=
  dl_bridges st !! n = Some r /\ r ∉ dl_alive st /\ r < dl_nextRef st /\ dl_idleCheck st = false.

Lemma dead_bridgeCloses env n r r' st : holds_dead n r st -> holds_dead n r (state (bridgeCloses env r') st).
Proof.
  intros (H1 & H2 & H3 & H4).
  unfold holds_dead. rewrite alive_bridgeCloses. destruct (same_bridgeCloses env r' st) as (_ & _ & ->).
  unfold bridgeCloses, onClosed, tearDownBridge, onProxyBridgeDown, scheduleReactiveRedial.
  destruct (decide (r' ∈ dl_alive st)); [|act_run; rewrite bool_decide_eq_false_2 by done; split_and!; set_solver].
  split_and!; [|set_solver|done|act_cases; done].
  act_run. rewrite bool_decide_eq_true_2 by done. act_run. destruct (dl_listening st !! r') as [n'|]; [|done].
  act_run. case_bool_decide as Hb; [|done]. act_run. rewrite Hb. assert (n' <> n) by (intros ->; congruence).
  act_cases; by rewrite lookup_delete_ne.
Qed.

Lemma dead_ensureBridge env n r n' st : holds_dead n r st -> holds_dead n r (state (ensureBridge env n') st).
Proof.
  intros (H1 & H2 & H3 & H4). destruct (dials_ensureBridge env n' st) as (_ & _ & _ & E & _).
  unfold holds_dead. rewrite E. clear E. unfold Dialer.ensureBridge. act_run.
  destruct (dl_bridges st !! n'); act_run; [done|].
  assert (let st' := state (getRecentFailure env n') st in dl_bridges st' = dl_bridges st /\
    dl_alive st' = dl_alive st /\ dl_idleCheck st' = dl_idleCheck st) as (E1 & E2 & E3)
    by (unfold getRecentFailure; act_cases; done).
  case_match; act_run; [by rewrite E1, E2, E3|]. destruct (dl_inflight st !! n'); act_run; [by rewrite E1, E2, E3|].
  edestruct (state_dial sanitizeForLog redactSensitiveText env n') as (f & c & _ & ->). simpl. by rewrite E1, E2, E3.
Qed.

Lemma dead_recordFailure env n r n' c m o st : holds_dead n r st ->
  holds_dead n r (state (recordFailure sanitizeForLog redactSensitiveText env n' c m o) st).
Proof. by destruct (state_recordFailure sanitizeForLog redactSensitiveText env n' c m o st) as (f & _ & _ & ->). Qed.

Lemma dead_run env ev n r st : DialerInv st -> holds_dead n r st -> ev <> EvStop -> (forall s, ev <> EvClose n s) ->
  holds_dead n r (state (dialer_run env ev) st).
Proof.
  intros I H Hs Hc. unfold Dialer.dialer_run. pose proof H as (H1 & H2 & H3 & H4).
  assert (forall d n' r', dl_dials st !! d = Some (mkDial n' (awaiting_start r')) -> n' <> n) as Hne.
  { intros d n' r' Hd ->. by rewrite (dialing_no_bridge _ _ _ _ I Hd) in H1. }
  destruct ev as [n'|n'|n' s|d a|d a|d e1 e2|d|r'|n'|f|]; act_run; try done.
  - by apply dead_ensureBridge.
  - unfold getRecentFailure. act_cases; done.
  - unfold closeBridge, closeObject. act_run. destruct (dl_bridges st !! n'); [|done]. act_run. apply dead_bridgeCloses.
    unfold holds_dead. simpl. rewrite lookup_delete_ne; [done|]. intros ->. by edestruct Hc.
  - unfold outboundSettled, setStage, newRef. act_cases; try done; [by apply dead_recordFailure|].
    unfold holds_dead; simpl; split_and!; [done..|lia|done].
  - unfold openSettled, setStage, newRef. act_cases; try done; [by apply dead_recordFailure|].
    unfold holds_dead; simpl; split_and!; [done|set_solver by lia|lia|done].
  - unfold startSettled, setStage, closeObject. act_run.
    destruct (dl_dials st !! d) as [[n' []]|] eqn:Hd; try done. specialize (Hne _ _ _ Hd). act_cases; try done.
    1-3: by apply dead_bridgeCloses; try apply dead_recordFailure.
    unfold holds_dead; simpl. by rewrite lookup_insert_ne by done.
  - unfold dialOver. act_cases; done.
  - by apply dead_bridgeCloses.
  - unfold redialFires. act_run. case_match; [|done]. act_run. by apply dead_ensureBridge.
  - by rewrite H4.
Qed.

(** A bridge whose WebSocket died before it was registered stays registered: no
    idle check runs with the default idle time, and until the node is closed or the
    dialer stopped, whatever happens, every caller is given the dead bridge and
    nobody dials the node again. *)
Theorem dead_bridge_is_kept st l n r env : dialer_reachable st ->
  dl_bridges st !! n = Some r -> r ∉ dl_alive st -> dl_idleCheck st = false ->
  Forall (fun e => e.2 <> EvStop /\ forall s, e.2 <> EvClose n s) l ->
  r ∉ dl_alive (runs l st) /\ result (ensureBridge env n) (runs l st) = E_bridge r /\
  dl_dials (state (ensureBridge env n) (runs l st)) = dl_dials (runs l st).
Proof.
  intros I%dialer_reachable_inv H1 H2 H3 Hl.
  assert (holds_dead n r (runs l st)) as (D1 & D2 & _).
  { assert (holds_dead n r st) as H.
    { split_and!; try done. destruct (dv_fresh _ I) as (_ & _ & F & _). by eapply F. }
    clear H1 H2 H3. revert st I H. induction Hl as [|[env' ev] l [H1 H2] _ IH]; intros st I H; [done|].
    simpl. unfold run_one at 2. simpl. apply IH; [by apply dinv_run|by apply dead_run]. }
  split; [done|]. unfold Dialer.ensureBridge. act_run. rewrite D1. by act_run.
Qed.

(** ** Why a dial failed *)

(** The reasons a remote Sencho states in its own header. *)
Definition SENCHO_REASONS : list string := ["unauthorized"; "scope"; "tier"; "forbidden"].

Lemma classifyHttp_marked status headers : (exists m, m ∈ SENCHO_REASONS /\ headerValue headers MESH_REJECT_HEADER = Some m) ->
  (classifyHttp url_hostname status headers).1 ∈ [auth_failed; scope_denied; tier_denied; remote_refused].
Proof.
  intros (m & Hm & E). unfold classifyHttp. rewrite E.
  repeat (apply elem_of_cons in Hm as [->|Hm]; [simpl; set_solver|]). by apply not_elem_of_nil in Hm.
Qed.

Lemma classifyHttp_unmarked status headers :
  (forall m, m ∈ SENCHO_REASONS -> headerValue headers MESH_REJECT_HEADER <> Some m) ->
  (classifyHttp url_hostname status headers).1 ∉ [auth_failed; scope_denied; tier_denied; remote_refused] /\
  ((classifyHttp url_hostname status headers).1 = blocked_by_proxy <->
     status = 407 \/ (status ∈ REDIRECT_STATUSES /\ isCloudflareAccessLogin url_hostname (headerValue headers "location") = true)).
Proof.
  intros Hm. unfold classifyHttp.
  do 4 (rewrite bool_decide_eq_false_2; [|apply Hm; set_solver]).
  assert (407 ∉ REDIRECT_STATUSES) as H407 by by apply (bool_decide_unpack _).
  assert (404 ∉ REDIRECT_STATUSES) as H404 by by apply (bool_decide_unpack _).
  assert (forall c : DialFailureCode, bool_decide (c ∉ [auth_failed; scope_denied; tier_denied; remote_refused]) = true ->
    c ∉ [auth_failed; scope_denied; tier_denied; remote_refused]) as Hc by (intros c; apply bool_decide_eq_true_1).
  destruct (Z.eqb_spec status 404) as [->|N404]; [split; [by apply Hc|split; [done|intuition lia]]|].
  case_bool_decide as Hr.
  { destruct (isCloudflareAccessLogin _ _); (split; [by apply Hc|]); simpl; split; try done; [by right|].
    by intros [->|[_ ?]]. }
  destruct (Z.eqb_spec status 407) as [->|N407]; [split; [by apply Hc|]; split; [by left|done]|].
  do 2 (destruct (_ || _); [split; [by apply Hc|]; split; [done|intuition lia]|]).
  split; [by apply Hc|]. split; [done|intuition lia].
Qed.

(** Whom a failed dial blames. The remote Sencho is said to have refused the
    dial, its token, its scope or its licence exactly when the refused upgrade
    carries a reason in the header that only Sencho sets; an access gateway is
    blamed exactly when it does not and the answer asks for proxy authentication
    or redirects to a Cloudflare Access login. Nothing else is pinned on either. *)
Theorem dial_blame_exact err :
  let code := (classifyDialError url_hostname sanitizeForLog err).1 in
  let marked := exists m, m ∈ SENCHO_REASONS /\ headerValue (er_httpHeaders err) MESH_REJECT_HEADER = Some m in
  (code ∈ [auth_failed; scope_denied; tier_denied; remote_refused] <->
     er_unsafe err = None /\ is_Some (er_httpStatus err) /\ marked) /\
  (code = blocked_by_proxy <-> er_unsafe err = None /\ ~ marked /\
     (er_httpStatus err = Some 407 \/ exists status, er_httpStatus err = Some status /\ status ∈ REDIRECT_STATUSES /\
        isCloudflareAccessLogin url_hostname (headerValue (er_httpHeaders err) "location") = true)).
Proof.
  intros code marked.
  assert (forall c : DialFailureCode, bool_decide (c ∉ [auth_failed; scope_denied; tier_denied; remote_refused]) = true ->
    c ∉ [auth_failed; scope_denied; tier_denied; remote_refused]) as Hc by (intros c; apply bool_decide_eq_true_1).
  subst code. unfold classifyDialError. destruct (er_unsafe err) as [[]|].
  1,2: split; (split; [|by intros [? _]]); [intros H; by apply Hc in H|done].
  destruct (er_httpStatus err) as [status|].
  - assert (marked \/ ~ marked) as [Hm|Hm].
    { subst marked. destruct (headerValue _ MESH_REJECT_HEADER) as [m|]; [|by right; intros (? & _ & ?)].
      destruct (decide (m ∈ SENCHO_REASONS)); [by left; exists m|]. right. intros (? & ? & ?). by simplify_eq. }
    + pose proof (classifyHttp_marked status _ Hm) as H. split; [by split|]. split; [|by intros (_ & ? & _)].
      intros E. rewrite E in H. by apply Hc in H.
    + destruct (classifyHttp_unmarked status (er_httpHeaders err)) as [H1 H2].
      { intros m Hin E. apply Hm. by exists m. }
      split; [split; [done|by intros (_ & _ & ?)]|]. rewrite H2. split.
      * intros [->|[? ?]]; split_and!; try done; [by left|right; by exists status].
      * intros (_ & _ & [?|(? & ? & ? & ?)]); simplify_eq; auto.
  - simpl. split.
    + split; [|by intros (_ & [? ?] & _)]. intros Hin; exfalso; revert Hin; repeat case_match; by apply Hc.
    + split; [|intros (_ & _ & [?|(? & ? & _)]); done]. by repeat case_match.
Qed.
End props.

(** ** Concrete runs *)

Definition no_host (_ : string) : option string := None.
Definition plain (s : string) : string := s.
Definition demo_env (now : Z) : DialEnv :=
  mkDialEnv now 0 (fun _ => Some ("https://node", "token")) (fun _ => None) (inr (fun _ => false)).
Definition demo_events (l : list DialerEvent) : list (DialEnv * DialerEvent) := pair (demo_env 0) <$> l.
Definition demo_run (l : list DialerEvent) : Dialer :=
  foldl (run_one (dialer_run no_host plain plain)) (newDialer 0) (demo_events l).

Lemma demo_reachable l : dialer_reachable no_host plain plain (demo_run l).
Proof.
  apply runs_reachable; [|by exists 0]. unfold demo_events. apply Forall_fmap, Forall_true. intros ev. simpl. lia.
Qed.

(** A dial whose bridge is starting; and the same bridge, dead when it was registered. *)
Definition demo_starting : list DialerEvent := [EvEnsure 7; EvOutbound 1 (inr tt); EvOpen 1 (inr tt)].
Definition demo_dead : list DialerEvent := demo_starting ++ [EvBridgeDies 2; EvStart 1 None None; EvOver 1].
(** A node whose bridge came up and died. *)
Definition demo_redial : list DialerEvent := demo_starting ++ [EvStart 1 None None; EvOver 1; EvBridgeDies 2].

Example demo_redial_armed : dl_redialTimers (demo_run demo_redial) !! 7 = Some 5000.
Proof. vm_compute. reflexivity. Qed.

Lemma dialer_holds_what_it_dials_witness :
  dl_inflight (demo_run demo_starting) !! 7 = Some 1 /\ dl_bridges (demo_run demo_starting) !! 7 = None.
Proof.
  destruct (dialer_holds_what_it_dials no_host plain plain (demo_run demo_starting) (demo_reachable _)) as (H & _ & _).
  destruct (H eq_refl 1 7 (awaiting_start 2)) as [H1 H2]; [vm_compute; reflexivity|].
  split; [exact H1|by apply H2].
Defined.

Lemma redial_never_backs_off_witness :
  DE_redialExhausted 7 ∉ effects (dialer_run no_host plain plain (demo_env 1) (EvRedial 7)) (demo_run demo_redial).
Proof.
  destruct (redial_never_backs_off no_host plain plain (demo_run demo_redial) (demo_env 1) (EvRedial 7)
    (demo_reachable _)) as (_ & _ & H); [simpl; lia|exact (H 7)].
Defined.

(** The failure of a dial at time 0 suppresses dials until a minute later. *)
Definition demo_failed : list DialerEvent :=
  [EvEnsure 7; EvOutbound 1 (inl (mkDialError None "refused" None ∅ (Some "ECONNREFUSED"))); EvOver 1].

Lemma failure_suppresses_dials_witness :
  ensureBridge plain plain (demo_env 60000) 7 (demo_run demo_failed) = (E_nothing, demo_run demo_failed, []) /\
  exists d, result (ensureBridge plain plain (demo_env 60001) 7) (demo_run demo_failed) = E_dial d.
Proof.
  split.
  - destruct (failure_suppresses_dials plain plain (demo_run demo_failed) (demo_env 60000) 7
      (mkDialFailure connection_refused (Some "refused") 0)) as [H _]; [vm_compute; reflexivity..|].
    apply H. simpl. unfold FAILURE_CACHE_TTL_MS. lia.
  - destruct (failure_suppresses_dials plain plain (demo_run demo_failed) (demo_env 60001) 7
      (mkDialFailure connection_refused (Some "refused") 0)) as [_ H]; [vm_compute; reflexivity..|].
    destruct H as (d & H & _); [simpl; unfold FAILURE_CACHE_TTL_MS; lia|]. by exists d.
Defined.

Lemma every_dial_ends_witness :
  dl_dials (demo_run ([EvEnsure 7] ++ [EvOutbound 1 (inr tt)] ++ [EvClose 7 "deleted"; EvOpen 1 (inr tt)] ++
    [EvStop; EvStart 1 None None] ++ [EvOver 1])) !! 1 = None.
Proof.
  destruct (every_dial_ends no_host plain plain (demo_run [EvEnsure 7]) (demo_events [EvOutbound 1 (inr tt)])
    (demo_events [EvClose 7 "deleted"; EvOpen 1 (inr tt)]) (demo_events [EvStop; EvStart 1 None None])
    (demo_events [EvOver 1]) 1 (inr tt) (inr tt) None None) as [H _];
    [apply demo_reachable|vm_compute; reflexivity|set_solver..|exact H].
Defined.

(** The dead bridge of a reachable dialer outlives redials, checks and new callers. *)
Lemma dead_bridge_is_kept_witness :
  result (ensureBridge plain plain (demo_env 9) 7) (demo_run (demo_dead ++ [EvIdleCheck (fun _ => 0); EvEnsure 7]))
    = E_bridge 2.
Proof.
  destruct (dead_bridge_is_kept no_host plain plain (demo_run demo_dead) (demo_events [EvIdleCheck (fun _ => 0); EvEnsure 7])
    7 2 (demo_env 9)) as (_ & H & _).
  - apply demo_reachable.
  - vm_compute. reflexivity.
  - apply (bool_decide_unpack _). vm_compute. exact I.
  - reflexivity.
  - repeat constructor; discriminate.
  - exact H.
Defined.
