(* ===== verification/Handoff.v ===== *)
(** * What an operator confirmed, and the handoff of an accepted generation
    (services/gitops/sourceConfirmation.ts, gitManagedHandoff.ts, the hold of
    handoff.ts, boundedPostAccept.ts)

    Confirmations as text and as claims on a row, the gates a prepared generation of
    a Git-managed Blueprint passes before it is dispatched, and what is reported of
    a preparation and a handoff that each had 15 seconds to answer. Upper case and
    trimming are of ASCII text. *)

From Stdlib Require Import Ascii.
From S2P Require Import Prelude Json Reconcile HealthPolicy SourceRows SourceTx.

(** ** Confirmations *)

(** [isApprovalRef], with the reference. *)
Definition isApprovalRef (value : option Json) : option (option string) :=
  match value with
  | Some JNull => Some None
  | Some (JStr s) => if bool_decide (s = "") then None else Some (Some s)
  | _ => None
  end.

Definition parseSourceConfirmation (raw : Json) : string + SourceConfirmation :=
  match raw with
  | JObj fields =>
      match bool_field "rolloutMayStart" fields with
      | None => inl "confirmation.rolloutMayStart must be a boolean"
      | Some mayStart =>
          match isApprovalRef (field "placementApprovalRef" fields) with
          | None => inl "confirmation.placementApprovalRef must be an approval id"
          | Some ref => inr (mkConfirmation ref mayStart)
          end
      end
  | _ => inl "confirmation is required"
  end.

Definition driftHoldReason (d : ConfirmationDrift) : string :=
  match d with
  | placement_changed =>
      "The approved placement changed after this was confirmed; review the current placement, then resume the rollout"
  | rollout_authorization_widened =>
      "Rollout authorization started authorizing without an operator after this was confirmed; review it, then resume the rollout"
  end.

Definition UNREADABLE_SOURCE_CONFIRMATION : string :=
  "The confirmation recorded with this commit could not be read; review it, then resume the rollout".

Inductive StoredSourceConfirmation := SC_absent | SC_present (c : SourceConfirmation) | SC_unreadable.

Inductive GitOpsApprovalKind := K_source_acceptance | K_placement_approval | K_rollout_authorization | K_legacy_combined.
#[export] Instance GitOpsApprovalKind_eq_dec : EqDecision GitOpsApprovalKind.
Proof. solve_decision. Defined.

(** The columns of an approval row that are read here. *)
Record ApprovalRow := mkApprovalRow {
  ap_kind : GitOpsApprovalKind;
  ap_authority : ApprovalAuthority;
  ap_placement_approval_ref : option string;
  ap_source_confirmation_json : option string;
  ap_created_at : Z;
}.

Definition confirmation_json (c : SourceConfirmation) : Json :=
  JObj [("placementApprovalRef", match sc_placementApprovalRef c with Some s => JStr s | None => JNull end);
        ("rolloutMayStart", JBool (sc_rolloutMayStart c))].

Section stored.
Variable json_parse : string -> option Json.
Variable json_stringify : Json -> string.
Variable getApproval : string -> option ApprovalRow.

Definition encodeSourceConfirmation (c : SourceConfirmation) : string := json_stringify (confirmation_json c).

Definition decodeSourceConfirmation (raw : option string) : StoredSourceConfirmation :=
  match truthy raw with
  | None => SC_absent
  | Some text =>
      match json_parse text with
      | Some (JObj fields) =>
          match bool_field "rolloutMayStart" fields, isApprovalRef (field "placementApprovalRef" fields) with
          | Some mayStart, Some ref => SC_present (mkConfirmation ref mayStart)
          | _, _ => SC_unreadable
          end
      | _ => SC_unreadable
      end
  end.

Definition storedSourceConfirmation (r : SourceRow) : StoredSourceConfirmation :=
  match truthy (sr_source_acceptance_ref r) ≫= getApproval with
  | None => SC_absent
  | Some acceptance =>
      if negb (bool_decide (ap_kind acceptance = K_source_acceptance)) then SC_absent
      else match decodeSourceConfirmation (ap_source_confirmation_json acceptance),
                 truthy (ap_placement_approval_ref acceptance) with
           | SC_absent, Some ref => SC_present (mkConfirmation (Some ref) false)
           | stored, _ => stored
           end
  end.

Definition sourceConfirmationHoldReason (r : SourceRow) : option string :=
  match storedSourceConfirmation r with
  | SC_unreadable => Some UNREADABLE_SOURCE_CONFIRMATION
  | SC_absent => None
  | SC_present c => driftHoldReason <$> sourceConfirmationDrift r c
  end.
End stored.

(** ** Holding a rollout *)

Inductive HoldOrigin := H_system | H_health | H_operator.

Record Refusal := mkRefusal { rf_reason : string; rf_holdable : bool; rf_alreadyPaused : bool }.

(** Whether [holdBlockedRolloutDispatch] pauses the application, given the row as it
    is read again, and whether an authorization is live. *)
Definition holds (r : option SourceRow) (live : bool) (blocked : Refusal) (holdTransient requireLiveBinding : bool) : bool :=
  if negb holdTransient && negb (rf_holdable blocked) then false
  else if holdTransient && negb (rf_holdable blocked) && rf_alreadyPaused blocked then false
  else match r with
       | None => false
       | Some r =>
           if bool_decide (is_Some (truthyZ (sr_pause_at r))) then false
           else negb requireLiveBinding || live
       end.

(** ** The handoff of a prepared generation *)

Inductive DispatchStatus := dispatched | D_blocked | skipped.
#[export] Instance DispatchStatus_eq_dec : EqDecision DispatchStatus.
Proof. solve_decision. Defined.

Record GitManagedDispatchOutcome := mkOutcome { do_status : DispatchStatus; do_reason : option string }.
#[export] Instance GitManagedDispatchOutcome_eq_dec : EqDecision GitManagedDispatchOutcome.
Proof. solve_decision. Defined.

Definition GIT_MANAGED_ARTIFACT_UNRESOLVED_REASON : string := "the artifact identity is not resolved yet".

Record HandoffTarget := mkHandoffTarget { ht_active : bool; ht_stop_reason : option string }.

(** What the store says when the handoff reads it. *)
Record HandoffEnv := mkHandoffEnv {
  he_app : option SourceRow;
  he_confirmationHold : option string;            (* [sourceConfirmationHoldReason] of that row *)
  he_blueprintEnabled : option bool;              (* none without a Blueprint row *)
  he_targets : list HandoffTarget;
  he_generation : bool;                           (* the generation's row exists *)
  he_qualification : option string;               (* of the row's artifact set *)
  he_liveBinding : bool;
}.

(** A gate's answer: the outcome that ends the handoff, with the hold it records
    (its reason and origin), or the dispatch boundary is called. *)
Inductive Handoff :=
  | H_ends (o : GitManagedDispatchOutcome) (hold : option (string * HoldOrigin))
  | H_dispatch.

Definition skips (reason : string) : Handoff := H_ends (mkOutcome skipped (Some reason)) None.

(** [holdBlockedRolloutDispatch] of a durable refusal that needs no live binding. *)
Definition hold_of (env : HandoffEnv) (reason : string) (origin : HoldOrigin) : option (string * HoldOrigin) :=
  if holds (he_app env) (he_liveBinding env) (mkRefusal reason true false) false false then Some (reason, origin) else None.

Definition ROLLBACK_PENDING_REASON : string := "a target has an unfinished rollback; finish it, then resume the rollout".

Definition dispatchGates (env : HandoffEnv) (generationId : string) : Handoff :=
  match he_app env with
  | None => skips "the generation is no longer the accepted one"
  | Some r =>
      if negb (bool_decide (app_target_mode (sr_app r) = blueprint))
         || negb (bool_decide (app_accepted_generation_id (sr_app r) = Some generationId))
      then skips "the generation is no longer the accepted one"
      else if bool_decide (is_Some (truthyZ (app_suspended_at (sr_app r)))) then skips "the source is suspended"
      else if bool_decide (is_Some (truthyZ (sr_pause_at r))) then skips "the rollout is paused"
      else if negb (bool_decide (sr_rollout_authorization_policy r = "automatic"))
      then skips "the rollout authorization policy requires an operator"
      else match he_confirmationHold env with
      | Some reason => H_ends (mkOutcome skipped (Some reason)) (hold_of env reason H_operator)
      | None =>
          if negb (bool_decide (he_blueprintEnabled env = Some true)) then skips "the Blueprint is disabled"
          else if existsb (fun t => ht_active t && bool_decide (ht_stop_reason t = Some "rollback_pending")) (he_targets env)
          then H_ends (mkOutcome D_blocked (Some ROLLBACK_PENDING_REASON)) (hold_of env ROLLBACK_PENDING_REASON H_system)
          else if negb (he_generation env) then skips "the accepted generation could not be read"
          else if bool_decide (is_Some (truthy (sr_artifact_set_id r)))
                  && (bool_decide (he_qualification env = Some "exact") || bool_decide (he_qualification env = Some "qualified"))
          then H_dispatch
          else skips GIT_MANAGED_ARTIFACT_UNRESOLVED_REASON
      end
  end.

(** What the dispatch boundary gives: a rejection, or the refusal of a blocked one. *)
Definition dispatchSettled (env : HandoffEnv) (answer : string + option Refusal)
    : GitManagedDispatchOutcome * option (string * HoldOrigin) :=
  match answer with
  | inl _ => (mkOutcome D_blocked (Some "the dispatch failed before it could start"), None)
  | inr (Some refusal) =>
      (mkOutcome D_blocked (Some (rf_reason refusal)),
       if holds (he_app env) (he_liveBinding env) refusal false true then Some (rf_reason refusal, H_system) else None)
  | inr None => (mkOutcome dispatched None, None)
  end.

(** ** What is reported after an acceptance *)

Definition PREPARATION_CONTINUING_NOTE : string :=
  "preparation is still running; the rollout becomes authorizable when it completes".
Definition ROLLOUT_STARTING_NOTE : string := "the rollout is starting; watch the application for progress".
Definition ROLLOUT_HELD_NOTE : string := "The rollout did not start.".
Definition PREPARATION_FAILED_NOTE : string := "preparation failed; the next reconcile retries it".
Definition ROLLOUT_FAILED_NOTE : string := "the rollout could not be started".

Inductive GitManagedFreezeStatus := fz_resolved | fz_none | fz_refused.
#[export] Instance GitManagedFreezeStatus_eq_dec : EqDecision GitManagedFreezeStatus.
Proof. solve_decision. Defined.

Record PreparedStep := mkPrepared { ps_materialized : bool; ps_artifact : GitManagedFreezeStatus; ps_note : option string }.

(** A step bounded by the response deadline. The value of a timeout is the fallback
    of its caller, one for each step. *)
Inductive Timed (A : Type) := fulfilled (a : A) | timed_out | rejected.
Arguments fulfilled {A} _.
Arguments timed_out {A}.
Arguments rejected {A}.

Definition DISPATCH_CONTINUING : GitManagedDispatchOutcome := mkOutcome skipped (Some ROLLOUT_STARTING_NOTE).

Inductive BoundedRollout := B_started | B_held | B_not_started.
#[export] Instance BoundedRollout_eq_dec : EqDecision BoundedRollout.
Proof. solve_decision. Defined.

Record BoundedPostAccept := mkBounded {
  bp_rollout : BoundedRollout;
  bp_authorityNote : option string;
  bp_materialized : bool;
  bp_artifactResolved : bool;
  bp_dispatched : bool;
  bp_acceptNote : option string;
}.

(** [charAt(0).toUpperCase() + slice(1)] *)
Definition upper (c : ascii) : ascii :=
  let n := nat_of_ascii c in if (97 <=? n)%nat && (n <=? 122)%nat then ascii_of_nat (n - 32) else c.
Definition capitalize (s : string) : string :=
  match s with EmptyString => EmptyString | String c s' => String (upper c) s' end.

Definition is_stop (c : ascii) : bool := bool_decide (c = "."%char) || bool_decide (c = "!"%char) || bool_decide (c = "?"%char).
(** [/[.!?]$/] *)
Fixpoint ends_sentence (s : string) : bool :=
  match s with
  | EmptyString => false
  | String c EmptyString => is_stop c
  | String _ s' => ends_sentence s'
  end.
(** [replace(/[.!?]$/, '')] *)
Fixpoint drop_stop (s : string) : string :=
  match s with
  | EmptyString => EmptyString
  | String c EmptyString => if is_stop c then EmptyString else s
  | String c s' => String c (drop_stop s')
  end.

Fixpoint join (sep : string) (l : list string) : string :=
  match l with
  | [] => ""
  | [x] => x
  | x :: l => x +:+ sep +:+ join sep l
  end.

(** The parts that say something, trimmed. *)
Definition present (parts : list (option string)) : list string :=
  filter (fun s => s <> "") (map (fun p => default "" (trim <$> p)) parts).

Definition formatOperatorSentences (parts : list (option string)) : option string :=
  match map (fun p => if ends_sentence (capitalize p) then capitalize p else capitalize p +:+ ".") (present parts) with
  | [] => None
  | sentences => Some (join " " sentences)
  end.

Definition joinAuthorityNotes (parts : list (option string)) : option string :=
  match present parts with
  | [] => None
  | [one] => Some one
  | first :: rest => Some (join ". " (drop_stop first :: map (fun p => capitalize (drop_stop p)) rest))
  end.

Definition repeatsUnresolvedArtifact (artifact : GitManagedFreezeStatus) (reason : option string) : bool :=
  negb (bool_decide (artifact = fz_resolved)) && bool_decide (reason = Some GIT_MANAGED_ARTIFACT_UNRESOLVED_REASON).

Definition preparedNote (prepared : Timed PreparedStep) : option string :=
  match prepared with
  | fulfilled p => ps_note p
  | timed_out => Some PREPARATION_CONTINUING_NOTE
  | rejected => Some PREPARATION_FAILED_NOTE
  end.

Definition handoffNote (prepared : Timed PreparedStep) (handoff : Timed GitManagedDispatchOutcome) : option string :=
  match handoff with
  | rejected => Some ROLLOUT_FAILED_NOTE
  | timed_out => Some ROLLOUT_STARTING_NOTE
  | fulfilled o =>
      if bool_decide (do_status o = dispatched) then None
      else
        let artifact := match prepared with fulfilled p => ps_artifact p | _ => fz_none end in
        if repeatsUnresolvedArtifact artifact (do_reason o) then None else do_reason o
  end.

Definition projectPostAccept (prepared : Timed PreparedStep) (handoff : Timed GitManagedDispatchOutcome) : BoundedPostAccept :=
  let '(rollout, authorityNote) :=
    match handoff, prepared with
    | fulfilled (mkOutcome dispatched _), _ => (B_started, None)
    | rejected, _ => (B_held, joinAuthorityNotes [preparedNote prepared; Some ROLLOUT_FAILED_NOTE])
    | fulfilled (mkOutcome D_blocked reason), _ =>
        let blocked := default ROLLOUT_HELD_NOTE reason in
        (B_held, match prepared with
                 | fulfilled (mkPrepared _ _ (Some note)) => joinAuthorityNotes [Some note; Some blocked]
                 | _ => Some blocked
                 end)
    | _, rejected => (B_not_started, Some PREPARATION_FAILED_NOTE)
    | _, timed_out => (B_not_started, Some PREPARATION_CONTINUING_NOTE)
    | _, fulfilled p =>
        let reason := match handoff with fulfilled o => do_reason o | _ => do_reason DISPATCH_CONTINUING end in
        let repeated := if repeatsUnresolvedArtifact (ps_artifact p) reason then None else reason in
        (B_not_started, joinAuthorityNotes [ps_note p; repeated])
    end in
  mkBounded rollout authorityNote
    (match prepared with fulfilled p => ps_materialized p | _ => false end)
    (match prepared with fulfilled p => bool_decide (ps_artifact p = fz_resolved) | _ => false end)
    (match handoff with fulfilled o => bool_decide (do_status o = dispatched) | _ => false end)
    (formatOperatorSentences [preparedNote prepared; handoffNote prepared handoff]).

(** ** Theorems *)

(** The row lets the configured policies start the rollout of this generation. *)
Definition admits (r : SourceRow) (generationId : string) : Prop :=
  app_target_mode (sr_app r) = blueprint /\ app_accepted_generation_id (sr_app r) = Some generationId /\
  truthyZ (app_suspended_at (sr_app r)) = None /\ truthyZ (sr_pause_at r) = None /\
  sr_rollout_authorization_policy r = "automatic".

Definition rollbackPending (env : HandoffEnv) : bool :=
  existsb (fun t => ht_active t && bool_decide (ht_stop_reason t = Some "rollback_pending")) (he_targets env).

Lemma not_some {A} (o : option A) : ~ is_Some o -> o = None.
Proof. apply eq_None_not_Some. Qed.

Lemma admits_gates env g r : he_app env = Some r -> admits r g ->
  dispatchGates env g =
    match he_confirmationHold env with
    | Some reason => H_ends (mkOutcome skipped (Some reason)) (Some (reason, H_operator))
    | None =>
        if negb (bool_decide (he_blueprintEnabled env = Some true)) then skips "the Blueprint is disabled"
        else if rollbackPending env
        then H_ends (mkOutcome D_blocked (Some ROLLBACK_PENDING_REASON)) (Some (ROLLBACK_PENDING_REASON, H_system))
        else if negb (he_generation env) then skips "the accepted generation could not be read"
        else if bool_decide (is_Some (truthy (sr_artifact_set_id r)))
                && (bool_decide (he_qualification env = Some "exact") || bool_decide (he_qualification env = Some "qualified"))
        then H_dispatch
        else skips GIT_MANAGED_ARTIFACT_UNRESOLVED_REASON
    end.
Proof.
  intros E (H1 & H2 & H3 & H4 & H5). unfold dispatchGates, hold_of, holds. rewrite E, H1, H2, H3, H4, H5.
  rewrite !bool_decide_eq_true_2 by done. rewrite !(bool_decide_eq_false_2 (is_Some None)) by (by intros [? ?]).
  simpl. done.
Qed.

Lemma not_admits_gates env g : (forall r, he_app env = Some r -> ~ admits r g) ->
  exists reason, dispatchGates env g = skips reason.
Proof.
  intros H. unfold dispatchGates. destruct (he_app env) as [r|]; [|by eexists]. specialize (H r eq_refl).
  destruct (bool_decide_reflect (app_target_mode (sr_app r) = blueprint)); [|by eexists].
  destruct (bool_decide_reflect (app_accepted_generation_id (sr_app r) = Some g)); [|by eexists]. simpl.
  case_bool_decide as Hs; [by eexists|]. case_bool_decide as Hp; [by eexists|].
  destruct (bool_decide_reflect (sr_rollout_authorization_policy r = "automatic")); [|by eexists].
  exfalso. apply H. apply not_some in Hs, Hp. by split_and!.
Qed.

(** The gates of the handoff. A prepared generation is dispatched without an
    operator exactly when it is still the accepted one of an unsuspended, unpaused
    Blueprint whose rollout policy is automatic, no stored confirmation objects, the
    Blueprint is enabled, no live target waits for its rollback, its row exists and
    its artifact set is resolved. The rollout is held exactly when the policy would
    dispatch it and either a stored confirmation objects, which only an operator
    releases, or a rollback is unfinished. *)
Theorem handoff_gates_exact env g :
  (dispatchGates env g = H_dispatch <-> exists r, he_app env = Some r /\ admits r g /\ he_confirmationHold env = None /\
     he_blueprintEnabled env = Some true /\ rollbackPending env = false /\ he_generation env = true /\
     is_Some (truthy (sr_artifact_set_id r)) /\
     (he_qualification env = Some "exact" \/ he_qualification env = Some "qualified")) /\
  (forall o reason origin, dispatchGates env g = H_ends o (Some (reason, origin)) <->
     (exists r, he_app env = Some r /\ admits r g) /\
     ((he_confirmationHold env = Some reason /\ origin = H_operator /\ o = mkOutcome skipped (Some reason)) \/
      (he_confirmationHold env = None /\ he_blueprintEnabled env = Some true /\ rollbackPending env = true /\
       reason = ROLLBACK_PENDING_REASON /\ origin = H_system /\ o = mkOutcome D_blocked (Some reason)))).
Proof.
  assert ((exists r, he_app env = Some r /\ admits r g) \/ (forall r, he_app env = Some r -> ~ admits r g)) as [(r & E & H)|H].
  { destruct (he_app env) as [r|]; [|by right]. assert (Decision (admits r g)) as D by (unfold admits; apply _).
    destruct (decide (admits r g)); [left; eauto|right; by intros r' [= <-]]. }
  - rewrite (admits_gates env g r E H). split; [|intros o reason origin].
    + split.
      * intros Hd. exists r. destruct (he_confirmationHold env); [done|].
        destruct (bool_decide_reflect (he_blueprintEnabled env = Some true)); [simpl in Hd|done].
        destruct (rollbackPending env); [done|]. destruct (he_generation env); [simpl in Hd|done].
        destruct (bool_decide_reflect (is_Some (truthy (sr_artifact_set_id r)))); [simpl in Hd|done].
        split_and!; try done. destruct (bool_decide_reflect (he_qualification env = Some "exact")); [by left|].
        destruct (bool_decide_reflect (he_qualification env = Some "qualified")); [by right|done].
      * intros (r' & E' & _ & H1 & H2 & H3 & H4 & H5 & H6). assert (r' = r) as -> by congruence.
        rewrite H1, H2, H3, H4, (bool_decide_eq_true_2 (is_Some _)) by done. simpl.
        destruct H6 as [H6|H6]; rewrite H6; by vm_compute.
    + split.
      * intros Hd. split; [eauto|]. destruct (he_confirmationHold env); [simplify_eq; auto|]. right.
        destruct (bool_decide_reflect (he_blueprintEnabled env = Some true)); [simpl in Hd|done].
        destruct (rollbackPending env); [simplify_eq; by split_and!|]. repeat case_match; done.
      * intros (_ & [(H1 & -> & ->)|(H1 & H2 & H3 & -> & -> & ->)]); [by rewrite H1|]. by rewrite H1, H2, H3.
  - destruct (not_admits_gates env g H) as [reason ->]. split; [|intros o reason' origin].
    + split; [done|]. intros (r & E & Ha & _). by destruct (H r E).
    + split; [done|]. intros ((r & E & Ha) & _). by destruct (H r E).
Qed.

(** What an operator confirmed survives its storage: a stored confirmation reads
    back as it was written, with the placement it named or none, and whatever reads
    as a confirmation is one that a request could have carried. Text that is not one
    is unreadable, never absent. *)
Theorem confirmation_roundtrip json_parse json_stringify c :
  json_parse (json_stringify (confirmation_json c)) = Some (confirmation_json c) -> json_stringify (confirmation_json c) <> "" ->
  sc_placementApprovalRef c <> Some "" ->
  decodeSourceConfirmation json_parse (Some (encodeSourceConfirmation json_stringify c)) = SC_present c /\
  parseSourceConfirmation (confirmation_json c) = inr c /\
  (forall raw c', decodeSourceConfirmation json_parse raw = SC_present c' ->
     exists text j, raw = Some text /\ json_parse text = Some j /\ parseSourceConfirmation j = inr c' /\
       sc_placementApprovalRef c' <> Some "") /\
  (forall raw, decodeSourceConfirmation json_parse raw = SC_absent <-> truthy raw = None).
Proof.
  intros Hp He Hc.
  split_and!.
  - unfold decodeSourceConfirmation, encodeSourceConfirmation.
    assert (truthy (Some (json_stringify (confirmation_json c))) = Some (json_stringify (confirmation_json c))) as ->
      by (unfold truthy; by destruct (json_stringify (confirmation_json c))).
    rewrite Hp. destruct c as [[s|] b]; [|done]. simpl. by rewrite bool_decide_eq_false_2 by (by intros ->).
  - destruct c as [[s|] b]; [|done]. simpl. by rewrite bool_decide_eq_false_2 by (by intros ->).
  - intros raw c' H. unfold decodeSourceConfirmation in H. destruct (truthy raw) as [text|] eqn:Ht; [|done].
    destruct (json_parse text) as [[| | | | |fields]|] eqn:Hj; try done.
    destruct (bool_field "rolloutMayStart" fields) eqn:H1; [|done].
    destruct (isApprovalRef (field "placementApprovalRef" fields)) as [ref|] eqn:H2; simplify_eq.
    exists text, (JObj fields). split_and!; [|done| |].
    + destruct raw as [[|]|]; simpl in Ht; congruence.
    + simpl. by rewrite H1, H2.
    + simpl. destruct (field _ fields) as [[| | |s| |]|]; simpl in H2; simplify_eq; [done|]. case_bool_decide; simplify_eq.
      congruence.
  - intros raw. unfold decodeSourceConfirmation. destruct (truthy raw); [|done]. repeat case_match; done.
Qed.

(** A join that has a last part with something to say says something. *)
Lemma join_last_is_Some a b : trim b <> "" -> is_Some (joinAuthorityNotes [a; Some b]).
Proof.
  intros Hb. unfold joinAuthorityNotes, present. cbn [map fmap option_fmap option_map default].
  destruct (decide (default "" (trim <$> a) <> "")) as [Ha|Ha].
  - rewrite filter_cons_True by done. rewrite filter_cons_True by done. by eexists.
  - rewrite filter_cons_False by done. rewrite filter_cons_True by done. by eexists.
Qed.

(** What is reported after an acceptance. A rollout is reported as started exactly
    when it was dispatched and as held exactly when its dispatch failed or was
    refused, then with a reason unless the refusal gave a blank one; otherwise as not
    started, and a preparation that failed, or still runs, is said to have failed, or
    to run. *)
Lemma post_accept_report_exact prepared handoff :
  let p := projectPostAccept prepared handoff in
  (bp_rollout p = B_started <-> exists reason, handoff = fulfilled (mkOutcome dispatched reason)) /\
  (bp_rollout p = B_held <-> handoff = rejected \/ exists reason, handoff = fulfilled (mkOutcome D_blocked reason)) /\
  (bp_rollout p = B_started -> bp_authorityNote p = None) /\
  (bp_rollout p = B_held -> (forall reason, handoff = fulfilled (mkOutcome D_blocked (Some reason)) -> trim reason <> "") ->
     is_Some (bp_authorityNote p)) /\
  (bp_rollout p = B_not_started -> prepared = rejected -> bp_authorityNote p = Some PREPARATION_FAILED_NOTE) /\
  (bp_rollout p = B_not_started -> prepared = timed_out -> bp_authorityNote p = Some PREPARATION_CONTINUING_NOTE) /\
  bp_dispatched p = bool_decide (bp_rollout p = B_started).
Proof.
  unfold projectPostAccept. destruct handoff as [[[] reason]| |]; cbn [bp_rollout bp_authorityNote bp_dispatched do_status].
  - split_and!; try done; [split; [by eexists|done]|split; [done|by intros [|[]]]].
  - split_and!; try done; [split; [done|by intros [? ?]]|split; [right; by eexists|done]|].
    intros _ Hr. destruct prepared as [[m a [note|]]| |]; try by eexists. apply join_last_is_Some.
    destruct reason as [r|]; [by apply Hr|done].
  - destruct prepared as [p| |]; cbn [bp_rollout bp_authorityNote bp_dispatched]; split_and!; try done;
      first [split; [done|by intros [? ?]]|split; [done|by intros [|[]]]].
  - destruct prepared as [p| |]; cbn [bp_rollout bp_authorityNote bp_dispatched]; split_and!; try done;
      first [split; [done|by intros [? ?]]|split; [done|by intros [|[]]]].
  - split_and!; try done; [split; [done|by intros [? ?]]|split; [by left|done]|].
    intros _ _. by apply join_last_is_Some.
Qed.

(** Where the authority note drops the preparation of a refused dispatch, the accept
    note keeps it; and where it drops the reason of a skipped dispatch after a failed
    preparation, the accept note keeps that too. *)
Lemma accept_note_keeps_what_authority_drops reason : reason <> GIT_MANAGED_ARTIFACT_UNRESOLVED_REASON ->
  let blocked := projectPostAccept rejected (fulfilled (mkOutcome D_blocked (Some reason))) in
  let skip := projectPostAccept rejected (fulfilled (mkOutcome skipped (Some "the source is suspended"))) in
  bp_authorityNote blocked = Some reason /\
  bp_acceptNote blocked = formatOperatorSentences [Some PREPARATION_FAILED_NOTE; Some reason] /\
  bp_authorityNote skip = Some "preparation failed; the next reconcile retries it" /\
  bp_acceptNote skip = Some "Preparation failed; the next reconcile retries it. The source is suspended.".
Proof.
  intros Hr. split_and!; try reflexivity. unfold projectPostAccept, handoffNote, repeatsUnresolvedArtifact.
  simpl. by rewrite bool_decide_eq_false_2 by congruence.
Qed.

(** ** Witnesses *)

(** A JSON printer and a parser that know the text of one confirmation. *)
Definition demo_confirmation : SourceConfirmation := mkConfirmation (Some "pa-1") true.
Definition demo_stringify (j : Json) : string := "text".
Definition demo_parse (s : string) : option Json := Some (confirmation_json demo_confirmation).

Lemma confirmation_roundtrip_witness :
  decodeSourceConfirmation demo_parse (Some "text") = SC_present demo_confirmation.
Proof.
  destruct (confirmation_roundtrip demo_parse demo_stringify demo_confirmation) as [H _];
    [reflexivity|discriminate|discriminate|exact H].
Defined.
