(* ===== verification/Controller.v ===== *)
(** * The source controller (services/gitops/SourceController.ts, triggers.ts, the due
    scans of store.ts)

    The background driver of Git sources: one timer that re-arms itself, one
    evaluation per application at a time, wakes that are parked while an evaluation
    runs, operator pulls, and what a finished fetch does to the schedule and, under
    an automatic policy, to the candidate.

    An evaluation is split at its awaits ([Stage]); the promise of one that is over
    releases its slot in a later microtask. Rows, the disk, the other services and
    whether a transition throws are arguments of the events. A pull's bounded
    preparation and handoff run side by side with their deadlines; the works that
    outlast a deadline are two flags. *)

From Stdlib Require Import QArith.
From stdpp Require Import sorting.
From S2P Require Import Prelude Reconcile Backoff SourceRows SourceTx Handoff.

#[global] Open Scope Z_scope.

(** ** Triggers *)

Inductive ReconcileTrigger :=
  | by_manual | by_api | by_webhook | by_poll | by_retry | by_config_change | by_startup | by_resume
  | by_provider_event | by_schedule | by_binding_change.
#[export] Instance ReconcileTrigger_eq_dec : EqDecision ReconcileTrigger.
Proof. solve_decision. Defined.

Definition ReconcileTrigger_str (t : ReconcileTrigger) : string :=
  match t with
  | by_manual => "manual" | by_api => "api" | by_webhook => "webhook" | by_poll => "poll" | by_retry => "retry"
  | by_config_change => "config_change" | by_startup => "startup" | by_resume => "resume"
  | by_provider_event => "provider_event" | by_schedule => "schedule" | by_binding_change => "binding_change"
  end.

Inductive ReconcileRequest :=
  | RQ_fetch (applicationId stackName : string)
  | RQ_apply (applicationId stackName commitSha planFingerprint : string) (deploy : bool).

Definition coalesceKey (r : ReconcileRequest) : string :=
  match r with
  | RQ_fetch app stack => app +:+ ":" +:+ stack +:+ ":fetch"
  | RQ_apply app stack sha plan deploy =>
      app +:+ ":" +:+ stack +:+ ":apply:" +:+ sha +:+ ":" +:+ plan +:+ ":" +:+ (if deploy then "true" else "false")
  end.

Definition intent (r : ReconcileRequest) : string := match r with RQ_fetch _ _ => "fetch" | _ => "apply" end.

Definition deliveryKey (t : ReconcileTrigger) (intent_ deliveryId : string) : string :=
  ReconcileTrigger_str t +:+ ":" +:+ intent_ +:+ ":" +:+ deliveryId.

Definition isPolicyDrivenWebhookTrigger (t : ReconcileTrigger) : bool :=
  match t with by_webhook | by_provider_event => true | _ => false end.

Definition acceptanceAuthorityForWebhook (actor : string) (t : ReconcileTrigger) : ApprovalAuthority :=
  if isPolicyDrivenWebhookTrigger t
     && (bool_decide (actor = "system:webhook") || bool_decide (actor = "system:provider_event"))
  then by_policy else by_operator.

Definition isAutomatedReconcileTrigger (t : option ReconcileTrigger) : bool :=
  match t with
  | Some (by_webhook | by_poll | by_schedule | by_provider_event | by_config_change | by_startup | by_binding_change) => true
  | _ => false
  end.

(** ** Rows *)

(** An application with the columns that name its stack, and its cadence. Of
    [sr_stack_name] the controller reads nothing. *)
Record ControllerRow := mkCtlRow {
  cr_row : SourceRow;
  cr_stack_name : option string;
  cr_configured_source_stack_name : option string;
  cr_poll_interval_secs : option Z;
}.

Definition cr_app (r : ControllerRow) : GitOpsApplicationRow := sr_app (cr_row r).
Definition cr_id (r : ControllerRow) : string := app_id (cr_app r).
Definition cr_policy (r : ControllerRow) : SourcePolicy := sr_source_policy (cr_row r).
Definition is_manual (r : ControllerRow) : bool := bool_decide (cr_policy r = sp_manual).
Definition cr_suspended (r : ControllerRow) : bool := bool_decide (is_Some (truthyZ (app_suspended_at (cr_app r)))).

(** [SOURCE_APPLICATION_MODE_SQL] and the two due scans; the order of equal cursors
    is left to SQLite. *)
Definition sourceMode (r : ControllerRow) : bool :=
  match app_target_mode (cr_app r) with
  | direct => true
  | blueprint => bool_decide (is_Some (cr_configured_source_stack_name r))
  | inline_blueprint => false
  end.
Definition idleActive (r : ControllerRow) : bool :=
  sourceMode r && bool_decide (app_lifecycle_status (cr_app r) = active)
  && bool_decide (app_suspended_at (cr_app r) = None) && bool_decide (app_active_operation_stage (cr_app r) = None).
Definition dueAt (now : Z) (cursor : option Z) : bool :=
  match cursor with Some t => t <=? now | None => false end.
Definition duePoll (now : Z) (r : ControllerRow) : bool :=
  idleActive r && dueAt now (app_next_poll_at (cr_app r)) && bool_decide (app_retry_at (cr_app r) = None).
Definition dueRetry (now : Z) (r : ControllerRow) : bool := idleActive r && dueAt now (app_retry_at (cr_app r)).

Definition SCAN_LIMIT : nat := 200.
Definition by_cursor (cursor : ControllerRow -> option Z) : relation ControllerRow :=
  fun a b => default 0 (cursor a) <= default 0 (cursor b).
#[export] Instance by_cursor_dec cursor : RelDecision (by_cursor cursor).
Proof. intros a b. unfold by_cursor. apply _. Defined.
Definition listSourcesDueForPoll (now : Z) (rows : list ControllerRow) : list ControllerRow :=
  take SCAN_LIMIT (merge_sort (by_cursor (fun r => app_next_poll_at (cr_app r))) (filter (fun r => Is_true (duePoll now r)) rows)).
Definition listApplicationsDueForRetry (now : Z) (rows : list ControllerRow) : list ControllerRow :=
  take SCAN_LIMIT (merge_sort (by_cursor (fun r => app_retry_at (cr_app r))) (filter (fun r => Is_true (dueRetry now r)) rows)).

(** ** Reports *)

Definition SUCCESS_SHAPED (o : ReconcileOutcome) : bool :=
  match o with O_no_source_change | O_candidate_already_fetched | O_pending_review | O_superseded => true | _ => false end.

Definition recoveryWaitHolds (r : ControllerRow) : bool :=
  match app_recovery_phase (cr_app r) with
  | Some (restoring | compensating | R_failed) => true
  | _ => bool_decide (app_failure_stage (cr_app r) = Some F_recovery)
  end.

Inductive OperatorFetchRefusalCode :=
  | not_git_managed | no_source_identity | rf_suspended | rf_applying | fetch_in_flight | rf_recovery | confirmation_stale.

Inductive FetchAuthorityReport :=
  | FA_not_applicable
  | FA_fetched_only
  | FA_held (note : string)
  | FA_accepted (rollout : BoundedRollout) (note : option string).
Definition NO_AUTHORITY : FetchAuthorityReport := FA_not_applicable.

Definition operatorHoldNote (reason : string) : string :=
  if bool_decide (is_Some (strip_prefix "The " reason)) then reason else "The candidate was not accepted.".

Definition operatorFetchBlock (app : option ControllerRow) (inFlight : bool)
    : (OperatorFetchRefusalCode * string) + (ControllerRow * string) :=
  match app with
  | None => inl (not_git_managed, "Pull source applies to a Git-managed Blueprint.")
  | Some r =>
      let a := cr_app r in
      if negb (bool_decide (app_target_mode a = blueprint))
         || negb (bool_decide (app_lifecycle_status a = active) || bool_decide (app_lifecycle_status a = creating))
      then inl (not_git_managed, "Pull source applies to a Git-managed Blueprint.")
      else match truthy (match cr_configured_source_stack_name r with Some s => Some s | None => cr_stack_name r end) with
      | None => inl (no_source_identity, "This Blueprint has no Git source to pull.")
      | Some stackName =>
          if cr_suspended r then inl (rf_suspended, "This source is suspended. Resume it before pulling.")
          else if bool_decide (app_active_operation_stage a = Some apply_started)
          then inl (rf_applying, "A fetch cannot start while a candidate is being applied.")
          else if bool_decide (app_interruption_stage a = Some apply_started)
                  && bool_decide (is_Some (app_interruption_generation_id a))
                  && bool_decide (app_interruption_generation_id a = app_candidate_generation_id a)
          then inl (rf_applying, "A fetch cannot start while an interrupted apply is still unresolved.")
          else if inFlight || bool_decide (app_active_operation_stage a = Some fetch_started)
          then inl (fetch_in_flight, "A fetch is already running for this source.")
          else if recoveryWaitHolds r then inl (rf_recovery, "A fetch cannot start while this source is recovering.")
          else inr (r, stackName)
      end
  end.

(** ** The stateful guard (statefulGuard.ts) *)

Inductive StatefulWithdrawalCheck := SW_clear | SW_withdrawn (services : list string) | SW_unreadable (reason : string).

(** [None] for contents that cannot be read, or that do not parse: the names of the
    stateful services of each compose file. *)
Abbreviation Contents := (option (list (option (list string)))).

(** [None] when a file does not parse. *)
Definition statefulNamesAcrossFiles (contents : list (option (list string))) : option (list string) :=
  foldl (fun names parsed =>
    match names, parsed with Some names, Some parsed => Some (foldl set_add names parsed) | _, _ => None end)
    (Some []) contents.

(** The references of the candidate's files; [None] when they cannot be read. *)
Definition candidateImageRefs (staged : option (list (list string))) : option (list string) :=
  foldl (foldl set_add) [] <$> staged.

(** [previous] is the generation in force, [None] when its row is missing or belongs to
    another application; then what its applied or staged copy holds. *)
Definition checkStatefulWithdrawal (accepted : option string) (staged : Contents) (previous : option Contents)
    : StatefulWithdrawalCheck :=
  match staged with
  | None => SW_unreadable "the staged candidate could not be read"
  | Some files =>
  match statefulNamesAcrossFiles files with
  | None => SW_unreadable "the staged candidate compose does not parse"
  | Some next =>
  match truthy accepted with
  | None => SW_clear
  | Some _ =>
  match previous with
  | None => SW_unreadable "the generation in force is missing or belongs to another application"
  | Some None => SW_unreadable "the generation in force could not be read"
  | Some (Some files) =>
  match statefulNamesAcrossFiles files with
  | None => SW_unreadable "the generation in force compose does not parse"
  | Some names =>
      match filter (fun name => name ∉ next) names with
      | [] => SW_clear
      | withdrawn => SW_withdrawn withdrawn
      end
  end end end end end.

(** ** The controller *)

Record Settled := mkSettled { st_outcome : ReconcileOutcome; st_report : FetchAuthorityReport }.

(** What an evaluation past its fetch carries: the row it re-read, and for an operator
    pull the confirmation that came with it. *)
Record Ctx := mkCtx {
  cx_row : ControllerRow;
  cx_stack : string;
  cx_trigger : ReconcileTrigger;
  cx_outcome : ReconcileOutcome;
  cx_followUp : option (option SourceConfirmation);
}.

Inductive Stage :=
  | S_reconcile (stackName : string) (trigger : ReconcileTrigger)
  | S_policy (cx : Ctx) (generation : string)
  | S_revalidate (cx : Ctx)
  | S_prepare (cx : Ctx) (generation : string)
  | S_handoff (cx : Ctx) (generation : string)
  | S_boundedPrepare (cx : Ctx) (generation : string)
  | S_boundedHandoff (cx : Ctx) (generation : string) (prepared : Timed PreparedStep) (preparing : bool)
  | S_dispatch (cx : Ctx) (generation : string)
  | S_over (settled : string + Settled) (pending : option (bool * bool))
  | S_follow (preparing dispatching : bool).

Inductive EvalKind := K_scan | K_now | K_fetch (actor : string) (confirmation : option SourceConfirmation).
Record Eval := mkEval { ev_app : string; ev_kind : EvalKind; ev_stage : Stage }.

Record Controller := mkController {
  ct_timer : option Z;                     (* the handle it keeps *)
  ct_polling : bool;
  ct_generation : Z;
  ct_inFlight : gset string;
  ct_pendingWakes : gmap string string;
  ct_timers : gmap Z Z;                    (* the timers of the event loop, with their generation *)
  ct_evals : gmap Z Eval;
  ct_next : Z;                             (* the next handle or evaluation *)
}.

Definition upd_ct_timer f c := mkController (f (ct_timer c)) (ct_polling c) (ct_generation c) (ct_inFlight c)
  (ct_pendingWakes c) (ct_timers c) (ct_evals c) (ct_next c).
Definition upd_ct_polling f c := mkController (ct_timer c) (f (ct_polling c)) (ct_generation c) (ct_inFlight c)
  (ct_pendingWakes c) (ct_timers c) (ct_evals c) (ct_next c).
Definition upd_ct_generation f c := mkController (ct_timer c) (ct_polling c) (f (ct_generation c)) (ct_inFlight c)
  (ct_pendingWakes c) (ct_timers c) (ct_evals c) (ct_next c).
Definition upd_ct_inFlight f c := mkController (ct_timer c) (ct_polling c) (ct_generation c) (f (ct_inFlight c))
  (ct_pendingWakes c) (ct_timers c) (ct_evals c) (ct_next c).
Definition upd_ct_pendingWakes f c := mkController (ct_timer c) (ct_polling c) (ct_generation c) (ct_inFlight c)
  (f (ct_pendingWakes c)) (ct_timers c) (ct_evals c) (ct_next c).
Definition upd_ct_timers f c := mkController (ct_timer c) (ct_polling c) (ct_generation c) (ct_inFlight c)
  (ct_pendingWakes c) (f (ct_timers c)) (ct_evals c) (ct_next c).
Definition upd_ct_evals f c := mkController (ct_timer c) (ct_polling c) (ct_generation c) (ct_inFlight c)
  (ct_pendingWakes c) (ct_timers c) (f (ct_evals c)) (ct_next c).
Definition upd_ct_next f c := mkController (ct_timer c) (ct_polling c) (ct_generation c) (ct_inFlight c)
  (ct_pendingWakes c) (ct_timers c) (ct_evals c) (f (ct_next c)).

Definition newController : Controller := mkController None false 0 ∅ ∅ ∅ ∅ 1.

(** Why a transition throws; [TE_stale] carries the code [CONFIRMATION_STALE]. *)
Inductive TxError := TE_stale (message : string) | TE_other (message : string).

(** What a continuation reads; [inl] is an exception. *)
Record CtlEnv := mkCtlEnv {
  ce_now : Z;
  ce_random : Q;
  ce_rows : string + list ControllerRow;                      (* the applications, for the scans *)
  ce_live : string -> string + option ControllerRow;          (* getLiveSourceApplication *)
  ce_application : string -> string + option ControllerRow;   (* getApplication *)
  ce_globalMins : string + Z;                                 (* getGitOpsPollIntervalMins *)
  ce_generation : string -> string + bool;                    (* whether getGeneration finds it *)
  ce_images : option (list (list string));
  ce_staged : Contents;
  ce_previous : option Contents;
  ce_tx : string -> option TxError;                           (* a transition of this application throws *)
}.

Inductive CtlEffect :=
  | CE_reconcile (app stackName : string) (trigger : ReconcileTrigger) (actor : string)
  | CE_poll (app : string) (at_ : Z)
  | CE_retry (app : string) (at_ : Q) (count : Z)
  | CE_policy (stackName : string) (imageRefs : list string)
  | CE_revalidate (app generation : string)
  | CE_reviewBlocked (app generation : string)
  | CE_accept (app generation : string) (trigger : ReconcileTrigger) (confirmation : option SourceConfirmation)
  | CE_prepare (app generation : string)
  | CE_handoff (app generation : string)
  | CE_dispatch (app generation : string)
  | CE_refused (app : string) (code : OperatorFetchRefusalCode) (error : string)
  | CE_answer (app : string) (settled : string + Settled) (candidate : option string).

Abbreviation CM := (act Controller CtlEffect).

Definition ACTOR : string := "system:source-controller".

(** ** What a finished fetch does *)

(** A continuation's calls, and where the evaluation stands: [inl] is an exception
    that leaves it. *)
Definition Next : Type := list CtlEffect * (string + Stage).

Definition reports (o : ReconcileOutcome) (r : FetchAuthorityReport) : string + Stage :=
  inr (S_over (inr (mkSettled o r)) None).

Definition effectiveIntervalSecs (env : CtlEnv) (r : ControllerRow) : string + Z :=
  let! mins := ce_globalMins env in inr (effectivePollIntervalSecs (cr_poll_interval_secs r) mins).

Definition maybeScheduleRetry (env : CtlEnv) (r : ControllerRow) : list CtlEffect :=
  let a := cr_app r in
  if is_manual r then []
  else match truthy (app_failure_class a) with
  | None => []
  | Some code =>
      if negb (bool_decide (app_failure_stage a = Some F_fetch)) then []
      else match isGitSourceErrorCode code with
      | None => []
      | Some code =>
          match classifyFailure (git_source_error code None) with
          | C_transient ceiling =>
              if ceiling <=? app_retry_count a then []
              else [CE_retry (cr_id r) (nextRetryAt (ce_random env) (inject_Z (ce_now env)) (app_retry_count a) None)
                      (app_retry_count a + 1)]
          | _ => []
          end
      end
  end.

Definition maybeScheduleNextPoll (env : CtlEnv) (r : ControllerRow) : string + list CtlEffect :=
  if is_manual r then inr []
  else let! secs := effectiveIntervalSecs env r in
       inr (if secs <=? 0 then [] else [CE_poll (cr_id r) (ce_now env + secs * 1000)]).

(** Up to the policy evaluation. *)
Definition maybeAcceptAutomaticCandidate (env : CtlEnv) (cx : Ctx) : Next :=
  let r := cx_row cx in let a := cr_app r in let report := reports (cx_outcome cx) in
  if negb (bool_decide (cr_policy r = sp_automatic)) then ([], report NO_AUTHORITY)
  else match (cx_followUp cx ≫= id) ≫= sourceConfirmationDrift (cr_row r) with
  | Some drift => ([], report (FA_held (driftSentence drift)))
  | None =>
  match truthy (app_candidate_generation_id a) with
  | None => ([], report FA_fetched_only)
  | Some candidate =>
  if bool_decide (app_accepted_generation_id a = Some candidate) then ([], report FA_fetched_only)
  else if bool_decide (is_Some (app_review_block_reason a))
  then ([], report (FA_held "A previous safety check is still waiting for an operator."))
  else match ce_generation env candidate with
  | inl e => ([], inl e)
  | inr false => ([], report (FA_held "The candidate generation is not available."))
  | inr true =>
  match candidateImageRefs (ce_images env) with
  | None => ([], report (FA_held "The candidate could not be read, so it was not accepted."))
  | Some imageRefs => ([CE_policy (cx_stack cx) imageRefs], inr (S_policy cx candidate))
  end end end end.

Definition settleAfterReconcile (env : CtlEnv) (cx : Ctx) : Next :=
  let r := cx_row cx in let o := cx_outcome cx in
  if bool_decide (o = O_failed_previous_intact) || bool_decide (o = O_retry_scheduled)
  then (maybeScheduleRetry env r, reports o NO_AUTHORITY)
  else if SUCCESS_SHAPED o then
    match maybeScheduleNextPoll env r with
    | inl e => ([], inl e)
    | inr polls => let '(effs, next) := maybeAcceptAutomaticCandidate env cx in (polls ++ effs, next)
    end
  else if bool_decide (o = O_recovery_required) && recoveryWaitHolds r then
    match maybeScheduleNextPoll env r with
    | inl e => ([], inl e)
    | inr polls => (polls, reports o NO_AUTHORITY)
    end
  else ([], reports o NO_AUTHORITY).

Inductive PolicyVerdict := PV_allowed | PV_blocked | PV_unavailable.

(** The security policy answers. *)
Definition policySettled (cx : Ctx) (generation : string) (answer : string + PolicyVerdict) : Next :=
  let report := reports (cx_outcome cx) in
  match answer with
  | inl _ => ([], report (FA_held "The security policy could not be evaluated, so the candidate was not accepted."))
  | inr PV_allowed => ([CE_revalidate (cr_id (cx_row cx)) generation], inr (S_revalidate cx))
  | inr _ => ([], report (FA_held "The security policy did not allow this candidate, so it was not accepted."))
  end.

(** The source was revalidated: refused, or the generation to accept. The acceptance
    follows, and what drives the apply. *)
Definition revalidated (env : CtlEnv) (cx : Ctx) (answer : string + (string + string)) : Next :=
  let r := cx_row cx in let report := reports (cx_outcome cx) in
  match answer with
  | inl _ => ([], report (FA_held "The candidate could not be checked again, so it was not accepted."))
  | inr (inl reason) => ([], report (FA_held (operatorHoldNote reason)))
  | inr (inr generation) =>
      match checkStatefulWithdrawal (app_accepted_generation_id (cr_app r)) (ce_staged env) (ce_previous env) with
      | SW_withdrawn _ =>
          ([CE_reviewBlocked (cr_id r) generation],
           report (FA_held "The candidate changes stateful services, so an operator must accept it."))
      | SW_unreadable _ =>
          ([CE_reviewBlocked (cr_id r) generation],
           report (FA_held "A stateful change could not be ruled out, so an operator must accept it."))
      | SW_clear =>
          let accept := CE_accept (cr_id r) generation (cx_trigger cx) (cx_followUp cx ≫= id) in
          match ce_tx env (cr_id r) with
          | Some (TE_stale message) => ([accept], report (FA_held message))
          | Some (TE_other _) => ([accept], report (FA_held "The candidate was not accepted."))
          | None =>
              match app_target_mode (cr_app r), cx_followUp cx with
              | blueprint, Some _ => ([accept; CE_prepare (cr_id r) generation], inr (S_boundedPrepare cx generation))
              | blueprint, None => ([accept; CE_prepare (cr_id r) generation], inr (S_prepare cx generation))
              | _, _ => ([accept; CE_dispatch (cr_id r) generation], inr (S_dispatch cx generation))
              end
          end
      end
  end.

Definition handoffReport (o : GitManagedDispatchOutcome) : FetchAuthorityReport :=
  match do_status o with
  | dispatched => FA_accepted B_started None
  | D_blocked => FA_accepted B_held (Some (default "The rollout did not start." (do_reason o)))
  | skipped => FA_accepted B_not_started (do_reason o)
  end.

Definition dispatchReport (answer : string + option string) : FetchAuthorityReport :=
  match answer with
  | inr (Some reason) => FA_accepted B_held (Some reason)
  | inr None => FA_accepted B_started None
  | inl _ => FA_accepted B_held (Some "The rollout did not start.")
  end.

(** The bounded follow-up of a pull is over: what is reported, and the works that
    still run when a deadline passed. *)
Definition boundedOver (cx : Ctx) (prepared : Timed PreparedStep) (handoff : Timed GitManagedDispatchOutcome)
    (preparing dispatching : bool) : Stage :=
  let p := projectPostAccept prepared handoff in
  S_over (inr (mkSettled (cx_outcome cx) (FA_accepted (bp_rollout p) (bp_authorityNote p))))
    (match prepared, handoff with
     | timed_out, _ | _, timed_out => Some (preparing, dispatching)
     | _, _ => None
     end).

(** ** The timer *)

Definition cancelPending : CM unit :=
  modify (upd_ct_generation (Z.add 1));;
  c ← get;
  match ct_timer c with
  | None => skip
  | Some h => modify (upd_ct_timers (delete h));; modify (upd_ct_timer (fun _ => None))
  end.

Definition armNext : CM unit :=
  c ← get;
  modify (upd_ct_next (Z.add 1));;
  modify (upd_ct_timers (<[ct_next c := ct_generation c]>));;
  modify (upd_ct_timer (fun _ => Some (ct_next c))).

Definition start : CM unit :=
  c ← get;
  if ct_polling c then skip else modify (upd_ct_polling (fun _ => true));; armNext.

Definition stop : CM unit := cancelPending;; modify (upd_ct_polling (fun _ => false)).

Definition restartPolling : CM unit :=
  cancelPending;; c ← get; if ct_polling c then armNext else skip.

(** ** Evaluations *)

Definition setStage (e : Z) (stage_ : Stage) : CM unit :=
  modify (upd_ct_evals (alter (fun x => mkEval (ev_app x) (ev_kind x) stage_) e)).

Definition newEval (app : string) (kind : EvalKind) (stage_ : Stage) : CM unit :=
  c ← get;
  modify (upd_ct_next (Z.add 1));;
  modify (upd_ct_inFlight (fun s => {[app]} ∪ s));;
  modify (upd_ct_evals (<[ct_next c := mkEval app kind stage_]>)).

(** [evaluate] up to its fetch; [inl] in [S_over] is an evaluation without a report. *)
Definition evaluate (env : CtlEnv) (kind : EvalKind) (r : ControllerRow) (override : option ReconcileTrigger) : CM unit :=
  match truthy (match cr_stack_name r with Some s => Some s | None => cr_configured_source_stack_name r end) with
  | None => newEval (cr_id r) kind (S_over (inl "source application has no stack identity") None)
  | Some stackName =>
      if is_manual r then newEval (cr_id r) kind (S_over (inl "manual source") None)
      else
        let trigger := default (if dueAt (ce_now env) (app_retry_at (cr_app r)) then by_retry else by_poll) override in
        tell (CE_reconcile (cr_id r) stackName trigger ACTOR);;
        newEval (cr_id r) kind (S_reconcile stackName trigger)
  end.

(** [Map.set] over the due rows. *)
Fixpoint put_due (r : ControllerRow) (due : list ControllerRow) : list ControllerRow :=
  match due with
  | [] => [r]
  | x :: due => if bool_decide (cr_id x = cr_id r) then r :: due else x :: put_due r due
  end.
Definition dueRows (now : Z) (rows : list ControllerRow) : list ControllerRow :=
  foldl (fun due r => put_due r due) [] (listSourcesDueForPoll now rows ++ listApplicationsDueForRetry now rows).

Definition scan (env : CtlEnv) : CM unit :=
  match ce_rows env with
  | inl _ => skip
  | inr rows =>
      for_each (fun r =>
        c ← get;
        if bool_decide (cr_id r ∈ ct_inFlight c) then skip else evaluate env K_scan r None)
        (dueRows (ce_now env) rows)
  end.

(** The timer [h] fires. *)
Definition tick (env : CtlEnv) (h : Z) : CM unit :=
  c ← get;
  match ct_timers c !! h with
  | None => skip
  | Some gen =>
      modify (upd_ct_timers (delete h));;
      if negb (ct_polling c) || negb (gen =? ct_generation c) then skip
      else
        modify (upd_ct_timer (fun _ => None));;
        scan env;;
        c ← get;
        if ct_polling c && (gen =? ct_generation c) then armNext else skip
  end.

Definition evaluateNow (env : CtlEnv) (stackName : string) : CM unit :=
  match ce_live env stackName with
  | inl _ | inr None => skip
  | inr (Some r) =>
      if is_manual r || cr_suspended r then skip
      else
        c ← get;
        if bool_decide (cr_id r ∈ ct_inFlight c) then modify (upd_ct_pendingWakes (<[cr_id r := stackName]>))
        else evaluate env K_now r (Some by_resume)
  end.

Definition releaseAndDrainWake (env : CtlEnv) (app : string) : CM unit :=
  modify (upd_ct_inFlight (fun s => s ∖ {[app]}));;
  c ← get;
  match ct_pendingWakes c !! app with
  | None => skip
  | Some stackName => modify (upd_ct_pendingWakes (delete app));; evaluateNow env stackName
  end.

Definition requestFetch (env : CtlEnv) (app actor : string) (confirmation : option SourceConfirmation) : CM unit :=
  match ce_application env app with
  | inl _ => skip
  | inr row =>
      c ← get;
      match operatorFetchBlock row (bool_decide (app ∈ ct_inFlight c)) with
      | inl (code, error) => tell (CE_refused app code error)
      | inr (r, stackName) =>
          match confirmation ≫= sourceConfirmationDrift (cr_row r) with
          | Some drift => tell (CE_refused app confirmation_stale (driftSentence drift))
          | None =>
              tell (CE_reconcile (cr_id r) stackName by_manual actor);;
              newEval (cr_id r) (K_fetch actor confirmation) (S_reconcile stackName by_manual)
          end
      end
  end.

Definition rescheduleOne (env : CtlEnv) (r : ControllerRow) : string + list CtlEffect :=
  if is_manual r then inr []
  else if bool_decide (is_Some (app_retry_at (cr_app r))) then inr []
  else maybeScheduleNextPoll env r.

(** A row whose interval cannot be read stops the loop. *)
Fixpoint rescheduleRows (env : CtlEnv) (rows : list ControllerRow) : list CtlEffect :=
  match rows with
  | [] => []
  | r :: rows => match rescheduleOne env r with inl _ => [] | inr effs => effs ++ rescheduleRows env rows end
  end.

Definition listActiveSourceApplications (rows : list ControllerRow) : list ControllerRow :=
  filter (fun r => Is_true (sourceMode r && bool_decide (app_lifecycle_status (cr_app r) = active))) rows.

Definition rescheduleAll (env : CtlEnv) : CM unit :=
  match ce_rows env with
  | inl _ => skip
  | inr rows => for_each tell (rescheduleRows env (listActiveSourceApplications rows))
  end.

(** ** Continuations *)

(** Make a continuation's calls and move the evaluation. *)
Definition proceed (e : Z) (next : Next) : CM unit :=
  for_each tell next.1;; setStage e (match next.2 with inl err => S_over (inl err) None | inr s => s end).

Definition followUpOf (kind : EvalKind) : option (option SourceConfirmation) :=
  match kind with K_fetch _ confirmation => Some confirmation | _ => None end.

Definition reconciled (env : CtlEnv) (e : Z) (answer : string + ReconcileOutcome) : CM unit :=
  c ← get;
  match ct_evals c !! e with
  | Some (mkEval app kind (S_reconcile stackName trigger)) =>
      match answer with
      | inl err => proceed e ([], inl err)
      | inr outcome =>
          match ce_application env app with
          | inl err => proceed e ([], inl err)
          | inr None => proceed e ([], reports outcome NO_AUTHORITY)
          | inr (Some fresh) => proceed e (settleAfterReconcile env (mkCtx fresh stackName trigger outcome (followUpOf kind)))
          end
      end
  | _ => skip
  end.

Definition policyAnswers (e : Z) (answer : string + PolicyVerdict) : CM unit :=
  c ← get;
  match ct_evals c !! e with
  | Some (mkEval _ _ (S_policy cx generation)) => proceed e (policySettled cx generation answer)
  | _ => skip
  end.

Definition revalidationAnswers (env : CtlEnv) (e : Z) (answer : string + (string + string)) : CM unit :=
  c ← get;
  match ct_evals c !! e with
  | Some (mkEval _ _ (S_revalidate cx)) => proceed e (revalidated env cx answer)
  | _ => skip
  end.

(** The preparation answers, in time or after its deadline. *)
Definition preparationAnswers (e : Z) (answer : string + PreparedStep) : CM unit :=
  c ← get;
  match ct_evals c !! e with
  | Some (mkEval app _ (S_prepare cx g)) =>
      proceed e (match answer with
                 | inl err => ([], inl err)
                 | inr _ => ([CE_handoff (cr_id (cx_row cx)) g], inr (S_handoff cx g))
                 end)
  | Some (mkEval app _ (S_boundedPrepare cx g)) =>
      proceed e ([CE_handoff (cr_id (cx_row cx)) g],
                 inr (S_boundedHandoff cx g (match answer with inl _ => rejected | inr p => fulfilled p end) false))
  | Some (mkEval _ _ (S_boundedHandoff cx g prepared true)) => setStage e (S_boundedHandoff cx g prepared false)
  | Some (mkEval _ _ (S_over settled (Some (true, d)))) => setStage e (S_over settled (Some (false, d)))
  | Some (mkEval _ _ (S_follow true d)) => setStage e (S_follow false d)
  | _ => skip
  end.

(** The handoff answers, in time or after its deadline. *)
Definition handoffAnswers (e : Z) (answer : string + GitManagedDispatchOutcome) : CM unit :=
  c ← get;
  match ct_evals c !! e with
  | Some (mkEval _ _ (S_handoff cx g)) =>
      proceed e ([], match answer with inl err => inl err | inr o => reports (cx_outcome cx) (handoffReport o) end)
  | Some (mkEval _ _ (S_boundedHandoff cx g prepared preparing)) =>
      setStage e (boundedOver cx prepared (match answer with inl _ => rejected | inr o => fulfilled o end) preparing false)
  | Some (mkEval _ _ (S_over settled (Some (p, true)))) => setStage e (S_over settled (Some (p, false)))
  | Some (mkEval _ _ (S_follow p true)) => setStage e (S_follow p false)
  | _ => skip
  end.

(** The 15 seconds of a bounded step pass. *)
Definition deadlinePasses (e : Z) : CM unit :=
  c ← get;
  match ct_evals c !! e with
  | Some (mkEval _ _ (S_boundedPrepare cx g)) =>
      proceed e ([CE_handoff (cr_id (cx_row cx)) g], inr (S_boundedHandoff cx g timed_out true))
  | Some (mkEval _ _ (S_boundedHandoff cx g prepared preparing)) =>
      setStage e (boundedOver cx prepared timed_out preparing true)
  | _ => skip
  end.

Definition dispatchAnswers (e : Z) (answer : string + option string) : CM unit :=
  c ← get;
  match ct_evals c !! e with
  | Some (mkEval _ _ (S_dispatch cx g)) => proceed e ([], reports (cx_outcome cx) (dispatchReport answer))
  | _ => skip
  end.

(** The answer of a pull. *)
Definition answerPull (env : CtlEnv) (app : string) (kind : EvalKind) (settled : string + Settled) : CM unit :=
  match kind with
  | K_fetch _ _ =>
      tell (match settled, ce_application env app with
            | inl err, _ | _, inl err => CE_answer app (inl err) None
            | inr s, inr row => CE_answer app (inr s) (row ≫= fun r => app_candidate_generation_id (cr_app r))
            end)
  | _ => skip
  end.

Definition finish (env : CtlEnv) (e : Z) (app : string) : CM unit :=
  modify (upd_ct_evals (delete e));; releaseAndDrainWake env app.

(** The promise of an evaluation that is over settles: the pull is answered, and the
    slot is released, or kept for what still runs. *)
Definition evaluationOver (env : CtlEnv) (e : Z) : CM unit :=
  c ← get;
  match ct_evals c !! e with
  | Some (mkEval app kind (S_over settled pending)) =>
      answerPull env app kind settled;;
      match pending with
      | Some (preparing, dispatching) => setStage e (S_follow preparing dispatching)
      | None => finish env e app
      end
  | _ => skip
  end.

Definition followOver (env : CtlEnv) (e : Z) : CM unit :=
  c ← get;
  match ct_evals c !! e with
  | Some (mkEval app _ (S_follow false false)) => finish env e app
  | _ => skip
  end.

(** ** Events *)

Inductive CtlEvent :=
  | EvStart_ | EvStop_ | EvRestart | EvReschedule
  | EvTimer (h : Z)
  | EvNow (stackName : string)
  | EvPull (app actor : string) (confirmation : option SourceConfirmation)
  | EvReconciled (e : Z) (answer : string + ReconcileOutcome)
  | EvPolicy (e : Z) (answer : string + PolicyVerdict)
  | EvRevalidated (e : Z) (answer : string + (string + string))
  | EvPrepared (e : Z) (answer : string + PreparedStep)
  | EvHandedOff (e : Z) (answer : string + GitManagedDispatchOutcome)
  | EvDispatched (e : Z) (answer : string + option string)
  | EvDeadline (e : Z)
  | EvEvaluated (e : Z)
  | EvFollowed (e : Z).

Definition ctl_run (env : CtlEnv) (ev : CtlEvent) : CM unit :=
  match ev with
  | EvStart_ => start
  | EvStop_ => stop
  | EvRestart => restartPolling
  | EvReschedule => rescheduleAll env
  | EvTimer h => tick env h
  | EvNow stackName => evaluateNow env stackName
  | EvPull app actor confirmation => requestFetch env app actor confirmation
  | EvReconciled e a => reconciled env e a
  | EvPolicy e a => policyAnswers e a
  | EvRevalidated e a => revalidationAnswers env e a
  | EvPrepared e a => preparationAnswers e a
  | EvHandedOff e a => handoffAnswers e a
  | EvDispatched e a => dispatchAnswers e a
  | EvDeadline e => deadlinePasses e
  | EvEvaluated e => evaluationOver env e
  | EvFollowed e => followOver env e
  end.

(** A lookup by identifier gives the row of that identifier. *)
Definition env_ok (env : CtlEnv) : Prop := forall id r, ce_application env id = inr (Some r) -> cr_id r = id.

Inductive ctl_step : Controller -> Controller -> Prop :=
  | ctl_step_intro env ev c : env_ok env -> ctl_step c (state (ctl_run env ev) c).

Definition ctl_reachable (c : Controller) : Prop := rtc ctl_step newController c.
