(* ===== verification/ControllerSteps.v ===== *)
(** * The source controller: what every event keeps

    The invariants of Controller.v's states: the timer, the slots of evaluations and
    the wakes parked on them, and what the stage of an evaluation says. *)

From S2P Require Import Prelude Reconcile Backoff SourceRows SourceTx Handoff Controller.

(** ** The timer *)

(** A timer is pending exactly while the controller polls; it is the one it keeps. *)
Record TimerInv (c : Controller) : Prop := {
  ti_kept : forall h g, ct_timers c !! h = Some g -> ct_timer c = Some h /\ g = ct_generation c /\ ct_polling c = true;
  ti_armed : ct_polling c = true -> exists h, ct_timer c = Some h /\ ct_timers c !! h = Some (ct_generation c);
  ti_timer : forall h, ct_timer c = Some h -> ct_timers c !! h = Some (ct_generation c);
  ti_fresh : forall h g, ct_timers c !! h = Some g -> h < ct_next c;
}.

(** Nothing of the timer changed, but fresh handles were used. *)
Definition same_timer (c c' : Controller) : Prop :=
  ct_timer c' = ct_timer c /\ ct_polling c' = ct_polling c /\ ct_generation c' = ct_generation c
  /\ ct_timers c' = ct_timers c /\ ct_next c <= ct_next c'.

#[export] Instance same_timer_preorder : PreOrder same_timer.
Proof.
  split; [intros c; unfold same_timer; split_and!; done || lia|].
  intros a b c (A1 & A2 & A3 & A4 & A5) (B1 & B2 & B3 & B4 & B5). unfold same_timer. split_and!; (congruence || lia).
Qed.

Lemma same_timer_inv c c' : same_timer c c' -> TimerInv c -> TimerInv c'.
Proof.
  intros (E1 & E2 & E3 & E4 & E5) [K A T F].
  split; rewrite ?E1, ?E2, ?E3, ?E4; try done. intros h g H. specialize (F h g H). lia.
Qed.

(** ** The slots *)

(** What a candidate's row said when the policy was asked about it. *)
Definition acceptable_row (cx : Ctx) (generation : string) : Prop :=
  let r := cx_row cx in
  cr_policy r = sp_automatic /\ SUCCESS_SHAPED (cx_outcome cx) = true /\
  app_candidate_generation_id (cr_app r) = Some generation /\
  app_accepted_generation_id (cr_app r) <> Some generation /\ app_review_block_reason (cr_app r) = None /\
  (cx_followUp cx ≫= id) ≫= sourceConfirmationDrift (cr_row r) = None.

Definition ctx_ok (app : string) (kind : EvalKind) (cx : Ctx) : Prop :=
  cr_id (cx_row cx) = app /\ cx_followUp cx = followUpOf kind /\ cr_policy (cx_row cx) = sp_automatic.

Definition is_pull (kind : EvalKind) : Prop := match kind with K_fetch _ _ => True | _ => False end.

Definition stage_ok (app : string) (kind : EvalKind) (s : Stage) : Prop :=
  match s with
  | S_reconcile _ trigger =>
      match kind with
      | K_scan => trigger = by_poll \/ trigger = by_retry
      | K_now => trigger = by_resume
      | K_fetch _ _ => trigger = by_manual
      end
  | S_policy cx g => ctx_ok app kind cx /\ acceptable_row cx g
  | S_revalidate cx => ctx_ok app kind cx /\ exists g, acceptable_row cx g
  | S_prepare cx _ | S_handoff cx _ => ctx_ok app kind cx /\ ~ is_pull kind
  | S_boundedPrepare cx _ | S_boundedHandoff cx _ _ _ => ctx_ok app kind cx /\ is_pull kind
  | S_dispatch cx _ => ctx_ok app kind cx
  | S_over _ pending => is_Some pending -> is_pull kind
  | S_follow _ _ => is_pull kind
  end.

(** An application is in flight exactly while one evaluation of it exists, and a wake
    is parked only then. *)
Record SlotInv (c : Controller) : Prop := {
  si_slot : forall e x, ct_evals c !! e = Some x -> ev_app x ∈ ct_inFlight c;
  si_owner : forall app, app ∈ ct_inFlight c -> exists e x, ct_evals c !! e = Some x /\ ev_app x = app;
  si_once : forall e1 e2 x1 x2, ct_evals c !! e1 = Some x1 -> ct_evals c !! e2 = Some x2 ->
    ev_app x1 = ev_app x2 -> e1 = e2;
  si_wakes : forall app s, ct_pendingWakes c !! app = Some s -> app ∈ ct_inFlight c;
  si_stage : forall e x, ct_evals c !! e = Some x -> stage_ok (ev_app x) (ev_kind x) (ev_stage x);
  si_fresh : forall e x, ct_evals c !! e = Some x -> e < ct_next c;
}.

Definition same_slots (c c' : Controller) : Prop :=
  ct_inFlight c' = ct_inFlight c /\ ct_pendingWakes c' = ct_pendingWakes c /\ ct_evals c' = ct_evals c
  /\ ct_next c <= ct_next c'.

Lemma same_slots_inv c c' : same_slots c c' -> SlotInv c -> SlotInv c'.
Proof.
  intros (E1 & E2 & E3 & E4) [S O N W St F].
  split; rewrite ?E1, ?E2, ?E3; try done. intros e x H. specialize (F e x H). lia.
Qed.

Lemma newController_inv : TimerInv newController /\ SlotInv newController.
Proof. split; split; simpl; intros; map_cases; set_solver. Qed.

(** *** Field by field *)

Lemma timer_setStage e s c : same_timer c (state (setStage e s) c).
Proof. unfold setStage. act_run. unfold same_timer. simpl. split_and!; done || lia. Qed.
Lemma timer_newEval app kind s c : same_timer c (state (newEval app kind s) c).
Proof. unfold newEval. act_run. unfold same_timer. simpl. split_and!; done || lia. Qed.
Lemma timer_evaluate env kind r o c : same_timer c (state (evaluate env kind r o) c).
Proof. unfold evaluate. act_cases; apply timer_newEval. Qed.
Lemma timer_evaluateNow env s c : same_timer c (state (evaluateNow env s) c).
Proof.
  unfold evaluateNow. destruct (ce_live env s) as [|[r|]]; [done| |done]. destruct (_ || _); [done|].
  act_run. destruct (bool_decide _); [by act_run|apply timer_evaluate].
Qed.
Lemma timer_release env app c : same_timer c (state (releaseAndDrainWake env app) c).
Proof.
  unfold releaseAndDrainWake. act_run. destruct (ct_pendingWakes c !! app); [|done]. act_run.
  etransitivity; [|apply timer_evaluateNow]. done.
Qed.
Lemma timer_proceed e n c : same_timer c (state (proceed e n) c).
Proof. unfold proceed. act_run. apply timer_setStage. Qed.
Lemma timer_finish env e app c : same_timer c (state (finish env e app) c).
Proof. unfold finish. act_run. etransitivity; [|apply timer_release]. done. Qed.
Lemma timer_scan env c : same_timer c (state (scan env) c).
Proof.
  unfold scan. destruct (ce_rows env); [done|]. apply for_each_ind; [done|]. intros r c' _ H.
  etransitivity; [exact H|]. act_run. destruct (bool_decide _); [done|apply timer_evaluate].
Qed.

Lemma effs_only (l : list CtlEffect) c : state (for_each (tell (S := Controller)) l) c = c.
Proof. induction l as [|x l IH]; [done|]. simpl. by rewrite state_bind. Qed.

(** Events of evaluations leave the timer alone. *)
Definition timer_event (ev : CtlEvent) : Prop :=
  match ev with EvStart_ | EvStop_ | EvRestart | EvTimer _ => True | _ => False end.

Lemma timer_run env ev c : ~ timer_event ev -> same_timer c (state (ctl_run env ev) c).
Proof.
  intros Hev. destruct ev; try (by destruct Hev); unfold ctl_run.
  - unfold rescheduleAll. destruct (ce_rows env); [done|]. by rewrite effs_only.
  - apply timer_evaluateNow.
  - unfold requestFetch. destruct (ce_application env app); [done|]. act_run.
    destruct (operatorFetchBlock _ _) as [[]|[]]; [done|]. destruct (confirmation ≫= _); [done|]. act_run.
    apply timer_newEval.
  - unfold reconciled. act_run. destruct (ct_evals c !! e) as [[app kind []]|]; try done.
    destruct answer as [|o]; [apply timer_proceed|]. destruct (ce_application env app) as [|[]]; apply timer_proceed.
  - unfold policyAnswers. act_run. destruct (ct_evals c !! e) as [[app kind []]|]; try done. apply timer_proceed.
  - unfold revalidationAnswers. act_run. destruct (ct_evals c !! e) as [[app kind []]|]; try done. apply timer_proceed.
  - unfold preparationAnswers. act_run.
    destruct (ct_evals c !! e) as [[app kind []]|]; try done; try apply timer_proceed; repeat case_match; try done;
      apply timer_setStage.
  - unfold handoffAnswers. act_run.
    destruct (ct_evals c !! e) as [[app kind []]|]; try done; try apply timer_proceed; repeat case_match; try done;
      apply timer_setStage.
  - unfold dispatchAnswers. act_run. destruct (ct_evals c !! e) as [[app kind []]|]; try done; apply timer_proceed.
  - unfold deadlinePasses. act_run. destruct (ct_evals c !! e) as [[app kind []]|]; try done;
      first [apply timer_proceed|apply timer_setStage].
  - unfold evaluationOver. act_run. destruct (ct_evals c !! e) as [[app kind []]|]; try done. act_run.
    assert (state (answerPull env app kind settled) c = c) as -> by (unfold answerPull; by destruct kind).
    destruct pending as [[]|]; [apply timer_setStage|apply timer_finish].
  - unfold followOver. act_run. destruct (ct_evals c !! e) as [[app kind []]|]; try done. repeat case_match; try done.
    apply timer_finish.
Qed.

(** *** The timer's own events *)

Lemma tinv_cancelPending c : TimerInv c -> TimerInv (upd_ct_polling (fun _ => false) (state cancelPending c)) /\
  ct_timers (state cancelPending c) = ∅ /\ ct_timer (state cancelPending c) = None /\
  ct_polling (state cancelPending c) = ct_polling c /\ ct_next (state cancelPending c) = ct_next c.
Proof.
  intros [K A T F].
  assert (ct_timers (state cancelPending c) = ∅ /\ ct_timer (state cancelPending c) = None /\
    ct_polling (state cancelPending c) = ct_polling c /\ ct_next (state cancelPending c) = ct_next c) as (E1 & E2 & E3 & E4).
  { unfold cancelPending. act_run. destruct (ct_timer c) as [h|] eqn:Ht; act_run; split_and!; try done.
    - apply map_eq. intros h'. rewrite lookup_empty, lookup_delete. case_decide as E; [done|].
      destruct (ct_timers c !! h') eqn:Eh; [|done]. destruct (K _ _ Eh) as (Ek & _). congruence.
    - apply map_empty. intros h'. destruct (ct_timers c !! h') eqn:Eh; [|done].
      destruct (K _ _ Eh) as (Ek & _). congruence. }
  split_and!; try done. split; simpl; rewrite ?E1, ?E2; intros; map_cases; done.
Qed.

(** Arming when nothing is pending. *)
Lemma tinv_armNext c : ct_timers c = ∅ -> ct_polling c = true -> TimerInv (state armNext c).
Proof.
  intros E Hp. unfold armNext. act_run. split; simpl; rewrite E.
  - intros h g H. map_cases. done.
  - intros _. exists (ct_next c). by rewrite lookup_insert_eq.
  - intros h [= <-]. apply lookup_insert_eq.
  - intros h g H. map_cases. lia.
Qed.

Lemma tinv_start c : TimerInv c -> TimerInv (state start c).
Proof.
  intros I. unfold start. act_run. destruct (ct_polling c) eqn:Hp; [done|]. act_run.
  change (TimerInv (state armNext (upd_ct_polling (fun _ => true) c))). apply tinv_armNext; [|done].
  apply map_empty. intros h. simpl. destruct (ct_timers c !! h) eqn:E; [|done].
  destruct (ti_kept _ I _ _ E) as (_ & _ & ?). congruence.
Qed.

Lemma tinv_stop c : TimerInv c -> TimerInv (state stop c).
Proof. intros I. unfold stop. act_run. by apply tinv_cancelPending. Qed.

Lemma tinv_restart c : TimerInv c -> TimerInv (state restartPolling c).
Proof.
  intros I. unfold restartPolling. act_run. destruct (tinv_cancelPending c I) as (I' & E1 & E2 & E3 & E4).
  destruct (ct_polling _) eqn:Hp; [by apply tinv_armNext|]. act_run.
  split; rewrite ?E1, ?E2, ?Hp; intros; map_cases; done.
Qed.

(** The guard of a tick never refuses: the timer that fires is the current one. *)
Lemma tick_guard c h g : TimerInv c -> ct_timers c !! h = Some g ->
  negb (ct_polling c) || negb (g =? ct_generation c) = false.
Proof. intros I H. destruct (ti_kept _ I _ _ H) as (_ & -> & ->). by rewrite Z.eqb_refl. Qed.

Lemma state_tick env h g c : TimerInv c -> ct_timers c !! h = Some g ->
  state (tick env h) c = state armNext (state (scan env) (upd_ct_timer (fun _ => None) (upd_ct_timers (delete h) c))).
Proof.
  intros I H. unfold tick. act_run. rewrite H, (tick_guard _ _ _ I H). act_run.
  set (c1 := upd_ct_timer _ _). destruct (timer_scan env c1) as (_ & E1 & E2 & _). rewrite E1, E2.
  destruct (ti_kept _ I _ _ H) as (_ & -> & E). simpl. rewrite E, Z.eqb_refl. simpl. by act_run.
Qed.

Lemma tinv_tick env h c : TimerInv c -> TimerInv (state (tick env h) c).
Proof.
  intros I. destruct (ct_timers c !! h) as [g|] eqn:H; [|unfold tick; act_run; by rewrite H].
  rewrite (state_tick _ _ g) by done. set (c1 := upd_ct_timer _ _).
  destruct (timer_scan env c1) as (_ & E1 & _ & E2 & _). apply tinv_armNext.
  - rewrite E2. simpl. apply map_empty. intros h'. rewrite lookup_delete. case_decide; [done|].
    destruct (ct_timers c !! h') eqn:E; [|done].
    destruct (ti_kept _ I _ _ E) as (Ek & _), (ti_kept _ I _ _ H) as (Ek' & _). congruence.
  - rewrite E1. by destruct (ti_kept _ I _ _ H) as (_ & _ & ?).
Qed.

Lemma tinv_run env ev c : TimerInv c -> TimerInv (state (ctl_run env ev) c).
Proof.
  intros I. destruct ev; try (by eapply same_timer_inv; [apply timer_run; intros []|]); unfold ctl_run.
  - by apply tinv_start.
  - by apply tinv_stop.
  - by apply tinv_restart.
  - by apply tinv_tick.
Qed.

(** *** Slots *)

Lemma sinv_setStage e x s c : SlotInv c -> ct_evals c !! e = Some x -> stage_ok (ev_app x) (ev_kind x) s ->
  SlotInv (state (setStage e s) c).
Proof.
  intros [S O N W St F] He Hs. unfold setStage. act_run.
  assert (forall e' x', alter (fun x => mkEval (ev_app x) (ev_kind x) s) e (ct_evals c) !! e' = Some x' ->
    exists x0, ct_evals c !! e' = Some x0 /\ ev_app x' = ev_app x0 /\
      (x' = x0 \/ stage_ok (ev_app x') (ev_kind x') (ev_stage x'))) as Hold.
  { intros e' x' H. rewrite lookup_alter in H. case_decide; [subst; rewrite He in H; simplify_eq/=; eauto|eauto]. }
  split; simpl.
  - intros e' x' (x0 & H & -> & _)%Hold. eauto.
  - intros app (e' & x' & H & Happ)%O. destruct (decide (e = e')) as [<-|].
    + simplify_eq. eexists e, _. by rewrite lookup_alter_eq, He.
    + exists e', x'. by rewrite lookup_alter_ne.
  - intros e1 e2 x1 x2 (y1 & H1 & -> & _)%Hold (y2 & H2 & -> & _)%Hold. eauto.
  - eauto.
  - intros e' x' (x0 & H & _ & [->|?])%Hold; eauto.
  - intros e' x' (x0 & H & _)%Hold. eauto.
Qed.

Lemma sinv_newEval app kind s c : SlotInv c -> app ∉ ct_inFlight c -> stage_ok app kind s ->
  SlotInv (state (newEval app kind s) c).
Proof.
  intros [S O N W St F] Hn Hs. unfold newEval. act_run. split; simpl.
  - intros e x [[<- <-]|[_ H]]%lookup_insert_Some; [set_solver|]. apply elem_of_union_r. eauto.
  - intros app' [->%elem_of_singleton|H]%elem_of_union.
    + eexists _, _. by rewrite lookup_insert_eq.
    + destruct (O _ H) as (e & x & He & Hx). exists e, x. specialize (F _ _ He). by rewrite lookup_insert_ne by lia.
  - intros e1 e2 x1 x2 [[<- <-]|[? H1]]%lookup_insert_Some [[<- <-]|[? H2]]%lookup_insert_Some E; simpl in E; eauto.
    + destruct Hn. rewrite E. eauto.
    + destruct Hn. rewrite <-E. eauto.
  - intros app' s' H. apply elem_of_union_r. eauto.
  - intros e x [[<- <-]|[_ H]]%lookup_insert_Some; eauto.
  - intros e x [[<- <-]|[_ H]]%lookup_insert_Some; [lia|]. specialize (F _ _ H). lia.
Qed.

Lemma sinv_wake app s c : SlotInv c -> app ∈ ct_inFlight c -> SlotInv (upd_ct_pendingWakes (<[app := s]>) c).
Proof. intros [S O N W St F] Hin. split; simpl; try done. intros app' s' H. map_cases; eauto. Qed.

Lemma sinv_evaluate env kind r o c : SlotInv c -> cr_id r ∉ ct_inFlight c ->
  match kind with K_scan => o = None | K_now => o = Some by_resume | K_fetch _ _ => False end ->
  SlotInv (state (evaluate env kind r o) c).
Proof.
  intros I Hn Hk. unfold evaluate. destruct (truthy _); [|by apply sinv_newEval; [..|intros [? ?]]].
  destruct (is_manual r); [by apply sinv_newEval; [..|intros [? ?]]|]. act_run. apply sinv_newEval; [done..|].
  destruct kind; subst; simpl; try done. case_match; auto.
Qed.

Lemma sinv_evaluateNow env s c : SlotInv c -> SlotInv (state (evaluateNow env s) c).
Proof.
  intros I. unfold evaluateNow. destruct (ce_live env s) as [|[r|]]; [done| |done]. destruct (_ || _); [done|].
  act_run. case_bool_decide; [by apply sinv_wake|by apply sinv_evaluate].
Qed.

(** An evaluation that is over releases its slot; the wake that was parked on it runs. *)
Lemma sinv_finish env e x c : SlotInv c -> ct_evals c !! e = Some x -> SlotInv (state (finish env e (ev_app x)) c).
Proof.
  intros [S O N W St F] He. unfold finish, releaseAndDrainWake. act_run.
  assert (forall f, (forall app s, f (ct_pendingWakes c) !! app = Some s -> ct_pendingWakes c !! app = Some s) ->
    f (ct_pendingWakes c) !! ev_app x = None ->
    SlotInv (upd_ct_pendingWakes f (upd_ct_inFlight (fun s => s ∖ {[ev_app x]}) (upd_ct_evals (delete e) c)))) as Hrel.
  { intros f Hf Hx. split; simpl.
    - intros e' x' [Hne H]%lookup_delete_Some. apply elem_of_difference. split; [eauto|].
      intros E%elem_of_singleton. apply Hne. symmetry. by eapply N.
    - intros app [H Ha]%elem_of_difference. destruct (O _ H) as (e' & x' & H' & <-). exists e', x'. split; [|done].
      apply lookup_delete_Some. split; [|done]. intros <-. set_solver.
    - intros e1 e2 x1 x2 [_ H1]%lookup_delete_Some [_ H2]%lookup_delete_Some. eauto.
    - intros app s H. apply elem_of_difference. split; [eauto|]. intros ->%elem_of_singleton. congruence.
    - intros e' x' [_ H]%lookup_delete_Some. eauto.
    - intros e' x' [_ H]%lookup_delete_Some. eauto. }
  destruct (ct_pendingWakes c !! ev_app x) as [s|] eqn:Hw.
  - act_run. apply sinv_evaluateNow. apply Hrel; [by intros ? ? [_ ?]%lookup_delete_Some|apply lookup_delete_eq].
  - specialize (Hrel id ltac:(done) Hw). destruct c. exact Hrel.
Qed.

Lemma sinv_scan env c : SlotInv c -> SlotInv (state (scan env) c).
Proof.
  intros I. unfold scan. destruct (ce_rows env); [done|]. apply for_each_ind; [done|]. intros r c' _ I'. act_run.
  case_bool_decide; [done|]. by apply sinv_evaluate.
Qed.

(** *** Continuations *)

Definition next_ok (app : string) (kind : EvalKind) (n : Next) : Prop :=
  match n.2 with inl _ => True | inr s => stage_ok app kind s end.

Lemma sinv_proceed e x n c : SlotInv c -> ct_evals c !! e = Some x -> next_ok (ev_app x) (ev_kind x) n ->
  SlotInv (state (proceed e n) c).
Proof.
  intros I He Hn. unfold proceed. act_run. apply (sinv_setStage e x); [done..|].
  unfold next_ok in Hn. destruct n.2; [by intros [? ?]|done].
Qed.

Lemma next_accept env cx app kind : cr_id (cx_row cx) = app -> cx_followUp cx = followUpOf kind ->
  SUCCESS_SHAPED (cx_outcome cx) = true -> next_ok app kind (maybeAcceptAutomaticCandidate env cx).
Proof.
  intros Hid Hf Ho. unfold next_ok, maybeAcceptAutomaticCandidate, reports.
  case_bool_decide as Hp; [|by intros [? ?]]. simpl. destruct (_ ≫= sourceConfirmationDrift _) eqn:Hd; [by intros [? ?]|].
  destruct (truthy (app_candidate_generation_id _)) as [g|] eqn:Hg; [|by intros [? ?]].
  case_bool_decide as Ha; [by intros [? ?]|]. case_bool_decide as Hr; [by intros [? ?]|].
  destruct (ce_generation env g) as [|[]]; [done| |by intros [? ?]].
  destruct (candidateImageRefs _); [|by intros [? ?]]. simpl. split; [done|]. unfold acceptable_row. split_and!; try done.
  - destruct (app_candidate_generation_id _) as [[|]|]; simpl in Hg; congruence.
  - by apply eq_None_not_Some.
Qed.

Lemma next_settle env cx app kind : cr_id (cx_row cx) = app -> cx_followUp cx = followUpOf kind ->
  next_ok app kind (settleAfterReconcile env cx).
Proof.
  intros Hid Hf. unfold settleAfterReconcile. destruct (_ || _); [by intros [? ?]|].
  destruct (SUCCESS_SHAPED (cx_outcome cx)) eqn:Ho.
  - destruct (maybeScheduleNextPoll _ _); [done|]. pose proof (next_accept env cx app kind Hid Hf Ho) as H.
    destruct (maybeAcceptAutomaticCandidate env cx). exact H.
  - destruct (_ && _); [|by intros [? ?]]. destruct (maybeScheduleNextPoll _ _); [done|by intros [? ?]].
Qed.

Lemma next_policy cx g app kind a : ctx_ok app kind cx -> acceptable_row cx g -> next_ok app kind (policySettled cx g a).
Proof. intros H1 H2. destruct a as [|[]]; try by intros [? ?]. split; [done|by exists g]. Qed.

Lemma next_revalidated env cx app kind a : ctx_ok app kind cx -> next_ok app kind (revalidated env cx a).
Proof.
  intros H. destruct a as [|[|g]]; try by intros [? ?]. unfold revalidated.
  destruct (checkStatefulWithdrawal _ _ _); try by intros [? ?]. destruct (ce_tx _ _) as [[]|]; try by intros [? ?].
  pose proof H as (_ & H2 & _). destruct (app_target_mode _), (cx_followUp cx) eqn:Hf; try exact H.
  all: split; [exact H|]; destruct kind; (done || by intros []).
Qed.

Lemma stage_boundedOver cx p h b d app kind : is_pull kind -> stage_ok app kind (boundedOver cx p h b d).
Proof. intros H. unfold boundedOver. simpl. by intros _. Qed.

Lemma operatorFetchBlock_inr row b r s : operatorFetchBlock row b = inr (r, s) -> row = Some r /\ b = false.
Proof.
  unfold operatorFetchBlock. destruct row as [r'|]; [|done]. intros H.
  repeat case_match; simplify_eq; split; try done; by destruct b.
Qed.

Ltac solve_slots := unfold same_slots; simpl; split_and!; done || lia.

Lemma sinv_run env ev c : env_ok env -> SlotInv c -> SlotInv (state (ctl_run env ev) c).
Proof.
  intros Henv I. assert (forall e app kind s, ct_evals c !! e = Some (mkEval app kind s) -> stage_ok app kind s) as Hst
    by (intros e app kind s H; apply (si_stage _ I _ _ H)).
  destruct ev; unfold ctl_run.
  - eapply same_slots_inv; [|done]. unfold start, armNext. act_cases; solve_slots.
  - eapply same_slots_inv; [|done]. unfold stop, cancelPending. act_cases; solve_slots.
  - eapply same_slots_inv; [|done]. unfold restartPolling, cancelPending, armNext.
    act_cases; solve_slots.
  - unfold rescheduleAll. destruct (ce_rows env); [done|]. by rewrite effs_only.
  - unfold tick. act_run. destruct (ct_timers c !! h); [|done]. act_run. case_match; [eapply same_slots_inv; [|exact I]; solve_slots|]. act_run.
    assert (SlotInv (state (scan env) (upd_ct_timer (fun _ => None) (upd_ct_timers (delete h) c)))) as I'.
    { apply sinv_scan. eapply same_slots_inv; [|exact I]. solve_slots. }
    case_match; [|done]. eapply same_slots_inv; [|exact I']. unfold armNext. act_run.
    solve_slots.
  - by apply sinv_evaluateNow.
  - unfold requestFetch. destruct (ce_application env app) as [|row] eqn:Happ; [done|]. act_run.
    destruct (operatorFetchBlock _ _) as [[]|[r s]] eqn:Hb; [done|]. destruct (confirmation ≫= _); [done|]. act_run.
    apply operatorFetchBlock_inr in Hb as [-> Hb%bool_decide_eq_false]. rewrite (Henv _ _ Happ).
    by apply sinv_newEval.
  - unfold reconciled. act_run. destruct (ct_evals c !! e) as [[app kind []]|] eqn:He; try done.
    destruct answer as [|o]; [by eapply sinv_proceed|].
    destruct (ce_application env app) as [|[r|]] eqn:Happ; (eapply sinv_proceed; [done..|]); [done| |by intros [? ?]].
    apply next_settle; [by apply Henv|done].
  - unfold policyAnswers. act_run. destruct (ct_evals c !! e) as [[app kind []]|] eqn:He; try done.
    destruct (Hst _ _ _ _ He). eapply sinv_proceed; [done..|]. by apply next_policy.
  - unfold revalidationAnswers. act_run. destruct (ct_evals c !! e) as [[app kind []]|] eqn:He; try done.
    destruct (Hst _ _ _ _ He). eapply sinv_proceed; [done..|]. by apply next_revalidated.
  - unfold preparationAnswers. act_run. destruct (ct_evals c !! e) as [[app kind []]|] eqn:He; try done;
      pose proof (Hst _ _ _ _ He) as Hs; repeat case_match; try done.
    all: first [eapply sinv_proceed; [done..|] | eapply sinv_setStage; [done..|]]; try done;
      first [by intros _; apply Hs; eexists | by destruct Hs].
  - unfold handoffAnswers. act_run. destruct (ct_evals c !! e) as [[app kind []]|] eqn:He; try done;
      pose proof (Hst _ _ _ _ He) as Hs; repeat case_match; try done.
    all: first [eapply sinv_proceed; [done..|] | eapply sinv_setStage; [done..|]]; try done;
      first [by intros _; apply Hs; eexists | by intros [? ?] | by destruct Hs | apply stage_boundedOver; by destruct Hs].
  - unfold dispatchAnswers. act_run. destruct (ct_evals c !! e) as [[app kind []]|] eqn:He; try done.
    eapply sinv_proceed; [done..|]. by intros [? ?].
  - unfold deadlinePasses. act_run. destruct (ct_evals c !! e) as [[app kind []]|] eqn:He; try done;
      pose proof (Hst _ _ _ _ He) as [H1 H2]; [by eapply sinv_proceed|].
    eapply sinv_setStage; [done..|]. by apply stage_boundedOver.
  - unfold evaluationOver. act_run. destruct (ct_evals c !! e) as [[app kind []]|] eqn:He; try done. act_run.
    assert (state (answerPull env app kind settled) c = c) as -> by (unfold answerPull; by destruct kind).
    pose proof (Hst _ _ _ _ He) as Hs. destruct pending as [[p d]|]; [|by apply (sinv_finish env e _ c I He)].
    eapply sinv_setStage; [done..|]. simpl. by apply Hs.
  - unfold followOver. act_run. destruct (ct_evals c !! e) as [[app kind []]|] eqn:He; try done. repeat case_match; try done.
    by apply (sinv_finish env e _ c I He).
Qed.

Lemma ctl_reachable_inv c : ctl_reachable c -> TimerInv c /\ SlotInv c.
Proof.
  intros H. unfold ctl_reachable in H. remember newController as c0 eqn:E.
  assert (TimerInv c0 /\ SlotInv c0) as I by (subst; apply newController_inv). clear E.
  induction H as [|? ? ? [env ev ? Henv] _ IH]; [done|]. destruct I. by apply IH; split; [apply tinv_run|apply sinv_run].
Qed.
