(* ===== verification/ControllerProps.v ===== *)
(** * The source controller: what it promises

    One timer while it polls, no wake lost, every evaluation ends, and what an
    automatic acceptance needed. *)

From Stdlib Require Import QArith Qminmax Lqa.
From S2P Require Import Prelude Reconcile Backoff SourceRows SourceTx Handoff Controller ControllerSteps.

#[global] Open Scope Z_scope.

(** A run: the events, with what each could read. *)
Definition ctl_one (c : Controller) (x : CtlEnv * CtlEvent) : Controller := state (ctl_run x.1 x.2) c.
Abbreviation ctl_runs l c := (foldl ctl_one c l).

Lemma ctl_runs_inv l c : Forall (fun x => env_ok x.1) l -> TimerInv c /\ SlotInv c ->
  TimerInv (ctl_runs l c) /\ SlotInv (ctl_runs l c).
Proof.
  revert c. induction l as [|[env ev] l IH]; intros c Hl I; [done|]. inversion Hl; simplify_eq. simpl.
  apply IH; [done|]. destruct I. split; [by apply tinv_run|by apply sinv_run].
Qed.

Lemma ctl_runs_reachable l c : Forall (fun x => env_ok x.1) l -> ctl_reachable c -> ctl_reachable (ctl_runs l c).
Proof.
  revert c. induction l as [|[env ev] l IH]; intros c Hl Hc; [done|]. inversion Hl; simplify_eq. simpl.
  apply IH; [done|]. eapply rtc_r; [exact Hc|]. by constructor.
Qed.

(** ** The timer *)

(** C36: While the controller polls exactly one timer is pending, the one it keeps, and
    its tick is never refused; a controller that does not poll has none. Nothing
    but a stop ends that: no sequence of other events, a scan that throws
    included, leaves a polling controller without its timer or with two. *)
Theorem one_timer_while_polling c l : ctl_reachable c -> Forall (fun x => env_ok x.1) l ->
  (ct_polling c = false -> ct_timers c = ∅) /\
  (ct_polling c = true -> Forall (fun x => x.2 <> EvStop_) l ->
     exists h, ct_timer (ctl_runs l c) = Some h /\
       ct_timers (ctl_runs l c) = {[h := ct_generation (ctl_runs l c)]} /\ ct_polling (ctl_runs l c) = true).
Proof.
  intros [T S]%ctl_reachable_inv Hl. split.
  - intros Hp. apply map_empty. intros h. destruct (ct_timers c !! h) eqn:E; [|done].
    destruct (ti_kept _ T _ _ E) as (_ & _ & ?). congruence.
  - intros Hp Hstop. destruct (ctl_runs_inv l c Hl (conj T S)) as [T' _].
    assert (ct_polling (ctl_runs l c) = true) as Hp'.
    { clear T'. revert c T S Hp. induction Hl as [|[env ev] l Henv _ IH]; intros c T S Hp; [done|].
      inversion Hstop as [|? ? Hev Hs]; simplify_eq. simpl. apply IH; [done|by apply tinv_run|by apply sinv_run|].
      unfold ctl_one. simpl. assert (~ timer_event ev -> ct_polling (state (ctl_run env ev) c) = true) as Hother.
      { intros H. by destruct (timer_run env ev c H) as (_ & -> & _). }
      destruct ev; try (apply Hother; by intros []).
      - unfold ctl_run, start. act_run. by rewrite Hp.
      - unfold ctl_run, restartPolling. act_run. destruct (tinv_cancelPending c T) as (_ & _ & _ & E & _).
        rewrite E, Hp. unfold armNext. act_run. by rewrite E.
      - unfold ctl_run. destruct (ct_timers c !! h) as [g|] eqn:E; [|unfold tick; act_run; by rewrite E].
        rewrite (state_tick _ _ g) by done. unfold armNext. act_run.
        edestruct (timer_scan env) as (_ & -> & _). done. }
    destruct (ti_armed _ T' Hp') as (h & H1 & H2). exists h. split_and!; try done.
    apply map_eq. intros h'. destruct (decide (h = h')) as [<-|Hne]; [by rewrite lookup_singleton_eq|].
    rewrite lookup_singleton_ne by done. destruct (ct_timers (ctl_runs l c) !! h') eqn:E; [|done].
    destruct (ti_kept _ T' _ _ E) as (? & _). congruence.
Qed.

(** ** Who owns a slot *)

Definition own_event (e : Z) (ev : CtlEvent) : Prop :=
  match ev with
  | EvReconciled e' _ | EvPolicy e' _ | EvRevalidated e' _ | EvPrepared e' _ | EvHandedOff e' _
  | EvDispatched e' _ | EvDeadline e' | EvEvaluated e' | EvFollowed e' => e' = e
  | _ => False
  end.

(** Evaluation [e] and the wakes it owns are as they were. *)
Definition keeps_eval (e : Z) (c c' : Controller) : Prop :=
  ct_evals c' !! e = ct_evals c !! e /\ ct_next c <= ct_next c' /\
  (forall app s x, ct_evals c !! e = Some x -> ev_app x = app -> ct_pendingWakes c !! app = Some s ->
     is_Some (ct_pendingWakes c' !! app)).

#[export] Instance keeps_eval_preorder e : PreOrder (keeps_eval e).
Proof.
  split; [intros c; split_and!; try done; intros; by eexists|].
  intros a b c (A1 & A2 & A3) (B1 & B2 & B3). split_and!; [congruence|lia|]. intros app s x Hx Ha Hs.
  destruct (A3 _ _ _ Hx Ha Hs) as [s' Hs']. eapply (B3 app s' x); [congruence|done..].
Qed.

Lemma keeps_same e c c' : ct_evals c' !! e = ct_evals c !! e -> ct_pendingWakes c' = ct_pendingWakes c ->
  ct_next c <= ct_next c' -> keeps_eval e c c'.
Proof. intros E1 E2 E3. split_and!; try done. intros app s x _ _ H. rewrite E2. by eexists. Qed.

Lemma keeps_newEval e app kind s c : e < ct_next c -> keeps_eval e c (state (newEval app kind s) c).
Proof. intros He. unfold newEval. act_run. apply keeps_same; simpl; [|done|lia]. by rewrite lookup_insert_ne by lia. Qed.

Lemma keeps_evaluate e env kind r o c : e < ct_next c -> keeps_eval e c (state (evaluate env kind r o) c).
Proof. intros He. unfold evaluate. act_cases; by apply keeps_newEval. Qed.

Lemma keeps_evaluateNow e env s c : e < ct_next c -> keeps_eval e c (state (evaluateNow env s) c).
Proof.
  intros He. unfold evaluateNow. destruct (ce_live env s) as [|[r|]]; [reflexivity| |reflexivity].
  destruct (_ || _); [reflexivity|]. act_run. case_bool_decide; [|by apply keeps_evaluate].
  split_and!; simpl; try done. intros app s' x _ _ H'. rewrite lookup_insert. case_decide; by eexists.
Qed.

Lemma keeps_setStage e e' s c : e' <> e -> keeps_eval e c (state (setStage e' s) c).
Proof. intros H. unfold setStage. act_run. apply keeps_same; simpl; [|done|lia]. by rewrite lookup_alter_ne. Qed.

Lemma keeps_proceed e e' n c : e' <> e -> keeps_eval e c (state (proceed e' n) c).
Proof. intros H. unfold proceed. act_run. by apply keeps_setStage. Qed.

Lemma keeps_finish e e' env x c : SlotInv c -> ct_evals c !! e' = Some x -> e' <> e -> e < ct_next c ->
  keeps_eval e c (state (finish env e' (ev_app x)) c).
Proof.
  intros I Hx Hne He. unfold finish, releaseAndDrainWake. act_run.
  assert (forall f, (forall app, app <> ev_app x -> f (ct_pendingWakes c) !! app = ct_pendingWakes c !! app) ->
    keeps_eval e c (upd_ct_pendingWakes f (upd_ct_inFlight (fun s => s ∖ {[ev_app x]}) (upd_ct_evals (delete e') c)))) as H1.
  { intros f Hf. split_and!; simpl; [by rewrite lookup_delete_ne|done|]. intros app s y Hy Ha Hs.
    rewrite Hf; [by eexists|]. intros ->. apply Hne. by eapply (si_once _ I). }
  destruct (ct_pendingWakes c !! ev_app x) as [s|].
  - act_run. etransitivity; [apply (H1 (delete (ev_app x)))|by apply keeps_evaluateNow].
    intros app Ha. by rewrite lookup_delete_ne.
  - specialize (H1 id ltac:(done)). by destruct c.
Qed.

Lemma keeps_other e env ev c : SlotInv c -> e < ct_next c -> ~ own_event e ev -> keeps_eval e c (state (ctl_run env ev) c).
Proof.
  intros I He Hev. unfold ctl_run. destruct ev; simpl in Hev.
  - unfold start, armNext. act_cases; apply keeps_same; simpl; done || lia.
  - unfold stop, cancelPending. act_cases; apply keeps_same; simpl; done || lia.
  - unfold restartPolling, cancelPending, armNext. act_cases; apply keeps_same; simpl; done || lia.
  - unfold rescheduleAll. destruct (ce_rows env); [reflexivity|]. by rewrite effs_only.
  - unfold tick. act_run. destruct (ct_timers c !! h); [|reflexivity]. act_run. case_match; [by apply keeps_same|].
    act_run. set (c1 := upd_ct_timer _ _).
    assert (keeps_eval e c (state (scan env) c1)) as H1.
    { unfold scan. destruct (ce_rows env); [by apply keeps_same|].
      apply (for_each_ind _ (fun c' => keeps_eval e c c')); [by apply keeps_same|]. intros r c' _ H'. act_run.
      case_bool_decide; [done|]. etransitivity; [exact H'|]. apply keeps_evaluate. destruct H' as (_ & ? & _). lia. }
    case_match; [|done]. etransitivity; [exact H1|]. unfold armNext. act_run. apply keeps_same; simpl; done || lia.
  - by apply keeps_evaluateNow.
  - unfold requestFetch. destruct (ce_application env app); [reflexivity|]. act_run.
    destruct (operatorFetchBlock _ _) as [[]|[]]; [reflexivity|]. destruct (confirmation ≫= _); [reflexivity|]. act_run.
    by apply keeps_newEval.
  - unfold reconciled. act_run. destruct (ct_evals c !! e0) as [[app kind []]|]; try reflexivity.
    repeat case_match; by apply keeps_proceed.
  - unfold policyAnswers. act_run. destruct (ct_evals c !! e0) as [[app kind []]|]; try reflexivity. by apply keeps_proceed.
  - unfold revalidationAnswers. act_run. destruct (ct_evals c !! e0) as [[app kind []]|]; try reflexivity.
    by apply keeps_proceed.
  - unfold preparationAnswers. act_run. destruct (ct_evals c !! e0) as [[app kind []]|]; repeat case_match;
      first [reflexivity | by apply keeps_proceed | by apply keeps_setStage].
  - unfold handoffAnswers. act_run. destruct (ct_evals c !! e0) as [[app kind []]|]; repeat case_match;
      first [reflexivity | by apply keeps_proceed | by apply keeps_setStage].
  - unfold dispatchAnswers. act_run. destruct (ct_evals c !! e0) as [[app kind []]|]; try reflexivity. by apply keeps_proceed.
  - unfold deadlinePasses. act_run. destruct (ct_evals c !! e0) as [[app kind []]|]; try reflexivity;
      first [by apply keeps_proceed | by apply keeps_setStage].
  - unfold evaluationOver. act_run. destruct (ct_evals c !! e0) as [[app kind []]|] eqn:E; try reflexivity. act_run.
    assert (state (answerPull env app kind settled) c = c) as -> by (unfold answerPull; by destruct kind).
    destruct pending as [[]|]; [by apply keeps_setStage|]. by apply (keeps_finish e e0 env _ c I E).
  - unfold followOver. act_run. destruct (ct_evals c !! e0) as [[app kind []]|] eqn:E; try reflexivity.
    repeat case_match; try reflexivity. by apply (keeps_finish e e0 env _ c I E).
Qed.

Lemma setStage_app e s c x : ct_evals c !! e = Some x ->
  ct_evals (state (setStage e s) c) !! e = Some (mkEval (ev_app x) (ev_kind x) s).
Proof. intros H. unfold setStage. act_run. by rewrite lookup_alter_eq, H. Qed.

Lemma proceed_app e n c x : ct_evals c !! e = Some x ->
  ct_evals (state (proceed e n) c) !! e =
    Some (mkEval (ev_app x) (ev_kind x) (match n.2 with inl err => S_over (inl err) None | inr s => s end)).
Proof. intros H. unfold proceed. act_run. by apply setStage_app. Qed.

(** An event of an evaluation moves it on, or ends it. *)
Definition moves (e : Z) (x : Eval) (c c' : Controller) (s : Stage) : Prop :=
  ct_evals c' !! e = Some (mkEval (ev_app x) (ev_kind x) s) /\ ct_pendingWakes c' = ct_pendingWakes c.

Lemma own_moves e env ev c x : ct_evals c !! e = Some x -> own_event e ev ->
  (exists s, moves e x c (state (ctl_run env ev) c) s) \/
  (state (ctl_run env ev) c = state (finish env e (ev_app x)) c /\
   (exists pre, effects (ctl_run env ev) c = pre ++ effects (finish env e (ev_app x)) c) /\
   ((exists settled, ev = EvEvaluated e /\ ev_stage x = S_over settled None) \/ ev = EvFollowed e)).
Proof.
  intros Hx Hev.
  assert (forall s, exists s', moves e x c (state (setStage e s) c) s') as Hset.
  { intros s. exists s. split; [by apply setStage_app|]. unfold setStage. by act_run. }
  assert (forall n, exists s', moves e x c (state (proceed e n) c) s') as Hpro.
  { intros n. eexists. split; [by apply proceed_app|]. unfold proceed, setStage. by act_run. }
  assert (exists s', moves e x c c s') as Hskip by (exists (ev_stage x); split; [by destruct x|done]).
  destruct ev; try done; simpl in Hev; subst e0; unfold ctl_run.
  - left. unfold reconciled. act_run. rewrite Hx. destruct x as [app kind []]; try done. repeat case_match; apply Hpro.
  - left. unfold policyAnswers. act_run. rewrite Hx. destruct x as [app kind []]; try done; apply Hpro.
  - left. unfold revalidationAnswers. act_run. rewrite Hx. destruct x as [app kind []]; try done; apply Hpro.
  - left. unfold preparationAnswers. act_run. rewrite Hx. destruct x as [app kind []]; repeat case_match; try done;
      first [apply Hpro | apply Hset].
  - left. unfold handoffAnswers. act_run. rewrite Hx. destruct x as [app kind []]; repeat case_match; try done;
      first [apply Hpro | apply Hset].
  - left. unfold dispatchAnswers. act_run. rewrite Hx. destruct x as [app kind []]; try done; apply Hpro.
  - left. unfold deadlinePasses. act_run. rewrite Hx. destruct x as [app kind []]; try done; first [apply Hpro | apply Hset].
  - unfold evaluationOver. act_run. rewrite Hx. destruct x as [app kind []]; try (by left). act_run.
    assert (state (answerPull env app kind settled) c = c) as -> by (unfold answerPull; by destruct kind).
    destruct pending as [[]|]; [left; apply Hset|right]. split_and!; [done|by eexists|left; by eexists].
  - unfold followOver. act_run. rewrite Hx. destruct x as [app kind []]; try (by left).
    destruct preparing, dispatching; try (by left). right. split_and!; [done|by exists []|by right].
Qed.

(** C34: No wake is lost. A resume that arrives while its application is evaluated is
    parked, and stays so, whatever happens, until the evaluation that owns the slot
    gives it back; in that very event, before anything else can claim the slot, the
    application is evaluated again for the resume, unless its row says by then that
    it is gone, manual, suspended or without a stack. *)
Theorem no_wake_is_lost c env ev e x s : ctl_reachable c -> env_ok env ->
  ct_evals c !! e = Some x -> ct_pendingWakes c !! ev_app x = Some s ->
  let c' := state (ctl_run env ev) c in
  (exists y, ct_evals c' !! e = Some y /\ ev_app y = ev_app x /\ is_Some (ct_pendingWakes c' !! ev_app x)) \/
  (ct_evals c' !! e = None /\ ct_pendingWakes c' !! ev_app x = None /\
   forall r stack, ce_live env s = inr (Some r) -> cr_id r = ev_app x -> is_manual r = false -> cr_suspended r = false ->
     truthy (match cr_stack_name r with Some s => Some s | None => cr_configured_source_stack_name r end) = Some stack ->
     CE_reconcile (ev_app x) stack by_resume ACTOR ∈ effects (ctl_run env ev) c /\
     exists e', ct_evals c' !! e' = Some (mkEval (ev_app x) K_now (S_reconcile stack by_resume))).
Proof.
  intros [T I]%ctl_reachable_inv Henv Hx Hw c'.
  assert (own_event e ev \/ ~ own_event e ev) as [Hev|Hev].
  { destruct ev; simpl; try (by right; intros []); destruct (decide (e0 = e)); auto. }
  2: { destruct (keeps_other e env ev c I (si_fresh _ I _ _ Hx) Hev) as (E1 & _ & E3).
       left. exists x. split_and!; [by rewrite <-Hx|done|by eapply E3]. }
  destruct (own_moves e env ev c x Hx Hev) as [[st [E1 E2]]|(E1 & [pre E2] & _)].
  { left. eexists. split_and!; [exact E1|done|]. unfold c'. rewrite E2, Hw. by eexists. }
  right. unfold c'. rewrite E1, E2. clear E1 E2.
  unfold finish, releaseAndDrainWake. act_run. rewrite Hw. act_run. set (c1 := upd_ct_pendingWakes _ _).
  assert (e < ct_next c1) as Hlt by (by apply (si_fresh _ I _ _ Hx)).
  assert (ct_inFlight c1 = ct_inFlight c ∖ {[ev_app x]}) as Efl by done.
  assert (ev_app x ∉ ct_inFlight c1) as Hnot by (rewrite Efl; set_solver).
  split_and!.
  - destruct (keeps_evaluateNow e env s c1 Hlt) as (-> & _). apply lookup_delete_eq.
  - unfold evaluateNow. destruct (ce_live env s) as [|[r|]]; try apply lookup_delete_eq.
    destruct (_ || _); [apply lookup_delete_eq|]. act_run. case_bool_decide as Hin.
    + act_run. rewrite lookup_insert_ne; [apply lookup_delete_eq|]. intros E. by rewrite E in Hin.
    + unfold evaluate, newEval. act_cases; apply lookup_delete_eq.
  - intros r stack Hr Hid Hm Hs Hst. unfold evaluateNow. rewrite Hr, Hm, Hs. simpl. act_run.
    rewrite Hid, bool_decide_eq_false_2 by done. unfold evaluate. rewrite Hst, Hm. simpl. act_run. rewrite Hid. split.
    + set_solver.
    + exists (ct_next c1). unfold newEval. act_run. by rewrite lookup_insert_eq.
Qed.

(** ** The end of an evaluation *)

(** The answer an evaluation waits for next; 8 is one that is gone. *)
Definition stage_level (s : Stage) : nat :=
  match s with
  | S_reconcile _ _ => 0
  | S_policy _ _ => 1
  | S_revalidate _ => 2
  | S_prepare _ _ | S_boundedPrepare _ _ | S_boundedHandoff _ _ _ true => 3
  | S_handoff _ _ | S_boundedHandoff _ _ _ false => 4
  | S_dispatch _ _ => 5
  | S_over _ pending => match pending with Some (true, _) => 3 | Some (false, true) => 4 | _ => 6 end
  | S_follow preparing dispatching => if preparing then 3 else if dispatching then 4 else 7
  end.
Definition level (x : option Eval) : nat := match x with Some x => stage_level (ev_stage x) | None => 8 end.

(** The answers of evaluation [e], in the order it can wait for them. *)
Definition answers (e : Z) (ev : CtlEvent) (k : nat) : Prop :=
  match ev with
  | EvReconciled e' _ => e' = e /\ k = 0%nat
  | EvPolicy e' _ => e' = e /\ k = 1%nat
  | EvRevalidated e' _ => e' = e /\ k = 2%nat
  | EvPrepared e' _ => e' = e /\ k = 3%nat
  | EvHandedOff e' _ => e' = e /\ k = 4%nat
  | EvDispatched e' _ => e' = e /\ k = 5%nat
  | EvEvaluated e' => e' = e /\ k = 6%nat
  | EvFollowed e' => e' = e /\ k = 7%nat
  | _ => False
  end.

Definition next_stage (n : Next) : Stage := match n.2 with inl err => S_over (inl err) None | inr s => s end.

Lemma level_settle env cx : (1 <= stage_level (next_stage (settleAfterReconcile env cx)))%nat.
Proof.
  unfold settleAfterReconcile, maybeAcceptAutomaticCandidate, reports, next_stage. repeat case_match; simplify_eq/=; lia.
Qed.

Lemma level_policy cx g a : (2 <= stage_level (next_stage (policySettled cx g a)))%nat.
Proof. unfold policySettled, reports, next_stage. repeat case_match; simplify_eq/=; lia. Qed.

Lemma level_revalidated env cx a : (3 <= stage_level (next_stage (revalidated env cx a)))%nat.
Proof. unfold revalidated, reports, next_stage. repeat case_match; simplify_eq/=; lia. Qed.

Lemma finish_gone env e app c : e < ct_next c -> ct_evals (state (finish env e app) c) !! e = None.
Proof.
  intros He. unfold finish, releaseAndDrainWake. act_run. destruct (ct_pendingWakes c !! app); [|apply lookup_delete_eq].
  act_run. set (c1 := upd_ct_pendingWakes _ _). destruct (keeps_evaluateNow e env s c1 He) as (-> & _). apply lookup_delete_eq.
Qed.

Ltac stuck := rewrite ?state_skip; repeat match goal with H : _ !! _ = Some _ |- _ => rewrite H; clear H end; simpl;
  (split; [lia|intros ? [_ ->] ?; repeat case_match; lia]).

Ltac lv := cbn [level stage_level ev_stage ev_app ev_kind answers next_stage snd fst reports].
Ltac level_up :=
  repeat match goal with
  | H : forall s, ct_evals (state _ _) !! _ = _ |- _ => rewrite H
  | H : forall n : Next, ct_evals (state _ _) !! _ = _ |- _ => rewrite H
  | H : ?m !! ?e = Some _ |- context [?m !! ?e] => rewrite H
  | _ => rewrite state_skip
  end; lv; (split; [|first [intros ? [_ ->] ?|by intros ? []]]); repeat case_match; simplify_eq; lv;
  first [lia | unfold boundedOver; lv; repeat case_match; simplify_eq; lia].

(** The stage an own event leads to, or the end. *)
Lemma level_own env ev c e x : ct_evals c !! e = Some x -> e < ct_next c -> own_event e ev ->
  let l' := level (ct_evals (state (ctl_run env ev) c) !! e) in
  (stage_level (ev_stage x) <= l')%nat /\ (forall k, answers e ev k -> k = stage_level (ev_stage x) -> (k < l')%nat).
Proof.
  intros Hx He Hev.
  assert (forall s, ct_evals (state (setStage e s) c) !! e = Some (mkEval (ev_app x) (ev_kind x) s)) as Hset
    by (intros; by apply setStage_app).
  assert (forall n, ct_evals (state (proceed e n) c) !! e = Some (mkEval (ev_app x) (ev_kind x) (next_stage n))) as Hpro
    by (intros; by apply proceed_app).
  destruct ev; try done; simpl in Hev; subst e0; unfold ctl_run.
  - unfold reconciled. act_run. rewrite Hx. destruct x as [app kind []]; simpl; try stuck.
    assert (forall n, (1 <= stage_level (next_stage n))%nat -> let l' := level (ct_evals (state (proceed e n) c) !! e) in
      (0 <= l')%nat /\ (forall k, e = e /\ k = 0%nat -> k = 0%nat -> (k < l')%nat)) as Hgo
      by (intros n Hn; rewrite Hpro; simpl; split; [lia|intros; lia]).
    destruct answer as [|o]; [apply Hgo; simpl; lia|].
    destruct (ce_application env app) as [|[r|]]; apply Hgo; [simpl; lia|apply level_settle|simpl; lia].
  - unfold policyAnswers. act_run. rewrite Hx. destruct x as [app kind []]; simpl; try stuck.
    rewrite Hpro. simpl. pose proof (level_policy cx generation answer). split; [lia|intros; lia].
  - unfold revalidationAnswers. act_run. rewrite Hx. destruct x as [app kind []]; simpl; try stuck.
    rewrite Hpro. simpl. pose proof (level_revalidated env cx answer). split; [lia|intros; lia].
  - unfold preparationAnswers. act_run. rewrite Hx. destruct x as [app kind []]; cbn match; repeat case_match; level_up.
  - unfold handoffAnswers. act_run. rewrite Hx. destruct x as [app kind []]; cbn match; repeat case_match; level_up.
  - unfold dispatchAnswers. act_run. rewrite Hx. destruct x as [app kind []]; cbn match; level_up.
  - unfold deadlinePasses. act_run. rewrite Hx. destruct x as [app kind []]; cbn match; level_up.
  - unfold evaluationOver. act_run. rewrite Hx. destruct x as [app kind []]; cbn match; try level_up. act_run.
    assert (state (answerPull env app kind settled) c = c) as -> by (unfold answerPull; by destruct kind).
    destruct pending as [[p d]|]; [level_up|]. rewrite finish_gone by done. lv. split; [lia|intros ? [_ ->] ?; lia].
  - unfold followOver. act_run. rewrite Hx. destruct x as [app kind []]; cbn match; try level_up.
    destruct preparing, dispatching; try level_up. rewrite finish_gone by done. lv. split; [lia|intros ? [_ ->] ?; lia].
Qed.

Lemma level_run env ev c e : SlotInv c -> e < ct_next c ->
  let l := level (ct_evals c !! e) in let l' := level (ct_evals (state (ctl_run env ev) c) !! e) in
  (l <= l')%nat /\ (forall k, answers e ev k -> (k <= l)%nat -> (k < l')%nat) /\ e < ct_next (state (ctl_run env ev) c).
Proof.
  intros I He. assert (own_event e ev \/ ~ own_event e ev) as [Hev|Hev].
  { destruct ev; simpl; try (by right; intros []); destruct (decide (e0 = e)); auto. }
  - assert (~ timer_event ev) as Ht by (destruct ev; try done; by intros []).
    destruct (timer_run env ev c Ht) as (_ & _ & _ & _ & Hn). destruct (ct_evals c !! e) as [x|] eqn:Hx.
    + destruct (level_own env ev c e x Hx He Hev) as [H1 H2]. simpl. split_and!; [done| |lia].
      intros k Hk Hl. destruct (decide (k = stage_level (ev_stage x))); [by apply H2|lia].
    + assert (ct_evals (state (ctl_run env ev) c) !! e = None) as E.
      { destruct ev; try done; simpl in Hev; subst e0; unfold ctl_run, reconciled, policyAnswers, revalidationAnswers,
          preparationAnswers, handoffAnswers, dispatchAnswers, deadlinePasses, evaluationOver, followOver;
          act_run; rewrite Hx; exact Hx. }
      rewrite E. simpl. split_and!; [done| |lia]. intros k Hk _. destruct ev; try done; destruct Hk as [_ ->]; lia.
  - destruct (keeps_other e env ev c I He Hev) as (-> & ? & _). split_and!; [done| |lia].
    intros k Hk. exfalso. apply Hev. destruct ev; simpl in *; tauto.
Qed.

Lemma level_runs l c e : Forall (fun x => env_ok x.1) l -> TimerInv c /\ SlotInv c -> e < ct_next c ->
  (level (ct_evals c !! e) <= level (ct_evals (ctl_runs l c) !! e))%nat /\ e < ct_next (ctl_runs l c).
Proof.
  revert c. induction l as [|[env ev] l IH]; intros c Hl I He; [done|]. inversion Hl; simplify_eq. simpl.
  destruct (level_run env ev c e) as (Hl1 & _ & Hl3); [apply I|done|].
  destruct (IH (ctl_one c (env, ev))) as [H4 H5]; [done|by apply (ctl_runs_inv [(env, ev)]); [repeat constructor|]|done|].
  unfold ctl_one in *. simpl in *. split; [lia|done].
Qed.

Lemma answered_runs l c e ev k : Forall (fun x => env_ok x.1) l -> TimerInv c /\ SlotInv c -> e < ct_next c ->
  ev ∈ l.*2 -> answers e ev k -> (k <= level (ct_evals c !! e))%nat -> (k < level (ct_evals (ctl_runs l c) !! e))%nat.
Proof.
  revert c. induction l as [|[env ev'] l IH]; intros c Hl I He Hin Ha Hk; simpl in Hin; [by apply not_elem_of_nil in Hin|].
  inversion Hl; simplify_eq. simpl. destruct (level_run env ev' c e) as (H1' & H2' & H3'); [apply I|done|].
  assert (TimerInv (ctl_one c (env, ev')) /\ SlotInv (ctl_one c (env, ev'))) as I'
    by (by apply (ctl_runs_inv [(env, ev')]); [repeat constructor|]).
  apply elem_of_cons in Hin as [<-|Hin].
  - destruct (level_runs l (ctl_one c (env, ev)) e) as [H4 _]; [done..|].
    specialize (H2' k Ha Hk). unfold ctl_one in *. simpl in *. lia.
  - apply IH; try done. unfold ctl_one. simpl. lia.
Qed.

(** An evaluation that is still there belongs to the same application. *)
Lemma app_runs l c e y : Forall (fun x => env_ok x.1) l -> TimerInv c /\ SlotInv c -> e < ct_next c ->
  ct_evals (ctl_runs l c) !! e = Some y -> exists y0, ct_evals c !! e = Some y0 /\ ev_app y = ev_app y0.
Proof.
  revert c. induction l as [|[env ev] l IH]; intros c Hl I He Hy; [by exists y|]. inversion Hl; simplify_eq. simpl in Hy.
  assert (TimerInv (ctl_one c (env, ev)) /\ SlotInv (ctl_one c (env, ev))) as I'
    by (by apply (ctl_runs_inv [(env, ev)]); [repeat constructor|]).
  destruct (level_run env ev c e) as (Hlev & _ & H3); [apply I|done|].
  destruct (IH _ ltac:(done) I' ltac:(done) Hy) as (y1 & Hy1 & ->). unfold ctl_one in Hy1. simpl in Hy1.
  assert (own_event e ev \/ ~ own_event e ev) as [Hev|Hev].
  { destruct ev; simpl; try (by right; intros []); destruct (decide (e0 = e)); auto. }
  - destruct (ct_evals c !! e) as [x|] eqn:Hx.
    + destruct (own_moves e env ev c x Hx Hev) as [[s [E _]]|(E & _)]; rewrite E in Hy1.
      * simplify_eq. by exists x.
      * by rewrite finish_gone in Hy1.
    + rewrite Hy1 in Hlev. simpl in Hlev. exfalso. destruct y1 as [? ? []]; simpl in Hlev; repeat case_match; lia.
  - destruct (keeps_other e env ev c (proj2 I) He Hev) as (E & _). rewrite E in Hy1. by exists y1.
Qed.

(** C35: Every evaluation ends. Whatever else happens in between, whatever is answered,
    whichever deadline passes and whatever throws: once the fetch, the policy, the
    revalidation, the preparation, the handoff and the dispatch have each had their
    answer, and then the two promises that close an evaluation, in this order, the
    evaluation is gone; its slot belongs to nobody or to an evaluation that began
    later. *)
Theorem every_evaluation_ends c ls e x a0 a1 a2 a3 a4 a5 : ctl_reachable c -> ct_evals c !! e = Some x ->
  Forall (Forall (fun y => env_ok y.1)) ls ->
  Forall2 (fun ev l => ev ∈ l.*2)
    [EvReconciled e a0; EvPolicy e a1; EvRevalidated e a2; EvPrepared e a3; EvHandedOff e a4; EvDispatched e a5;
     EvEvaluated e; EvFollowed e] ls ->
  let c' := ctl_runs (concat ls) c in
  ct_evals c' !! e = None /\
  (ev_app x ∈ ct_inFlight c' -> exists e' y, ct_evals c' !! e' = Some y /\ ev_app y = ev_app x /\ e < e').
Proof.
  intros I%ctl_reachable_inv Hx Hls H2 c'. pose proof (si_fresh _ (proj2 I) _ _ Hx) as He.
  assert (forall evs ls c k, Forall (Forall (fun y => env_ok y.1)) ls -> TimerInv c /\ SlotInv c -> e < ct_next c ->
    Forall2 (fun ev l => ev ∈ l.*2) evs ls -> (forall i ev, evs !! i = Some ev -> answers e ev (k + i)) ->
    (k <= level (ct_evals c !! e))%nat -> (k + length evs <= level (ct_evals (ctl_runs (concat ls) c) !! e))%nat) as Hgo.
  { clear. intros evs ls c k Hls I He H. revert c k I He. induction H as [|ev l evs ls Hin _ IH]; intros c k I He Ha Hk.
    - simpl. lia.
    - inversion Hls; simplify_eq. simpl. rewrite foldl_app.
      destruct (level_runs l c e) as [_ Hn]; [done..|].
      assert (k < level (ct_evals (ctl_runs l c) !! e))%nat as Hlt.
      { apply (answered_runs l c e ev k); try done. specialize (Ha 0%nat ev eq_refl). by rewrite Nat.add_0_r in Ha. }
      transitivity (S k + length evs)%nat; [lia|]. apply IH; try done; [by apply ctl_runs_inv|].
      intros i ev' Hi. replace (S k + i)%nat with (k + S i)%nat by lia. by apply Ha. }
  assert (Forall (fun y => env_ok y.1) (concat ls)) as Hc by (by apply Forall_concat).
  assert (ct_evals c' !! e = None) as Hgone.
  { specialize (Hgo _ _ c 0%nat Hls I He H2). destruct (ct_evals c' !! e) as [[? ? s]|] eqn:E; [|done].
    unfold c' in E. rewrite E in Hgo. simpl in Hgo.
    enough (8 <= stage_level s)%nat by (destruct s; simpl in *; repeat case_match; lia). apply Hgo; [|lia].
    intros i ev. do 8 (destruct i as [|i]; [by intros [= <-]|]). done. }
  split; [done|]. intros Hin. destruct (ctl_runs_inv _ _ Hc I) as [_ I'].
  destruct (si_owner _ I' _ Hin) as (e' & y & Hy & Happ). exists e', y. split_and!; [done..|].
  destruct (decide (e' < ct_next c)) as [Hlt|]; [|lia].
  destruct (app_runs _ _ _ _ Hc I Hlt Hy) as (y0 & Hy0 & E). assert (e' = e) as ->; [|unfold c' in Hgone; congruence].
  eapply (si_once _ (proj2 I)); [done..|]. congruence.
Qed.

(** ** What an automatic acceptance needed *)









(** Evaluation [e] is as it was, or has just begun. *)
Definition begins (s : Stage) : Prop := match s with S_reconcile _ _ | S_over _ _ => True | _ => False end.
Definition starts (e : Z) (c c' : Controller) : Prop :=
  forall x, ct_evals c' !! e = Some x -> ct_evals c !! e = Some x \/ begins (ev_stage x).

#[export] Instance starts_preorder e : PreOrder (starts e).
Proof.
  split; [by left|]. intros a b c H1 H2 x Hx. destruct (H2 x Hx) as [Hb|]; [by apply H1|by right].
Qed.










(** ** The schedule after a fetch *)

(** A retry is armed for these rows: a fetch that failed for a transient reason below
    its ceiling. *)
Definition retryable (r : ControllerRow) (ceiling : Z) : Prop :=
  app_failure_stage (cr_app r) = Some F_fetch /\
  (exists class code, app_failure_class (cr_app r) = Some class /\ isGitSourceErrorCode class = Some code /\
     CODE_DISPOSITION code = C_transient ceiling) /\
  app_retry_count (cr_app r) < ceiling.

Lemma retry_exact env r app t n : CE_retry app t n ∈ maybeScheduleRetry env r <->
  app = cr_id r /\ is_manual r = false /\ n = app_retry_count (cr_app r) + 1 /\
  t = nextRetryAt (ce_random env) (inject_Z (ce_now env)) (app_retry_count (cr_app r)) None /\
  exists ceiling, retryable r ceiling.
Proof.
  unfold maybeScheduleRetry, retryable. destruct (is_manual r); [split; [by intros ?%not_elem_of_nil|by intros (_ & ? & _)]|].
  destruct (app_failure_class (cr_app r)) as [class|]; simpl.
  2: { split; [by intros ?%not_elem_of_nil|by intros (_ & _ & _ & _ & ? & _ & (? & ? & ? & _) & _)]. }
  destruct (decide (class = "")) as [->|Hne].
  { split; [by intros ?%not_elem_of_nil|]. intros (_ & _ & _ & _ & ? & _ & (? & ? & [= <-] & Hcode & _) & _). by vm_compute in Hcode. }
  assert (match class with "" => None | String _ _ => Some class end = Some class) as -> by (by destruct class).
  case_bool_decide as Hs; simpl; [|split; [by intros ?%not_elem_of_nil|by intros (_ & _ & _ & _ & ? & ? & _)]].
  destruct (isGitSourceErrorCode class) as [code|] eqn:Hc.
  2: { split; [by intros ?%not_elem_of_nil|]. intros (_ & _ & _ & _ & ? & _ & (? & ? & ? & ? & _) & _). congruence. }
  unfold classifyFailure. simpl. destruct (CODE_DISPOSITION code) as [|ceiling| | | | | | | |] eqn:Hd.
  2: { destruct (Z.leb_spec ceiling (app_retry_count (cr_app r))).
       - split; [by intros ?%not_elem_of_nil|]. intros (_ & _ & _ & _ & c & _ & (? & ? & ? & ? & ?) & ?).
         simplify_eq. assert (c = ceiling) by congruence. lia.
       - rewrite list_elem_of_singleton. split.
         + intros [= -> -> ->]. split_and!; try done. exists ceiling. split_and!; try done. by exists class, code.
         + intros (-> & _ & -> & -> & _). done. }
  all: split; [by intros ?%not_elem_of_nil|]; intros (_ & _ & _ & _ & c & _ & (? & ? & ? & ? & ?) & ?); simplify_eq; congruence.
Qed.

(** What a finished fetch does to the schedule. The next poll is armed exactly for
    a success-shaped outcome or while a recovery is waited for, on a source that is
    not manual and whose cadence is on, at least a minute ahead; a retry is armed
    exactly for a failed fetch whose recorded class is transient and below its
    ceiling, between 54 seconds and 66 minutes ahead, at most for the eighth time.
    A manual source is never scheduled. *)
Theorem schedule_exact env cx mins : ce_globalMins env = inr mins ->
  let effs := (settleAfterReconcile env cx).1 in let r := cx_row cx in
  let secs := effectivePollIntervalSecs (cr_poll_interval_secs r) mins in
  (forall app t, CE_poll app t ∈ effs <->
     app = cr_id r /\ t = ce_now env + secs * 1000 /\ is_manual r = false /\ 0 < secs /\
     (SUCCESS_SHAPED (cx_outcome cx) = true \/ (cx_outcome cx = O_recovery_required /\ recoveryWaitHolds r = true))) /\
  (forall app t n, CE_retry app t n ∈ effs <->
     (cx_outcome cx = O_failed_previous_intact \/ cx_outcome cx = O_retry_scheduled) /\ app = cr_id r /\ is_manual r = false /\
     n = app_retry_count (cr_app r) + 1 /\
     t = nextRetryAt (ce_random env) (inject_Z (ce_now env)) (app_retry_count (cr_app r)) None /\
     exists ceiling, retryable r ceiling) /\
  (0 < secs -> 60 <= secs) /\
  (forall ceiling, retryable r ceiling -> app_retry_count (cr_app r) + 1 <= 8) /\
  ((0 <= ce_random env)%Q -> (ce_random env <= 1)%Q -> 0 <= app_retry_count (cr_app r) ->
   let delay := (nextRetryAt (ce_random env) (inject_Z (ce_now env)) (app_retry_count (cr_app r)) None - inject_Z (ce_now env))%Q in
   (54000 <= delay)%Q /\ (delay <= 3960000)%Q).
Proof.
  intros Hm effs r secs.
  assert (forall f, f ∈ (maybeAcceptAutomaticCandidate env cx).1 -> match f with CE_policy _ _ => True | _ => False end) as Hacc.
  { unfold maybeAcceptAutomaticCandidate. intros f Hf. repeat case_match; simplify_eq/=; set_solver. }
  assert (maybeScheduleNextPoll env r = inr (if is_manual r then [] else if secs <=? 0 then [] else
    [CE_poll (cr_id r) (ce_now env + secs * 1000)])) as Hpoll.
  { unfold maybeScheduleNextPoll, effectiveIntervalSecs. rewrite Hm. by destruct (is_manual r). }
  assert (forall app t, CE_poll app t ∈ (if is_manual r then [] else if secs <=? 0 then [] else
    [CE_poll (cr_id r) (ce_now env + secs * 1000)]) <->
    app = cr_id r /\ t = ce_now env + secs * 1000 /\ is_manual r = false /\ 0 < secs) as Hpoll'.
  { intros app t. destruct (is_manual r); [set_solver|]. destruct (Z.leb_spec secs 0).
    - split; [by intros ?%not_elem_of_nil|lia].
    - rewrite list_elem_of_singleton. split; [intros [= -> ->]; done|by intros (-> & -> & _)]. }
  assert (forall app t n, CE_retry app t n ∉ (if is_manual r then [] else if secs <=? 0 then [] else
    [CE_poll (cr_id r) (ce_now env + secs * 1000)])) as Hnr by (intros; repeat case_match; set_solver).
  assert (forall x, x ∈ effs <->
    ((cx_outcome cx = O_failed_previous_intact \/ cx_outcome cx = O_retry_scheduled) /\ x ∈ maybeScheduleRetry env r) \/
    (SUCCESS_SHAPED (cx_outcome cx) = true /\ (x ∈ (if is_manual r then [] else if secs <=? 0 then [] else
       [CE_poll (cr_id r) (ce_now env + secs * 1000)]) \/ x ∈ (maybeAcceptAutomaticCandidate env cx).1)) \/
    ((cx_outcome cx = O_recovery_required /\ recoveryWaitHolds r = true) /\ x ∈ (if is_manual r then [] else if secs <=? 0 then []
       else [CE_poll (cr_id r) (ce_now env + secs * 1000)]))) as Heffs.
  { intros x. unfold effs, settleAfterReconcile. fold r. rewrite Hpoll.
    destruct (maybeAcceptAutomaticCandidate env cx) as [acc next] eqn:E. simpl.
    generalize (if is_manual r then [] else if secs <=? 0 then [] else [CE_poll (cr_id r) (ce_now env + secs * 1000)]).
    generalize (maybeScheduleRetry env r). generalize (recoveryWaitHolds r). clear. intros b retries polls.
    destruct (cx_outcome cx), b; simpl; rewrite ?elem_of_app, ?elem_of_nil; intuition discriminate. }
  split_and!.
  - intros app t. rewrite Heffs, Hpoll'. split.
    + intros [[_ H]|[[Ho [H|H]]|[Ho H]]]; [|tauto|by apply Hacc in H|tauto]. unfold maybeScheduleRetry in H.
      repeat case_match; set_solver.
    + tauto.
  - intros app t n. rewrite Heffs. split.
    + intros [[Ho H%retry_exact]|[[_ [H|H]]|[_ H]]]; [tauto|by apply Hnr in H|by apply Hacc in H|by apply Hnr in H].
    + intros (Ho & H). left. split; [done|]. by apply retry_exact.
  - unfold secs, effectivePollIntervalSecs, MIN_POLL_INTERVAL_SECS. repeat case_match; lia.
  - intros ceiling (_ & (_ & code & _ & _ & Hd) & Hc).
    assert (ceiling <= 8); [|lia]. unfold CODE_DISPOSITION, TRANSIENT_DEFAULT, TRANSIENT_LOW, DEFAULT_TRANSIENT_CEILING,
      LOW_TRANSIENT_CEILING in Hd. destruct code; simplify_eq; lia.
  - intros H0 H1 Hn. destruct (retry_delay_bounds (ce_random env) (inject_Z (ce_now env)) _ None H0 H1 Hn) as (_ & Hlo & [_ Hhi] & _).
    by split.
Qed.

(** ** Operator pulls *)

(** The stack an operator pull fetches for. *)
Definition pull_stack (r : ControllerRow) : option string :=
  truthy (match cr_configured_source_stack_name r with Some s => Some s | None => cr_stack_name r end).

Definition pullable (r : ControllerRow) (inFlight : bool) : Prop :=
  let a := cr_app r in
  app_target_mode a = blueprint /\ (app_lifecycle_status a = active \/ app_lifecycle_status a = creating) /\
  is_Some (pull_stack r) /\ cr_suspended r = false /\
  app_active_operation_stage a <> Some apply_started /\ app_active_operation_stage a <> Some fetch_started /\
  ~ (app_interruption_stage a = Some apply_started /\ is_Some (app_interruption_generation_id a) /\
     app_interruption_generation_id a = app_candidate_generation_id a) /\
  inFlight = false /\ recoveryWaitHolds r = false.

#[export] Instance pullable_dec r b : Decision (pullable r b).
Proof. unfold pullable. apply _. Defined.

Ltac refuse := split; [intros K; exfalso; destruct K as (K1 & K2 & [? K3] & K4 & K5 & K6 & K7 & K8 & K9); simplify_eq;
  first [tauto | congruence] | intros _; by eexists].

Lemma operatorFetchBlock_exact r inFlight :
  (pullable r inFlight -> operatorFetchBlock (Some r) inFlight = inr (r, default "" (pull_stack r))) /\
  (~ pullable r inFlight -> exists p, operatorFetchBlock (Some r) inFlight = inl p).
Proof.
  unfold pullable, operatorFetchBlock. fold (pull_stack r).
  destruct (bool_decide_reflect (app_target_mode (cr_app r) = blueprint)); [|simpl; refuse].
  destruct (bool_decide_reflect (app_lifecycle_status (cr_app r) = active)),
    (bool_decide_reflect (app_lifecycle_status (cr_app r) = creating)); simpl; try refuse.
  all: destruct (pull_stack r) as [s|]; [|refuse].
  all: destruct (cr_suspended r); [refuse|].
  all: destruct (bool_decide_reflect (app_active_operation_stage (cr_app r) = Some apply_started)); [refuse|].
  all: destruct (bool_decide_reflect (app_interruption_stage (cr_app r) = Some apply_started)),
    (bool_decide_reflect (is_Some (app_interruption_generation_id (cr_app r)))),
    (bool_decide_reflect (app_interruption_generation_id (cr_app r) = app_candidate_generation_id (cr_app r))); simpl;
    try refuse.
  all: destruct inFlight; simpl; [refuse|].
  all: destruct (bool_decide_reflect (app_active_operation_stage (cr_app r) = Some fetch_started)); [refuse|].
  all: destruct (recoveryWaitHolds r); [refuse|].
  all: split; [done|intros K; exfalso; apply K; split_and!; try tauto; by eexists].
Qed.

(** When an operator pull starts. A Blueprint source that is live, has a stack, is
    neither suspended nor applying nor fetching nor evaluated in this process nor
    recovering, and whose interrupted apply, if any, no longer concerns the
    candidate; and, when the operator confirmed something, that still holds. Then one
    fetch is asked for and the slot is taken; otherwise nothing changes. *)
Theorem pull_starts_exact env c app actor confirmation r : ce_application env app = inr (Some r) -> cr_id r = app ->
  let ok := pullable r (bool_decide (app ∈ ct_inFlight c)) /\ confirmation ≫= sourceConfirmationDrift (cr_row r) = None in
  let c' := state (requestFetch env app actor confirmation) c in
  (ok -> exists s, pull_stack r = Some s /\
     effects (requestFetch env app actor confirmation) c = [CE_reconcile app s by_manual actor] /\
     ct_evals c' = <[ct_next c := mkEval app (K_fetch actor confirmation) (S_reconcile s by_manual)]> (ct_evals c) /\
     ct_inFlight c' = {[app]} ∪ ct_inFlight c) /\
  (~ ok -> c' = c /\ exists code error, effects (requestFetch env app actor confirmation) c = [CE_refused app code error]).
Proof.
  intros Hr Hid ok c'. unfold c', requestFetch. rewrite Hr. cbn match.
  destruct (operatorFetchBlock_exact r (bool_decide (app ∈ ct_inFlight c))) as [Hyes Hno]. rewrite !state_bind, !effects_bind.
  cbn [state effects result get fst snd]. split.
  - intros [Hp Hd]. rewrite (Hyes Hp). cbn match. rewrite Hd. act_run. unfold newEval. act_run. rewrite Hid.
    destruct Hp as (_ & _ & [s Hs] & _). exists s. rewrite Hs. done.
  - intros Hn. destruct (decide (pullable r (bool_decide (app ∈ ct_inFlight c)))) as [Hp|Hp].
    + rewrite (Hyes Hp). cbn match. destruct (confirmation ≫= sourceConfirmationDrift (cr_row r)) as [d|] eqn:Hd.
      * split; [done|by eexists _, _].
      * by destruct Hn.
    + destruct (Hno Hp) as [[code error] ->]. split; [done|by eexists _, _].
Qed.

(** ** Joining keys *)

Lemma length_append (s t : string) : String.length (s +:+ t) = (String.length s + String.length t)%nat.
Proof. induction s as [|c s IH]; [done|]. change (S (String.length (s +:+ t)) = S (String.length s + String.length t)). by rewrite IH. Qed.

Lemma append_inj_r (s t u : string) : s +:+ u = t +:+ u -> s = t.
Proof.
  revert t. induction s as [|c s IH]; intros [|d t] E; [done| | |].
  - apply (f_equal String.length) in E. rewrite !length_append in E. simpl in E. lia.
  - apply (f_equal String.length) in E. rewrite !length_append in E. simpl in E. lia.
  - injection E as -> E. by rewrite (IH t).
Qed.

Lemma true_false_suffix (s t : string) : s +:+ ":true" <> t +:+ ":false".
Proof.
  revert t. induction s as [|c s IH]; intros [|d t]; intros E.
  - done.
  - apply (f_equal String.length) in E. rewrite !length_append in E. simpl in E. lia.
  - injection E as -> E. destruct s as [|c' s]; [done|]. apply (f_equal String.length) in E. rewrite !length_append in E.
    simpl in E. lia.
  - injection E as -> E. by apply (IH t).
Qed.

(** Identifiers, stack names and commits hold no colon; a plan fingerprint may. *)
Definition colon_free (r : ReconcileRequest) : Prop :=
  match r with
  | RQ_fetch app stack => no_colon app = true /\ no_colon stack = true
  | RQ_apply app stack sha _ _ => no_colon app = true /\ no_colon stack = true /\ no_colon sha = true
  end.

(** Two submissions join exactly when they ask for the same work: fetches of one
    application and stack, whatever the trigger, and applies of one commit with one
    plan and one deploy choice. A fetch never joins an apply. *)
Theorem coalesce_exact r1 r2 : colon_free r1 -> colon_free r2 -> coalesceKey r1 = coalesceKey r2 <-> r1 = r2.
Proof.
  intros H1 H2. split; [|by intros ->].
  destruct r1 as [app1 st1|app1 st1 sha1 plan1 d1], r2 as [app2 st2|app2 st2 sha2 plan2 d2]; simpl in *; intros E;
    (apply append_colon_inj in E as [-> E]; [|tauto..]).
  - change (st1 +:+ ":" +:+ "fetch" = st2 +:+ ":" +:+ "fetch") in E.
    by apply append_colon_inj in E as [-> _]; [|tauto..].
  - change (st1 +:+ ":" +:+ "fetch" = st2 +:+ ":" +:+ ("apply:" +:+ (sha2 +:+ ":" +:+ plan2 +:+ ":" +:+ (if d2 then "true" else "false")))) in E.
    by apply append_colon_inj in E as [_ E]; [|tauto..].
  - change (st1 +:+ ":" +:+ ("apply:" +:+ (sha1 +:+ ":" +:+ plan1 +:+ ":" +:+ (if d1 then "true" else "false"))) = st2 +:+ ":" +:+ "fetch") in E.
    by apply append_colon_inj in E as [_ E]; [|tauto..].
  - change (st1 +:+ ":" +:+ ("apply:" +:+ (sha1 +:+ ":" +:+ plan1 +:+ ":" +:+ (if d1 then "true" else "false")))
      = st2 +:+ ":" +:+ ("apply:" +:+ (sha2 +:+ ":" +:+ plan2 +:+ ":" +:+ (if d2 then "true" else "false")))) in E.
    apply append_colon_inj in E as [-> E]; [|tauto..]. simplify_eq.
    apply append_colon_inj in E as [-> E]; [|tauto..]. destruct d1, d2.
    + by apply append_inj_r in E as ->.
    + by apply true_false_suffix in E.
    + symmetry in E. by apply true_false_suffix in E.
    + by apply append_inj_r in E as ->.
Qed.

(** ** Concrete runs *)

(** An automatic Blueprint source whose staged candidate is g1, polled every hour. *)
Definition demo_app : GitOpsApplicationRow :=
  mkApp "app" active blueprint (Some "https://git.example/web") (Some "{}") (Some "main") (Some "fp") (Some "c1") (Some "c1")
    (Some "g1") None 0 0 None None None None None (Some 5) None None None None 0 None None None None None None None.
Definition demo_row (app : GitOpsApplicationRow) (policy : SourcePolicy) : ControllerRow :=
  mkCtlRow
    (mkSource app "" (mkMaterial None None 0 None) None None None None (Some "pa-1") "automatic" None None None None "operator"
       policy 0 1)
    None (Some "web") (Some 3600).
Definition demo_find (r : ControllerRow) (id : string) : string + option ControllerRow :=
  inr (if bool_decide (id = cr_id r) then Some r else None).
Definition demo_env (r : ControllerRow) (now : Z) : CtlEnv :=
  mkCtlEnv now 0 (inr [r]) (fun _ => inr (Some r)) (demo_find r) (inr 60) (fun _ => inr true) (Some [["nginx"]])
    (Some [Some ["db"]]) None (fun _ => None).
Definition demo_auto : ControllerRow := demo_row demo_app sp_automatic.
Definition demo_events (l : list CtlEvent) : list (CtlEnv * CtlEvent) := pair (demo_env demo_auto 10) <$> l.

Lemma demo_env_ok r now : env_ok (demo_env r now).
Proof. intros id r'. simpl. unfold demo_find. case_bool_decide; [by intros [= <-]|done]. Qed.
Lemma demo_events_ok l : Forall (fun x => env_ok x.1) (demo_events l).
Proof. apply Forall_fmap, Forall_true. intros ev. apply demo_env_ok. Qed.
Lemma ctl_demo_reachable l : ctl_reachable (ctl_runs (demo_events l) newController).
Proof. apply ctl_runs_reachable; [apply demo_events_ok|constructor]. Qed.

(** The tick that finds the source due, and the evaluation it begins. *)
Definition demo_due : list CtlEvent := [EvStart_; EvTimer 1].

Example demo_due_evaluates :
  ct_evals (ctl_runs (demo_events demo_due) newController) !! 2 = Some (mkEval "app" K_scan (S_reconcile "web" by_poll)).
Proof. vm_compute. reflexivity. Qed.

Lemma one_timer_while_polling_witness :
  exists h, ct_timers (ctl_runs (demo_events [EvRestart; EvStart_; EvTimer 1; EvNow "web"])
    (ctl_runs (demo_events [EvStart_]) newController)) = {[h := 1]}.
Proof.
  destruct (one_timer_while_polling (ctl_runs (demo_events [EvStart_]) newController)
    (demo_events [EvRestart; EvStart_; EvTimer 1; EvNow "web"])) as [_ H]; [apply ctl_demo_reachable|apply demo_events_ok|].
  destruct H as (h & _ & H & _); [reflexivity|repeat constructor; discriminate|]. exists h. rewrite H. reflexivity.
Defined.

Lemma no_wake_is_lost_witness :
  ct_evals (ctl_runs (demo_events [EvEvaluated 2]) (ctl_runs (demo_events (demo_due ++ [EvNow "web";
    EvReconciled 2 (inl "offline")])) newController)) !! 2 = None /\
  exists e', ct_evals (ctl_runs (demo_events [EvEvaluated 2]) (ctl_runs (demo_events (demo_due ++ [EvNow "web";
    EvReconciled 2 (inl "offline")])) newController)) !! e' = Some (mkEval "app" K_now (S_reconcile "web" by_resume)).
Proof.
  destruct (no_wake_is_lost (ctl_runs (demo_events (demo_due ++ [EvNow "web"; EvReconciled 2 (inl "offline")])) newController)
    (demo_env demo_auto 10) (EvEvaluated 2) 2 (mkEval "app" K_scan (S_over (inl "offline") None)) "web")
    as [(y & H & _)|(H & _ & Hw)];
    [apply ctl_demo_reachable|apply demo_env_ok|vm_compute; reflexivity..| |].
  - vm_compute in H. discriminate H.
  - split; [exact H|]. destruct (Hw demo_auto "web") as [_ He]; [reflexivity..|exact He].
Defined.

Lemma every_evaluation_ends_witness :
  ct_evals (ctl_runs (concat (demo_events <$> [[EvReconciled 2 (inl "offline"); EvNow "web"]; [EvPolicy 2 (inl "")]; [EvRevalidated 2 (inl "")];
    [EvStop_; EvPrepared 2 (inl "")]; [EvHandedOff 2 (inl "")]; [EvDispatched 2 (inl "")]; [EvEvaluated 2; EvNow "web"];
    [EvFollowed 2]])) (ctl_runs (demo_events demo_due) newController)) !! 2 = None.
Proof.
  destruct (every_evaluation_ends (ctl_runs (demo_events demo_due) newController)
    (demo_events <$> [[EvReconciled 2 (inl "offline"); EvNow "web"]; [EvPolicy 2 (inl "")]; [EvRevalidated 2 (inl "")];
      [EvStop_; EvPrepared 2 (inl "")]; [EvHandedOff 2 (inl "")]; [EvDispatched 2 (inl "")]; [EvEvaluated 2; EvNow "web"];
      [EvFollowed 2]])
    2 (mkEval "app" K_scan (S_reconcile "web" by_poll)) (inl "offline") (inl "") (inl "") (inl "") (inl "") (inl "")) as [H _];
    [apply ctl_demo_reachable|vm_compute; reflexivity| | |exact H].
  - apply Forall_fmap, Forall_true. intros l. apply demo_events_ok.
  - repeat (constructor; [simpl; set_solver|]). constructor.
Defined.


Lemma schedule_exact_witness :
  CE_poll "app" 3600010 ∈ (settleAfterReconcile (demo_env demo_auto 10)
    (mkCtx demo_auto "web" by_poll O_no_source_change None)).1.
Proof.
  destruct (schedule_exact (demo_env demo_auto 10) (mkCtx demo_auto "web" by_poll O_no_source_change None) 60) as (H & _);
    [reflexivity|].
  apply H. split_and!; [reflexivity..|vm_compute; reflexivity|by left].
Defined.

Lemma pull_starts_exact_witness :
  exists s, effects (requestFetch (demo_env demo_auto 10) "app" "ana" (Some (mkConfirmation (Some "pa-1") true))) newController
    = [CE_reconcile "app" s by_manual "ana"].
Proof.
  destruct (pull_starts_exact (demo_env demo_auto 10) newController "app" "ana" (Some (mkConfirmation (Some "pa-1") true)) demo_auto)
    as [H _]; [reflexivity..|].
  destruct H as (s & _ & H & _); [|by exists s].
  split; [apply (bool_decide_unpack _); vm_compute; exact I|reflexivity].
Defined.

Lemma coalesce_exact_witness : coalesceKey (RQ_apply "app" "web" "c1" "plan:1" true) <> coalesceKey (RQ_apply "app" "web" "c1" "plan:1" false).
Proof.
  intros E%coalesce_exact; [discriminate E|vm_compute; repeat split..].
Defined.
