(* ===== verification/DockerEvents.v ===== *)
(** * Docker events (services/DockerEventService.ts, ContainerLifecycleClassifier.ts)

    One node's subscription to the container events of its Docker daemon: the
    connection and its reconnects, the lifecycle of each container, the crash signal
    [AutoHealService] reads, and the alerts with their deduplication and their shared
    rate limit.

    A container's state is an object of a heap: a classification or an alert that
    awaits Docker keeps the object it captured, whatever became of the map. A task is
    an [await] in progress. A timer is its deadline. [cn_listeners] are the streams
    the handlers are attached to, with the buffer of each, [cn_dead] those that were
    destroyed or ended. Times are whole milliseconds; [timeNano] is an exact integer.
    [JSON.parse] is a parameter; a payload that is no object is one without fields,
    since what it throws is caught. Log lines are left out. *)

From Stdlib Require Import QArith Qround.
From S2P Require Import Prelude AutoHeal.

#[global] Open Scope Z_scope.

(** ** Classification *)

Inductive Classification := intentional | clean | crash | oom.
#[export] Instance Classification_eq_dec : EqDecision Classification.
Proof. solve_decision. Defined.

Definition MAX_NEGATIVE_SKEW_MS : Z := 10000.

Definition classifyDie (at_ : Z) (exitCode lastKillAt : option Z) (oomPending helperContainer : bool) : Classification :=
  if helperContainer then intentional
  else if oomPending then oom
  else if match lastKillAt with
          | Some kill => (- MAX_NEGATIVE_SKEW_MS <=? at_ - kill) && (at_ - kill <=? INTENTIONAL_KILL_WINDOW_MS)
          | None => false
          end then intentional
  else if bool_decide (exitCode = Some 0) then clean
  else crash.

Definition classifyGapExit (oomKilled : bool) (exitCode : option Z) : Classification :=
  if oomKilled then oom else if bool_decide (exitCode = Some 0) then clean else crash.

(** ** Data *)

Definition DIE_GRACE_WINDOW_MS : Z := 500.
Definition RATE_LIMIT_MAX : Z := 20.
Definition RATE_WINDOW_MS : Z := 60000.
Definition CRASH_DEDUP_MS : Z := 60 * 60000.
Definition HEALTH_DEDUP_MS : Z := CRASH_DEDUP_MS.
Definition STATE_STALE_AFTER_MS : Z := 10 * 60000.
Definition PARSE_ERROR_THRESHOLD : Z := 10.
Definition PARSE_ERROR_WINDOW_MS : Z := 60000.
Definition RECONNECT_BASE_MS : Z := 1000.
Definition RECONNECT_MAX_MS : Z := 60000.
Definition RECONNECT_JITTER_MS : Z := 500.
Definition SETTINGS_CACHE_MS : Z := 500.
Definition COMPOSE_PROJECT_LABEL : string := "com.docker.compose.project".
Definition COMPOSE_SERVICE_LABEL : string := "com.docker.compose.service".
Definition RECOVERY_HELPER_LABEL : string := "dev.sencho.recovery.helper".
Definition STATE_INVALIDATE_ACTIONS : list string :=
  ["start"; "die"; "kill"; "destroy"; "create"; "restart"; "pause"; "unpause"; "health_status"; "rename"; "update"].

(** [InternalContainerState] *)
Record ContainerState := mkObj {
  ob_name : option string;
  ob_stackName : option string;
  ob_serviceName : option string;
  ob_isSelf : bool;
  ob_helperContainer : bool;
  ob_lastKillAt : option Z;
  ob_oomPending : bool;
  ob_lastCrashAlertAt : option Z;
  ob_lastActivityAt : Z;
  ob_healthStatus : option HealthStatus;
  ob_unhealthySince : option Z;
  ob_crashedAt : option Z;
  ob_lastStartAt : option Z;
}.
Definition upd_ob_name f x := mkObj (f (ob_name x)) (ob_stackName x) (ob_serviceName x) (ob_isSelf x)
  (ob_helperContainer x) (ob_lastKillAt x) (ob_oomPending x) (ob_lastCrashAlertAt x) (ob_lastActivityAt x)
  (ob_healthStatus x) (ob_unhealthySince x) (ob_crashedAt x) (ob_lastStartAt x).
Definition upd_ob_stackName f x := mkObj (ob_name x) (f (ob_stackName x)) (ob_serviceName x) (ob_isSelf x)
  (ob_helperContainer x) (ob_lastKillAt x) (ob_oomPending x) (ob_lastCrashAlertAt x) (ob_lastActivityAt x)
  (ob_healthStatus x) (ob_unhealthySince x) (ob_crashedAt x) (ob_lastStartAt x).
Definition upd_ob_serviceName f x := mkObj (ob_name x) (ob_stackName x) (f (ob_serviceName x)) (ob_isSelf x)
  (ob_helperContainer x) (ob_lastKillAt x) (ob_oomPending x) (ob_lastCrashAlertAt x) (ob_lastActivityAt x)
  (ob_healthStatus x) (ob_unhealthySince x) (ob_crashedAt x) (ob_lastStartAt x).
Definition upd_ob_isSelf f x := mkObj (ob_name x) (ob_stackName x) (ob_serviceName x) (f (ob_isSelf x))
  (ob_helperContainer x) (ob_lastKillAt x) (ob_oomPending x) (ob_lastCrashAlertAt x) (ob_lastActivityAt x)
  (ob_healthStatus x) (ob_unhealthySince x) (ob_crashedAt x) (ob_lastStartAt x).
Definition upd_ob_helperContainer f x := mkObj (ob_name x) (ob_stackName x) (ob_serviceName x) (ob_isSelf x) (f
  (ob_helperContainer x)) (ob_lastKillAt x) (ob_oomPending x) (ob_lastCrashAlertAt x) (ob_lastActivityAt x)
  (ob_healthStatus x) (ob_unhealthySince x) (ob_crashedAt x) (ob_lastStartAt x).
Definition upd_ob_lastKillAt f x := mkObj (ob_name x) (ob_stackName x) (ob_serviceName x) (ob_isSelf x)
  (ob_helperContainer x) (f (ob_lastKillAt x)) (ob_oomPending x) (ob_lastCrashAlertAt x) (ob_lastActivityAt x)
  (ob_healthStatus x) (ob_unhealthySince x) (ob_crashedAt x) (ob_lastStartAt x).
Definition upd_ob_oomPending f x := mkObj (ob_name x) (ob_stackName x) (ob_serviceName x) (ob_isSelf x)
  (ob_helperContainer x) (ob_lastKillAt x) (f (ob_oomPending x)) (ob_lastCrashAlertAt x) (ob_lastActivityAt x)
  (ob_healthStatus x) (ob_unhealthySince x) (ob_crashedAt x) (ob_lastStartAt x).
Definition upd_ob_lastCrashAlertAt f x := mkObj (ob_name x) (ob_stackName x) (ob_serviceName x) (ob_isSelf x)
  (ob_helperContainer x) (ob_lastKillAt x) (ob_oomPending x) (f (ob_lastCrashAlertAt x)) (ob_lastActivityAt x)
  (ob_healthStatus x) (ob_unhealthySince x) (ob_crashedAt x) (ob_lastStartAt x).
Definition upd_ob_lastActivityAt f x := mkObj (ob_name x) (ob_stackName x) (ob_serviceName x) (ob_isSelf x)
  (ob_helperContainer x) (ob_lastKillAt x) (ob_oomPending x) (ob_lastCrashAlertAt x) (f (ob_lastActivityAt x))
  (ob_healthStatus x) (ob_unhealthySince x) (ob_crashedAt x) (ob_lastStartAt x).
Definition upd_ob_healthStatus f x := mkObj (ob_name x) (ob_stackName x) (ob_serviceName x) (ob_isSelf x)
  (ob_helperContainer x) (ob_lastKillAt x) (ob_oomPending x) (ob_lastCrashAlertAt x) (ob_lastActivityAt x) (f
  (ob_healthStatus x)) (ob_unhealthySince x) (ob_crashedAt x) (ob_lastStartAt x).
Definition upd_ob_unhealthySince f x := mkObj (ob_name x) (ob_stackName x) (ob_serviceName x) (ob_isSelf x)
  (ob_helperContainer x) (ob_lastKillAt x) (ob_oomPending x) (ob_lastCrashAlertAt x) (ob_lastActivityAt x)
  (ob_healthStatus x) (f (ob_unhealthySince x)) (ob_crashedAt x) (ob_lastStartAt x).
Definition upd_ob_crashedAt f x := mkObj (ob_name x) (ob_stackName x) (ob_serviceName x) (ob_isSelf x)
  (ob_helperContainer x) (ob_lastKillAt x) (ob_oomPending x) (ob_lastCrashAlertAt x) (ob_lastActivityAt x)
  (ob_healthStatus x) (ob_unhealthySince x) (f (ob_crashedAt x)) (ob_lastStartAt x).
Definition upd_ob_lastStartAt f x := mkObj (ob_name x) (ob_stackName x) (ob_serviceName x) (ob_isSelf x)
  (ob_helperContainer x) (ob_lastKillAt x) (ob_oomPending x) (ob_lastCrashAlertAt x) (ob_lastActivityAt x)
  (ob_healthStatus x) (ob_unhealthySince x) (ob_crashedAt x) (f (ob_lastStartAt x)).

Record DockerEventPayload := mkPayload {
  pl_Type : option string;
  pl_Action : option string;
  pl_ID : option string;
  pl_Attributes : gmap string string;
  pl_time : option Z;
  pl_timeNano : option Z;
}.

Inductive LifecycleStatus := disconnected | connecting | connected | stopped.
#[export] Instance LifecycleStatus_eq_dec : EqDecision LifecycleStatus.
Proof. solve_decision. Defined.

(** What a container inspect says that is read here. *)
Record Inspect := mkInspect {
  in_OOMKilled : bool;
  in_ExitCode : option Z;
  in_Name : option string;
  in_project : option string;
}.

(** A die in its grace window: the event, when it occurred, when it is classified. *)
Record PendingDie := mkPendingDie { pd_event : DockerEventPayload; pd_dieAt : Z; pd_due : Z }.

(** The alerts of this service. *)
Inductive AlertLevel := info | warning | error.
Inductive AlertCategory := monitor_alert | system.
Inductive AlertText :=
  | AT_crash (name : string) (code : Z)
  | AT_oom (name : string)
  | AT_unhealthy (name : string)
  | AT_summary (crashes healths : Z)
  | AT_lost | AT_reconnected | AT_malformed
  | AT_gap (exits : Z).
Record AlertOptions := mkOptions {
  ao_stackName : option string;
  ao_containerName : option string;
  ao_serviceName : option string;
}.

Definition buildRateLimitSummaryMessage (crashes healths : Z) : string :=
  if (0 <? crashes) && (0 <? healths) then
    pretty (crashes + healths) +:+ " additional container alerts were rate-limited in the last minute ("
      +:+ pretty crashes +:+ " crash, " +:+ pretty healths +:+ " health)."
  else if 0 <? healths then
    pretty healths +:+ " additional container health alerts were rate-limited in the last minute."
  else pretty crashes +:+ " additional container crash alerts were rate-limited in the last minute.".

Definition message (t : AlertText) : string :=
  match t with
  | AT_crash name code => "Container Crash Detected: " +:+ name +:+ " exited unexpectedly (Code: " +:+ pretty code +:+ ")."
  | AT_oom name => "Container OOM Kill: " +:+ name +:+ " was killed by the OOM killer (out of memory)."
  | AT_unhealthy name => "Healthcheck failed: " +:+ name +:+ " is unhealthy."
  | AT_summary crashes healths => buildRateLimitSummaryMessage crashes healths
  | AT_lost => "Lost connection to Docker daemon; monitoring paused."
  | AT_reconnected => "Reconnected to Docker daemon."
  | AT_malformed => "Received malformed Docker event payloads. Monitoring continues but some events may be skipped."
  | AT_gap exits => "Docker daemon interruption detected: " +:+ pretty exits +:+ " containers exited during connection gap."
  end.

(** A gap exit is inspected, then its alert is dispatched. *)
Inductive GapStage := gap_inspecting | gap_alerting.

Inductive Task :=
  | T_events                                           (* connect awaits getEvents *)
  | T_notice (stream : Z)                              (* connect awaits the notice of a reconnect *)
  | T_list                                             (* reconcile awaits listContainers *)
  | T_mass (exitedNow : gset string)                   (* reconcile awaits the notice of a mass exit *)
  | T_gaps (exitedNow : gset string) (gaps : gmap string GapStage)
  | T_die (id : string) (object : Z) (exitCode : option Z)   (* classifyDie awaits the inspect of a 137 *)
  | T_health (id : string) (object : Z) (token : Z).   (* dispatchHealthAlert awaits the dispatch *)

Record Conn := mkConn {
  cn_status : LifecycleStatus;
  cn_stream : option Z;
  cn_reconnectAttempts : Z;
  cn_reconnectTimer : option Z;
  cn_pruneTimer : bool;
  cn_bootReconciled : bool;
  cn_exitedBaseline : gset string;
  cn_disconnectedNoticeEmitted : bool;
  cn_listeners : gmap Z string;
  cn_dead : gset Z;
}.
Definition upd_cn_status f x := mkConn (f (cn_status x)) (cn_stream x) (cn_reconnectAttempts x) (cn_reconnectTimer
  x) (cn_pruneTimer x) (cn_bootReconciled x) (cn_exitedBaseline x) (cn_disconnectedNoticeEmitted x) (cn_listeners x)
  (cn_dead x).
Definition upd_cn_stream f x := mkConn (cn_status x) (f (cn_stream x)) (cn_reconnectAttempts x) (cn_reconnectTimer
  x) (cn_pruneTimer x) (cn_bootReconciled x) (cn_exitedBaseline x) (cn_disconnectedNoticeEmitted x) (cn_listeners x)
  (cn_dead x).
Definition upd_cn_reconnectAttempts f x := mkConn (cn_status x) (cn_stream x) (f (cn_reconnectAttempts x))
  (cn_reconnectTimer x) (cn_pruneTimer x) (cn_bootReconciled x) (cn_exitedBaseline x) (cn_disconnectedNoticeEmitted
  x) (cn_listeners x) (cn_dead x).
Definition upd_cn_reconnectTimer f x := mkConn (cn_status x) (cn_stream x) (cn_reconnectAttempts x) (f
  (cn_reconnectTimer x)) (cn_pruneTimer x) (cn_bootReconciled x) (cn_exitedBaseline x) (cn_disconnectedNoticeEmitted
  x) (cn_listeners x) (cn_dead x).
Definition upd_cn_pruneTimer f x := mkConn (cn_status x) (cn_stream x) (cn_reconnectAttempts x) (cn_reconnectTimer
  x) (f (cn_pruneTimer x)) (cn_bootReconciled x) (cn_exitedBaseline x) (cn_disconnectedNoticeEmitted x)
  (cn_listeners x) (cn_dead x).
Definition upd_cn_bootReconciled f x := mkConn (cn_status x) (cn_stream x) (cn_reconnectAttempts x)
  (cn_reconnectTimer x) (cn_pruneTimer x) (f (cn_bootReconciled x)) (cn_exitedBaseline x)
  (cn_disconnectedNoticeEmitted x) (cn_listeners x) (cn_dead x).
Definition upd_cn_exitedBaseline f x := mkConn (cn_status x) (cn_stream x) (cn_reconnectAttempts x)
  (cn_reconnectTimer x) (cn_pruneTimer x) (cn_bootReconciled x) (f (cn_exitedBaseline x))
  (cn_disconnectedNoticeEmitted x) (cn_listeners x) (cn_dead x).
Definition upd_cn_disconnectedNoticeEmitted f x := mkConn (cn_status x) (cn_stream x) (cn_reconnectAttempts x)
  (cn_reconnectTimer x) (cn_pruneTimer x) (cn_bootReconciled x) (cn_exitedBaseline x) (f
  (cn_disconnectedNoticeEmitted x)) (cn_listeners x) (cn_dead x).
Definition upd_cn_listeners f x := mkConn (cn_status x) (cn_stream x) (cn_reconnectAttempts x) (cn_reconnectTimer x)
  (cn_pruneTimer x) (cn_bootReconciled x) (cn_exitedBaseline x) (cn_disconnectedNoticeEmitted x) (f (cn_listeners
  x)) (cn_dead x).
Definition upd_cn_dead f x := mkConn (cn_status x) (cn_stream x) (cn_reconnectAttempts x) (cn_reconnectTimer x)
  (cn_pruneTimer x) (cn_bootReconciled x) (cn_exitedBaseline x) (cn_disconnectedNoticeEmitted x) (cn_listeners x) (f
  (cn_dead x)).
(** The shared rate limiter; [rt_crashes] and [rt_healths] are the suppressed counts. *)
Record Rate := mkRate {
  rt_windowStart : Z;
  rt_count : Z;
  rt_crashes : Z;
  rt_healths : Z;
  rt_summaryTimer : option Z;
}.
Definition upd_rt_windowStart f x := mkRate (f (rt_windowStart x)) (rt_count x) (rt_crashes x) (rt_healths x)
  (rt_summaryTimer x).
Definition upd_rt_count f x := mkRate (rt_windowStart x) (f (rt_count x)) (rt_crashes x) (rt_healths x)
  (rt_summaryTimer x).
Definition upd_rt_crashes f x := mkRate (rt_windowStart x) (rt_count x) (f (rt_crashes x)) (rt_healths x)
  (rt_summaryTimer x).
Definition upd_rt_healths f x := mkRate (rt_windowStart x) (rt_count x) (rt_crashes x) (f (rt_healths x))
  (rt_summaryTimer x).
Definition upd_rt_summaryTimer f x := mkRate (rt_windowStart x) (rt_count x) (rt_crashes x) (rt_healths x) (f
  (rt_summaryTimer x)).
Record HealthAlerts := mkHealth {
  hl_dedupAt : gmap string Z;
  hl_inFlight : gset string;
  hl_pendingRetry : gset string;
}.
Definition upd_hl_dedupAt f x := mkHealth (f (hl_dedupAt x)) (hl_inFlight x) (hl_pendingRetry x).
Definition upd_hl_inFlight f x := mkHealth (hl_dedupAt x) (f (hl_inFlight x)) (hl_pendingRetry x).
Definition upd_hl_pendingRetry f x := mkHealth (hl_dedupAt x) (hl_inFlight x) (f (hl_pendingRetry x)).
Record ParseErrors := mkParse {
  pe_windowStart : Z;
  pe_count : Z;
  pe_warned : bool;
}.
Record DockerEvents := mkDockerEvents {
  ds_conn : Conn;
  ds_rate : Rate;
  ds_health : HealthAlerts;
  ds_parse : ParseErrors;
  ds_containerState : gmap string Z;
  ds_objects : gmap Z ContainerState;
  ds_pendingDieTimers : gmap string PendingDie;
  ds_crashAlertsCache : option (bool * Z);
  ds_tasks : gmap Z Task;
  ds_next : Z;
}.
Definition upd_ds_conn f x := mkDockerEvents (f (ds_conn x)) (ds_rate x) (ds_health x) (ds_parse x)
  (ds_containerState x) (ds_objects x) (ds_pendingDieTimers x) (ds_crashAlertsCache x) (ds_tasks x) (ds_next x).
Definition upd_ds_rate f x := mkDockerEvents (ds_conn x) (f (ds_rate x)) (ds_health x) (ds_parse x)
  (ds_containerState x) (ds_objects x) (ds_pendingDieTimers x) (ds_crashAlertsCache x) (ds_tasks x) (ds_next x).
Definition upd_ds_health f x := mkDockerEvents (ds_conn x) (ds_rate x) (f (ds_health x)) (ds_parse x)
  (ds_containerState x) (ds_objects x) (ds_pendingDieTimers x) (ds_crashAlertsCache x) (ds_tasks x) (ds_next x).
Definition upd_ds_parse f x := mkDockerEvents (ds_conn x) (ds_rate x) (ds_health x) (f (ds_parse x))
  (ds_containerState x) (ds_objects x) (ds_pendingDieTimers x) (ds_crashAlertsCache x) (ds_tasks x) (ds_next x).
Definition upd_ds_containerState f x := mkDockerEvents (ds_conn x) (ds_rate x) (ds_health x) (ds_parse x) (f
  (ds_containerState x)) (ds_objects x) (ds_pendingDieTimers x) (ds_crashAlertsCache x) (ds_tasks x) (ds_next x).
Definition upd_ds_objects f x := mkDockerEvents (ds_conn x) (ds_rate x) (ds_health x) (ds_parse x)
  (ds_containerState x) (f (ds_objects x)) (ds_pendingDieTimers x) (ds_crashAlertsCache x) (ds_tasks x) (ds_next
  x).
Definition upd_ds_pendingDieTimers f x := mkDockerEvents (ds_conn x) (ds_rate x) (ds_health x) (ds_parse x)
  (ds_containerState x) (ds_objects x) (f (ds_pendingDieTimers x)) (ds_crashAlertsCache x) (ds_tasks x) (ds_next
  x).
Definition upd_ds_crashAlertsCache f x := mkDockerEvents (ds_conn x) (ds_rate x) (ds_health x) (ds_parse x)
  (ds_containerState x) (ds_objects x) (ds_pendingDieTimers x) (f (ds_crashAlertsCache x)) (ds_tasks x) (ds_next
  x).
Definition upd_ds_tasks f x := mkDockerEvents (ds_conn x) (ds_rate x) (ds_health x) (ds_parse x) (ds_containerState
  x) (ds_objects x) (ds_pendingDieTimers x) (ds_crashAlertsCache x) (f (ds_tasks x)) (ds_next x).
Definition upd_ds_next f x := mkDockerEvents (ds_conn x) (ds_rate x) (ds_health x) (ds_parse x) (ds_containerState
  x) (ds_objects x) (ds_pendingDieTimers x) (ds_crashAlertsCache x) (ds_tasks x) (f (ds_next x)).

Definition upd_status s := upd_ds_conn (upd_cn_status (fun _ => s)).

Definition newService : DockerEvents :=
  mkDockerEvents (mkConn disconnected None 0 None false false ∅ false ∅ ∅) (mkRate 0 0 0 0 None) (mkHealth ∅ ∅ ∅)
    (mkParse 0 0 false) ∅ ∅ ∅ None ∅ 1.

(** What a handler reads. *)
Record DockerEnv := mkDockerEnv {
  de_now : Z;
  de_random : Q;
  de_crashSetting : option bool;          (* the global_crash setting, none when the lookup throws *)
  de_isOwnContainer : string -> bool;
  de_parse : string -> option DockerEventPayload;
}.

Inductive DockerEffect :=
  | DE_getEvents
  | DE_listContainers
  | DE_inspect (id : string)
  | DE_destroyStream (stream : Z)
  | DE_invalidateStatuses
  | DE_stateInvalidate (stackName : option string) (id action : string)
  | DE_alert (level : AlertLevel) (category : AlertCategory) (text : AlertText) (options : AlertOptions).

Abbreviation DM := (act DockerEvents DockerEffect).

Definition isStopped (c : DockerEvents) : bool := bool_decide (cn_status (ds_conn c) = stopped).

Definition newTask (t : Task) : DM unit :=
  c ← get; modify (upd_ds_next (Z.add 1));; modify (upd_ds_tasks (<[ds_next c := t]>)).

Definition endTask (t : Z) : DM unit := modify (upd_ds_tasks (delete t)).

(** ** Notifications *)

Definition buildAlertOptions (stackName containerName : option string) (systemOnly : bool) (serviceName : option string)
    : AlertOptions :=
  if systemOnly then mkOptions None None None else mkOptions stackName containerName (truthy serviceName).

Definition emitError (text : AlertText) (stackName containerName : option string) (systemOnly : bool)
    (serviceName : option string) : DM unit :=
  tell (DE_alert error monitor_alert text (buildAlertOptions stackName containerName systemOnly serviceName)).
Definition emitWarning (category : AlertCategory) (text : AlertText) : DM unit :=
  tell (DE_alert warning category text (buildAlertOptions None None false None)).
Definition emitInfo (text : AlertText) : DM unit :=
  tell (DE_alert info system text (buildAlertOptions None None false None)).

(** ** The rate limiter *)

Definition flushRateLimitSummaryNow : DM unit :=
  c ← get;
  let crashes := rt_crashes (ds_rate c) in let healths := rt_healths (ds_rate c) in
  modify (upd_ds_rate (fun r => mkRate (rt_windowStart r) (rt_count r) 0 0 None));;
  if (crashes + healths <=? 0) || isStopped c then skip else emitWarning monitor_alert (AT_summary crashes healths).

Definition scheduleSummary (env : DockerEnv) : DM unit :=
  c ← get;
  match rt_summaryTimer (ds_rate c) with
  | Some _ => skip
  | None =>
      let remaining := RATE_WINDOW_MS - (de_now env - rt_windowStart (ds_rate c)) in
      modify (upd_ds_rate (upd_rt_summaryTimer (fun _ => Some (de_now env + Z.max 1000 remaining))))
  end.

(** The token is the start of the window that issued it. *)
Definition consumeRateToken (env : DockerEnv) : DM (option Z) :=
  c ← get;
  (if RATE_WINDOW_MS <=? de_now env - rt_windowStart (ds_rate c) then
     flushRateLimitSummaryNow;;
     modify (upd_ds_rate (fun r => mkRate (de_now env) 0 (rt_crashes r) (rt_healths r) (rt_summaryTimer r)))
   else skip);;
  c ← get;
  if RATE_LIMIT_MAX <=? rt_count (ds_rate c) then mret None
  else modify (upd_ds_rate (upd_rt_count (Z.add 1)));; mret (Some (rt_windowStart (ds_rate c))).

Definition refundRateToken (token : Z) : DM unit :=
  modify (upd_ds_rate (fun r =>
    if (token =? rt_windowStart r) && (0 <? rt_count r) then upd_rt_count (fun n => n - 1) r else r)).

Definition isWithinAlertDedupWindow (lastAlertAt : option Z) (now windowMs : Z) : bool :=
  match lastAlertAt with Some t => now - t <? windowMs | None => false end.

Definition isCrashAlertsEnabled (env : DockerEnv) : DM bool :=
  c ← get;
  match ds_crashAlertsCache c with
  | Some (value, at_) =>
      if de_now env - at_ <? SETTINGS_CACHE_MS then mret value
      else let value := default false (de_crashSetting env) in
           modify (upd_ds_crashAlertsCache (fun _ => Some (value, de_now env)));; mret value
  | None => let value := default false (de_crashSetting env) in
            modify (upd_ds_crashAlertsCache (fun _ => Some (value, de_now env)));; mret value
  end.

Definition trackParseError (env : DockerEnv) : DM unit :=
  c ← get;
  let p := if PARSE_ERROR_WINDOW_MS <=? de_now env - pe_windowStart (ds_parse c) then mkParse (de_now env) 0 false
           else ds_parse c in
  let warns := (PARSE_ERROR_THRESHOLD <? pe_count p + 1) && negb (pe_warned p) in
  modify (upd_ds_parse (fun _ => mkParse (pe_windowStart p) (pe_count p + 1) (pe_warned p || warns)));;
  when warns (emitWarning system AT_malformed).

(** ** Container states *)

Definition emptyState (now : Z) : ContainerState :=
  mkObj None None None false false None false None now None None None None.

(** The object a reference names. *)
Definition object (c : DockerEvents) (ref : Z) : ContainerState := default (emptyState 0) (ds_objects c !! ref).

Definition updObject (ref : Z) (f : ContainerState -> ContainerState) : DM unit := modify (upd_ds_objects (alter f ref)).

(** [replace(/^\//, '')] *)
Definition strip_slash (s : string) : string := default s (strip_prefix "/" s).

Definition isSelfContainer (env : DockerEnv) (id name : option string) : bool :=
  match truthy id with Some id => de_isOwnContainer env id | None => false end
  || match truthy (strip_slash <$> name) with Some name => de_isOwnContainer env name | None => false end.

(** A field that is still unknown is read from the event's attributes. *)
Definition learn (attrs : gmap string string) (o : ContainerState) : ContainerState :=
  let known (old : option string) (key : string) :=
    match truthy old with Some _ => old | None => match truthy (attrs !! key) with Some new => Some new | None => old end end in
  mkObj (known (ob_name o) "name") (known (ob_stackName o) COMPOSE_PROJECT_LABEL)
    (known (ob_serviceName o) COMPOSE_SERVICE_LABEL) (ob_isSelf o)
    (ob_helperContainer o || bool_decide (is_Some (truthy (attrs !! RECOVERY_HELPER_LABEL))))
    (ob_lastKillAt o) (ob_oomPending o) (ob_lastCrashAlertAt o) (ob_lastActivityAt o) (ob_healthStatus o)
    (ob_unhealthySince o) (ob_crashedAt o) (ob_lastStartAt o).

Definition getOrCreateState (env : DockerEnv) (id : string) (event : option DockerEventPayload) : DM Z :=
  c ← get;
  ref ← match ds_containerState c !! id with
        | Some ref => mret ref
        | None =>
            modify (upd_ds_next (Z.add 1));;
            modify (upd_ds_objects (<[ds_next c := emptyState (de_now env)]>));;
            modify (upd_ds_containerState (<[id := ds_next c]>));;
            mret (ds_next c)
        end;
  updObject ref (fun o =>
    let o := match event with Some e => learn (pl_Attributes e) o | None => o end in
    if isSelfContainer env (Some id) (ob_name o) then upd_ob_isSelf (fun _ => true) o else o);;
  mret ref.

Definition eventTimeMs (env : DockerEnv) (e : DockerEventPayload) : Z :=
  match pl_timeNano e, pl_time e with
  | Some nano, _ => nano / 1000000
  | None, Some time => time * 1000
  | None, None => de_now env
  end.

(** [id.slice(0, 12)] *)
Definition shortId (id : string) : string := String.substring 0 12 id.

Definition pruneStaleState (env : DockerEnv) : DM unit :=
  c ← get;
  let keep (ref : Z) := let o := object c ref in
    bool_decide (is_Some (ob_crashedAt o)) || negb (ob_lastActivityAt o <? de_now env - STATE_STALE_AFTER_MS) in
  modify (upd_ds_containerState (filter (fun kv => Is_true (keep kv.2))));;
  modify (upd_ds_health (upd_hl_dedupAt (filter (fun kv => Is_true (negb (kv.2 <? de_now env - HEALTH_DEDUP_MS)))))).

(** [getContainerState], for [AutoHealService]. *)
Definition getContainerState (c : DockerEvents) (id : string) : option ContainerHealthSnapshot :=
  (fun ref => let o := object c ref in
    mkSnapshot (ob_healthStatus o) (ob_unhealthySince o) (ob_lastKillAt o) (ob_crashedAt o)) <$> ds_containerState c !! id.

(** ** Alerts *)

(** Whether an alert was dispatched, which its caller awaits. *)
Definition emitClassification (env : DockerEnv) (classification : Classification) (ref : option Z) (name : string)
    (exitCode : Z) (stackName : option string) (isSelf : bool) : DM bool :=
  c ← get;
  if isStopped c then mret false
  else
    enabled ← isCrashAlertsEnabled env;
    if negb enabled then mret false
    else
      token ← consumeRateToken env;
      match token with
      | None => modify (upd_ds_rate (upd_rt_crashes (Z.add 1)));; scheduleSummary env;; mret false
      | Some _ =>
          match ref with
          | Some ref => updObject ref (upd_ob_lastCrashAlertAt (fun _ => Some (de_now env)))
          | None => skip
          end;;
          c ← get;
          emitError (if bool_decide (classification = oom) then AT_oom name else AT_crash name exitCode) stackName (Some name)
            isSelf (ref ≫= fun ref => ob_serviceName (object c ref));;
          mret true
      end.

(** [dispatchHealthAlert] up to the dispatch; its second test for a stop is never met. *)
Definition dispatchHealthAlert (env : DockerEnv) (id : string) (ref : Z) : DM unit :=
  c ← get;
  if isStopped c then skip
  else if isWithinAlertDedupWindow (hl_dedupAt (ds_health c) !! id) (de_now env) HEALTH_DEDUP_MS then skip
  else if bool_decide (id ∈ hl_inFlight (ds_health c))
  then modify (upd_ds_health (upd_hl_pendingRetry (fun s => {[id]} ∪ s)))
  else
    token ← consumeRateToken env;
    match token with
    | None => modify (upd_ds_rate (upd_rt_healths (Z.add 1)));; scheduleSummary env
    | Some token =>
        modify (upd_ds_health (upd_hl_inFlight (fun s => {[id]} ∪ s)));;
        let o := object c ref in
        emitError (AT_unhealthy (default (shortId id) (ob_name o))) (ob_stackName o) (ob_name o) (ob_isSelf o)
          (ob_serviceName o);;
        newTask (T_health id ref token)
    end.

Definition dropRetry (id : string) : DM unit := modify (upd_ds_health (upd_hl_pendingRetry (fun s => s ∖ {[id]}))).

Definition shouldRetryHealthAlert (c : DockerEvents) (id : string) (ref : Z) (persisted : bool) : bool :=
  negb (isStopped c) && negb persisted && bool_decide (id ∈ hl_pendingRetry (ds_health c))
  && bool_decide (ob_healthStatus (object c ref) = Some hs_unhealthy).

(** The dispatch of a health alert settles. *)
Definition healthDispatched (env : DockerEnv) (t : Z) (persisted : bool) : DM unit :=
  c ← get;
  match ds_tasks c !! t with
  | Some (T_health id ref token) =>
      endTask t;;
      (if persisted then modify (upd_ds_health (upd_hl_dedupAt (<[id := de_now env]>)));; dropRetry id
       else refundRateToken token);;
      modify (upd_ds_health (upd_hl_inFlight (fun s => s ∖ {[id]})));;
      c ← get;
      if isStopped c then dropRetry id
      else if shouldRetryHealthAlert c id ref persisted then dropRetry id;; dispatchHealthAlert env id ref
      else skip
  | _ => skip
  end.

(** ** Events *)

Definition onKill (env : DockerEnv) (id : string) (e : DockerEventPayload) : DM unit :=
  ref ← getOrCreateState env id (Some e);
  updObject ref (fun o => upd_ob_lastActivityAt (fun _ => de_now env) (upd_ob_lastKillAt (fun _ => Some (eventTimeMs env e)) o)).

Definition onDie (env : DockerEnv) (id : string) (e : DockerEventPayload) : DM unit :=
  modify (upd_ds_pendingDieTimers (<[id := mkPendingDie e (eventTimeMs env e) (de_now env + DIE_GRACE_WINDOW_MS)]>)).

Definition onOom (env : DockerEnv) (id : string) : DM unit :=
  ref ← getOrCreateState env id None;
  updObject ref (fun o => upd_ob_lastActivityAt (fun _ => de_now env) (upd_ob_oomPending (fun _ => true) o)).

Definition onHealthStatus (env : DockerEnv) (id action : string) (e : DockerEventPayload) : DM unit :=
  ref ← getOrCreateState env id (Some e);
  updObject ref (upd_ob_lastActivityAt (fun _ => de_now env));;
  if includes "unhealthy" action then
    c ← get;
    let entering := negb (bool_decide (ob_healthStatus (object c ref) = Some hs_unhealthy)) in
    updObject ref (fun o => upd_ob_healthStatus (fun _ => Some hs_unhealthy)
      (if entering then upd_ob_unhealthySince (fun _ => Some (de_now env)) o else o));;
    if negb entering then skip
    else
      enabled ← isCrashAlertsEnabled env;
      if (enabled : bool) then dispatchHealthAlert env id ref else skip
  else
    updObject ref (fun o => upd_ob_healthStatus (fun _ => Some (if includes "starting" action then hs_starting else hs_healthy))
      (upd_ob_unhealthySince (fun _ => None) o));;
    dropRetry id.

Definition onStart (env : DockerEnv) (id : string) : DM unit :=
  c ← get;
  match ds_containerState c !! id with
  | None => skip
  | Some ref =>
      updObject ref (fun o =>
        mkObj (ob_name o) (ob_stackName o) (ob_serviceName o) (ob_isSelf o) (ob_helperContainer o) None false None
          (de_now env) (Some hs_starting) None None (Some (de_now env)));;
      dropRetry id
  end.

Definition onDestroy (id : string) : DM unit :=
  modify (upd_ds_containerState (delete id));;
  modify (upd_ds_pendingDieTimers (delete id));;
  modify (upd_ds_health (fun h => mkHealth (delete id (hl_dedupAt h)) (hl_inFlight h ∖ {[id]}) (hl_pendingRetry h ∖ {[id]}))).

(** The base of an action: what follows [health_status] is cut off. *)
Definition baseAction (action : string) : string :=
  if bool_decide (is_Some (strip_prefix "health_status" action)) then "health_status" else action.

Definition handleEvent (env : DockerEnv) (e : DockerEventPayload) : DM unit :=
  if negb (bool_decide (pl_Type e = Some "container")) then skip
  else match truthy (pl_ID e) with
  | None => skip
  | Some id =>
      let action := default "" (pl_Action e) in let base := baseAction action in
      let attrs := pl_Attributes e in
      (if bool_decide (base ∈ STATE_INVALIDATE_ACTIONS) && negb (isSelfContainer env (Some id) (attrs !! "name")) then
         tell DE_invalidateStatuses;; tell (DE_stateInvalidate (attrs !! COMPOSE_PROJECT_LABEL) id base)
       else skip);;
      if bool_decide (base = "kill") then onKill env id e
      else if bool_decide (base = "die") then onDie env id e
      else if bool_decide (base = "oom") then onOom env id
      else if bool_decide (base = "health_status") then onHealthStatus env id action e
      else if bool_decide (base = "start") then onStart env id
      else if bool_decide (base = "destroy") then onDestroy id
      else skip
  end.

Definition handleRawEvent (env : DockerEnv) (line : string) : DM unit :=
  match de_parse env line with
  | None => trackParseError env
  | Some e => handleEvent env e
  end.

(** The complete lines of a text, and what follows the last of them. *)
Fixpoint split_lines (s : string) : list string * string :=
  match s with
  | EmptyString => ([], EmptyString)
  | String ch s' =>
      let '(lines, rest) := split_lines s' in
      if decide (ch = newline) then (EmptyString :: lines, rest)
      else match lines with
           | [] => ([], String ch rest)
           | l :: lines => (String ch l :: lines, rest)
           end
  end.

(** [attachStreamHandlers], on data; a stream that is over gives none. *)
Definition onData (env : DockerEnv) (stream : Z) (chunk : string) : DM unit :=
  c ← get;
  match cn_listeners (ds_conn c) !! stream with
  | None => skip
  | Some buffer =>
      if bool_decide (stream ∈ cn_dead (ds_conn c)) then skip else
      let '(lines, rest) := split_lines (buffer +:+ chunk) in
      modify (upd_ds_conn (upd_cn_listeners (<[stream := rest]>)));;
      for_each (fun line => let trimmed := trim line in if bool_decide (trimmed = "") then skip else handleRawEvent env trimmed) lines
  end.

(** ** Classifying a die *)

Definition PARSED_137 : option Z := Some 137.

(** [classifyDie] of the service, up to the inspect of an exit 137. *)
Definition dieSettles (env : DockerEnv) (id : string) (e : DockerEventPayload) (dieAt : Z) : DM unit :=
  ref ← getOrCreateState env id (Some e);
  c ← get;
  let o := object c ref in
  let exitCode := pl_Attributes e !! "exitCode" ≫= parse_int in
  let classification := classifyDie dieAt exitCode (ob_lastKillAt o) (ob_oomPending o) (ob_helperContainer o) in
  updObject ref (fun o => upd_ob_oomPending (fun _ => false) (upd_ob_lastActivityAt (fun _ => de_now env) o));;
  match classification with
  | intentional | clean => updObject ref (upd_ob_crashedAt (fun _ => None))
  | crash | oom =>
      if match ob_lastStartAt o with Some start => dieAt <? start | None => false end then skip
      else
        updObject ref (upd_ob_crashedAt (fun _ => Some (de_now env)));;
        if isWithinAlertDedupWindow (ob_lastCrashAlertAt o) (de_now env) CRASH_DEDUP_MS then skip
        else if bool_decide (classification = crash) && bool_decide (exitCode = PARSED_137) then
          tell (DE_inspect id);; newTask (T_die id ref exitCode)
        else
          emitClassification env classification (Some ref) (default (shortId id) (ob_name o)) (default 0 exitCode)
            (ob_stackName o) (ob_isSelf o);;
          skip
  end.

Definition dieInspected (env : DockerEnv) (t : Z) (answer : option Inspect) : DM unit :=
  c ← get;
  match ds_tasks c !! t with
  | Some (T_die id ref exitCode) =>
      endTask t;;
      let o := object c ref in
      let classification := match answer with
        | Some i => if bool_decide (classifyGapExit (in_OOMKilled i) (in_ExitCode i) = oom) then oom else crash
        | None => crash
        end in
      emitClassification env classification (Some ref) (default (shortId id) (ob_name o)) (default 0 exitCode)
        (ob_stackName o) (ob_isSelf o);;
      skip
  | _ => skip
  end.

(** The grace timer of a die fires. *)
Definition dieTimer (env : DockerEnv) (id : string) : DM unit :=
  c ← get;
  match ds_pendingDieTimers c !! id with
  | Some d =>
      if pd_due d <=? de_now env then
        modify (upd_ds_pendingDieTimers (delete id));; dieSettles env id (pd_event d) (pd_dieAt d)
      else skip
  | None => skip
  end.

(** ** Connection *)

Definition detachStream : DM unit :=
  c ← get;
  match cn_stream (ds_conn c) with
  | None => skip
  | Some s =>
      modify (upd_ds_conn (fun n => upd_cn_stream (fun _ => None)
        (upd_cn_listeners (delete s) (upd_cn_dead (fun d => {[s]} ∪ d) n))));;
      tell (DE_destroyStream s)
  end.

Definition reconnectDelay (random : Q) (attempt : Z) : Z :=
  Z.min RECONNECT_MAX_MS (RECONNECT_BASE_MS * 2 ^ attempt) + Qfloor (random * inject_Z RECONNECT_JITTER_MS).

Definition scheduleReconnect (env : DockerEnv) : DM unit :=
  c ← get;
  if isStopped c then skip
  else modify (upd_ds_conn (fun n => upd_cn_reconnectAttempts (Z.add 1)
         (upd_cn_reconnectTimer (fun _ => Some (de_now env + reconnectDelay (de_random env) (cn_reconnectAttempts n))) n))).

Definition handleDisconnect (env : DockerEnv) : DM unit :=
  c ← get;
  if isStopped c then skip
  else
    detachStream;;
    modify (upd_status disconnected);;
    (if cn_disconnectedNoticeEmitted (ds_conn c) then skip
     else modify (upd_ds_conn (upd_cn_disconnectedNoticeEmitted (fun _ => true)));; emitWarning system AT_lost);;
    scheduleReconnect env.

(** [connect], up to its first await, then from await to await. *)
Definition connect : DM unit :=
  c ← get;
  if isStopped c then skip
  else modify (upd_status connecting);; tell DE_getEvents;; newTask T_events.

Definition streamReady (stream : Z) : DM unit :=
  modify (upd_ds_conn (fun n => upd_cn_reconnectAttempts (fun _ => 0) (upd_cn_listeners (<[stream := ""]>) n)));;
  tell DE_listContainers;; newTask T_list.

Definition eventsAnswered (env : DockerEnv) (t : Z) (answered : bool) : DM unit :=
  c ← get;
  match ds_tasks c !! t with
  | Some T_events =>
      endTask t;;
      if answered then
        let stream := ds_next c in
        modify (upd_ds_next (Z.add 1));;
        modify (upd_ds_conn (upd_cn_stream (fun _ => Some stream)));;
        modify (upd_status connected);;
        if cn_disconnectedNoticeEmitted (ds_conn c) then emitInfo AT_reconnected;; newTask (T_notice stream)
        else streamReady stream
      else handleDisconnect env
  | _ => skip
  end.

Definition noticeSettled (t : Z) : DM unit :=
  c ← get;
  match ds_tasks c !! t with
  | Some (T_notice stream) =>
      endTask t;;
      modify (upd_ds_conn (upd_cn_disconnectedNoticeEmitted (fun _ => false)));;
      streamReady stream
  | _ => skip
  end.

(** The stream fails, ends or is closed; one the service no longer holds is over
    already. *)
Definition streamOver (env : DockerEnv) (stream : Z) : DM unit :=
  c ← get;
  (if bool_decide (cn_stream (ds_conn c) = Some stream) then modify (upd_ds_conn (upd_cn_dead (fun d => {[stream]} ∪ d)))
   else skip);;
  if bool_decide (is_Some (cn_listeners (ds_conn c) !! stream)) then handleDisconnect env else skip.

(** ** Reconciling after a gap *)

(** [newlyExited.length / totalKnown >= 0.2] *)
Definition isMassEvent (newly total : Z) : bool := Z.max 1 total <=? 5 * newly.

Definition setBaseline (exitedNow : gset string) : DM unit :=
  modify (upd_ds_conn (upd_cn_exitedBaseline (fun _ => exitedNow))).

Definition listAnswered (t : Z) (answer : option (list (string * string))) : DM unit :=
  c ← get;
  match ds_tasks c !! t with
  | Some T_list =>
      endTask t;;
      match answer with
      | None => skip
      | Some containers =>
          let exited := foldl set_add [] (fst <$> filter (fun x => x.2 = "exited") containers) in
          let exitedNow : gset string := list_to_set exited in
          if negb (cn_bootReconciled (ds_conn c)) then
            setBaseline exitedNow;; modify (upd_ds_conn (upd_cn_bootReconciled (fun _ => true)))
          else
            let newly := filter (fun id => id ∉ cn_exitedBaseline (ds_conn c)) exited in
            match newly with
            | [] => setBaseline exitedNow
            | _ =>
                if isMassEvent (Z.of_nat (length newly)) (Z.of_nat (length containers)) then
                  emitInfo (AT_gap (Z.of_nat (length newly)));; newTask (T_mass exitedNow)
                else
                  for_each (fun id => tell (DE_inspect id)) newly;;
                  newTask (T_gaps exitedNow (list_to_map ((., gap_inspecting) <$> newly)))
            end
      end
  | _ => skip
  end.

Definition massSettled (t : Z) : DM unit :=
  c ← get;
  match ds_tasks c !! t with
  | Some (T_mass exitedNow) => endTask t;; setBaseline exitedNow
  | _ => skip
  end.

(** One gap is over; the last one ends the reconcile. *)
Definition gapOver (t : Z) (exitedNow : gset string) (gaps : gmap string GapStage) (id : string) : DM unit :=
  let gaps := delete id gaps in
  if bool_decide (gaps = ∅) then endTask t;; setBaseline exitedNow
  else modify (upd_ds_tasks (<[t := T_gaps exitedNow gaps]>)).

(** [classifyGap], after the inspect *)
Definition gapInspected (env : DockerEnv) (t : Z) (id : string) (answer : option Inspect) : DM unit :=
  c ← get;
  match ds_tasks c !! t with
  | Some (T_gaps exitedNow gaps) =>
      match gaps !! id with
      | Some gap_inspecting =>
          match answer with
          | None => gapOver t exitedNow gaps id
          | Some i =>
              match classifyGapExit (in_OOMKilled i) (in_ExitCode i) with
              | clean | intentional => gapOver t exitedNow gaps id
              | classification =>
                  let name := default (shortId id) (strip_slash <$> in_Name i) in
                  dispatched ← emitClassification env classification None name (default 0 (in_ExitCode i)) (in_project i)
                                 (isSelfContainer env (Some id) (Some name));
                  if (dispatched : bool) then modify (upd_ds_tasks (<[t := T_gaps exitedNow (<[id := gap_alerting]> gaps)]>))
                  else gapOver t exitedNow gaps id
              end
          end
      | _ => skip
      end
  | _ => skip
  end.

Definition gapAlerted (t : Z) (id : string) : DM unit :=
  c ← get;
  match ds_tasks c !! t with
  | Some (T_gaps exitedNow gaps) =>
      match gaps !! id with Some gap_alerting => gapOver t exitedNow gaps id | _ => skip end
  | _ => skip
  end.

(** ** Start, stop and timers *)

Definition start : DM unit :=
  c ← get;
  if negb (bool_decide (cn_status (ds_conn c) = disconnected)) then skip
  else modify (upd_ds_conn (upd_cn_pruneTimer (fun _ => true)));; connect.

Definition shutdown : DM unit :=
  flushRateLimitSummaryNow;;
  modify (upd_ds_conn (fun n => upd_cn_status (fun _ => stopped)
    (upd_cn_reconnectTimer (fun _ => None) (upd_cn_pruneTimer (fun _ => false) n))));;
  modify (upd_ds_pendingDieTimers (fun _ => ∅));;
  detachStream;;
  modify (upd_ds_containerState (fun _ => ∅));;
  modify (upd_ds_health (fun _ => mkHealth ∅ ∅ ∅));;
  modify (upd_ds_rate (fun r => mkRate (rt_windowStart r) 0 0 0 None)).

Definition reconnectTimer (env : DockerEnv) : DM unit :=
  c ← get;
  match cn_reconnectTimer (ds_conn c) with
  | Some due => if due <=? de_now env then modify (upd_ds_conn (upd_cn_reconnectTimer (fun _ => None)));; connect else skip
  | None => skip
  end.

Definition summaryTimer (env : DockerEnv) : DM unit :=
  c ← get;
  match rt_summaryTimer (ds_rate c) with
  | Some due => if due <=? de_now env then flushRateLimitSummaryNow else skip
  | None => skip
  end.

Definition pruneTimer (env : DockerEnv) : DM unit :=
  c ← get; if cn_pruneTimer (ds_conn c) then pruneStaleState env else skip.

(** ** Steps *)

Inductive DockerEvent :=
  | EvShutdown | EvReconnectTimer | EvSummaryTimer | EvPruneTimer
  | EvDieTimer (id : string)
  | EvData (stream : Z) (chunk : string)
  | EvStreamOver (stream : Z)
  | EvEvents (t : Z) (answered : bool)
  | EvNotice (t : Z)
  | EvListed (t : Z) (answer : option (list (string * string)))
  | EvMass (t : Z)
  | EvGapInspected (t : Z) (id : string) (answer : option Inspect)
  | EvGapAlerted (t : Z) (id : string)
  | EvDieInspected (t : Z) (answer : option Inspect)
  | EvHealth (t : Z) (persisted : bool).

Definition docker_run (env : DockerEnv) (ev : DockerEvent) : DM unit :=
  match ev with
  | EvShutdown => shutdown
  | EvReconnectTimer => reconnectTimer env
  | EvSummaryTimer => summaryTimer env
  | EvPruneTimer => pruneTimer env
  | EvDieTimer id => dieTimer env id
  | EvData s chunk => onData env s chunk
  | EvStreamOver s => streamOver env s
  | EvEvents t answered => eventsAnswered env t answered
  | EvNotice t => noticeSettled t
  | EvListed t answer => listAnswered t answer
  | EvMass t => massSettled t
  | EvGapInspected t id answer => gapInspected env t id answer
  | EvGapAlerted t id => gapAlerted t id
  | EvDieInspected t answer => dieInspected env t answer
  | EvHealth t persisted => healthDispatched env t persisted
  end.

(** A service is started once, by the manager that created it. *)
Definition started : DockerEvents := state start newService.

Definition docker_one (c : DockerEvents) (x : DockerEnv * DockerEvent) : DockerEvents := state (docker_run x.1 x.2) c.
Abbreviation docker_runs l c := (foldl docker_one c l).
