(* ===== verification/DockerSteps.v ===== *)
(** * Docker events: what every event keeps

    Which part of the state each handler of DockerEvents.v can change, and the
    invariants of its reachable states. *)

From Stdlib Require Import QArith Qround.
From S2P Require Import Prelude AutoHeal DockerEvents.

#[global] Open Scope Z_scope.

(** ** Relations every computation respects *)

(** A relation between two states and the calls made from one to the other, that
    nothing done keeps and that composes. *)
Class Traced (R : DockerEvents -> DockerEvents -> list DockerEffect -> Prop) := {
  traced_refl c : R c c [];
  traced_app a b c e1 e2 : R a b e1 -> R b c e2 -> R a c (e1 ++ e2);
}.

Definition along (R : DockerEvents -> DockerEvents -> list DockerEffect -> Prop) {A} (m : DM A) : Prop :=
  forall c, R c (state m c) (effects m c).

Section along.
Context (R : DockerEvents -> DockerEvents -> list DockerEffect -> Prop) `{!Traced R}.

Lemma along_ret {A} (a : A) : along R (mret a : DM A).
Proof. intros c. apply traced_refl. Qed.
Lemma along_skip : along R skip.
Proof. intros c. apply traced_refl. Qed.
Lemma along_bind {A B} (m : DM A) (k : A -> DM B) : along R m -> (forall a, along R (k a)) -> along R (m ≫= k).
Proof. intros Hm Hk c. rewrite state_bind, effects_bind. eapply traced_app; [apply Hm|apply Hk]. Qed.
Lemma along_get {B} (k : DockerEvents -> DM B) : (forall c, along R (k c)) -> along R (get ≫= k).
Proof. intros Hk c. rewrite state_bind, effects_bind. apply Hk. Qed.
Lemma along_modify f : (forall c, R c (f c) []) -> along R (modify f).
Proof. intros Hf c. apply Hf. Qed.
Lemma along_tell e : (forall c, R c c [e]) -> along R (tell e).
Proof. intros Hf c. apply Hf. Qed.
Lemma along_for_each {A} (f : A -> DM unit) l : (forall x, along R (f x)) -> along R (for_each f l).
Proof. intros Hf. induction l; [apply along_skip|]. by apply along_bind. Qed.
End along.

(** Reduce [along R m] to the primitive updates and calls of [m]. *)
Ltac along_step :=
  match goal with
  | |- along _ (get ≫= _) => apply along_get; intros ?
  | |- along _ (_ ≫= _) => apply along_bind; [apply _| |intros ?]
  | |- along _ (mret _) => apply along_ret; apply _
  | |- along _ skip => apply along_skip; apply _
  | |- along _ (tell _) => apply along_tell; intros ?
  | |- along _ (when ?b _) => unfold when; destruct b
  | |- along _ (for_each _ _) => apply along_for_each; [apply _|intros ?]
  | |- along _ (if ?b then _ else _) => destruct b
  | |- along _ (match ?x with _ => _ end) => destruct x
  | |- along _ (let '(_, _) := ?x in _) => destruct x
  end.
Create HintDb along discriminated.
Ltac along_auto := repeat (cbv beta zeta; first [along_step | solve [eauto 1 with along nocore] | apply along_modify; intros ?]).

(** *** The connection *)

Definition same_conn (c c' : DockerEvents) (_ : list DockerEffect) : Prop := ds_conn c' = ds_conn c.
#[export] Instance same_conn_traced : Traced same_conn.
Proof. split; unfold same_conn; [done|congruence]. Qed.

Ltac conn_auto := along_auto; try done; try (unfold same_conn; by repeat case_match).

Lemma conn_newTask t : along same_conn (newTask t).
Proof. unfold newTask. conn_auto. Qed.
Lemma conn_endTask t : along same_conn (endTask t).
Proof. unfold endTask. conn_auto. Qed.
#[export] Hint Resolve conn_newTask conn_endTask : along.
Lemma conn_flush : along same_conn flushRateLimitSummaryNow.
Proof. unfold flushRateLimitSummaryNow, emitWarning. conn_auto. Qed.
Lemma conn_summary env : along same_conn (scheduleSummary env).
Proof. unfold scheduleSummary. conn_auto. Qed.
#[export] Hint Resolve conn_flush conn_summary : along.
Lemma conn_token env : along same_conn (consumeRateToken env).
Proof. unfold consumeRateToken. conn_auto. Qed.
Lemma conn_refund t : along same_conn (refundRateToken t).
Proof. unfold refundRateToken. conn_auto. Qed.
Lemma conn_enabled env : along same_conn (isCrashAlertsEnabled env).
Proof. unfold isCrashAlertsEnabled. conn_auto. Qed.
Lemma conn_updObject r f : along same_conn (updObject r f).
Proof. unfold updObject. conn_auto. Qed.
Lemma conn_dropRetry id : along same_conn (dropRetry id).
Proof. unfold dropRetry. conn_auto. Qed.
#[export] Hint Resolve conn_token conn_refund conn_enabled conn_updObject conn_dropRetry : along.
Lemma conn_getOrCreate env id e : along same_conn (getOrCreateState env id e).
Proof. unfold getOrCreateState. conn_auto. Qed.
Lemma conn_emit env k r n x s b : along same_conn (emitClassification env k r n x s b).
Proof. unfold emitClassification, emitError. conn_auto. Qed.
Lemma conn_healthAlert env id r : along same_conn (dispatchHealthAlert env id r).
Proof. unfold dispatchHealthAlert, emitError. conn_auto. Qed.
#[export] Hint Resolve conn_getOrCreate conn_emit conn_healthAlert : along.
Lemma conn_handleEvent env e : along same_conn (handleEvent env e).
Proof. unfold handleEvent, onKill, onDie, onOom, onHealthStatus, onStart, onDestroy. conn_auto. Qed.
Lemma conn_parseError env : along same_conn (trackParseError env).
Proof. unfold trackParseError, emitWarning. conn_auto. Qed.
#[export] Hint Resolve conn_handleEvent conn_parseError : along.
Lemma conn_rawEvent env line : along same_conn (handleRawEvent env line).
Proof. unfold handleRawEvent. conn_auto. Qed.
#[export] Hint Resolve conn_rawEvent : along.
Lemma conn_dieSettles env id e t : along same_conn (dieSettles env id e t).
Proof. unfold dieSettles. conn_auto. Qed.
#[export] Hint Resolve conn_dieSettles : along.

(** *** The rate limiter *)

(** The alerts about containers among some calls: the crash, OOM and health alerts. *)
Definition is_container_alert (f : DockerEffect) : bool :=
  match f with DE_alert error monitor_alert _ _ => true | _ => false end.
Definition container_alerts (effs : list DockerEffect) : Z :=
  Z.of_nat (length (filter (fun f => Is_true (is_container_alert f)) effs)).

Lemma container_alerts_app e1 e2 : container_alerts (e1 ++ e2) = container_alerts e1 + container_alerts e2.
Proof. unfold container_alerts. rewrite filter_app, length_app. lia. Qed.

Definition in_window (env : DockerEnv) (c : DockerEvents) : Prop := de_now env - rt_windowStart (ds_rate c) < RATE_WINDOW_MS.
Definition rate_ok (c : DockerEvents) : Prop := 0 <= rt_count (ds_rate c) <= RATE_LIMIT_MAX.

(** The count of a window stays within its bounds, and within a window every alert has
    its token; [k] may be given back. *)
Definition rated (k : Z) (env : DockerEnv) (c c' : DockerEvents) (effs : list DockerEffect) : Prop :=
  rate_ok c -> rate_ok c' /\
  (in_window env c -> rt_windowStart (ds_rate c') = rt_windowStart (ds_rate c) /\
     container_alerts effs <= rt_count (ds_rate c') - rt_count (ds_rate c) + k).

Lemma rated_app k1 k2 env a b c e1 e2 : rated k1 env a b e1 -> rated k2 env b c e2 -> rated (k1 + k2) env a c (e1 ++ e2).
Proof.
  intros H1 H2 Ho. destruct (H1 Ho) as (O1 & A1), (H2 O1) as (O2 & A2). split; [done|]. intros Hw.
  destruct (A1 Hw) as (E1 & B1). unfold in_window in *. destruct A2 as (E2 & B2); [by rewrite E1|].
  rewrite container_alerts_app. split; [congruence|lia].
Qed.
#[export] Instance rated_traced env : Traced (rated 0 env).
Proof.
  split.
  - intros c Ho. split; [done|]. intros _. split; [done|]. unfold container_alerts. simpl. lia.
  - intros a b c e1 e2 H1 H2. apply (rated_app 0 0 env a b c e1 e2 H1 H2).
Qed.

Lemma rated_same k env c c' effs : rt_windowStart (ds_rate c') = rt_windowStart (ds_rate c) ->
  rt_count (ds_rate c') = rt_count (ds_rate c) -> container_alerts effs <= k -> rated k env c c' effs.
Proof. intros E1 E2 H Ho. unfold rate_ok in *. rewrite E1, E2. split_and!; try done; try lia. Qed.

Ltac rate_auto := along_auto; try (apply rated_same; [by repeat case_match..|done]).

Section rated.
Variable env : DockerEnv.
Local Notation R := (rated 0 env).

Lemma rated_newTask t : along R (newTask t).
Proof. unfold newTask. rate_auto. Qed.
Lemma rated_endTask t : along R (endTask t).
Proof. unfold endTask. rate_auto. Qed.
Lemma rated_updObject r f : along R (updObject r f).
Proof. unfold updObject. rate_auto. Qed.
Lemma rated_dropRetry id : along R (dropRetry id).
Proof. unfold dropRetry. rate_auto. Qed.
Lemma rated_flush : along R flushRateLimitSummaryNow.
Proof. unfold flushRateLimitSummaryNow, emitWarning. rate_auto. Qed.
Lemma rated_summary : along R (scheduleSummary env).
Proof. unfold scheduleSummary. rate_auto. Qed.
Lemma rated_enabled : along R (isCrashAlertsEnabled env).
Proof. unfold isCrashAlertsEnabled. rate_auto. Qed.
Lemma rated_parseError : along R (trackParseError env).
Proof. unfold trackParseError, emitWarning. rate_auto. Qed.
Lemma rated_detach : along R detachStream.
Proof. unfold detachStream. rate_auto. Qed.
Lemma rated_reconnect : along R (scheduleReconnect env).
Proof. unfold scheduleReconnect. rate_auto. Qed.
Hint Resolve rated_newTask rated_endTask rated_updObject rated_dropRetry rated_flush rated_summary rated_enabled
  rated_parseError rated_detach rated_reconnect : along.
Lemma rated_getOrCreate id e : along R (getOrCreateState env id e).
Proof. unfold getOrCreateState. rate_auto. Qed.
Lemma rated_disconnect : along R (handleDisconnect env).
Proof. unfold handleDisconnect, emitWarning, upd_status. rate_auto. Qed.
Lemma rated_connect : along R connect.
Proof. unfold connect, upd_status. rate_auto. Qed.
Lemma rated_streamReady s : along R (streamReady s).
Proof. unfold streamReady. rate_auto. Qed.
Lemma rated_setBaseline s : along R (setBaseline s).
Proof. unfold setBaseline. rate_auto. Qed.
Hint Resolve rated_getOrCreate rated_disconnect rated_connect rated_streamReady rated_setBaseline : along.
Lemma rated_gapOver t x g id : along R (gapOver t x g id).
Proof. unfold gapOver. rate_auto. Qed.
Hint Resolve rated_gapOver : along.

Lemma token_in_window c : in_window env c ->
  consumeRateToken env c =
    if RATE_LIMIT_MAX <=? rt_count (ds_rate c) then (None, c, [])
    else (Some (rt_windowStart (ds_rate c)), upd_ds_rate (upd_rt_count (Z.add 1)) c, []).
Proof.
  intros Hw%Z.leb_gt. unfold consumeRateToken, mbind, act_bind, get, skip, modify. rewrite Hw.
  by destruct (RATE_LIMIT_MAX <=? rt_count (ds_rate c)).
Qed.

Lemma token_ok c : rate_ok c -> rate_ok (state (consumeRateToken env) c).
Proof.
  unfold rate_ok. intros Ho. unfold consumeRateToken, flushRateLimitSummaryNow, emitWarning. act_cases; simpl; unfold RATE_LIMIT_MAX in *; rewrite ?state_skip in *; zlia.
Qed.

(** A token, then at most one alert. *)
Lemma rated_token {B} (k : option Z -> DM B) : along R (k None) -> (forall w, along (rated 1 env) (k (Some w))) ->
  along R (consumeRateToken env ≫= k).
Proof.
  intros Hn Hs c Ho. split.
  - rewrite state_bind. pose proof (token_ok c Ho) as O1.
    destruct (result (consumeRateToken env) c) as [w|]; [by apply Hs|by apply Hn].
  - intros Hw. rewrite state_bind, effects_bind. unfold state, effects, result in *.
    rewrite (token_in_window c Hw). unfold rate_ok in Ho.
    destruct (Z.leb_spec RATE_LIMIT_MAX (rt_count (ds_rate c))) as [Hc|Hc]; simpl.
    + by apply Hn.
    + destruct (Hs (rt_windowStart (ds_rate c)) (upd_ds_rate (upd_rt_count (Z.add 1)) c)) as (O1 & A1);
        [unfold rate_ok; simpl; lia|]. destruct (A1 Hw) as (E1 & B1).
      split; [exact E1|]. unfold state, effects in *. simpl in B1. lia.
Qed.

Lemma rated_emit k r n x s b : along R (emitClassification env k r n x s b).
Proof.
  unfold emitClassification. apply along_get. intros c. destruct (isStopped c); [apply along_ret; apply _|].
  apply along_bind; [apply _|apply rated_enabled|intros enabled].
  destruct (negb enabled); [apply along_ret; apply _|]. apply rated_token; [rate_auto|].
  intros w c1. destruct r as [r|]; unfold updObject, emitError; act_run; by apply rated_same.
Qed.

Lemma rated_healthAlert id r : along R (dispatchHealthAlert env id r).
Proof.
  unfold dispatchHealthAlert. apply along_get. intros c. destruct (isStopped c); [apply along_skip; apply _|].
  destruct (isWithinAlertDedupWindow _ _ _); [apply along_skip; apply _|]. destruct (bool_decide _); [rate_auto|].
  apply rated_token; [rate_auto|]. intros w c1. unfold emitError, newTask. act_run. by apply rated_same.
Qed.
Hint Resolve rated_emit rated_healthAlert : along.

Lemma rated_handleEvent e : along R (handleEvent env e).
Proof. unfold handleEvent, onKill, onDie, onOom, onHealthStatus, onStart, onDestroy. rate_auto. Qed.
Hint Resolve rated_handleEvent : along.
Lemma rated_rawEvent line : along R (handleRawEvent env line).
Proof. unfold handleRawEvent. rate_auto. Qed.
Hint Resolve rated_rawEvent : along.
Lemma rated_dieSettles id e t : along R (dieSettles env id e t).
Proof. unfold dieSettles. rate_auto. Qed.
Hint Resolve rated_dieSettles : along.

(** Only the answer to a health alert that was not persisted gives a token back. *)
Definition refunds (ev : DockerEvent) : Z := match ev with EvHealth _ false => 1 | _ => 0 end.

Lemma rated_refund t : along (rated 1 env) (refundRateToken t).
Proof.
  intros c Ho. unfold refundRateToken, rate_ok in *. rewrite state_modify, effects_modify. simpl.
  change (container_alerts []) with 0. destruct (_ && _) eqn:E; simpl; [|split_and!; (done || lia)].
  apply andb_true_iff in E as [_ E%Z.ltb_lt]. split_and!; (done || lia).
Qed.

Lemma rated_run ev : ev <> EvShutdown -> along (rated (refunds ev) env) (docker_run env ev).
Proof.
  intros Hev. destruct ev; try done; unfold docker_run; simpl.
  - unfold reconnectTimer. rate_auto.
  - unfold summaryTimer. rate_auto.
  - unfold pruneTimer, pruneStaleState. rate_auto.
  - unfold dieTimer. rate_auto.
  - unfold onData. rate_auto.
  - unfold streamOver. rate_auto.
  - unfold eventsAnswered, emitInfo, upd_status. rate_auto.
  - unfold noticeSettled. rate_auto.
  - unfold listAnswered, emitInfo. rate_auto.
  - unfold massSettled. rate_auto.
  - unfold gapInspected. rate_auto.
  - unfold gapAlerted. rate_auto.
  - unfold dieInspected. rate_auto.
  - unfold healthDispatched. destruct persisted; [rate_auto|].
    intros c. rewrite state_bind, effects_bind. cbn [state effects result get fst snd app].
    assert (forall c', rated 1 env c' c' []) as Hskip by (intros c'; by apply rated_same).
    destruct (ds_tasks c !! t) as [[]|]; try apply Hskip. rewrite state_bind, effects_bind.
    change (rated 1 env) with (rated (0 + 1) env). eapply rated_app; [apply rated_endTask|].
    rewrite state_bind, effects_bind. change (rated 1 env) with (rated (1 + 0) env). eapply rated_app; [apply rated_refund|].
    generalize (state (refundRateToken token) (state (endTask t) c)).
    change (forall d, R d (state ?m d) (effects ?m d)) with (along R m). rate_auto.
Qed.
End rated.

(** *** Who will bring the next event *)

(** A connection attempt in progress. *)
Definition is_link (x : Task) : Prop := match x with T_events | T_notice _ => True | _ => False end.
Definition fresh_tasks (c : DockerEvents) : Prop := forall t x, ds_tasks c !! t = Some x -> t < ds_next c.

(** Nothing of the connection changed but what it has read. *)
Definition same_links (c c' : DockerEvents) (_ : list DockerEffect) : Prop :=
  (cn_status (ds_conn c') = cn_status (ds_conn c) /\ cn_stream (ds_conn c') = cn_stream (ds_conn c) /\
   cn_reconnectTimer (ds_conn c') = cn_reconnectTimer (ds_conn c) /\ cn_dead (ds_conn c') = cn_dead (ds_conn c) /\
   (forall s, is_Some (cn_listeners (ds_conn c') !! s) <-> is_Some (cn_listeners (ds_conn c) !! s))) /\
  (fresh_tasks c -> fresh_tasks c' /\ ds_next c <= ds_next c' /\
     forall t x, is_link x -> ds_tasks c' !! t = Some x <-> ds_tasks c !! t = Some x).

#[export] Instance same_links_traced : Traced same_links.
Proof.
  split.
  - intros c. unfold same_links. by split_and!.
  - intros a b c e1 e2 [(A1 & A2 & A3 & A4 & A5) HA] [(B1 & B2 & B3 & B4 & B5) HB]. unfold same_links.
    split; [split_and!; [congruence..|]; intros s; by rewrite B5|].
    intros F. destruct (HA F) as (Fb & N1 & L1), (HB Fb) as (Fc & N2 & L2). split_and!; [done|lia|].
    intros t x Hx. by rewrite L2, L1.
Qed.

(** Updates outside the connection and the tasks. *)
Lemma links_frame c c' effs : ds_conn c' = ds_conn c -> ds_tasks c' = ds_tasks c -> ds_next c <= ds_next c' -> same_links c c' effs.
Proof.
  intros E1 E2 E3. unfold same_links, fresh_tasks. rewrite E1, E2. split; [done|]. intros F. split_and!; [|done..].
  intros t x H. specialize (F t x H). lia.
Qed.

Lemma links_newTask x : ~ is_link x -> along same_links (newTask x).
Proof.
  intros Hx c. unfold newTask. act_run. split; [done|]. intros F. simpl. split_and!; [|lia|].
  - intros t y H. simpl in *. apply lookup_insert_Some in H as [[<- _]|[_ H]]; [lia|]. specialize (F t y H). lia.
  - intros t y Hy. rewrite lookup_insert. case_decide as E; [|done]. subst t. split.
    + by intros [= ->].
    + intros H. specialize (F _ _ H). lia.
Qed.

(** A task that is no link is replaced, or over. *)
Lemma links_replace c t x (o : option Task) : ds_tasks c !! t = Some x -> ~ is_link x -> (forall y, o = Some y -> ~ is_link y) ->
  same_links c (upd_ds_tasks (partial_alter (fun _ => o) t) c) [].
Proof.
  intros Hx Hl Ho. split; [done|]. intros F. simpl. split_and!; [|lia|].
  - intros t' y H. simpl in *. destruct (decide (t = t')) as [<-|Hne].
    + by apply (F t x).
    + rewrite lookup_partial_alter_ne in H by done. by apply (F t' y).
  - intros t' y Hy. destruct (decide (t = t')) as [<-|Hne].
    + rewrite lookup_partial_alter_eq, Hx. split; [intros E; by destruct (Ho _ E)|by intros [= ->]].
    + by rewrite lookup_partial_alter_ne.
Qed.

Ltac links_auto := along_auto; try (apply links_frame; [by repeat case_match..|]; simpl; try lia; by repeat case_match).

Lemma links_updObject r f : along same_links (updObject r f).
Proof. unfold updObject. links_auto. Qed.
Lemma links_dropRetry id : along same_links (dropRetry id).
Proof. unfold dropRetry. links_auto. Qed.
Lemma links_flush : along same_links flushRateLimitSummaryNow.
Proof. unfold flushRateLimitSummaryNow, emitWarning. links_auto. Qed.
Lemma links_summary env : along same_links (scheduleSummary env).
Proof. unfold scheduleSummary. links_auto. Qed.
Lemma links_enabled env : along same_links (isCrashAlertsEnabled env).
Proof. unfold isCrashAlertsEnabled. links_auto. Qed.
Lemma links_parseError env : along same_links (trackParseError env).
Proof. unfold trackParseError, emitWarning. links_auto. Qed.
#[export] Hint Resolve links_updObject links_dropRetry links_flush links_summary links_enabled links_parseError : along.
Lemma links_token env : along same_links (consumeRateToken env).
Proof. unfold consumeRateToken. links_auto. Qed.
Lemma links_refund t : along same_links (refundRateToken t).
Proof. unfold refundRateToken. links_auto. Qed.
Lemma links_getOrCreate env id e : along same_links (getOrCreateState env id e).
Proof. unfold getOrCreateState. links_auto. Qed.
Lemma links_setBaseline s : along same_links (setBaseline s).
Proof. unfold setBaseline. along_auto. split; [done|]. intros F. split_and!; [done|simpl; lia|done]. Qed.
#[export] Hint Resolve links_token links_refund links_getOrCreate links_setBaseline : along.
Lemma links_die id r k : along same_links (newTask (T_die id r k)).
Proof. by apply links_newTask; intros []. Qed.
Lemma links_health id r k : along same_links (newTask (T_health id r k)).
Proof. by apply links_newTask; intros []. Qed.
Lemma links_list : along same_links (newTask T_list).
Proof. by apply links_newTask; intros []. Qed.
Lemma links_mass s : along same_links (newTask (T_mass s)).
Proof. by apply links_newTask; intros []. Qed.
Lemma links_gaps s g : along same_links (newTask (T_gaps s g)).
Proof. by apply links_newTask; intros []. Qed.
#[export] Hint Resolve links_die links_health links_list links_mass links_gaps : along.
Lemma links_emit env k r n x s b : along same_links (emitClassification env k r n x s b).
Proof. unfold emitClassification, emitError. links_auto. Qed.
Lemma links_healthAlert env id r : along same_links (dispatchHealthAlert env id r).
Proof. unfold dispatchHealthAlert, emitError. links_auto. Qed.
#[export] Hint Resolve links_emit links_healthAlert : along.
Lemma links_handleEvent env e : along same_links (handleEvent env e).
Proof. unfold handleEvent, onKill, onDie, onOom, onHealthStatus, onStart, onDestroy. links_auto. Qed.
#[export] Hint Resolve links_handleEvent : along.
Lemma links_rawEvent env line : along same_links (handleRawEvent env line).
Proof. unfold handleRawEvent. links_auto. Qed.
Lemma links_dieSettles env id e t : along same_links (dieSettles env id e t).
Proof. unfold dieSettles. links_auto. Qed.
#[export] Hint Resolve links_rawEvent links_dieSettles : along.

Definition no_link (c : DockerEvents) : Prop := forall t x, is_link x -> ds_tasks c !! t <> Some x.

(** A running service has a reconnect armed, an attempt in progress, or a stream with
    its handlers; a stopped one may have an attempt that still awaits Docker. *)
Record ConnInv (c : DockerEvents) : Prop := {
  ci_fresh : fresh_tasks c;
  ci_one : forall t1 t2 x1 x2, is_link x1 -> is_link x2 -> ds_tasks c !! t1 = Some x1 -> ds_tasks c !! t2 = Some x2 -> t1 = t2;
  ci_status :
    let n := ds_conn c in
    match cn_status n with
    | disconnected => cn_stream n = None /\ is_Some (cn_reconnectTimer n) /\ no_link c
    | connecting => cn_stream n = None /\ cn_reconnectTimer n = None /\ exists t, ds_tasks c !! t = Some T_events
    | connected => cn_reconnectTimer n = None /\ exists s, cn_stream n = Some s /\
        ((exists t, ds_tasks c !! t = Some (T_notice s)) \/ (no_link c /\ is_Some (cn_listeners n !! s)))
    | stopped => cn_reconnectTimer n = None /\ cn_stream n = None
    end;
  ci_listeners : forall s, is_Some (cn_listeners (ds_conn c) !! s) ->
    cn_stream (ds_conn c) = Some s \/ (cn_status (ds_conn c) = stopped /\ s ∈ cn_dead (ds_conn c) /\ no_link c);
  ci_notices : forall t s, ds_tasks c !! t = Some (T_notice s) ->
    cn_listeners (ds_conn c) !! s = None /\ (cn_stream (ds_conn c) = Some s \/ s ∈ cn_dead (ds_conn c));
  ci_streams : forall s, cn_stream (ds_conn c) = Some s \/ s ∈ cn_dead (ds_conn c) -> s < ds_next c;
}.

Lemma same_links_inv c c' effs : same_links c c' effs -> ConnInv c -> ConnInv c'.
Proof.
  intros [(E1 & E2 & E3 & E4 & E5) H] [F O S L N T]. destruct (H F) as (F' & Hn & HT).
  assert (no_link c -> no_link c') as Hno by (intros K t x Hx; rewrite HT by done; by apply K).
  split.
  - done.
  - intros t1 t2 x1 x2 H1 H2. rewrite !HT by done. by apply O.
  - cbv zeta in *. rewrite E1, E2, E3. destruct (cn_status (ds_conn c)).
    + destruct S as (S1 & S2 & S3). split_and!; auto.
    + destruct S as (S1 & S2 & t & S3). split_and!; [done..|]. exists t. by apply HT.
    + destruct S as (S1 & s & S2 & S3). split; [done|]. exists s. split; [done|]. destruct S3 as [[t S3]|[S3 S4]].
      * left. exists t. by apply HT.
      * right. split; [auto|by apply E5].
    + done.
  - intros s Hs%E5. rewrite E1, E2, E4. destruct (L s Hs) as [|(? & ? & ?)]; auto.
  - intros t s Hs. apply HT in Hs; [|done]. rewrite E2, E4. destruct (N t s Hs) as [N1 N2]. split; [|done].
    apply eq_None_not_Some. intros K%E5. rewrite N1 in K. by destruct K.
  - intros s. rewrite E2, E4. intros Hs%T. lia.
Qed.

Lemma along_links_inv {A} (m : DM A) c : along same_links m -> ConnInv c -> ConnInv (state m c).
Proof. intros H. apply (same_links_inv _ _ (effects m c)), H. Qed.

(** A handler that ends or replaces a task that is no link, then goes on. *)
Lemma end_task_inv {A} t x (k : DM A) c : ds_tasks c !! t = Some x -> ~ is_link x -> along same_links k -> ConnInv c ->
  ConnInv (state (endTask t;; k) c).
Proof.
  intros Hx Hl Hk I. rewrite state_bind. apply along_links_inv; [done|]. unfold endTask. rewrite state_modify.
  eapply same_links_inv; [|exact I]. by apply (links_replace c t x None).
Qed.
Lemma put_task_inv t x y c : ds_tasks c !! t = Some x -> ~ is_link x -> ~ is_link y -> ConnInv c ->
  ConnInv (upd_ds_tasks (<[t := y]>) c).
Proof.
  intros Hx Hl Hy. apply (same_links_inv _ _ []). apply (links_replace c t x (Some y)); [done..|]. by intros ? [= <-].
Qed.

Lemma inv_gapOver t s g g' id c : ds_tasks c !! t = Some (T_gaps s g') -> ConnInv c -> ConnInv (state (gapOver t s g id) c).
Proof.
  intros Ht I. unfold gapOver. cbv zeta. destruct (bool_decide _).
  - eapply end_task_inv; [exact Ht|by intros []|apply links_setBaseline|done].
  - rewrite state_modify. by eapply put_task_inv; [exact Ht|intros []..|].
Qed.

(** *** The connection's own events *)

(** After the stream was detached. *)
Lemma inv_detach c : ConnInv c ->
  let c' := state detachStream c in
  cn_stream (ds_conn c') = None /\ cn_status (ds_conn c') = cn_status (ds_conn c) /\
  cn_reconnectTimer (ds_conn c') = cn_reconnectTimer (ds_conn c) /\ ds_tasks c' = ds_tasks c /\ ds_next c' = ds_next c /\
  (forall s, is_Some (cn_listeners (ds_conn c') !! s) ->
     cn_status (ds_conn c) = stopped /\ s ∈ cn_dead (ds_conn c') /\ no_link c) /\
  (forall t s, ds_tasks c !! t = Some (T_notice s) -> cn_listeners (ds_conn c') !! s = None) /\
  (forall s, cn_stream (ds_conn c) = Some s \/ s ∈ cn_dead (ds_conn c) <-> s ∈ cn_dead (ds_conn c')).
Proof.
  intros [F O S L N T] c'. unfold c', detachStream. act_run. destruct (cn_stream (ds_conn c)) as [s0|] eqn:E; act_run.
  - split_and!; try done.
    + intros s [b Hb]. apply lookup_delete_Some in Hb as [Hne Hb]. destruct (L s) as [H|(? & ? & ?)]; [by eexists|congruence|set_solver].
    + intros t s H. destruct (N t s H) as [H1 _]. rewrite lookup_delete. by case_decide.
    + intros s. rewrite elem_of_union, elem_of_singleton. split; [intros [[= ->]|]; auto|intros [->|]; auto].
  - split_and!; try done.
    + intros s H. destruct (L s H); [congruence|done].
    + intros t s H. by destruct (N t s H).
    + intros s. split; [by intros [|]|by right].
Qed.

Lemma inv_disconnect env c : ConnInv c -> no_link c -> ConnInv (state (handleDisconnect env) c).
Proof.
  intros I Hn. unfold handleDisconnect. act_run. unfold isStopped at 1.
  destruct (bool_decide_reflect (cn_status (ds_conn c) = stopped)); [done|]. act_run.
  destruct (inv_detach c I) as (D1 & D2 & D3 & D4 & D5 & D6 & D7 & D8). destruct I as [F O S L N T].
  set (c1 := state detachStream c) in *. unfold upd_status, emitWarning, scheduleReconnect.
  assert (no_link c1) as Hn' by (unfold no_link; by rewrite D4).
  destruct (cn_disconnectedNoticeEmitted (ds_conn c)); act_run; split; unfold fresh_tasks; simpl; rewrite ?D4, ?D5; try done;
    try (by intros t s Hs; destruct (Hn t (T_notice s))); try (split_and!; [done|by eexists|done]);
    intros s; [by intros (? & _)%D6|intros [?|H%D8]; [congruence|by apply T]|by intros (? & _)%D6|
      intros [?|H%D8]; [congruence|by apply T]].
Qed.

Lemma inv_connect c : fresh_tasks c -> no_link c -> cn_status (ds_conn c) <> stopped -> cn_stream (ds_conn c) = None ->
  cn_reconnectTimer (ds_conn c) = None -> (forall s, cn_listeners (ds_conn c) !! s = None) ->
  (forall s, s ∈ cn_dead (ds_conn c) -> s < ds_next c) -> ConnInv (state connect c).
Proof.
  intros F H3 Hs H1 H2 L T. unfold connect. act_run. unfold isStopped. rewrite bool_decide_eq_false_2 by done.
  unfold newTask, upd_status. act_run. split; unfold fresh_tasks; simpl.
  - intros t x [[<- _]|[_ H]]%lookup_insert_Some; [lia|]. specialize (F t x H). lia.
  - intros t1 t2 x1 x2 L1 L2 [[<- _]|[_ E1]]%lookup_insert_Some [[<- _]|[_ E2]]%lookup_insert_Some; try done;
      [by destruct (H3 t2 x2)|by destruct (H3 t1 x1)|by destruct (H3 t1 x1)].
  - split_and!; [done..|]. eexists. apply lookup_insert_eq.
  - intros s [? H]. by rewrite L in H.
  - intros t s [[_ [=]]|[_ E]]%lookup_insert_Some. by destruct (H3 t (T_notice s)).
  - intros s [?|Hd%T]; [congruence|lia].
Qed.

(** The handlers are attached and the reconcile begins. *)
Lemma inv_streamReady s c : fresh_tasks c -> no_link c -> cn_reconnectTimer (ds_conn c) = None ->
  (cn_status (ds_conn c) = connected /\ cn_stream (ds_conn c) = Some s \/
   cn_status (ds_conn c) = stopped /\ cn_stream (ds_conn c) = None /\ s ∈ cn_dead (ds_conn c)) ->
  (forall s', is_Some (cn_listeners (ds_conn c) !! s') -> cn_stream (ds_conn c) = Some s' \/
     (cn_status (ds_conn c) = stopped /\ s' ∈ cn_dead (ds_conn c))) ->
  (forall s', cn_stream (ds_conn c) = Some s' \/ s' ∈ cn_dead (ds_conn c) -> s' < ds_next c) ->
  ConnInv (state (streamReady s) c).
Proof.
  intros F H3 Hr Hs L T. unfold streamReady, newTask. act_run.
  assert (forall t x, is_link x -> <[ds_next c := T_list]> (ds_tasks c) !! t <> Some x) as H3'.
  { intros t x Hx [[_ <-]|[_ E]]%lookup_insert_Some; [done|]. by apply (H3 t x). }
  split; unfold fresh_tasks; simpl; try done.
  - intros t x [[<- _]|[_ H]]%lookup_insert_Some; [lia|]. specialize (F t x H). lia.
  - intros t1 t2 x1 x2 L1 _ E1. by destruct (H3' t1 x1).
  - destruct Hs as [[-> ->]|(-> & -> & _)]; [|done]. split; [done|]. exists s. split; [done|]. right.
    split; [done|]. rewrite lookup_insert_eq. by eexists.
  - intros s' [b [[<- _]|[_ E]]%lookup_insert_Some].
    + destruct Hs as [[_ ->]|(? & _ & ?)]; auto.
    + destruct (L s') as [|[? ?]]; [by eexists|auto..].
  - intros t s' E. by destruct (H3' t (T_notice s')).
  - intros s' H%T. lia.
Qed.

(** Alerts start no task. *)
Definition same_tasks (c c' : DockerEvents) (_ : list DockerEffect) : Prop := ds_tasks c' = ds_tasks c.
#[export] Instance same_tasks_traced : Traced same_tasks.
Proof. split; unfold same_tasks; [done|congruence]. Qed.
Lemma tasks_emit env k r n x s b c : ds_tasks (state (emitClassification env k r n x s b) c) = ds_tasks c.
Proof.
  cut (along same_tasks (emitClassification env k r n x s b)); [intros H; apply H|].
  unfold emitClassification, consumeRateToken, flushRateLimitSummaryNow, isCrashAlertsEnabled, scheduleSummary, updObject,
    emitError, emitWarning. along_auto; done.
Qed.

(** A running service with a stream it holds: nobody else connects. *)
Lemma no_link_listening c s : ConnInv c -> is_Some (cn_listeners (ds_conn c) !! s) -> no_link c.
Proof.
  intros [F O S L N T] Hs. destruct (L s Hs) as [Hst|(_ & _ & ?)]; [|done]. cbv zeta in S.
  destruct (cn_status (ds_conn c)); try (destruct S as [_ S]; congruence); try (destruct S; congruence).
  destruct S as (_ & s' & E & [[t S]|[S _]]); [|done]. destruct (N t s' S) as [E' _].
  assert (s' = s) as -> by congruence. rewrite E' in Hs. by destruct Hs.
Qed.

Lemma no_link_after c t x : ConnInv c -> is_link x -> ds_tasks c !! t = Some x -> no_link (upd_ds_tasks (delete t) c).
Proof.
  intros I Hx Ht t' y Hy E. simpl in E. apply lookup_delete_Some in E as [Hne E]. by destruct Hne; apply (ci_one _ I t t' x y).
Qed.

Lemma fresh_after t c : fresh_tasks c -> fresh_tasks (upd_ds_tasks (delete t) c).
Proof. intros F t' x E. simpl in E. apply lookup_delete_Some in E as [_ E]. by apply (F t' x). Qed.

Lemma inv_events env t answered c : ConnInv c -> ConnInv (state (eventsAnswered env t answered) c).
Proof.
  intros I. unfold eventsAnswered. act_run. destruct (ds_tasks c !! t) as [[]|] eqn:Ht; try done.
  pose proof (no_link_after c t T_events I Logic.I Ht) as Hn. pose proof (fresh_after t c (ci_fresh _ I)) as Hf.
  assert (cn_stream (ds_conn c) = None /\ cn_reconnectTimer (ds_conn c) = None) as [Hs Hr].
  { pose proof (ci_status _ I) as S. cbv zeta in S. destruct (cn_status (ds_conn c)).
    - destruct S as (? & _ & K). by destruct (K t T_events).
    - destruct S as (? & ? & _). done.
    - destruct S as (? & s & E & [[t' K]|[K _]]); [|by destruct (K t T_events)].
      assert (t = t') as <- by (by apply (ci_one _ I t t' T_events (T_notice s))). congruence.
    - by destruct S. }
  unfold endTask. destruct answered; act_run.
  - assert (forall s, is_Some (cn_listeners (ds_conn c) !! s) -> False) as HL.
    { intros s K%(no_link_listening c s I). by apply (K t T_events). }
    assert (forall s, s ∈ cn_dead (ds_conn c) -> s < ds_next c) as HT by (intros s K; apply (ci_streams _ I); by right).
    destruct (cn_disconnectedNoticeEmitted (ds_conn c)); act_run.
    + unfold newTask, upd_status. act_run. split; unfold fresh_tasks; simpl; rewrite ?Hr.
      * intros t' x [[<- _]|[_ H]]%lookup_insert_Some; [lia|]. specialize (Hf t' x H). simpl in Hf. lia.
      * intros t1 t2 x1 x2 L1 L2 [[<- _]|[_ E1]]%lookup_insert_Some [[<- _]|[_ E2]]%lookup_insert_Some; try done;
          [by destruct (Hn t2 x2)|by destruct (Hn t1 x1)|by destruct (Hn t1 x1)].
      * split; [done|]. exists (ds_next c). split; [done|]. left. eexists. apply lookup_insert_eq.
      * intros s K. by destruct (HL s).
      * intros t' s [[_ [= <-]]|[_ E]]%lookup_insert_Some; [|by destruct (Hn t' (T_notice s))].
        split; [|by left]. apply eq_None_not_Some. intros K. by apply HL in K.
      * intros s [[= <-]|K%HT]; lia.
    + unfold upd_status. apply inv_streamReady; simpl; try done; [|by left| |].
      * intros t' x H. specialize (Hf t' x H). simpl in *. lia.
      * intros s K. by destruct (HL s).
      * intros s [[= <-]|K%HT]; lia.
  - unfold handleDisconnect. act_run. unfold isStopped at 1. simpl.
    destruct (bool_decide_reflect (cn_status (ds_conn c) = stopped)) as [Est|Est].
    + pose proof (ci_status _ I) as S. cbv zeta in S. rewrite Est in S. destruct I as [F O _ L N T].
      split; simpl; rewrite ?Est; try done.
      * intros t1 t2 x1 x2 L1 L2 E1. by destruct (Hn t1 x1).
      * intros s K%L. destruct K as [|(? & ? & ?)]; [by left|]. by right.
      * intros t' s E. by destruct (Hn t' (T_notice s)).
    + unfold detachStream. act_run. rewrite Hs. unfold upd_status, emitWarning, scheduleReconnect.
      assert (forall s, is_Some (cn_listeners (ds_conn c) !! s) -> False) as HL.
      { intros s K. destruct (ci_listeners _ I s K) as [|(? & _)]; [congruence|done]. }
      destruct (cn_disconnectedNoticeEmitted (ds_conn c)); act_run; split; unfold fresh_tasks; simpl; try done;
        try (intros t1 t2 x1 x2 L1 L2 E1; by destruct (Hn t1 x1)); try (split_and!; [done|by eexists|done]);
        try (intros s K; by destruct (HL s)); try (intros t' s E; by destruct (Hn t' (T_notice s)));
        intros s Hd; by apply (ci_streams _ I).
Qed.

Lemma inv_notice t c : ConnInv c -> ConnInv (state (noticeSettled t) c).
Proof.
  intros I. unfold noticeSettled. act_run. destruct (ds_tasks c !! t) as [[]|] eqn:Ht; try done. unfold endTask. act_run.
  pose proof (no_link_after c t (T_notice stream) I Logic.I Ht) as Hn. pose proof (fresh_after t c (ci_fresh _ I)) as Hf.
  destruct (ci_notices _ I t stream Ht) as [Hl Hs]. pose proof (ci_status _ I) as S. cbv zeta in S.
  assert (cn_reconnectTimer (ds_conn c) = None /\
    (cn_status (ds_conn c) = connected /\ cn_stream (ds_conn c) = Some stream \/
     cn_status (ds_conn c) = stopped /\ cn_stream (ds_conn c) = None)) as [Hr Hst].
  { destruct (cn_status (ds_conn c)).
    - destruct S as (_ & _ & K). by destruct (K t (T_notice stream)).
    - destruct S as (_ & _ & t' & K). assert (t = t') as <- by (by apply (ci_one _ I t t' (T_notice stream) T_events)). congruence.
    - destruct S as (? & s & E & [[t' K]|[K _]]); [|by destruct (K t (T_notice stream))].
      assert (t = t') as <- by (by apply (ci_one _ I t t' (T_notice stream) (T_notice s))).
      split; [done|]. left. split; [done|congruence].
    - destruct S as [? ?]. split; [done|by right]. }
  apply inv_streamReady; simpl; try done.
  - destruct Hst as [?|[? E]]; [by left|]. right. split_and!; [done..|]. destruct Hs; [congruence|done].
  - intros s K%(no_link_listening c s I). by destruct (K t (T_notice stream)).
  - apply (ci_streams _ I).
Qed.

Lemma inv_shutdown c : ConnInv c -> ConnInv (state shutdown c).
Proof.
  intros I. unfold shutdown. act_run. apply (along_links_inv _ _ links_flush) in I.
  set (c1 := state flushRateLimitSummaryNow c) in *.
  set (c2 := upd_ds_pendingDieTimers _ (upd_ds_conn (fun n => upd_cn_status _ _) c1)).
  unfold detachStream. act_run. destruct I as [F O S L N T].
  assert (forall s, is_Some (cn_listeners (ds_conn c1) !! s) -> cn_stream (ds_conn c1) = Some s \/
     s ∈ cn_dead (ds_conn c1) /\ no_link c1) as L' by (intros s K; destruct (L s K) as [|(? & ? & ?)]; auto).
  destruct (cn_stream (ds_conn c1)) as [s0|] eqn:E; act_run; split; unfold fresh_tasks; simpl; try done.
  - intros s [b [Hne Hb]%lookup_delete_Some]. right. split; [done|]. destruct (L' s) as [K|[K1 K2]]; [by eexists|congruence|].
    split; [set_solver|done].
  - intros t s H. destruct (N t s H) as [N1 N2]. rewrite lookup_delete. split; [by case_decide|]. right. destruct N2; set_solver.
  - intros s [|[->%elem_of_singleton|K]%elem_of_union]; [done|apply T; by left|apply T; by right].
  - intros s K. right. split; [done|]. destruct (L' s K) as [|]; [congruence|done].
  - intros t s H. destruct (N t s H) as [N1 N2]. split; [done|]. right. destruct N2; [congruence|done].
  - intros s H. apply T. rewrite E in H. by destruct H; [|right].
Qed.

Lemma inv_streamOver env s c : ConnInv c -> ConnInv (state (streamOver env s) c).
Proof.
  intros I. unfold streamOver. act_run.
  assert (forall c0, ConnInv c0 -> is_Some (cn_listeners (ds_conn c0) !! s) -> ConnInv (state (handleDisconnect env) c0)) as Hd.
  { intros c0 I0 K. apply inv_disconnect; [done|by eapply no_link_listening]. }
  destruct (bool_decide_reflect (cn_stream (ds_conn c) = Some s)) as [E|E]; act_run.
  - assert (ConnInv (upd_ds_conn (upd_cn_dead (fun d => {[s]} ∪ d)) c)) as I'.
    { destruct I as [F O S L N T]. split; simpl; try done.
      - intros s' K. destruct (L s' K) as [|(? & ? & ?)]; [by left|]. right. split_and!; [done|set_solver|done].
      - intros t s' K. destruct (N t s' K) as [? [?|?]]; (split; [done|]); [by left|right; set_solver].
      - intros s' [K|[->%elem_of_singleton|K]%elem_of_union]; apply T; auto. }
    case_bool_decide as K; [by apply Hd|done].
  - case_bool_decide as K; [by apply Hd|done].
Qed.

Lemma inv_run env ev c : ConnInv c -> ConnInv (state (docker_run env ev) c).
Proof.
  intros I. destruct ev; unfold docker_run.
  - by apply inv_shutdown.
  - unfold reconnectTimer. act_run. destruct (cn_reconnectTimer (ds_conn c)) as [due|] eqn:E; [|done].
    destruct (due <=? de_now env); [|done]. act_run. pose proof (ci_status _ I) as S. cbv zeta in S.
    assert (cn_status (ds_conn c) = disconnected) as Hst.
    { destruct (cn_status (ds_conn c)); [done| | |]; exfalso; revert S; rewrite E; naive_solver. }
    rewrite Hst in S. destruct S as (S1 & S2 & S3). apply inv_connect; simpl; try done.
    + apply (ci_fresh _ I).
    + by rewrite Hst.
    + intros s. apply eq_None_not_Some. intros K. destruct (ci_listeners _ I s K) as [|(? & _)]; congruence.
    + intros s K. apply (ci_streams _ I). by right.
  - apply along_links_inv; [|done]. unfold summaryTimer. links_auto.
  - apply along_links_inv; [|done]. unfold pruneTimer, pruneStaleState. links_auto.
  - apply along_links_inv; [|done]. unfold dieTimer. links_auto.
  - unfold onData. act_run. destruct (cn_listeners (ds_conn c) !! stream) as [b|] eqn:E; [|done].
    destruct (bool_decide _); [done|]. destruct (split_lines _) as [lines rest]. act_run.
    apply along_links_inv; [links_auto|]. eapply (same_links_inv c _ []); [|exact I]. split; [split_and!; try done|].
    + intros s. simpl. rewrite lookup_insert. case_decide as Es; [|done]. subst s. rewrite E. split; by eexists.
    + intros F. split_and!; [done|simpl; lia|done].
  - by apply inv_streamOver.
  - by apply inv_events.
  - by apply inv_notice.
  - unfold listAnswered. act_run. destruct (ds_tasks c !! t) as [[]|] eqn:E; try done.
    eapply end_task_inv; [exact E|by intros []| |done]. unfold emitInfo. along_auto.
    all: try (split; [done|]; intros F; split_and!; [done|simpl; lia|done]).
    all: try (by apply links_frame).
  - unfold massSettled. act_run. destruct (ds_tasks c !! t) as [[]|] eqn:E; try done.
    eapply end_task_inv; [exact E|by intros []|apply links_setBaseline|done].
  - unfold gapInspected. act_run. destruct (ds_tasks c !! t) as [[]|] eqn:E; try done.
    destruct (gaps !! id) as [[]|]; try done. destruct answer as [i|]; [|by eapply inv_gapOver].
    assert (forall k n, ConnInv (state (dispatched ← emitClassification env k None n (default 0 (in_ExitCode i)) (in_project i)
      (isSelfContainer env (Some id) (Some n)); if (dispatched : bool)
      then modify (upd_ds_tasks (<[t := T_gaps exitedNow (<[id := gap_alerting]> gaps)]>))
      else gapOver t exitedNow gaps id) c)) as Hk.
    { intros k n. rewrite state_bind. pose proof (links_emit env k None n (default 0 (in_ExitCode i)) (in_project i)
        (isSelfContainer env (Some id) (Some n)) c) as Hl. set (m := emitClassification _ _ _ _ _ _ _) in *.
      pose proof (same_links_inv _ _ _ Hl I) as I'.
      assert (ds_tasks (state m c) !! t = Some (T_gaps exitedNow gaps)) as E'.
      { unfold m. rewrite tasks_emit. done. }
      destruct (result m c); [rewrite state_modify; by eapply put_task_inv; [exact E'|intros []..|]|by eapply inv_gapOver]. }
    destruct (classifyGapExit _ _); try (by eapply inv_gapOver); apply Hk.
  - unfold gapAlerted. act_run. destruct (ds_tasks c !! t) as [[]|] eqn:E; try done.
    destruct (gaps !! id) as [[]|]; try done. by eapply inv_gapOver.
  - unfold dieInspected. act_run. destruct (ds_tasks c !! t) as [[]|] eqn:E; try done.
    eapply end_task_inv; [exact E|by intros []|links_auto|done].
  - unfold healthDispatched. act_run. destruct (ds_tasks c !! t) as [[]|] eqn:E; try done.
    eapply end_task_inv; [exact E|by intros []|links_auto|done].
Qed.

Lemma started_inv : ConnInv started.
Proof.
  change (ConnInv (state connect (upd_ds_conn (upd_cn_pruneTimer (fun _ => true)) newService))). apply inv_connect; done.
Qed.

Lemma docker_runs_inv l c : ConnInv c -> ConnInv (docker_runs l c).
Proof. revert c. induction l as [|[env ev] l IH]; intros c I; [done|]. simpl. apply IH. by apply inv_run. Qed.
