(* ===== verification/DockerSignals.v ===== *)
(** * Docker events: what one container's history says

    The crash signal that [AutoHealService] reads, whatever becomes of the alerts, and
    the deduplication of health alerts. *)

From S2P Require Import Prelude AutoHeal DockerEvents DockerSteps.

#[global] Open Scope Z_scope.

(** ** The heap of container states *)

(** Every container the map names has an object of its own, older than the next one. *)
Record HeapInv (c : DockerEvents) : Prop := {
  hi_object : forall id r, ds_containerState c !! id = Some r -> is_Some (ds_objects c !! r);
  hi_fresh : forall r, is_Some (ds_objects c !! r) -> r < ds_next c;
  hi_one : forall id1 id2 r, ds_containerState c !! id1 = Some r -> ds_containerState c !! id2 = Some r -> id1 = id2;
}.

(** The map says of [id] that it crashed at [t]. *)
Definition crashed (c : DockerEvents) (id : string) (t : Z) : Prop :=
  exists r, ds_containerState c !! id = Some r /\ ob_crashedAt (object c r) = Some t.

(** No crash signal appears, but perhaps one of [id] at [now]. *)
Definition crash_only (on : option (string * Z)) (c c' : DockerEvents) (_ : list DockerEffect) : Prop :=
  HeapInv c -> HeapInv c' /\ forall id t, crashed c' id t -> crashed c id t \/ on = Some (id, t).

#[export] Instance crash_only_traced on : Traced (crash_only on).
Proof.
  split.
  - intros c H. auto.
  - intros a b c e1 e2 H1 H2 Ha. destruct (H1 Ha) as [Hb K1], (H2 Hb) as [Hc K2]. split; [done|].
    intros id t [H%K1|H]%K2; auto.
Qed.

Lemma crash_weaken {A} (m : DM A) on : along (crash_only None) m -> along (crash_only on) m.
Proof. intros H c Hc. destruct (H c Hc) as [? K]. split; [done|]. intros id t [|[=]]%K. by left. Qed.

Lemma crash_frame on c c' effs : ds_containerState c' = ds_containerState c -> ds_objects c' = ds_objects c ->
  ds_next c <= ds_next c' -> crash_only on c c' effs.
Proof.
  intros E1 E2 E3 [O F N]. unfold crashed, object. rewrite E1, E2. split; [|auto].
  split; rewrite ?E1, ?E2; [done| |done]. intros r H%F. lia.
Qed.

(** Fewer containers, the same objects. *)
Lemma crash_fewer on c c' effs : ds_containerState c' ⊆ ds_containerState c -> ds_objects c' = ds_objects c ->
  ds_next c = ds_next c' -> crash_only on c c' effs.
Proof.
  intros E1 E2 E3 [O F N]. unfold crashed, object. rewrite E2. split.
  - split; rewrite ?E2, <-?E3; [|done|].
    + intros id r H. apply (O id). by eapply lookup_weaken.
    + intros id1 id2 r H1 H2. apply (N id1 id2 r); by eapply lookup_weaken.
  - intros id t (r & H1 & H2). left. exists r. split; [by eapply lookup_weaken|done].
Qed.

Lemma crash_updObject on r f :
  (forall o t, ob_crashedAt (f o) = Some t -> ob_crashedAt o = Some t) -> along (crash_only on) (updObject r f).
Proof.
  intros Hf c [O F N]. unfold updObject. rewrite state_modify. split.
  - split; simpl; [| |done].
    + intros id r' H%O. rewrite lookup_alter. case_decide; [subst; by apply fmap_is_Some|done].
    + intros r' H. apply F. rewrite lookup_alter in H. case_decide; [subst; by apply fmap_is_Some in H|done].
  - intros id t (r' & H1 & H2). left. exists r'. split; [done|]. unfold object in *. simpl in *.
    rewrite lookup_alter in H2. case_decide; [subst r|done]. destruct (O id r' H1) as [o Ho]. rewrite Ho in *. simpl in *.
    by apply Hf.
Qed.

Lemma same_isSelf o : upd_ob_isSelf (fun _ => ob_isSelf o) o = o.
Proof. by destruct o. Qed.

(** A fresh object for a container the map does not know. *)
Lemma crash_create on id o c : ds_containerState c !! id = None -> ob_crashedAt o = None ->
  crash_only on c (upd_ds_containerState (<[id := ds_next c]>) (upd_ds_objects (<[ds_next c := o]>) (upd_ds_next (Z.add 1) c))) [].
Proof.
  intros Hn Ho [O F N].
  assert (forall id' r, ds_containerState c !! id' = Some r -> r < ds_next c) as Hlt by eauto.
  split.
  - split; simpl.
    + intros id' r [[_ <-]|[_ H]]%lookup_insert_Some; [rewrite lookup_insert_eq; by eexists|].
      rewrite lookup_insert. case_decide; [by eexists|by apply (O id')].
    + intros r [x [[<- _]|[_ H]]%lookup_insert_Some]; [lia|]. assert (r < ds_next c) by (apply F; by eexists). lia.
    + intros id1 id2 r [[<- <-]|[_ H1]]%lookup_insert_Some [[<- E]|[_ H2]]%lookup_insert_Some; try done.
      * apply Hlt in H2. lia.
      * apply Hlt in H1. lia.
      * by apply (N id1 id2 r).
  - intros id' t (r & H & Hc). left. unfold object in *. simpl in *.
    apply lookup_insert_Some in H as [[-> <-]|[Hne H]].
    + rewrite lookup_insert_eq in Hc. simpl in Hc. congruence.
    + exists r. split; [done|]. rewrite lookup_insert_ne in Hc; [done|]. apply Hlt in H. lia.
Qed.

(** The object that [getOrCreateState] gives, once it has read the event. *)
Definition known (env : DockerEnv) (c : DockerEvents) (id : string) (event : option DockerEventPayload) : ContainerState :=
  let o := match ds_containerState c !! id with Some r => object c r | None => emptyState (de_now env) end in
  match event with Some e => learn (pl_Attributes e) o | None => o end.

Lemma getOrCreate_spec env on id event c : HeapInv c ->
  let c' := state (getOrCreateState env id event) c in let ref := result (getOrCreateState env id event) c in
  crash_only on c c' (effects (getOrCreateState env id event) c) /\
  ds_containerState c' !! id = Some ref /\ (exists b, object c' ref = upd_ob_isSelf (fun _ => b) (known env c id event)) /\
  ds_conn c' = ds_conn c.
Proof.
  intros I c' ref.
  set (f := fun o => let o := match event with Some e => learn (pl_Attributes e) o | None => o end in
    if isSelfContainer env (Some id) (ob_name o) then upd_ob_isSelf (fun _ => true) o else o).
  set (c1 := match ds_containerState c !! id with Some _ => c | None =>
    upd_ds_containerState (<[id := ds_next c]>)
      (upd_ds_objects (<[ds_next c := emptyState (de_now env)]>) (upd_ds_next (Z.add 1) c)) end).
  set (r := match ds_containerState c !! id with Some r => r | None => ds_next c end).
  assert (c' = state (updObject r f) c1 /\ ref = r /\ effects (getOrCreateState env id event) c = []) as (Ec & Er & Ee).
  { unfold c', ref, c1, r, getOrCreateState. rewrite !state_bind, !result_bind, !effects_bind.
    destruct (ds_containerState c !! id) eqn:E; rewrite !result_get, !state_get, E; done. }
  assert (crash_only on c c1 [] /\ ds_containerState c1 !! id = Some r /\ is_Some (ds_objects c1 !! r) /\
    object c1 r = match ds_containerState c !! id with Some r => object c r | None => emptyState (de_now env) end /\
    ds_conn c1 = ds_conn c) as (K1 & K2 & K3 & K4 & K5).
  { unfold c1, r. destruct (ds_containerState c !! id) as [r0|] eqn:E.
    - split_and!; try done; [apply traced_refl|by apply (hi_object _ I id)].
    - split_and!; [by apply crash_create|apply lookup_insert_eq| | |done].
      + simpl. rewrite lookup_insert_eq. by eexists.
      + unfold object. simpl. by rewrite lookup_insert_eq. }
  rewrite Ec, Er, Ee. split_and!.
  - eapply (traced_app c c1 _ [] []); [exact K1|]. apply crash_updObject. intros o t. unfold f. destruct event; simpl;
      by destruct (isSelfContainer _ _ _).
  - done.
  - destruct K3 as [o Ho]. unfold updObject, object. rewrite state_modify. simpl. rewrite lookup_alter_eq, Ho. simpl.
    assert (o = object c1 r) as -> by (unfold object; by rewrite Ho). rewrite K4. fold (known env c id event). unfold f.
    fold (known env c id event). cbv zeta. destruct (isSelfContainer _ _ _); [by exists true|].
    eexists. symmetry. apply same_isSelf.
  - done.
Qed.

(** ** Alerts leave the signals alone *)

Definition same_signals (c c' : DockerEvents) (_ : list DockerEffect) : Prop :=
  ds_containerState c' = ds_containerState c /\ (forall r, ob_crashedAt (object c' r) = ob_crashedAt (object c r)) /\
  (HeapInv c -> HeapInv c').
#[export] Instance same_signals_traced : Traced same_signals.
Proof.
  split; unfold same_signals; [done|]. intros a b c _ _ (E1 & E2 & E3) (K1 & K2 & K3). split_and!; [congruence| |auto].
  intros r. by rewrite K2, E2.
Qed.

Lemma signals_crash {A} (m : DM A) on : along same_signals m -> along (crash_only on) m.
Proof.
  intros H c I. destruct (H c) as (E1 & E2 & E3). split; [auto|]. intros id t (r & H1 & H2). left. exists r.
  by rewrite <-E1, <-E2.
Qed.

Lemma signals_frame c c' effs : ds_containerState c' = ds_containerState c -> ds_objects c' = ds_objects c ->
  ds_next c <= ds_next c' -> same_signals c c' effs.
Proof.
  intros E1 E2 E3. split_and!; [done|intros r; unfold object; by rewrite E2|].
  intros [O F N]. split; rewrite ?E1, ?E2; [done| |done]. intros r H%F. lia.
Qed.

Lemma signals_updObject r f : (forall o, ob_crashedAt (f o) = ob_crashedAt o) -> along same_signals (updObject r f).
Proof.
  intros Hf c. split_and!; [done| |].
  - intros r'. unfold updObject, object. rewrite state_modify. simpl. rewrite lookup_alter. case_decide; [subst|done].
    destruct (ds_objects c !! r'); simpl; [apply Hf|done].
  - intros I. apply (crash_updObject None r f); [|done]. intros o t. by rewrite Hf.
Qed.

Ltac signals_auto := along_auto; try (apply signals_frame; [by repeat case_match..|]; simpl; try lia; by repeat case_match).

Lemma signals_newTask t : along same_signals (newTask t).
Proof. unfold newTask. signals_auto. Qed.
Lemma signals_flush : along same_signals flushRateLimitSummaryNow.
Proof. unfold flushRateLimitSummaryNow, emitWarning. signals_auto. Qed.
Lemma signals_summary env : along same_signals (scheduleSummary env).
Proof. unfold scheduleSummary. signals_auto. Qed.
Lemma signals_enabled env : along same_signals (isCrashAlertsEnabled env).
Proof. unfold isCrashAlertsEnabled. signals_auto. Qed.
#[export] Hint Resolve signals_newTask signals_flush signals_summary signals_enabled : along.
Lemma signals_token env : along same_signals (consumeRateToken env).
Proof. unfold consumeRateToken. signals_auto. Qed.
#[export] Hint Resolve signals_token : along.
Lemma signals_alerted r t : along same_signals (updObject r (upd_ob_lastCrashAlertAt t)).
Proof. by apply signals_updObject. Qed.
#[export] Hint Resolve signals_alerted : along.
Lemma signals_emit env k r n x s b : along same_signals (emitClassification env k r n x s b).
Proof. unfold emitClassification, emitError. signals_auto. Qed.
Lemma signals_healthAlert env id r : along same_signals (dispatchHealthAlert env id r).
Proof. unfold dispatchHealthAlert, emitError. signals_auto. Qed.
#[export] Hint Resolve signals_emit signals_healthAlert : along.

(** ** The crash signal *)


(** What a die whose grace window is over says of its container. *)
Definition die_signal (env : DockerEnv) (c : DockerEvents) (id : string) (e : DockerEventPayload) (dieAt : Z) : option Z :=
  let o := known env c id (Some e) in
  match classifyDie dieAt (pl_Attributes e !! "exitCode" ≫= parse_int) (ob_lastKillAt o) (ob_oomPending o) (ob_helperContainer o) with
  | intentional | clean => None
  | crash | oom =>
      if match ob_lastStartAt o with Some start => dieAt <? start | None => false end then ob_crashedAt o
      else Some (de_now env)
  end.

Lemma crashedAt_updObject c ref f r : is_Some (ds_objects c !! ref) ->
  ob_crashedAt (object (state (updObject ref f) c) r) =
    if decide (r = ref) then ob_crashedAt (f (object c ref)) else ob_crashedAt (object c r).
Proof.
  intros [o Ho]. unfold updObject, object. rewrite state_modify. simpl. rewrite lookup_alter. case_decide; case_decide; subst; try done.
  by rewrite Ho.
Qed.

Lemma dieSettles_spec env id e dieAt c : HeapInv c ->
  let c' := state (dieSettles env id e dieAt) c in
  HeapInv c' /\ (exists ref, ds_containerState c' !! id = Some ref /\ ob_crashedAt (object c' ref) = die_signal env c id e dieAt) /\
  (forall id' t, id' <> id -> crashed c' id' t -> crashed c id' t).
Proof.
  intros I c'. destruct (getOrCreate_spec env None id (Some e) c I) as (K1 & K2 & [b K3] & K4).
  set (ref := result (getOrCreateState env id (Some e)) c) in *. set (c1 := state (getOrCreateState env id (Some e)) c) in *.
  destruct (K1 I) as [I1 J1]. set (o := known env c id (Some e)) in *.
  set (k := classifyDie dieAt (pl_Attributes e !! "exitCode" ≫= parse_int) (ob_lastKillAt o) (ob_oomPending o)
    (ob_helperContainer o)).
  set (seen := fun o => upd_ob_oomPending (fun _ => false) (upd_ob_lastActivityAt (fun _ => de_now env) o)).
  set (c2 := state (updObject ref seen) c1).
  assert (same_signals c1 c2 []) as (E1 & E2 & E3) by (by apply signals_updObject).
  assert (exists f m, c' = state (m : DM unit) (state (updObject ref f) c2) /\ along same_signals m /\
    ob_crashedAt (f (object c2 ref)) = die_signal env c id e dieAt) as (f & m & Ec & Hm & Hf).
  { unfold c', dieSettles. rewrite state_bind. fold ref c1. rewrite state_bind, result_get, state_get, K3. cbv zeta.
    change (ob_lastKillAt (upd_ob_isSelf (fun _ => b) o)) with (ob_lastKillAt o).
    change (ob_oomPending (upd_ob_isSelf (fun _ => b) o)) with (ob_oomPending o).
    change (ob_helperContainer (upd_ob_isSelf (fun _ => b) o)) with (ob_helperContainer o).
    change (ob_lastStartAt (upd_ob_isSelf (fun _ => b) o)) with (ob_lastStartAt o).
    fold k. rewrite state_bind. fold seen c2. unfold die_signal. fold o k.
    assert (ob_crashedAt (object c2 ref) = ob_crashedAt o) as E4 by (rewrite E2, K3; done).
    assert (c2 = state (updObject ref (fun o => o)) c2) as Eid.
    { unfold updObject. rewrite state_modify. unfold upd_ds_objects. rewrite alter_id by done. by destruct c2. }
    destruct k.
    - exists (upd_ob_crashedAt (fun _ => None)), skip. split_and!; [done|apply along_skip; apply _|done].
    - exists (upd_ob_crashedAt (fun _ => None)), skip. split_and!; [done|apply along_skip; apply _|done].
    - destruct (match ob_lastStartAt o with Some start => dieAt <? start | None => false end).
      + exists (fun o => o), skip. split_and!; [done|apply along_skip; apply _|done].
      + eexists (upd_ob_crashedAt (fun _ => Some (de_now env))), _. rewrite state_bind. split_and!; [reflexivity| |done].
        signals_auto.
    - destruct (match ob_lastStartAt o with Some start => dieAt <? start | None => false end).
      + exists (fun o => o), skip. split_and!; [done|apply along_skip; apply _|done].
      + eexists (upd_ob_crashedAt (fun _ => Some (de_now env))), _. rewrite state_bind. split_and!; [reflexivity| |done].
        signals_auto. }
  set (c3 := state (updObject ref f) c2) in *. destruct (Hm c3) as (M1 & M2 & M3).
  assert (ds_containerState c3 = ds_containerState c1) as E5 by (unfold c3; rewrite <-E1; done).
  assert (is_Some (ds_objects c2 !! ref)) as Hobj by (apply (hi_object _ (E3 I1) id); by rewrite E1).
  assert (HeapInv c3) as I3.
  { pose proof (E3 I1) as [O F N]. unfold c3, updObject. rewrite state_modify. split; simpl; [| |done].
    - intros id' r H%O. rewrite lookup_alter. case_decide; [subst; by apply fmap_is_Some|done].
    - intros r H. apply F. rewrite lookup_alter in H. case_decide; [subst; by apply fmap_is_Some in H|done]. }
  rewrite Ec. split_and!.
  - auto.
  - exists ref. rewrite M1, M2, E5. split; [done|]. unfold c3. rewrite crashedAt_updObject by done. by rewrite decide_True.
  - intros id' t Hne (r & H1 & H2). rewrite M1, E5 in H1. rewrite M2 in H2. unfold c3 in H2.
    rewrite crashedAt_updObject in H2 by done. case_decide as Er.
    + subst r. destruct Hne. by apply (hi_one _ I1 id' id ref).
    + rewrite E2 in H2. destruct (J1 id' t) as [|[=]]; [by exists r|done].
Qed.

(** *** No other event stamps a crash *)

Lemma crash_getOrCreate env on id e : along (crash_only on) (getOrCreateState env id e).
Proof. intros c I. by apply getOrCreate_spec. Qed.
#[export] Hint Resolve crash_getOrCreate : along.
#[export] Hint Extern 1 (along (crash_only _) (updObject _ _)) =>
  apply crash_updObject; intros []; repeat case_match; done : along.
#[export] Hint Extern 2 (along (crash_only _) _) => apply signals_crash; solve [eauto 1 with along nocore] : along.

Ltac crash_auto := along_auto; try (apply crash_frame; [by repeat case_match..|]; simpl; try lia; by repeat case_match).

Lemma crash_handleEvent env e : along (crash_only None) (handleEvent env e).
Proof.
  unfold handleEvent, onKill, onDie, onOom, onHealthStatus, onStart, onDestroy, dropRetry. crash_auto.
  apply crash_fewer; [apply delete_subseteq|done..].
Qed.
#[export] Hint Resolve crash_handleEvent : along.
Lemma crash_rawEvent env line : along (crash_only None) (handleRawEvent env line).
Proof. unfold handleRawEvent, trackParseError, emitWarning. crash_auto. Qed.
#[export] Hint Resolve crash_rawEvent : along.

Lemma crash_run env ev c : (forall id, ev <> EvDieTimer id) -> crash_only None c (state (docker_run env ev) c) [].
Proof.
  intros Hev. assert (along (crash_only None) (docker_run env ev)) as H; [|exact (H c)].
  destruct ev; unfold docker_run; try (by destruct (Hev id)).
  - unfold shutdown, detachStream. crash_auto. apply crash_fewer; [apply map_empty_subseteq|done..].
  - unfold reconnectTimer, connect, upd_status. crash_auto.
  - unfold summaryTimer. crash_auto.
  - unfold pruneTimer, pruneStaleState. crash_auto. apply crash_fewer; [apply map_filter_subseteq|done..].
  - unfold onData. crash_auto.
  - unfold streamOver, handleDisconnect, detachStream, scheduleReconnect, emitWarning, upd_status. crash_auto.
  - unfold eventsAnswered, handleDisconnect, detachStream, scheduleReconnect, emitWarning, emitInfo, upd_status, streamReady,
      endTask. crash_auto.
  - unfold noticeSettled, streamReady, endTask. crash_auto.
  - unfold listAnswered, emitInfo, setBaseline, endTask. crash_auto.
  - unfold massSettled, setBaseline, endTask. crash_auto.
  - unfold gapInspected, gapOver, setBaseline, endTask. crash_auto.
  - unfold gapAlerted, gapOver, setBaseline, endTask. crash_auto.
  - unfold dieInspected, endTask. crash_auto.
  - unfold healthDispatched, refundRateToken, dropRetry, endTask. crash_auto.
Qed.

Lemma heap_started : HeapInv started.
Proof. split; intros; simpl in *; map_cases; by destruct_or?. Qed.

(** ** Theorems *)

Lemma run_die env id d c : ds_pendingDieTimers c !! id = Some d -> pd_due d <= de_now env -> HeapInv c ->
  exists c0, same_signals c c0 [] /\ state (docker_run env (EvDieTimer id)) c = state (dieSettles env id (pd_event d) (pd_dieAt d)) c0
    /\ die_signal env c0 id (pd_event d) (pd_dieAt d) = die_signal env c id (pd_event d) (pd_dieAt d).
Proof.
  intros E Hd I. exists (upd_ds_pendingDieTimers (delete id) c). split_and!; [by apply signals_frame; simpl| |done].
  unfold docker_run, dieTimer. rewrite state_bind, result_get, state_get, E. by rewrite (proj2 (Z.leb_le _ _) Hd), state_bind.
Qed.

Lemma heap_run env ev c : HeapInv c -> HeapInv (state (docker_run env ev) c).
Proof.
  intros I. assert ((exists id, ev = EvDieTimer id) \/ forall id, ev <> EvDieTimer id) as [[id ->]|Hev].
  { destruct ev; try (right; by intros ? [=]). left; by eexists. }
  - destruct (ds_pendingDieTimers c !! id) as [d|] eqn:E.
    + destruct (Z.le_gt_cases (pd_due d) (de_now env)) as [Hd|Hd].
      * destruct (run_die env id d c E Hd I) as (c0 & (_ & _ & H0) & -> & _). by apply dieSettles_spec; auto.
      * unfold docker_run, dieTimer. rewrite state_bind, result_get, state_get, E. by rewrite (proj2 (Z.leb_gt _ _) Hd).
    + unfold docker_run, dieTimer. rewrite state_bind, result_get, state_get, E. done.
  - by apply (crash_run env ev c Hev).
Qed.

Lemma heap_runs l c : HeapInv c -> HeapInv (docker_runs l c).
Proof. revert c. induction l as [|[env ev] l IH]; intros c I; [done|]. simpl. apply IH. by apply heap_run. Qed.

(** The crash signal is exact. When the grace window of a die is over, the signal of
    its container is what the die says: none for an exit that was asked for or clean,
    the one it had when the container has started since the die, and otherwise this
    moment. Nothing else counts: not whether crash alerts are enabled, repeated or
    over their rate, nor whether Docker answers. The signals of other containers do
    not appear. *)
Theorem crash_signal_exact l env id d : let c := docker_runs l started in
  ds_pendingDieTimers c !! id = Some d -> pd_due d <= de_now env ->
  let c' := state (docker_run env (EvDieTimer id)) c in
  (exists s, getContainerState c' id = Some s /\ sn_crashedAt s = die_signal env c id (pd_event d) (pd_dieAt d)) /\
  (forall id' s' t, id' <> id -> getContainerState c' id' = Some s' -> sn_crashedAt s' = Some t ->
     exists s, getContainerState c id' = Some s /\ sn_crashedAt s = Some t).
Proof.
  intros c E Hd c'. assert (HeapInv c) as I by apply heap_runs, heap_started.
  destruct (run_die env id d c E Hd I) as (c0 & (S1 & S2 & S3) & Ec & Es).
  destruct (dieSettles_spec env id (pd_event d) (pd_dieAt d) c0 (S3 I)) as (_ & (ref & H1 & H2) & Hother).
  unfold c'. rewrite Ec. unfold getContainerState. split.
  - rewrite H1. eexists. split; [done|]. simpl. by rewrite H2.
  - intros id' s' t Hne H Ht. apply fmap_Some in H as (r & Hr & ->). simpl in Ht.
    destruct (Hother id' t Hne) as (r' & Hr' & Ht'); [by exists r|]. rewrite S1 in Hr'. rewrite S2 in Ht'. rewrite Hr'.
    by eexists.
Qed.





