(* ===== verification/DockerRepeat.v ===== *)
(** * Docker events: health alerts are not repeated

    The deduplication of the health alerts outlives the recovery of a container, the
    pruning of its state and the answers of older dispatches. *)

From Stdlib Require Import QArith Qround.
From S2P Require Import Prelude AutoHeal DockerEvents DockerSteps.

#[global] Open Scope Z_scope.

(** A dispatch of a health alert of [id] that is in progress. *)
Definition is_health (id : string) (x : Task) : Prop := match x with T_health id' _ _ => id' = id | _ => False end.

Section repeat.
Variables (id : string) (at_ : Z).

(** An alert of [id] was written at [at_] or later. *)
Definition warned (c : DockerEvents) : Prop := exists t, hl_dedupAt (ds_health c) !! id = Some t /\ at_ <= t.

(** No dispatch of an alert of [id] began. *)
Definition no_repeat (c c' : DockerEvents) (_ : list DockerEffect) : Prop := warned c ->
  warned c' /\ forall t x, ds_tasks c' !! t = Some x -> is_health id x -> ds_tasks c !! t = Some x.
#[export] Instance no_repeat_traced : Traced no_repeat.
Proof.
  split; unfold no_repeat; [done|]. intros a b c _ _ H1 H2 Ha. destruct (H1 Ha) as [Hb K1], (H2 Hb) as [Hc K2].
  split; [done|]. eauto.
Qed.

Lemma repeat_frame c c' effs : hl_dedupAt (ds_health c') = hl_dedupAt (ds_health c) -> ds_tasks c' = ds_tasks c ->
  no_repeat c c' effs.
Proof. unfold no_repeat, warned. intros -> ->. done. Qed.

Lemma repeat_task c t x effs : ~ is_health id x -> no_repeat c (upd_ds_tasks (<[t := x]>) c) effs.
Proof. intros Hx Hc. split; [done|]. simpl. intros t' x'. rewrite lookup_insert. case_decide; [by intros [= <-]|done]. Qed.

Ltac repeat_auto := along_auto; try (apply repeat_frame; by repeat case_match); try (apply repeat_task; intros []).

Lemma repeat_newTask x : ~ is_health id x -> along no_repeat (newTask x).
Proof. intros Hx. unfold newTask. repeat_auto. by apply repeat_task. Qed.
Lemma repeat_endTask t : along no_repeat (endTask t).
Proof.
  unfold endTask. repeat_auto. intros Hc. split; [done|]. simpl. intros t' x. rewrite lookup_delete. by case_decide.
Qed.
Hint Resolve repeat_endTask : along.
Hint Extern 1 (along no_repeat (newTask _)) => apply repeat_newTask; intros [] : along.
Lemma repeat_updObject r f : along no_repeat (updObject r f).
Proof. unfold updObject. repeat_auto. Qed.
Lemma repeat_dropRetry id' : along no_repeat (dropRetry id').
Proof. unfold dropRetry. repeat_auto. Qed.
Lemma repeat_flush : along no_repeat flushRateLimitSummaryNow.
Proof. unfold flushRateLimitSummaryNow, emitWarning. repeat_auto. Qed.
Lemma repeat_summary env : along no_repeat (scheduleSummary env).
Proof. unfold scheduleSummary. repeat_auto. Qed.
Lemma repeat_enabled env : along no_repeat (isCrashAlertsEnabled env).
Proof. unfold isCrashAlertsEnabled. repeat_auto. Qed.
Lemma repeat_detach : along no_repeat detachStream.
Proof. unfold detachStream. repeat_auto. Qed.
Lemma repeat_reconnect env : along no_repeat (scheduleReconnect env).
Proof. unfold scheduleReconnect. repeat_auto. Qed.
Lemma repeat_refund t : along no_repeat (refundRateToken t).
Proof. unfold refundRateToken. repeat_auto. Qed.
Lemma repeat_setBaseline s : along no_repeat (setBaseline s).
Proof. unfold setBaseline. repeat_auto. Qed.
Hint Resolve repeat_updObject repeat_dropRetry repeat_flush repeat_summary repeat_enabled repeat_detach repeat_reconnect
  repeat_refund repeat_setBaseline : along.
Lemma repeat_token env : along no_repeat (consumeRateToken env).
Proof. unfold consumeRateToken. repeat_auto. Qed.
Lemma repeat_getOrCreate env id' e : along no_repeat (getOrCreateState env id' e).
Proof. unfold getOrCreateState. repeat_auto. Qed.
Lemma repeat_disconnect env : along no_repeat (handleDisconnect env).
Proof. unfold handleDisconnect, emitWarning, upd_status. repeat_auto. Qed.
Lemma repeat_connect : along no_repeat connect.
Proof. unfold connect, upd_status. repeat_auto. Qed.
Lemma repeat_streamReady s : along no_repeat (streamReady s).
Proof. unfold streamReady. repeat_auto. Qed.
Lemma repeat_parseError env : along no_repeat (trackParseError env).
Proof. unfold trackParseError, emitWarning. repeat_auto. Qed.
Lemma repeat_gapOver t x g id' : along no_repeat (gapOver t x g id').
Proof. unfold gapOver. repeat_auto. Qed.
Hint Resolve repeat_token repeat_getOrCreate repeat_disconnect repeat_connect repeat_streamReady repeat_parseError
  repeat_gapOver : along.
Lemma repeat_emit env k r n x s b : along no_repeat (emitClassification env k r n x s b).
Proof. unfold emitClassification, emitError. repeat_auto. Qed.
Hint Resolve repeat_emit : along.
Lemma repeat_dieSettles env id' e t : along no_repeat (dieSettles env id' e t).
Proof. unfold dieSettles. repeat_auto. Qed.
Hint Resolve repeat_dieSettles : along.

(** The window of the alert of [at_] is open. *)
Definition window_open (env : DockerEnv) : Prop := at_ <= de_now env < at_ + HEALTH_DEDUP_MS.

(** No line removes [id]. *)
Definition undestroyed (env : DockerEnv) : Prop := forall line e, de_parse env line = Some e ->
  pl_ID e = Some id -> pl_Action e <> Some "destroy".

Section env.
Variable env : DockerEnv.
Hypotheses (Hopen : window_open env) (Hkept : undestroyed env).

Lemma repeat_healthAlert id' r : along no_repeat (dispatchHealthAlert env id' r).
Proof using Hopen.
  destruct (decide (id' = id)) as [->|Hne].
  - intros c Hc. unfold dispatchHealthAlert. rewrite state_bind, result_get, state_get.
    destruct (isStopped c); [done|]. destruct Hc as (t & E & Ht). rewrite E. unfold isWithinAlertDedupWindow.
    unfold window_open in Hopen. rewrite (proj2 (Z.ltb_lt _ _)) by lia. split; [by exists t|done].
  - unfold dispatchHealthAlert, emitError. repeat_auto. by apply repeat_newTask.
Qed.
Hint Resolve repeat_healthAlert : along.

Lemma repeat_destroy id' : id' <> id -> along no_repeat (onDestroy id').
Proof.
  intros Hne. unfold onDestroy. repeat_auto. intros (t & E & Ht). split; [|done]. exists t. simpl.
  by rewrite lookup_delete_ne.
Qed.

Lemma repeat_rawEvent line : along no_repeat (handleRawEvent env line).
Proof using Hopen Hkept.
  unfold handleRawEvent. destruct (de_parse env line) as [e|] eqn:Ee; [|repeat_auto]. unfold handleEvent.
  destruct (negb _); [repeat_auto|]. destruct (truthy (pl_ID e)) as [id'|] eqn:Ei; [|repeat_auto].
  cbv zeta. apply along_bind; [apply _|repeat_auto|intros _].
  do 5 (case_bool_decide; [unfold onKill, onDie, onOom, onHealthStatus, onStart; repeat_auto|]).
  case_bool_decide as Hd; [|repeat_auto]. apply repeat_destroy. intros ->.
  assert (pl_ID e = Some id) as Hid by (revert Ei; unfold truthy; destruct (pl_ID e) as [[]|]; naive_solver).
  apply (Hkept _ _ Ee Hid). unfold baseAction in Hd. case_bool_decide; [done|].
  destruct (pl_Action e); [by simpl in Hd; subst|done].
Qed.
Hint Resolve repeat_rawEvent : along.

Lemma repeat_prune : along no_repeat (pruneStaleState env).
Proof using Hopen.
  unfold pruneStaleState. repeat_auto. intros (t & E & Ht). split; [|done]. exists t. split; [|done]. simpl.
  apply map_lookup_filter_Some. split; [done|]. simpl. unfold window_open in Hopen.
  rewrite (proj2 (Z.ltb_ge _ _)) by lia. done.
Qed.
Hint Resolve repeat_prune : along.

Lemma repeat_persisted id' c : no_repeat c (state (modify (upd_ds_health (upd_hl_dedupAt (<[id' := de_now env]>))) : DM unit) c) [].
Proof using Hopen.
  intros (t & E & Ht). split; [|done]. unfold warned. rewrite state_modify. simpl. rewrite lookup_insert. case_decide.
  - eexists. split; [done|]. unfold window_open in Hopen. lia.
  - by exists t.
Qed.

Lemma repeat_run ev : ev <> EvShutdown -> along no_repeat (docker_run env ev).
Proof using Hopen Hkept.
  intros Hev. destruct ev; try done; unfold docker_run.
  - unfold reconnectTimer. repeat_auto.
  - unfold summaryTimer. repeat_auto.
  - unfold pruneTimer. repeat_auto.
  - unfold dieTimer. repeat_auto.
  - unfold onData. repeat_auto.
  - unfold streamOver. repeat_auto.
  - unfold eventsAnswered, emitInfo, upd_status. repeat_auto.
  - unfold noticeSettled. repeat_auto.
  - unfold listAnswered, emitInfo. repeat_auto.
  - unfold massSettled. repeat_auto.
  - unfold gapInspected. repeat_auto.
  - unfold gapAlerted. repeat_auto.
  - unfold dieInspected. repeat_auto.
  - unfold healthDispatched. repeat_auto. apply repeat_persisted.
Qed.
End env.
End repeat.

(** C32: Health alerts are not repeated. Once a health alert of a container was written to
    the history, then for an hour no other one is dispatched, whatever its health does,
    whatever is pruned and however older dispatches end, until the service is shut down
    or the container is destroyed: the only dispatches in progress are those that
    were in progress when it was written. *)
Theorem health_alert_once l0 l id at_ : let c := docker_runs l0 started in
  hl_dedupAt (ds_health c) !! id = Some at_ ->
  Forall (fun x => x.2 <> EvShutdown /\ window_open at_ x.1 /\ undestroyed id x.1) l ->
  forall t x, ds_tasks (docker_runs l c) !! t = Some x -> is_health id x -> ds_tasks c !! t = Some x.
Proof.
  intros c Hc Hl. assert (warned id at_ c) as Hw by (exists at_; split; [done|lia]). clear Hc.
  enough (no_repeat id at_ c (docker_runs l c) []) as H by by destruct (H Hw).
  generalize c. clear Hw c. induction Hl as [|[env ev] l (H1 & H2 & H3) _ IH]; intros c; [apply traced_refl|].
  simpl. eapply (traced_app (R:=no_repeat id at_) _ _ _ [] []); [|apply IH]. exact (repeat_run id at_ env H2 H3 ev H1 c).
Qed.
