(* ===== verification/DockerRuns.v ===== *)
(** * Docker events: concrete runs

    A daemon that sends a few fixed lines, the witnesses of the theorems of
    DockerProps.v and DockerSignals.v on its runs, and runs that show what the service
    does where its comments say otherwise. *)

From Stdlib Require Import QArith Qround.
From S2P Require Import Prelude AutoHeal DockerEvents DockerSteps DockerProps DockerSignals DockerRepeat.

#[global] Open Scope Z_scope.

(** ** A daemon *)

(** An event of the container [web], of the millisecond [at_]. *)
Definition web_event (action : string) (attrs : gmap string string) (at_ : Z) : DockerEventPayload :=
  mkPayload (Some "container") (Some action) (Some "web") attrs None (Some (at_ * 1000000)).

Definition web_parse (at_ : Z) (line : string) : option DockerEventPayload :=
  if decide (line = "die 1") then Some (web_event "die" {["exitCode" := "1"]} at_)
  else if decide (line = "die 0") then Some (web_event "die" {["exitCode" := "0"]} at_)
  else if decide (line = "kill") then Some (web_event "kill" ∅ at_)
  else if decide (line = "start") then Some (web_event "start" ∅ at_)
  else if decide (line = "destroy") then Some (web_event "destroy" ∅ at_)
  else if decide (line = "unhealthy") then Some (web_event "health_status: unhealthy" ∅ at_)
  else None.

(** The service at [now], Docker's events being of [at_]. *)
Definition web_env (now at_ : Z) : DockerEnv := mkDockerEnv now 0 (Some true) (fun _ => false) (web_parse at_).

(** The text arrives [delay] after its event. *)
Definition arrives (delay at_ : Z) (stream : Z) (line : string) : DockerEnv * DockerEvent :=
  (web_env (at_ + delay) at_, EvData stream (line +:+ String newline "")).

(** Connected to stream 2, with nothing exited. *)
Definition web_boot : list (DockerEnv * DockerEvent) :=
  [(web_env 0 0, EvEvents 1 true); (web_env 10 0, EvListed 3 (Some [("web", "running")]))].

Definition web_crash : list (DockerEnv * DockerEvent) := web_boot ++ [arrives 5 100000 2 "die 1"].

Definition web_settled : list (DockerEnv * DockerEvent) := web_crash ++ [(web_env 100505 100505, EvDieTimer "web")].

Definition alerts_of (effs : list DockerEffect) : list string :=
  omap (fun f => match f with DE_alert _ _ t _ => Some (message t) | _ => None end) effs.

Example web_crash_run :
  alerts_of (docker_effects web_settled started) = ["Container Crash Detected: web exited unexpectedly (Code: 1)."] /\
  sn_crashedAt <$> getContainerState (docker_runs web_settled started) "web" = Some (Some 100505).
Proof. split; vm_compute; reflexivity. Qed.

(** ** The theorems on these runs *)

Definition web_window : list (DockerEnv * DockerEvent) :=
  [arrives 10 100590 2 "unhealthy"; (web_env 100700 0, EvHealth 5 false); arrives 10 100800 2 "destroy"].

Lemma alert_rate_limit_witness : let c := docker_runs web_settled started in
  0 <= rt_count (ds_rate c) <= RATE_LIMIT_MAX /\
  container_alerts (docker_effects web_window c) <= RATE_LIMIT_MAX - rt_count (ds_rate c) + failed_dispatches web_window /\
  rt_windowStart (ds_rate (docker_runs web_window c)) = rt_windowStart (ds_rate c).
Proof. apply alert_rate_limit. repeat constructor; by vm_compute. Defined.

(** The stream ends and the daemon answers again. *)
Definition web_reconnected : list (DockerEnv * DockerEvent) :=
  web_settled ++ [(web_env 200000 0, EvStreamOver 2); (web_env 201000 0, EvReconnectTimer); (web_env 201100 0, EvEvents 5 true);
    (web_env 201200 0, EvNotice 7)].

Lemma web_reconnected_run : let c := docker_runs web_reconnected started in
  cn_status (ds_conn c) = connected /\ cn_listeners (ds_conn c) !! 6 = Some "" /\ cn_exitedBaseline (ds_conn c) = ∅.
Proof. vm_compute. split_and!; reflexivity. Qed.



Definition web_die : PendingDie := mkPendingDie (web_event "die" {["exitCode" := "1"]} 100000) 100000 100505.

Lemma crash_signal_exact_witness : let c := docker_runs web_crash started in let env := web_env 100505 100505 in
  let c' := state (docker_run env (EvDieTimer "web")) c in
  ((exists s, getContainerState c' "web" = Some s /\ sn_crashedAt s = die_signal env c "web" (pd_event web_die) (pd_dieAt web_die)) /\
   (forall id' s' t, id' <> "web" -> getContainerState c' id' = Some s' -> sn_crashedAt s' = Some t ->
      exists s, getContainerState c id' = Some s /\ sn_crashedAt s = Some t)) /\
  die_signal env c "web" (pd_event web_die) (pd_dieAt web_die) = Some 100505.
Proof.
  split; [|vm_compute; reflexivity]. apply crash_signal_exact; vm_compute; [reflexivity|discriminate].
Defined.



(** An alert that was written, and the flaps that follow. *)
Definition web_warned : list (DockerEnv * DockerEvent) :=
  web_boot ++ [arrives 10 100000 2 "unhealthy"; (web_env 100100 0, EvHealth 5 true)].
(** The same daemon, which destroys nothing. *)
Definition calm_env (now at_ : Z) : DockerEnv :=
  mkDockerEnv now 0 (Some true) (fun _ => false) (fun line => if decide (line = "destroy") then None else web_parse at_ line).
Definition web_flaps : list (DockerEnv * DockerEvent) :=
  [(calm_env 200010 200000, EvData 2 ("start" +:+ String newline ""));
   (calm_env 300010 300000, EvData 2 ("unhealthy" +:+ String newline "")); (calm_env 1000000 0, EvPruneTimer);
   (calm_env 3000010 3000000, EvData 2 ("unhealthy" +:+ String newline ""))].

Lemma calm_undestroyed now at_ : undestroyed "web" (calm_env now at_).
Proof. intros line e. unfold calm_env, web_parse. simpl. by repeat case_decide; intros [= <-]. Qed.

Lemma health_alert_once_witness : let c := docker_runs web_warned started in
  (forall t x, ds_tasks (docker_runs web_flaps c) !! t = Some x -> is_health "web" x -> ds_tasks c !! t = Some x) /\
  alerts_of (docker_effects (web_warned ++ web_flaps) started) = ["Healthcheck failed: web is unhealthy."].
Proof.
  split; [|vm_compute; reflexivity]. apply (health_alert_once web_warned web_flaps "web" 100100).
  - vm_compute. reflexivity.
  - repeat constructor; try discriminate; apply calm_undestroyed.
Defined.

(** ** What the runs show *)

(** A shutdown while [getEvents] is awaited does not last: the answer connects the
    service again, with its handlers attached to the new stream. *)
Lemma shutdown_undone : let c := docker_runs [(web_env 0 0, EvShutdown); (web_env 10 0, EvEvents 1 true)] started in
  cn_status (ds_conn c) = connected /\ cn_listeners (ds_conn c) !! 2 = Some "".
Proof. split; vm_compute; reflexivity. Qed.

(** A stream that ends while the notice of its reconnect is dispatched is never noticed:
    the service counts as connected, holds a dead stream, and waits for nothing. *)
Lemma deaf_after_notice : let c := docker_runs (web_settled ++
    [(web_env 200000 0, EvStreamOver 2); (web_env 201000 0, EvReconnectTimer); (web_env 201100 0, EvEvents 5 true);
     (web_env 201150 0, EvStreamOver 6); (web_env 201200 0, EvNotice 7); (web_env 201300 0, EvListed 8 (Some [("web", "running")]))])
    started in
  cn_status (ds_conn c) = connected /\ cn_stream (ds_conn c) = Some 6 /\ bool_decide (6 ∈ cn_dead (ds_conn c)) = true /\
  cn_reconnectTimer (ds_conn c) = None /\ ds_tasks c = ∅.
Proof. split_and!; vm_compute; reflexivity. Qed.

(** The baseline of exited containers is the one of the last connect: a container
    stopped by its operator long before the connection was lost, whose stop was seen
    and taken for intentional, is alerted as a crash once it is back. *)
Lemma old_stop_alerted : let others := (fun id => (id, "running")) <$> ["a"; "b"; "c"; "d"; "e"] in
  let l := [(web_env 0 0, EvEvents 1 true); (web_env 10 0, EvListed 3 (Some (("web", "running") :: others)));
     arrives 5 100000 2 "kill"; arrives 5 100020 2 "die 1"; (web_env 100600 0, EvDieTimer "web");
     (web_env 9000000 0, EvStreamOver 2); (web_env 9001000 0, EvReconnectTimer); (web_env 9001100 0, EvEvents 5 true);
     (web_env 9001200 0, EvNotice 7); (web_env 9001300 0, EvListed 8 (Some (("web", "exited") :: others)));
     (web_env 9001400 0, EvGapInspected 9 "web" (Some (mkInspect false (Some 137) (Some "/web") None)))] in
  alerts_of (docker_effects l started) =
    ["Lost connection to Docker daemon; monitoring paused."; "Reconnected to Docker daemon.";
     "Container Crash Detected: web exited unexpectedly (Code: 137)."].
Proof. vm_compute. reflexivity. Qed.

(** A start counts from when it arrives, a die from when it occurred: a container that
    crashes again within the delivery delay of its start is taken for recovered. Its
    crash signal stays clear and no alert is sent. *)
Lemma fast_crash_missed : let l := web_settled ++
    [arrives 30 199990 2 "start"; arrives 30 200000 2 "die 1"; (web_env 200600 0, EvDieTimer "web")] in
  sn_crashedAt <$> getContainerState (docker_runs l started) "web" = Some None /\
  alerts_of (docker_effects l started) = alerts_of (docker_effects web_settled started).
Proof. split; vm_compute; reflexivity. Qed.

(** With five containers or fewer a single crash in a gap is a mass event: it is neither
    inspected nor alerted as a crash. *)
Lemma one_of_five_is_mass total : total <= 5 -> isMassEvent 1 total = true.
Proof. intros H. unfold isMassEvent. apply Z.leb_le. lia. Qed.

(** A crash found by a reconcile raises an alert but no signal: nothing heals it. *)
Lemma gap_crash_unhealed : let others := (fun id => (id, "running")) <$> ["a"; "b"; "c"; "d"; "e"] in
  let l := [(web_env 0 0, EvEvents 1 true); (web_env 10 0, EvListed 3 (Some (("web", "running") :: others)));
     (web_env 9000000 0, EvStreamOver 2); (web_env 9001000 0, EvReconnectTimer); (web_env 9001100 0, EvEvents 4 true);
     (web_env 9001200 0, EvNotice 6); (web_env 9001300 0, EvListed 7 (Some (("web", "exited") :: others)));
     (web_env 9001400 0, EvGapInspected 8 "web" (Some (mkInspect false (Some 1) (Some "/web") None)))] in
  last (alerts_of (docker_effects l started)) = Some "Container Crash Detected: web exited unexpectedly (Code: 1)." /\
  getContainerState (docker_runs l started) "web" = None.
Proof. split; vm_compute; reflexivity. Qed.
