(* ===== verification/Outbox.v ===== *)
(** * GitOps outbox (services/gitops/outbox.ts, attemptPayload.ts, notifications.ts,
    publish.ts, readAuth.ts, the history insert of history.ts)

    A transition writes its history row and, when it is notifiable, an outbox row in
    one transaction; after the transaction a macrotask announces the rows that
    survived and turns outbox rows into notifications; what a crash leaves over is
    repaired at the next start.

    The tables outlive the process; [ob_pending] and [ob_scheduled] do not. A
    transaction is a tree of inserts and nested transactions, each of which commits or
    is rolled back. Every statement of a drain may fail, and the process may die
    between any two: a drain is cut after some rows, and its last row may be
    notified without being marked. [JSON.stringify] and [JSON.parse] are parameters,
    with the hypothesis, where a theorem needs it, that a flat object is read back as
    it was printed. Random ids are arguments. Log lines and the metrics service are
    left out but for the count of each announced row. *)

From Stdlib Require Import QArith Qcanon.
From stdpp Require Import sorting.
From S2P Require Import Prelude Json Reconcile.

#[global] Open Scope Z_scope.

(** ** The vocabulary of notifications (notifications.ts) *)

Inductive NotifiableGitOpsStage :=
  | ns_source_accepted | ns_placement_approved | ns_rollout_authorized | ns_rollout_paused | ns_rollout_unpaused
  | ns_rollout_generation_superseded | ns_rollback_in_progress | ns_rollback_completed | ns_rollback_partial_failed
  | ns_blueprint_state_review | ns_health_rollout_policy_set | ns_placement_policy_changed
  | ns_rollout_authorization_policy_changed.
#[export] Instance NotifiableGitOpsStage_eq_dec : EqDecision NotifiableGitOpsStage.
Proof. solve_decision. Defined.

Definition NOTIFIABLE_GITOPS_STAGES : list NotifiableGitOpsStage :=
  [ns_source_accepted; ns_placement_approved; ns_rollout_authorized; ns_rollout_paused; ns_rollout_unpaused;
   ns_rollout_generation_superseded; ns_rollback_in_progress; ns_rollback_completed; ns_rollback_partial_failed;
   ns_blueprint_state_review; ns_health_rollout_policy_set; ns_placement_policy_changed;
   ns_rollout_authorization_policy_changed].

Definition stage_name (s : NotifiableGitOpsStage) : string :=
  match s with
  | ns_source_accepted => "source_accepted"
  | ns_placement_approved => "placement_approved"
  | ns_rollout_authorized => "rollout_authorized"
  | ns_rollout_paused => "rollout_paused"
  | ns_rollout_unpaused => "rollout_unpaused"
  | ns_rollout_generation_superseded => "rollout_generation_superseded"
  | ns_rollback_in_progress => "rollback_in_progress"
  | ns_rollback_completed => "rollback_completed"
  | ns_rollback_partial_failed => "rollback_partial_failed"
  | ns_blueprint_state_review => "blueprint_state_review"
  | ns_health_rollout_policy_set => "health_rollout_policy_set"
  | ns_placement_policy_changed => "placement_policy_changed"
  | ns_rollout_authorization_policy_changed => "rollout_authorization_policy_changed"
  end.

(** Whether a stage is notifiable, with the stage. *)
Definition isNotifiableGitOpsStage (value : string) : option NotifiableGitOpsStage :=
  list_find (fun s => stage_name s = value) NOTIFIABLE_GITOPS_STAGES ≫= fun x => Some x.2.

Inductive NotificationLevel := lv_info | lv_warning | lv_error.

Inductive SettledNotificationFamily := fam_ready | fam_blocked | fam_failed.
#[export] Instance SettledNotificationFamily_eq_dec : EqDecision SettledNotificationFamily.
Proof. solve_decision. Defined.

Definition SETTLED_FAMILY_NOTIFICATION (f : SettledNotificationFamily) : string * NotificationLevel :=
  match f with
  | fam_ready => ("git_pull_ready", lv_info)
  | fam_blocked => ("git_plan_blocked", lv_warning)
  | fam_failed => ("git_pull_failed", lv_error)
  end.

Definition settledNotificationFamily (outcome : string) : SettledNotificationFamily :=
  if bool_decide (outcome = "blocked") then fam_blocked
  else if bool_decide (outcome ∈ ["failed_previous_intact"; "recovery_required"; "unknown"]) then fam_failed
  else fam_ready.

Definition GITOPS_NOTIFICATION_META (s : NotifiableGitOpsStage) : string * NotificationLevel * string :=
  match s with
  | ns_source_accepted => ("gitops_source_accepted", lv_info, "source accepted")
  | ns_placement_approved => ("gitops_placement_approved", lv_info, "placement approved")
  | ns_rollout_authorized => ("gitops_rollout_authorized", lv_info, "rollout authorized")
  | ns_rollout_paused => ("gitops_rollout_paused", lv_warning, "rollout paused")
  | ns_rollout_unpaused => ("gitops_rollout_resumed", lv_info, "rollout resumed")
  | ns_rollout_generation_superseded => ("gitops_rollout_superseded", lv_warning, "rollout superseded")
  | ns_rollback_in_progress => ("gitops_rollback_started", lv_warning, "rollback started")
  | ns_rollback_completed => ("gitops_rollback_completed", lv_info, "rollback completed")
  | ns_rollback_partial_failed => ("gitops_rollback_partial_failed", lv_error, "rollback partially failed")
  | ns_blueprint_state_review => ("gitops_stateful_confirmation", lv_warning, "stateful deploy awaiting confirmation")
  | ns_health_rollout_policy_set => ("gitops_health_rollout_policy_set", lv_info, "health rollout policy changed")
  | ns_placement_policy_changed => ("gitops_placement_policy_changed", lv_info, "placement policy changed")
  | ns_rollout_authorization_policy_changed =>
      ("gitops_rollout_authorization_policy_changed", lv_info, "rollout authorization policy changed")
  end.

Inductive GitOpsCandidateState := cs_awaiting_review | cs_blocked | cs_held.
#[export] Instance GitOpsCandidateState_eq_dec : EqDecision GitOpsCandidateState.
Proof. solve_decision. Defined.
Definition candidate_state_str (s : GitOpsCandidateState) : string :=
  match s with cs_awaiting_review => "awaiting_review" | cs_blocked => "blocked" | cs_held => "held" end.
Definition isCandidateState (v : string) : option GitOpsCandidateState :=
  if decide (v = "awaiting_review") then Some cs_awaiting_review
  else if decide (v = "blocked") then Some cs_blocked
  else if decide (v = "held") then Some cs_held
  else None.

Record GitOpsCandidateIdentity := mkCandidate {
  ci_applicationId : string;
  ci_generationId : string;
  ci_state : GitOpsCandidateState;
}.

Definition gitOpsAttemptNotificationKey (operationId : string) (candidate : option GitOpsCandidateIdentity) : string :=
  match candidate with
  | Some c => "gitops:candidate:" +:+ ci_applicationId c +:+ ":" +:+ ci_generationId c +:+ ":" +:+ candidate_state_str (ci_state c)
  | None => "gitops:attempt:" +:+ operationId
  end.

Definition gitOpsEventNotificationDedupeKey (historyId : string) : string := "gitops:event:" +:+ historyId.

(** The columns of an application that the insert and the drain read. *)
Record AppCols := mkAppCols {
  ac_id : string;
  ac_target_mode : GitOpsTargetMode;
  ac_stack_name : option string;
  ac_candidate_generation_id : option string;
  ac_candidate_plan_blocked : option Z;
  ac_review_block_reason : option string;
}.

Definition gitOpsCandidateState (a : AppCols) : option GitOpsCandidateState :=
  match truthy (ac_candidate_generation_id a) with
  | None => None
  | Some _ =>
      if bool_decide (ac_candidate_plan_blocked a = Some 1) then Some cs_blocked
      else if bool_decide (is_Some (ac_review_block_reason a)) then Some cs_held
      else Some cs_awaiting_review
  end.

Definition gitOpsPauseReason (after : list (string * Json)) : option string := truthy (string_field "pauseReason" after).

Inductive GitOpsOutboxPlan := plan_settled | plan_event (stage : NotifiableGitOpsStage).

Definition settledOutcome (after : list (string * Json)) : string := default "unknown" (string_field "outcome" after).

Definition gitOpsOutboxPlan (stage : string) (targetMode : GitOpsTargetMode) (after : list (string * Json))
    : option GitOpsOutboxPlan :=
  if bool_decide (stage = "source_reconcile_settled") then
    if settledOutcomeCarriesNews (settledOutcome after) then Some plan_settled else None
  else match isNotifiableGitOpsStage stage with
       | None => None
       | Some s => if bool_decide (s = ns_source_accepted) && bool_decide (targetMode = direct) then None
                   else Some (plan_event s)
       end.

(** ** Payloads (attemptPayload.ts) *)

Definition SETTLED_ATTEMPT_PAYLOAD_VERSION : Z := 1.
Definition GITOPS_EVENT_PAYLOAD_VERSION : Z := 2.

Record SettledAttemptPayload := mkSettled {
  sp_settledHistoryId : string;
  sp_applicationId : string;
  sp_operationId : string;
  sp_stackName : option string;
  sp_nodeId : option Qc;
  sp_outcome : string;
  sp_nextAction : string;
  sp_reason : option string;
  sp_trigger : string;
  sp_actor : option string;
  sp_at : Qc;
  sp_candidateGenerationId : option string;
  sp_candidateState : option GitOpsCandidateState;
}.
Record GitOpsEventPayload := mkEventPayload {
  ep_historyId : string;
  ep_applicationId : string;
  ep_operationId : string;
  ep_stage : NotifiableGitOpsStage;
  ep_stackName : option string;
  ep_nodeId : option Qc;
  ep_actor : option string;
  ep_reason : option string;
  ep_at : Qc;
}.

Definition JStrOr (o : option string) : Json := match o with Some s => JStr s | None => JNull end.
Definition JNumOr (o : option Qc) : Json := match o with Some q => JNum q | None => JNull end.

Definition settled_fields (p : SettledAttemptPayload) : list (string * Json) :=
  [("version", JInt 1); ("settledHistoryId", JStr (sp_settledHistoryId p)); ("applicationId", JStr (sp_applicationId p));
   ("operationId", JStr (sp_operationId p)); ("stackName", JStrOr (sp_stackName p)); ("nodeId", JNumOr (sp_nodeId p));
   ("outcome", JStr (sp_outcome p)); ("nextAction", JStr (sp_nextAction p)); ("reason", JStrOr (sp_reason p));
   ("trigger", JStr (sp_trigger p)); ("actor", JStrOr (sp_actor p)); ("at", JNum (sp_at p));
   ("candidateGenerationId", JStrOr (sp_candidateGenerationId p));
   ("candidateState", JStrOr (candidate_state_str <$> sp_candidateState p))].
Definition event_fields (p : GitOpsEventPayload) : list (string * Json) :=
  [("version", JInt 2); ("historyId", JStr (ep_historyId p)); ("applicationId", JStr (ep_applicationId p));
   ("operationId", JStr (ep_operationId p)); ("stage", JStr (stage_name (ep_stage p))); ("stackName", JStrOr (ep_stackName p));
   ("nodeId", JNumOr (ep_nodeId p)); ("actor", JStrOr (ep_actor p)); ("reason", JStrOr (ep_reason p)); ("at", JNum (ep_at p))].

(** Reads of the decoders: a string that is not empty; [null] or a string; [null] or a
    number. *)
Definition isNonEmptyString (k : string) (fields : list (string * Json)) : option string := truthy (string_field k fields).
Definition null_or_string (k : string) (fields : list (string * Json)) : option (option string) :=
  match field k fields with Some JNull => Some None | Some (JStr s) => Some (Some s) | _ => None end.
Definition null_or_number (k : string) (fields : list (string * Json)) : option (option Qc) :=
  match field k fields with Some JNull => Some None | Some (JNum q) => Some (Some q) | _ => None end.

Definition settled_decoded (f : list (string * Json)) : option SettledAttemptPayload :=
  id ← isNonEmptyString "settledHistoryId" f; app ← isNonEmptyString "applicationId" f; op ← isNonEmptyString "operationId" f;
  outcome ← isNonEmptyString "outcome" f; next ← isNonEmptyString "nextAction" f; trigger ← isNonEmptyString "trigger" f;
  at_ ← number_field "at" f; stack ← null_or_string "stackName" f; node ← null_or_number "nodeId" f;
  reason ← null_or_string "reason" f; actor ← null_or_string "actor" f;
  candidate ← match field "candidateGenerationId" f with
              | None | Some JNull => Some None | Some (JStr s) => Some (Some s) | Some _ => None end;
  candidateState ← match field "candidateState" f with
                   | None | Some JNull => Some None | Some (JStr s) => Some <$> isCandidateState s | Some _ => None end;
  Some (mkSettled id app op stack node outcome next reason trigger actor at_ candidate candidateState).

Definition event_decoded (f : list (string * Json)) : option GitOpsEventPayload :=
  id ← isNonEmptyString "historyId" f; app ← isNonEmptyString "applicationId" f; op ← isNonEmptyString "operationId" f;
  stage ← string_field "stage" f ≫= isNotifiableGitOpsStage; at_ ← number_field "at" f;
  stack ← null_or_string "stackName" f; node ← null_or_number "nodeId" f; actor ← null_or_string "actor" f;
  reason ← null_or_string "reason" f;
  Some (mkEventPayload id app op stage stack node actor reason at_).

(** ** Rows *)

Record HistoryInsert := mkInsert {
  hs_application : AppCols;
  hs_nodeId : option Z;
  hs_dedupeTarget : string;
  hs_operationId : string;
  hs_stage : string;
  hs_outcome : string;
  hs_trigger : string;
  hs_actor : option string;
  hs_after : list (string * Json);
  hs_generationId : option string;
  hs_at : Z;
}.

Record OutboxRow := mkOutboxRow {
  ox_payload_json : string;
  ox_payload_version : Z;
  ox_created_at : Z;
  ox_updated_at : Z;
  ox_drained_at : option Z;
}.

Record Notification := mkNotification {
  nt_node_id : Qc;
  nt_level : NotificationLevel;
  nt_category : string;
  nt_message : string;
  nt_timestamp : Qc;
  nt_stack_name : option string;
  nt_actor_username : option string;
  nt_gitops_operation_id : option string;
  nt_dedupe_key : option string;
}.

Record OutboxDb := mkOutboxDb {
  od_history : gmap string HistoryInsert;
  od_outbox : gmap string OutboxRow;
  od_notifications : gmap Z Notification;
  od_next : Z;
}.
Definition upd_od_history f d := mkOutboxDb (f (od_history d)) (od_outbox d) (od_notifications d) (od_next d).
Definition upd_od_outbox f d := mkOutboxDb (od_history d) (f (od_outbox d)) (od_notifications d) (od_next d).
Definition upd_od_notifications f d := mkOutboxDb (od_history d) (od_outbox d) (f (od_notifications d)) (od_next d).

(** A queued announcement: the id of the inserted row and what was inserted. *)
Abbreviation PendingRow := (string * HistoryInsert)%type.

Record Outbox := mkOutbox {
  ob_db : OutboxDb;
  ob_pending : list PendingRow;
  ob_scheduled : bool;
  ob_sink : bool;
}.
Definition upd_ob_db f s := mkOutbox (f (ob_db s)) (ob_pending s) (ob_scheduled s) (ob_sink s).

Inductive OutboxEffect :=
  | OE_metric (stage outcome : string)
  | OE_announce (stage applicationId : string) (stackName : option string) (at_ : Z)
  | OE_notice (n : Notification) (inserted : bool).

Abbreviation OM := (act Outbox OutboxEffect).

(** ** Stored payloads *)

(** A stored payload, or the limitation that is logged. *)
Inductive PayloadLimitation := version_unsupported (version : Z) | unparseable | invalid.

Section json_text.
Variables (json_parse : string -> option Json) (json_stringify : Json -> string).

Definition decodePayload {A} (supported : Z) (decoded : list (string * Json) -> option A) (raw : string) (version : Z)
    : PayloadLimitation + A :=
  if negb (version =? supported) then inl (version_unsupported version)
  else match json_parse raw with
       | None => inl unparseable
       | Some (JObj f) =>
           if negb (bool_decide (number_field "version" f = Some (Qc_of_Z supported))) then inl invalid
           else match decoded f with Some p => inr p | None => inl invalid end
       | Some _ => inl invalid
       end.

Definition encodeSettledAttemptPayload (p : SettledAttemptPayload) : string := json_stringify (JObj (settled_fields p)).
Definition decodeSettledAttemptPayload (raw : string) (version : Z) : PayloadLimitation + SettledAttemptPayload :=
  decodePayload SETTLED_ATTEMPT_PAYLOAD_VERSION settled_decoded raw version.
Definition encodeGitOpsEventPayload (p : GitOpsEventPayload) : string := json_stringify (JObj (event_fields p)).
Definition decodeGitOpsEventPayload (raw : string) (version : Z) : PayloadLimitation + GitOpsEventPayload :=
  decodePayload GITOPS_EVENT_PAYLOAD_VERSION event_decoded raw version.

(** ** The insert (history.ts) *)

Definition dedupe_tuple (r : HistoryInsert) : string * string * string * string :=
  (ac_id (hs_application r), hs_operationId r, hs_stage r, hs_dedupeTarget r).

Definition settledPayload (id : string) (r : HistoryInsert) : SettledAttemptPayload :=
  let a := hs_application r in
  mkSettled id (ac_id a) (hs_operationId r) (ac_stack_name a) (Qc_of_Z <$> hs_nodeId r) (settledOutcome (hs_after r))
    (default "none" (string_field "nextAction" (hs_after r))) (string_field "reason" (hs_after r)) (hs_trigger r) (hs_actor r)
    (Qc_of_Z (hs_at r)) (match hs_generationId r with Some g => Some g | None => ac_candidate_generation_id a end)
    (gitOpsCandidateState a).
Definition eventPayload (id : string) (stage : NotifiableGitOpsStage) (r : HistoryInsert) : GitOpsEventPayload :=
  let a := hs_application r in
  mkEventPayload id (ac_id a) (hs_operationId r) stage (ac_stack_name a) (Qc_of_Z <$> hs_nodeId r) (hs_actor r)
    (gitOpsPauseReason (hs_after r)) (Qc_of_Z (hs_at r)).

(** The outbox row of a plan. *)
Definition outboxRow (id : string) (r : HistoryInsert) (p : GitOpsOutboxPlan) : OutboxRow :=
  match p with
  | plan_settled =>
      mkOutboxRow (encodeSettledAttemptPayload (settledPayload id r)) SETTLED_ATTEMPT_PAYLOAD_VERSION (hs_at r) (hs_at r) None
  | plan_event stage =>
      mkOutboxRow (encodeGitOpsEventPayload (eventPayload id stage r)) GITOPS_EVENT_PAYLOAD_VERSION (hs_at r) (hs_at r) None
  end.

Definition planOf (r : HistoryInsert) : option GitOpsOutboxPlan :=
  gitOpsOutboxPlan (hs_stage r) (ac_target_mode (hs_application r)) (hs_after r).

(** [ON CONFLICT(settled_history_id) DO NOTHING] *)
Definition insertOutboxRow (id : string) (row : OutboxRow) (d : OutboxDb) : OutboxDb :=
  upd_od_outbox (fun m => match m !! id with Some _ => m | None => <[id := row]> m end) d.

(** The tables and the queue after an insert, and whether it did not throw: a replay
    inserts nothing, an id that is taken throws. *)
Definition insertHistory (id : string) (r : HistoryInsert) (x : OutboxDb * list PendingRow) : OutboxDb * list PendingRow * bool :=
  let '(d, pending) := x in
  if existsb (fun kv => bool_decide (dedupe_tuple kv.2 = dedupe_tuple r)) (map_to_list (od_history d)) then (d, pending, true)
  else if bool_decide (is_Some (od_history d !! id)) then (d, pending, false)
  else
    let d1 := upd_od_history (<[id := r]>) d in
    let d2 := match planOf r with Some p => insertOutboxRow id (outboxRow id r p) d1 | None => d1 end in
    (d2, pending ++ [(id, r)], true).

(** A transaction: inserts, and nested transactions that commit or throw after their
    body; what throws is rolled back, and the queue is not. *)
Inductive Work :=
  | W_insert (id : string) (r : HistoryInsert)
  | W_tx (body : list Work) (commits : bool).

Fixpoint runWork (w : Work) (x : OutboxDb * list PendingRow) : OutboxDb * list PendingRow * bool :=
  match w with
  | W_insert id r => insertHistory id r x
  | W_tx body commits =>
      let '(d, pending, ok) :=
        (fix run (l : list Work) (x : OutboxDb * list PendingRow) : OutboxDb * list PendingRow * bool :=
           match l with
           | [] => (x.1, x.2, true)
           | w :: l => let '(d, pending, ok) := runWork w x in if ok : bool then run l (d, pending) else (d, pending, false)
           end) body x in
      if ok && commits then (d, pending, true) else (x.1, pending, negb commits)
  end.

(** ** Who may read a history row (readAuth.ts) *)

Inductive GitOpsReadRequirement := need_admin | need_audit | need_stack_read (stackName : string).

Definition lifecycleAllowsStackRead (s : option GitOpsLifecycleStatus) : bool :=
  bool_decide (s = Some active) || bool_decide (s = Some detached).

(** [gitopsRevision] is a record or not; in a record, its life cycle. *)
Definition classifySourceRow (stackName : option string) (gitopsRevision : option (option GitOpsLifecycleStatus))
    (stackResourcePresent : bool) : GitOpsReadRequirement :=
  match truthy stackName, gitopsRevision with
  | Some name, Some lifecycle =>
      if lifecycleAllowsStackRead lifecycle && stackResourcePresent then need_stack_read name else need_admin
  | _, _ => need_admin
  end.

Definition classifyHistoryRow (stackName : option string) (lifecycle : option GitOpsLifecycleStatus) (stackResourcePresent : bool)
    : GitOpsReadRequirement :=
  match truthy stackName with
  | None => need_audit
  | Some name => if bool_decide (lifecycle = Some active) && stackResourcePresent then need_stack_read name else need_audit
  end.

Definition satisfiesGitOpsRead (isAdmin mayAudit : bool) (mayReadStack : string -> bool) (q : GitOpsReadRequirement) : bool :=
  match q with need_admin => isAdmin | need_audit => mayAudit | need_stack_read name => mayReadStack name end.

(** ** The fanout (outbox.ts) *)

(** What a drain reads, per row, and which of its statements fail. *)
Record DrainEnv := mkDrainEnv {
  dr_now : Z;
  dr_app : string -> option (GitOpsLifecycleStatus * option Z);   (* an application and its blueprint *)
  dr_blueprint : Z -> option string;
  dr_defaultNode : Z;
  dr_survives : string -> bool;      (* the look-up of the history row answers *)
  dr_selects : string -> bool;       (* the look-up of the outbox row answers *)
  dr_notifies : string -> bool;      (* the reads and the insert of the notification succeed *)
  dr_marks : string -> bool;         (* the row can be marked *)
}.

Definition notificationLabel (env : DrainEnv) (applicationId : string) (stackName : option string) : option string * string :=
  let app := dr_app env applicationId in
  match classifyHistoryRow stackName (option_map fst app) true with
  | need_stack_read name => (Some name, name)
  | _ => (None, match app ≫= (fun a => a.2 ≫= dr_blueprint env) with
                | Some name => "Blueprint " +:+ dquote +:+ name +:+ dquote
                | None => applicationId
                end)
  end.

Definition reasonSuffix (reason : option string) : string :=
  match truthy reason with Some r => ": " +:+ r | None => "" end.

(** The candidate a settled attempt is announced for. *)
Definition announcedCandidate (p : SettledAttemptPayload) : option GitOpsCandidateIdentity :=
  match truthy (sp_candidateGenerationId p), sp_candidateState p with
  | Some g, Some s =>
      if if bool_decide (settledNotificationFamily (sp_outcome p) = fam_ready)
         then bool_decide (s = cs_awaiting_review) || bool_decide (s = cs_held)
         else bool_decide (s = cs_blocked)
      then Some (mkCandidate (sp_applicationId p) g s) else None
  | _, _ => None
  end.

Definition settledNotification (env : DrainEnv) (p : SettledAttemptPayload) : Notification :=
  let '(visibleStack, label) := notificationLabel env (sp_applicationId p) (sp_stackName p) in
  let '(category, level) := SETTLED_FAMILY_NOTIFICATION (settledNotificationFamily (sp_outcome p)) in
  mkNotification (default (Qc_of_Z (dr_defaultNode env)) (sp_nodeId p)) level category
    ("GitOps " +:+ sp_outcome p +:+ " for " +:+ label +:+ reasonSuffix (sp_reason p)) (sp_at p) visibleStack (sp_actor p)
    (Some (sp_operationId p)) (Some (gitOpsAttemptNotificationKey (sp_operationId p) (announcedCandidate p))).

Definition eventNotification (env : DrainEnv) (p : GitOpsEventPayload) : Notification :=
  let '(visibleStack, label) := notificationLabel env (ep_applicationId p) (ep_stackName p) in
  let '(category, level, phrase) := GITOPS_NOTIFICATION_META (ep_stage p) in
  mkNotification (default (Qc_of_Z (dr_defaultNode env)) (ep_nodeId p)) level category
    ("GitOps " +:+ phrase +:+ " for " +:+ label +:+ reasonSuffix (ep_reason p)) (ep_at p) visibleStack (ep_actor p)
    (Some (ep_operationId p)) (Some (gitOpsEventNotificationDedupeKey (ep_historyId p))).

(** [addNotificationHistory]: a dedupe key that is taken inserts nothing. *)
Definition key_taken (k : string) (d : OutboxDb) : bool :=
  existsb (fun kv => bool_decide (nt_dedupe_key kv.2 = Some k)) (map_to_list (od_notifications d)).
Definition addNotificationHistory (n : Notification) : OM unit :=
  s ← get;
  let inserted := match nt_dedupe_key n with Some k => negb (key_taken k (ob_db s)) | None => true end in
  tell (OE_notice n inserted);;
  when inserted (modify (upd_ob_db (fun d => mkOutboxDb (od_history d) (od_outbox d) (<[od_next d := n]> (od_notifications d)) (od_next d + 1)))).

(** The projection of a settled attempt; one without news is drained silently. *)
Definition fanoutSettledNotification (env : DrainEnv) (p : SettledAttemptPayload) : OM unit :=
  if negb (settledOutcomeCarriesNews (sp_outcome p)) then skip else addNotificationHistory (settledNotification env p).
Definition fanoutGitOpsEvent (env : DrainEnv) (p : GitOpsEventPayload) : OM unit := addNotificationHistory (eventNotification env p).

Definition markDrained (id : string) (at_ : Z) : OM unit :=
  modify (upd_ob_db (upd_od_outbox (alter (fun row =>
    match ox_drained_at row with
    | None => mkOutboxRow (ox_payload_json row) (ox_payload_version row) (ox_created_at row) at_ (Some at_)
    | Some _ => row
    end) id))).

(** A fanout that is silent touches no table, so it cannot fail. *)
Definition drainDecodedRow {A} (env : DrainEnv) (id : string) (decoded : PayloadLimitation + A) (silent : A -> bool)
    (fanout : A -> OM unit) : OM unit :=
  match decoded with
  | inl _ => skip
  | inr p =>
      if silent p || dr_notifies env id then fanout p;; when (dr_marks env id) (markDrained id (dr_now env))
      else skip
  end.

Definition drainGitOpsOutboxRow (env : DrainEnv) (id : string) : OM unit :=
  if negb (dr_selects env id) then skip else
  s ← get;
  match od_outbox (ob_db s) !! id with
  | None => skip
  | Some row =>
      if bool_decide (is_Some (ox_drained_at row)) then skip
      else if ox_payload_version row =? GITOPS_EVENT_PAYLOAD_VERSION then
        drainDecodedRow env id (decodeGitOpsEventPayload (ox_payload_json row) (ox_payload_version row)) (fun _ => false)
          (fanoutGitOpsEvent env)
      else if ox_payload_version row =? SETTLED_ATTEMPT_PAYLOAD_VERSION then
        drainDecodedRow env id (decodeSettledAttemptPayload (ox_payload_json row) (ox_payload_version row))
          (fun p => negb (settledOutcomeCarriesNews (sp_outcome p))) (fanoutSettledNotification env)
      else skip
  end.

(** [listUndrained], in the order of creation. *)
Definition created_before (x y : string * OutboxRow) : Prop :=
  ox_created_at x.2 < ox_created_at y.2 \/ (ox_created_at x.2 = ox_created_at y.2 /\ String.leb x.1 y.1 = true).
#[export] Instance created_before_dec x y : Decision (created_before x y).
Proof. unfold created_before. apply _. Defined.
Definition listUndrained (d : OutboxDb) : list string :=
  fst <$> merge_sort created_before (filter (fun kv => ox_drained_at kv.2 = None) (map_to_list (od_outbox d))).

(** The repair at a start; [rows] are those it reaches before the process dies, all of
    them when there is none. *)
Definition cut_at {A} (rows : option nat) (l : list A) : list A := match rows with Some n => take n l | None => l end.

Definition repairGitOpsOutbox (env : DrainEnv) (rows : option nat) : OM unit :=
  s ← get; for_each (drainGitOpsOutboxRow env) (cut_at rows (listUndrained (ob_db s))).

(** ** Announcing (publish.ts) *)

(** A broadcast that throws is swallowed. *)
Definition announceRow (env : DrainEnv) (x : PendingRow) : OM unit :=
  s ← get;
  if negb (dr_survives env x.1 && bool_decide (is_Some (od_history (ob_db s) !! x.1))) then skip
  else
    tell (OE_metric (hs_stage x.2) (hs_outcome x.2));;
    (if bool_decide (is_Some (planOf x.2)) then drainGitOpsOutboxRow env x.1 else skip);;
    when (ob_sink s) (tell (OE_announce (hs_stage x.2) (ac_id (hs_application x.2)) (ac_stack_name (hs_application x.2)) (hs_at x.2))).

Definition drain (env : DrainEnv) (rows : option nat) : OM unit :=
  s ← get;
  if negb (ob_scheduled s) then skip
  else
    modify (fun s => mkOutbox (ob_db s) [] false (ob_sink s));;
    for_each (announceRow env) (cut_at rows (ob_pending s)).

(** The process dies and starts again: its memory is gone. *)
Definition restart : OM unit := modify (fun s => mkOutbox (ob_db s) [] false false).

(** A producer runs; what was queued schedules the drain. *)
Definition transition (w : Work) : OM unit :=
  modify (fun s =>
    let '(d, pending, _) := runWork w (ob_db s, []) in
    mkOutbox d (ob_pending s ++ pending) (ob_scheduled s || negb (bool_decide (pending = []))) (ob_sink s)).

(** ** Steps *)

Inductive OutboxEvent :=
  | EvTransition (body : list Work)                          (* an outermost transaction that commits *)
  | EvAborted (body : list Work)                             (* one that throws *)
  | EvDrain (env : DrainEnv) (dies : option nat)             (* the macrotask, cut when the process dies in it *)
  | EvRepair (env : DrainEnv) (dies : option nat)
  | EvRestart
  | EvSink (installed : bool)
  | EvNotice (n : Notification)                              (* another writer of the notification history *)
  | EvDelete (n : Z).                                        (* a notification is deleted or expires *)

Definition outbox_run (ev : OutboxEvent) : OM unit :=
  match ev with
  | EvTransition body => transition (W_tx body true)
  | EvAborted body => transition (W_tx body false)
  | EvDrain env dies => drain env dies;; when (bool_decide (is_Some dies)) restart
  | EvRepair env dies => repairGitOpsOutbox env dies;; when (bool_decide (is_Some dies)) restart
  | EvRestart => restart
  | EvSink b => modify (fun s => mkOutbox (ob_db s) (ob_pending s) (ob_scheduled s) b)
  | EvNotice n => addNotificationHistory n
  | EvDelete n => modify (upd_ob_db (upd_od_notifications (delete n)))
  end.

Definition emptyOutbox : Outbox := mkOutbox (mkOutboxDb ∅ ∅ ∅ 1) [] false false.

Definition outbox_one (s : Outbox) (ev : OutboxEvent) : Outbox := state (outbox_run ev) s.

Fixpoint outbox_effects (l : list OutboxEvent) (s : Outbox) : list OutboxEffect :=
  match l with
  | [] => []
  | ev :: l => effects (outbox_run ev) s ++ outbox_effects l (outbox_one s ev)
  end.
End json_text.
