(* ===== verification/OutboxProps.v ===== *)
(** * GitOps outbox: what it promises

    A committed decision is announced, a rolled back one is not, and whatever crashes
    in between nothing is announced twice. *)

From Stdlib Require Import QArith Qcanon.
From stdpp Require Import sorting.
From S2P Require Import Prelude Json Reconcile Outbox.

#[global] Open Scope Z_scope.

(** ** Payloads *)

(** A flat object: strings, whole numbers and [null]. *)
Definition flat_value (v : Json) : Prop :=
  match v with JNull | JStr _ => True | JNum q => is_Some (num_int q) | _ => False end.
Definition flat (fields : list (string * Json)) : Prop := Forall (fun kv => flat_value kv.2) fields.

Lemma flat_strOr o : flat_value (JStrOr o).
Proof. by destruct o. Qed.
Lemma flat_numOr o : flat_value (JNumOr (Qc_of_Z <$> o)).
Proof. destruct o; [|done]. simpl. rewrite num_int_of_Z. done. Qed.
Lemma flat_int z : flat_value (JNum (Qc_of_Z z)).
Proof. simpl. rewrite num_int_of_Z. done. Qed.


Lemma flat_settled id r : flat (settled_fields (settledPayload id r)).
Proof. unfold flat, settled_fields. repeat (apply Forall_cons_2; [first [exact I | apply flat_strOr | apply flat_numOr | apply flat_int]|]); done. Qed.
Lemma flat_event id stage r : flat (event_fields (eventPayload id stage r)).
Proof. unfold flat, event_fields. repeat (apply Forall_cons_2; [first [exact I | apply flat_strOr | apply flat_numOr | apply flat_int]|]); done. Qed.

Lemma stage_name_inv s : isNotifiableGitOpsStage (stage_name s) = Some s.
Proof. by destruct s. Qed.
Lemma candidate_state_inv s : isCandidateState (candidate_state_str s) = Some s.
Proof. by destruct s. Qed.

Lemma null_or_string_or k f o : field k f = Some (JStrOr o) -> null_or_string k f = Some o.
Proof. unfold null_or_string. intros ->. by destruct o. Qed.
Lemma null_or_number_or k f o : field k f = Some (JNumOr o) -> null_or_number k f = Some o.
Proof. unfold null_or_number. intros ->. by destruct o. Qed.
Lemma nonEmpty_str k f s : field k f = Some (JStr s) -> s <> "" -> isNonEmptyString k f = Some s.
Proof. unfold isNonEmptyString, string_field. intros -> H. by destruct s. Qed.

(** What a producer always records. *)
Definition settled_wf (p : SettledAttemptPayload) : Prop :=
  sp_settledHistoryId p <> "" /\ sp_applicationId p <> "" /\ sp_operationId p <> "" /\ sp_outcome p <> "" /\
  sp_nextAction p <> "" /\ sp_trigger p <> "".
Definition event_wf (p : GitOpsEventPayload) : Prop :=
  ep_historyId p <> "" /\ ep_applicationId p <> "" /\ ep_operationId p <> "".

Lemma settled_decoded_fields p : settled_wf p -> settled_decoded (settled_fields p) = Some p.
Proof.
  intros (H1 & H2 & H3 & H4 & H5 & H6). unfold settled_decoded.
  rewrite (nonEmpty_str "settledHistoryId" _ (sp_settledHistoryId p)), (nonEmpty_str "applicationId" _ (sp_applicationId p)),
    (nonEmpty_str "operationId" _ (sp_operationId p)), (nonEmpty_str "outcome" _ (sp_outcome p)), (nonEmpty_str "nextAction" _ (sp_nextAction p)),
    (nonEmpty_str "trigger" _ (sp_trigger p)) by (reflexivity || done). cbn -[isCandidateState].
  rewrite (null_or_string_or "stackName" _ (sp_stackName p)), (null_or_number_or "nodeId" _ (sp_nodeId p)),
    (null_or_string_or "reason" _ (sp_reason p)), (null_or_string_or "actor" _ (sp_actor p)) by reflexivity. cbn -[isCandidateState].
  destruct p as [??????????? [?|] [[]|]]; cbn -[isCandidateState]; rewrite ?candidate_state_inv; done.
Qed.

Lemma event_decoded_fields p : event_wf p -> event_decoded (event_fields p) = Some p.
Proof.
  intros (H1 & H2 & H3). unfold event_decoded.
  rewrite (nonEmpty_str "historyId" _ (ep_historyId p)), (nonEmpty_str "applicationId" _ (ep_applicationId p)), (nonEmpty_str "operationId" _ (ep_operationId p))
    by (reflexivity || done). by destruct p as [??? [] [?|] [?|] [?|] [?|] ?].
Qed.

(** ** Keys *)

Lemma candidate_str_inj s s' : candidate_state_str s = candidate_state_str s' -> s = s'.
Proof. by destruct s, s'. Qed.

Lemma append_inj p s t : p +:+ s = p +:+ t -> s = t.
Proof. induction p as [|c p IH]; [done|]. intros [= H]. by apply IH. Qed.

(** What counts as the same news. Two attempts share a notification exactly when
    they settle on the same candidate in the same standing state, or, where no
    candidate is announced, when they are the same attempt; an event shares one with
    nothing but its own replay, and never with an attempt. *)
Theorem notification_keys_exact op c op' c' h h' :
  (forall x, c = Some x -> no_colon (ci_applicationId x) = true /\ no_colon (ci_generationId x) = true) ->
  (forall x, c' = Some x -> no_colon (ci_applicationId x) = true /\ no_colon (ci_generationId x) = true) ->
  (gitOpsAttemptNotificationKey op c = gitOpsAttemptNotificationKey op' c' <->
     c = c' /\ (c = None -> op = op')) /\
  (gitOpsEventNotificationDedupeKey h = gitOpsEventNotificationDedupeKey h' <-> h = h') /\
  gitOpsEventNotificationDedupeKey h <> gitOpsAttemptNotificationKey op c.
Proof.
  intros Hc Hc'. unfold gitOpsAttemptNotificationKey, gitOpsEventNotificationDedupeKey. split_and!.
  - destruct c as [[a g s]|], c' as [[a' g' s']|]; simpl.
    + destruct (Hc _ eq_refl) as [H1 H2], (Hc' _ eq_refl) as [H1' H2']. simpl in *. split; [|by intros [[= -> -> ->] _]].
      intros H. apply (append_inj "gitops:candidate:") in H. apply append_colon_inj in H as [-> H]; [|done..].
      apply append_colon_inj in H as [-> H%candidate_str_inj]; [|done..]. by subst.
    + split; [done|]. by intros [? _].
    + split; [done|]. by intros [? _].
    + split; [|by intros [_ ->]]. intros H%(append_inj "gitops:attempt:"). by subst.
  - split; [|by intros ->]. apply (append_inj "gitops:event:").
  - by destruct c.
Qed.

(** ** What a drain does to a row *)

Section json_text.
Variables (json_parse : string -> option Json) (json_stringify : Json -> string).

(** A flat object is read back as it was printed. *)
Definition prints_flat : Prop := forall fields, flat fields -> json_parse (json_stringify (JObj fields)) = Some (JObj fields).

Local Notation drainRow := (drainGitOpsOutboxRow json_parse).
Local Notation "'row_of'" := (outboxRow json_stringify).
Local Notation run := (outbox_run json_parse json_stringify).
Local Notation one := (outbox_one json_parse json_stringify).
Local Notation runs l s := (foldl one s l).
Local Notation trace l s := (outbox_effects json_parse json_stringify l s).

(** The notification a stored row stands for. *)
Definition announces (env : DrainEnv) (row : OutboxRow) (n : Notification) : Prop :=
  (exists p, decodeGitOpsEventPayload json_parse (ox_payload_json row) (ox_payload_version row) = inr p /\ n = eventNotification env p) \/
  (exists p, decodeSettledAttemptPayload json_parse (ox_payload_json row) (ox_payload_version row) = inr p /\
     settledOutcomeCarriesNews (sp_outcome p) = true /\ n = settledNotification env p).
Definition without_news (row : OutboxRow) : Prop :=
  exists p, decodeSettledAttemptPayload json_parse (ox_payload_json row) (ox_payload_version row) = inr p /\
    settledOutcomeCarriesNews (sp_outcome p) = false.

(** What a drained row leaves: nothing; a notification and perhaps the mark; or, for an
    attempt without news, the mark alone. *)
Inductive drained_row (env : DrainEnv) (id : string) (s : Outbox) : Outbox -> list OutboxEffect -> Prop :=
  | dr_nothing : drained_row env id s s []
  | dr_noticed row n : od_outbox (ob_db s) !! id = Some row -> ox_drained_at row = None -> announces env row n ->
      drained_row env id s (state (addNotificationHistory n) s) (effects (addNotificationHistory n) s)
  | dr_marked row n : od_outbox (ob_db s) !! id = Some row -> ox_drained_at row = None -> announces env row n ->
      drained_row env id s (state (markDrained id (dr_now env)) (state (addNotificationHistory n) s))
        (effects (addNotificationHistory n) s)
  | dr_silent row : od_outbox (ob_db s) !! id = Some row -> ox_drained_at row = None -> without_news row ->
      drained_row env id s (state (markDrained id (dr_now env)) s) [].

Lemma drain_cases env id s : drained_row env id s (state (drainRow env id) s) (effects (drainRow env id) s).
Proof.
  unfold drainGitOpsOutboxRow. destruct (negb (dr_selects env id)); [constructor|].
  rewrite state_bind, effects_bind, result_get, state_get, effects_get.
  destruct (od_outbox (ob_db s) !! id) as [row|] eqn:E; [|constructor].
  case_bool_decide as Ed; [constructor|]. apply eq_None_not_Some in Ed. simpl.
  destruct (ox_payload_version row =? GITOPS_EVENT_PAYLOAD_VERSION); [|destruct (ox_payload_version row =? _); [|constructor]].
  - unfold drainDecodedRow, fanoutGitOpsEvent. destruct (decodeGitOpsEventPayload _ _ _) as [|p] eqn:Ep; [constructor|].
    assert (announces env row (eventNotification env p)) as Ha by (left; by exists p).
    simpl. destruct (dr_notifies env id); [|constructor]. rewrite state_bind, effects_bind.
    destruct (dr_marks env id); simpl; rewrite ?app_nil_r; by econstructor.
  - unfold drainDecodedRow, fanoutSettledNotification.
    destruct (decodeSettledAttemptPayload _ _ _) as [|p] eqn:Ep; [constructor|].
    destruct (settledOutcomeCarriesNews (sp_outcome p)) eqn:En; simpl.
    + assert (announces env row (settledNotification env p)) as Ha by (right; by exists p).
      destruct (dr_notifies env id); [|constructor]. rewrite state_bind, effects_bind.
      destruct (dr_marks env id); simpl; rewrite ?app_nil_r; by econstructor.
    + assert (without_news row) as Hw by by exists p. rewrite state_bind, effects_bind.
      destruct (dr_marks env id); [by econstructor|constructor].
Qed.

(** *** What every step keeps *)

(** A drain moves nothing but the notifications and the marks. *)
Definition same_row (x y : OutboxRow) : Prop :=
  ox_payload_json x = ox_payload_json y /\ ox_payload_version x = ox_payload_version y.

(** The outbox holds a row for each notifiable history row, and no other. *)
Definition outbox_matches (d : OutboxDb) : Prop := forall id,
  match od_outbox d !! id with
  | Some row => exists r p, od_history d !! id = Some r /\ planOf r = Some p /\ same_row row (row_of id r p)
  | None => forall r, od_history d !! id = Some r -> planOf r = None
  end.

Definition keys_unique (d : OutboxDb) : Prop :=
  (forall i n, od_notifications d !! i = Some n -> i < od_next d) /\
  forall i j n m k, od_notifications d !! i = Some n -> od_notifications d !! j = Some m ->
    nt_dedupe_key n = Some k -> nt_dedupe_key m = Some k -> i = j.

Record OutboxInv (d : OutboxDb) : Prop := mkOutboxInv { oi_matches : outbox_matches d; oi_keys : keys_unique d }.

Lemma key_taken_spec k d : key_taken k d = true <-> exists i n, od_notifications d !! i = Some n /\ nt_dedupe_key n = Some k.
Proof.
  unfold key_taken. rewrite existsb_exists. split.
  - intros ([i n] & Hin & Hk%bool_decide_eq_true). exists i, n. split; [|done].
    by apply elem_of_map_to_list, list_elem_of_In.
  - intros (i & n & Hin & Hk). exists (i, n). split; [by apply list_elem_of_In, elem_of_map_to_list|].
    by apply bool_decide_eq_true.
Qed.

Lemma matches_ext d d' : od_history d' = od_history d -> od_outbox d' = od_outbox d -> outbox_matches d -> outbox_matches d'.
Proof. unfold outbox_matches. by intros -> ->. Qed.
Lemma keys_ext d d' : od_notifications d' = od_notifications d -> od_next d' = od_next d -> keys_unique d -> keys_unique d'.
Proof. unfold keys_unique. by intros -> ->. Qed.

Definition notice_inserted (n : Notification) (d : OutboxDb) : bool :=
  match nt_dedupe_key n with Some k => negb (key_taken k d) | None => true end.

Lemma addNotice_state n s : state (addNotificationHistory n) s =
  if notice_inserted n (ob_db s)
  then upd_ob_db (fun d => mkOutboxDb (od_history d) (od_outbox d) (<[od_next d := n]> (od_notifications d)) (od_next d + 1)) s
  else s.
Proof. unfold addNotificationHistory, notice_inserted. act_run. destruct (match nt_dedupe_key n with Some _ => _ | None => _ end); by act_run. Qed.
Lemma addNotice_effects n s : effects (addNotificationHistory n) s = [OE_notice n (notice_inserted n (ob_db s))].
Proof. unfold addNotificationHistory, notice_inserted. act_run. by destruct (match nt_dedupe_key n with Some _ => _ | None => _ end). Qed.

Lemma inv_addNotice n s : OutboxInv (ob_db s) -> OutboxInv (ob_db (state (addNotificationHistory n) s)).
Proof.
  intros [M [K1 K2]]. rewrite addNotice_state. destruct (notice_inserted n (ob_db s)) eqn:En; [|done]. split; simpl.
  - by apply (matches_ext (ob_db s)).
  - split; simpl.
    + intros i m. rewrite lookup_insert. case_decide; [intros _; lia|]. intros Hi%K1. lia.
    + assert (forall i m k, od_notifications (ob_db s) !! i = Some m -> nt_dedupe_key m = Some k -> nt_dedupe_key n <> Some k) as Hn.
      { intros i m k Hi Hk Hnk. unfold notice_inserted in En. rewrite Hnk in En. apply negb_true_iff in En.
        by rewrite (proj2 (key_taken_spec k (ob_db s))) in En by (by exists i, m). }
      intros i j m m' k. rewrite !lookup_insert. repeat case_decide; subst; try done.
      * intros [= <-] H2 H3 H4. by destruct (Hn _ _ _ H2 H4).
      * intros H1 [= <-] H3 H4. by destruct (Hn _ _ _ H1 H3).
      * apply K2.
Qed.

Lemma inv_mark id at_ s : OutboxInv (ob_db s) -> OutboxInv (ob_db (state (markDrained id at_) s)).
Proof.
  intros [M K]. unfold markDrained. rewrite state_modify. split; [|by apply (keys_ext (ob_db s))].
  intros id'. specialize (M id'). simpl. rewrite lookup_alter. case_decide; [subst|done].
  destruct (od_outbox (ob_db s) !! id') as [row|] eqn:E; simpl; [|done].
  destruct M as (r & p & H1 & H2 & H3). exists r, p. split_and!; [done..|]. destruct H3 as [H4 H5]. by destruct (ox_drained_at row).
Qed.

Lemma inv_drainRow env id s : OutboxInv (ob_db s) -> OutboxInv (ob_db (state (drainRow env id) s)).
Proof.
  intros I. destruct (drain_cases env id s); [done|by apply inv_addNotice|by apply inv_mark, inv_addNotice|by apply inv_mark].
Qed.

(** *** Transactions *)

Section work_ind.
Variable P : Work -> Prop.
Hypotheses (Hinsert : forall id r, P (W_insert id r)) (Htx : forall body commits, Forall P body -> P (W_tx body commits)).
Fixpoint work_ind (w : Work) : P w :=
  match w with
  | W_insert id r => Hinsert id r
  | W_tx body commits => Htx body commits ((fix go l : Forall P l := match l with [] => Forall_nil_2 P | w :: l => Forall_cons_2 P _ _ (work_ind w) (go l) end) body)
  end.
End work_ind.

(** The statements of a body, in order, until one throws. *)
Definition runBody : list Work -> OutboxDb * list PendingRow -> OutboxDb * list PendingRow * bool :=
  fix run l x :=
    match l with
    | [] => (x.1, x.2, true)
    | w :: l => let '(d, pending, ok) := runWork json_stringify w x in if ok : bool then run l (d, pending) else (d, pending, false)
    end.
Lemma runWork_tx body commits x : runWork json_stringify (W_tx body commits) x =
  let '(d, pending, ok) := runBody body x in if ok && commits then (d, pending, true) else (x.1, pending, negb commits).
Proof. reflexivity. Qed.

(** What holds of the tables before work holds after it, when an insert keeps it. *)
Section work_keeps.
Variable P : OutboxDb -> Prop.
Hypothesis Hinsert : forall id r d pending, P d -> P (insertHistory json_stringify id r (d, pending)).1.1.

Lemma work_keeps w : forall d pending, P d -> P (runWork json_stringify w (d, pending)).1.1.
Proof using Hinsert.
  induction w as [id r|body commits IH] using work_ind; intros d pending Hd; [by apply Hinsert|]. rewrite runWork_tx.
  assert (P (runBody body (d, pending)).1.1) as Hb.
  { revert d pending Hd. induction IH as [|w l Hw _ IHl]; intros d pending Hd; [done|]. simpl.
    specialize (Hw d pending Hd). destruct (runWork json_stringify w (d, pending)) as [[d1 p1] []]; simpl in *; [by apply IHl|done]. }
  destruct (runBody body (d, pending)) as [[d1 p1] ok]. by destruct (ok && commits).
Qed.
End work_keeps.

Lemma matches_insert id r d pending : outbox_matches d -> outbox_matches (insertHistory json_stringify id r (d, pending)).1.1.
Proof.
  intros M. unfold insertHistory. destruct (existsb _ _); [done|]. case_bool_decide as Eh; [done|].
  apply eq_None_not_Some in Eh. simpl. intros id'. pose proof (M id) as Mi. specialize (M id').
  destruct (od_outbox d !! id) as [row|] eqn:Eo; [destruct Mi as (? & ? & ? & _); congruence|].
  destruct (planOf r) as [p|] eqn:Ep; simpl.
  - rewrite Eo, !lookup_insert. case_decide; [subst|done]. exists r, p. split_and!; [done..|by split].
  - rewrite lookup_insert. case_decide; [subst|done]. rewrite Eo in *. by intros ? [= <-].
Qed.

Lemma keys_insert id r d pending : keys_unique d -> keys_unique (insertHistory json_stringify id r (d, pending)).1.1.
Proof.
  intros K. unfold insertHistory. destruct (existsb _ _); [done|]. case_bool_decide; [done|]. by destruct (planOf r).
Qed.

Lemma inv_transition w s : OutboxInv (ob_db s) -> OutboxInv (ob_db (state (transition json_stringify w) s)).
Proof.
  intros [M K]. unfold transition. rewrite state_modify.
  pose proof (work_keeps outbox_matches matches_insert w (ob_db s) [] M) as M'.
  pose proof (work_keeps keys_unique keys_insert w (ob_db s) [] K) as K'.
  destruct (runWork json_stringify w (ob_db s, [])) as [[d pending] ok]. by split.
Qed.

(** *** Runs *)

Lemma inv_for_each {A} (f : A -> OM unit) l s : (forall x s, OutboxInv (ob_db s) -> OutboxInv (ob_db (state (f x) s))) ->
  OutboxInv (ob_db s) -> OutboxInv (ob_db (state (for_each f l) s)).
Proof. intros Hf. revert s. induction l as [|x l IH]; intros s I; [done|]. simpl. rewrite state_bind. by apply IH, Hf. Qed.

Lemma inv_announce env x s : OutboxInv (ob_db s) -> OutboxInv (ob_db (state (announceRow json_parse env x) s)).
Proof.
  intros I. unfold announceRow. act_run. destruct (negb _); [done|]. act_run.
  destruct (ob_sink s), (bool_decide _); act_run; try done; by apply inv_drainRow.
Qed.

Lemma inv_outbox_run ev s : OutboxInv (ob_db s) -> OutboxInv (ob_db (state (run ev) s)).
Proof.
  intros I. destruct ev; simpl.
  - by apply inv_transition.
  - by apply inv_transition.
  - rewrite state_bind. assert (OutboxInv (ob_db (state (drain json_parse env dies) s))) as I'.
    { unfold drain. act_run. destruct (negb _); [done|]. act_run. apply inv_for_each; [by intros; apply inv_announce|done]. }
    unfold when. by destruct (bool_decide _).
  - rewrite state_bind. assert (OutboxInv (ob_db (state (repairGitOpsOutbox json_parse env dies) s))) as I'.
    { unfold repairGitOpsOutbox. act_run. apply inv_for_each; [by intros; apply inv_drainRow|done]. }
    unfold when. by destruct (bool_decide _).
  - done.
  - done.
  - by apply inv_addNotice.
  - destruct I as [M [K1 K2]]. split; simpl; [by apply (matches_ext (ob_db s))|]. split; simpl.
    + intros i m. rewrite lookup_delete. case_decide; [done|]. apply K1.
    + intros i j m m' k. rewrite !lookup_delete. repeat case_decide; try done. apply K2.
Qed.

Lemma inv_empty : OutboxInv (ob_db emptyOutbox).
Proof. split; [intros id; simpl; by rewrite lookup_empty|]. by split; intros *; simpl; rewrite lookup_empty. Qed.

Lemma inv_runs l s : OutboxInv (ob_db s) -> OutboxInv (ob_db (runs l s)).
Proof. revert s. induction l as [|ev l IH]; intros s I; [done|]. simpl. by apply IH, inv_outbox_run. Qed.


(** ** Nothing is announced twice *)

(** The notifications inserted under a key. *)
Definition is_notice (k : string) (e : OutboxEffect) : bool :=
  match e with OE_notice n true => bool_decide (nt_dedupe_key n = Some k) | _ => false end.
Definition notices (k : string) (effs : list OutboxEffect) : nat := length (filter (fun e => Is_true (is_notice k e)) effs).
Definition taken (k : string) (s : Outbox) : nat := if key_taken k (ob_db s) then 1%nat else 0%nat.

Lemma notices_app k e1 e2 : notices k (e1 ++ e2) = (notices k e1 + notices k e2)%nat.
Proof. unfold notices. by rewrite filter_app, length_app. Qed.

(** A key is taken once it was announced, and an announcement needs a free key. *)
Definition exact_notices (k : string) (s s' : Outbox) (effs : list OutboxEffect) : Prop :=
  taken k s' = (taken k s + notices k effs)%nat.

Lemma exact_app k a b c e1 e2 : exact_notices k a b e1 -> exact_notices k b c e2 -> exact_notices k a c (e1 ++ e2).
Proof. unfold exact_notices. rewrite notices_app. lia. Qed.

Lemma taken_ext k s s' : od_notifications (ob_db s') = od_notifications (ob_db s) -> taken k s' = taken k s.
Proof. unfold taken, key_taken. by intros ->. Qed.

Lemma exact_quiet k s s' effs : od_notifications (ob_db s') = od_notifications (ob_db s) ->
  Forall (fun e => is_notice k e = false) effs -> exact_notices k s s' effs.
Proof.
  intros E H. unfold exact_notices. rewrite (taken_ext k s s' E). enough (notices k effs = 0%nat) by lia.
  unfold notices. induction H as [|e effs He _ IH]; [done|]. rewrite filter_cons, He. by rewrite decide_False by (by intros []).
Qed.

Lemma exact_addNotice k n s : OutboxInv (ob_db s) -> exact_notices k s (state (addNotificationHistory n) s) (effects (addNotificationHistory n) s).
Proof.
  intros [_ [K1 _]]. rewrite addNotice_state, addNotice_effects. unfold exact_notices, notices. rewrite filter_cons, filter_nil.
  destruct (notice_inserted n (ob_db s)) eqn:En; [|simpl; lia].
  assert (key_taken k (ob_db (upd_ob_db (fun d => mkOutboxDb (od_history d) (od_outbox d) (<[od_next d := n]> (od_notifications d)) (od_next d + 1)) s)) = true
    <-> key_taken k (ob_db s) = true \/ nt_dedupe_key n = Some k) as Hk.
  { rewrite !key_taken_spec. simpl. split.
    - intros (i & m & Hi & Hm). rewrite lookup_insert in Hi. case_decide; [right; congruence|left; by exists i, m].
    - intros [(i & m & Hi & Hm)|Hn].
      + exists i, m. split; [|done]. rewrite lookup_insert_ne; [done|]. apply K1 in Hi. lia.
      + exists (od_next (ob_db s)), n. by rewrite lookup_insert_eq. }
  unfold taken. simpl is_notice. case_bool_decide as Ek.
  - rewrite decide_True by done. rewrite (proj2 Hk) by auto. unfold notice_inserted in En. rewrite Ek in En.
    apply negb_true_iff in En. by rewrite En.
  - rewrite decide_False by (by intros []). destruct (key_taken k (ob_db s)); [by rewrite (proj2 Hk) by auto|].
    destruct (key_taken k _); [|done]. by destruct (proj1 Hk eq_refl).
Qed.

Lemma exact_mark k id at_ s : exact_notices k s (state (markDrained id at_) s) [].
Proof. by apply exact_quiet. Qed.

Lemma exact_drainRow k env id s : OutboxInv (ob_db s) -> exact_notices k s (state (drainRow env id) s) (effects (drainRow env id) s).
Proof.
  intros I. destruct (drain_cases env id s).
  - by apply exact_quiet.
  - by apply exact_addNotice.
  - rewrite <-(app_nil_r (effects _ _)). eapply exact_app; [by apply exact_addNotice|apply exact_mark].
  - apply exact_mark.
Qed.

Lemma exact_for_each {A} k (f : A -> OM unit) l s :
  (forall x s, OutboxInv (ob_db s) -> OutboxInv (ob_db (state (f x) s)) /\ exact_notices k s (state (f x) s) (effects (f x) s)) ->
  OutboxInv (ob_db s) -> exact_notices k s (state (for_each f l) s) (effects (for_each f l) s).
Proof.
  intros Hf. revert s. induction l as [|x l IH]; intros s I; [by apply exact_quiet|]. simpl. rewrite state_bind, effects_bind.
  destruct (Hf x s I) as [I1 E1]. eapply exact_app; [exact E1|by apply IH].
Qed.

Lemma exact_announce k env x s : OutboxInv (ob_db s) ->
  exact_notices k s (state (announceRow json_parse env x) s) (effects (announceRow json_parse env x) s).
Proof.
  intros I. unfold announceRow. rewrite state_bind, effects_bind. simpl.
  destruct (negb _); [by apply exact_quiet|]. rewrite state_bind, effects_bind. simpl.
  apply (exact_app k s s _ [OE_metric (hs_stage x.2) (hs_outcome x.2)]); [apply exact_quiet; [done|by apply Forall_singleton]|].
  set (m := if bool_decide (is_Some (planOf x.2)) then drainRow env x.1 else skip).
  assert (exact_notices k s (state m s) (effects m s)) as Hm.
  { unfold m. destruct (bool_decide (is_Some (planOf x.2))); [by apply exact_drainRow|by apply exact_quiet]. }
  rewrite state_bind, effects_bind. apply (exact_app k s (state m s)); [exact Hm|]. simpl.
  unfold when. destruct (ob_sink _); apply exact_quiet; first [reflexivity | by apply Forall_singleton | constructor].
Qed.

Lemma exact_restart k s b : exact_notices k s (state (when b restart) s) (effects (when b restart) s).
Proof. destruct b; by apply exact_quiet. Qed.

Lemma work_notifications w d pending : od_notifications (runWork json_stringify w (d, pending)).1.1 = od_notifications d.
Proof.
  apply (work_keeps (fun x => od_notifications x = od_notifications d)); [|done].
  intros id r x p <-. unfold insertHistory. destruct (existsb _ _); [done|]. case_bool_decide; [done|]. by destruct (planOf r).
Qed.
Lemma transition_notifications w s : od_notifications (ob_db (state (transition json_stringify w) s)) = od_notifications (ob_db s).
Proof.
  unfold transition. rewrite state_modify. pose proof (work_notifications w (ob_db s) []) as H.
  by destruct (runWork json_stringify w (ob_db s, [])) as [[d p] ok].
Qed.

Lemma exact_run k ev s : OutboxInv (ob_db s) -> (forall n, ev <> EvDelete n) -> exact_notices k s (one s ev) (effects (run ev) s).
Proof.
  intros I Hev. unfold outbox_one. destruct ev; simpl.
  - apply exact_quiet; [apply transition_notifications|constructor].
  - apply exact_quiet; [apply transition_notifications|constructor].
  - rewrite state_bind, effects_bind. eapply exact_app; [|apply exact_restart]. unfold drain. rewrite state_bind, effects_bind. simpl.
    destruct (negb _); [by apply exact_quiet|]. rewrite state_bind, effects_bind. simpl.
    apply (exact_app k s (mkOutbox (ob_db s) [] false (ob_sink s)) _ []); [by apply exact_quiet|].
    apply exact_for_each; [|done]. intros x s' I'. split; [by apply inv_announce|by apply exact_announce].
  - rewrite state_bind, effects_bind. eapply exact_app; [|apply exact_restart]. unfold repairGitOpsOutbox.
    rewrite state_bind, effects_bind. simpl. apply exact_for_each; [|done]. intros x s' I'.
    split; [by apply inv_drainRow|by apply exact_drainRow].
  - by apply exact_quiet.
  - by apply exact_quiet.
  - by apply exact_addNotice.
  - by destruct (Hev n).
Qed.

Lemma exact_runs k l s : OutboxInv (ob_db s) -> Forall (fun ev => forall n, ev <> EvDelete n) l ->
  exact_notices k s (runs l s) (trace l s).
Proof.
  intros I Hl. revert s I. induction Hl as [|ev l Hev _ IH]; intros s I; [by apply exact_quiet|]. simpl.
  eapply exact_app; [by apply exact_run|apply IH]. by apply inv_outbox_run.
Qed.

(** C5: Nothing is announced twice. From any reachable state, as long as no notification is
    deleted, a key is announced at most once, and not at all when it already was:
    whatever is replayed, repaired or settled again, and whoever else writes under the
    key. *)
Theorem announced_at_most_once l0 l k : let s := runs l0 emptyOutbox in
  Forall (fun ev => forall n, ev <> EvDelete n) l ->
  (notices k (trace l s) <= 1)%nat /\ (key_taken k (ob_db s) = true -> notices k (trace l s) = 0%nat) /\
  (notices k (trace l s) = 1%nat -> key_taken k (ob_db (runs l s)) = true).
Proof.
  intros s Hl. pose proof (exact_runs k l s (inv_runs l0 _ inv_empty) Hl) as H. unfold exact_notices, taken in H.
  destruct (key_taken k (ob_db s)), (key_taken k (ob_db (runs l s))); split_and!; try done; lia.
Qed.

(** ** Nothing is lost *)

(** Every statement of a drain succeeds. *)
Definition healthy (env : DrainEnv) : Prop :=
  forall id, dr_survives env id = true /\ dr_selects env id = true /\ dr_notifies env id = true /\ dr_marks env id = true.

Definition producible (id : string) (r : HistoryInsert) (p : GitOpsOutboxPlan) : Prop :=
  match p with plan_settled => settled_wf (settledPayload id r) | plan_event stage => event_wf (eventPayload id stage r) end.
Definition all_producible (d : OutboxDb) : Prop :=
  forall id r p, od_history d !! id = Some r -> planOf r = Some p -> producible id r p.

Definition notificationOf (env : DrainEnv) (id : string) (r : HistoryInsert) (p : GitOpsOutboxPlan) : Notification :=
  match p with
  | plan_settled => settledNotification env (settledPayload id r)
  | plan_event stage => eventNotification env (eventPayload id stage r)
  end.
Definition rowKey (id : string) (r : HistoryInsert) (p : GitOpsOutboxPlan) : string :=
  match p with
  | plan_settled => gitOpsAttemptNotificationKey (hs_operationId r) (announcedCandidate (settledPayload id r))
  | plan_event _ => gitOpsEventNotificationDedupeKey id
  end.

Lemma key_of_notification env id r p : nt_dedupe_key (notificationOf env id r p) = Some (rowKey id r p).
Proof.
  destruct p; simpl; unfold settledNotification, eventNotification.
  - destruct (notificationLabel _ _ _). by destruct (SETTLED_FAMILY_NOTIFICATION _).
  - destruct (notificationLabel _ _ _). by destruct (GITOPS_NOTIFICATION_META _) as [[]].
Qed.

Lemma plan_settled_news r : planOf r = Some plan_settled -> settledOutcomeCarriesNews (settledOutcome (hs_after r)) = true.
Proof.
  unfold planOf, gitOpsOutboxPlan. case_bool_decide.
  - by destruct (settledOutcomeCarriesNews _).
  - destruct (isNotifiableGitOpsStage _); [|done]. by destruct (_ && _).
Qed.

(** A stored row decodes to what was recorded. *)
Lemma row_decodes id r p row : prints_flat -> planOf r = Some p -> producible id r p -> same_row row (row_of id r p) ->
  match p with
  | plan_settled => decodeSettledAttemptPayload json_parse (ox_payload_json row) (ox_payload_version row) = inr (settledPayload id r)
      /\ ox_payload_version row = SETTLED_ATTEMPT_PAYLOAD_VERSION
  | plan_event stage => decodeGitOpsEventPayload json_parse (ox_payload_json row) (ox_payload_version row) = inr (eventPayload id stage r)
      /\ ox_payload_version row = GITOPS_EVENT_PAYLOAD_VERSION
  end.
Proof.
  intros Hj Hp Hwf [E1 E2]. rewrite E1, E2. destruct p as [|stage]; simpl in *; (split; [|done]).
  - unfold decodeSettledAttemptPayload, decodePayload, encodeSettledAttemptPayload. rewrite Z.eqb_refl. simpl negb. cbv iota.
    rewrite Hj by apply flat_settled. rewrite bool_decide_eq_true_2 by reflexivity. simpl negb. cbv iota.
    by rewrite settled_decoded_fields.
  - unfold decodeGitOpsEventPayload, decodePayload, encodeGitOpsEventPayload. rewrite Z.eqb_refl. simpl negb. cbv iota.
    rewrite Hj by apply flat_event. rewrite bool_decide_eq_true_2 by reflexivity. simpl negb. cbv iota.
    by rewrite event_decoded_fields.
Qed.

Lemma row_announces env id r p row n : prints_flat -> planOf r = Some p -> producible id r p -> same_row row (row_of id r p) ->
  announces env row n -> n = notificationOf env id r p.
Proof.
  intros Hj Hp Hwf Hrow. pose proof (row_decodes id r p row Hj Hp Hwf Hrow) as Hd. unfold announces.
  destruct p as [|stage]; destruct Hd as [Hd Hv]; rewrite Hd.
  - intros [(q & Hq & _)|(q & [= <-] & _ & ->)]; [|done]. unfold decodeGitOpsEventPayload, decodePayload in Hq. by rewrite Hv in Hq.
  - intros [(q & [= <-] & ->)|(q & Hq & _)]; [done|]. unfold decodeSettledAttemptPayload, decodePayload in Hq. by rewrite Hv in Hq.
Qed.

Lemma row_has_news id r p row : prints_flat -> planOf r = Some p -> producible id r p -> same_row row (row_of id r p) ->
  ~ without_news row.
Proof.
  intros Hj Hp Hwf Hrow. pose proof (row_decodes id r p row Hj Hp Hwf Hrow) as Hd. unfold without_news.
  destruct p as [|stage]; destruct Hd as [Hd Hv]; intros (q & Hq & Hn).
  - rewrite Hd in Hq. injection Hq as <-. pose proof (plan_settled_news r Hp) as Hnews. simpl in Hn. congruence.
  - unfold decodeSettledAttemptPayload, decodePayload in Hq. by rewrite Hv in Hq.
Qed.

(** *** Rows stay, and stay drained *)

Definition mono (s s' : Outbox) : Prop :=
  od_history (ob_db s') = od_history (ob_db s) /\ forall id,
  match od_outbox (ob_db s) !! id with
  | Some row => exists row', od_outbox (ob_db s') !! id = Some row' /\ same_row row' row /\ (is_Some (ox_drained_at row) -> row' = row)
  | None => od_outbox (ob_db s') !! id = None
  end.

Lemma mono_refl s : mono s s.
Proof. split; [done|]. intros id. destruct (od_outbox (ob_db s) !! id) as [row|]; [|done]. exists row. by split_and!. Qed.
Lemma mono_trans a b c : mono a b -> mono b c -> mono a c.
Proof.
  intros [H1 K1] [H2 K2]. split; [congruence|]. intros id. specialize (K1 id). specialize (K2 id).
  destruct (od_outbox (ob_db a) !! id) as [row|].
  - destruct K1 as (row1 & E1 & [S1 V1] & D1). rewrite E1 in K2. destruct K2 as (row2 & E2 & [S2 V2] & D2).
    exists row2. split_and!; [done|split; congruence|]. intros Hd. rewrite <-(D1 Hd). apply D2. by rewrite (D1 Hd).
  - by rewrite K1 in K2.
Qed.
Lemma mono_addNotice n s : mono s (state (addNotificationHistory n) s).
Proof. rewrite addNotice_state. destruct (notice_inserted n (ob_db s)); exact (mono_refl s). Qed.
Lemma mono_mark id at_ s : mono s (state (markDrained id at_) s).
Proof.
  unfold markDrained. rewrite state_modify. split; [done|]. intros id'. simpl. rewrite lookup_alter.
  destruct (od_outbox (ob_db s) !! id') as [row|] eqn:E; case_decide; subst; rewrite ?E; try done.
  - simpl. eexists. split; [done|]. destruct (ox_drained_at row) eqn:Ed; split_and!; [by split|done|by split|by intros []].
  - exists row. by split_and!.
Qed.
Lemma mono_drainRow env id s : mono s (state (drainRow env id) s).
Proof.
  destruct (drain_cases env id s); [apply mono_refl|apply mono_addNotice| |apply mono_mark].
  eapply mono_trans; [apply mono_addNotice|apply mono_mark].
Qed.
Lemma mono_rows env l s : mono s (state (for_each (drainRow env) l) s).
Proof.
  revert s. induction l as [|id l IH]; intros s; [apply mono_refl|]. simpl. rewrite state_bind.
  eapply mono_trans; [apply mono_drainRow|apply IH].
Qed.
Lemma inv_rows env l s : OutboxInv (ob_db s) -> OutboxInv (ob_db (state (for_each (drainRow env) l) s)).
Proof. apply inv_for_each. intros. by apply inv_drainRow. Qed.

(** A healthy drain announces the row and marks it. *)
Lemma drain_healthy env id r p row s : prints_flat -> healthy env -> OutboxInv (ob_db s) ->
  od_history (ob_db s) !! id = Some r -> planOf r = Some p -> producible id r p ->
  od_outbox (ob_db s) !! id = Some row -> ox_drained_at row = None ->
  state (drainRow env id) s = state (markDrained id (dr_now env)) (state (addNotificationHistory (notificationOf env id r p)) s) /\
  effects (drainRow env id) s = effects (addNotificationHistory (notificationOf env id r p)) s.
Proof.
  intros Hj Henv [M _] Hr Hp Hwf Hrow Hd. destruct (Henv id) as (_ & E1 & E2 & E3).
  assert (same_row row (row_of id r p)) as Hs.
  { specialize (M id). rewrite Hrow in M. destruct M as (r' & p' & Hr' & Hp' & Hs). congruence. }
  pose proof (row_decodes id r p row Hj Hp Hwf Hs) as Hdec. unfold drainGitOpsOutboxRow. rewrite E1. simpl negb. cbv iota.
  rewrite state_bind, effects_bind, result_get, state_get, effects_get, Hrow, Hd. rewrite bool_decide_eq_false_2 by (by intros []).
  destruct p as [|stage]; destruct Hdec as [Hdec Hv]; rewrite Hv; simpl Z.eqb; cbv iota; rewrite <-Hv, Hdec; unfold drainDecodedRow.
  - unfold fanoutSettledNotification. change (sp_outcome (settledPayload id r)) with (settledOutcome (hs_after r)).
    rewrite (plan_settled_news r Hp), E2, E3. simpl. rewrite state_bind, effects_bind. by rewrite app_nil_r.
  - unfold fanoutGitOpsEvent. rewrite E2, E3. simpl. rewrite state_bind, effects_bind. by rewrite app_nil_r.
Qed.

Definition drained (id : string) (s : Outbox) : Prop := exists row, od_outbox (ob_db s) !! id = Some row /\ is_Some (ox_drained_at row).

Lemma drained_mono id s s' : mono s s' -> drained id s -> drained id s'.
Proof.
  intros [_ K] (row & E & Hd). specialize (K id). rewrite E in K. destruct K as (row' & E' & _ & Heq). exists row'.
  split; [done|]. by rewrite (Heq Hd).
Qed.

Lemma drain_healthy_drained env id r p s : prints_flat -> healthy env -> OutboxInv (ob_db s) ->
  od_history (ob_db s) !! id = Some r -> planOf r = Some p -> producible id r p ->
  drained id (state (drainRow env id) s) /\
  (~ drained id s -> key_taken (rowKey id r p) (ob_db (state (drainRow env id) s)) = true).
Proof.
  intros Hj Henv I Hr Hp Hwf. destruct I as [M K]. pose proof (M id) as Mi.
  destruct (od_outbox (ob_db s) !! id) as [row|] eqn:Hrow; [|by rewrite (Mi r Hr) in Hp].
  destruct (ox_drained_at row) as [at_|] eqn:Hd.
  - assert (drained id s) as Hds by (exists row; rewrite Hd; by split). split; [|by intros []].
    eapply drained_mono; [apply mono_drainRow|done].
  - destruct (drain_healthy env id r p row s Hj Henv (mkOutboxInv _ M K) Hr Hp Hwf Hrow Hd) as [-> _].
    set (n := notificationOf env id r p). split.
    + pose proof (mono_addNotice n s) as [_ Km]. specialize (Km id). rewrite Hrow in Km. destruct Km as (row1 & E1 & _ & _).
      unfold drained, markDrained. rewrite state_modify. simpl. rewrite lookup_alter, decide_True by done. rewrite E1. simpl.
      eexists. split; [done|]. destruct (ox_drained_at row1) eqn:Hx; simpl; [by rewrite Hx|by eexists].
    + intros _. unfold markDrained. rewrite state_modify.
      assert (forall s, key_taken (rowKey id r p) (ob_db (upd_ob_db (upd_od_outbox (alter (fun row =>
        match ox_drained_at row with None => mkOutboxRow (ox_payload_json row) (ox_payload_version row) (ox_created_at row)
          (dr_now env) (Some (dr_now env)) | Some _ => row end) id)) s)) = key_taken (rowKey id r p) (ob_db s)) as -> by done.
      pose proof (exact_addNotice (rowKey id r p) n s (mkOutboxInv _ M K)) as He. unfold exact_notices, taken in He.
      rewrite addNotice_effects in He. unfold notice_inserted, n in He. rewrite key_of_notification in He. fold n in He.
      destruct (key_taken (rowKey id r p) (ob_db (state (addNotificationHistory n) s))); [done|].
      destruct (key_taken (rowKey id r p) (ob_db s)); [done|]. unfold notices in He. rewrite filter_cons, decide_True in He; [done|].
      unfold is_notice, n. by rewrite key_of_notification, bool_decide_eq_true_2.
Qed.

Lemma taken_rows k env l s : OutboxInv (ob_db s) -> key_taken k (ob_db s) = true ->
  key_taken k (ob_db (state (for_each (drainRow env) l) s)) = true.
Proof.
  intros I Hk. assert (exact_notices k s (state (for_each (drainRow env) l) s) (effects (for_each (drainRow env) l) s)) as He.
  { apply exact_for_each; [|done]. intros id s' I'. split; [by apply inv_drainRow|by apply exact_drainRow]. }
  unfold exact_notices, taken in He. rewrite Hk in He. by destruct (key_taken k (ob_db (state (for_each (drainRow env) l) s))).
Qed.

Lemma drainRow_other env id id' s : id <> id' -> od_outbox (ob_db (state (drainRow env id) s)) !! id' = od_outbox (ob_db s) !! id'.
Proof.
  intros Hne. destruct (drain_cases env id s); unfold markDrained; rewrite ?state_modify, ?addNotice_state;
    try destruct (notice_inserted _ _); simpl; by rewrite ?lookup_alter_ne.
Qed.

Lemma rows_healthy env l s id r p : prints_flat -> healthy env -> OutboxInv (ob_db s) -> id ∈ l ->
  od_history (ob_db s) !! id = Some r -> planOf r = Some p -> producible id r p ->
  let s' := state (for_each (drainRow env) l) s in
  drained id s' /\ (~ drained id s -> key_taken (rowKey id r p) (ob_db s') = true).
Proof.
  intros Hj Henv I Hin Hr Hp Hwf. revert s I Hr. induction l as [|id' l IH]; intros s I Hr; [by apply not_elem_of_nil in Hin|].
  simpl. rewrite state_bind. pose proof (inv_drainRow env id' s I) as I1. destruct (decide (id' = id)) as [->|Hne].
  - destruct (drain_healthy_drained env id r p s Hj Henv I Hr Hp Hwf) as [Hd Hk]. split.
    + eapply drained_mono; [apply mono_rows|done].
    + intros Hn. by apply taken_rows; auto.
  - apply elem_of_cons in Hin as [->|Hin]; [done|]. pose proof (drainRow_other env id' id s Hne) as Eo.
    destruct (IH Hin (state (drainRow env id') s) I1) as [Hd Hk]; [by destruct (mono_drainRow env id' s) as [-> _]|].
    split; [done|]. intros Hn. apply Hk. unfold drained in *. by rewrite Eo.
Qed.

Lemma elem_undrained d id : id ∈ listUndrained d <-> exists row, od_outbox d !! id = Some row /\ ox_drained_at row = None.
Proof.
  unfold listUndrained. set (l := filter _ _).
  assert (forall x, x ∈ merge_sort created_before l <-> x ∈ l) as Hsort by (intros x; by rewrite merge_sort_Permutation).
  rewrite list_elem_of_fmap. split.
  - intros ([id' row] & -> & Hx%Hsort). apply list_elem_of_filter in Hx as [Hd Hx%elem_of_map_to_list]. by exists row.
  - intros (row & Hrow & Hd). exists (id, row). split; [done|]. apply Hsort, list_elem_of_filter. split; [done|].
    by apply elem_of_map_to_list.
Qed.

Lemma listUndrained_nil d : (forall id row, od_outbox d !! id = Some row -> is_Some (ox_drained_at row)) -> listUndrained d = [].
Proof.
  intros H. destruct (listUndrained d) as [|id l] eqn:E; [done|]. assert (id ∈ listUndrained d) as Hin by (rewrite E; left).
  apply elem_undrained in Hin as (row & Hrow & Hd). destruct (H id row Hrow) as [? ?]. congruence.
Qed.

(** C29: The repair completes, and does it once. In any reachable state, however it came
    about, a repair whose statements succeed drains every row, each one that was left
    over is announced under its key, and a second repair does nothing: it changes
    nothing and announces nothing. *)
Theorem repair_completes l env : prints_flat -> healthy env -> let s := runs l emptyOutbox in all_producible (ob_db s) ->
  let s' := one s (EvRepair env None) in
  (forall id row, od_outbox (ob_db s') !! id = Some row -> is_Some (ox_drained_at row)) /\
  (forall id r p, od_history (ob_db s) !! id = Some r -> planOf r = Some p -> ~ drained id s ->
     key_taken (rowKey id r p) (ob_db s') = true) /\
  (forall env', one s' (EvRepair env' None) = s' /\ effects (run (EvRepair env' None)) s' = []).
Proof.
  intros Hj Henv s Hprod s'. assert (OutboxInv (ob_db s)) as I by apply inv_runs, inv_empty.
  assert (s' = state (for_each (drainRow env) (listUndrained (ob_db s))) s) as Es.
  { unfold s', outbox_one. simpl. rewrite state_bind. unfold repairGitOpsOutbox. by rewrite state_bind. }
  assert (forall id row, od_outbox (ob_db s') !! id = Some row -> is_Some (ox_drained_at row)) as Hall.
  { intros id row Hrow. rewrite Es in Hrow. pose proof (mono_rows env (listUndrained (ob_db s)) s) as [_ K]. specialize (K id).
    pose proof (oi_matches _ I id) as Mi. destruct (od_outbox (ob_db s) !! id) as [row0|] eqn:E0; [|congruence].
    destruct Mi as (r & p & Hr & Hp & _). destruct (ox_drained_at row0) as [at_|] eqn:Ed.
    - destruct K as (row' & E' & _ & Heq). rewrite Heq in E' by (rewrite ?Ed; by eexists). rewrite E' in Hrow. injection Hrow as <-. rewrite ?Ed. by eexists.
    - destruct (rows_healthy env (listUndrained (ob_db s)) s id r p Hj Henv I) as [(row' & E' & Hd) _]; try done.
      + apply elem_undrained. by exists row0.
      + by apply Hprod.
      + congruence. }
  split_and!; [exact Hall| |].
  - intros id r p Hr Hp Hn. rewrite Es. pose proof (oi_matches _ I id) as Mi.
    destruct (od_outbox (ob_db s) !! id) as [row0|] eqn:E0; [|by rewrite (Mi r Hr) in Hp].
    apply (rows_healthy env (listUndrained (ob_db s)) s id r p Hj Henv I); try done; [|by apply Hprod].
    apply elem_undrained. exists row0. split; [done|]. destruct (ox_drained_at row0) eqn:Ed; [|done].
    destruct Hn. exists row0. by rewrite Ed.
  - intros env'. pose proof (listUndrained_nil _ Hall) as E. unfold outbox_one, outbox_run, repairGitOpsOutbox.
    rewrite !state_bind, !effects_bind, !result_get, !state_get, !effects_get, E. done.
Qed.

(** ** A mark has an announcement *)

(** A row that is newly marked was announced, or had no news. *)
Definition told (s s' : Outbox) (effs : list OutboxEffect) : Prop := forall id row',
  od_outbox (ob_db s') !! id = Some row' -> is_Some (ox_drained_at row') ->
  (exists row, od_outbox (ob_db s) !! id = Some row /\ is_Some (ox_drained_at row) /\ same_row row row') \/
  (exists env n inserted, OE_notice n inserted ∈ effs /\ announces env row' n) \/ without_news row'.

Lemma announces_same env row row' n : same_row row row' -> announces env row n -> announces env row' n.
Proof. unfold announces. intros [-> ->]. done. Qed.
Lemma without_news_same row row' : same_row row row' -> without_news row -> without_news row'.
Proof. unfold without_news. intros [-> ->]. done. Qed.

Lemma told_app a b c e1 e2 : told a b e1 -> told b c e2 -> told a c (e1 ++ e2).
Proof.
  intros H1 H2 id row' E Hd. destruct (H2 id row' E Hd) as [(row & E1 & Hd1 & [S1 V1])|[(env & n & i & Hin & Ha)|Hw]].
  - destruct (H1 id row E1 Hd1) as [(row0 & E0 & Hd0 & [S0 V0])|[(env & n & i & Hin & Ha)|Hw]].
    + left. exists row0. split_and!; [done..|]. split; congruence.
    + right; left. exists env, n, i. split; [apply elem_of_app; by left|]. by eapply announces_same.
    + right; right. by eapply without_news_same.
  - right; left. exists env, n, i. split; [apply elem_of_app; by right|done].
  - by right; right.
Qed.
Lemma told_same s s' effs : od_outbox (ob_db s') = od_outbox (ob_db s) -> told s s' effs.
Proof. intros E id row. rewrite E. intros Hrow Hd. left. exists row. by split_and!. Qed.

Lemma told_mark id at_ s effs : (forall row, od_outbox (ob_db s) !! id = Some row ->
    (exists env n inserted, OE_notice n inserted ∈ effs /\ announces env row n) \/ without_news row) ->
  told s (state (markDrained id at_) s) effs.
Proof.
  intros H id' row'. unfold markDrained. rewrite state_modify. simpl. rewrite lookup_alter. case_decide as E; [subst id'|].
  - destruct (od_outbox (ob_db s) !! id) as [row|] eqn:Erow; [|done]. simpl. intros [= <-] _.
    assert (same_row row (match ox_drained_at row with None => mkOutboxRow (ox_payload_json row) (ox_payload_version row)
      (ox_created_at row) at_ (Some at_) | Some _ => row end)) as Hs by by destruct (ox_drained_at row).
    destruct (H row eq_refl) as [(env & n & i & Hin & Ha)|Hw].
    + right; left. exists env, n, i. split; [done|]. by eapply announces_same.
    + right; right. by eapply without_news_same.
  - intros Hrow Hd. left. exists row'. by split_and!.
Qed.

Lemma told_addNotice n s effs : told s (state (addNotificationHistory n) s) effs.
Proof. apply told_same. rewrite addNotice_state. by destruct (notice_inserted n (ob_db s)). Qed.

Lemma told_drainRow env id s : told s (state (drainRow env id) s) (effects (drainRow env id) s).
Proof.
  destruct (drain_cases env id s) as [|row n Hrow Hd Ha|row n Hrow Hd Ha|row Hrow Hd Hw]; [by apply told_same|apply told_addNotice| |].
  - rewrite <-(app_nil_l (effects _ _)). eapply told_app; [apply told_addNotice|]. apply told_mark. intros row' Hrow'. left.
    rewrite addNotice_effects. exists env, n, (notice_inserted n (ob_db s)). split; [left|].
    rewrite addNotice_state in Hrow'. destruct (notice_inserted n (ob_db s)); simpl in Hrow'; by simplify_eq.
  - apply told_mark. intros row' Hrow'. right. by simplify_eq.
Qed.

Lemma told_for_each {A} (f : A -> OM unit) l s : (forall x s, told s (state (f x) s) (effects (f x) s)) ->
  told s (state (for_each f l) s) (effects (for_each f l) s).
Proof.
  intros Hf. revert s. induction l as [|x l IH]; intros s; [by apply told_same|]. simpl. rewrite state_bind, effects_bind.
  eapply told_app; [apply Hf|apply IH].
Qed.

Lemma told_announce env x s : told s (state (announceRow json_parse env x) s) (effects (announceRow json_parse env x) s).
Proof.
  unfold announceRow. rewrite state_bind, effects_bind, result_get, state_get, effects_get. simpl app.
  destruct (negb _); [by apply told_same|]. rewrite state_bind, effects_bind, state_tell.
  apply (told_app s s); [by apply told_same|].
  set (m := if bool_decide (is_Some (planOf x.2)) then drainRow env x.1 else skip).
  assert (told s (state m s) (effects m s)) as Hm.
  { unfold m. destruct (bool_decide (is_Some (planOf x.2))); [apply told_drainRow|by apply told_same]. }
  rewrite state_bind, effects_bind. apply (told_app s (state m s)); [exact Hm|]. apply told_same. by destruct (ob_sink s).
Qed.

Lemma told_transition w s : told s (state (transition json_stringify w) s) [].
Proof.
  intros id row'. unfold transition. rewrite state_modify.
  pose proof (work_keeps (fun d => forall id row', od_outbox d !! id = Some row' -> is_Some (ox_drained_at row') ->
    od_outbox (ob_db s) !! id = Some row')) as K.
  assert (forall w d pending, (forall id row', od_outbox d !! id = Some row' -> is_Some (ox_drained_at row') ->
    od_outbox (ob_db s) !! id = Some row') -> forall id row', od_outbox (runWork json_stringify w (d, pending)).1.1 !! id = Some row' ->
    is_Some (ox_drained_at row') -> od_outbox (ob_db s) !! id = Some row') as K'.
  { apply K. intros id0 r d pending Hd. unfold insertHistory. destruct (existsb _ _); [done|]. case_bool_decide; [done|].
    destruct (planOf r) as [p|]; [|done]. simpl. intros id1 row1. destruct (od_outbox d !! id0) eqn:E0; [apply Hd|].
    rewrite lookup_insert. case_decide; [|apply Hd]. intros [= <-] [? H1]. by destruct p. }
  specialize (K' w (ob_db s) [] (fun _ _ H _ => H) id row').
  destruct (runWork json_stringify w (ob_db s, [])) as [[d pending] ok]. simpl in *. intros Hrow Hd. left. exists row'.
  split_and!; [by apply K'|done|done].
Qed.

Lemma told_run ev s : told s (one s ev) (effects (run ev) s).
Proof.
  unfold outbox_one. destruct ev; unfold outbox_run.
  - apply told_transition.
  - apply told_transition.
  - rewrite state_bind, effects_bind. eapply told_app; [|apply told_same; by destruct (bool_decide _)]. unfold drain.
    rewrite state_bind, effects_bind, result_get, state_get, effects_get. simpl app. destruct (negb _); [by apply told_same|].
    rewrite state_bind, effects_bind, state_modify. apply (told_app s (mkOutbox (ob_db s) [] false (ob_sink s))); [by apply told_same|].
    apply told_for_each. intros. apply told_announce.
  - rewrite state_bind, effects_bind. eapply told_app; [|apply told_same; by destruct (bool_decide _)]. unfold repairGitOpsOutbox.
    rewrite state_bind, effects_bind, result_get, state_get, effects_get. simpl app. apply told_for_each. intros. apply told_drainRow.
  - by apply told_same.
  - by apply told_same.
  - apply told_addNotice.
  - by apply told_same.
Qed.

Lemma told_runs l s : told s (runs l s) (trace l s).
Proof. revert s. induction l as [|ev l IH]; intros s; [by apply told_same|]. simpl. eapply told_app; [apply told_run|apply IH]. Qed.

(** Nothing is marked in silence. A row is only marked as drained when its decision was
    announced: the notification was written, with the level, the category and the text
    of the decision, or its key was already there. *)
Theorem marked_was_announced l id row : prints_flat -> let s := runs l emptyOutbox in all_producible (ob_db s) ->
  od_outbox (ob_db s) !! id = Some row -> is_Some (ox_drained_at row) ->
  exists r p env inserted, od_history (ob_db s) !! id = Some r /\ planOf r = Some p /\
    OE_notice (notificationOf env id r p) inserted ∈ trace l emptyOutbox.
Proof.
  intros Hj s Hprod Hrow Hd. pose proof (oi_matches _ (inv_runs l _ inv_empty) id) as M. fold s in M. rewrite Hrow in M.
  destruct M as (r & p & Hr & Hp & Hs). exists r, p.
  destruct (told_runs l emptyOutbox id row Hrow Hd) as [(row0 & E0 & _)|[(env & n & i & Hin & Ha)|Hw]].
  - simpl in E0. by rewrite lookup_empty in E0.
  - exists env, i. by rewrite <-(row_announces env id r p row n Hj Hp (Hprod id r p Hr Hp) Hs Ha).
  - by destruct (row_has_news id r p row Hj Hp (Hprod id r p Hr Hp) Hs).
Qed.

(** ** What the macrotask announces *)

Definition is_metric (e : OutboxEffect) : bool := match e with OE_metric _ _ => true | _ => false end.
Definition is_announcement (e : OutboxEffect) : bool := match e with OE_announce _ _ _ _ => true | _ => false end.
Definition metric_of (x : PendingRow) : OutboxEffect := OE_metric (hs_stage x.2) (hs_outcome x.2).
Definition announcement_of (x : PendingRow) : OutboxEffect :=
  OE_announce (hs_stage x.2) (ac_id (hs_application x.2)) (ac_stack_name (hs_application x.2)) (hs_at x.2).

(** A row that is queued and still in the table. *)
Definition survives (d : OutboxDb) (x : PendingRow) : Prop := is_Some (od_history d !! x.1).
#[export] Instance survives_dec d x : Decision (survives d x).
Proof. unfold survives. apply _. Defined.

Lemma drainRow_quiet P env id s : (forall n i, P (OE_notice n i) = false) ->
  filter (fun e => Is_true (P e)) (effects (drainRow env id) s) = [].
Proof.
  intros HP. destruct (drain_cases env id s); rewrite ?addNotice_effects, ?filter_cons, ?HP, ?decide_False by (by intros []); done.
Qed.

Lemma announce_row_exact env x s : (forall id, dr_survives env id = true) ->
  let effs := effects (announceRow json_parse env x) s in
  filter (fun e => Is_true (is_metric e)) effs = (if decide (survives (ob_db s) x) then [metric_of x] else []) /\
  filter (fun e => Is_true (is_announcement e)) effs = (if decide (survives (ob_db s) x) then if ob_sink s then [announcement_of x] else [] else []).
Proof.
  intros Henv effs. unfold effs, announceRow. rewrite effects_bind, result_get, state_get, effects_get, Henv. simpl app.
  unfold survives. case_bool_decide as Hs; simpl negb; cbv iota; [rewrite !decide_True by done|by rewrite !decide_False by done].
  rewrite effects_bind, state_tell, effects_tell, effects_bind, !filter_app.
  assert (forall P, (forall n i, P (OE_notice n i) = false) ->
    filter (fun e => Is_true (P e)) (effects (if bool_decide (is_Some (planOf x.2)) then drainRow env x.1 else skip) s) = []) as Hq.
  { intros P HP. destruct (bool_decide _); [by apply drainRow_quiet|done]. }
  rewrite !Hq by done. unfold when. destruct (ob_sink s); split; reflexivity.
Qed.

Definition same_memory (s s' : Outbox) : Prop :=
  ob_pending s' = ob_pending s /\ ob_scheduled s' = ob_scheduled s /\ ob_sink s' = ob_sink s.
Lemma memory_drainRow env id s : same_memory s (state (drainRow env id) s).
Proof.
  destruct (drain_cases env id s); unfold markDrained; rewrite ?state_modify, ?addNotice_state; by try destruct (notice_inserted _ _).
Qed.
Lemma memory_rows env l s : same_memory s (state (for_each (drainRow env) l) s).
Proof.
  revert s. induction l as [|id l IH]; intros s; [done|]. simpl. rewrite state_bind.
  destruct (memory_drainRow env id s) as (E1 & E2 & E3), (IH (state (drainRow env id) s)) as (K1 & K2 & K3).
  unfold same_memory. split_and!; congruence.
Qed.

Lemma mono_announce env x s : mono s (state (announceRow json_parse env x) s) /\ same_memory s (state (announceRow json_parse env x) s).
Proof.
  unfold announceRow. rewrite state_bind, result_get, state_get. destruct (negb _); [by split; [apply mono_refl|]|].
  rewrite state_bind, state_tell, state_bind. set (m := if bool_decide _ then _ else skip).
  assert (mono s (state m s) /\ same_memory s (state m s)) as Hm.
  { unfold m. destruct (bool_decide _); [split; [apply mono_drainRow|apply memory_drainRow]|by split; [apply mono_refl|]]. }
  unfold when. by destruct (ob_sink s).
Qed.
Lemma memory_announces env l s : same_memory s (state (for_each (announceRow json_parse env) l) s).
Proof.
  revert s. induction l as [|x l IH]; intros s; [done|]. simpl. rewrite state_bind.
  destruct (mono_announce env x s) as [_ (E1 & E2 & E3)], (IH (state (announceRow json_parse env x) s)) as (K1 & K2 & K3).
  unfold same_memory. split_and!; congruence.
Qed.

(** What is queued has scheduled the macrotask. *)
Definition scheduled (s : Outbox) : Prop := ob_pending s <> [] -> ob_scheduled s = true.

Lemma scheduled_run ev s : scheduled s -> scheduled (one s ev).
Proof.
  intros Hs. assert (forall w, scheduled (state (transition json_stringify w) s)) as Ht.
  { intros w. unfold transition, scheduled in *. rewrite state_modify.
    destruct (runWork json_stringify w (ob_db s, [])) as [[d pending] ok]. simpl. intros Hp. case_bool_decide as Hn; subst.
    - rewrite app_nil_r in Hp. by rewrite Hs.
    - by rewrite orb_true_r. }
  assert (forall b s, scheduled s -> scheduled (state (when b restart) s)) as Hr.
  { intros [] s0 H0; [|exact H0]. intros Hn. by destruct Hn. }
  unfold outbox_one. destruct ev; unfold outbox_run; try done; try apply Ht.
  - rewrite state_bind. apply Hr. unfold drain. rewrite state_bind, result_get, state_get. destruct (negb _); [done|].
    rewrite state_bind, state_modify.
    pose proof (memory_announces env (cut_at dies (ob_pending s)) (mkOutbox (ob_db s) [] false (ob_sink s))) as (E & _).
    intros Hp. by rewrite E in Hp.
  - rewrite state_bind. apply Hr. unfold repairGitOpsOutbox. rewrite state_bind, result_get, state_get.
    pose proof (memory_rows env (cut_at dies (listUndrained (ob_db s))) s) as (E1 & E2 & _). unfold scheduled. by rewrite E1, E2.
  - by apply (Hr true).
  - unfold outbox_run. rewrite addNotice_state. by destruct (notice_inserted n (ob_db s)).
Qed.
Lemma scheduled_runs l s : scheduled s -> scheduled (runs l s).
Proof. revert s. induction l as [|ev l IH]; intros s Hs; [done|]. simpl. by apply IH, scheduled_run. Qed.

Lemma announce_rows_exact env l s : (forall id, dr_survives env id = true) ->
  let effs := effects (for_each (announceRow json_parse env) l) s in
  filter (fun e => Is_true (is_metric e)) effs = metric_of <$> filter (survives (ob_db s)) l /\
  filter (fun e => Is_true (is_announcement e)) effs = if ob_sink s then announcement_of <$> filter (survives (ob_db s)) l else [].
Proof.
  intros Henv. revert s. induction l as [|x l IH]; intros s; [by destruct (ob_sink s)|]. cbn [for_each].
  rewrite effects_bind, !filter_app. destruct (announce_row_exact env x s Henv) as [-> ->].
  destruct (mono_announce env x s) as [[Eh _] (_ & _ & Es)]. destruct (IH (state (announceRow json_parse env x) s)) as [-> ->].
  rewrite Es. assert (forall l, filter (survives (ob_db (state (announceRow json_parse env x) s))) l = filter (survives (ob_db s)) l) as ->.
  { intros l0. apply list_filter_iff. intros y. unfold survives. by rewrite Eh. }
  rewrite !filter_cons. by destruct (decide (survives (ob_db s) x)), (ob_sink s).
Qed.

(** What is announced is what committed. When the macrotask runs and the store answers,
    every queued transition whose row is still in the table is counted once and, with a
    sink installed, broadcast once, in the order of the inserts; one that was rolled
    back is not; and the queue is empty. *)
Theorem drain_announces_committed l env : (forall id, dr_survives env id = true) -> let s := runs l emptyOutbox in
  let effs := effects (run (EvDrain env None)) s in
  filter (fun e => Is_true (is_metric e)) effs = metric_of <$> filter (survives (ob_db s)) (ob_pending s) /\
  filter (fun e => Is_true (is_announcement e)) effs =
    (if ob_sink s then announcement_of <$> filter (survives (ob_db s)) (ob_pending s) else []) /\
  ob_pending (one s (EvDrain env None)) = [].
Proof.
  intros Henv s effs. assert (scheduled s) as Hs by (apply scheduled_runs; intros Hn; by destruct Hn).
  unfold effs, outbox_one, outbox_run. rewrite state_bind, effects_bind. unfold when.
  rewrite bool_decide_eq_false_2 by (by intros []). rewrite state_skip, effects_skip, app_nil_r. unfold drain.
  rewrite state_bind, effects_bind, result_get, state_get, effects_get. simpl app.
  destruct (ob_scheduled s) eqn:E.
  - simpl negb. cbv iota. rewrite state_bind, effects_bind, state_modify, effects_modify. simpl app. change (cut_at None (ob_pending s)) with (ob_pending s).
    destruct (announce_rows_exact env (ob_pending s) (mkOutbox (ob_db s) [] false (ob_sink s)) Henv) as [-> ->].
    split_and!; [done..|]. by destruct (memory_announces env (ob_pending s) (mkOutbox (ob_db s) [] false (ob_sink s))).
  - destruct (ob_pending s) eqn:Ep; [by destruct (ob_sink s)|]. unfold scheduled in Hs. rewrite Ep in Hs. by rewrite Hs in E.
Qed.
End json_text.

(** ** Names *)

(** The same payload without the name of its stack. *)
Definition settled_unnamed (p : SettledAttemptPayload) : SettledAttemptPayload :=
  mkSettled (sp_settledHistoryId p) (sp_applicationId p) (sp_operationId p) None (sp_nodeId p) (sp_outcome p) (sp_nextAction p)
    (sp_reason p) (sp_trigger p) (sp_actor p) (sp_at p) (sp_candidateGenerationId p) (sp_candidateState p).
Definition event_unnamed (p : GitOpsEventPayload) : GitOpsEventPayload :=
  mkEventPayload (ep_historyId p) (ep_applicationId p) (ep_operationId p) (ep_stage p) None (ep_nodeId p) (ep_actor p) (ep_reason p)
    (ep_at p).

Lemma label_hidden env id name : option_map fst (dr_app env id) <> Some active ->
  notificationLabel env id name = notificationLabel env id None.
Proof.
  intros H. unfold notificationLabel, classifyHistoryRow. simpl. destruct (truthy name); [|done]. by rewrite bool_decide_eq_false_2.
Qed.
Lemma label_visible env id name x label : notificationLabel env id name = (Some x, label) ->
  option_map fst (dr_app env id) = Some active /\ name = Some x /\ x <> "" /\ label = x.
Proof.
  unfold notificationLabel, classifyHistoryRow. destruct name as [[|c y]|]; simpl; [done| |done].
  case_bool_decide; [|done]. simpl. by intros [= <- <-].
Qed.

(** A notification names only live stacks. It carries the name of a stack only when the
    application is active as it is written, and then the recorded name; of any other
    application nothing in it, its text included, depends on the name of the stack. *)
Theorem notices_name_live_stacks env p q :
  (forall x, nt_stack_name (settledNotification env p) = Some x -> option_map fst (dr_app env (sp_applicationId p)) = Some active /\
     sp_stackName p = Some x /\ x <> "") /\
  (forall x, nt_stack_name (eventNotification env q) = Some x -> option_map fst (dr_app env (ep_applicationId q)) = Some active /\
     ep_stackName q = Some x /\ x <> "") /\
  (option_map fst (dr_app env (sp_applicationId p)) <> Some active ->
     settledNotification env p = settledNotification env (settled_unnamed p)) /\
  (option_map fst (dr_app env (ep_applicationId q)) <> Some active -> eventNotification env q = eventNotification env (event_unnamed q)).
Proof.
  unfold settledNotification, eventNotification. split_and!.
  - destruct (notificationLabel env _ _) as [v label] eqn:E. destruct (SETTLED_FAMILY_NOTIFICATION _). simpl. intros x ->.
    by apply label_visible in E as (? & ? & ? & _).
  - destruct (notificationLabel env _ _) as [v label] eqn:E. destruct (GITOPS_NOTIFICATION_META _) as [[]]. simpl. intros x ->.
    by apply label_visible in E as (? & ? & ? & _).
  - intros H. by rewrite (label_hidden env _ (sp_stackName p) H).
  - intros H. by rewrite (label_hidden env _ (ep_stackName q) H).
Qed.
