(* ===== verification/OutboxRuns.v ===== *)
(** * GitOps outbox: concrete runs

    A printer and a parser of flat objects, and runs of the outbox over them: the
    witnesses of the theorems of OutboxProps.v. *)

From Stdlib Require Import QArith Qcanon.
From stdpp Require Import countable.
From S2P Require Import Prelude Json Reconcile Outbox OutboxProps.

#[global] Open Scope Z_scope.

(** ** A text for flat objects *)

Definition bit0 : Ascii.ascii := Ascii.ascii_of_nat 48.
Definition bit1 : Ascii.ascii := Ascii.ascii_of_nat 49.
Fixpoint bits (p : positive) : string :=
  match p with xH => "" | xO p => String bit0 (bits p) | xI p => String bit1 (bits p) end.
Fixpoint unbits (s : string) : option positive :=
  match s with
  | EmptyString => Some xH
  | String c s => if decide (c = bit0) then xO <$> unbits s else if decide (c = bit1) then xI <$> unbits s else None
  end.
Lemma unbits_bits p : unbits (bits p) = Some p.
Proof. by induction p as [p IH|p IH|]; simpl; rewrite ?IH. Qed.

Definition flat_code (v : Json) : option (unit + string + Z) :=
  match v with JNull => Some (inl (inl tt)) | JStr s => Some (inl (inr s)) | JNum q => inr <$> num_int q | _ => None end.
Definition flat_json (x : unit + string + Z) : Json :=
  match x with inl (inl _) => JNull | inl (inr s) => JStr s | inr z => JInt z end.

Lemma flat_code_inv v : flat_value v -> exists x, flat_code v = Some x /\ flat_json x = v.
Proof.
  destruct v as [| |q|s| |]; simpl; try done; [by eexists| |by eexists].
  intros [z Hz]. exists (inr z). rewrite Hz. split; [done|]. by rewrite (num_int_Some q z Hz).
Qed.

Definition demo_stringify (j : Json) : string :=
  match j with
  | JObj fields => match mapM (fun kv => (fun x => (kv.1, x)) <$> flat_code kv.2) fields with
                   | Some l => bits (encode l) | None => "" end
  | _ => ""
  end.
Definition demo_parse (s : string) : option Json :=
  p ← unbits s; l ← (decode p : option (list (string * (unit + string + Z)))); Some (JObj (prod_map id flat_json <$> l)).

Lemma demo_prints : prints_flat demo_parse demo_stringify.
Proof.
  intros fields Hflat. assert (exists l, mapM (fun kv => (fun x => (kv.1, x)) <$> flat_code kv.2) fields = Some l /\
    prod_map id flat_json <$> l = fields) as (l & E & El).
  { induction Hflat as [|[k v] fields Hv _ (l & E & El)]; [by exists []|]. destruct (flat_code_inv v Hv) as (x & Ex & Exv).
    exists ((k, x) :: l). cbn [mapM fst snd]. rewrite Ex. simpl. rewrite E. split; [done|].
    change ((k, flat_json x) :: (prod_map id flat_json <$> l) = (k, v) :: fields). by rewrite Exv, El. }
  unfold demo_stringify, demo_parse. rewrite E, unbits_bits. cbn [mbind option_bind]. rewrite decode_encode. cbn [mbind option_bind]. by rewrite El.
Qed.

(** ** Runs *)

Definition web_cols : AppCols := mkAppCols "app" direct (Some "web") (Some "gen-1") None None.
Definition blueprint_cols : AppCols := mkAppCols "bp" blueprint None None None None.

Definition settles (op : string) (outcome : string) (at_ : Z) : HistoryInsert :=
  mkInsert web_cols None "source" op "source_reconcile_settled" "committed" "poll" None
    [("outcome", JStr outcome); ("nextAction", JStr "review"); ("reason", JStr "A revision waits for review.")] None at_.
Definition pauses (op : string) (at_ : Z) : HistoryInsert :=
  mkInsert blueprint_cols (Some 3) "rollout" op "rollout_paused" "committed" "operator" (Some "ada")
    [("pauseReason", JStr "maintenance")] None at_.

(** A store that answers; one that cannot mark. *)
Definition ok_env (at_ : Z) : DrainEnv :=
  mkDrainEnv at_ (fun id => if decide (id = "app") then Some (active, None) else Some (active, Some 7))
    (fun _ => Some "edge") 1 (fun _ => true) (fun _ => true) (fun _ => true) (fun _ => true).
Definition unmarked_env (at_ : Z) : DrainEnv :=
  mkDrainEnv at_ (dr_app (ok_env at_)) (dr_blueprint (ok_env at_)) 1 (fun _ => true) (fun _ => true) (fun _ => true) (fun _ => false).

(** Two attempts settle, a rollout is paused in a transaction with a nested one that
    throws, and the process dies after the first row was notified but not marked. *)
Definition demo_crash : list OutboxEvent :=
  [EvTransition [W_insert "h1" (settles "op1" "pending_review" 100)];
   EvTransition [W_insert "h2" (pauses "op2" 200); W_tx [W_insert "h3" (pauses "op3" 201)] false];
   EvDrain (unmarked_env 300) (Some 1%nat)].

Local Notation demo_runs l := (foldl (outbox_one demo_parse demo_stringify) emptyOutbox l).
Local Notation demo_trace l := (outbox_effects demo_parse demo_stringify l emptyOutbox).

Definition messages (effs : list OutboxEffect) : list (string * bool) :=
  omap (fun e => match e with OE_notice n b => Some (nt_message n, b) | _ => None end) effs.

Lemma demo_crash_run :
  messages (demo_trace (demo_crash ++ [EvRepair (ok_env 400) None])) =
    [("GitOps pending_review for web: A revision waits for review.", true);
     ("GitOps pending_review for web: A revision waits for review.", false);
     ("GitOps rollout paused for Blueprint " +:+ dquote +:+ "edge" +:+ dquote +:+ ": maintenance", true)].
Proof. vm_compute. reflexivity. Qed.

(** The rows that committed. *)
Lemma demo_history l : od_history (ob_db (demo_runs l)) = {["h1" := settles "op1" "pending_review" 100; "h2" := pauses "op2" 200]} ->
  all_producible (ob_db (demo_runs l)).
Proof.
  intros E id r p. rewrite E, lookup_insert, lookup_singleton.
  repeat case_decide; subst; try done; intros [= <-]; vm_compute; intros [= <-]; by repeat split; intros ?.
Qed.

Lemma repair_completes_witness :
  let s := demo_runs demo_crash in
  let s' := outbox_one demo_parse demo_stringify s (EvRepair (ok_env 400) None) in
  ((forall id row, od_outbox (ob_db s') !! id = Some row -> is_Some (ox_drained_at row)) /\
   (forall id r p, od_history (ob_db s) !! id = Some r -> planOf r = Some p -> ~ drained id s ->
      key_taken (rowKey id r p) (ob_db s') = true) /\
   (forall env', outbox_one demo_parse demo_stringify s' (EvRepair env' None) = s' /\
      effects (outbox_run demo_parse demo_stringify (EvRepair env' None)) s' = [])) /\
  map_to_list (ox_drained_at <$> od_outbox (ob_db s)) = [("h1", None); ("h2", None)].
Proof.
  split; [|vm_compute; reflexivity].
  apply (repair_completes demo_parse demo_stringify demo_crash (ok_env 400) demo_prints).
  - by intros id.
  - apply demo_history. vm_compute. reflexivity.
Defined.

Definition demo_repaired : list OutboxEvent := demo_crash ++ [EvRepair (ok_env 400) None].
Definition demo_row : OutboxRow := default (mkOutboxRow "" 0 0 0 None) (od_outbox (ob_db (demo_runs demo_repaired)) !! "h2").

Lemma marked_was_announced_witness : let s := demo_runs demo_repaired in ox_drained_at demo_row = Some 400 /\
  exists r p env inserted, od_history (ob_db s) !! "h2" = Some r /\ planOf r = Some p /\
    OE_notice (notificationOf env "h2" r p) inserted ∈ demo_trace demo_repaired.
Proof.
  split; [vm_compute; reflexivity|].
  apply (marked_was_announced demo_parse demo_stringify demo_repaired "h2" demo_row demo_prints).
  - apply demo_history. vm_compute. reflexivity.
  - vm_compute. reflexivity.
  - vm_compute. by eexists.
Defined.

Lemma announced_at_most_once_witness :
  let s := demo_runs demo_crash in let l := [EvRepair (ok_env 400) None; EvRepair (ok_env 500) None] in
  let k := rowKey "h2" (pauses "op2" 200) (plan_event ns_rollout_paused) in
  ((notices k (outbox_effects demo_parse demo_stringify l s) <= 1)%nat /\
   (key_taken k (ob_db s) = true -> notices k (outbox_effects demo_parse demo_stringify l s) = 0%nat) /\
   (notices k (outbox_effects demo_parse demo_stringify l s) = 1%nat ->
      key_taken k (ob_db (foldl (outbox_one demo_parse demo_stringify) s l)) = true)) /\
  notices k (outbox_effects demo_parse demo_stringify l s) = 1%nat.
Proof.
  split; [|vm_compute; reflexivity].
  apply (announced_at_most_once demo_parse demo_stringify demo_crash [EvRepair (ok_env 400) None; EvRepair (ok_env 500) None]).
  by repeat constructor.
Defined.

Lemma drain_announces_committed_witness : let s := demo_runs (EvSink true :: take 2 demo_crash) in
  let effs := effects (outbox_run demo_parse demo_stringify (EvDrain (ok_env 300) None)) s in
  (filter (fun e => Is_true (is_metric e)) effs = metric_of <$> filter (survives (ob_db s)) (ob_pending s) /\
   filter (fun e => Is_true (is_announcement e)) effs =
     (if ob_sink s then announcement_of <$> filter (survives (ob_db s)) (ob_pending s) else []) /\
   ob_pending (outbox_one demo_parse demo_stringify s (EvDrain (ok_env 300) None)) = []) /\
  (fst <$> ob_pending s) = ["h1"; "h2"; "h3"] /\ length (filter (fun e => Is_true (is_announcement e)) effs) = 2%nat.
Proof.
  split; [|split; vm_compute; reflexivity].
  by apply (drain_announces_committed demo_parse demo_stringify (EvSink true :: take 2 demo_crash) (ok_env 300)).
Defined.

Lemma notification_keys_exact_witness : let c := Some (mkCandidate "app" "gen-1" cs_awaiting_review) in
  (gitOpsAttemptNotificationKey "op1" c = gitOpsAttemptNotificationKey "op2" c <-> c = c /\ (c = None -> "op1" = "op2")) /\
  (gitOpsEventNotificationDedupeKey "h1" = gitOpsEventNotificationDedupeKey "h2" <-> "h1" = "h2") /\
  gitOpsEventNotificationDedupeKey "h1" <> gitOpsAttemptNotificationKey "op1" c.
Proof. apply notification_keys_exact; by intros x [= <-]. Defined.
