(* ===== verification/HistoryPages.v ===== *)
(** * GitOps history pages (services/gitops/history.ts, the reads; helpers/gitopsHistoryPage.ts)

    A caller walks the audit trail page by page, newest first. Rows are authorized one
    by one after the query, so a page may keep fewer rows than it examined; its cursor
    names the last row examined.

    The table is a list of rows with distinct ids. What a request proves (its
    permissions, the stacks on disk, the life cycle of the applications) is an
    argument. [Number] is exact on decimal digits, a parameter in any other notation;
    [JSON.parse] is a parameter. *)

From Stdlib Require Import QArith Qcanon.
From stdpp Require Import sorting gmap.
From S2P Require Import Prelude Json Reconcile Outbox.

#[global] Open Scope Z_scope.

(** ** Rows, filters, cursors *)

Definition HISTORY_DEFAULT_LIMIT : Z := 50.
Definition HISTORY_MAX_LIMIT : Z := 100.
Definition HISTORY_SCAN_CAP : nat := 1000.
Definition MAX_SAFE_INTEGER : Z := 9007199254740991.

(** The columns the reads use; the others of the table are written, and read elsewhere. *)
Record GitOpsHistoryRow := mkHistoryRow {
  hr_id : string;
  hr_created_at : Z;
  hr_application_id : string;
  hr_target_mode : string;
  hr_stack_name : option string;
  hr_blueprint_id : option Z;
  hr_node_id : option Z;
  hr_repo_url : option string;
  hr_configured_ref : option string;
  hr_commit_sha : option string;
  hr_generation_id : option string;
  hr_artifact_set_id : option string;
  hr_intent_revision_id : option string;
  hr_rollout_candidate_id : option string;
  hr_rollout_generation_id : option string;
  hr_source_acceptance_ref : option string;
  hr_placement_approval_ref : option string;
  hr_rollout_authorization_ref : option string;
  hr_legacy_combined_approval_ref : option string;
  hr_operation_id : string;
  hr_stage : string;
  hr_outcome : string;
  hr_trigger : string;
  hr_actor : option string;
  hr_before_json : string;
  hr_after_json : string;
}.

Record GitOpsHistoryFilters := mkFilters {
  fl_applicationId : option string;
  fl_stackName : option string;
  fl_repoIdentity : option string;
  fl_configuredRef : option string;
  fl_commitSha : option string;
  fl_generationId : option string;
  fl_artifactSetId : option string;
  fl_blueprintId : option Z;
  fl_rolloutCandidateId : option string;
  fl_rolloutGenerationId : option string;
  fl_nodeId : option Z;
  fl_trigger : option string;
  fl_actor : option string;
  fl_outcome : option string;
}.

Record GitOpsHistoryCursor := mkCursor { hc_createdAt : Z; hc_id : string }.

(** *** Numbers *)

Definition is_digit (c : Ascii.ascii) : bool := bool_decide (is_Some (digit c)).
Fixpoint all_digits (s : string) : bool :=
  match s with EmptyString => true | String c s => is_digit c && all_digits s end.

Definition safe (z : Z) : option Z := if (- MAX_SAFE_INTEGER <=? z) && (z <=? MAX_SAFE_INTEGER) then Some z else None.

Section Number.
(** [Number] of a text that is not digits only, when it is a safe integer. *)
Variable other_number : string -> option Z.
Definition Number (s : string) : option Z :=
  if bool_decide (s <> "") && all_digits s then digits None s ≫= safe else other_number s ≫= safe.
End Number.

(** *** Cursors *)

Definition encodeHistoryCursor (c : GitOpsHistoryCursor) : string := pretty (hc_createdAt c) +:+ "." +:+ hc_id c.

Definition is_hex (c : Ascii.ascii) : bool :=
  let n := Z.of_nat (Ascii.nat_of_ascii c) in ((48 <=? n) && (n <=? 57)) || ((97 <=? n) && (n <=? 102)).
Definition is_dash (c : Ascii.ascii) : bool := bool_decide (c = Ascii.ascii_of_nat 45).

(** A text of one character per test. *)
Fixpoint of_shape (tests : list (Ascii.ascii -> bool)) (s : string) : bool :=
  match tests, s with
  | [], EmptyString => true
  | t :: tests, String c s => t c && of_shape tests s
  | _, _ => false
  end.
Definition HISTORY_ID_RE (s : string) : bool :=
  of_shape (replicate 8 is_hex ++ [is_dash] ++ replicate 4 is_hex ++ [is_dash] ++ replicate 4 is_hex ++ [is_dash]
            ++ replicate 4 is_hex ++ [is_dash] ++ replicate 12 is_hex) s.

(** What is before and after the first dot. *)
Fixpoint split_dot (s : string) : option (string * string) :=
  match s with
  | EmptyString => None
  | String c s =>
      if decide (c = Ascii.ascii_of_nat 46) then Some (EmptyString, s)
      else match split_dot s with Some (a, b) => Some (String c a, b) | None => None end
  end.

Definition decodeHistoryCursor (other_number : string -> option Z) (raw : string) : option GitOpsHistoryCursor :=
  match split_dot raw with
  | None => None
  | Some (before, id) =>
      if bool_decide (before = "") || bool_decide (id = "") then None
      else match Number other_number before with
           | None => None
           | Some createdAt => if createdAt <? 0 then None else if HISTORY_ID_RE id then Some (mkCursor createdAt id) else None
           end
  end.

(** ** The query *)

(** [ORDER BY created_at DESC, id DESC] *)
Definition newest_first : relation GitOpsHistoryRow := fun a b =>
  hr_created_at b < hr_created_at a \/ (hr_created_at a = hr_created_at b /\ String.le (hr_id b) (hr_id a)).
#[export] Instance newest_first_dec : RelDecision newest_first.
Proof. intros a b. unfold newest_first. apply _. Defined.

Definition eq_filter {A} `{EqDecision A} (f : option A) (column : option A) : bool :=
  match f with Some v => bool_decide (column = Some v) | None => true end.

Definition matches (f : GitOpsHistoryFilters) (r : GitOpsHistoryRow) : bool :=
  eq_filter (fl_applicationId f) (Some (hr_application_id r)) && eq_filter (fl_stackName f) (hr_stack_name r)
  && eq_filter (fl_repoIdentity f) (hr_repo_url r) && eq_filter (fl_configuredRef f) (hr_configured_ref r)
  && eq_filter (fl_commitSha f) (hr_commit_sha r) && eq_filter (fl_generationId f) (hr_generation_id r)
  && eq_filter (fl_artifactSetId f) (hr_artifact_set_id r) && eq_filter (fl_blueprintId f) (hr_blueprint_id r)
  && eq_filter (fl_rolloutCandidateId f) (hr_rollout_candidate_id r)
  && eq_filter (fl_rolloutGenerationId f) (hr_rollout_generation_id r)
  && match fl_nodeId f with Some n => bool_decide (hr_node_id r = Some n) || bool_decide (hr_node_id r = None) | None => true end
  && eq_filter (fl_trigger f) (Some (hr_trigger r)) && eq_filter (fl_actor f) (hr_actor r)
  && eq_filter (fl_outcome f) (Some (hr_outcome r)).

(** [created_at < ? OR (created_at = ? AND id < ?)] *)
Definition after_cursor (c : option GitOpsHistoryCursor) (r : GitOpsHistoryRow) : bool :=
  match c with
  | None => true
  | Some c => (hr_created_at r <? hc_createdAt c) || ((hr_created_at r =? hc_createdAt c) && String.ltb (hr_id r) (hc_id c))
  end.

Definition queryHistoryRows (table : list GitOpsHistoryRow) (f : GitOpsHistoryFilters) (c : option GitOpsHistoryCursor)
    (scanLimit : nat) : list GitOpsHistoryRow :=
  take scanLimit (merge_sort newest_first (filter (fun r => Is_true (matches f r && after_cursor c r)) table)).

(** ** A page *)

Record GitOpsApprovalRefs := mkApprovals {
  ap_sourceAcceptanceRef : option string;
  ap_placementApprovalRef : option string;
  ap_rolloutAuthorizationRef : option string;
  ap_legacyCombinedApprovalRef : option string;
}.

(** The one limitation an item can carry, [history_json_invalid], with its evidence. *)
Record HistoryJsonInvalid := mkInvalid { inv_before : bool; inv_after : bool }.

Record GitOpsHistoryItem := mkItem {
  hi_id : string;
  hi_createdAt : Z;
  hi_applicationId : string;
  hi_targetMode : string;
  hi_stackName : option string;
  hi_repoIdentity : option string;
  hi_configuredRef : option string;
  hi_blueprintId : option Z;
  hi_nodeId : option Z;
  hi_commitSha : option string;
  hi_generationId : option string;
  hi_artifactSetId : option string;
  hi_intentRevisionId : option string;
  hi_rolloutCandidateId : option string;
  hi_rolloutGenerationId : option string;
  hi_approvals : GitOpsApprovalRefs;
  hi_operationId : string;
  hi_stage : string;
  hi_outcome : string;
  hi_trigger : string;
  hi_actor : option string;
  hi_before : option (list (string * Json));
  hi_after : option (list (string * Json));
  hi_limitations : list HistoryJsonInvalid;
}.

(** An item with the owning instance's answers beside it. *)
Record GitOpsHistoryPageItem := mkPageItem {
  pi_item : GitOpsHistoryItem;
  pi_stackResourcePresent : bool;
  pi_applicationLifecycleStatus : option GitOpsLifecycleStatus;
}.

Section page.
Variable json_parse : string -> option Json.

Definition decodeHistoryDelta (raw : string) : option (list (string * Json)) :=
  match json_parse raw with Some (JObj fields) => Some fields | _ => None end.

Definition toHistoryItem (r : GitOpsHistoryRow) : GitOpsHistoryItem :=
  let before := decodeHistoryDelta (hr_before_json r) in
  let after := decodeHistoryDelta (hr_after_json r) in
  let null (o : option (list (string * Json))) := match o with None => true | Some _ => false end in
  let limitations := if null before || null after then [mkInvalid (null before) (null after)] else [] in
  mkItem (hr_id r) (hr_created_at r) (hr_application_id r) (hr_target_mode r) (hr_stack_name r) (hr_repo_url r)
    (hr_configured_ref r) (hr_blueprint_id r) (hr_node_id r) (hr_commit_sha r) (hr_generation_id r)
    (hr_artifact_set_id r) (hr_intent_revision_id r) (hr_rollout_candidate_id r) (hr_rollout_generation_id r)
    (mkApprovals (hr_source_acceptance_ref r) (hr_placement_approval_ref r) (hr_rollout_authorization_ref r)
      (hr_legacy_combined_approval_ref r))
    (hr_operation_id r) (hr_stage r) (hr_outcome r) (hr_trigger r) (hr_actor r) before after limitations.

Inductive HistoryScope := per_row | authorized_stack (stackName : string).

(** What the caller may read, and the state of the applications and stacks. *)
Record Reader := mkReader {
  rd_isAdmin : bool;
  rd_mayAudit : bool;
  rd_mayReadStack : string -> bool;
  rd_present : string -> bool;
  rd_lifecycle : string -> option GitOpsLifecycleStatus;
  rd_liveDirect : string -> option string;    (* the live Direct application of a stack *)
}.

Definition scopedApplicationId (who : Reader) (scope : HistoryScope) : option string :=
  match scope with authorized_stack name => rd_liveDirect who name | per_row => None end.

Definition resourcePresent (who : Reader) (r : GitOpsHistoryRow) : bool :=
  match hr_stack_name r with Some name => rd_present who name | None => false end.

Definition readable (who : Reader) (scope : HistoryScope) (r : GitOpsHistoryRow) : bool :=
  bool_decide (scopedApplicationId who scope = Some (hr_application_id r))
  || satisfiesGitOpsRead (rd_isAdmin who) (rd_mayAudit who) (rd_mayReadStack who)
       (classifyHistoryRow (hr_stack_name r) (rd_lifecycle who (hr_application_id r)) (resourcePresent who r)).

Definition pageItem (who : Reader) (r : GitOpsHistoryRow) : GitOpsHistoryPageItem :=
  mkPageItem (toHistoryItem r) (resourcePresent who r) (rd_lifecycle who (hr_application_id r)).

(** The loop over the rows of the window: the items, the last row examined, and whether
    the window was exhausted. *)
Fixpoint examine (who : Reader) (scope : HistoryScope) (limit : nat) (rows : list GitOpsHistoryRow)
    (items : list GitOpsHistoryPageItem) (last : option GitOpsHistoryRow)
    : list GitOpsHistoryPageItem * option GitOpsHistoryRow * bool :=
  match rows with
  | [] => (items, last, true)
  | r :: rows =>
      if (length items =? limit)%nat then (items, last, false)
      else examine who scope limit rows (if readable who scope r then items ++ [pageItem who r] else items) (Some r)
  end.

Record GitOpsHistoryPage := mkPage { pg_items : list GitOpsHistoryPageItem; pg_nextCursor : option string }.

Definition buildHistoryPage (table : list GitOpsHistoryRow) (who : Reader) (f : GitOpsHistoryFilters) (limit : nat)
    (c : option GitOpsHistoryCursor) (scope : HistoryScope) : GitOpsHistoryPage :=
  let rows := queryHistoryRows table f c HISTORY_SCAN_CAP in
  let '(items, last, exhausted) := examine who scope limit rows [] None in
  let moreMayFollow := negb exhausted || (length rows =? HISTORY_SCAN_CAP)%nat in
  mkPage items (if moreMayFollow then (fun r => encodeHistoryCursor (mkCursor (hr_created_at r) (hr_id r))) <$> last else None).

(** ** A request *)

(** The query parameters that are strings. *)
Record HistoryQuery := mkQuery {
  qu_applicationId : option string;
  qu_repoIdentity : option string;
  qu_configuredRef : option string;
  qu_commitSha : option string;
  qu_generationId : option string;
  qu_artifactSetId : option string;
  qu_rolloutCandidateId : option string;
  qu_rolloutGenerationId : option string;
  qu_trigger : option string;
  qu_actor : option string;
  qu_blueprintId : option string;
  qu_nodeId : option string;
  qu_outcome : option string;
  qu_cursor : option string;
  qu_limit : option string;
  qu_gitopsLocalTarget : option string;
}.

Definition OUTCOMES : list string := ["committed"; "failed"; "skipped"; "superseded"; "recovered"; "unknown"].

Definition stringParam (v : option string) : option string := truthy v.

Section request.
Variable other_number : string -> option Z.

(** A filter that is a number: absent, a safe integer, or refused. *)
Definition int_param (key : string) (v : option string) : string + option Z :=
  match stringParam v with
  | None => inr None
  | Some raw => match Number other_number raw with Some z => inr (Some z) | None => inl (key +:+ " must be an integer") end
  end.

Definition parseHistoryFilters (q : HistoryQuery) : string + GitOpsHistoryFilters :=
  match int_param "blueprintId" (qu_blueprintId q) with
  | inl e => inl e
  | inr blueprintId =>
      match int_param "nodeId" (qu_nodeId q) with
      | inl e => inl e
      | inr nodeId =>
          let outcome := stringParam (qu_outcome q) in
          if match outcome with Some o => negb (bool_decide (o ∈ OUTCOMES)) | None => false end
          then inl "outcome must be one of: committed, failed, skipped, superseded, recovered, unknown"
          else inr (mkFilters (stringParam (qu_applicationId q)) None (stringParam (qu_repoIdentity q))
                 (stringParam (qu_configuredRef q)) (stringParam (qu_commitSha q)) (stringParam (qu_generationId q))
                 (stringParam (qu_artifactSetId q)) blueprintId (stringParam (qu_rolloutCandidateId q))
                 (stringParam (qu_rolloutGenerationId q)) nodeId (stringParam (qu_trigger q)) (stringParam (qu_actor q)) outcome)
      end
  end.

(** [proxied]: the request came through a node proxy or a pilot tunnel. *)
Definition resolveLocalTargetNodeId (q : HistoryQuery) (proxied : bool) (defaultNodeId : Z) : string + option Z :=
  if negb (bool_decide (stringParam (qu_gitopsLocalTarget q) = Some "1")) then inr None
  else if proxied then inr (Some defaultNodeId)
  else inl "gitopsLocalTarget is not accepted on a direct request".

Definition parseLimit (v : option string) : Z :=
  match stringParam v with
  | None => HISTORY_DEFAULT_LIMIT
  | Some raw => match Number other_number raw with
                | Some z => if z <? 1 then HISTORY_DEFAULT_LIMIT else Z.min z HISTORY_MAX_LIMIT
                | None => HISTORY_DEFAULT_LIMIT
                end
  end.

(** The filters of the request, with those the scope and the hub fix. *)
Definition scopedFilters (f : GitOpsHistoryFilters) (local : option Z) (scope : HistoryScope) : GitOpsHistoryFilters :=
  mkFilters (fl_applicationId f)
    (match scope with authorized_stack name => Some name | per_row => fl_stackName f end)
    (fl_repoIdentity f) (fl_configuredRef f) (fl_commitSha f) (fl_generationId f) (fl_artifactSetId f)
    (fl_blueprintId f) (fl_rolloutCandidateId f) (fl_rolloutGenerationId f)
    (match local with Some n => Some n | None => fl_nodeId f end) (fl_trigger f) (fl_actor f) (fl_outcome f).

(** The page, or the message of a 400. *)
Definition respondWithHistory (table : list GitOpsHistoryRow) (who : Reader) (q : HistoryQuery) (proxied : bool)
    (defaultNodeId : Z) (scope : HistoryScope) : string + GitOpsHistoryPage :=
  match parseHistoryFilters q with
  | inl e => inl e
  | inr f =>
      let cursorRaw := stringParam (qu_cursor q) in
      let cursor := cursorRaw ≫= decodeHistoryCursor other_number in
      if bool_decide (is_Some cursorRaw) && bool_decide (cursor = None)
      then inl "Invalid page cursor. Restart from the first page."
      else match resolveLocalTargetNodeId q proxied defaultNodeId with
           | inl e => inl e
           | inr local =>
               inr (buildHistoryPage table who (scopedFilters f local scope) (Z.to_nat (parseLimit (qu_limit q))) cursor scope)
           end
  end.
End request.
End page.

(** ** The latest transition of each application *)

(** [SELECT application_id, MAX(created_at) ... WHERE application_id IN chunk GROUP BY application_id] *)
Definition latest_in (table : list GitOpsHistoryRow) (chunk : list string) : gmap string Z :=
  foldr (fun r m => <[hr_application_id r := match m !! hr_application_id r with
                                             | Some t => Z.max (hr_created_at r) t | None => hr_created_at r end]> m)
    ∅ (filter (fun r => hr_application_id r ∈ chunk) table).

Definition CHUNK : nat := 500.
Fixpoint latestFrom (fuel : nat) (table : list GitOpsHistoryRow) (ids : list string) (latest : gmap string Z) : gmap string Z :=
  match fuel, ids with
  | S fuel, _ :: _ => latestFrom fuel table (drop CHUNK ids) (latest_in table (take CHUNK ids) ∪ latest)
  | _, _ => latest
  end.
Definition latestTransitionByApplication (table : list GitOpsHistoryRow) (applicationIds : list string) : gmap string Z :=
  latestFrom (length applicationIds) table applicationIds ∅.
