(* ===== verification/HistoryProps.v ===== *)
(** * GitOps history pages: what a walk returns

    The cursor's round trip; the query as a window of the sorted table; a page as a
    prefix of what is left; the whole walk. *)

From Stdlib Require Import QArith Qcanon.
From stdpp Require Import sorting gmap.
From S2P Require Import Prelude Json Reconcile Outbox HistoryPages.

#[global] Open Scope Z_scope.

(** ** Decimal digits *)

Lemma digit_char (k : N) : (k < 10)%N -> digit (pretty_N_char k) = Some (Z.of_N k).
Proof.
  intros. assert (Hk : (k = 0 \/ k = 1 \/ k = 2 \/ k = 3 \/ k = 4 \/ k = 5 \/ k = 6 \/ k = 7 \/ k = 8 \/ k = 9)%N) by lia.
  repeat destruct Hk as [->|Hk]; [reflexivity..|]. by subst k.
Qed.

Lemma digits_go (x : N) : forall s, (0 < x)%N -> digits None (pretty_N_go x s) = digits (Some (Z.of_N x)) s.
Proof.
  induction x as [x IH] using (well_founded_ind N.lt_wf_0); intros s Hx.
  rewrite pretty_N_go_step by done.
  pose proof (N.mod_upper_bound x 10 ltac:(done)) as Hmod.
  pose proof (N.div_mod x 10 ltac:(done)) as Hdm.
  destruct (decide (x `div` 10 = 0)%N) as [Hd|Hd].
  - rewrite Hd, pretty_N_go_0. cbn [digits]. rewrite digit_char by done. simpl default. do 2 f_equal. lia.
  - rewrite (IH (x `div` 10)%N); [|apply N.div_lt; lia|lia].
    cbn [digits]. rewrite digit_char by done. simpl default. do 2 f_equal. lia.
Qed.

Lemma all_digits_go (x : N) : forall s, all_digits s = true -> all_digits (pretty_N_go x s) = true.
Proof.
  induction x as [x IH] using (well_founded_ind N.lt_wf_0); intros s Hs.
  destruct (decide (x = 0)%N) as [->|Hx]; [by rewrite pretty_N_go_0|].
  rewrite pretty_N_go_step by lia. apply IH; [apply N.div_lt; lia|]. simpl. unfold is_digit.
  rewrite digit_char by (apply N.mod_upper_bound; done). done.
Qed.

Lemma pretty_nonneg (z : Z) : 0 <= z ->
  pretty z <> "" /\ all_digits (pretty z) = true /\ digits None (pretty z) = Some z.
Proof.
  intros Hz. destruct z as [|p|p]; [done| |lia].
  assert (Hd : digits None (pretty (Z.pos p)) = Some (Z.pos p)) by apply (digits_go (N.pos p) "" ltac:(lia)).
  split_and!; [|by apply (all_digits_go (N.pos p))|done].
  intros E. rewrite E in Hd. discriminate Hd.
Qed.

Lemma is_digit_not_dot c : is_digit c = true -> c <> Ascii.ascii_of_nat 46.
Proof. by intros Hc ->. Qed.

Lemma split_digits s id : all_digits s = true -> split_dot (s +:+ "." +:+ id) = Some (s, id).
Proof.
  induction s as [|c s IH]; [done|]. simpl. intros [Hc Hs]%andb_true_iff.
  rewrite decide_False by (by apply is_digit_not_dot). by rewrite IH.
Qed.

Lemma uuid_nonempty s : HISTORY_ID_RE s = true -> s <> "".
Proof. by intros Hs ->. Qed.

(** A cursor of the trail: a safe time and an id as [randomUUID()] mints it. *)
Definition cursor_ok (c : GitOpsHistoryCursor) : Prop :=
  0 <= hc_createdAt c <= MAX_SAFE_INTEGER /\ HISTORY_ID_RE (hc_id c) = true.

(** A cursor the server hands out is read back as the same cursor, whatever [Number]
    makes of texts that are not digits. *)
Lemma cursor_decodes other_number c : cursor_ok c -> decodeHistoryCursor other_number (encodeHistoryCursor c) = Some c.
Proof.
  destruct c as [t id]. intros [Ht Hid]. simpl in Ht, Hid. destruct (pretty_nonneg t) as (Hne & Hall & Hdig); [lia|].
  unfold decodeHistoryCursor, encodeHistoryCursor; simpl hc_createdAt; simpl hc_id.
  rewrite split_digits by done.
  rewrite !bool_decide_eq_false_2 by (done || by apply uuid_nonempty). simpl orb. cbn iota.
  unfold Number. rewrite bool_decide_eq_true_2, Hall, Hdig by done. simpl. unfold safe.
  rewrite (proj2 (Z.leb_le _ _)), (proj2 (Z.leb_le t _)) by (unfold MAX_SAFE_INTEGER in *; lia). simpl.
  rewrite (proj2 (Z.ltb_ge t 0)) by lia. by rewrite Hid.
Qed.

Lemma decoded_ok other_number raw c : decodeHistoryCursor other_number raw = Some c -> cursor_ok c.
Proof.
  unfold decodeHistoryCursor. intros E. repeat case_match; simplify_eq.
  match goal with H : Number _ _ = Some _ |- _ => unfold Number, safe in H; case_match;
    apply bind_Some in H as (? & _ & H) end.
  all: case_match; simplify_eq; zbool; split; simpl; [unfold MAX_SAFE_INTEGER in *; lia|done].
Qed.

(** A page cursor survives the trip through the caller exactly when it is one the
    server can hand out: [decodeHistoryCursor] reads [encodeHistoryCursor c] back as [c]
    if and only if the time of [c] is a non-negative safe integer and its id has the
    form of a random UUID. *)
Theorem history_cursor_roundtrip other_number c :
  decodeHistoryCursor other_number (encodeHistoryCursor c) = Some c <-> cursor_ok c.
Proof. split; [apply decoded_ok|apply cursor_decodes]. Qed.

(** ** The order of the trail *)

#[export] Instance newest_first_total : Total newest_first.
Proof.
  intros a b. unfold newest_first. destruct (Z.lt_total (hr_created_at a) (hr_created_at b)) as [?|[E|?]]; [auto| |auto].
  destruct (total String.le (hr_id a) (hr_id b)); auto.
Qed.
#[export] Instance newest_first_trans : Transitive newest_first.
Proof.
  intros a b c [?|[? ?]] [?|[? ?]]; unfold newest_first; [left; lia..|].
  right. split; [congruence|]. by etrans.
Qed.

(** Rows of a table: distinct ids. *)
Definition table_ok (table : list GitOpsHistoryRow) : Prop :=
  NoDup (hr_id <$> table) /\ Forall (fun r => cursor_ok (mkCursor (hr_created_at r) (hr_id r))) table.

Lemma same_id_same_row table a b :
  NoDup (hr_id <$> table) -> a ∈ table -> b ∈ table -> hr_id a = hr_id b -> a = b.
Proof.
  intros Hnd [i Hi]%list_elem_of_lookup [j Hj]%list_elem_of_lookup E.
  assert (i = j) as ->; [|congruence].
  eapply NoDup_lookup; [done| |]; rewrite list_lookup_fmap; [rewrite Hi|rewrite Hj]; simpl; by rewrite ?E.
Qed.

Lemma newest_first_antisymm a b : newest_first a b -> newest_first b a -> hr_id a = hr_id b.
Proof. intros [?|[? ?]] [?|[? ?]]; try lia. by apply (anti_symm String.le). Qed.

(** The rows that match, newest first: what a reader of the whole trail would see. *)
Definition trail (table : list GitOpsHistoryRow) (f : GitOpsHistoryFilters) : list GitOpsHistoryRow :=
  merge_sort newest_first (filter (fun r => Is_true (matches f r)) table).

Lemma elem_of_trail table f r : r ∈ trail table f <-> r ∈ table /\ matches f r = true.
Proof. unfold trail. rewrite merge_sort_Permutation, list_elem_of_filter, Is_true_true. naive_solver. Qed.

Lemma trail_sorted table f : StronglySorted newest_first (trail table f).
Proof. apply (StronglySorted_merge_sort newest_first). Qed.

Lemma trail_ids table f : NoDup (hr_id <$> table) -> NoDup (hr_id <$> trail table f).
Proof.
  intros Hnd. unfold trail. rewrite merge_sort_Permutation.
  eapply sublist_NoDup; [exact Hnd|]. apply fmap_sublist, sublist_filter.
Qed.

Lemma StronglySorted_filter {A} (R : relation A) P `{!forall x : A, Decision (P x)} l :
  StronglySorted R l -> StronglySorted R (filter P l).
Proof.
  induction 1 as [|x l Hl IH Hx]; [constructor|]. rewrite filter_cons. case_decide; [|done].
  constructor; [done|]. rewrite Forall_forall in *. intros y [_ Hy]%list_elem_of_filter. eauto.
Qed.

Lemma sorted_rows_unique table l1 l2 :
  NoDup (hr_id <$> table) -> (forall r, r ∈ l1 -> r ∈ table) -> (forall r, r ∈ l2 -> r ∈ table) ->
  StronglySorted newest_first l1 -> StronglySorted newest_first l2 -> l1 ≡ₚ l2 -> l1 = l2.
Proof.
  intros Hnd H1 H2 S1 S2 E. apply (StronglySorted_unique_strong newest_first); [|done..].
  intros x y Hx Hy Hxy Hyx. apply (same_id_same_row table); [done|auto|auto|]. by apply newest_first_antisymm.
Qed.

(** The window a query returns: the first rows of the trail past the cursor. *)
Lemma window_exact table f c n : NoDup (hr_id <$> table) ->
  queryHistoryRows table f c n = take n (filter (fun r => Is_true (after_cursor c r)) (trail table f)).
Proof.
  intros Hnd. unfold queryHistoryRows. f_equal. apply (sorted_rows_unique table).
  - done.
  - intros r. rewrite merge_sort_Permutation, list_elem_of_filter. tauto.
  - intros r. rewrite list_elem_of_filter, elem_of_trail. tauto.
  - apply (StronglySorted_merge_sort newest_first).
  - apply StronglySorted_filter, trail_sorted.
  - unfold trail. rewrite !merge_sort_Permutation, list_filter_filter. erewrite list_filter_iff; [done|].
    intros r. simpl. rewrite !Is_true_true, andb_true_iff. naive_solver.
Qed.

(** *** Past a cursor *)

Definition cursor_of (r : GitOpsHistoryRow) : GitOpsHistoryCursor := mkCursor (hr_created_at r) (hr_id r).

Lemma string_ltb_leb (a b : string) : a <> b -> String.ltb a b = String.leb a b.
Proof.
  intros Hne. unfold String.ltb, String.leb. destruct (String.compare a b) eqn:E; [|done..].
  by apply String.compare_eq_iff in E.
Qed.

Lemma after_cursor_iff x r : hr_id r <> hr_id x -> after_cursor (Some (cursor_of x)) r = true <-> newest_first x r.
Proof.
  intros Hne. unfold newest_first, String.le. simpl. rewrite string_ltb_leb by done.
  rewrite orb_true_iff, andb_true_iff, Z.ltb_lt, Z.eqb_eq, Is_true_true. intuition congruence.
Qed.
Lemma after_cursor_self x : after_cursor (Some (cursor_of x)) x = false.
Proof.
  simpl. rewrite Z.ltb_irrefl, Z.eqb_refl. simpl. unfold String.ltb.
  pose proof (String.compare_antisym (hr_id x) (hr_id x)) as E. by destruct (String.compare (hr_id x) (hr_id x)).
Qed.

Lemma filter_none {A} (P : A -> Prop) `{Hdec : forall x, Decision (P x)} (l : list A) : (forall x, x ∈ l -> ~ P x) -> filter P l = [].
Proof.
  induction l as [|x l IH]; [done|]. intros H. rewrite filter_cons_False by (apply H; left).
  apply IH. intros y Hy. apply H. by right.
Qed.
Lemma filter_all {A} (P : A -> Prop) `{Hdec : forall x, Decision (P x)} (l : list A) : (forall x, x ∈ l -> P x) -> filter P l = l.
Proof.
  induction l as [|x l IH]; [done|]. intros H. rewrite filter_cons_True by (apply H; left). f_equal.
  apply IH. intros y Hy. apply H. by right.
Qed.

(** What a sorted list holds past one of its rows. *)
Lemma past_row l1 x l2 : NoDup (hr_id <$> l1 ++ x :: l2) -> StronglySorted newest_first (l1 ++ x :: l2) ->
  filter (fun r => Is_true (after_cursor (Some (cursor_of x)) r)) (l1 ++ x :: l2) = l2.
Proof.
  intros Hnd Hs. rewrite fmap_app, fmap_cons in Hnd. apply NoDup_app in Hnd as (_ & Hd & Hx). apply NoDup_cons in Hx.
  apply StronglySorted_app in Hs as (H12 & _ & [Hx2 _]%StronglySorted_cons).
  rewrite Forall_forall in Hx2. destruct Hx as [Hx _].
  rewrite filter_app, filter_cons_False by (rewrite after_cursor_self; by intros []).
  rewrite filter_none, filter_all; [done| |].
  - intros r Hr. rewrite Is_true_true, after_cursor_iff; [by apply Hx2|].
    intros E. apply Hx. rewrite <- E. by apply list_elem_of_fmap_2.
  - intros r Hr. assert (Hne : hr_id r <> hr_id x).
    { intros E. apply (Hd (hr_id r)); [by apply list_elem_of_fmap_2|]. rewrite E. left. }
    rewrite Is_true_true, after_cursor_iff by done. intros Hxr.
    apply Hne, newest_first_antisymm; [apply H12; [done|left]|done].
Qed.

(** A later table: the rows that were there, and newer ones. *)
Definition grown (table later : list GitOpsHistoryRow) : Prop :=
  table_ok later /\ exists new, later ≡ₚ new ++ table
  /\ forall r r', r ∈ new -> r' ∈ table -> hr_created_at r' < hr_created_at r.

Lemma grown_trail table later f : grown table later -> exists l, trail later f = l ++ trail table f.
Proof.
  intros [[Hnd _] (new & E & Hnew)]. exists (trail new f). apply (sorted_rows_unique later); [done|..].
  - intros r [? _]%elem_of_trail. done.
  - intros r. rewrite elem_of_app, !elem_of_trail, E, elem_of_app. tauto.
  - apply trail_sorted.
  - apply StronglySorted_app_2; [|apply trail_sorted..].
    intros a b [Ha _]%elem_of_trail [Hb _]%elem_of_trail. left. by apply Hnew.
  - unfold trail. rewrite !merge_sort_Permutation, E. by rewrite filter_app.
Qed.

Lemma grown_refl table : table_ok table -> grown table table.
Proof. intros H. split; [done|]. exists []. split; [done|]. intros r r' Hr. by apply elem_of_nil in Hr. Qed.

(** The window past a row of the trail, in the table or a later one. *)
Lemma window_past table later f l1 x l2 n : grown table later -> trail table f = l1 ++ x :: l2 ->
  queryHistoryRows later f (Some (cursor_of x)) n = take n l2.
Proof.
  intros Hg Ht. pose proof Hg as [[Hnd _] _]. destruct (grown_trail table later f Hg) as [l El].
  rewrite window_exact by done. f_equal. pose proof (trail_sorted later f) as Hs.
  pose proof (trail_ids later f Hnd) as Hids. rewrite El, Ht, app_assoc in *. by apply past_row.
Qed.

(** ** A page *)

Section pages.
Variable json_parse : string -> option Json.
Variables (who : Reader) (scope : HistoryScope).

(** The items of rows already examined. *)
Definition kept (rows : list GitOpsHistoryRow) : list GitOpsHistoryPageItem :=
  pageItem json_parse who <$> filter (fun r => Is_true (readable who scope r)) rows.

Lemma kept_app l1 l2 : kept (l1 ++ l2) = kept l1 ++ kept l2.
Proof. unfold kept. by rewrite filter_app, fmap_app. Qed.
Lemma kept_one r : kept [r] = if readable who scope r then [pageItem json_parse who r] else [].
Proof. unfold kept. rewrite filter_cons, filter_nil. by destruct (readable who scope r). Qed.

Definition last_or (rows : list GitOpsHistoryRow) (o : option GitOpsHistoryRow) : option GitOpsHistoryRow :=
  match last rows with Some r => Some r | None => o end.

Lemma last_or_cons r rows o : last_or (r :: rows) o = last_or rows (Some r).
Proof. unfold last_or. rewrite last_cons. by destruct (last rows). Qed.

(** The loop examines the rows in order, stops when the page is full, and keeps what
    the caller may read. *)
Lemma examine_exact limit rows : forall items o, (length items <= limit)%nat ->
  exists seen rest, rows = seen ++ rest
  /\ examine json_parse who scope limit rows items o = (items ++ kept seen, last_or seen o, bool_decide (rest = []))
  /\ (length (items ++ kept seen) <= limit)%nat
  /\ (rest <> [] -> length (items ++ kept seen) = limit).
Proof.
  induction rows as [|r rows IH]; intros items o Hle.
  { exists [], []. unfold kept. simpl. rewrite app_nil_r. split_and!; done. }
  simpl. destruct (Nat.eqb_spec (length items) limit) as [E|E].
  { exists [], (r :: rows). unfold kept. simpl. rewrite app_nil_r. split_and!; [done..|lia]. }
  destruct (IH (if readable who scope r then items ++ [pageItem json_parse who r] else items) (Some r))
    as (seen & rest & -> & -> & Hlen & Hfull).
  { destruct (readable who scope r); rewrite ?length_app; simpl; lia. }
  assert (Hk : (if readable who scope r then items ++ [pageItem json_parse who r] else items) ++ kept seen
               = items ++ kept (r :: seen)).
  { change (r :: seen) with ([r] ++ seen). rewrite kept_app, kept_one, app_assoc.
    destruct (readable who scope r); by rewrite ?app_nil_r. }
  exists (r :: seen), rest. rewrite last_or_cons, <- Hk. done.
Qed.

(** A page over what is left of the trail: it examines a prefix of it, and names the
    last row examined unless nothing is left. *)
Lemma page_exact table f c limit left : (0 < limit)%nat ->
  queryHistoryRows table f c HISTORY_SCAN_CAP = take HISTORY_SCAN_CAP left ->
  exists seen rest, left = seen ++ rest
  /\ pg_items (buildHistoryPage json_parse table who f limit c scope) = kept seen
  /\ (length (kept seen) <= limit)%nat
  /\ match pg_nextCursor (buildHistoryPage json_parse table who f limit c scope) with
     | None => rest = []
     | Some raw => exists seen' x, seen = seen' ++ [x] /\ raw = encodeHistoryCursor (cursor_of x)
     end.
Proof.
  intros Hlim Hq. unfold buildHistoryPage. rewrite Hq.
  destruct (examine_exact limit (take HISTORY_SCAN_CAP left) [] None) as (seen & rest & Erows & -> & Hlen & Hfull); [simpl; lia|].
  assert (Hcap : (0 < HISTORY_SCAN_CAP)%nat) by (unfold HISTORY_SCAN_CAP; lia).
  exists seen, (rest ++ drop HISTORY_SCAN_CAP left). split_and!; [|done|done|].
  { by rewrite app_assoc, <- Erows, take_drop. }
  revert Hcap Erows. generalize HISTORY_SCAN_CAP. intros cap Hcap Erows. simpl pg_nextCursor.
  destruct (negb _ || _) eqn:Emore.
  - destruct (last seen) as [x|] eqn:Elast.
    + unfold last_or. rewrite Elast. apply last_Some in Elast as [seen' ->]. simpl. eauto.
    + apply last_None in Elast as ->. exfalso. simpl in *.
      destruct rest as [|r rest]; [|specialize (Hfull ltac:(done)); lia].
      rewrite Erows in Emore. simpl in Emore. destruct cap; [lia|done].
  - apply orb_false_iff in Emore as [Hrest%negb_false_iff Hn%Nat.eqb_neq].
    apply bool_decide_eq_true in Hrest as ->. simpl. rewrite length_take in Hn.
    apply drop_ge. lia.
Qed.

(** ** A request and a walk *)

Section walk.
Variable other_number : string -> option Z.

Lemma parseLimit_bounds v : 1 <= parseLimit other_number v <= HISTORY_MAX_LIMIT.
Proof.
  unfold parseLimit, HISTORY_DEFAULT_LIMIT, HISTORY_MAX_LIMIT.
  destruct (stringParam v); [|lia]. destruct (Number _ _); [|lia]. case_match; zbool; lia.
Qed.

(** What the caller asks for, when the request is not refused. *)
Definition requested (q : HistoryQuery) (proxied : bool) (defaultNodeId : Z) : option GitOpsHistoryFilters :=
  match parseHistoryFilters other_number q, resolveLocalTargetNodeId q proxied defaultNodeId with
  | inr f, inr local => Some (scopedFilters f local scope)
  | _, _ => None
  end.

Definition with_cursor (q : HistoryQuery) (raw : string) : HistoryQuery :=
  mkQuery (qu_applicationId q) (qu_repoIdentity q) (qu_configuredRef q) (qu_commitSha q) (qu_generationId q)
    (qu_artifactSetId q) (qu_rolloutCandidateId q) (qu_rolloutGenerationId q) (qu_trigger q) (qu_actor q)
    (qu_blueprintId q) (qu_nodeId q) (qu_outcome q) (Some raw) (qu_limit q) (qu_gitopsLocalTarget q).

Variables (proxied : bool) (defaultNodeId : Z).
Let respond table q := respondWithHistory json_parse other_number table who q proxied defaultNodeId scope.

Lemma respond_exact table q f : requested q proxied defaultNodeId = Some f ->
  respond table q =
    match stringParam (qu_cursor q) with
    | None => inr (buildHistoryPage json_parse table who f (Z.to_nat (parseLimit other_number (qu_limit q))) None scope)
    | Some raw =>
        match decodeHistoryCursor other_number raw with
        | None => inl "Invalid page cursor. Restart from the first page."
        | c => inr (buildHistoryPage json_parse table who f (Z.to_nat (parseLimit other_number (qu_limit q))) c scope)
        end
    end.
Proof.
  unfold requested, respond, respondWithHistory. intros E.
  destruct (parseHistoryFilters _ _) as [|f']; [done|]. destruct (resolveLocalTargetNodeId _ _ _) as [|l]; [done|].
  injection E as <-. destruct (stringParam (qu_cursor q)) as [raw|]; [|done]. simpl.
  by destruct (decodeHistoryCursor other_number raw).
Qed.

(** The caller follows [nextCursor] until there is none; each request meets the table
    as it then is. *)
Fixpoint walk (tables : list (list GitOpsHistoryRow)) (q : HistoryQuery) : option (string + list GitOpsHistoryPageItem) :=
  match tables with
  | [] => None
  | table :: tables =>
      match respond table q with
      | inl e => Some (inl e)
      | inr page =>
          match pg_nextCursor page with
          | None => Some (inr (pg_items page))
          | Some raw =>
              match walk tables (with_cursor q raw) with
              | Some (inr more) => Some (inr (pg_items page ++ more))
              | o => o
              end
          end
      end
  end.

Lemma encoded_nonempty x : cursor_ok (cursor_of x) -> truthy (Some (encodeHistoryCursor (cursor_of x))) = Some (encodeHistoryCursor (cursor_of x)).
Proof.
  intros [Ht _]. destruct (pretty_nonneg (hr_created_at x)) as (Hne & _); [simpl in Ht; lia|].
  unfold encodeHistoryCursor. simpl. unfold truthy. by destruct (pretty (hr_created_at x)).
Qed.

(** One request over what is left of the trail. *)
Lemma walk_step table tables q f c left : requested q proxied defaultNodeId = Some f ->
  match stringParam (qu_cursor q) with
  | None => c = None
  | Some raw => decodeHistoryCursor other_number raw = c /\ c <> None
  end ->
  queryHistoryRows table f c HISTORY_SCAN_CAP = take HISTORY_SCAN_CAP left ->
  exists seen rest, left = seen ++ rest
  /\ (rest = [] /\ walk (table :: tables) q = Some (inr (kept left))
      \/ exists seen' x, seen = seen' ++ [x]
         /\ walk (table :: tables) q = match walk tables (with_cursor q (encodeHistoryCursor (cursor_of x))) with
                                       | Some (inr more) => Some (inr (kept seen ++ more)) | o => o end).
Proof.
  intros Hreq Hc Hq. pose proof (parseLimit_bounds (qu_limit q)) as Hl.
  destruct (page_exact table f c (Z.to_nat (parseLimit other_number (qu_limit q))) left) as (seen & rest & E & Hitems & _ & Hnext); [lia|done|].
  exists seen, rest. split; [done|]. simpl. rewrite (respond_exact table q f Hreq).
  assert (Hr : match stringParam (qu_cursor q) with
    | None => inr (buildHistoryPage json_parse table who f (Z.to_nat (parseLimit other_number (qu_limit q))) None scope)
    | Some raw =>
        match decodeHistoryCursor other_number raw with
        | None => inl "Invalid page cursor. Restart from the first page."
        | c => inr (buildHistoryPage json_parse table who f (Z.to_nat (parseLimit other_number (qu_limit q))) c scope)
        end
    end = inr (buildHistoryPage json_parse table who f (Z.to_nat (parseLimit other_number (qu_limit q))) c scope)).
  { destruct (stringParam (qu_cursor q)); [destruct Hc as [-> Hc]; by destruct c|by subst c]. }
  rewrite Hr, Hitems. destruct (pg_nextCursor _) as [raw|].
  - right. destruct Hnext as (seen' & x & -> & ->). eauto.
  - left. subst rest. by rewrite E, app_nil_r.
Qed.

(** The walk from a row of the trail on. *)
Lemma walk_from table q f : requested q proxied defaultNodeId = Some f -> table_ok table ->
  forall tables l1 x l2, Forall (grown table) tables -> trail table f = l1 ++ x :: l2 ->
  (length l2 < length tables)%nat ->
  walk tables (with_cursor q (encodeHistoryCursor (cursor_of x))) = Some (inr (kept l2)).
Proof.
  intros Hreq [Hnd Hcur]. induction tables as [|later tables IH]; intros l1 x l2 Hg Ht Hlen; simpl in Hlen; [lia|].
  apply Forall_cons in Hg as [Hg Hgs].
  assert (Hx : cursor_ok (cursor_of x)).
  { rewrite Forall_forall in Hcur. apply Hcur. apply (elem_of_trail table f). rewrite Ht. set_solver. }
  pose proof (encoded_nonempty x Hx) as Hne.
  destruct (walk_step later tables (with_cursor q (encodeHistoryCursor (cursor_of x))) f (Some (cursor_of x)) l2)
    as (seen & rest & E & [[_ ->]|(seen' & y & -> & ->)]).
  - done.
  - unfold stringParam. simpl qu_cursor. rewrite Hne. by rewrite cursor_decodes.
  - by eapply window_past.
  - done.
  - change (with_cursor (with_cursor q _) ?r) with (with_cursor q r).
    rewrite (IH (l1 ++ x :: seen') y rest); [|done| |].
    + by rewrite E, (kept_app (seen' ++ [y])).
    + rewrite Ht, E. by rewrite <- !app_assoc.
    + rewrite E, !length_app in Hlen. simpl in Hlen. lia.
Qed.
End walk.
End pages.

(** ** The theorems *)

(** C6: Following [nextCursor] from the first page reads the audit trail completely and
    without repetition. When the table holds rows with distinct UUID ids and safe times,
    and later requests meet it with newer rows added, then after at most one request more
    than there are matching rows the walk ends, and the pages together are the items of
    exactly the rows that matched at the start and that the caller may read, newest
    first, whatever the page limit and however many rows the caller may not read. *)
Theorem history_walk_complete json_parse other_number who scope proxied defaultNodeId q f table later :
  table_ok table -> Forall (grown table) later ->
  stringParam (qu_cursor q) = None ->
  requested scope other_number q proxied defaultNodeId = Some f ->
  (length (trail table f) <= length later)%nat ->
  walk json_parse who scope other_number proxied defaultNodeId (table :: later) q
  = Some (inr (kept json_parse who scope (trail table f))).
Proof.
  intros Hok Hg Hc Hreq Hlen. pose proof Hok as [Hnd _].
  destruct (walk_step json_parse who scope other_number proxied defaultNodeId table later q f None (trail table f))
    as (seen & rest & E & [[_ ->]|(seen' & x & -> & ->)]).
  - done.
  - by rewrite Hc.
  - rewrite window_exact by done. f_equal. by apply filter_all.
  - done.
  - rewrite (walk_from json_parse who scope other_number proxied defaultNodeId table q f Hreq Hok later seen' x rest); [|done| |].
    + by rewrite E, (kept_app _ _ _ (seen' ++ [x])).
    + by rewrite E, <- app_assoc.
    + rewrite E, !length_app in Hlen. simpl in Hlen. lia.
Qed.

(** Who may read a row: an auditor; whoever may read the stack it names, when that stack
    is on disk and its application active; and, on the page of one stack, whoever was let
    in, for the rows of the application that holds the name now. *)
Definition may_read (who : Reader) (scope : HistoryScope) (r : GitOpsHistoryRow) : Prop :=
  rd_mayAudit who = true
  \/ (exists name, hr_stack_name r = Some name /\ rd_mayReadStack who name = true /\ rd_present who name = true
        /\ rd_lifecycle who (hr_application_id r) = Some active)
  \/ (exists name, scope = authorized_stack name /\ rd_liveDirect who name = Some (hr_application_id r)).

Lemma readable_may_read who scope r : readable who scope r = true -> may_read who scope r.
Proof.
  unfold readable, may_read, scopedApplicationId, classifyHistoryRow, resourcePresent. rewrite orb_true_iff.
  intros [H%bool_decide_eq_true|H]; [destruct scope; eauto; done|].
  destruct (hr_stack_name r) as [name|]; [|by left]. simpl in H.
  destruct name as [|ch name]; [by left|].
  destruct (bool_decide _ && _) eqn:E; [|by left]. apply andb_true_iff in E as [E%bool_decide_eq_true ?]. eauto 10.
Qed.

Lemma matches_stack f local name r : matches (scopedFilters f local (authorized_stack name)) r = true -> hr_stack_name r = Some name.
Proof.
  unfold matches. simpl. rewrite !andb_true_iff. intros Hm. destruct_and! Hm.
  match goal with H : bool_decide (hr_stack_name r = Some name) = true |- _ => by apply bool_decide_eq_true in H end.
Qed.

(** C7: A page shows nothing it should not. Whatever the table, the cursor and the
    filters a caller sends, a page has at most 100 items; each is the item of a row of
    the table that matches every filter of the request and lies past its cursor; on the
    page of one stack each names that stack; and each is one the caller may read. *)
Theorem history_page_authorized json_parse other_number table who q proxied defaultNodeId scope page :
  respondWithHistory json_parse other_number table who q proxied defaultNodeId scope = inr page ->
  (length (pg_items page) <= 100)%nat
  /\ forall item, item ∈ pg_items page -> exists r f,
       item = pageItem json_parse who r /\ r ∈ table /\ requested scope other_number q proxied defaultNodeId = Some f
       /\ matches f r = true /\ after_cursor (stringParam (qu_cursor q) ≫= decodeHistoryCursor other_number) r = true
       /\ may_read who scope r
       /\ (forall name, scope = authorized_stack name -> hr_stack_name r = Some name).
Proof.
  intros E. destruct (requested scope other_number q proxied defaultNodeId) as [f|] eqn:Hreq.
  2:{ exfalso. unfold requested in Hreq. unfold respondWithHistory in E.
      destruct (parseHistoryFilters _ _); [done|]. destruct (resolveLocalTargetNodeId _ _ _); [|done]. by case_match. }
  pose proof (parseLimit_bounds other_number (qu_limit q)) as Hl. unfold HISTORY_MAX_LIMIT in Hl.
  rewrite (respond_exact _ _ _ _ _ _ _ _ f Hreq) in E.
  assert (Ep : page = buildHistoryPage json_parse table who f (Z.to_nat (parseLimit other_number (qu_limit q)))
    (stringParam (qu_cursor q) ≫= decodeHistoryCursor other_number) scope).
  { destruct (stringParam (qu_cursor q)) as [raw|]; [simpl; destruct (decodeHistoryCursor _ raw)|]; by simplify_eq. }
  subst page. clear E. set (c := _ ≫= _).
  destruct (page_exact json_parse who scope table f c (Z.to_nat (parseLimit other_number (qu_limit q)))
    (queryHistoryRows table f c HISTORY_SCAN_CAP)) as (seen & rest & E & -> & Hlen & _); [lia| |].
  { unfold queryHistoryRows. by rewrite take_take, Nat.min_id. }
  split; [lia|]. intros item (r & -> & [Hr%Is_true_true Hin]%list_elem_of_filter)%list_elem_of_fmap.
  assert (Hq : r ∈ queryHistoryRows table f c HISTORY_SCAN_CAP) by (rewrite E; set_solver).
  unfold queryHistoryRows in Hq. apply elem_of_take in Hq as (? & Hq & _). apply list_elem_of_lookup_2 in Hq.
  rewrite merge_sort_Permutation, list_elem_of_filter, Is_true_true, andb_true_iff in Hq. destruct Hq as [[Hm Hc] Ht].
  exists r, f. split_and!; [done..|by apply readable_may_read|].
  intros name ->. unfold requested in Hreq. repeat case_match; simplify_eq. by eapply matches_stack.
Qed.

(** Every value the request gives is usable. *)
Definition usable other_number (q : HistoryQuery) (proxied : bool) : Prop :=
  (forall raw, stringParam (qu_blueprintId q) = Some raw -> is_Some (Number other_number raw))
  /\ (forall raw, stringParam (qu_nodeId q) = Some raw -> is_Some (Number other_number raw))
  /\ (forall out, stringParam (qu_outcome q) = Some out -> out ∈ OUTCOMES)
  /\ (forall raw, stringParam (qu_cursor q) = Some raw -> is_Some (decodeHistoryCursor other_number raw))
  /\ (stringParam (qu_gitopsLocalTarget q) = Some "1" -> proxied = true).

Lemma int_param_usable other_number key v :
  (exists z, int_param other_number key v = inr z) <-> forall raw, stringParam v = Some raw -> is_Some (Number other_number raw).
Proof.
  unfold int_param. destruct (stringParam v) as [raw|]; [|naive_solver].
  destruct (Number other_number raw) as [z|] eqn:E; split; try naive_solver.
  intros H. destruct (H raw eq_refl) as [? ?]. congruence.
Qed.

Lemma filters_usable other_number q :
  (exists f, parseHistoryFilters other_number q = inr f)
  <-> (forall raw, stringParam (qu_blueprintId q) = Some raw -> is_Some (Number other_number raw))
      /\ (forall raw, stringParam (qu_nodeId q) = Some raw -> is_Some (Number other_number raw))
      /\ (forall out, stringParam (qu_outcome q) = Some out -> out ∈ OUTCOMES).
Proof.
  rewrite <- (int_param_usable _ "blueprintId"), <- (int_param_usable _ "nodeId"). unfold parseHistoryFilters.
  destruct (int_param other_number "blueprintId" _); [naive_solver|].
  destruct (int_param other_number "nodeId" _); [naive_solver|].
  destruct (stringParam (qu_outcome q)) as [out|]; [|naive_solver].
  destruct (bool_decide (out ∈ OUTCOMES)) eqn:E; simpl.
  - apply bool_decide_eq_true in E. naive_solver.
  - apply bool_decide_eq_false in E. naive_solver.
Qed.

Lemma local_usable q proxied defaultNodeId :
  (exists l, resolveLocalTargetNodeId q proxied defaultNodeId = inr l)
  <-> (stringParam (qu_gitopsLocalTarget q) = Some "1" -> proxied = true).
Proof.
  unfold resolveLocalTargetNodeId. case_bool_decide; simpl; [|naive_solver]. destruct proxied; naive_solver.
Qed.

(** A request is refused exactly when it gives a value the page cannot honour: a
    [blueprintId] or [nodeId] that is not a safe integer, an unknown outcome, a cursor
    that is not one, or [gitopsLocalTarget=1] without a proxied hop. None of these is
    dropped, which would answer a narrower question with a wider page. *)
Theorem history_refused_iff json_parse other_number table who q proxied defaultNodeId scope :
  (exists page, respondWithHistory json_parse other_number table who q proxied defaultNodeId scope = inr page)
  <-> usable other_number q proxied.
Proof.
  unfold usable, respondWithHistory.
  rewrite <- (local_usable q proxied defaultNodeId).
  pose proof (filters_usable other_number q) as Hf.
  destruct (parseHistoryFilters other_number q) as [e|f]; [naive_solver|].
  destruct (proj1 Hf ltac:(eauto)) as (? & ? & ?). clear Hf.
  destruct (stringParam (qu_cursor q)) as [raw|]; simpl.
  - destruct (decodeHistoryCursor other_number raw) eqn:E; simpl.
    + destruct (resolveLocalTargetNodeId _ _ _); naive_solver.
    + split; [naive_solver|]. intros (_ & _ & _ & H' & _). destruct (H' raw eq_refl). congruence.
  - destruct (resolveLocalTargetNodeId _ _ _); naive_solver.
Qed.

(** ** The latest transition of each application *)

(** The latest of the rows of one application. *)
Definition latest_of (table : list GitOpsHistoryRow) (a : string) : option Z :=
  foldr (fun r o => if decide (hr_application_id r = a)
                    then Some (match o with Some t => Z.max (hr_created_at r) t | None => hr_created_at r end) else o) None table.

Lemma latest_in_lookup table chunk a : latest_in table chunk !! a = if decide (a ∈ chunk) then latest_of table a else None.
Proof.
  unfold latest_in. induction table as [|r table IH]; [by case_decide|].
  rewrite filter_cons. destruct (decide (hr_application_id r ∈ chunk)) as [Hin|Hin]; simpl.
  - destruct (decide (hr_application_id r = a)) as [<-|Hne].
    + rewrite lookup_insert_eq, IH. by rewrite !decide_True by done.
    + by rewrite lookup_insert_ne, IH.
  - rewrite IH. destruct (decide (a ∈ chunk)); [|done]. rewrite (decide_False (P := _ = a)) by set_solver. done.
Qed.

Lemma latestFrom_lookup table a fuel : forall ids m, (length ids <= fuel)%nat ->
  latestFrom fuel table ids m !! a
  = match (if decide (a ∈ ids) then latest_of table a else None) with Some t => Some t | None => m !! a end.
Proof.
  induction fuel as [|fuel IH]; intros ids m Hlen; (destruct ids as [|i ids]; [by rewrite decide_False by set_solver|simpl in Hlen]); [lia|].
  cbn [latestFrom]. rewrite IH by (rewrite length_drop; simpl in *; unfold CHUNK; lia).
  rewrite lookup_union, latest_in_lookup. generalize (i :: ids) as l. intros l.
  assert (Hl : a ∈ l <-> a ∈ take CHUNK l \/ a ∈ drop CHUNK l) by (by rewrite <- elem_of_app, take_drop).
  destruct (decide (a ∈ take CHUNK l)), (decide (a ∈ drop CHUNK l)), (decide (a ∈ l)); try tauto;
    by destruct (latest_of table a), (m !! a).
Qed.

(** Reading the latest transitions in chunks of 500 ids answers as one query would:
    for each application asked about, the greatest time of its rows, nothing for one with
    no row, and nothing for one not asked about, however many ids are asked about. *)
Theorem latest_transition_exact table ids a :
  latestTransitionByApplication table ids !! a = if decide (a ∈ ids) then latest_of table a else None.
Proof.
  unfold latestTransitionByApplication. rewrite latestFrom_lookup by lia. rewrite lookup_empty. by repeat case_match.
Qed.
