(* ===== verification/HistoryRuns.v ===== *)
(** * GitOps history pages: a concrete trail

    A table of four rows, two of one instant, one that the caller may not read; a walk
    over it in pages of two while a newer row arrives; the theorems at these inputs. *)

From Stdlib Require Import QArith Qcanon.
From stdpp Require Import sorting gmap.
From S2P Require Import Prelude Json Reconcile Outbox HistoryPages HistoryProps.

#[global] Open Scope Z_scope.

Definition demo_number (s : string) : option Z := if decide (s = "1e3") then Some 1000 else None.
Definition demo_json (s : string) : option Json := if decide (s = "{}") then Some (JObj []) else None.

Definition demo_id (last : string) : string := "00000000-0000-4000-8000-00000000000" +:+ last.
Definition demo_row (id : string) (at_ : Z) (app stack outcome : string) (before : string) : GitOpsHistoryRow :=
  mkHistoryRow (demo_id id) at_ app "direct" (Some stack) None None (Some "https://git/repo") (Some "main") None None None None
    None None None None None None ("op-" +:+ id) "source_fetched" outcome "manual" None before "{}".

Definition demo_table : list GitOpsHistoryRow :=
  [ demo_row "1" 100 "app-old" "web" "committed" "{}"; demo_row "2" 200 "app-now" "web" "failed" "torn";
    demo_row "3" 200 "app-now" "web" "committed" "{}"; demo_row "4" 300 "app-now" "web" "committed" "{}" ].
Definition demo_later : list GitOpsHistoryRow := demo_row "5" 400 "app-now" "web" "committed" "{}" :: demo_table.

(** May read the stack [web], which is on disk and held by [app-now]; no auditor. *)
Definition demo_reader : Reader :=
  mkReader false false (fun s => bool_decide (s = "web")) (fun s => bool_decide (s = "web"))
    (fun a => if decide (a = "app-now") then Some active else Some deleted)
    (fun s => if decide (s = "web") then Some "app-now" else None).

Definition demo_query (limit : string) : HistoryQuery :=
  mkQuery None None None None None None None None None None None None None None (Some limit) None.

Definition demo_filters : GitOpsHistoryFilters :=
  mkFilters None (Some "web") None None None None None None None None None None None None.

(** Pages of two: rows 4 and 3, then row 2 with the row of the earlier application left
    out; the row that arrived meanwhile is not seen, and none is seen twice. *)
Example demo_walk :
  match walk demo_json demo_reader (authorized_stack "web") demo_number false 1
          [demo_table; demo_later; demo_later] (demo_query "2") with
  | Some (inr items) => (fun i => (hi_id (pi_item i), hi_limitations (pi_item i))) <$> items
  | _ => []
  end = [(demo_id "4", []); (demo_id "3", []); (demo_id "2", [mkInvalid true false])].
Proof. vm_compute. reflexivity. Qed.


Lemma demo_later_ok : table_ok demo_later.
Proof.
  split; [apply (bool_decide_unpack _); vm_compute; exact I|].
  repeat (apply Forall_cons; split; [split; [split; vm_compute; discriminate|vm_compute; reflexivity]|]). constructor.
Qed.
Lemma demo_table_ok : table_ok demo_table.
Proof. destruct demo_later_ok as [H1 H2]. split; [by apply NoDup_cons in H1 as [_ ?]|by apply Forall_cons in H2 as [_ ?]]. Qed.
Lemma demo_grown : grown demo_table demo_later.
Proof.
  split; [apply demo_later_ok|]. exists [demo_row "5" 400 "app-now" "web" "committed" "{}"]. split; [done|].
  intros r r' ->%list_elem_of_singleton Hr'. unfold demo_table in Hr'. repeat (apply elem_of_cons in Hr' as [->|Hr']; [simpl; lia|]).
  by apply elem_of_nil in Hr'.
Qed.

Lemma history_walk_complete_witness :
  (length (trail demo_table demo_filters) <= 4)%nat
  /\ walk demo_json demo_reader (authorized_stack "web") demo_number false 1
       [demo_table; demo_later; demo_later; demo_later; demo_later] (demo_query "2")
     = Some (inr (kept demo_json demo_reader (authorized_stack "web") (trail demo_table demo_filters))).
Proof.
  assert (Hlen : (length (trail demo_table demo_filters) <= 4)%nat) by (vm_compute; lia).
  split; [exact Hlen|]. pose proof demo_grown.
  apply (history_walk_complete demo_json demo_number demo_reader (authorized_stack "web") false 1 (demo_query "2") demo_filters
           demo_table [demo_later; demo_later; demo_later; demo_later]).
  - apply demo_table_ok.
  - repeat (apply Forall_cons; split; [assumption|]). constructor.
  - reflexivity.
  - reflexivity.
  - exact Hlen.
Defined.

Lemma history_page_authorized_witness :
  exists page, respondWithHistory demo_json demo_number demo_table demo_reader (demo_query "2") false 1 (authorized_stack "web") = inr page
  /\ (length (pg_items page) <= 100)%nat.
Proof.
  destruct (respondWithHistory demo_json demo_number demo_table demo_reader (demo_query "2") false 1 (authorized_stack "web"))
    as [e|page] eqn:E; [vm_compute in E; discriminate|].
  exists page. split; [reflexivity|].
  exact (proj1 (history_page_authorized demo_json demo_number demo_table demo_reader (demo_query "2") false 1 (authorized_stack "web") page E)).
Defined.
