(* ===== verification/Access.v ===== *)
(** * Permissions (middleware/permissions.ts, helpers/stackRouteAuth.ts, the role assignments
    of services/DatabaseService.ts)

    A user has a global role and grants on single stacks and nodes. A request that goes
    on to another node carries the role and, where a grant is needed, evidence of it: the
    stack and the actions the hub found.

    The table of assignments is a list, in the order of its ids. [decodeURIComponent] is
    a parameter. A path is ASCII text without line breaks. *)

From S2P Require Import Prelude.

#[global] Open Scope Z_scope.

(** ** Roles and actions *)

Inductive UserRole := role_admin | role_viewer | role_deployer | role_node_admin | role_auditor.
#[export] Instance UserRole_eq_dec : EqDecision UserRole.
Proof. solve_decision. Defined.

Definition USER_ROLES : list UserRole := [role_admin; role_viewer; role_deployer; role_node_admin; role_auditor].
Definition role_name (r : UserRole) : string :=
  match r with
  | role_admin => "admin" | role_viewer => "viewer" | role_deployer => "deployer" | role_node_admin => "node-admin"
  | role_auditor => "auditor"
  end.
(** The value of a list that has the given text. *)
Definition named {A} (name : A -> string) (l : list A) (s : string) : option A := snd <$> list_find (fun x => name x = s) l.
Definition isUserRole (value : string) : option UserRole := named role_name USER_ROLES value.

Inductive PermissionAction :=
  | stack_read | stack_edit | stack_deploy | stack_create | stack_delete
  | node_read | node_manage
  | system_settings | system_users | system_license | system_webhooks | system_tokens | system_console | system_audit
  | system_registries.
#[export] Instance PermissionAction_eq_dec : EqDecision PermissionAction.
Proof. solve_decision. Defined.

Definition action_name (a : PermissionAction) : string :=
  match a with
  | stack_read => "stack:read" | stack_edit => "stack:edit" | stack_deploy => "stack:deploy" | stack_create => "stack:create"
  | stack_delete => "stack:delete" | node_read => "node:read" | node_manage => "node:manage"
  | system_settings => "system:settings" | system_users => "system:users" | system_license => "system:license"
  | system_webhooks => "system:webhooks" | system_tokens => "system:tokens" | system_console => "system:console"
  | system_audit => "system:audit" | system_registries => "system:registries"
  end.

Definition ROLE_PERMISSIONS (r : UserRole) : list PermissionAction :=
  match r with
  | role_admin =>
      [stack_read; stack_edit; stack_deploy; stack_create; stack_delete; node_read; node_manage;
       system_settings; system_users; system_license; system_webhooks; system_tokens; system_console; system_audit;
       system_registries]
  | role_node_admin => [stack_read; stack_edit; stack_deploy; stack_create; stack_delete; node_read; node_manage]
  | role_deployer => [stack_read; stack_deploy]
  | role_viewer => [stack_read; node_read]
  | role_auditor => [stack_read; node_read; system_audit]
  end.
Definition ALL_PERMISSION_ACTIONS : list PermissionAction := ROLE_PERMISSIONS role_admin.
Definition isPermissionAction (value : string) : option PermissionAction := named action_name ALL_PERMISSION_ACTIONS value.

Definition permits (r : UserRole) (a : PermissionAction) : bool := bool_decide (a ∈ ROLE_PERMISSIONS r).
(** [action.startsWith('stack:')] *)
Definition is_stack_action (a : PermissionAction) : bool := bool_decide (is_Some (strip_prefix "stack:" (action_name a))).

(** ** Role assignments (DatabaseService.ts) *)

Inductive ResourceType := rt_stack | rt_node.
#[export] Instance ResourceType_eq_dec : EqDecision ResourceType.
Proof. solve_decision. Defined.

Record RoleAssignment := mkAssignment {
  ra_id : Z;
  ra_user_id : Z;
  ra_role : UserRole;
  ra_resource_type : ResourceType;
  ra_resource_id : string;
  ra_node_id : option Z;
}.

Definition getRoleAssignments (t : list RoleAssignment) (userId : Z) (resourceType : ResourceType) (resourceId : string)
    (nodeId : option Z) : list RoleAssignment :=
  match resourceType with
  | rt_stack =>
      match nodeId with
      | None => []
      | Some n => filter (fun r => ra_user_id r = userId /\ ra_resource_type r = rt_stack /\ ra_resource_id r = resourceId
                                   /\ ra_node_id r = Some n) t
      end
  | rt_node =>
      filter (fun r => ra_user_id r = userId /\ ra_resource_type r = rt_node /\ ra_resource_id r = resourceId
                       /\ ra_node_id r = None) t
  end.

(** The columns of the unique indexes. *)
Definition same_grant (a b : RoleAssignment) : bool :=
  bool_decide (ra_user_id a = ra_user_id b /\ ra_role a = ra_role b /\ ra_resource_type a = ra_resource_type b
               /\ ra_resource_id a = ra_resource_id b /\ ra_node_id a = ra_node_id b).

(** The table with the new row, or [None] when the call throws: no node for a stack, or
    a row that is already there. [id] is the next of the auto-increment. *)
Definition addRoleAssignment (id userId : Z) (role : UserRole) (resourceType : ResourceType) (resourceId : string)
    (node_id : option Z) (t : list RoleAssignment) : option (list RoleAssignment) :=
  let nodeId := match resourceType with rt_stack => node_id | rt_node => None end in
  if bool_decide (resourceType = rt_stack) && bool_decide (nodeId = None) then None
  else
    let row := mkAssignment id userId role resourceType resourceId nodeId in
    if existsb (same_grant row) t then None else Some (t ++ [row]).

Definition deleteRoleAssignment (id : Z) : list RoleAssignment -> list RoleAssignment := filter (fun r => ra_id r <> id).
Definition deleteRoleAssignmentsByUser (userId : Z) : list RoleAssignment -> list RoleAssignment :=
  filter (fun r => ra_user_id r <> userId).
Definition deleteRoleAssignmentsByResource (resourceType : ResourceType) (resourceId : string)
    : list RoleAssignment -> list RoleAssignment :=
  filter (fun r => ~ (ra_resource_type r = resourceType /\ ra_resource_id r = resourceId)).
Definition deleteRoleAssignmentsByStack (nodeId : Z) (stackName : string) : list RoleAssignment -> list RoleAssignment :=
  filter (fun r => ~ (ra_resource_type r = rt_stack /\ ra_node_id r = Some nodeId /\ ra_resource_id r = stackName)).
Definition deleteRoleAssignmentsByStackNode (nodeId : Z) : list RoleAssignment -> list RoleAssignment :=
  filter (fun r => ~ (ra_resource_type r = rt_stack /\ ra_node_id r = Some nodeId)).

(** What deleting a node removes. *)
Definition deleteNodeAssignments (id : Z) (t : list RoleAssignment) : list RoleAssignment :=
  deleteRoleAssignmentsByStackNode id (deleteRoleAssignmentsByResource rt_node (pretty id) t).

(** ** Permissions (permissions.ts) *)

(** A set in insertion order. *)
Definition add_new {A} `{EqDecision A} (l : list A) (x : A) : list A := if decide (x ∈ l) then l else l ++ [x].

Definition addStackActionsFromRole (actions : list PermissionAction) (role : UserRole) : list PermissionAction :=
  foldl (fun acts a => if is_stack_action a then add_new acts a else acts) actions (ROLE_PERMISSIONS role).

Definition scopedActionsForStack (t : list RoleAssignment) (userId nodeId : Z) (stackName : string) : list PermissionAction :=
  let actions := foldl (fun acts r => addStackActionsFromRole acts (ra_role r)) []
                   (getRoleAssignments t userId rt_stack stackName (Some nodeId)) in
  foldl (fun acts r => addStackActionsFromRole acts (ra_role r)) actions (getRoleAssignments t userId rt_node (pretty nodeId) None).

Definition some_role_permits (rows : list RoleAssignment) (a : PermissionAction) : bool :=
  existsb (fun r => permits (ra_role r) a) rows.

(** The scoped part of both resolvers: the assignments of the resource, then those of
    the node of a stack. *)
Definition scopedGrant (t : list RoleAssignment) (userId : Z) (a : PermissionAction) (resourceType : ResourceType)
    (resourceId : string) (nodeId : option Z) : bool :=
  if some_role_permits (getRoleAssignments t userId resourceType resourceId nodeId) a then true
  else match resourceType, nodeId with
       | rt_stack, Some n => some_role_permits (getRoleAssignments t userId rt_node (pretty n) None) a
       | _, _ => false
       end.

Record PermissionSubject := mkSubject { su_username : string; su_role : UserRole; su_userId : Z }.

(** [resource]: the type and id, when both are given and the id is not empty. *)
Definition given_resource (resource : option (ResourceType * string)) : option (ResourceType * string) :=
  match resource with Some (_, "") => None | r => r end.

Definition checkPermissionForSubject (t : list RoleAssignment) (subject : PermissionSubject) (a : PermissionAction)
    (resource : option (ResourceType * string)) (resourceNodeId : option Z) : bool :=
  if bool_decide (su_role subject = role_admin) then true
  else if permits (su_role subject) a then true
  else match given_resource resource with
       | None => false
       | Some (ty, id) =>
           scopedGrant t (su_userId subject) a ty id (match ty with rt_stack => resourceNodeId | rt_node => None end)
       end.

Record StackEvidence := mkEvidence { ev_stackName : string; ev_actions : list PermissionAction }.

(** What the middleware before a handler put on a request. *)
Record Request := mkRequest {
  rq_method : string;
  rq_path : string;                       (* after the /api strip *)
  rq_nodeId : Z;
  rq_user : option PermissionSubject;
  rq_apiTokenScope : option string;
  rq_machineAuthScope : option string;
  rq_evidence : option StackEvidence;
}.

(** [resourceNodeId]: left out, [null], or a node. *)
Definition checkPermission (t : list RoleAssignment) (req : Request) (a : PermissionAction)
    (resource : option (ResourceType * string)) (resourceNodeId : option (option Z)) : bool :=
  match rq_user req with
  | None => false
  | Some user =>
      if bool_decide (su_role user = role_admin) then true
      else if permits (su_role user) a then true
      else match given_resource resource with
           | None => false
           | Some (ty, id) =>
               if match rq_evidence req with
                  | Some e => bool_decide (ty = rt_stack) && bool_decide (id = ev_stackName e) && is_stack_action a
                              && bool_decide (a ∈ ev_actions e)
                  | None => false
                  end
               then true
               else scopedGrant t (su_userId user) a ty id
                      (match ty with rt_stack => default (Some (rq_nodeId req)) resourceNodeId | rt_node => None end)
           end
  end.

(** ** Which stack a path names (stackRouteAuth.ts) *)

Definition slash_char : Ascii.ascii := Ascii.ascii_of_nat 47.
Definition startsWith (p s : string) : bool := bool_decide (is_Some (strip_prefix p s)).

(** [split] at a character. *)
Fixpoint split_on (c : Ascii.ascii) (s : string) : list string :=
  match s with
  | EmptyString => [""]
  | String d s =>
      match split_on c s with
      | [] => []
      | w :: ws => if decide (d = c) then "" :: w :: ws else String d w :: ws
      end
  end.

(** What is before the first slash, and the rest from it on. *)
Fixpoint cut_slash (s : string) : string * string :=
  match s with
  | EmptyString => ("", "")
  | String c s' => if decide (c = slash_char) then ("", s) else let '(a, b) := cut_slash s' in (String c a, b)
  end.

Fixpoint without_last (s : string) : string :=
  match s with EmptyString => "" | String _ EmptyString => "" | String c s => String c (without_last s) end.

Definition upper_char (c : Ascii.ascii) : Ascii.ascii :=
  let n := Ascii.nat_of_ascii c in
  if (97 <=? n)%nat && (n <=? 122)%nat then Ascii.ascii_of_nat (n - 32) else c.
Fixpoint toUpperCase (s : string) : string :=
  match s with EmptyString => EmptyString | String c s => String (upper_char c) (toUpperCase s) end.

Definition normalizePath (pathAfterApiStrip : string) : string :=
  let withoutQuery := default pathAfterApiStrip (head (split_on (Ascii.ascii_of_nat 63) pathAfterApiStrip)) in
  if (1 <? String.length withoutQuery)%nat && endsWith "/" withoutQuery then without_last withoutQuery else withoutQuery.

Definition name_char (c : Ascii.ascii) : bool :=
  let n := Z.of_nat (Ascii.nat_of_ascii c) in
  ((97 <=? n) && (n <=? 122)) || ((65 <=? n) && (n <=? 90)) || ((48 <=? n) && (n <=? 57)) || (n =? 95) || (n =? 45).
Fixpoint all_name_chars (s : string) : bool :=
  match s with EmptyString => true | String c s => name_char c && all_name_chars s end.
Definition isValidStackName (name : string) : bool := bool_decide (name <> "") && all_name_chars name.

Inductive StackRouteClassify := named_stack (stackName : string) (action : PermissionAction) | static_route | unknown_named.

Definition STATIC_STACK_PATHS : list string :=
  ["/stacks"; "/stacks/"; "/stacks/statuses"; "/stacks/readiness-summary"; "/stacks/discovery"; "/stacks/import/scan";
   "/stacks/import/move"; "/stacks/bulk"; "/stacks/from-git"; "/stacks/platform/docker-context";
   "/stacks/platform/observation"].

Definition EXACT_SUFFIX_RULES : list (string * string * PermissionAction) :=
  [("GET", "", stack_read);
   ("GET", "/envs", stack_read);
   ("GET", "/env", stack_read);
   ("GET", "/project-env-files", stack_read);
   ("GET", "/project-env-files/candidates", stack_read);
   ("GET", "/dossier", stack_read);
   ("GET", "/containers", stack_read);
   ("GET", "/services", stack_read);
   ("GET", "/runtime-artifact-identity", stack_read);
   ("GET", "/health-observation", stack_read);
   ("GET", "/observation/status", stack_read);
   ("GET", "/observation/readiness", stack_read);
   ("GET", "/effective-artifact-context", stack_read);
   ("GET", "/drift", stack_read);
   ("GET", "/preflight", stack_read);
   ("GET", "/missing-external-networks", stack_read);
   ("GET", "/preflight/acknowledgements", stack_read);
   ("GET", "/networking", stack_read);
   ("GET", "/storage", stack_read);
   ("GET", "/effective-anatomy", stack_read);
   ("GET", "/effective-services", stack_read);
   ("GET", "/env-inventory", stack_read);
   ("GET", "/label-inventory", stack_read);
   ("GET", "/exposure", stack_read);
   ("GET", "/update-readiness", stack_read);
   ("GET", "/rollback-readiness", stack_read);
   ("GET", "/health-gate", stack_read);
   ("GET", "/update-preview", stack_read);
   ("GET", "/backup", stack_read);
   ("GET", "/scan-status", stack_read);
   ("GET", "/file-roots", stack_read);
   ("GET", "/files", stack_read);
   ("GET", "/files/content", stack_read);
   ("GET", "/files/download", stack_read);
   ("GET", "/files/bulk-download", stack_read);
   ("GET", "/files/permissions", stack_read);
   ("GET", "/recoveries", stack_deploy);
   ("GET", "/activity", stack_read);
   ("GET", "/git-source", stack_read);
   ("GET", "/git-source/history", stack_read);
   ("GET", "/git-source/manifest", stack_read);
   ("GET", "/git-source/provider-hooks", stack_read);
   ("PUT", "", stack_edit);
   ("PUT", "/env", stack_edit);
   ("PUT", "/project-env-files", stack_edit);
   ("PUT", "/dossier", stack_edit);
   ("POST", "/drift/recheck", stack_read);
   ("POST", "/preflight/run", stack_read);
   ("POST", "/preflight/acknowledgements", stack_edit);
   ("PUT", "/exposure", stack_edit);
   ("POST", "/files/upload", stack_edit);
   ("PUT", "/files/content", stack_edit);
   ("DELETE", "/files", stack_edit);
   ("POST", "/files/folder", stack_edit);
   ("PATCH", "/files/rename", stack_edit);
   ("POST", "/files/copy", stack_edit);
   ("POST", "/files/bulk-delete", stack_edit);
   ("POST", "/files/bulk-move", stack_edit);
   ("PUT", "/files/permissions", stack_edit);
   ("PUT", "/labels", stack_edit);
   ("PUT", "/git-source", stack_edit);
   ("POST", "/fleet-snapshot-apply", stack_edit);
   ("DELETE", "/git-source", stack_edit);
   ("POST", "/git-source/pull", stack_edit);
   ("POST", "/git-source/apply", stack_edit);
   ("POST", "/pull-images", stack_edit);
   ("POST", "/git-source/webhook-pull", stack_edit);
   ("POST", "/git-source/dismiss-pending", stack_edit);
   ("POST", "/git-source/browse", stack_edit);
   ("POST", "/git-source/suspend", stack_edit);
   ("POST", "/git-source/resume", stack_edit);
   ("POST", "/git-source/retry", stack_edit);
   ("POST", "/git-source/provider-hooks", stack_edit);
   ("POST", "/deploy", stack_deploy);
   ("POST", "/down", stack_deploy);
   ("POST", "/restart", stack_deploy);
   ("POST", "/stop", stack_deploy);
   ("POST", "/start", stack_deploy);
   ("POST", "/update-preview", stack_deploy);
   ("POST", "/update", stack_deploy);
   ("POST", "/rollback", stack_deploy);
   ("POST", "/backup", stack_deploy);
   ("POST", "/drift/dismissals", stack_deploy);
   ("POST", "/scan-status/rescan", stack_deploy);
   ("DELETE", "", stack_delete)].

(** The last rule of a method and a suffix. *)
Definition EXACT_SUFFIX_INDEX (method suffix : string) : option PermissionAction :=
  snd <$> last (filter (fun r => r.1 = (method, suffix)) EXACT_SUFFIX_RULES).

(** A segment that matches [[^/]+]. *)
Definition segment (s : string) : bool := negb (bool_decide (s = "")).

(** The rules with a variable segment. *)
Definition variable_suffix (method suffix : string) : option PermissionAction :=
  let same (a b : string) := bool_decide (a = b) in
  match split_on slash_char suffix with
  | [e; k; x; y] =>
      if negb (same e "") then None
      else if same k "services" && segment x then
        if same method "POST" && bool_decide (y ∈ ["restart"; "stop"; "start"; "update"; "restore"]) then Some stack_deploy
        else if same method "GET" && same y "recovery" then Some stack_deploy
        else None
      else if same method "DELETE" && same k "preflight" && same x "acknowledgements" && segment y then Some stack_edit
      else if same method "DELETE" && same k "drift" && same x "dismissals" && segment y then Some stack_deploy
      else if (same method "PATCH" || same method "DELETE") && same k "git-source" && same x "provider-hooks" && segment y then Some stack_edit
      else None
  | [e; k; p; x; op] =>
      if same e "" && same method "POST" && same k "git-source" && same p "provider-hooks" && segment x && (same op "rotate" || same op "test-result")
      then Some stack_edit else None
  | _ => None
  end.

Section classify.
Variable decodeURIComponent : string -> option string.

Definition decodeStackSegment (raw : string) : option string :=
  match decodeURIComponent raw with
  | None => None
  | Some decoded => if isValidStackName decoded then Some decoded else None
  end.

Definition classifyStackApiPath (method pathAfterApiStrip : string) : StackRouteClassify :=
  let methodUpper := toUpperCase method in
  let path := normalizePath pathAfterApiStrip in
  if negb (startsWith "/stacks" path) && negb (startsWith "/image-updates/refresh/" path) then static_route
  else if bool_decide (path ∈ STATIC_STACK_PATHS) || (bool_decide (methodUpper = "POST") && bool_decide (path = "/stacks"))
  then static_route
  else if bool_decide (path = "/stacks/statuses") || bool_decide (path = "/stacks/discovery") || startsWith "/stacks/import/" path
          || bool_decide (path = "/stacks/bulk") || bool_decide (path = "/stacks/from-git") then static_route
  else match strip_prefix "/image-updates/refresh/" path with
       | Some raw =>
           if segment raw && bool_decide (cut_slash raw = (raw, "")) then
             match decodeStackSegment raw with Some stackName => named_stack stackName stack_deploy | None => unknown_named end
           else unknown_named
       | None =>
           match strip_prefix "/stacks/" path with
           | None => static_route
           | Some rest =>
               let '(raw, suffix) := cut_slash rest in
               if negb (segment raw) then static_route
               else match decodeStackSegment raw with
                    | None => unknown_named
                    | Some stackName =>
                        match EXACT_SUFFIX_INDEX methodUpper suffix with
                        | Some action => named_stack stackName action
                        | None =>
                            match variable_suffix methodUpper suffix with
                            | Some action => named_stack stackName action
                            | None => unknown_named
                            end
                        end
                    end
           end
       end.
End classify.

(** ** The evidence header *)

(** The known actions of a comma-separated text, each once; [None] for an unknown one. *)
Fixpoint known_actions (parts : list string) (acts : list PermissionAction) : option (list PermissionAction) :=
  match parts with
  | [] => Some acts
  | p :: parts => match isPermissionAction p with Some a => known_actions parts (add_new acts a) | None => None end
  end.

Definition comma : Ascii.ascii := Ascii.ascii_of_nat 44.

Definition parseScopedStackActionsHeader (value : string) : option (list PermissionAction) :=
  let trimmed := trim value in
  if bool_decide (trimmed = "") then None
  else
    let parts := filter (fun p => p <> "") (trim <$> split_on comma trimmed) in
    if bool_decide (parts = []) then None else known_actions parts [].

(** [join(',')] *)
Fixpoint comma_joined (l : list string) : string :=
  match l with [] => "" | [s] => s | s :: l => s +:+ "," +:+ comma_joined l end.
Definition formatScopedStackActionsHeader (actions : list PermissionAction) : string :=
  comma_joined (action_name <$> foldl add_new [] actions).
