(* ===== verification/Auth.v ===== *)
(** * Authentication and the hop to another node (middleware/auth.ts, middleware/apiTokenScope.ts,
    utils/apiTokenFormat.ts, utils/apiTokenAuth.ts; the permission gate and the headers of
    proxy/remoteNodeProxy.ts)

    A request is authenticated by an API token, a session or the machine credential of
    another instance; what it may do is then up to [Access]. A hub that passes a request
    on checks it first and sends the role and the evidence along.

    The tables of users and tokens are lists. [jwt.verify] and SHA-256 are parameters: the
    claims of a token under a secret, the digest of a text in hexadecimal, and its first
    32 bits. The licence tier, the deploy provenance and the node name of the same headers
    are left out, and so are the messages of refusals. *)

From S2P Require Import Prelude Reconcile Access.

#[global] Open Scope Z_scope.

(** ** API tokens (apiTokenFormat.ts, apiTokenAuth.ts) *)

Definition API_TOKEN_PREFIX : string := "sen_sk_".
Definition RANDOM_LEN : nat := 43.
Definition CHECKSUM_LEN : nat := 6.
Definition API_TOKEN_TOTAL_LEN : nat := 7 + (RANDOM_LEN + CHECKSUM_LEN).

(** The character of the alphabet at an index below 62. *)
Definition ALPHABET (i : Z) : Ascii.ascii :=
  Ascii.ascii_of_nat (Z.to_nat (if i <? 26 then 65 + i else if i <? 52 then 97 + (i - 26) else 48 + (i - 52))).

Fixpoint base62 (count : nat) (n : Z) (out : string) : string :=
  match count with O => out | S count => base62 count (n / 62) (String (ALPHABET (n mod 62)) out) end.
(** [value >>> 0] is the value modulo 2^32. *)
Definition base62Encode32 (value : Z) : string := base62 CHECKSUM_LEN (value mod 2 ^ 32) "".

Definition alnum (c : Ascii.ascii) : bool :=
  let n := Z.of_nat (Ascii.nat_of_ascii c) in
  ((97 <=? n) && (n <=? 122)) || ((65 <=? n) && (n <=? 90)) || ((48 <=? n) && (n <=? 57)).
Fixpoint all_alnum (s : string) : bool := match s with EmptyString => true | String c s => alnum c && all_alnum s end.

Definition API_TOKEN_REGEX (token : string) : bool :=
  match strip_prefix API_TOKEN_PREFIX token with
  | Some body => (String.length body =? RANDOM_LEN + CHECKSUM_LEN)%nat && all_alnum body
  | None => false
  end.
Definition looksLikeApiToken (token : string) : bool :=
  (String.length token =? API_TOKEN_TOTAL_LEN)%nat && API_TOKEN_REGEX token.

Inductive ApiTokenScope := sc_read_only | sc_deploy_only | sc_full_admin | sc_observe_only.
Definition API_TOKEN_SCOPES : list ApiTokenScope := [sc_read_only; sc_deploy_only; sc_full_admin; sc_observe_only].
Definition scope_name (s : ApiTokenScope) : string :=
  match s with
  | sc_read_only => "read-only" | sc_deploy_only => "deploy-only" | sc_full_admin => "full-admin" | sc_observe_only => "observe-only"
  end.
Definition isApiTokenScope (value : string) : option ApiTokenScope := named scope_name API_TOKEN_SCOPES value.
Definition API_TOKEN_SCOPE_TO_ROLE (s : ApiTokenScope) : UserRole :=
  match s with
  | sc_read_only => role_viewer | sc_deploy_only => role_deployer | sc_full_admin => role_admin | sc_observe_only => role_viewer
  end.

Record ApiToken := mkApiToken {
  at_id : Z;
  at_token_hash : string;
  at_name : string;
  at_scope : string;
  at_user_id : Z;
  at_last_used_at : option Z;
  at_expires_at : option Z;
  at_revoked_at : option Z;
}.

Record User := mkUser { us_id : Z; us_username : string; us_role : UserRole; us_token_version : Z }.

Record AuthDb := mkAuthDb {
  ad_users : list User;
  ad_tokens : list ApiToken;
  ad_jwt_secret : option string;
  ad_sliding_refresh : bool;
}.

Definition getUserById (db : AuthDb) (id : Z) : option User := snd <$> list_find (fun u => us_id u = id) (ad_users db).
Definition getUserByUsername (db : AuthDb) (name : string) : option User :=
  snd <$> list_find (fun u => us_username u = name) (ad_users db).
Definition getApiTokenByHash (db : AuthDb) (h : string) : option ApiToken :=
  snd <$> list_find (fun t => at_token_hash t = h) (ad_tokens db).

Inductive TokenRejection := not_api_token | bad_checksum | not_found | revoked | expired | unknown_scope.

Section tokens.
Variables (sha256_hex : string -> string) (sha256_u32 : string -> Z).

Definition computeChecksum (random : string) : string := base62Encode32 (sha256_u32 random).

(** [rnd]: the random indices, each below 62. *)
Definition generateApiToken (rnd : list Z) : string :=
  let random := foldr (fun i s => String (ALPHABET i) s) "" rnd in
  API_TOKEN_PREFIX +:+ random +:+ computeChecksum random.

Definition verifyApiTokenChecksum (token : string) : bool :=
  if negb (looksLikeApiToken token) then false
  else
    let random := String.substring 7 RANDOM_LEN token in
    let checksum := String.substring (7 + RANDOM_LEN) (String.length token - (7 + RANDOM_LEN)) token in
    bool_decide (checksum = computeChecksum random).

Definition validateApiToken (db : AuthDb) (now : Z) (token : string) : TokenRejection + ApiToken :=
  if negb (looksLikeApiToken token) then inl not_api_token
  else if negb (verifyApiTokenChecksum token) then inl bad_checksum
  else match getApiTokenByHash db (sha256_hex token) with
       | None => inl not_found
       | Some t =>
           if bool_decide (is_Some (truthyZ (at_revoked_at t))) then inl revoked
           else if match truthyZ (at_expires_at t) with Some e => e <? now | None => false end then inl expired
           else if bool_decide (isApiTokenScope (at_scope t) = None) then inl unknown_scope
           else inr t
       end.

Definition LAST_USED_THROTTLE_MS : Z := 60000.
Definition touchApiTokenLastUsed (now : Z) (t : ApiToken) (db : AuthDb) : AuthDb :=
  if match truthyZ (at_last_used_at t) with Some l => now - l <? LAST_USED_THROTTLE_MS | None => false end then db
  else mkAuthDb (ad_users db)
         ((fun x => if decide (at_id x = at_id t)
                    then mkApiToken (at_id x) (at_token_hash x) (at_name x) (at_scope x) (at_user_id x) (Some now) (at_expires_at x)
                           (at_revoked_at x)
                    else x) <$> ad_tokens db)
         (ad_jwt_secret db) (ad_sliding_refresh db).

(** ** Authentication (auth.ts) *)

Record Claims := mkClaims {
  cl_username : option string;
  cl_scope : option string;
  cl_tv : option Z;
  cl_user_id : option Z;
  cl_exp : option Z;
}.

Record HttpRequest := mkHttp {
  ht_method : string;
  ht_path : string;
  ht_nodeId : Z;
  ht_cookie : option string;
  ht_authorization : option string;
  ht_role : option string;               (* x-sencho-actor-role *)
  ht_scopedName : option string;         (* x-sencho-scoped-stack-name *)
  ht_scopedActions : option string;      (* x-sencho-scoped-stack-actions *)
  ht_apiToken : option ApiToken;         (* the row the rate limiter validated for this bearer *)
}.

Inductive AuthResult :=
  | AR_unauthorized
  | AR_mfa_required
  | AR_mfa_pending (userId : option Z)
  | AR_next (req : Request) (refreshes : bool).

Definition SESSION_REFRESH_THRESHOLD_MS : Z := 3600000.

Variable jwt_verify : string -> string -> option Claims.

(** The evidence of the headers; an incomplete or malformed pair is none. *)
Definition evidenceOf (http : HttpRequest) : option StackEvidence :=
  let scopedName := trim (default "" (ht_scopedName http)) in
  let scopedActionsStr := default "" (ht_scopedActions http) in
  if bool_decide (scopedName <> "") && isValidStackName scopedName && bool_decide (scopedActionsStr <> "") then
    match parseScopedStackActionsHeader scopedActionsStr with
    | Some (a :: acts) => Some (mkEvidence scopedName (a :: acts))
    | _ => None
    end
  else None.

Definition forwardedRole (http : HttpRequest) : UserRole :=
  match ht_role http with None => role_admin | Some r => default role_viewer (isUserRole r) end.

Definition authMiddleware (now : Z) (http : HttpRequest) (db : AuthDb) : AuthResult * AuthDb :=
  let bearerToken := ht_authorization http ≫= strip_prefix "Bearer " in
  let request user apiScope machineScope ev :=
    mkRequest (ht_method http) (ht_path http) (ht_nodeId http) (Some user) apiScope machineScope ev in
  match match truthy bearerToken with Some t => Some t | None => truthy (ht_cookie http) end with
  | None => (AR_unauthorized, db)
  | Some token =>
      if looksLikeApiToken token then
        match match ht_apiToken http with Some t => inr t | None => validateApiToken db now token end with
        | inl _ => (AR_unauthorized, db)
        | inr t =>
            let username := match truthy (us_username <$> getUserById db (at_user_id t)) with
                            | Some u => u | None => "api-token:" +:+ at_name t end in
            let role := match isApiTokenScope (at_scope t) with Some s => API_TOKEN_SCOPE_TO_ROLE s | None => role_viewer end in
            (AR_next (request (mkSubject username role (at_user_id t)) (Some (at_scope t)) None None) false,
             touchApiTokenLastUsed now t db)
        end
      else match truthy (ad_jwt_secret db) ≫= (fun secret => jwt_verify secret token) with
           | None => (AR_unauthorized, db)
           | Some claims =>
               if bool_decide (cl_scope claims = Some "mfa_pending") then
                 if bool_decide (ht_path http = "/api/auth/login/mfa") || bool_decide (ht_path http = "/api/auth/logout")
                 then (AR_mfa_pending (cl_user_id claims), db) else (AR_mfa_required, db)
               else if bool_decide (cl_scope claims = Some "node_proxy") || bool_decide (cl_scope claims = Some "pilot_tunnel") then
                 (AR_next (request (mkSubject "node-proxy" (forwardedRole http) 0) None (cl_scope claims) (evidenceOf http)) false, db)
               else match truthy (cl_username claims) ≫= getUserByUsername db with
                    | None => (AR_unauthorized, db)
                    | Some dbUser =>
                        if negb (us_token_version dbUser =? default 1 (cl_tv claims)) then (AR_unauthorized, db)
                        else
                          let refreshes := ad_sliding_refresh db
                                           && match cl_exp claims with
                                              | Some e => e * 1000 - now <? SESSION_REFRESH_THRESHOLD_MS | None => false end in
                          (AR_next (request (mkSubject (us_username dbUser) (us_role dbUser) (us_id dbUser)) None None None) refreshes, db)
                    end
           end
  end.
End tokens.

(** ** The reach of an API token (apiTokenScope.ts) *)

(** The patterns over the segments of [/api/stacks/...]. *)
Definition DEPLOY_ALLOWED (fullPath : string) : bool :=
  let under := strip_prefix "/api/stacks/" fullPath in
  match split_on slash_char <$> under with
  | Some [x; op] => segment x && bool_decide (op ∈ ["deploy"; "down"; "restart"; "stop"; "start"; "update"])
  | Some [x; k; y; op] => segment x && bool_decide (k = "services") && segment y && bool_decide (op ∈ ["update"; "restore"])
  | _ => false
  end.

Definition OBSERVE_ALLOWED (fullPath : string) : bool :=
  bool_decide (fullPath = "/api/fleet/observation/nodes") || bool_decide (fullPath = "/api/fleet/observation/health")
  || bool_decide (fullPath = "/api/stacks/platform/observation")
  || match split_on slash_char <$> strip_prefix "/api/stacks/" fullPath with
     | Some [x; k; what] => isValidStackName x && bool_decide (k = "observation") && bool_decide (what ∈ ["status"; "readiness"])
     | _ => false
     end.

Definition enforceApiTokenScope (req : Request) : bool :=
  match truthy (rq_apiTokenScope req) with
  | None => true
  | Some scope =>
      let get := bool_decide (rq_method req = "GET") in
      let fullPath := "/api" +:+ rq_path req in
      match isApiTokenScope scope with
      | Some sc_full_admin => true
      | Some sc_read_only => get
      | Some sc_deploy_only => get || (bool_decide (rq_method req = "POST") && DEPLOY_ALLOWED fullPath)
      | Some sc_observe_only => get && OBSERVE_ALLOWED fullPath
      | None => false
      end
  end.

(** ** The hop (remoteNodeProxy.ts) *)

(** What a probe of the remote's capabilities says. *)
Inductive Probe := pb_supported | pb_unsupported | pb_unreachable.

Record HopEnv := mkHopEnv { he_rbac : Probe; he_evidence : Probe }.

Inductive HopRefusal := hop_denied | hop_unavailable | hop_upgrade_required.

(** The gate of a request that is not an admin's, and of one that names a stack: refused,
    or passed with the evidence to attach. The gates of single routes that come before it
    (volumes, service updates, observation) and after it (alerts, auto-heal, settings, image
    refresh, recovery) are left out. *)
Definition hopGate (decodeURIComponent : string -> option string) (t : list RoleAssignment) (env : HopEnv) (req : Request)
    : HopRefusal + option StackEvidence :=
  let role := su_role <$> rq_user req in
  let stack_gate :=
    match classifyStackApiPath decodeURIComponent (rq_method req) (rq_path req) with
    | unknown_named => inl hop_denied
    | static_route => inr None
    | named_stack stackName action =>
        if negb (checkPermission t req action (Some (rt_stack, stackName)) None) then inl hop_denied
        else if match role with Some r => bool_decide (r = role_admin) || permits r action | None => false end then inr None
        else match he_evidence env with
             | pb_unreachable => inl hop_unavailable
             | pb_unsupported => inl hop_upgrade_required
             | pb_supported =>
                 match rq_user req with
                 | None => inl hop_denied
                 | Some user => inr (Some (mkEvidence stackName (scopedActionsForStack t (su_userId user) (rq_nodeId req) stackName)))
                 end
             end
    end in
  if bool_decide (role = Some role_admin) then stack_gate
  else match he_rbac env with
       | pb_unreachable => inl hop_unavailable
       | pb_unsupported => inl hop_upgrade_required
       | pb_supported => stack_gate
       end.

(** The request the remote receives: what the client sent in the trusted headers is
    replaced. [elevated] is the role that the gates of settings, image refresh and recovery
    requests give; [token] is the machine credential. *)
Definition forwardedRequest (req : Request) (elevated : option UserRole) (ev : option StackEvidence) (token : string) (remoteNodeId : Z)
    : HttpRequest :=
  mkHttp (rq_method req) (rq_path req) remoteNodeId None (Some ("Bearer " +:+ token))
    (role_name <$> match elevated with Some r => Some r | None => su_role <$> rq_user req end)
    (ev_stackName <$> ev) ((fun e => formatScopedStackActionsHeader (ev_actions e)) <$> ev) None.

(** ** Which requests are authenticated, and which are passed on (authGate.ts,
    proxyExemptPaths.ts, routePatterns.ts) *)

Definition number_char (c : Ascii.ascii) : bool :=
  let n := Z.of_nat (Ascii.nat_of_ascii c) in (48 <=? n) && (n <=? 57).
Definition hex_char (c : Ascii.ascii) : bool :=
  let n := Z.of_nat (Ascii.nat_of_ascii c) in number_char c || ((97 <=? n) && (n <=? 102)).
Fixpoint all_chars (p : Ascii.ascii -> bool) (s : string) : bool :=
  match s with EmptyString => true | String c s => p c && all_chars p s end.
(** A number: [\d+]. *)
Definition number (s : string) : bool := negb (bool_decide (s = "")) && all_chars number_char s.
Definition hex_of (n : nat) (s : string) : bool := (String.length s =? n)%nat && all_chars hex_char s.
Definition uuid (s : string) : bool :=
  match split_on (Ascii.ascii_of_nat 45) s with
  | [a; b; c; d; e] => hex_of 8 a && hex_of 4 b && hex_of 4 c && hex_of 4 d && hex_of 12 e
  | _ => false
  end.

Definition WEBHOOK_TRIGGER_RE (path : string) : bool :=
  match split_on slash_char <$> strip_prefix "/webhooks/" path with
  | Some [id; t] => number id && bool_decide (t = "trigger") | _ => false end.
(** The pattern ignores case. *)
Definition GITOPS_HOOK_INGEST_RE (path : string) : bool :=
  match split_on slash_char <$> strip_prefix "/gitops/hooks/" (toLowerCase path) with
  | Some [node; id] => number node && uuid id | _ => false end.

(** Whether a path goes on without authentication. *)
Definition authGateExempts (path : string) : bool :=
  startsWith "/auth/" path || WEBHOOK_TRIGGER_RE path || GITOPS_HOOK_INGEST_RE path.

Definition PROXY_EXEMPT_PREFIXES : list string :=
  ["/api/auth/"; "/api/nodes"; "/api/license"; "/api/fleet/"; "/api/webhooks"; "/api/gitops/hooks"; "/api/meta"; "/api/build-info"].
Definition isProxyExemptPath (path : string) : bool := existsb (fun p => startsWith p path) PROXY_EXEMPT_PREFIXES.
