(* ===== verification/AccessProps.v ===== *)
(** * Permissions, authentication and the hop: the theorems *)

From S2P Require Import Prelude Reconcile Access Auth.

#[global] Open Scope Z_scope.

(** ** Names *)

Lemma isPermissionAction_name a : isPermissionAction (action_name a) = Some a.
Proof. by destruct a. Qed.
Lemma isUserRole_name r : isUserRole (role_name r) = Some r.
Proof. by destruct r. Qed.

Lemma named_Some {A} (name : A -> string) l s x : named name l s = Some x -> x ∈ l /\ name x = s.
Proof.
  unfold named. intros ([i y] & Hf & ->)%fmap_Some. apply list_find_Some in Hf as (Hi & <- & _).
  simpl. eauto using list_elem_of_lookup_2.
Qed.

(** ** Sets in insertion order *)

Lemma elem_of_add_new {A} `{EqDecision A} (l : list A) x y : y ∈ add_new l x <-> y ∈ l \/ y = x.
Proof. unfold add_new. case_decide; [naive_solver|]. rewrite elem_of_app, list_elem_of_singleton. tauto. Qed.
Lemma NoDup_add_new {A} `{EqDecision A} (l : list A) x : NoDup l -> NoDup (add_new l x).
Proof.
  intros Hl. unfold add_new. case_decide; [done|]. apply NoDup_app. split_and!; [done| |apply NoDup_singleton].
  intros y Hy ->%list_elem_of_singleton. done.
Qed.

Lemma elem_of_fold {A B} (f : list A -> B -> list A) (P : B -> A -> Prop) l acc a :
  (forall acc x a, a ∈ f acc x <-> a ∈ acc \/ P x a) ->
  a ∈ foldl f acc l <-> a ∈ acc \/ exists x, x ∈ l /\ P x a.
Proof.
  intros Hf. revert acc. induction l as [|x l IH]; intros acc; simpl.
  - split; [auto|]. intros [?|(x & Hx & _)]; [done|]. by apply elem_of_nil in Hx.
  - rewrite IH, Hf. setoid_rewrite elem_of_cons. naive_solver.
Qed.
Lemma NoDup_fold {A B} (f : list A -> B -> list A) l acc :
  (forall acc x, NoDup acc -> NoDup (f acc x)) -> NoDup acc -> NoDup (foldl f acc l).
Proof. intros Hf. revert acc. induction l as [|x l IH]; intros acc Hacc; simpl; auto. Qed.

Lemma add_new_all {A} `{EqDecision A} (l acc : list A) : NoDup (acc ++ l) -> foldl add_new acc l = acc ++ l.
Proof.
  revert acc. induction l as [|x l IH]; intros acc Hnd; simpl; [by rewrite app_nil_r|].
  assert (Hx : x ∉ acc).
  { intros Hx. apply NoDup_app in Hnd as (_ & Hd & _). apply (Hd x Hx). left. }
  unfold add_new at 2. rewrite decide_False by done.
  rewrite IH; rewrite <- app_assoc; done.
Qed.

(** ** Grants *)

(** An assignment covers a resource: it is on the resource itself, or on the node of a
    stack. *)
Definition covers (r : RoleAssignment) (ty : ResourceType) (id : string) (nodeId : option Z) : Prop :=
  (ra_resource_type r = ty /\ ra_resource_id r = id
     /\ match ty with rt_stack => is_Some nodeId /\ ra_node_id r = nodeId | rt_node => ra_node_id r = None end)
  \/ (ty = rt_stack /\ exists n, nodeId = Some n
        /\ ra_resource_type r = rt_node /\ ra_resource_id r = pretty n /\ ra_node_id r = None).

(** The user has an assignment that covers the resource and permits the action. *)
Definition granted (t : list RoleAssignment) (userId : Z) (a : PermissionAction) ty id nodeId : Prop :=
  exists r, r ∈ t /\ ra_user_id r = userId /\ covers r ty id nodeId /\ a ∈ ROLE_PERMISSIONS (ra_role r).

Lemma permits_iff r a : permits r a = true <-> a ∈ ROLE_PERMISSIONS r.
Proof. unfold permits. by rewrite bool_decide_eq_true. Qed.

Lemma some_role_permits_iff rows a :
  some_role_permits rows a = true <-> exists r, r ∈ rows /\ a ∈ ROLE_PERMISSIONS (ra_role r).
Proof.
  unfold some_role_permits. rewrite existsb_exists. setoid_rewrite permits_iff.
  setoid_rewrite list_elem_of_In. done.
Qed.

Lemma scopedGrant_iff t u a ty id n : scopedGrant t u a ty id n = true <-> granted t u a ty id n.
Proof.
  unfold scopedGrant, granted, covers. destruct (some_role_permits (getRoleAssignments t u ty id n) a) eqn:E.
  - split; [intros _|done]. apply some_role_permits_iff in E as (r & Hr & Ha). unfold getRoleAssignments in Hr.
    destruct ty; [destruct n; [|by apply elem_of_nil in Hr]|]; apply list_elem_of_filter in Hr; naive_solver.
  - split.
    + intros H. destruct ty; [|done]. destruct n as [n|]; [|done]. apply some_role_permits_iff in H as (r & Hr & Ha).
      unfold getRoleAssignments in Hr. apply list_elem_of_filter in Hr. naive_solver.
    + intros (r & Hr & Hu & [(Hty & Hid & Hn)|(-> & k & -> & Hty & Hid & Hn)] & Ha).
      * exfalso. apply not_true_iff_false in E. apply E. apply some_role_permits_iff. exists r. split; [|done].
        unfold getRoleAssignments. destruct ty; [destruct Hn as [[k ->] Hn]|]; apply list_elem_of_filter; naive_solver.
      * apply some_role_permits_iff. exists r. split; [|done]. unfold getRoleAssignments.
        apply list_elem_of_filter. naive_solver.
Qed.

(** The evidence on a request names the resource and holds the action. *)
Definition evidenced (req : Request) (a : PermissionAction) ty id : Prop :=
  exists e, rq_evidence req = Some e /\ ty = rt_stack /\ id = ev_stackName e /\ is_stack_action a = true /\ a ∈ ev_actions e.

Lemma admin_permits a : a ∈ ROLE_PERMISSIONS role_admin.
Proof. destruct a; simpl; repeat (try (left; fail); first [left|right]). Qed.

(** The node a check is about: the one given, else that of the request. *)
Definition node_of (req : Request) (resourceNodeId : option (option Z)) (ty : ResourceType) : option Z :=
  match ty with rt_stack => default (Some (rq_nodeId req)) resourceNodeId | rt_node => None end.

Lemma permission_iff t req a resource resourceNodeId :
  checkPermission t req a resource resourceNodeId = true <->
  exists user, rq_user req = Some user
  /\ (a ∈ ROLE_PERMISSIONS (su_role user)
      \/ exists ty id, resource = Some (ty, id) /\ id <> ""
         /\ (evidenced req a ty id \/ granted t (su_userId user) a ty id (node_of req resourceNodeId ty))).
Proof.
  unfold checkPermission, node_of. destruct (rq_user req) as [user|]; [|naive_solver].
  case_bool_decide as Hadm.
  { split; [|done]. intros _. exists user. split; [done|]. left. rewrite Hadm. apply admin_permits. }
  destruct (permits (su_role user) a) eqn:Hp.
  { apply permits_iff in Hp. naive_solver. }
  assert (Hn : a ∉ ROLE_PERMISSIONS (su_role user)) by (by rewrite <- permits_iff, Hp).
  destruct resource as [[ty id]|]; [|naive_solver]. destruct id as [|c id]; [naive_solver|]. cbn [given_resource].
  set (e := match rq_evidence req with Some _ => _ | None => _ end).
  assert (He : e = true <-> evidenced req a ty (String c id)).
  { subst e. unfold evidenced. destruct (rq_evidence req) as [e|]; [|naive_solver].
    rewrite !andb_true_iff, !bool_decide_eq_true. naive_solver. }
  clearbody e. destruct e.
  - split; [|done]. intros _. exists user. split; [done|]. right. exists ty, (String c id). split_and!; [done..|]. left. by apply He.
  - rewrite scopedGrant_iff. assert (~ evidenced req a ty (String c id)) by (by rewrite <- He). naive_solver.
Qed.

(** C8: A permission is granted for exactly three reasons: the global role has the action;
    or, for a resource that is named, the evidence that the hub sent is for this very stack
    and holds the action; or an assignment of this user covers the resource, on the
    resource itself and, for a stack, on the node it is on, or on that whole node, with a
    role that has the action. Nothing else matters, so a grant on one stack or node says
    nothing about another. *)
Theorem permission_exact t req a resource resourceNodeId :
  checkPermission t req a resource resourceNodeId = true <->
  exists user, rq_user req = Some user
  /\ (a ∈ ROLE_PERMISSIONS (su_role user)
      \/ exists ty id, resource = Some (ty, id) /\ id <> ""
         /\ (evidenced req a ty id \/ granted t (su_userId user) a ty id (node_of req resourceNodeId ty))).
Proof. apply permission_iff. Qed.

(** ** Evidence *)




(** *** The header *)

Fixpoint plain (s : string) : bool :=
  match s with EmptyString => true | String c s => negb (is_space c) && negb (bool_decide (c = comma)) && plain s end.

Lemma plain_name a : plain (action_name a) = true.
Proof. by destruct a. Qed.

Fixpoint no_space (s : string) : bool := match s with EmptyString => true | String c s => negb (is_space c) && no_space s end.
Lemma trim_no_space s : no_space s = true -> trim s = s.
Proof.
  intros Hs. unfold trim. assert (E : trim_left s = s).
  { destruct s as [|c s]; [done|]. simpl in *. apply andb_true_iff in Hs as [Hc _]. by destruct (is_space c). }
  rewrite E. clear E. induction s as [|c s IH]; [done|]. simpl in *. apply andb_true_iff in Hs as [Hc Hs].
  rewrite IH by done. by destruct (is_space c).
Qed.
Lemma no_space_plain s : plain s = true -> no_space s = true.
Proof. induction s as [|c s IH]; [done|]. simpl. rewrite !andb_true_iff. naive_solver. Qed.
Lemma no_space_app s t : no_space (s +:+ t) = no_space s && no_space t.
Proof. induction s as [|c s IH]; [done|]. simpl. by rewrite IH, andb_assoc. Qed.

Lemma split_on_nonempty c s : split_on c s <> [].
Proof. induction s as [|d s IH]; simpl; [done|]. destruct (split_on c s); [done|by case_decide]. Qed.

Lemma split_plain s t : plain s = true -> split_on comma (s +:+ "," +:+ t) = s :: split_on comma t.
Proof.
  induction s as [|c s IH]; simpl.
  - intros _. change (EmptyString +:+ t) with t. pose proof (split_on_nonempty comma t). by destruct (split_on comma t).
  - rewrite !andb_true_iff, negb_true_iff. intros [[_ Hc] Hs]. simpl in IH. rewrite IH by done.
    rewrite decide_False; [done|]. apply negb_true_iff, bool_decide_eq_false in Hc. done.
Qed.
Lemma split_plain_last s : plain s = true -> split_on comma s = [s].
Proof.
  induction s as [|c s IH]; [done|]. simpl. rewrite !andb_true_iff. intros [[_ Hc] Hs]. rewrite IH by done.
  rewrite decide_False; [done|]. apply negb_true_iff, bool_decide_eq_false in Hc. done.
Qed.

Lemma split_join (l : list string) : l <> [] -> Forall (fun s => plain s = true) l -> split_on comma (comma_joined l) = l.
Proof.
  intros Hne Hl. induction Hl as [|s [|s2 l] Hs Hl IH]; [done|by apply split_plain_last|].
  change (comma_joined (s :: s2 :: l)) with (s +:+ "," +:+ comma_joined (s2 :: l)). rewrite split_plain, IH by done. done.
Qed.
Lemma no_space_join (l : list string) : Forall (fun s => plain s = true) l -> no_space (comma_joined l) = true.
Proof.
  induction 1 as [|s [|s2 l] Hs Hl IH]; [done|by apply no_space_plain|].
  change (comma_joined (s :: s2 :: l)) with (s +:+ "," +:+ comma_joined (s2 :: l)).
  rewrite no_space_app, no_space_plain by done. by simpl.
Qed.

Lemma known_actions_names l acc : NoDup (acc ++ l) -> known_actions (action_name <$> l) acc = Some (acc ++ l).
Proof.
  revert acc. induction l as [|a l IH]; intros acc Hnd; simpl; [by rewrite app_nil_r|].
  rewrite isPermissionAction_name.
  assert (Ha : add_new acc a = acc ++ [a]).
  { change (foldl add_new acc [a] = acc ++ [a]). apply add_new_all.
    change (a :: l) with ([a] ++ l) in Hnd. rewrite app_assoc in Hnd. by apply NoDup_app in Hnd as [? _]. }
  rewrite IH; rewrite Ha, <- app_assoc; done.
Qed.

Lemma header_decodes actions : actions <> [] ->
  parseScopedStackActionsHeader (formatScopedStackActionsHeader actions) = Some (foldl add_new [] actions).
Proof.
  intros Hne. unfold parseScopedStackActionsHeader, formatScopedStackActionsHeader. set (l := foldl add_new [] actions).
  assert (Hl : l <> []).
  { destruct actions as [|a actions]; [done|]. intros E. assert (Ha : a ∈ l).
    { subst l. apply (elem_of_fold _ (fun x y => y = x)); [apply elem_of_add_new|]. right. exists a. split; [left|done]. }
    rewrite E in Ha. by apply elem_of_nil in Ha. }
  assert (Hnd : NoDup l) by (apply NoDup_fold; [intros; by apply NoDup_add_new|apply NoDup_nil_2]).
  clearbody l. clear Hne actions.
  assert (Hp : Forall (fun s => plain s = true) (action_name <$> l)).
  { apply Forall_fmap, Forall_forall. intros a _. apply plain_name. }
  rewrite trim_no_space by (by apply no_space_join).
  assert (Hj : comma_joined (action_name <$> l) <> "").
  { destruct l as [|a [|b l]]; [done|by destruct a|]. simpl. by destruct a. }
  rewrite bool_decide_eq_false_2, split_join by (done || by destruct l).
  assert (Ht : trim <$> (action_name <$> l) = action_name <$> l).
  { rewrite <- list_fmap_compose. apply list_fmap_ext. intros i a _. simpl. apply trim_no_space, no_space_plain, plain_name. }
  rewrite Ht. assert (Hf : filter (fun p => p <> "") (action_name <$> l) = action_name <$> l).
  { clear. induction l as [|a l IH]; [done|]. simpl. rewrite filter_cons_True by (by destruct a). by f_equal. }
  rewrite Hf, bool_decide_eq_false_2 by (by destruct l). by rewrite known_actions_names.
Qed.

(** The evidence header is read back as it was written: from the text of any set of
    actions that is not empty the remote recovers exactly those actions, in their order. *)
Theorem evidence_header_roundtrip actions : actions <> [] ->
  parseScopedStackActionsHeader (formatScopedStackActionsHeader actions) = Some (foldl add_new [] actions).
Proof. apply header_decodes. Qed.

(** ** Paths *)



Section hop.
Variable decodeURIComponent : string -> option string.



(** ** The remote end *)

Variables (sha256_hex : string -> string) (sha256_u32 : string -> Z) (jwt_verify : string -> string -> option Claims).
Let auth := authMiddleware sha256_hex sha256_u32 jwt_verify.

(** The remote accepts the hub's machine credential. *)
Definition machine_credential (db : AuthDb) (token : string) : Prop :=
  looksLikeApiToken token = false /\ token <> "" /\
  exists secret claims, truthy (ad_jwt_secret db) = Some secret /\ jwt_verify secret token = Some claims
    /\ (cl_scope claims = Some "node_proxy" \/ cl_scope claims = Some "pilot_tunnel").

Lemma valid_name_no_space s : isValidStackName s = true -> no_space s = true /\ s <> "".
Proof.
  unfold isValidStackName. rewrite andb_true_iff, bool_decide_eq_true. intros [Hne Hs]. split; [|done]. clear Hne.
  induction s as [|c s IH]; [done|]. simpl in *. apply andb_true_iff in Hs as [Hc Hs]. rewrite IH, andb_true_r by done.
  unfold name_char in Hc. unfold is_space. destruct (_ || _) eqn:E in |- *; [|done]. exfalso.
  rewrite !orb_true_iff, !andb_true_iff, !Z.leb_le, !Z.eqb_eq in *. lia.
Qed.

Lemma evidence_of_forwarded req elevated ev token n :
  match ev with Some e => isValidStackName (ev_stackName e) = true /\ NoDup (ev_actions e) | None => True end ->
  evidenceOf (forwardedRequest req elevated ev token n)
  = match ev with Some e => if decide (ev_actions e = []) then None else Some e | None => None end.
Proof.
  unfold evidenceOf. destruct ev as [[s acts]|]; simpl; [|done]. intros [Hs Hnd].
  destruct (valid_name_no_space s Hs) as [Hsp Hne].
  rewrite trim_no_space, Hs, bool_decide_eq_true_2 by done. simpl. case_decide as Ha.
  - subst acts. done.
  - assert (Hf : formatScopedStackActionsHeader acts <> "").
    { intros E. pose proof (header_decodes acts Ha) as Hd. by rewrite E in Hd. }
    rewrite bool_decide_eq_true_2, header_decodes, (add_new_all acts []) by done. by destruct acts.
Qed.

Lemma remote_accepts now req elevated ev token n db : machine_credential db token ->
  match ev with Some e => isValidStackName (ev_stackName e) = true /\ NoDup (ev_actions e) | None => True end ->
  exists scope, auth now (forwardedRequest req elevated ev token n) db
  = (AR_next (mkRequest (rq_method req) (rq_path req) n
        (Some (mkSubject "node-proxy" (default role_admin (match elevated with Some r => Some r | None => su_role <$> rq_user req end)) 0))
        None (Some scope)
        (match ev with Some e => if decide (ev_actions e = []) then None else Some e | None => None end)) false, db).
Proof.
  intros (Hlook & Hne & secret & claims & Hsec & Hver & Hscope) Hev. unfold auth, authMiddleware.
  assert (Hb : ht_authorization (forwardedRequest req elevated ev token n) ≫= strip_prefix "Bearer " = Some token).
  { change (strip_prefix "Bearer " ("Bearer " +:+ token) = Some token). by apply strip_prefix_Some. }
  rewrite Hb. destruct token as [|ch token]; [done|]. cbn [truthy]. rewrite Hlook, Hsec. simpl mbind. rewrite Hver.
  assert (Hrole : forwardedRole (forwardedRequest req elevated ev (String ch token) n)
                  = default role_admin (match elevated with Some r => Some r | None => su_role <$> rq_user req end)).
  { unfold forwardedRole. simpl. destruct elevated as [r|]; [by destruct r|].
    destruct (rq_user req) as [u|]; [|done]. simpl. by destruct (su_role u). }
  rewrite Hrole, evidence_of_forwarded by done.
  destruct Hscope as [E|E]; rewrite E; eexists; reflexivity.
Qed.

(** ** The hub's gate *)


End hop.


(** ** Authority *)

Section authority.
Variables (sha256_hex : string -> string) (sha256_u32 : string -> Z) (jwt_verify : string -> string -> option Claims).

(** The credential a request presents: a bearer token, else the cookie. *)
Definition presented (http : HttpRequest) : option string :=
  match truthy (ht_authorization http ≫= strip_prefix "Bearer ") with Some t => Some t | None => truthy (ht_cookie http) end.

(** A live API token: its digest is that of a row that is neither revoked nor expired. *)
Definition live_token (db : AuthDb) (now : Z) (token : string) (t : ApiToken) (s : ApiTokenScope) : Prop :=
  verifyApiTokenChecksum sha256_u32 token = true /\ t ∈ ad_tokens db /\ at_token_hash t = sha256_hex token
  /\ truthyZ (at_revoked_at t) = None /\ (forall e, truthyZ (at_expires_at t) = Some e -> now <= e)
  /\ isApiTokenScope (at_scope t) = Some s.

Lemma validate_live db now token t : validateApiToken sha256_hex sha256_u32 db now token = inr t ->
  exists s, live_token db now token t s.
Proof.
  unfold validateApiToken, live_token. intros E.
  destruct (negb (looksLikeApiToken token)); [done|].
  destruct (verifyApiTokenChecksum sha256_u32 token) eqn:Hv; [|done]. simpl in E.
  destruct (getApiTokenByHash db (sha256_hex token)) as [t'|] eqn:Hg; [|done].
  case_bool_decide as Hr; [done|].
  assert (He : forall e, truthyZ (at_expires_at t') = Some e -> now <= e).
  { intros e Ee. rewrite Ee in E. destruct (e <? now) eqn:Hlt; [done|]. zlia. }
  destruct (match truthyZ (at_expires_at t') with Some e => e <? now | None => false end); [done|].
  case_bool_decide as Hs; [done|]. injection E as ->.
  destruct (isApiTokenScope (at_scope t)) as [s|]; [|done]. exists s.
  unfold getApiTokenByHash in Hg. apply fmap_Some in Hg as ([i x] & Hf & ->). apply list_find_Some in Hf as (Hi & Hh & _).
  split_and!; try done.
  - by eapply list_elem_of_lookup_2.
  - destruct (truthyZ (at_revoked_at _)); [|done]. by destruct Hr.
Qed.

Definition by_token db now token req : Prop :=
  exists t s, live_token db now token t s /\ rq_apiTokenScope req = Some (at_scope t) /\ rq_machineAuthScope req = None
    /\ rq_evidence req = None
    /\ exists u, rq_user req = Some u /\ su_role u = API_TOKEN_SCOPE_TO_ROLE s /\ su_userId u = at_user_id t.
Definition by_machine db token http req : Prop :=
  exists secret claims, truthy (ad_jwt_secret db) = Some secret /\ jwt_verify secret token = Some claims
    /\ (cl_scope claims = Some "node_proxy" \/ cl_scope claims = Some "pilot_tunnel")
    /\ rq_machineAuthScope req = cl_scope claims /\ rq_apiTokenScope req = None
    /\ rq_evidence req = evidenceOf http
    /\ rq_user req = Some (mkSubject "node-proxy" (forwardedRole http) 0).
Definition by_session db token req : Prop :=
  exists secret claims row, truthy (ad_jwt_secret db) = Some secret /\ jwt_verify secret token = Some claims
    /\ cl_scope claims <> Some "mfa_pending"
    /\ row ∈ ad_users db /\ cl_username claims = Some (us_username row) /\ us_token_version row = default 1 (cl_tv claims)
    /\ rq_apiTokenScope req = None /\ rq_machineAuthScope req = None /\ rq_evidence req = None
    /\ rq_user req = Some (mkSubject (us_username row) (us_role row) (us_id row)).

(** C4: Where authority comes from. A request that is let through acts either for a live
    API token, with the role of its scope and no more, and marked with that scope; or for
    another instance, under a machine credential of this one, and only then are the role
    and the evidence of its headers believed; or for a user who is in the table, with the
    role the table has now, under a session that no later change of the account has
    invalidated and whose second factor is not outstanding. *)
Theorem authority_comes_from now http db req refreshes db' :
  authMiddleware sha256_hex sha256_u32 jwt_verify now http db = (AR_next req refreshes, db') ->
  (forall t, ht_apiToken http = Some t -> exists token, presented http = Some token /\ validateApiToken sha256_hex sha256_u32 db now token = inr t) ->
  exists token, presented http = Some token /\ (by_token db now token req \/ by_machine db token http req \/ by_session db token req).
Proof.
  unfold authMiddleware. change (match truthy (_ ≫= _) with Some t => Some t | None => truthy (ht_cookie http) end) with (presented http).
  destruct (presented http) as [token|] eqn:Hp; [|done]. intros E Hmemo. exists token. split; [done|].
  destruct (looksLikeApiToken token) eqn:Hlook.
  - left. destruct (match ht_apiToken http with Some t => inr t | None => validateApiToken _ _ db now token end) as [|t] eqn:Ht; [done|].
    assert (Hv : validateApiToken sha256_hex sha256_u32 db now token = inr t).
    { destruct (ht_apiToken http) as [t'|]; [|done]. injection Ht as <-. destruct (Hmemo t' eq_refl) as (tk & Htk & Hv).
      by injection Htk as <-. }
    apply validate_live in Hv as [s Hlive]. exists t, s. split; [done|].
    destruct Hlive as (_ & _ & _ & _ & _ & Hs). rewrite Hs in E. injection E as <- _ _. simpl. eauto 10.
  - right. destruct (truthy (ad_jwt_secret db)) as [secret|] eqn:Hsec; [|done]. simpl in E.
    destruct (jwt_verify secret token) as [claims|] eqn:Hver; [|done].
    case_bool_decide as Hmfa; [by case_match|]. case_match eqn:Hm.
    + left. injection E as <- _ _. exists secret, claims. simpl. split_and!; try done.
      apply orb_true_iff in Hm as [Hm|Hm]; apply bool_decide_eq_true in Hm; auto.
    + right. destruct (truthy (cl_username claims)) as [name|] eqn:Hname; [|done]. simpl in E.
      destruct (getUserByUsername db name) as [row|] eqn:Hrow; [|done].
      destruct (us_token_version row =? default 1 (cl_tv claims)) eqn:Htv; [|done]. simpl in E. injection E as <- _ _.
      unfold getUserByUsername in Hrow. apply fmap_Some in Hrow as ([i x] & Hf & ->). apply list_find_Some in Hf as (Hi & Hu & _).
      exists secret, claims, x. simpl. zbool. split_and!; try done; [by eapply list_elem_of_lookup_2|].
      rewrite Hu. unfold truthy in Hname. destruct (cl_username claims) as [[|]|]; [done|by injection Hname as ->|done].
Qed.
End authority.

(** ** API tokens *)

(** The index of a character of the alphabet. *)
Definition index62 (c : Ascii.ascii) : Z :=
  let n := Z.of_nat (Ascii.nat_of_ascii c) in if n <? 65 then n - 48 + 52 else if n <? 97 then n - 65 else n - 97 + 26.

Lemma alphabet_ok i : 0 <= i < 62 -> index62 (ALPHABET i) = i /\ alnum (ALPHABET i) = true.
Proof.
  intros Hi. assert (Hall : forallb (fun i => (index62 (ALPHABET i) =? i) && alnum (ALPHABET i)) (seqZ 0 62) = true) by reflexivity.
  rewrite forallb_forall in Hall. specialize (Hall i). rewrite <- list_elem_of_In, elem_of_seqZ in Hall.
  specialize (Hall ltac:(lia)). apply andb_true_iff in Hall as [?%Z.eqb_eq ?]. done.
Qed.
Lemma alnum_index c : alnum c = true -> 0 <= index62 c < 62 /\ ALPHABET (index62 c) = c.
Proof. destruct c as [[] [] [] [] [] [] [] []]; vm_compute; try discriminate; intros _; repeat split; discriminate. Qed.

Lemma length_str_app a b : String.length (a +:+ b) = (String.length a + String.length b)%nat.
Proof. induction a as [|c a IH]; [done|]. simpl. f_equal. apply IH. Qed.
Lemma all_alnum_app a b : all_alnum (a +:+ b) = all_alnum a && all_alnum b.
Proof. induction a as [|c a IH]; [done|]. simpl. rewrite <- andb_assoc. f_equal. apply IH. Qed.

(** *** The checksum *)

Fixpoint value62 (acc : Z) (s : string) : Z :=
  match s with EmptyString => acc | String c s => value62 (acc * 62 + index62 c) s end.
Lemma value62_app acc a b : value62 acc (a +:+ b) = value62 (value62 acc a) b.
Proof. revert acc. induction a as [|c a IH]; intros acc; [done|]. simpl. apply IH. Qed.

Lemma base62_app k : forall n out, base62 k n out = base62 k n "" +:+ out.
Proof.
  induction k as [|k IH]; intros n out; [done|]. cbn [base62]. rewrite IH, (IH _ (String _ "")).
  by rewrite append_assoc.
Qed.
Lemma base62_ok k : forall n, String.length (base62 k n "") = k /\ all_alnum (base62 k n "") = true
  /\ forall acc, value62 acc (base62 k n "") = acc * 62 ^ Z.of_nat k + n mod 62 ^ Z.of_nat k.
Proof.
  induction k as [|k IH]; intros n.
  { split_and!; [done..|]. intros acc. simpl. rewrite Z.mod_1_r. lia. }
  cbn [base62]. rewrite base62_app. destruct (IH (n / 62)) as (Hl & Ha & Hv).
  pose proof (Z.mod_pos_bound n 62 ltac:(lia)) as Hm. destruct (alphabet_ok (n mod 62) Hm) as [Hi Hn].
  split_and!.
  - rewrite length_str_app, Hl. simpl. lia.
  - rewrite all_alnum_app, Ha. simpl. by rewrite Hn.
  - intros acc. rewrite value62_app, Hv. simpl value62. rewrite Hi.
    rewrite Nat2Z.inj_succ, Z.pow_succ_r by lia. rewrite (Z.rem_mul_r n 62) by (try lia; apply Z.pow_pos_nonneg; lia). lia.
Qed.

(** Six characters are enough: two values of 32 bits have the same checksum text only
    when they are equal, so a mistyped body passes the check only when the digests of the
    two bodies agree on their first 32 bits. *)
Theorem checksum_injective x y : 0 <= x < 2 ^ 32 -> 0 <= y < 2 ^ 32 -> base62Encode32 x = base62Encode32 y -> x = y.
Proof.
  intros Hx Hy E. unfold base62Encode32, CHECKSUM_LEN in E. rewrite !Z.mod_small in E by lia.
  destruct (base62_ok 6 x) as (_ & _ & Hvx). destruct (base62_ok 6 y) as (_ & _ & Hvy).
  specialize (Hvx 0). specialize (Hvy 0). rewrite E, Hvy in Hvx. rewrite !Z.mod_small in Hvx by lia. lia.
Qed.

(** *** Cutting strings *)

Lemma substring_0_app a b : String.substring 0 (String.length a) (a +:+ b) = a.
Proof. induction a as [|c a IH]; [by destruct b|]. simpl. f_equal. apply IH. Qed.
Lemma substring_all b : String.substring 0 (String.length b) b = b.
Proof. induction b as [|c b IH]; [done|]. simpl. by f_equal. Qed.
Lemma substring_skip a b n : String.substring (String.length a) n (a +:+ b) = String.substring 0 n b.
Proof. induction a as [|c a IH]; [done|]. simpl. apply IH. Qed.
Lemma string_cut n : forall s, (n <= String.length s)%nat -> exists a b, s = a +:+ b /\ String.length a = n.
Proof.
  induction n as [|n IH]; intros s Hs; [by exists "", s|]. destruct s as [|c s]; [simpl in Hs; lia|].
  destruct (IH s) as (a & b & -> & Ha); [simpl in Hs; lia|]. exists (String c a), b. split; [done|]. simpl. by f_equal.
Qed.

Definition text62 (rnd : list Z) : string := foldr (fun i s => String (ALPHABET i) s) "" rnd.
Lemma text62_ok rnd : Forall (fun i => 0 <= i < 62) rnd -> String.length (text62 rnd) = length rnd /\ all_alnum (text62 rnd) = true.
Proof.
  induction 1 as [|i rnd Hi _ [IHl IHa]]; [done|]. simpl. rewrite IHl, IHa. split; [done|].
  by destruct (alphabet_ok i Hi) as [_ ->].
Qed.
Lemma text62_of s : all_alnum s = true -> exists rnd, Forall (fun i => 0 <= i < 62) rnd /\ text62 rnd = s.
Proof.
  induction s as [|c s IH]; [by exists []|]. simpl. intros [Hc Hs]%andb_true_iff. destruct (IH Hs) as (rnd & Hr & <-).
  destruct (alnum_index c Hc) as [Hi Ec]. exists (index62 c :: rnd). split; [by constructor|]. simpl. by rewrite Ec.
Qed.

Lemma looks_like_parts a b : String.length a = RANDOM_LEN -> String.length b = CHECKSUM_LEN -> all_alnum (a +:+ b) = true ->
  looksLikeApiToken (API_TOKEN_PREFIX +:+ (a +:+ b)) = true.
Proof.
  intros Ha Hb Hall. unfold looksLikeApiToken, API_TOKEN_REGEX.
  rewrite (proj2 (strip_prefix_Some _ _ _) eq_refl), Hall, !length_str_app, Ha, Hb. done.
Qed.

Lemma verify_parts h a b : String.length a = RANDOM_LEN -> String.length b = CHECKSUM_LEN -> all_alnum (a +:+ b) = true ->
  verifyApiTokenChecksum h (API_TOKEN_PREFIX +:+ (a +:+ b)) = bool_decide (b = computeChecksum h a).
Proof.
  intros Ha Hb Hall. unfold verifyApiTokenChecksum. rewrite looks_like_parts by done. cbn [negb]. cbv zeta.
  assert (E1 : String.substring 7 RANDOM_LEN (API_TOKEN_PREFIX +:+ (a +:+ b)) = a).
  { change 7%nat with (String.length API_TOKEN_PREFIX). rewrite substring_skip, <- Ha. apply substring_0_app. }
  assert (E2 : String.substring (7 + RANDOM_LEN) (String.length (API_TOKEN_PREFIX +:+ (a +:+ b)) - (7 + RANDOM_LEN))
                 (API_TOKEN_PREFIX +:+ (a +:+ b)) = b).
  { rewrite !length_str_app, Ha. change (String.length API_TOKEN_PREFIX) with 7%nat.
    replace (7 + (RANDOM_LEN + String.length b) - (7 + RANDOM_LEN))%nat with (String.length b) by lia.
    replace (7 + RANDOM_LEN)%nat with (String.length (API_TOKEN_PREFIX +:+ a)) by (rewrite length_str_app, Ha; done).
    rewrite <- append_assoc, substring_skip. apply substring_all. }
  by rewrite E1, E2.
Qed.

(** C9: The checksum accepts exactly the tokens that can be issued: a text passes if and
    only if [generateApiToken] makes it of some 43 random indices. *)
Theorem token_check_exact h token :
  verifyApiTokenChecksum h token = true
  <-> exists rnd, length rnd = RANDOM_LEN /\ Forall (fun i => 0 <= i < 62) rnd /\ token = generateApiToken h rnd.
Proof.
  split.
  - intros Hv. assert (Hl : looksLikeApiToken token = true).
    { unfold verifyApiTokenChecksum in Hv. by destruct (looksLikeApiToken token). }
    unfold looksLikeApiToken, API_TOKEN_REGEX in Hl. apply andb_true_iff in Hl as [_ Hl].
    destruct (strip_prefix API_TOKEN_PREFIX token) as [body|] eqn:Hb; [|done]. apply strip_prefix_Some in Hb as ->.
    apply andb_true_iff in Hl as [Hlen%Nat.eqb_eq Hall].
    destruct (string_cut RANDOM_LEN body) as (a & b & -> & Ha); [lia|]. rewrite length_str_app in Hlen.
    rewrite verify_parts in Hv by (done || lia). apply bool_decide_eq_true in Hv as ->.
    rewrite all_alnum_app in Hall. apply andb_true_iff in Hall as [Hall _]. destruct (text62_of a Hall) as (rnd & Hr & <-).
    exists rnd. split_and!; [|done|done]. by destruct (text62_ok rnd Hr) as [<- _].
  - intros (rnd & Hlen & Hr & ->). unfold generateApiToken. fold (text62 rnd). destruct (text62_ok rnd Hr) as [Hl Ha].
    destruct (base62_ok CHECKSUM_LEN (h (text62 rnd) mod 2 ^ 32)) as (Hcl & Hca & _).
    rewrite verify_parts; [by apply bool_decide_eq_true|by rewrite Hl|done|].
    rewrite all_alnum_app, Ha. exact Hca.
Qed.

(** ** What a token reaches *)

Fixpoint no_slash (s : string) : bool := match s with EmptyString => true | String c s => negb (bool_decide (c = slash_char)) && no_slash s end.

(** A segment of a path. *)
Definition a_segment (s : string) : Prop := s <> "" /\ no_slash s = true.

Fixpoint join_slash (l : list string) : string :=
  match l with [] => "" | [s] => s | s :: l => s +:+ "/" +:+ join_slash l end.

Lemma split_slash_cons s t : no_slash s = true -> split_on slash_char (s +:+ "/" +:+ t) = s :: split_on slash_char t.
Proof.
  induction s as [|c s IH]; simpl.
  - intros _. change (EmptyString +:+ t) with t. pose proof (split_on_nonempty slash_char t). by destruct (split_on slash_char t).
  - rewrite andb_true_iff, negb_true_iff, bool_decide_eq_false. intros [Hc Hs]. simpl in IH. rewrite IH by done.
    by rewrite decide_False.
Qed.
Lemma split_slash_last s : no_slash s = true -> split_on slash_char s = [s].
Proof.
  induction s as [|c s IH]; [done|]. simpl. rewrite andb_true_iff, negb_true_iff, bool_decide_eq_false. intros [Hc Hs].
  rewrite IH by done. by rewrite decide_False.
Qed.
Lemma split_join_slash (l : list string) : l <> [] -> Forall (fun s => no_slash s = true) l -> split_on slash_char (join_slash l) = l.
Proof.
  intros Hne Hl. induction Hl as [|s [|s2 l] Hs Hl IH]; [done|by apply split_slash_last|].
  change (join_slash (s :: s2 :: l)) with (s +:+ "/" +:+ join_slash (s2 :: l)). rewrite split_slash_cons, IH by done. done.
Qed.
Lemma join_split_slash s : join_slash (split_on slash_char s) = s /\ Forall (fun w => no_slash w = true) (split_on slash_char s).
Proof.
  induction s as [|c s [IH Hall]]; simpl; [by repeat constructor|].
  pose proof (split_on_nonempty slash_char s) as Hne. destruct (split_on slash_char s) as [|w ws]; [done|].
  case_decide as Hc.
  - subst c. split; [|by constructor]. change (join_slash ("" :: w :: ws)) with ("/" +:+ join_slash (w :: ws)). by rewrite IH.
  - apply Forall_cons in Hall as [Hw Hall]. split.
    + destruct ws as [|w2 ws]; [by rewrite <- IH|]. by rewrite <- IH.
    + constructor; [|done]. simpl. by rewrite Hw, bool_decide_eq_false_2.
Qed.
Lemma split_slash_iff s l : l <> [] -> split_on slash_char s = l <-> s = join_slash l /\ Forall (fun w => no_slash w = true) l.
Proof.
  intros Hl. split.
  - intros <-. destruct (join_split_slash s). done.
  - intros [-> Hall]. by apply split_join_slash.
Qed.

Lemma under_stacks path l : l <> [] ->
  split_on slash_char <$> strip_prefix "/api/stacks/" ("/api" +:+ path) = Some l
  <-> path = "/stacks/" +:+ join_slash l /\ Forall (fun w => no_slash w = true) l.
Proof.
  intros Hl. rewrite fmap_Some. setoid_rewrite strip_prefix_Some. split.
  - intros (x & Hx & E). symmetry in E. apply split_slash_iff in E as [-> Hall]; [|done]. split; [|done].
    change ("/api" +:+ path = "/api" +:+ ("/stacks/" +:+ join_slash l)) in Hx. by repeat (injection Hx as Hx).
  - intros [-> Hall]. exists (join_slash l). split; [done|]. symmetry. by apply split_slash_iff.
Qed.

Lemma segment_iff s : no_slash s = true -> segment s = true <-> a_segment s.
Proof. intros Hs. unfold segment, a_segment. rewrite negb_true_iff, bool_decide_eq_false. tauto. Qed.

Lemma deploy_allowed_iff path : DEPLOY_ALLOWED ("/api" +:+ path) = true <->
  exists x op, a_segment x /\
    ((path = "/stacks/" +:+ x +:+ "/" +:+ op /\ op ∈ ["deploy"; "down"; "restart"; "stop"; "start"; "update"])
     \/ exists y, a_segment y /\ path = "/stacks/" +:+ x +:+ "/services/" +:+ y +:+ "/" +:+ op /\ op ∈ ["update"; "restore"]).
Proof.
  unfold DEPLOY_ALLOWED. split.
  - destruct (_ <$> _) as [[|x [|op [|y [|op2 [|? ?]]]]]|] eqn:E; try done; apply under_stacks in E as [-> Hall]; try done;
      rewrite !andb_true_iff; rewrite !Forall_cons in Hall; destruct_and? Hall.
    + intros [Hx Hop%bool_decide_eq_true]. apply segment_iff in Hx; [|done]. eauto 10.
    + intros [[[Hx ->%bool_decide_eq_true] Hy] Hop%bool_decide_eq_true].
      apply segment_iff in Hx; [|done]. apply segment_iff in Hy; [|done]. eauto 10.
  - intros (x & op & Hx & [[-> Hop]|(y & Hy & -> & Hop)]).
    + rewrite (proj2 (under_stacks _ [x; op] ltac:(done))).
      * rewrite (bool_decide_eq_true_2 _ Hop), andb_true_r. by apply segment_iff; destruct Hx.
      * split; [done|]. clear -Hx Hop. repeat constructor; [by destruct Hx|]. revert op Hop. apply Forall_forall. by repeat constructor.
    + rewrite (proj2 (under_stacks _ [x; "services"; y; op] ltac:(done))).
      * rewrite !andb_true_iff, !bool_decide_eq_true. destruct Hx as [Hx1 Hx2], Hy as [Hy1 Hy2].
        split_and!; try done; by apply segment_iff.
      * split; [done|]. clear -Hx Hy Hop. repeat constructor; [by destruct Hx|by destruct Hy|]. revert op Hop. apply Forall_forall. by repeat constructor.
Qed.

Lemma api_path path p : ("/api" +:+ path = "/api" +:+ p) <-> path = p.
Proof. split; [intros E; by repeat (injection E as E)|by intros ->]. Qed.

Lemma name_no_slash s : isValidStackName s = true -> no_slash s = true.
Proof.
  unfold isValidStackName. rewrite andb_true_iff. intros [_ Hs]. induction s as [|c s IH]; [done|].
  simpl in Hs. apply andb_true_iff in Hs as [Hc Hs]. simpl. rewrite (IH Hs), andb_true_r.
  apply negb_true_iff, bool_decide_eq_false. intros ->. by vm_compute in Hc.
Qed.

Lemma observe_allowed_iff path : OBSERVE_ALLOWED ("/api" +:+ path) = true <->
  path ∈ ["/fleet/observation/nodes"; "/fleet/observation/health"; "/stacks/platform/observation"]
  \/ exists x what, isValidStackName x = true /\ what ∈ ["status"; "readiness"]
       /\ path = "/stacks/" +:+ x +:+ "/observation/" +:+ what.
Proof.
  unfold OBSERVE_ALLOWED. rewrite !orb_true_iff, !bool_decide_eq_true.
  change "/api/fleet/observation/nodes" with ("/api" +:+ "/fleet/observation/nodes").
  change "/api/fleet/observation/health" with ("/api" +:+ "/fleet/observation/health").
  change "/api/stacks/platform/observation" with ("/api" +:+ "/stacks/platform/observation").
  rewrite !api_path, !elem_of_cons, elem_of_nil.
  set (e := match split_on slash_char <$> _ with Some _ => _ | None => _ end).
  assert (He : e = true <-> exists x what, isValidStackName x = true /\ what ∈ ["status"; "readiness"]
                                  /\ path = "/stacks/" +:+ x +:+ "/observation/" +:+ what); [|clearbody e; tauto].
  subst e. split.
  - destruct (_ <$> _) as [[|x [|k [|what [|? ?]]]]|] eqn:E; try done. apply under_stacks in E as [-> _]; [|done].
    rewrite !andb_true_iff, !bool_decide_eq_true. intros [[Hx ->] Hw]. eauto 10.
  - intros (x & what & Hx & Hw & ->). rewrite (proj2 (under_stacks _ [x; "observation"; what] ltac:(done))).
    + rewrite Hx, !andb_true_iff, !bool_decide_eq_true. done.
    + split; [done|]. repeat constructor; [by apply name_no_slash|]. revert what Hw. apply Forall_forall. by repeat constructor.
Qed.

(** What an API token reaches. A full-admin token reaches everything and a read-only
    token every GET. A deploy-only token reaches every GET and, beyond that, only a POST of
    a deploy, down, restart, stop, start or update on one stack, or of an update or restore
    on one service of one stack. An observe-only token reaches five GET templates and
    nothing else, and a token whose scope is none of these reaches nothing. *)
Theorem token_reach req s : rq_apiTokenScope req = Some (scope_name s) ->
  enforceApiTokenScope req = true <->
  match s with
  | sc_full_admin => True
  | sc_read_only => rq_method req = "GET"
  | sc_deploy_only =>
      rq_method req = "GET"
      \/ (rq_method req = "POST" /\ exists x op, a_segment x /\
            ((rq_path req = "/stacks/" +:+ x +:+ "/" +:+ op /\ op ∈ ["deploy"; "down"; "restart"; "stop"; "start"; "update"])
             \/ exists y, a_segment y /\ rq_path req = "/stacks/" +:+ x +:+ "/services/" +:+ y +:+ "/" +:+ op
                          /\ op ∈ ["update"; "restore"]))
  | sc_observe_only =>
      rq_method req = "GET"
      /\ (rq_path req ∈ ["/fleet/observation/nodes"; "/fleet/observation/health"; "/stacks/platform/observation"]
          \/ exists x what, isValidStackName x = true /\ what ∈ ["status"; "readiness"]
               /\ rq_path req = "/stacks/" +:+ x +:+ "/observation/" +:+ what)
  end.
Proof.
  intros Hs. unfold enforceApiTokenScope. rewrite Hs.
  assert (Hsc : isApiTokenScope (scope_name s) = Some s) by (by destruct s).
  assert (Ht : truthy (Some (scope_name s)) = Some (scope_name s)) by (by destruct s).
  rewrite Ht, Hsc. clear. destruct s.
  - apply bool_decide_eq_true.
  - rewrite orb_true_iff, andb_true_iff, !bool_decide_eq_true. by rewrite <- deploy_allowed_iff.
  - done.
  - rewrite andb_true_iff, bool_decide_eq_true. by rewrite <- observe_allowed_iff.
Qed.

(** ** Deletion *)

Lemma granted_filter (P : RoleAssignment -> Prop) `{forall r, Decision (P r)} t u a ty id n :
  granted (filter P t) u a ty id n <-> exists r, P r /\ r ∈ t /\ ra_user_id r = u /\ covers r ty id n /\ a ∈ ROLE_PERMISSIONS (ra_role r).
Proof. unfold granted. setoid_rewrite list_elem_of_filter. naive_solver. Qed.

(** A resource of a node: the node itself, or a stack on it. *)
Definition on_node (ty : ResourceType) (id : string) (nodeId : option Z) (n : Z) : Prop :=
  match ty with rt_stack => nodeId = Some n | rt_node => id = pretty n end.

Lemma pretty_Z_inj (a b : Z) : pretty a = pretty b -> a = b.
Proof. apply (inj pretty). Qed.

(** Deleting a node revokes what was granted there and nothing else: afterwards no
    user has a grant on the node or on a stack on it, so a node that is given the same
    number later starts with none; and every grant on another node or its stacks stays. *)
Theorem node_deletion_revokes t n u a ty id nodeId :
  granted (deleteNodeAssignments n t) u a ty id nodeId
  <-> granted t u a ty id nodeId /\ ~ on_node ty id nodeId n.
Proof.
  unfold deleteNodeAssignments, deleteRoleAssignmentsByStackNode. rewrite granted_filter.
  unfold deleteRoleAssignmentsByResource. setoid_rewrite list_elem_of_filter. unfold granted, covers, on_node.
  split.
  - intros (r & H1 & (H2 & Hr) & Hu & Hc & Ha). split; [by exists r|]. intros Hn.
    destruct ty; [subst nodeId|subst id]; naive_solver.
  - intros [(r & Hr & Hu & Hc & Ha) Hn]. exists r. split_and!; try done.
    + intros [H1 H2]. destruct Hc as [(Hty & _ & Hid)|(_ & k & _ & Hty & _)]; [|congruence].
      rewrite H1 in Hty. subst ty. destruct Hid as [_ Hid]. apply Hn. congruence.
    + intros [H1 H2]. destruct Hc as [(Hty & Hid & _)|(-> & k & -> & Hty & Hid & _)].
      * rewrite H1 in Hty. subst ty. apply Hn. congruence.
      * apply Hn. f_equal. apply pretty_Z_inj. congruence.
Qed.

(** ** What modelling showed *)

(** A path is exempt from authentication by a pattern that ignores case, and from the proxy
    by a prefix that does not: such a request reaches the proxy without a user, passes its
    gate, and is sent on without a role. *)
Lemma no_user_at_the_proxy decodeURIComponent t probe req (path := "/GitOps/hooks/1/01234567-89ab-cdef-0123-456789abcdef") :
  rq_path req = path -> rq_user req = None ->
  authGateExempts path = true /\ isProxyExemptPath ("/api" +:+ path) = false
  /\ hopGate decodeURIComponent t (mkHopEnv pb_supported probe) req = inr None
  /\ forall token n, ht_role (forwardedRequest req None None token n) = None.
Proof.
  intros Hp Hu. unfold hopGate, forwardedRequest, classifyStackApiPath. rewrite Hp, Hu. split_and!; done.
Qed.

(** A path under [/stacks/import/] is never that of a stack: on another node a stack of
    that name is out of reach of a user who has only a grant on it. *)
Lemma stack_named_import decodeURIComponent tHub tRemote env req method token n sha256_hex sha256_u32 jwt_verify now db user :
  toUpperCase method = "POST" -> rq_method req = method -> rq_path req = "/stacks/import/deploy" ->
  rq_user req = Some user -> stack_deploy ∉ ROLE_PERMISSIONS (su_role user) ->
  machine_credential jwt_verify db token -> (forall r, r ∈ tRemote -> ra_user_id r <> 0) ->
  forall ev, hopGate decodeURIComponent tHub env req = inr ev ->
  exists req', authMiddleware sha256_hex sha256_u32 jwt_verify now (forwardedRequest req None ev token n) db = (AR_next req' false, db)
  /\ checkPermission tRemote req' stack_deploy (Some (rt_stack, "import")) None = false.
Proof.
  intros Hm Hmeth Hpath Huser Hno Hcred Hremote ev Hgate.
  assert (Hc : classifyStackApiPath decodeURIComponent (rq_method req) (rq_path req) = static_route).
  { unfold classifyStackApiPath. by rewrite Hmeth, Hpath, Hm. }
  assert (Hev : ev = None).
  { unfold hopGate in Hgate. rewrite Hc in Hgate. by destruct (bool_decide _), (he_rbac env); simplify_eq. }
  subst ev. destruct (remote_accepts sha256_hex sha256_u32 jwt_verify now req None None token n db Hcred I) as [scope Hauth].
  eexists. split; [exact Hauth|]. apply not_true_iff_false. rewrite permission_iff.
  intros (u & [= <-] & [Hr|(ty & id & [= <- <-] & _ & [(e & He & _)|(r & Hr & Hu & _)])]).
  - simpl in Hr. rewrite Huser in Hr. done.
  - done.
  - by apply (Hremote r).
Qed.
