(* ===== verification/AccessRuns.v ===== *)
(** * Permissions, authentication and the hop: concrete requests

    A hub with one remote node, a user whose only grant is on one stack of that node, and
    the requests the user makes. *)

From S2P Require Import Prelude Reconcile Access Auth AccessProps.

#[global] Open Scope Z_scope.

(** ** The parties *)

(** A text without escapes is decoded to itself. *)
Definition plain_decode (s : string) : option string := Some s.
Definition a_digest (s : string) : string := s.
Definition a_digest32 (s : string) : Z := Z.of_nat (String.length s).

Definition machine_claims : Claims := mkClaims None (Some "node_proxy") None None None.
Definition session_claims : Claims := mkClaims (Some "ada") None (Some 3) None (Some 10000000).
Definition a_verify (secret token : string) : option Claims :=
  if decide (secret = "secret") then
    if decide (token = "machine") then Some machine_claims
    else if decide (token = "session") then Some session_claims else None
  else None.

Definition a_token : string := generateApiToken a_digest32 (replicate 43 7).
Definition a_row : ApiToken := mkApiToken 1 (a_digest a_token) "ci" "deploy-only" 7 None None None.
Definition a_db : AuthDb := mkAuthDb [mkUser 7 "ada" role_viewer 3] [a_row] (Some "secret") true.

(** On the hub, a deployer's grant on the stack [web] of node 4. *)
Definition hub_grants : list RoleAssignment := [mkAssignment 1 7 role_deployer rt_stack "web" (Some 4)].
Definition both_supported : HopEnv := mkHopEnv pb_supported pb_supported.

Definition deploy_of (stack : string) : Request :=
  mkRequest "POST" ("/stacks/" +:+ stack +:+ "/deploy") 4 (Some (mkSubject "ada" role_viewer 7)) None None None.

(** The grant lets the user deploy [web] through the hub, with the evidence for it, and
    not another stack. *)
Example the_gate :
  hopGate plain_decode hub_grants both_supported (deploy_of "web") = inr (Some (mkEvidence "web" [stack_read; stack_deploy]))
  /\ hopGate plain_decode hub_grants both_supported (deploy_of "db") = inl hop_denied
  /\ hopGate plain_decode hub_grants (mkHopEnv pb_supported pb_unsupported) (deploy_of "web") = inl hop_upgrade_required
  /\ hopGate plain_decode hub_grants (mkHopEnv pb_unreachable pb_supported) (deploy_of "web") = inl hop_unavailable.
Proof. by vm_compute. Qed.


(** What the remote then does with it: it lets the user deploy the one stack and not edit
    it, and a forged header under a session is not believed. *)
Example the_remote :
  let hop := forwardedRequest (deploy_of "web") None (Some (mkEvidence "web" [stack_read; stack_deploy])) "machine" 1 in
  let forged := mkHttp "POST" "/stacks/web/deploy" 1 (Some "session") None (Some "admin") (Some "web") (Some "stack:deploy") None in
  match fst (authMiddleware a_digest a_digest32 a_verify 0 hop a_db), fst (authMiddleware a_digest a_digest32 a_verify 0 forged a_db) with
  | AR_next r _, AR_next f _ =>
      checkPermission [] r stack_deploy (Some (rt_stack, "web")) None = true
      /\ checkPermission [] r stack_edit (Some (rt_stack, "web")) None = false
      /\ checkPermission [] r stack_deploy (Some (rt_stack, "db")) None = false
      /\ checkPermission [] f stack_deploy (Some (rt_stack, "web")) None = false
  | _, _ => False
  end.
Proof. by vm_compute. Qed.

Lemma authority_comes_from_witness :
  exists token, presented (mkHttp "GET" "/stacks" 1 None (Some ("Bearer " +:+ a_token)) None None None None) = Some token
  /\ (by_token a_digest a_digest32 a_db 100 token
        (mkRequest "GET" "/stacks" 1 (Some (mkSubject "ada" role_deployer 7)) (Some "deploy-only") None None)
      \/ by_machine a_verify a_db token (mkHttp "GET" "/stacks" 1 None (Some ("Bearer " +:+ a_token)) None None None None)
           (mkRequest "GET" "/stacks" 1 (Some (mkSubject "ada" role_deployer 7)) (Some "deploy-only") None None)
      \/ by_session a_verify a_db token
           (mkRequest "GET" "/stacks" 1 (Some (mkSubject "ada" role_deployer 7)) (Some "deploy-only") None None)).
Proof.
  apply (authority_comes_from a_digest a_digest32 a_verify 100
           (mkHttp "GET" "/stacks" 1 None (Some ("Bearer " +:+ a_token)) None None None None) a_db
           (mkRequest "GET" "/stacks" 1 (Some (mkSubject "ada" role_deployer 7)) (Some "deploy-only") None None) false
           (touchApiTokenLastUsed 100 a_row a_db)).
  - by vm_compute.
  - intros t Ht. discriminate Ht.
Defined.

(** A token that is revoked, expired or of an unknown scope, or mistyped, is refused. *)
Example refused_tokens :
  let db row := mkAuthDb [] [row] (Some "secret") true in
  let v row now := validateApiToken a_digest a_digest32 (db row) now in
  v (mkApiToken 1 a_token "ci" "deploy-only" 7 None None (Some 50)) 100 a_token = inl revoked
  /\ v (mkApiToken 1 a_token "ci" "deploy-only" 7 None (Some 99) None) 100 a_token = inl expired
  /\ v (mkApiToken 1 a_token "ci" "deploy-only" 7 None (Some 100) None) 100 a_token
     = inr (mkApiToken 1 a_token "ci" "deploy-only" 7 None (Some 100) None)
  /\ v (mkApiToken 1 a_token "ci" "root" 7 None None None) 100 a_token = inl unknown_scope
  /\ v a_row 100 (API_TOKEN_PREFIX +:+ text62 (replicate 49 7)) = inl bad_checksum
  /\ v a_row 100 "sen_sk_short" = inl not_api_token.
Proof. by vm_compute. Qed.

Lemma evidence_header_roundtrip_witness :
  parseScopedStackActionsHeader (formatScopedStackActionsHeader [stack_read; stack_deploy; stack_read])
  = Some [stack_read; stack_deploy].
Proof. apply (evidence_header_roundtrip [stack_read; stack_deploy; stack_read]). done. Defined.

Lemma checksum_injective_witness : base62Encode32 7 = "AAAAAH" /\ base62Encode32 (62 * 62 + 1) = "AAABAB" /\ 7 = 7.
Proof. split_and!; [reflexivity|reflexivity|apply (checksum_injective 7 7); [lia|lia|reflexivity]]. Defined.

Lemma token_reach_witness :
  enforceApiTokenScope (mkRequest "POST" "/stacks/web/deploy" 1 None (Some "deploy-only") None None) = true
  /\ enforceApiTokenScope (mkRequest "POST" "/stacks/web/delete" 1 None (Some "deploy-only") None None) = false.
Proof.
  split; [|by vm_compute].
  apply (token_reach (mkRequest "POST" "/stacks/web/deploy" 1 None (Some "deploy-only") None None) sc_deploy_only eq_refl).
  right. split; [reflexivity|]. exists "web", "deploy". split; [by vm_compute|]. left. split; [reflexivity|]. left.
Defined.
